(* ===== verification/_CoqProject ===== *)
-Q . S2P
Prelude.v
LinkedList.v
CString.v
TimeVal.v
HashTable.v
AvlTree.v
SockIO.v
Md5.v
Config.v
Partition.v
Icp.v
Clib.v
ThreadQueue.v
Idea.v
TextDoc.v
PalmDoc.v
CacheSim.v
Trace.v
TraceTools.v
SimClient.v
BpTimer.v
Proxies.v
Redirect.v
HttpHeaders.v
HttpComm.v
Args.v
UserPrefs.v
UrlMagic.v
Dispatch.v
Server.v
HttpGo.v
