(* ===== verification/Prelude.v ===== *)
(** * GloMop / TranSend: the cache client, the worker pool and the trace cipher

    A verification of the core of the Berkeley Smart Proxy (src/tcsproxy).
    The front end accepts HTTP requests, hands them to a pool of worker
    threads, fetches documents through the cache client library and sends
    them through distillers.  Modelled are the client library (client_lib),
    the pool (frontend/src/thr_queue.c), the cipher with which the traces of
    the service are made anonymous (playback/logparse), and the distiller that
    turns text into documents for Pilot hand-helds (text2doc).

    ** Parts and files

    - [Prelude] (this file): the outcomes of a C function, the state monad
      [M], machine integers, bytes, tactics and generic lemmas.
    - [LinkedList]: the doubly-linked lists and their node allocator
      (client_lib/src/utils.c): [ll_add_to_start], [ll_sorted_insert],
      [ll_del], ..., on a heap of cells.
    - [CString]: searching, tokenizing, list parsing and dumping (utils.c).
    - [TimeVal]: the time arithmetic [tv_*] and [ts_*] (utils.c).
    - [HashTable]: chained hash tables over the lists of [LinkedList]
      (utils.c).
    - [AvlTree]: the balanced trees with parent pointers (utils.c).
    - [SockIO]: complete reads and writes, timeouts, connecting, listening
      (utils.c), against a scripted operating system.
    - [Md5]: the message digest (md5.c), and the class [Digest] through which
      the partitions use it.
    - [Config]: option lists and the configuration tokenizer (configure.c).
    - [Partition]: the list of cache servers, the choice of a server and the
      failover (part.c), over [LinkedList], [Md5] and [SockIO].
    - [Icp]: the ICP datagrams and the HTTP transfers (icp.c).
    - [Clib]: the public operations [Clib_Fetch], [Clib_Query], ... and the
      split of a response (clib.c), over [Partition] and [Icp].
    - [ThreadQueue]: [make_threads], [get_task] and [dispatch]
      (frontend/src/thr_queue.c) as a step relation over threads.
    - [Idea]: the IDEA cipher (playback/logparse/idea.c) and its chaining
      (httpde_univ.c).
    - [TextDoc], [PalmDoc]: the text-to-Doc distiller (text2doc.c): the
      compressor, and the database around the compressed records.
    - [CacheSim]: the cache simulator of the trace tools
      (playback/src/cachesim/cache.c).
    - [Trace]: the records of the traces (playback/src/logparse.c), the
      completion of URLs (http_task.c), and the statistics and the main loop of
      the simulator (cachesim/httpstats.c, cachesim.c), over [CacheSim] and
      [SockIO].
    - [TraceTools]: the tools that read traces: [netsend], [showtrace] and
      [sep_clients].
    - [SimClient]: the clients that the trace player simulates
      (playback/src/simclient.c), over the records of [Trace].
    - [BpTimer]: the timer of the trace player (playback/src/bp_timer.c) as a
      transition system over the sorted lists of [LinkedList] and the times of
      [TimeVal].
    - [Proxies], [Redirect]: the TCP redirector (tcp_redirect): the front ends
      that it chooses in turn (proxies.c), over [LinkedList], and the relay of
      the connections with its main loop (connections.c, tcp_redirect.c).

    - [HttpHeaders], [HttpComm]: the front end's blocks of message headers
      (httpsupport.c, the [DistillerBuffer] of distinterface.h), and its reading
      of requests, error pages and bypasses (comm_http.c), over [SockIO] and
      [Clib].
    - [Args], [UserPrefs]: the argument lists of distinterface.h, and the users'
      preferences: their database (gdbm, the class [Gdbm]) with its cache, and
      the form that changes them (userpref.c, parse_upref.c).
    - [UrlMagic]: argument lists in URLs (url_magic.c).
    - [Dispatch]: running a document through the distillers: the choice of a
      distiller, retries, routes and the headers of the reply (dispatch.c),
      over [HttpHeaders], [HttpComm] and [Args]; [Distill] is a parameter.
    - [Server]: getting the document of a request from the cache, or the
      request for a worker (cacheop.c, [server_dispatch] of dispatch.c), over
      [Clib].
    - [HttpGo]: the procedure that a worker thread runs for a connection
      (httpgo.c), over all of the front end's components.

    Definitions carry the names of the C functions; a loop of the function
    [f] is [f_loop].  A C struct is a record, an enumeration an inductive
    type, a buffer a list of bytes that is indexed with bounds checks.

    ** Outcomes, fuel and the environment

    Every function that can fail returns an [outcome]: [Ret], [Exit],
    [Crash] for undefined behaviour (a bad pointer, an access out of bounds,
    a failed assertion, a use after free) or [Stuck] when a loop has used up
    its fuel.  Fuel bounds a measure that the code decreases: list lengths in
    [LinkedList], tree heights in [AvlTree], the answers of the script in
    [SockIO] and [Icp], 16 turns for the Euclidean loop of [Idea.inv], the
    servers of the list in [Partition]; the theorems conclude [Ret], so they
    show that the fuel is enough.  Where the code really loops for ever this is
    stated as such: [tcp_retry_livelock] and [fetch_retry_livelock] hold for
    every fuel.

    System calls read their answers from scripts in the state ([io] in
    [SockIO], [net] in [Partition] and [Clib]), over which theorems quantify:
    short transfers, interruptions, refused connections.  [malloc] and its
    uninitialised memory are parameters.  In [ThreadQueue] the scheduler, the
    choice of the thread a signal wakes and spurious wakeups are arbitrary.

    ** What the theorems show

    - Data structures: operation by operation, and for sequences of
      operations, lists, hash tables and trees behave as plain lists and
      sorted lists, keep their pointers consistent (forward, backward, parent)
      and leave other structures alone ([ll_exec_refines], [ll_exec_frame],
      [chained_hash_refines], [tree_add_refines], [tree_delete_refines],
      [tree_search_spec], [tree_next_inorder]).
    - Strings and numbers: [strcasestr_spec], [dumb_strnstr_spec],
      [strtok_all_spec], [ll_build_print], [all_tokens_words],
      [time_ops_exact].
    - Digest and cipher: streaming MD5 is the digest of the whole message
      ([md5_streaming]); IDEA's [mul] is multiplication modulo 65537, [inv] is
      total and the inverse, the key schedule is the 25-bit rotation of the
      128-bit key ([en_key_rotates]), and decryption undoes encryption, for
      blocks and for chained texts, exactly when at most four bytes are left
      behind the last whole block ([idea_roundtrip],
      [idea_chaining_roundtrip]); longer tails overrun an array
      ([idea_tail_overruns]).
    - Transfers: what is written is received, prefixes are reported
      faithfully, requests are recognised and answers collected within their
      buffers ([transfer_roundtrip], [write_timeout_prefix],
      [http_request_on_wire], [http_receive_collects],
      [request_end_detected], [icp_reply_roundtrip], [icp_query_layout]).
    - Cache client: the list of servers, unless an addition overruns its
      block ([part_exec_refines], [part_add_overflow]), [partition_affinity],
      [partition_in_range], the failover among servers on port 3128
      ([tcp_failover]; on others it does not end, [tcp_retry_livelock]),
      [fetch_ok], [header_split], [canonicalize_idempotent],
      [url_roundtrip].
    - Distiller: what the compressor writes expands to its input, and the
      compressor overruns its buffer only on records that cost more than the
      6000 bytes it has ([compress_roundtrip]); if no record does, the
      database gives the text, its length and its name back
      ([distiller_roundtrip]).
    - Cache simulator: it is a cache with least recently used replacement
      ([cache_refines_lru]), with the results that cache.h documents except
      that an addition always returns 0, and unless a document is touched
      while it is alone in the cache ([lone_touch_evicts_recent]).
    - Traces: the records of the chosen clients arrive whole
      ([netsend_roundtrip]); each client's records go to its own file
      ([sep_clients_separates]); the counters of the simulator are those of
      the trace and of the cache ([cachesim_statistics]), until it processes a
      freed record at the end ([cachesim_ends_in_crash]).
    - Trace player: the clients replay the blocks of their files
      ([player_refines]), a single one its whole trace, cyclically
      ([client_replays_cyclically]), two of them only their beginnings
      ([two_clients_restart]); in every interleaving each task of the timer is
      started exactly once and not too early ([timer_safe]), and a due task is
      started at once ([due_task_starts]).
    - Redirector: the bytes of each side reach the other whole and in order
      ([relay_safe], [relay_block]), unless a read that select announced is put
      off or interrupted ([spurious_read_crashes]) or a connection to a proxy
      is made without waiting ([instant_connect_unserved]); the proxies are
      those of a plain list with counters, with the results that proxies.h
      documents but for two ([proxies_refine]), taken in turn ([round_robin]),
      and two failures at once can lose one ([disabled_twice_lost]).
    - Front end: header blocks are lists of fields ([headers_refine]); a
      request is collected as it was sent, within its buffer up to one byte
      ([readline_headers], [large_body_aborts]), the end of the input being
      reported as a failure ([end_of_file]), and taken apart
      ([parse_request_line]); error pages are whole ([error_page_sent]).  The
      preferences are a map from users to well-formed argument lists, whatever
      the forms contain ([prefs_refine], [prefs_typed], [form_sets_prefs]), for
      users with a known address ([zero_user_empty]) and as long as gdbm
      stores what it is given ([failed_store_unnoticed]);
      arguments travel in URLs and back if they survive being printed
      ([magic_roundtrip], [empty_text_undefined]).  A request is
      dispatched in bounded time whatever the distillers answer
      ([dispatch_bounded]), with one distiller more than the limit of ten
      ([eleven_stages]), and a route is followed in its order, each distiller
      working on the answer of the one before ([route_followed]).  POSTs and requests for workers are forwarded whole
      ([post_forwarded], [worker_request]).  From the bytes of the request to
      those of the reply, a page is passed on as it is ([page_passed_on]) or
      replaced by what its distiller answers ([page_distilled]).
    - Worker pool: mutual exclusion and no failed assertion
      ([pool_invariant]), first-in first-out ([dispatch_fifo]), termination
      with every task run for one accept loop, three or more threads and
      tasks that do not dispatch themselves ([pool_completes]), and its limits ([pool_deadlocks],
      [single_thread_stalls]).

    Theorems whose conclusion is a crash, a loop or a deadlock, and the
    examples next to them, record defects of the code that the model exhibits.

    ** Not modelled

    - The go procedure of the Wingman client, the scheduler of the trace
      player and the other filters over traces, and the HTML munger: not yet.
    - Start-up, logging, message formatting and the monitoring thread: output
      only, partly in floating point.
    - The image mungers and the SGML lexer (third-party or generated code), the
      stubs for Tcl, Perl, Java and Mash (bindings), the PTM, the distiller and
      the cache manager libraries (C++), the tests and the history files.
    - Pthread errors other than those a parameter gives, signals, and the data
      races of unsynchronised monitoring reads. *)

From stdpp Require Export base tactics list gmap numbers strings.
From Stdlib Require Export ZArith Lia.

(** ** Outcomes of a C function

    [Ret a]: the function returns [a]; [Exit c]: the process calls [exit(c)];
    [Crash]: the execution reaches undefined behaviour (NULL dereference,
    access out of bounds, failed [assert]); [Stuck]: a loop ran out of its
    fuel, that is, the C loop does not terminate or blocks forever. *)
Inductive outcome (A : Type) : Type :=
| Ret (a : A)
| Exit (code : Z)
| Crash
| Stuck.
Arguments Ret {A} a.
Arguments Exit {A} code.
Arguments Crash {A}.
Arguments Stuck {A}.

#[export] Instance outcome_mret : MRet outcome := @Ret.
#[export] Instance outcome_mbind : MBind outcome := λ A B f m,
  match m with
  | Ret a => f a
  | Exit c => Exit c
  | Crash => Crash
  | Stuck => Stuck
  end.
#[export] Instance outcome_fmap : FMap outcome := λ A B f m,
  match m with
  | Ret a => Ret (f a)
  | Exit c => Exit c
  | Crash => Crash
  | Stuck => Stuck
  end.

(** ** Stateful C functions: state passing with an outcome *)
Definition M (S A : Type) : Type := S → outcome (A * S).

#[export] Instance M_mret {S} : MRet (M S) := λ A a s, Ret (a, s).
#[export] Instance M_mbind {S} : MBind (M S) := λ A B f m s,
  match m s with
  | Ret (a, s') => f a s'
  | Exit c => Exit c
  | Crash => Crash
  | Stuck => Stuck
  end.

Definition get {S} : M S S := λ s, Ret (s, s).
Definition gets {S A} (f : S → A) : M S A := λ s, Ret (f s, s).
Definition modify {S} (f : S → S) : M S () := λ s, Ret ((), f s).
Definition exit {S A} (c : Z) : M S A := λ _, Exit c.
Definition crash {S A} : M S A := λ _, Crash.
Definition stuck {S A} : M S A := λ _, Stuck.
(** [assert(b)]: a failed assertion aborts the process. *)
Definition c_assert {S} (b : bool) : M S () := if b then mret () else crash.
(** Dereferencing a pointer that may be NULL. *)
Definition deref {S A} (p : option A) : M S A :=
  match p with Some a => mret a | None => crash end.

(** Arithmetic on integers is left to [lia]. *)
#[global] Arguments Z.eqb : simpl never.
#[global] Arguments Z.leb : simpl never.
#[global] Arguments Z.ltb : simpl never.
#[global] Arguments Z.add : simpl never.
#[global] Arguments Z.sub : simpl never.
#[global] Arguments Z.mul : simpl never.
#[global] Arguments Z.of_nat : simpl never.
#[global] Arguments Z.to_nat : simpl never.

(** Addresses of heap cells. *)
Abbreviation loc := nat (only parsing).

(** Types of [void *] values, with their NULL. *)
Class Null (D : Type) := null : D.
#[export] Instance option_null {A} : Null (option A) := None.

(** ** Machine integers *)
Definition wrap (w : Z) (z : Z) : Z := z mod 2 ^ w.
Definition swrap (w : Z) (z : Z) : Z := (z + 2 ^ (w - 1)) mod 2 ^ w - 2 ^ (w - 1).
Abbreviation u8 := (wrap 8) (only parsing).
Abbreviation u16 := (wrap 16) (only parsing).
Abbreviation u32 := (wrap 32) (only parsing).
Abbreviation u64 := (wrap 64) (only parsing).
Abbreviation i32 := (swrap 32) (only parsing).

(** ** Bytes and C strings

    A byte is an integer in [0, 256); a C string is the list of its bytes
    before the terminating NUL. *)
Abbreviation byte := Z (only parsing).
Abbreviation bytes := (list Z) (only parsing).

Definition ascii_byte (a : Ascii.ascii) : Z := Z.of_N (Ascii.N_of_ascii a).
Fixpoint bytes_of (s : string) : list Z :=
  match s with
  | EmptyString => []
  | String a s' => ascii_byte a :: bytes_of s'
  end.

(** The C string at the start of a buffer. *)
Fixpoint c_str (s : bytes) : bytes := match s with [] => [] | c :: s' => if (c =? 0)%Z then [] else c :: c_str s' end.

(** Integers in memory, on a little-endian machine. *)
Fixpoint of_le (s : list Z) : Z := match s with [] => 0 | b :: s' => b + 256 * of_le s' end%Z.
Fixpoint to_le (n : nat) (z : Z) : list Z :=
  match n with O => [] | S n' => (z mod 256)%Z :: to_le n' (z / 256)%Z end.

Definition is_byte (b : Z) : Prop := (0 ≤ b < 256)%Z.

(** ** Tactics *)

(** Runs one monadic step whose outcome is known. *)
Lemma bind_ret {S A B} (m : M S A) (f : A → M S B) s a s' :
  m s = Ret (a, s') → (m ≫= f) s = f a s'.
Proof. intros H. unfold mbind, M_mbind. by rewrite H. Qed.

Lemma mret_bind {S A B} (a : A) (f : A → M S B) s : (mret a ≫= f) s = f a s.
Proof. done. Qed.

Lemma M_assoc {S A B C} (m : M S A) (f : A → M S B) (g : B → M S C) s :
  ((m ≫= f) ≫= g) s = (m ≫= λ a, f a ≫= g) s.
Proof. unfold mbind, M_mbind. by destruct (m s) as [[??]| | |]. Qed.

Lemma bind_ret_inv {S A B} (m : M S A) (f : A → M S B) s b s'' :
  (m ≫= f) s = Ret (b, s'') →
  ∃ a s', m s = Ret (a, s') ∧ f a s' = Ret (b, s'').
Proof.
  unfold mbind, M_mbind. destruct (m s) as [[a s']|?| |] eqn:E; [|done..].
  intros H. by exists a, s'.
Qed.

Ltac step_with H := rewrite (bind_ret _ _ _ _ _ H); cbn beta.
Ltac csimpl_in_all := repeat (progress simplify_eq/=).

(** Splits conjunctions, existentials and pairs of the context. *)
Ltac destruct_all :=
  repeat match goal with
  | H : _ ∧ _ |- _ => destruct H
  | H : ∃ _, _ |- _ => destruct H
  | x : prod _ _ |- _ => destruct x
  end.

(** Equalities between concatenations, up to their nesting. *)
Ltac app_norm := repeat (progress (rewrite <-?app_assoc; cbn [app])); rewrite ?app_nil_r; reflexivity.
(** Arithmetic on the lengths of concatenations. *)
Ltac len_norm := repeat (progress (rewrite ?length_app, ?length_cons, ?length_nil, ?length_replicate; cbn [app])).
Ltac len_norm_in H := repeat (progress (rewrite ?length_app, ?length_cons, ?length_nil, ?length_replicate in H; cbn [app] in H)).
Ltac len_lia := len_norm; lia.

Create HintDb glomop.

(** ** Generic lemmas *)

Lemma wrap_range w z : (0 ≤ w)%Z → (0 ≤ wrap w z < 2 ^ w)%Z.
Proof. intros. apply Z.mod_pos_bound. lia. Qed.

Lemma wrap_small w z : (0 ≤ z < 2 ^ w)%Z → wrap w z = z.
Proof. intros. by apply Z.mod_small. Qed.

Lemma wrap_wrap w z : wrap w (wrap w z) = wrap w z.
Proof. apply Z.mod_mod_divide. exists 1%Z. lia. Qed.

Lemma c_str_stop s rest : Forall (λ c, c ≠ 0%Z) s → c_str (s ++ 0%Z :: rest) = s.
Proof.
  induction 1 as [|c s Hc _ IH]; [done|]. cbn [app c_str]. rewrite (proj2 (Z.eqb_neq c 0)) by done. by rewrite IH.
Qed.

Lemma c_str_whole s : Forall (λ c, c ≠ 0%Z) s → c_str s = s.
Proof. induction 1 as [|c s Hc _ IH]; [done|]. cbn [c_str]. rewrite (proj2 (Z.eqb_neq c 0)) by done. by rewrite IH. Qed.
Lemma c_str_no_nul s : Forall (λ c, c ≠ 0%Z) (c_str s).
Proof. induction s as [|c s IH]; [constructor|]. cbn [c_str]. destruct (Z.eqb_spec c 0); by constructor. Qed.

Lemma length_to_le n z : length (to_le n z) = n.
Proof. revert z. induction n; intros; cbn; by f_equal. Qed.

Lemma of_le_to_le n z : (0 ≤ z < 256 ^ Z.of_nat n)%Z → of_le (to_le n z) = z.
Proof.
  revert z. induction n as [|n IH]; intros z Hz; cbn [to_le of_le]; [lia|].
  rewrite Nat2Z.inj_succ, Z.pow_succ_r in Hz by lia.
  rewrite IH; [pose proof (Z.div_mod z 256); lia|].
  split; [apply Z.div_pos; lia|apply Z.div_lt_upper_bound; lia].
Qed.

Lemma of_le_range s : Forall is_byte s → (0 ≤ of_le s < 256 ^ Z.of_nat (length s))%Z.
Proof.
  induction 1 as [|b s Hb _ IH]; cbn [of_le length]; [lia|].
  rewrite Nat2Z.inj_succ, Z.pow_succ_r by lia. unfold is_byte in Hb. lia.
Qed.

Lemma to_le_of_le s : Forall is_byte s → to_le (length s) (of_le s) = s.
Proof.
  induction 1 as [|b s Hb _ IH]; cbn [of_le to_le length]; [done|]. unfold is_byte in Hb.
  replace (b + 256 * of_le s)%Z with (b + of_le s * 256)%Z by lia.
  rewrite Z_mod_plus_full, Z.mod_small, Z.div_add, Z.div_small, Z.add_0_l, IH by lia. done.
Qed.

Lemma to_le_bytes n z : Forall is_byte (to_le n z).
Proof. revert z. induction n; intros z; cbn; constructor; [apply Z.mod_pos_bound; lia|done]. Qed.

Lemma land_shiftl_small a b n : (0 ≤ n → 0 ≤ b < 2 ^ n → Z.land (Z.shiftl a n) b = 0)%Z.
Proof.
  intros Hn Hb. apply Z.bits_inj'. intros i Hi. rewrite Z.land_spec, Z.bits_0. destruct (Z.lt_ge_cases i n).
  - by rewrite Z.shiftl_spec_low.
  - rewrite <-(Z.mod_small b (2 ^ n)) by done. rewrite Z.mod_pow2_bits_high by lia. apply andb_false_r.
Qed.

Lemma last_app_one {A} (l : list A) x : last (l ++ [x]) = Some x.
Proof. apply last_snoc. Qed.

#[export] Hint Resolve wrap_range : glomop.
