(* ===== verification/LinkedList.v ===== *)
(** * Linked lists (client_lib/src/utils.c, lines 700-925)

    The doubly-linked lists of the client library, at the level of the heap:
    nodes live in a store indexed by addresses, [Allocate_ll] and [Free_ll]
    manage the free list [heap_o_ll] that the code grows by blocks of
    [LL_HEAPSIZE] nodes, and every assignment of a [next] or [prev] field is
    an update of the store.  The theorems relate the operations to plain
    lists through the representation predicate [dll]. *)

From S2P Require Import Prelude.

(** ** Data *)

Definition LL_HEAPSIZE : nat := 50.

Record ll_node (D : Type) := Node {
  data : D;
  next : option loc;
  prev : option loc;
}.
Arguments Node {D} _ _ _.
Arguments data {D} _.
Arguments next {D} _.
Arguments prev {D} _.

Definition set_data {D} (d : D) (n : ll_node D) := Node d (next n) (prev n).
Definition set_next {D} (p : option loc) (n : ll_node D) := Node (data n) p (prev n).
Definition set_prev {D} (p : option loc) (n : ll_node D) := Node (data n) (next n) p.

(** The memory of the list routines: the nodes, the head of the free list,
    the next address [malloc] hands out and the number of blocks that it can
    still provide. *)
Record ll_mem (D : Type) := Mem {
  cells : gmap loc (ll_node D);
  heap_o_ll : option loc;
  brk : loc;
  blocks_left : nat;
}.
Arguments Mem {D} _ _ _ _.
Arguments cells {D} _.
Arguments heap_o_ll {D} _.
Arguments brk {D} _.
Arguments blocks_left {D} _.

Definition set_cells {D} (f : gmap loc (ll_node D) → gmap loc (ll_node D)) (m : ll_mem D) :=
  Mem (f (cells m)) (heap_o_ll m) (brk m) (blocks_left m).
Definition set_free {D} (p : option loc) (m : ll_mem D) :=
  Mem (cells m) p (brk m) (blocks_left m).

(** ** Operations *)
Section ops.
Context {D : Type} `{Null D}.
(** The content of freshly allocated memory. *)
Variable uninit : ll_node D.

Abbreviation cmd := (M (ll_mem D)).

(** [*p], with [p] possibly NULL. *)
Definition load (p : option loc) : cmd (ll_node D) :=
  a ← deref p;
  m ← get;
  deref (cells m !! a).

(** An assignment to a field of [*p]. *)
Definition update (p : option loc) (f : ll_node D → ll_node D) : cmd () :=
  a ← deref p;
  _ ← load p;
  modify (set_cells (alter f a)).

(** [malloc(LL_HEAPSIZE * sizeof(ll_node))]. *)
Definition malloc_nodes : cmd (option loc) := λ m,
  match blocks_left m with
  | O => Ret (None, m)
  | S k =>
      Ret (Some (brk m),
           Mem (foldr (λ a, insert a uninit) (cells m) (seq (brk m) LL_HEAPSIZE))
               (heap_o_ll m) (brk m + LL_HEAPSIZE) k)
  end.

(** The loop that chains the nodes [base + counter .. base + last - 1]. *)
Fixpoint chain_block (base : loc) (n counter : nat) : cmd () :=
  match n with
  | O => mret ()
  | S n' =>
      let a := Some (base + counter) in
      _ ← update a (set_data null);
      _ ← update a (set_prev None);
      _ ← update a (set_next (Some (base + counter + 1)));
      chain_block base n' (S counter)
  end.

Definition Allocate_ll : cmd loc :=
  m ← get;
  _ ← match heap_o_ll m with
      | Some _ => mret ()
      | None =>
          p ← malloc_nodes;
          match p with
          | None => exit 1
          | Some base =>
              _ ← modify (set_free (Some base));
              _ ← chain_block base (LL_HEAPSIZE - 1) 0;
              update (Some (base + (LL_HEAPSIZE - 1))) (set_next None)
          end
      end;
  temp_pointer ← gets heap_o_ll;
  n ← load temp_pointer;
  _ ← modify (set_free (next n));
  _ ← update temp_pointer (set_next None);
  deref temp_pointer.

Definition Free_ll (freeMe : loc) : cmd () :=
  hd ← gets heap_o_ll;
  _ ← update (Some freeMe) (set_next hd);
  modify (set_free (Some freeMe)).

(** Fuel of the traversals: a path of the heap visits each cell once. *)
Definition walk_fuel (m : ll_mem D) : nat := S (size (cells m)).

(** [while (temp->next != NULL) temp = temp->next;] *)
Fixpoint walk_to_last (fuel : nat) (temp : option loc) : cmd (option loc) :=
  match fuel with
  | O => stuck
  | S fuel' =>
      n ← load temp;
      match next n with
      | None => mret temp
      | Some _ => walk_to_last fuel' (next n)
      end
  end.

(** The list variable [*addToMe] is passed by value and returned, after the
    result of the C function. *)
Definition ll_add_to_end (addToMe : option loc) (d : D) : cmd (Z * option loc) :=
  match addToMe with
  | None =>
      temp ← Allocate_ll;
      _ ← update (Some temp) (set_data d);
      _ ← update (Some temp) (set_next None);
      _ ← update (Some temp) (set_prev None);
      mret (1%Z, Some temp)
  | Some _ =>
      m ← get;
      temp ← walk_to_last (walk_fuel m) addToMe;
      new ← Allocate_ll;
      _ ← update temp (set_next (Some new));
      _ ← update (Some new) (set_prev temp);
      _ ← update (Some new) (set_next None);
      _ ← update (Some new) (set_data d);
      mret (1%Z, addToMe)
  end.

Definition ll_add_to_start (addToMe : option loc) (d : D) : cmd (Z * option loc) :=
  match addToMe with
  | None =>
      temp ← Allocate_ll;
      _ ← update (Some temp) (set_data d);
      _ ← update (Some temp) (set_next None);
      _ ← update (Some temp) (set_prev None);
      mret (1%Z, Some temp)
  | Some _ =>
      new ← Allocate_ll;
      _ ← update addToMe (set_prev (Some new));
      _ ← update (Some new) (set_next addToMe);
      _ ← update (Some new) (set_prev None);
      _ ← update (Some new) (set_data d);
      mret (1%Z, Some new)
  end.

Section compare.
Variable compare : D → D → Z.

Fixpoint ll_find_loop (fuel : nat) (d : D) (temp : option loc) : cmd (option loc) :=
  match temp with
  | None => mret None
  | Some _ =>
      match fuel with
      | O => stuck
      | S fuel' =>
          n ← load temp;
          if (compare d (data n) =? 0)%Z then mret temp
          else ll_find_loop fuel' d (next n)
      end
  end.

Definition ll_find (findInMe : option loc) (d : D) : cmd (option loc) :=
  m ← get;
  ll_find_loop (walk_fuel m) d findInMe.

Fixpoint ll_sorted_insert_loop (fuel : nat) (insertme : option loc) (d : D)
    (temp : option loc) : cmd (Z * option loc) :=
  match temp with
  | None => ll_add_to_end insertme d
  | Some _ =>
      match fuel with
      | O => stuck
      | S fuel' =>
          n ← load temp;
          if (compare d (data n) <=? 0)%Z then
            addEl ← Allocate_ll;
            _ ← update (Some addEl) (set_data d);
            t ← load temp;
            _ ← update (Some addEl) (set_prev (prev t));
            _ ← update (Some addEl) (set_next temp);
            _ ← update temp (set_prev (Some addEl));
            e ← load (Some addEl);
            match prev e with
            | None => mret (1%Z, Some addEl)
            | Some _ =>
                _ ← update (prev e) (set_next (Some addEl));
                mret (1%Z, insertme)
            end
          else ll_sorted_insert_loop fuel' insertme d (next n)
      end
  end.

Definition ll_sorted_insert (insertme : option loc) (d : D) : cmd (Z * option loc) :=
  m ← get;
  ll_sorted_insert_loop (walk_fuel m) insertme d insertme.

(** [nukeElement] is a callback on the data of the removed nodes (it does
    not touch the list nodes); the data it is applied to, in order, is
    returned last. *)
Definition unlink (delFromMe : option loc) (temp : loc) : cmd (option loc * D) :=
  n ← load (Some temp);
  _ ← match prev n with
      | Some _ => update (prev n) (set_next (next n))
      | None => mret ()
      end;
  n ← load (Some temp);
  _ ← match next n with
      | Some _ => update (next n) (set_prev (prev n))
      | None => mret ()
      end;
  n ← load (Some temp);
  let hd := if decide (Some temp = delFromMe) then next n else delFromMe in
  _ ← Free_ll temp;
  mret (hd, data n).

Fixpoint ll_del_loop (fuel : nat) (delFromMe : option loc) (d : D)
    (temp : option loc) : cmd (Z * option loc * list D) :=
  match temp with
  | None => mret (0%Z, delFromMe, [])
  | Some a =>
      match fuel with
      | O => stuck
      | S fuel' =>
          n ← load temp;
          if (compare d (data n) =? 0)%Z then
            '(hd, nuked) ← unlink delFromMe a;
            mret (1%Z, hd, [nuked])
          else ll_del_loop fuel' delFromMe d (next n)
      end
  end.

Definition ll_del (delFromMe : option loc) (d : D) : cmd (Z * option loc * list D) :=
  m ← get;
  ll_del_loop (walk_fuel m) delFromMe d delFromMe.
End compare.

Definition ll_delfirst (delFromMe : option loc) : cmd (Z * option loc * list D) :=
  match delFromMe with
  | None => mret (0%Z, None, [])
  | Some temp =>
      '(hd, nuked) ← unlink delFromMe temp;
      mret (1%Z, hd, [nuked])
  end.

Fixpoint ll_destroy_loop (fuel : nat) (temp : option loc) : cmd (list D) :=
  match temp with
  | None => mret []
  | Some a =>
      match fuel with
      | O => stuck
      | S fuel' =>
          n ← load temp;
          _ ← Free_ll a;
          nuked ← ll_destroy_loop fuel' (next n);
          mret (data n :: nuked)
      end
  end.

Definition ll_destroy (destroyMe : option loc) : cmd (Z * option loc * list D) :=
  m ← get;
  nuked ← ll_destroy_loop (walk_fuel m) destroyMe;
  mret (1%Z, None, nuked).
End ops.

(** ** Sequences of operations on one list variable *)
Inductive ll_op (D : Type) :=
| OAddEnd (d : D)
| OAddStart (d : D)
| OSorted (d : D)
| OFind (d : D)
| ODel (d : D)
| ODelFirst
| ODestroy.
Arguments OAddEnd {D} d.
Arguments OAddStart {D} d.
Arguments OSorted {D} d.
Arguments OFind {D} d.
Arguments ODel {D} d.
Arguments ODelFirst {D}.
Arguments ODestroy {D}.

(** What the caller observes: the integer result and the data handed to
    [nukeElement], or the data of the node found. *)
Inductive ll_result (D : Type) :=
| RInt (res : Z) (nuked : list D)
| RFound (found : option D).
Arguments RInt {D} res nuked.
Arguments RFound {D} found.

Section exec.
Context {D : Type} `{Null D}.
Variable uninit : ll_node D.
Variable compare : D → D → Z.

Definition ll_step (op : ll_op D) (hd : option loc) : M (ll_mem D) (ll_result D * option loc) :=
  match op with
  | OAddEnd d => '(r, hd') ← ll_add_to_end uninit hd d; mret (RInt r [], hd')
  | OAddStart d => '(r, hd') ← ll_add_to_start uninit hd d; mret (RInt r [], hd')
  | OSorted d => '(r, hd') ← ll_sorted_insert uninit compare hd d; mret (RInt r [], hd')
  | OFind d =>
      p ← ll_find compare hd d;
      match p with
      | None => mret (RFound None, hd)
      | Some a => n ← load (Some a); mret (RFound (Some (data n)), hd)
      end
  | ODel d => '(r, hd', nuked) ← ll_del compare hd d; mret (RInt r nuked, hd')
  | ODelFirst => '(r, hd', nuked) ← ll_delfirst hd; mret (RInt r nuked, hd')
  | ODestroy => '(r, hd', nuked) ← ll_destroy hd; mret (RInt r nuked, hd')
  end.

Fixpoint ll_exec (ops : list (ll_op D)) (hd : option loc) :
    M (ll_mem D) (list (ll_result D) * option loc) :=
  match ops with
  | [] => mret ([], hd)
  | op :: ops' =>
      '(r, hd') ← ll_step op hd;
      '(rs, hd'') ← ll_exec ops' hd';
      mret (r :: rs, hd'')
  end.
End exec.

(** ** Representation predicates *)

(** A doubly-linked segment: [hd] points to its first node, whose [prev] is
    [pp], and the [next] of its last node is [e]. *)
Fixpoint dseg {D} (c : gmap loc (ll_node D)) (pp hd : option loc)
    (l : list (loc * D)) (e : option loc) : Prop :=
  match l with
  | [] => hd = e
  | (a, d) :: l' =>
      hd = Some a ∧ ∃ nx, c !! a = Some (Node d nx pp) ∧ dseg c (Some a) nx l' e
  end.
Definition dll {D} (c : gmap loc (ll_node D)) (hd : option loc) (l : list (loc * D)) : Prop :=
  dseg c None hd l None.

(** The free list: chained by [next] only. *)
Fixpoint fchain {D} (c : gmap loc (ll_node D)) (hd : option loc) (fl : list loc) : Prop :=
  match fl with
  | [] => hd = None
  | a :: fl' => hd = Some a ∧ ∃ n, c !! a = Some n ∧ fchain c (next n) fl'
  end.

Record alloc_wf {D} (m : ll_mem D) (fl : list loc) : Prop := {
  aw_chain : fchain (cells m) (heap_o_ll m) fl;
  aw_nodup : NoDup fl;
  aw_brk : ∀ a, is_Some (cells m !! a) → a < brk m;
}.

(** [ll_wf m fl hd l]: in memory [m], whose free nodes are [fl], the list
    variable [hd] holds the nodes and data [l]. *)
Record ll_wf {D} (m : ll_mem D) (fl : list loc) (hd : option loc) (l : list (loc * D)) : Prop := {
  lw_alloc : alloc_wf m fl;
  lw_dll : dll (cells m) hd l;
  lw_nodup : NoDup (fl ++ l.*1);
}.

(** Every node in use that is not in [own] keeps its content and stays in use. *)
Definition preserves {D} (own : list loc) (m : ll_mem D) (fl : list loc)
    (m' : ll_mem D) (fl' : list loc) : Prop :=
  ∀ a, is_Some (cells m !! a) → a ∉ fl → a ∉ own →
    cells m' !! a = cells m !! a ∧ a ∉ fl'.

(** A node of the heap that is not on the free list. *)
Definition used {D} (m : ll_mem D) (fl : list loc) (a : loc) : Prop :=
  is_Some (cells m !! a) ∧ (a ∉ fl).

(** [k] more nodes can be allocated. *)
Definition can_alloc {D} (k : nat) (m : ll_mem D) (fl : list loc) : Prop :=
  k ≤ length fl + LL_HEAPSIZE * blocks_left m.

Definition end_loc {D} (pp : option loc) (l : list (loc * D)) : option loc :=
  match last l with Some x => Some x.1 | None => pp end.

(** ** The reference operations on plain lists *)

(** Insertion before the first element that is not smaller. *)
Fixpoint insert_sorted {A} (le : A → A → bool) (x : A) (xs : list A) : list A :=
  match xs with
  | [] => [x]
  | y :: ys => if le x y then x :: y :: ys else y :: insert_sorted le x ys
  end.

(** The first element that satisfies [p], and the list without it. *)
Fixpoint remove_first {A} (p : A → bool) (xs : list A) : option (A * list A) :=
  match xs with
  | [] => None
  | y :: ys =>
      if p y then Some (y, ys)
      else match remove_first p ys with
           | Some (z, zs) => Some (z, y :: zs)
           | None => None
           end
  end.

Definition cmp_le {D} (compare : D → D → Z) (d e : D) : bool := (compare d e <=? 0)%Z.
Definition cmp_eq {D} (compare : D → D → Z) (d e : D) : bool := (compare d e =? 0)%Z.

(** The abstract machine: the same operations on a plain list. *)
Definition abs_step {D} (compare : D → D → Z) (op : ll_op D) (xs : list D) :
    ll_result D * list D :=
  match op with
  | OAddEnd d => (RInt 1 [], xs ++ [d])
  | OAddStart d => (RInt 1 [], d :: xs)
  | OSorted d => (RInt 1 [], insert_sorted (cmp_le compare) d xs)
  | OFind d => (RFound (fst <$> remove_first (cmp_eq compare d) xs), xs)
  | ODel d =>
      match remove_first (cmp_eq compare d) xs with
      | Some (e, xs') => (RInt 1 [e], xs')
      | None => (RInt 0 [], xs)
      end
  | ODelFirst =>
      match xs with
      | [] => (RInt 0 [], [])
      | e :: xs' => (RInt 1 [e], xs')
      end
  | ODestroy => (RInt 1 xs, [])
  end.

Fixpoint abs_exec {D} (compare : D → D → Z) (ops : list (ll_op D)) (xs : list D) :
    list (ll_result D) * list D :=
  match ops with
  | [] => ([], xs)
  | op :: ops' =>
      let '(r, xs') := abs_step compare op xs in
      let '(rs, xs'') := abs_exec compare ops' xs' in (r :: rs, xs'')
  end.

(** The memory before the first use of the lists: no node at all. *)
Definition ll_mem_init {D} (blocks : nat) : ll_mem D := Mem ∅ None 0 blocks.

(** ** Lemmas on the store *)
Section store.
Context {D : Type} `{Null D}.
Implicit Types (m : ll_mem D) (c : gmap loc (ll_node D)) (l : list (loc * D)).

Lemma load_Some m a n : cells m !! a = Some n → load (Some a) m = Ret (n, m).
Proof. intros E. unfold load. cbn. unfold mbind, M_mbind. cbn. by rewrite E. Qed.

Lemma alter_Some c a n f : c !! a = Some n → alter f a c = <[a := f n]> c.
Proof.
  intros E. apply map_eq. intros b. rewrite lookup_alter, lookup_insert.
  case_decide; simplify_eq; [by rewrite E|done].
Qed.

Lemma update_Some m a n f :
  cells m !! a = Some n →
  update (Some a) f m = Ret ((), set_cells <[a := f n]> m).
Proof.
  intros E. unfold update. cbn. rewrite (bind_ret _ _ m a m) by done. cbn.
  rewrite (bind_ret _ _ _ _ _ (load_Some _ _ _ E)). cbn. unfold modify, set_cells.
  by rewrite (alter_Some _ _ _ _ E).
Qed.

Lemma dseg_app c pp hd l1 l2 e :
  dseg c pp hd (l1 ++ l2) e ↔
  ∃ mid, dseg c pp hd l1 mid ∧ dseg c (end_loc pp l1) mid l2 e.
Proof.
  revert pp hd. induction l1 as [|[a d] l1 IH]; intros pp hd; cbn.
  - split; [eauto|]. by intros (? & -> & ?).
  - assert (end_loc pp ((a, d) :: l1) = end_loc (Some a) l1) as ->.
    { unfold end_loc. destruct l1 using rev_ind; [done|].
      rewrite app_comm_cons. by rewrite !last_snoc. }
    setoid_rewrite IH. naive_solver.
Qed.

Lemma dseg_frame c c' pp hd l e :
  (∀ a, a ∈ l.*1 → c' !! a = c !! a) → dseg c pp hd l e → dseg c' pp hd l e.
Proof.
  revert pp hd. induction l as [|[a d] l IH]; intros pp hd Hc; cbn in *; [done|].
  intros (-> & nx & Ha & Hl). split; [done|]. exists nx. split.
  - rewrite Hc; [done|set_solver].
  - apply IH; [|done]. intros b Hb. apply Hc. set_solver.
Qed.

Lemma fchain_frame c c' hd fl :
  (∀ a, a ∈ fl → c' !! a = c !! a) → fchain c hd fl → fchain c' hd fl.
Proof.
  revert hd. induction fl as [|a fl IH]; intros hd Hc; cbn in *; [done|].
  intros (-> & n & Ha & Hl). split; [done|]. exists n. split.
  - rewrite Hc; [done|set_solver].
  - apply IH; [|done]. intros b Hb. apply Hc. set_solver.
Qed.

Lemma dseg_lookup c pp hd l e a : dseg c pp hd l e → a ∈ l.*1 → is_Some (c !! a).
Proof.
  revert pp hd. induction l as [|[b d] l IH]; intros pp hd; cbn.
  - set_solver.
  - intros (-> & nx & Hb & Hl) [->|Ha]%elem_of_cons; eauto.
Qed.

Lemma fchain_lookup c hd fl a : fchain c hd fl → a ∈ fl → is_Some (c !! a).
Proof.
  revert hd. induction fl as [|b fl IH]; intros hd; cbn.
  - set_solver.
  - intros (-> & n & Hb & Hl) [->|Ha]%elem_of_cons; eauto.
Qed.

(** A duplicate-free list of cells is no longer than the heap. *)
Lemma nodup_fuel c (l : list loc) :
  NoDup l → (∀ a, a ∈ l → is_Some (c !! a)) → length l ≤ size c.
Proof.
  intros Hnd Hdom. rewrite <-size_dom.
  rewrite <-(size_list_to_set (C := gset loc) l Hnd).
  apply subseteq_size. intros a. rewrite elem_of_list_to_set, elem_of_dom. eauto.
Qed.

Lemma preserves_refl own m fl : preserves own m fl m fl.
Proof. by intros a ? ? ?. Qed.

Lemma preserves_trans own m1 fl1 m2 fl2 m3 fl3 :
  preserves own m1 fl1 m2 fl2 → preserves own m2 fl2 m3 fl3 →
  preserves own m1 fl1 m3 fl3.
Proof.
  intros H1 H2 a Ha Hfl Hown. destruct (H1 a Ha Hfl Hown) as [E1 ?].
  destruct (H2 a) as [E2 ?]; [by rewrite E1|done..|]. by rewrite E2, E1.
Qed.

Lemma preserves_mono own own' m fl m' fl' :
  own ⊆ own' → preserves own m fl m' fl' → preserves own' m fl m' fl'.
Proof. intros Hs HP a ???. apply HP; set_solver. Qed.
End store.

(** Runs [load], [update] and state accesses whose cell is known. *)
Ltac cell_lookup := solve [ cbn; simplify_map_eq; reflexivity | eassumption ].
Ltac mstep :=
  lazymatch goal with
  | |- context [(mbind _ (update (Some ?a) ?f)) ?m] =>
      erewrite (bind_ret (update (Some a) f)) by (apply update_Some; cell_lookup); cbn beta
  | |- context [(mbind _ (load (Some ?a))) ?m] =>
      erewrite (bind_ret (load (Some a))) by (apply load_Some; cell_lookup); cbn beta
  | |- context [(mbind _ (gets ?f)) ?m] =>
      rewrite (bind_ret (gets f) _ m (f m) m) by reflexivity; cbn beta
  | |- context [(mbind _ get) ?m] =>
      rewrite (bind_ret get _ m m m) by reflexivity; cbn beta
  | |- context [(mbind _ (modify ?f)) ?m] =>
      rewrite (bind_ret (modify f) _ m () (f m)) by reflexivity; cbn beta
  | |- context [(mbind _ (mret ?x)) ?m] =>
      rewrite (bind_ret (mret x) _ m x m) by reflexivity; cbn beta
  | |- context [(mbind _ (deref (Some ?a))) ?m] =>
      rewrite (bind_ret (deref (Some a)) _ m a m) by reflexivity; cbn beta
  end.

(** ** The node allocator *)
Section alloc.
Context {D : Type} `{Null D}.
Variable uninit : ll_node D.
Implicit Types (m : ll_mem D) (c : gmap loc (ll_node D)) (l : list (loc * D)).

Lemma foldr_insert_lookup c base n a :
  foldr (λ a, insert a uninit) c (seq base n) !! a =
  if decide (base ≤ a < base + n) then Some uninit else c !! a.
Proof.
  revert base. induction n as [|n IH]; intros base; cbn.
  - case_decide; [lia|done].
  - destruct (decide (a = base)) as [->|].
    + rewrite lookup_insert_eq. case_decide; [done|lia].
    + rewrite lookup_insert_ne by done. rewrite IH.
      repeat case_decide; (done || lia).
Qed.

Lemma chain_block_spec m base n k :
  (∀ a, base + k ≤ a < base + k + n → is_Some (cells m !! a)) →
  ∃ c', chain_block base n k m = Ret ((), set_cells (λ _, c') m) ∧
    ∀ a, c' !! a = if decide (base + k ≤ a < base + k + n)
                   then Some (Node null (Some (a + 1)) None) else cells m !! a.
Proof.
  revert m k. induction n as [|n IH]; intros m k Hd; cbn [chain_block].
  - exists (cells m). split; [by destruct m|]. intros a. case_decide; [lia|done].
  - destruct (Hd (base + k)) as [x Hx]; [lia|].
    cbv zeta. do 3 mstep.
    lazymatch goal with |- context [chain_block base n (S k) ?m'] =>
      destruct (IH m' (S k)) as (c' & Hrun & Hc') end.
    + intros a Ha. cbn. rewrite !insert_insert_eq.
      rewrite lookup_insert_ne by lia. apply Hd. lia.
    + exists c'. split; [by rewrite Hrun|].
      intros a. rewrite Hc'. cbn. rewrite !insert_insert_eq, lookup_insert.
      repeat case_decide; try lia; subst; done.
Qed.

Lemma fchain_seq c base n :
  (∀ a, base ≤ a < base + n → ∃ nd, c !! a = Some nd ∧
     next nd = if decide (S a = base + n) then None else Some (a + 1)) →
  fchain c (if decide (n = 0) then None else Some base) (seq base n).
Proof.
  revert base. induction n as [|n IH]; intros base Hc; cbn; [done|].
  split; [done|]. destruct (Hc base) as (nd & Hnd & Hnx); [lia|].
  exists nd. split; [done|]. rewrite Hnx.
  replace (if decide (S base = base + S n) then None else Some (base + 1))
    with (if decide (n = 0) then None else Some (S base)).
  - apply IH. intros a Ha. destruct (Hc a) as (nd' & Hnd' & Hnx'); [lia|].
    exists nd'. split; [done|]. rewrite Hnx'. by repeat case_decide; try lia.
  - repeat case_decide; try lia; [done|]. f_equal; lia.
Qed.

(** Growing the free list: the new block is chained, nothing else moves. *)
Lemma grow_spec m k :
  heap_o_ll m = None → blocks_left m = S k → alloc_wf m [] →
  ∃ c', (p ← malloc_nodes uninit;
         match p with
         | None => exit 1
         | Some base =>
             _ ← modify (set_free (Some base));
             _ ← chain_block base (LL_HEAPSIZE - 1) 0;
             update (Some (base + (LL_HEAPSIZE - 1))) (set_next None)
         end) m = Ret ((), Mem c' (Some (brk m)) (brk m + LL_HEAPSIZE) k) ∧
    alloc_wf (Mem c' (Some (brk m)) (brk m + LL_HEAPSIZE) k) (seq (brk m) LL_HEAPSIZE) ∧
    ∀ a, is_Some (cells m !! a) → c' !! a = cells m !! a.
Proof.
  intros Hfree Hk [_ _ Hbrk].
  erewrite bind_ret by (unfold malloc_nodes; rewrite Hk; reflexivity). cbv beta iota.
  mstep. unfold set_free. cbn [cells heap_o_ll brk blocks_left].
  edestruct (chain_block_spec
    (Mem (foldr (λ a, insert a uninit) (cells m) (seq (brk m) LL_HEAPSIZE))
       (Some (brk m)) (brk m + LL_HEAPSIZE) k) (brk m) (LL_HEAPSIZE - 1) 0)
    as (c1 & Hrun & Hc1).
  { intros a Ha. cbn [cells]. rewrite foldr_insert_lookup. case_decide; [eauto|lia]. }
  rewrite (bind_ret _ _ _ _ _ Hrun). cbn [cells] in Hc1.
  assert (Hlast : c1 !! (brk m + (LL_HEAPSIZE - 1)) = Some uninit).
  { rewrite Hc1, foldr_insert_lookup.
    case_decide; [lia|]. case_decide; [done|]. unfold LL_HEAPSIZE in *; lia. }
  erewrite update_Some by (cbn [cells set_cells]; exact Hlast). unfold set_cells. cbn [cells heap_o_ll brk blocks_left].
  eexists. split; [reflexivity|].
  assert (Hlk : ∀ a, brk m ≤ a < brk m + LL_HEAPSIZE → ∃ nd,
     <[brk m + (LL_HEAPSIZE - 1) := set_next None uninit]> c1 !! a = Some nd ∧
     next nd = if decide (S a = brk m + LL_HEAPSIZE) then None else Some (a + 1)).
  { intros a Ha. rewrite lookup_insert. case_decide.
    - eexists. split; [done|]. case_decide; [done|unfold LL_HEAPSIZE in *; lia].
    - rewrite Hc1. case_decide; [|unfold LL_HEAPSIZE in *; lia].
      eexists. split; [done|]. cbn. case_decide; [unfold LL_HEAPSIZE in *; lia|done]. }
  assert (Hold : ∀ a, a < brk m ∨ brk m + LL_HEAPSIZE ≤ a →
     <[brk m + (LL_HEAPSIZE - 1) := set_next None uninit]> c1 !! a = cells m !! a).
  { intros a Ha. rewrite lookup_insert_ne by (unfold LL_HEAPSIZE in *; lia).
    rewrite Hc1, foldr_insert_lookup. by repeat case_decide; unfold LL_HEAPSIZE in *; try lia. }
  split.
  - split; cbn [cells heap_o_ll brk].
    + apply (fchain_seq _ _ LL_HEAPSIZE) in Hlk. by rewrite decide_False in Hlk by done.
    + apply NoDup_ListNoDup, seq_NoDup.
    + intros a [n Ha]. destruct (decide (a < brk m + LL_HEAPSIZE)); [done|].
      rewrite Hold in Ha by lia. specialize (Hbrk a ltac:(eauto)). lia.
  - intros a Ha. specialize (Hbrk a Ha). apply Hold. lia.
Qed.

(** Taking the first node off a non-empty free list. *)
Lemma free_splice_spec m a fl k :
  alloc_wf m (a :: fl) → can_alloc (S k) m (a :: fl) →
  ∃ n m',
    (temp_pointer ← gets heap_o_ll;
     n ← load temp_pointer;
     _ ← modify (set_free (next n));
     _ ← update temp_pointer (set_next None);
     deref temp_pointer) m = Ret (a, m') ∧
    alloc_wf m' fl ∧ can_alloc k m' fl ∧ cells m' !! a = Some n ∧ (a ∉ fl) ∧
    ∀ b, b ≠ a → cells m' !! b = cells m !! b.
Proof.
  intros [Hch Hnd Hbrk] Hcan. destruct Hch as (Hhd & n & Ha & Hch).
  apply NoDup_cons in Hnd as [Hnin Hnd].
  mstep. rewrite Hhd. mstep. mstep. mstep.
  eexists _, _. split; [reflexivity|]. split; [|split; [|split; [|split]]].
  - split; cbn.
    + eapply fchain_frame, Hch. intros b Hb. by rewrite lookup_insert_ne by set_solver.
    + done.
    + intros b [x Hx]. rewrite lookup_insert in Hx. case_decide; subst; apply Hbrk; eauto.
  - unfold can_alloc in *. cbn in *. lia.
  - cbn. by rewrite lookup_insert_eq.
  - done.
  - intros b Hb. cbn. by rewrite lookup_insert_ne.
Qed.

Lemma Allocate_ll_spec m fl k :
  alloc_wf m fl → can_alloc (S k) m fl →
  ∃ a n m' fl', Allocate_ll uninit m = Ret (a, m') ∧
    alloc_wf m' fl' ∧ can_alloc k m' fl' ∧ cells m' !! a = Some n ∧ (a ∉ fl') ∧
    ¬ used m fl a ∧ preserves [] m fl m' fl'.
Proof.
  intros Hwf Hcan. unfold Allocate_ll. mstep. destruct fl as [|a fl].
  - assert (Hhd : heap_o_ll m = None) by apply Hwf.
    rewrite Hhd. destruct (blocks_left m) as [|j] eqn:Hj.
    { unfold can_alloc in Hcan. rewrite Hj in Hcan. cbn in Hcan. lia. }
    destruct (grow_spec m j Hhd Hj Hwf) as (c' & Hrun & Hwf' & Hold).
    rewrite (bind_ret _ _ _ _ _ Hrun).
    destruct (free_splice_spec _ (brk m) (seq (S (brk m)) (LL_HEAPSIZE - 1)) k Hwf')
      as (n & m' & Hrun' & Hwf'' & Hcan' & Ha & Hnin & Hfr).
    { unfold can_alloc in *. rewrite Hj in Hcan. cbn [length blocks_left].
      rewrite length_seq. unfold LL_HEAPSIZE in *. cbn in *. lia. }
    eexists (brk m), n, m', _. split; [exact Hrun'|].
    split_and!; try done.
    + intros [Hs _]. apply (aw_brk _ _ Hwf) in Hs. lia.
    + intros b Hb _ _. pose proof (aw_brk _ _ Hwf _ Hb). split.
      * cbn in Hfr. rewrite Hfr by lia. by apply Hold.
      * rewrite elem_of_seq. lia.
  - assert (Hhd : heap_o_ll m = Some a) by apply Hwf. rewrite Hhd. mstep.
    destruct (free_splice_spec m a fl k Hwf Hcan) as (n & m' & Hrun & Hwf' & Hcan' & Ha & Hnin & Hfr).
    eexists a, n, m', fl. split; [exact Hrun|]. split_and!; try done.
    + intros [_ Hin]. set_solver.
    + intros b Hb ??. split; [apply Hfr|]; set_solver.
Qed.

Lemma Free_ll_spec m fl a n :
  alloc_wf m fl → cells m !! a = Some n → a ∉ fl →
  ∃ m', Free_ll a m = Ret ((), m') ∧ alloc_wf m' (a :: fl) ∧
    blocks_left m' = blocks_left m ∧ ∀ b, b ≠ a → cells m' !! b = cells m !! b.
Proof.
  intros [Hch Hnd Hbrk] Ha Hnin. unfold Free_ll. mstep. mstep.
  eexists. split; [reflexivity|]. split; [split|split]; cbn.
  - split; [done|]. eexists. rewrite lookup_insert_eq. split; [done|]. cbn.
    eapply fchain_frame, Hch. intros b Hb. by rewrite lookup_insert_ne by set_solver.
  - by constructor.
  - intros b [x Hx]. rewrite lookup_insert in Hx. case_decide; subst; apply Hbrk; eauto.
  - done.
  - intros b Hb. by rewrite lookup_insert_ne.
Qed.

Lemma walk_to_last_spec m fuel a d l pp :
  dseg (cells m) pp (Some a) ((a, d) :: l) None → length l < fuel →
  walk_to_last fuel (Some a) m = Ret (end_loc (Some a) l, m).
Proof.
  revert a d l pp. induction fuel as [|fuel IH]; intros a d l pp Hl Hf; [lia|].
  cbn [walk_to_last]. destruct Hl as (_ & nx & Ha & Hl). mstep. cbn [next].
  destruct l as [|[b e] l]; [cbn in Hl; by subst|].
  cbn in Hl. destruct Hl as (-> & Hl). cbn in Hf.
  rewrite (IH b e l (Some a) (conj eq_refl Hl)) by lia.
  unfold end_loc. destruct l using rev_ind; [done|]. by rewrite app_comm_cons, !last_snoc.
Qed.

(** Nodes of a well-formed list are in use. *)
Lemma ll_wf_used m fl hd l a : ll_wf m fl hd l → a ∈ l.*1 → used m fl a.
Proof.
  intros [Ha Hd Hnd] Hin. split; [by eapply dseg_lookup|].
  apply NoDup_app in Hnd as (_ & Hdisj & _). intros Hfl. by apply (Hdisj a).
Qed.

Lemma ll_wf_fuel m fl hd l : ll_wf m fl hd l → length l < walk_fuel m.
Proof.
  intros [Ha Hd Hnd]. unfold walk_fuel. apply NoDup_app in Hnd as (_ & _ & Hnd).
  rewrite <-(length_fmap fst l). apply Nat.lt_succ_r, (nodup_fuel (cells m)); [done|].
  intros a Hin. by eapply dseg_lookup.
Qed.

(** A new node [a] whose list nodes [ls] were in use before it was allocated. *)
Lemma nodup_fresh m fl m' fl' (ls : list loc) a own :
  NoDup (fl ++ ls) → NoDup fl' → (∀ b, b ∈ ls → used m fl b) →
  preserves own m fl m' fl' → (∀ b, b ∈ ls → b ∉ own) → ¬ used m fl a → a ∉ fl' →
  NoDup (fl' ++ a :: ls).
Proof.
  intros Hnd Hnd' Hus Hpr Hown Ha Hfl. apply NoDup_app in Hnd as (_ & _ & Hls).
  apply NoDup_app. split_and!; [done| |].
  - intros b Hb [->|Hin]%elem_of_cons; [done|]. destruct (Hus b Hin).
    destruct (Hpr b) as [_ ?]; auto.
  - constructor; [|done]. intros Hin. by apply Ha, Hus.
Qed.

Lemma alloc_wf_insert m fl x n :
  alloc_wf m fl → is_Some (cells m !! x) → x ∉ fl → alloc_wf (set_cells <[x := n]> m) fl.
Proof.
  intros [Hch Hnd Hbrk] Hx Hnin. split; cbn; [|done|].
  - eapply fchain_frame, Hch. intros b Hb. by rewrite lookup_insert_ne by set_solver.
  - intros b [y Hy]. rewrite lookup_insert in Hy. case_decide; subst; eauto.
Qed.

Lemma preserves_insert own m fl m1 fl1 x n :
  preserves own m fl m1 fl1 → x ∈ own ∨ ¬ used m fl x →
  preserves own m fl (set_cells <[x := n]> m1) fl1.
Proof.
  intros Hpr Hx b Hb Hfl Hown. destruct (Hpr b Hb Hfl Hown) as [E ?]. split; [|done].
  cbn. rewrite lookup_insert_ne; [done|]. intros ->. destruct Hx as [|Hx]; [done|].
  apply Hx. by split.
Qed.

Lemma preserves_nil own m fl m' fl' :
  preserves [] m fl m' fl' → preserves own m fl m' fl'.
Proof. apply preserves_mono. set_solver. Qed.

Lemma can_alloc_set_cells k m fl f : can_alloc k m fl → can_alloc k (set_cells f m) fl.
Proof. done. Qed.

(** The nodes of the list are unchanged by an allocation. *)
Lemma dll_alloc m fl hd l m1 fl1 :
  ll_wf m fl hd l → preserves [] m fl m1 fl1 → dll (cells m1) hd l.
Proof.
  intros Hwf Hpr. eapply dseg_frame, Hwf. intros b Hb.
  destruct (ll_wf_used _ _ _ _ _ Hwf Hb). destruct (Hpr b) as [? _]; set_solver.
Qed.

(** An allocated node is new, and the nodes of the list stay in use. *)
Lemma alloc_fresh m fl hd l m1 fl1 a :
  ll_wf m fl hd l → alloc_wf m1 fl1 → preserves [] m fl m1 fl1 →
  ¬ used m fl a → a ∉ fl1 →
  NoDup (fl1 ++ a :: l.*1) ∧ (a ∉ l.*1) ∧ NoDup l.*1 ∧ ∀ b, b ∈ l.*1 → b ∉ fl1.
Proof.
  intros Hwf Hwf1 Hpr ??.
  assert (Hnd : NoDup (fl1 ++ a :: l.*1)).
  { eapply nodup_fresh; [apply Hwf|apply Hwf1| |apply Hpr|set_solver|done|done].
    intros b Hb. by eapply ll_wf_used. }
  split; [done|]. apply NoDup_app in Hnd as (_ & Hd & [??]%NoDup_cons).
  split_and!; [done..|]. intros b Hb Hfl. apply (Hd b Hfl). set_solver.
Qed.
End alloc.

#[export] Hint Resolve alloc_wf_insert preserves_insert preserves_nil
  can_alloc_set_cells preserves_refl : glomop.

(** Membership in the list of nodes of a concrete segment. *)
Ltac in_nodes := rewrite ?fmap_app, ?fmap_cons, ?elem_of_app, ?elem_of_cons; cbn; tauto.

(** Side conditions of [alloc_wf_insert] and [preserves_insert]. *)
Ltac store_side :=
  lazymatch goal with
  | |- is_Some _ =>
      cbn; first [ eexists; eassumption
                 | rewrite ?lookup_insert; repeat case_decide; eauto ]
  | |- _ ∉ _ =>
      first [ assumption
            | match goal with H : ∀ b, b ∈ _ → b ∉ ?fl |- _ ∉ ?fl => apply H; in_nodes end ]
  | |- _ ∈ _ ∨ _ => first [ right; assumption | left; in_nodes ]
  end.
Ltac store_solve :=
  repeat first
    [ assumption
    | apply conj
    | apply can_alloc_set_cells
    | apply alloc_wf_insert; [|store_side|store_side]
    | apply preserves_insert; [|store_side]
    | apply preserves_nil; assumption ].

(** ** Specifications of the list operations *)
Section specs.
Context {D : Type} `{Null D}.
Variable uninit : ll_node D.
Implicit Types (m : ll_mem D) (c : gmap loc (ll_node D)) (l : list (loc * D)).

Lemma ll_add_to_start_spec m fl hd l d k :
  ll_wf m fl hd l → can_alloc (S k) m fl →
  ∃ a m' fl', ll_add_to_start uninit hd d m = Ret ((1%Z, Some a), m') ∧
    ll_wf m' fl' (Some a) ((a, d) :: l) ∧ can_alloc k m' fl' ∧
    preserves l.*1 m fl m' fl' ∧ ¬ used m fl a.
Proof.
  intros Hwf Hcan.
  destruct (Allocate_ll_spec uninit m fl k) as (a & n & m1 & fl1 & Hrun & Hwf1 & Hcan1 & Ha & Hnin & Hnu & Hpr);
    [apply Hwf|done|].
  destruct (alloc_fresh _ _ _ _ _ _ _ Hwf Hwf1 Hpr Hnu Hnin) as (Hnd & Hal & Hndl & Hlive).
  pose proof (dll_alloc _ _ _ _ _ _ Hwf Hpr) as Hl1.
  unfold ll_add_to_start. destruct hd as [h|].
  - destruct l as [|[h' d'] l]; [discriminate|]. destruct Hl1 as ([= ->] & nx & Hh & Hl1).
    cbn in Hal, Hndl. apply NoDup_cons in Hndl as [??]. assert (a ≠ h') by set_solver.
    step_with Hrun. do 4 mstep. eexists a, _, fl1. split; [reflexivity|].
    split; [split|split]; [store_solve| |done|store_solve..].
    cbn. split; [done|]. eexists. split; [by rewrite lookup_insert_eq|].
    cbn. split; [done|]. eexists. split.
    { rewrite !lookup_insert_ne by done. rewrite lookup_insert_eq. reflexivity. }
    eapply dseg_frame, Hl1. intros b Hb. by rewrite !lookup_insert_ne by set_solver.
  - destruct l as [|[h' d'] l]; [|by destruct Hl1].
    step_with Hrun. do 3 mstep. eexists a, _, fl1. split; [reflexivity|].
    split; [split|split]; [store_solve| |done|store_solve..].
    cbn. split; [done|]. eexists. split; [by rewrite lookup_insert_eq|]. done.
Qed.

Lemma ll_add_to_end_spec m fl hd l d k :
  ll_wf m fl hd l → can_alloc (S k) m fl →
  ∃ a hd' m' fl', ll_add_to_end uninit hd d m = Ret ((1%Z, hd'), m') ∧
    ll_wf m' fl' hd' (l ++ [(a, d)]) ∧ can_alloc k m' fl' ∧
    preserves l.*1 m fl m' fl' ∧ ¬ used m fl a.
Proof.
  intros Hwf Hcan.
  destruct (Allocate_ll_spec uninit m fl k) as (a & n & m1 & fl1 & Hrun & Hwf1 & Hcan1 & Ha & Hnin & Hnu & Hpr);
    [apply Hwf|done|].
  destruct (alloc_fresh _ _ _ _ _ _ _ Hwf Hwf1 Hpr Hnu Hnin) as (Hnd & Hal & Hndl & Hlive).
  pose proof (dll_alloc _ _ _ _ _ _ Hwf Hpr) as Hl1.
  pose proof (ll_wf_fuel _ _ _ _ Hwf) as Hfuel.
  assert (Hnd' : NoDup (fl1 ++ (l ++ [(a, d)]).*1)).
  { rewrite fmap_app. cbn. by rewrite <-(Permutation_cons_append l.*1 a). }
  unfold ll_add_to_end. destruct hd as [h|].
  - destruct l as [|[h' d'] l] using rev_ind; [discriminate|clear IHl].
    pose proof (lw_dll _ _ _ _ Hwf) as Hl0.
    assert (Hw : walk_to_last (walk_fuel m) (Some h) m = Ret (Some h', m)).
    { destruct l as [|[h2 d2] l]; cbn in Hl0.
      - destruct Hl0 as ([= ->] & nx & Hh & Hnx). cbn in Hnx; subst.
        rewrite (walk_to_last_spec m _ h' d' [] None); [done| |cbn [app length] in *; lia].
        split; [done|]. exists None. done.
      - destruct Hl0 as ([= ->] & Hl0). rewrite (walk_to_last_spec m _ h2 d2 (l ++ [(h', d')]) None);
          [|by split|cbn [app length] in *; lia].
        unfold end_loc. by rewrite last_snoc. }
    mstep. step_with Hw. step_with Hrun.
    apply dseg_app in Hl1 as (mid & Hl1 & -> & nx & Hh & Hnx). cbn in Hnx. subst nx.
    rewrite fmap_app in Hal, Hndl. apply NoDup_app in Hndl as (_ & Hh'l & _).
    assert (a ≠ h') by set_solver.
    do 4 mstep. eexists a, _, _, fl1. split; [reflexivity|].
    split; [split|split]; [store_solve| |exact Hnd'|store_solve..].
    apply dseg_app. exists (Some a). split.
    + apply dseg_app. exists (Some h'). split.
      * eapply dseg_frame, Hl1. intros b Hb. cbn. rewrite !lookup_insert_ne by set_solver. done.
      * cbn. split; [done|]. eexists. split; [|done]. rewrite !lookup_insert_ne by done.
        rewrite lookup_insert_eq. reflexivity.
    + cbn. split; [done|]. eexists. rewrite !insert_insert_eq, lookup_insert_eq.
      split; [|done]. unfold end_loc. rewrite last_snoc. done.
  - destruct l as [|[h' d'] l]; [|by destruct Hl1].
    step_with Hrun. do 3 mstep. eexists a, _, _, fl1. split; [reflexivity|].
    split; [split|split]; [store_solve| |done|store_solve..].
    cbn. split; [done|]. eexists. split; [by rewrite lookup_insert_eq|]. done.
Qed.

Section compare.
Variable compare : D → D → Z.

(** *** [ll_find] *)
Lemma ll_find_loop_spec m d l pp hd fuel :
  dseg (cells m) pp hd l None → length l < fuel →
  ll_find_loop compare fuel d hd m =
  Ret (fst <$> (fst <$> remove_first (λ x, cmp_eq compare d x.2) l), m).
Proof.
  revert pp hd fuel. induction l as [|[a e] l IH]; intros pp hd fuel Hl Hf.
  - cbn in Hl. subst. by destruct fuel.
  - destruct fuel as [|fuel]; [cbn in Hf; lia|]. destruct Hl as (-> & nx & Ha & Hl).
    cbn [ll_find_loop]. mstep. cbn [data next remove_first snd]. unfold cmp_eq at 1.
    destruct (compare d e =? 0)%Z; [done|].
    rewrite (IH (Some a)) by (done || (cbn in Hf; lia)).
    by destruct (remove_first _ l) as [[[??] ?]|].
Qed.

Lemma ll_find_spec m fl hd l d :
  ll_wf m fl hd l →
  ll_find compare hd d m =
  Ret (fst <$> (fst <$> remove_first (λ x, cmp_eq compare d x.2) l), m).
Proof.
  intros Hwf. unfold ll_find. mstep.
  eapply ll_find_loop_spec; [apply Hwf|by eapply ll_wf_fuel].
Qed.

(** *** [ll_sorted_insert] *)

(** Insertion before the node [t]. *)
Lemma insert_before_spec m fl hd l1 t x l2 d k :
  ll_wf m fl hd (l1 ++ (t, x) :: l2) → can_alloc (S k) m fl →
  ∃ a hd' m' fl',
    (addEl ← Allocate_ll uninit;
     _ ← update (Some addEl) (set_data d);
     t' ← load (Some t);
     _ ← update (Some addEl) (set_prev (prev t'));
     _ ← update (Some addEl) (set_next (Some t));
     _ ← update (Some t) (set_prev (Some addEl));
     e ← load (Some addEl);
     match prev e with
     | None => mret (1%Z, Some addEl)
     | Some _ =>
         _ ← update (prev e) (set_next (Some addEl));
         mret (1%Z, hd)
     end) m = Ret ((1%Z, hd'), m') ∧
    ll_wf m' fl' hd' (l1 ++ (a, d) :: (t, x) :: l2) ∧ can_alloc k m' fl' ∧
    preserves (l1 ++ (t, x) :: l2).*1 m fl m' fl' ∧ ¬ used m fl a.
Proof.
  intros Hwf Hcan.
  destruct (Allocate_ll_spec uninit m fl k) as (a & n & m1 & fl1 & Hrun & Hwf1 & Hcan1 & Ha & Hnin & Hnu & Hpr);
    [apply Hwf|done|].
  destruct (alloc_fresh _ _ _ _ _ _ _ Hwf Hwf1 Hpr Hnu Hnin) as (Hnd & Hal & Hndl & Hlive).
  pose proof (dll_alloc _ _ _ _ _ _ Hwf Hpr) as Hl.
  assert (Hnd' : NoDup (fl1 ++ (l1 ++ (a, d) :: (t, x) :: l2).*1)).
  { rewrite fmap_app in *. cbn in *. by rewrite <-(Permutation_middle l1.*1 (t :: l2.*1) a). }
  apply dseg_app in Hl as (mid & Hl1 & -> & nx & Ht & Hl2).
  rewrite fmap_app in Hal, Hndl. apply NoDup_app in Hndl as (Hnd1 & Hdj & Hnd2).
  cbn in Hnd2. apply NoDup_cons in Hnd2 as [Ht2 Hnd2].
  apply not_elem_of_app in Hal as [? [??]%not_elem_of_cons].
  assert (t ∉ l1.*1) by set_solver.
  step_with Hrun. do 6 mstep. cbn [prev set_prev set_next set_data data next].
  destruct l1 as [|[p y] l1] using rev_ind; [|clear IHl1].
  - unfold end_loc. cbn [last]. cbn in Hl1. subst hd. eexists a, _, _, fl1. split; [reflexivity|].
    split; [split|split]; [store_solve| |exact Hnd'|store_solve..].
    cbn. split; [done|]. eexists. split.
    { rewrite lookup_insert_ne by done. rewrite lookup_insert_eq. reflexivity. }
    cbn. split; [done|]. eexists. split; [rewrite lookup_insert_eq; reflexivity|].
    eapply dseg_frame, Hl2. intros b Hb. by rewrite !lookup_insert_ne by set_solver.
  - apply dseg_app in Hl1 as (mid & Hl1 & -> & nx1 & Hp & Hnx). cbn in Hnx. subst nx1.
    rewrite fmap_app in Hnd1. apply NoDup_app in Hnd1 as (_ & Hp1 & _).
    assert (p ∉ t :: l2.*1) as [? ?]%not_elem_of_cons by (apply Hdj; in_nodes).
    assert (p ∉ l1.*1) by (intros Hin; apply (Hp1 p Hin); cbn; set_solver +).
    repeat match goal with H : _ ∉ (_ ++ _).*1 |- _ =>
      rewrite fmap_app, not_elem_of_app in H; destruct H as [? [??]%not_elem_of_cons] end.
    assert (∀ b, b ∈ l1.*1 → b ≠ p ∧ b ≠ a ∧ b ≠ t) by (intros b Hb; split_and!; congruence).
    unfold end_loc. rewrite last_snoc. cbn [fst]. mstep.
    eexists a, _, _, fl1. split; [reflexivity|].
    split; [split|split]; [store_solve| |exact Hnd'|store_solve..].
    apply dseg_app. exists (Some a). split.
    + apply dseg_app. exists (Some p). split.
      * eapply dseg_frame, Hl1. intros b Hb. cbn. by rewrite !lookup_insert_ne by (apply not_eq_sym; naive_solver).
      * cbn. split; [done|]. eexists. split; [rewrite lookup_insert_eq; reflexivity|done].
    + cbn. split; [done|]. eexists. split.
      { rewrite !lookup_insert_ne by done. unfold end_loc. rewrite last_snoc.
        rewrite lookup_insert_eq. reflexivity. }
      cbn. split; [done|]. eexists. split.
      { rewrite lookup_insert_ne by done. rewrite lookup_insert_eq. reflexivity. }
      eapply dseg_frame, Hl2. intros b Hb. by rewrite !lookup_insert_ne by set_solver.
Qed.

Lemma ll_sorted_insert_loop_spec m fl hd l1 l2 temp d k fuel :
  ll_wf m fl hd (l1 ++ l2) → can_alloc (S k) m fl →
  dseg (cells m) (end_loc None l1) temp l2 None → length l2 < fuel →
  ∃ a hd' m' fl',
    ll_sorted_insert_loop uninit compare fuel hd d temp m = Ret ((1%Z, hd'), m') ∧
    ll_wf m' fl' hd'
      (l1 ++ insert_sorted (λ x y, cmp_le compare x.2 y.2) (a, d) l2) ∧
    can_alloc k m' fl' ∧ preserves (l1 ++ l2).*1 m fl m' fl' ∧ ¬ used m fl a.
Proof.
  revert l1 temp fuel. induction l2 as [|[t x] l2 IH]; intros l1 temp fuel Hwf Hcan Hl Hf.
  - cbn in Hl. subst. rewrite app_nil_r in *. destruct fuel as [|fuel]; [lia|].
    by apply ll_add_to_end_spec.
  - destruct fuel as [|fuel]; [lia|]. pose proof Hl as Hl'. destruct Hl as (-> & nx & Ht & Hl).
    cbn [ll_sorted_insert_loop]. mstep. cbn [data next insert_sorted fst snd].
    destruct (compare d x <=? 0)%Z eqn:E.
    + destruct (insert_before_spec m fl hd l1 t x l2 d k Hwf Hcan)
        as (a & hd' & m' & fl' & Hrun & ? & ? & ?).
      exists a, hd', m', fl'. split; [exact Hrun|]. unfold cmp_le. by rewrite E.
    + destruct (IH (l1 ++ [(t, x)]) nx fuel) as (a & hd' & m' & fl' & Hrun & Hwf' & ? & Hpr & ?).
      * by rewrite <-app_assoc.
      * done.
      * unfold end_loc. by rewrite last_snoc.
      * cbn in Hf. lia.
      * exists a, hd', m', fl'. rewrite <-app_assoc in Hwf', Hpr. split; [exact Hrun|].
        unfold cmp_le at 1. by rewrite E.
Qed.

Lemma ll_sorted_insert_spec m fl hd l d k :
  ll_wf m fl hd l → can_alloc (S k) m fl →
  ∃ a hd' m' fl',
    ll_sorted_insert uninit compare hd d m = Ret ((1%Z, hd'), m') ∧
    ll_wf m' fl' hd' (insert_sorted (λ x y, cmp_le compare x.2 y.2) (a, d) l) ∧
    can_alloc k m' fl' ∧ preserves l.*1 m fl m' fl' ∧ ¬ used m fl a.
Proof.
  intros Hwf Hcan. unfold ll_sorted_insert. mstep.
  apply (ll_sorted_insert_loop_spec m fl hd [] l hd d k); [done..|apply Hwf|by eapply ll_wf_fuel].
Qed.
End compare.

(** *** Deletion *)

(** [temp->prev->next = nx] closes the first part of the list. *)
Lemma relink_prev_spec m fl pp hd l1 e nx :
  dseg (cells m) pp hd l1 e → NoDup l1.*1 → alloc_wf m fl →
  (∀ b, b ∈ l1.*1 → b ∉ fl) → l1 ≠ [] →
  ∃ m1, update (end_loc pp l1) (set_next nx) m = Ret ((), m1) ∧
    dseg (cells m1) pp hd l1 nx ∧ alloc_wf m1 fl ∧ blocks_left m1 = blocks_left m ∧
    ∀ b, b ∉ l1.*1 → cells m1 !! b = cells m !! b.
Proof.
  intros Hl Hnd Hwf Hlive Hne. destruct l1 as [|[p y] l1] using rev_ind; [done|clear IHl1].
  apply dseg_app in Hl as (mid & Hl1 & -> & nx1 & Hp & Hnx).
  rewrite fmap_app in Hnd. apply NoDup_app in Hnd as (_ & Hdj & _).
  unfold end_loc at 1. rewrite last_snoc. cbn [fst].
  erewrite update_Some by exact Hp. eexists. split; [reflexivity|]. split_and!.
  - apply dseg_app. exists (Some p). split.
    + eapply dseg_frame, Hl1. intros b Hb. cbn. rewrite lookup_insert_ne; [done|].
      intros ->. apply (Hdj b Hb). set_solver +.
    + cbn. split; [done|]. eexists. split; [rewrite lookup_insert_eq; reflexivity|done].
  - apply alloc_wf_insert; [done|eauto|]. apply Hlive. in_nodes.
  - done.
  - intros b Hb. cbn. rewrite lookup_insert_ne; [done|]. intros ->. apply Hb. in_nodes.
Qed.

(** [temp->next->prev = pp] closes the second part of the list. *)
Lemma relink_next_spec m fl pp pp' b0 l2 e :
  dseg (cells m) pp (Some b0) l2 e → NoDup l2.*1 → alloc_wf m fl →
  (∀ b, b ∈ l2.*1 → b ∉ fl) → l2 ≠ [] →
  ∃ m1, update (Some b0) (set_prev pp') m = Ret ((), m1) ∧
    dseg (cells m1) pp' (Some b0) l2 e ∧ alloc_wf m1 fl ∧ blocks_left m1 = blocks_left m ∧
    ∀ b, b ∉ l2.*1 → cells m1 !! b = cells m !! b.
Proof.
  intros Hl Hnd Hwf Hlive Hne. destruct l2 as [|[b y] l2]; [done|].
  destruct Hl as ([= ->] & nx & Hb & Hl). cbn in Hnd. apply NoDup_cons in Hnd as [Hnin Hnd].
  erewrite update_Some by exact Hb. eexists. split; [reflexivity|]. split_and!.
  - cbn. split; [done|]. eexists. split; [rewrite lookup_insert_eq; reflexivity|].
    eapply dseg_frame, Hl. intros c Hc. rewrite lookup_insert_ne; [done|]. by intros ->.
  - apply alloc_wf_insert; [done|eauto|]. apply Hlive. in_nodes.
  - done.
  - intros c Hc. cbn. rewrite lookup_insert_ne; [done|]. intros ->. apply Hc. in_nodes.
Qed.

(** The two pointer updates of a removal, the removed node being [t]. *)
Lemma relink_spec m fl hd l1 t l2 nx :
  dseg (cells m) None hd l1 (Some t) → dseg (cells m) (Some t) nx l2 None →
  NoDup (l1.*1 ++ t :: l2.*1) → alloc_wf m fl →
  (∀ b, b ∈ l1.*1 ∨ b ∈ l2.*1 → b ∉ fl) →
  ∃ m1 m2,
    match end_loc None l1 with
    | Some _ => update (end_loc None l1) (set_next nx)
    | None => mret ()
    end m = Ret ((), m1) ∧ cells m1 !! t = cells m !! t ∧
    match nx with
    | Some _ => update nx (set_prev (end_loc None l1))
    | None => mret ()
    end m1 = Ret ((), m2) ∧
    dll (cells m2) (if decide (l1 = []) then nx else hd) (l1 ++ l2) ∧
    alloc_wf m2 fl ∧ blocks_left m2 = blocks_left m ∧
    ∀ b, b ∉ l1.*1 → b ∉ l2.*1 → cells m2 !! b = cells m !! b.
Proof.
  intros Hl1 Hl2 (Hnd1 & Hdj & [Ht2 Hnd2]%NoDup_cons)%NoDup_app Hwf Hlive.
  assert (Hd12 : ∀ b, b ∈ l1.*1 → b ∉ t :: l2.*1) by done.
  assert (∃ m1, match end_loc None l1 with
      | Some _ => update (end_loc None l1) (set_next nx) | None => mret () end m = Ret ((), m1) ∧
      dseg (cells m1) None (if decide (l1 = []) then nx else hd) l1 nx ∧ alloc_wf m1 fl ∧
      blocks_left m1 = blocks_left m ∧ ∀ b, b ∉ l1.*1 → cells m1 !! b = cells m !! b)
    as (m1 & Hr1 & Hs1 & Hw1 & Hb1 & Hf1).
  { destruct (decide (l1 = [])) as [->|Hne]; [by exists m|].
    destruct (relink_prev_spec m fl None hd l1 _ nx Hl1 Hnd1 Hwf) as (m1 & Hr & ?); [naive_solver|done|].
    exists m1. split; [|done]. destruct l1 as [|[p y] l1] using rev_ind; [done|].
    revert Hr. unfold end_loc. rewrite last_snoc. done. }
  assert (Hs2 : dseg (cells m1) (Some t) nx l2 None).
  { eapply dseg_frame, Hl2. intros b Hb. apply Hf1. intros Hb1'. apply (Hd12 b Hb1'). set_solver + Hb. }
  assert (∃ m2, match nx with
      | Some _ => update nx (set_prev (end_loc None l1)) | None => mret () end m1 = Ret ((), m2) ∧
      dseg (cells m2) (end_loc None l1) nx l2 None ∧ alloc_wf m2 fl ∧
      blocks_left m2 = blocks_left m1 ∧ ∀ b, b ∉ l2.*1 → cells m2 !! b = cells m1 !! b)
    as (m2 & Hr2 & Hs2' & Hw2 & Hb2 & Hf2).
  { destruct nx as [b0|].
    - apply relink_next_spec with (pp := Some t); [done..|naive_solver|]. by intros ->.
    - exists m1. destruct l2 as [|[??] l2]; [done|by destruct Hs2]. }
  assert (Htl1 : t ∉ l1.*1) by (intros Hin; apply (Hdj t Hin); set_solver +).
  exists m1, m2. split_and!; [done|by apply Hf1|done| |done|congruence|].
  - apply dseg_app. exists nx. split; [|done]. eapply dseg_frame, Hs1.
    intros b Hb. apply Hf2. intros Hb2'. apply (Hd12 b Hb). set_solver + Hb2'.
  - intros b Hn1 Hn2. rewrite Hf2, Hf1; done.
Qed.

(** Removing the node [t] from the list it belongs to. *)
Lemma unlink_spec m fl hd l1 t x l2 :
  ll_wf m fl hd (l1 ++ (t, x) :: l2) →
  ∃ hd' m', unlink hd t m = Ret ((hd', x), m') ∧
    ll_wf m' (t :: fl) hd' (l1 ++ l2) ∧ blocks_left m' = blocks_left m ∧
    preserves (l1 ++ (t, x) :: l2).*1 m fl m' (t :: fl).
Proof.
  intros Hwf. pose proof (lw_dll _ _ _ _ Hwf) as Hl.
  pose proof (lw_nodup _ _ _ _ Hwf) as Hnd. rewrite fmap_app in Hnd. cbn in Hnd.
  apply NoDup_app in Hnd as (Hndf & Hfree & Hnd).
  apply dseg_app in Hl as (mid & Hl1 & -> & nx & Ht & Hl2).
  destruct (relink_spec m fl hd l1 t l2 nx Hl1 Hl2 Hnd) as
    (m1 & m2 & Hr1 & Ht1 & Hr2 & Hs & Hw2 & Hb2 & Hf2); [apply Hwf| |].
  { intros b Hb Hbf. apply (Hfree b Hbf). set_solver + Hb. }
  apply NoDup_app in Hnd as (Hnd1 & Hdj & [Ht2 Hnd2]%NoDup_cons).
  assert (Htl1 : t ∉ l1.*1) by (intros Hin; apply (Hdj t Hin); set_solver +).
  assert (Htf : t ∉ fl) by (intros Hin; apply (Hfree t Hin); set_solver +).
  assert (Ht2' : cells m2 !! t = Some (Node x nx (end_loc None l1))) by (by rewrite Hf2).
  destruct (Free_ll_spec m2 fl t _ Hw2 Ht2' Htf) as (m3 & Hr3 & Hw3 & Hb3 & Hf3).
  unfold unlink. mstep. cbn [prev next]. step_with Hr1.
  rewrite Ht in Ht1. mstep. cbn [prev next]. step_with Hr2. mstep. step_with Hr3.
  eexists _, m3. split; [reflexivity|]. split; [split|split].
  - done.
  - cbn [next]. replace (if decide (Some t = hd) then nx else hd)
      with (if decide (l1 = []) then nx else hd).
    + eapply dseg_frame, Hs. intros b Hb. apply Hf3. intros ->. rewrite fmap_app in Hb. set_solver.
    + destruct l1 as [|[p y] l1]; [cbn in Hl1; subst; by rewrite !decide_True by done|].
      destruct Hl1 as [-> _]. rewrite !decide_False; [done| |done]. intros [= ->]. set_solver + Htl1.
  - rewrite fmap_app. apply NoDup_cons. split; [rewrite !elem_of_app; tauto|].
    apply NoDup_app. split_and!; [done| |].
    + intros b Hb Hin. apply (Hfree b Hb). set_solver + Hin.
    + apply NoDup_app. split_and!; [done| |done].
      intros b Hb Hin. apply (Hdj b Hb). set_solver + Hin.
  - congruence.
  - intros b Hb Hbf Hbo. rewrite fmap_app, fmap_cons, not_elem_of_app, not_elem_of_cons in Hbo.
    destruct Hbo as (? & ? & ?). split; [rewrite Hf3, Hf2; done|set_solver].
Qed.

Lemma can_alloc_freed k m fl m' a :
  can_alloc k m fl → blocks_left m' = blocks_left m → can_alloc k m' (a :: fl).
Proof. unfold can_alloc. intros ? ->. cbn [length]. lia. Qed.

Lemma ll_del_loop_spec compare m fl hd l1 l2 temp d fuel :
  ll_wf m fl hd (l1 ++ l2) → dseg (cells m) (end_loc None l1) temp l2 None →
  length l2 < fuel →
  match remove_first (λ x, cmp_eq compare d x.2) l2 with
  | None => ll_del_loop compare fuel hd d temp m = Ret ((0%Z, hd, []), m)
  | Some ((t, x), l2') =>
      ∃ hd' m', ll_del_loop compare fuel hd d temp m = Ret ((1%Z, hd', [x]), m') ∧
        ll_wf m' (t :: fl) hd' (l1 ++ l2') ∧ blocks_left m' = blocks_left m ∧
        preserves (l1 ++ l2).*1 m fl m' (t :: fl)
  end.
Proof.
  revert l1 temp fuel. induction l2 as [|[t x] l2 IH]; intros l1 temp fuel Hwf Hl Hf.
  - cbn in Hl. subst. by destruct fuel.
  - destruct fuel as [|fuel]; [lia|]. destruct Hl as (-> & nx & Ht & Hl).
    cbn [ll_del_loop remove_first snd]. unfold cmp_eq at 1.
    destruct (compare d x =? 0)%Z eqn:E.
    + destruct (unlink_spec m fl hd l1 t x l2 Hwf) as (hd' & m' & Hrun & ? & ? & ?).
      exists hd', m'. split; [|done]. mstep. cbn [data]. rewrite E. by step_with Hrun.
    + specialize (IH (l1 ++ [(t, x)]) nx fuel). rewrite <-app_assoc in IH. cbn [app] in IH.
      specialize (IH Hwf). unfold end_loc in IH at 1. rewrite last_snoc in IH.
      specialize (IH Hl ltac:(cbn in Hf; lia)).
      destruct (remove_first _ l2) as [[[t' x'] l2']|].
      * destruct IH as (hd' & m' & Hrun & Hwf' & ? & ?). exists hd', m'.
        rewrite <-app_assoc in Hwf'. split; [|done]. mstep. cbn [data next]. by rewrite E.
      * mstep. cbn [data next]. by rewrite E.
Qed.

Lemma ll_del_spec compare m fl hd l d :
  ll_wf m fl hd l →
  match remove_first (λ x, cmp_eq compare d x.2) l with
  | None => ll_del compare hd d m = Ret ((0%Z, hd, []), m)
  | Some ((t, x), l') =>
      ∃ hd' m', ll_del compare hd d m = Ret ((1%Z, hd', [x]), m') ∧
        ll_wf m' (t :: fl) hd' l' ∧ blocks_left m' = blocks_left m ∧
        preserves l.*1 m fl m' (t :: fl)
  end.
Proof.
  intros Hwf. pose proof (ll_del_loop_spec compare m fl hd [] l hd d (walk_fuel m) Hwf) as Hs.
  apply Hs; [apply Hwf|by eapply ll_wf_fuel].
Qed.

Lemma ll_delfirst_spec m fl hd t x l :
  ll_wf m fl hd ((t, x) :: l) →
  ∃ hd' m', ll_delfirst hd m = Ret ((1%Z, hd', [x]), m') ∧
    ll_wf m' (t :: fl) hd' l ∧ blocks_left m' = blocks_left m ∧
    preserves ((t, x) :: l).*1 m fl m' (t :: fl).
Proof.
  intros Hwf. destruct (unlink_spec m fl hd [] t x l Hwf) as (hd' & m' & Hrun & ?).
  exists hd', m'. split; [|done]. destruct (lw_dll _ _ _ _ Hwf) as [-> _].
  unfold ll_delfirst. by step_with Hrun.
Qed.

Lemma ll_destroy_loop_spec m fl pp hd l fuel :
  alloc_wf m fl → dseg (cells m) pp hd l None → NoDup (fl ++ l.*1) → length l < fuel →
  ∃ m', ll_destroy_loop fuel hd m = Ret (l.*2, m') ∧
    alloc_wf m' (rev l.*1 ++ fl) ∧ blocks_left m' = blocks_left m ∧
    ∀ b, b ∉ l.*1 → cells m' !! b = cells m !! b.
Proof.
  revert m fl pp hd fuel. induction l as [|[a x] l IH]; intros m fl pp hd fuel Hwf Hl Hnd Hf.
  - cbn in Hl. subst. exists m. destruct fuel; [cbn in Hf; lia|]. by split_and!.
  - destruct fuel as [|fuel]; [lia|]. destruct Hl as (-> & nx & Ha & Hl). cbn in Hnd.
    apply NoDup_app in Hnd as (Hndf & Hfree & [Hal Hndl]%NoDup_cons).
    destruct (Free_ll_spec m fl a _ Hwf Ha) as (m1 & Hr1 & Hw1 & Hb1 & Hf1).
    { intros Hin. apply (Hfree a Hin). set_solver +. }
    destruct (IH m1 (a :: fl) (Some a) nx fuel) as (m2 & Hr2 & Hw2 & Hb2 & Hf2); [done| | |cbn in Hf; lia|].
    + eapply dseg_frame, Hl. intros b Hb. apply Hf1. by intros ->.
    + cbn. apply NoDup_cons. split.
      * rewrite elem_of_app. intros [Hin|Hin]; [apply (Hfree a Hin); set_solver +|done].
      * apply NoDup_app. split_and!; [done| |done]. intros b Hb Hin. apply (Hfree b Hb). set_solver + Hin.
    + exists m2. cbn [ll_destroy_loop]. mstep. cbn [next data]. step_with Hr1. step_with Hr2.
      cbn. split_and!; [done| |congruence|].
      * by rewrite <-app_assoc.
      * intros b Hb. apply not_elem_of_cons in Hb as [??]. rewrite Hf2, Hf1; done.
Qed.

Lemma ll_destroy_spec m fl hd l :
  ll_wf m fl hd l →
  ∃ m', ll_destroy hd m = Ret ((1%Z, None, l.*2), m') ∧
    ll_wf m' (rev l.*1 ++ fl) None [] ∧ blocks_left m' = blocks_left m ∧
    preserves l.*1 m fl m' (rev l.*1 ++ fl).
Proof.
  intros Hwf. pose proof (ll_wf_fuel _ _ _ _ Hwf) as Hfuel. destruct Hwf as [Hw Hl Hnd].
  destruct (ll_destroy_loop_spec m fl None hd l (walk_fuel m) Hw Hl Hnd Hfuel)
    as (m' & Hr & Hw' & Hb & Hf).
  exists m'. unfold ll_destroy. mstep. step_with Hr. split; [done|]. split; [split|split].
  - done.
  - done.
  - rewrite app_nil_r. apply Hw'.
  - done.
  - intros b Hb' Hbf Hbo. split; [by apply Hf|].
    intros [Hin|Hin]%elem_of_app; [|done]. by apply Hbo, list_elem_of_In, in_rev, list_elem_of_In.
Qed.

(** *** The projections to data commute with the reference operations *)
Lemma insert_sorted_snd (le : D → D → bool) (a : loc) d l :
  (insert_sorted (λ x y : loc * D, le x.2 y.2) (a, d) l).*2 = insert_sorted le d l.*2.
Proof.
  induction l as [|[b e] l IH]; cbn; [done|]. destruct (le d e); cbn; [done|]. by rewrite IH.
Qed.

Lemma remove_first_snd (p : D → bool) l :
  remove_first p l.*2 =
  (λ r : (loc * D) * list (loc * D), (r.1.2, r.2.*2)) <$> remove_first (λ x, p x.2) l.
Proof.
  induction l as [|[b e] l IH]; cbn; [done|]. destruct (p e); cbn; [done|]. rewrite IH.
  by destruct (remove_first _ l) as [[[??] ?]|].
Qed.

Lemma remove_first_elem {A} (p : A → bool) (l l' : list A) x :
  remove_first p l = Some (x, l') → x ∈ l.
Proof.
  revert l'. induction l as [|y l IH]; intros l'; cbn; [done|]. destruct (p y).
  - intros [= -> _]. set_solver +.
  - destruct (remove_first p l) as [[z zs]|]; [|done]. intros [= -> _].
    apply elem_of_cons. right. by eapply IH.
Qed.

Lemma remove_first_sub {A} (p : A → bool) (l l' : list A) x :
  remove_first p l = Some (x, l') → l' ⊆ l.
Proof.
  revert l'. induction l as [|y l IH]; intros l'; cbn; [done|]. destruct (p y).
  - intros [= -> <-]. set_solver +.
  - destruct (remove_first p l) as [[z zs]|]; [|done]. intros [= -> <-].
    specialize (IH zs eq_refl). set_solver + IH.
Qed.

Lemma insert_sorted_elem {A} (le : A → A → bool) x y (l : list A) :
  y ∈ insert_sorted le x l → y = x ∨ y ∈ l.
Proof.
  induction l as [|z l IH]; cbn; [set_solver +|]. destruct (le x z); set_solver.
Qed.

Lemma list_elem_of_fmap_sub {A B} {f : A → B} {l l' : list A} b :
  l' ⊆ l → b ∈ f <$> l' → b ∈ f <$> l.
Proof. set_solver. Qed.

Lemma dseg_data (c : gmap loc (ll_node D)) pp hd l e a x :
  dseg c pp hd l e → (a, x) ∈ l → ∃ n, c !! a = Some n ∧ data n = x.
Proof.
  revert pp hd. induction l as [|[b y] l IH]; intros pp hd.
  - set_solver +.
  - intros (_ & nx & Hb & Hl) [[= -> ->]|Hin]%elem_of_cons; eauto.
Qed.

(** *** One operation of the concrete list against the abstract machine *)
Lemma ll_step_refines compare m fl hd l op k :
  ll_wf m fl hd l → can_alloc (S k) m fl →
  ∃ hd' m' fl' l',
    ll_step uninit compare op hd m = Ret ((abs_step compare op l.*2).1, hd', m') ∧
    ll_wf m' fl' hd' l' ∧ l'.*2 = (abs_step compare op l.*2).2 ∧ can_alloc k m' fl' ∧
    preserves l.*1 m fl m' fl' ∧ ∀ b, b ∈ l'.*1 → b ∈ l.*1 ∨ ¬ used m fl b.
Proof.
  intros Hwf Hcan. assert (Hcan' : can_alloc k m fl) by (unfold can_alloc in *; lia).
  destruct op as [d|d|d|d|d| |]; cbn [ll_step abs_step fst snd].
  - destruct (ll_add_to_end_spec m fl hd l d k Hwf Hcan) as (a & hd' & m' & fl' & Hr & ? & ? & ? & ?).
    exists hd', m', fl', (l ++ [(a, d)]). step_with Hr. rewrite fmap_app. split_and!; [done..|].
    intros b. rewrite fmap_app. cbn. rewrite elem_of_app, list_elem_of_singleton. intros [?| ->]; auto.
  - destruct (ll_add_to_start_spec m fl hd l d k Hwf Hcan) as (a & m' & fl' & Hr & ? & ? & ? & ?).
    eexists _, m', fl', ((a, d) :: l). step_with Hr. split_and!; [done..|].
    intros b. cbn. rewrite elem_of_cons. intros [-> |?]; auto.
  - destruct (ll_sorted_insert_spec compare m fl hd l d k Hwf Hcan) as (a & hd' & m' & fl' & Hr & ? & ? & ? & ?).
    eexists hd', m', fl', _. step_with Hr. split; [done|]. split; [done|].
    rewrite (insert_sorted_snd (cmp_le compare)). split_and!; [done..|].
    intros b Hb. apply list_elem_of_fmap in Hb as (y & -> & Hy).
    apply insert_sorted_elem in Hy as [-> |Hy]; [by right|left]. by apply list_elem_of_fmap_2.
  - exists hd, m, fl, l. rewrite (bind_ret _ _ _ _ _ (ll_find_spec compare m fl hd l d Hwf)).
    rewrite remove_first_snd. split; [|split_and!; by auto using preserves_refl].
    destruct (remove_first _ l) as [[[a x] l']|] eqn:E; [|done]. cbn.
    apply remove_first_elem in E. destruct (dseg_data _ _ _ _ _ _ _ (lw_dll _ _ _ _ Hwf) E) as (n & Hn & <-).
    by rewrite (bind_ret _ _ _ _ _ (load_Some _ _ _ Hn)).
  - pose proof (ll_del_spec compare m fl hd l d Hwf) as Hs. rewrite remove_first_snd.
    destruct (remove_first _ l) as [[[t x] l']|] eqn:E; cbn.
    + destruct Hs as (hd' & m' & Hr & ? & ? & ?). exists hd', m', (t :: fl), l'.
      step_with Hr. split_and!; [done..|by eapply can_alloc_freed|done|].
      intros b Hb. left. eapply remove_first_sub in E. by apply (list_elem_of_fmap_sub b E).
    + exists hd, m, fl, l. step_with Hs. split_and!; by auto using preserves_refl.
  - destruct l as [|[t x] l]; cbn.
    + exists None, m, fl, []. assert (hd = None) as -> by apply Hwf. split_and!; by auto using preserves_refl.
    + destruct (ll_delfirst_spec m fl hd t x l Hwf) as (hd' & m' & Hr & ? & ? & ?).
      exists hd', m', (t :: fl), l. step_with Hr.
      split_and!; [done..|by eapply can_alloc_freed|done|]. set_solver +.
  - destruct (ll_destroy_spec m fl hd l Hwf) as (m' & Hr & ? & ? & ?).
    exists None, m', (rev l.*1 ++ fl), []. step_with Hr. split_and!; try done; [|set_solver +].
    unfold can_alloc in *. rewrite length_app. lia.
Qed.

Lemma ll_exec_refines_from compare ops m fl hd l :
  ll_wf m fl hd l → can_alloc (length ops) m fl →
  ∃ hd' m' fl' l',
    ll_exec uninit compare ops hd m = Ret ((abs_exec compare ops l.*2).1, hd', m') ∧
    ll_wf m' fl' hd' l' ∧ l'.*2 = (abs_exec compare ops l.*2).2 ∧
    preserves l.*1 m fl m' fl'.
Proof.
  revert m fl hd l. induction ops as [|op ops IH]; intros m fl hd l Hwf Hcan; cbn.
  - exists hd, m, fl, l. split_and!; done || apply preserves_refl.
  - destruct (ll_step_refines compare m fl hd l op _ Hwf Hcan) as (hd1 & m1 & fl1 & l1 & Hr & Hwf1 & El & Hcan1 & Hp1 & Hn1).
    destruct (IH m1 fl1 hd1 l1 Hwf1 Hcan1) as (hd2 & m2 & fl2 & l2 & Hr2 & Hwf2 & El2 & Hp2).
    exists hd2, m2, fl2, l2. step_with Hr. step_with Hr2. rewrite El in *.
    destruct (abs_step compare op l.*2) as [r xs]. cbn in *.
    destruct (abs_exec compare ops xs) as [rs xs']. cbn in *. split_and!; [done..|].
    intros b Hb Hbf Hbo. destruct (Hp1 b Hb Hbf Hbo) as [Eb Hbf1].
    destruct (Hp2 b) as [Eb2 ?]; [by rewrite Eb|done| |by rewrite Eb2, Eb].
    intros Hin. by destruct (Hn1 b Hin) as [|[]].
Qed.
End specs.

(** ** Properties *)

(** C6. Any sequence of the list operations, started on an empty list in an
    empty memory, returns exactly the results of the same operations on a
    plain list (insertions at either end and in order, search, removal of the
    first match, removal of the head, destruction with the data passed to the
    destructor in order), and leaves a well-formed doubly-linked list that
    holds the abstract list; no traversal runs out of fuel and no dangling or
    NULL pointer is dereferenced, as long as the node blocks suffice. *)
Theorem ll_exec_refines {D} `{Null D} (uninit : ll_node D) (compare : D → D → Z)
    (ops : list (ll_op D)) (blocks : nat) :
  length ops ≤ LL_HEAPSIZE * blocks →
  ∃ hd m fl l,
    ll_exec uninit compare ops None (ll_mem_init blocks) =
      Ret ((abs_exec compare ops []).1, hd, m) ∧
    ll_wf m fl hd l ∧ l.*2 = (abs_exec compare ops []).2.
Proof.
  intros Hb.
  destruct (ll_exec_refines_from uninit compare ops (ll_mem_init blocks) [] None [])
    as (hd & m & fl & l & ? & ? & ? & ?); [|done|by exists hd, m, fl, l].
  repeat split; cbn; try apply NoDup_nil_2. intros a [n Hn]. by rewrite lookup_empty in Hn.
Qed.

Definition demo_ops : list (ll_op Z) :=
  [OSorted 5; OSorted 3; OSorted 9; OAddStart 7; OFind 9; ODel 5; ODel 4; ODelFirst; OAddEnd 1]%Z.

Lemma ll_exec_refines_witness :
  length demo_ops ≤ LL_HEAPSIZE * 1 ∧
  ∃ hd m fl l,
    ll_exec (H := 0%Z) (Node 0%Z None None) Z.sub demo_ops None (ll_mem_init 1) =
      Ret ([RInt 1 []; RInt 1 []; RInt 1 []; RInt 1 []; RFound (Some 9); RInt 1 [5];
            RInt 0 []; RInt 1 [7]; RInt 1 []]%Z, hd, m) ∧
    ll_wf m fl hd l ∧ l.*2 = [3; 9; 1]%Z.
Proof.
  split; [vm_compute; lia|].
  apply (ll_exec_refines (H := 0%Z) (Node 0%Z None None) Z.sub demo_ops 1). vm_compute; lia.
Defined.

(** C31. Lists that share the node memory do not interfere: whatever sequence
    of operations runs on one list variable, including the recycling of freed
    nodes through [heap_o_ll], another list with its own nodes keeps its
    nodes, its order and its data. *)
Theorem ll_exec_frame {D} `{Null D} (uninit : ll_node D) (compare : D → D → Z)
    (ops : list (ll_op D)) (m : ll_mem D) fl hd l hd2 l2 :
  ll_wf m fl hd l → dll (cells m) hd2 l2 → NoDup (fl ++ l.*1 ++ l2.*1) →
  can_alloc (length ops) m fl →
  ∃ rs hd' m' fl', ll_exec uninit compare ops hd m = Ret (rs, hd', m') ∧
    ll_wf m' fl' hd2 l2.
Proof.
  intros Hwf Hl2 (_ & Hfree & (_ & Hdj & Hnd2)%NoDup_app)%NoDup_app Hcan.
  destruct (ll_exec_refines_from uninit compare ops m fl hd l Hwf Hcan)
    as (hd' & m' & fl' & l' & Hr & Hwf' & _ & Hpr).
  eexists _, hd', m', fl'. split; [exact Hr|].
  assert (Hlive : ∀ b, b ∈ l2.*1 → cells m' !! b = cells m !! b ∧ b ∉ fl').
  { intros b Hb. apply Hpr; [by eapply dseg_lookup| |].
    - intros Hbf. apply (Hfree b Hbf). set_solver + Hb.
    - intros Hbl. by apply (Hdj b Hbl). }
  split; [apply Hwf'| |].
  - eapply dseg_frame, Hl2. intros b Hb. by apply Hlive.
  - apply NoDup_app. split_and!; [apply Hwf'| |done]. intros b Hb Hb2. by apply (Hlive b Hb2).
Qed.

(** Two lists, of nodes 0, 1 and of node 2, and the free node 3. *)
Definition demo_mem : ll_mem Z :=
  Mem (<[0 := Node 10%Z (Some 1) None]> (<[1 := Node 11%Z None (Some 0)]>
       (<[2 := Node 20%Z None None]> (<[3 := Node 0%Z None None]> ∅)))) (Some 3) 4 0.

Lemma ll_exec_frame_witness :
  ∃ rs hd' m' fl',
    ll_exec (H := 0%Z) (Node 0%Z None None) Z.sub [OAddEnd 12%Z] (Some 0) demo_mem = Ret (rs, hd', m') ∧
    ll_wf m' fl' (Some 2) [(2, 20%Z)].
Proof.
  apply (ll_exec_frame (H := 0%Z) (Node 0%Z None None) Z.sub [OAddEnd 12%Z] demo_mem [3]
    (Some 0) [(0, 10%Z); (1, 11%Z)] (Some 2) [(2, 20%Z)]).
  - split; [split| |].
    + cbn. eauto.
    + by apply (bool_decide_unpack _).
    + intros a [n Hn]. cbn in *. rewrite !lookup_insert in Hn.
      repeat case_decide; simplify_eq; lia.
    + cbn. eauto 10.
    + by apply (bool_decide_unpack _).
  - cbn. eauto.
  - by apply (bool_decide_unpack _).
  - vm_compute. lia.
Defined.
