(* ===== verification/CString.v ===== *)
(** * C strings (client_lib/src/utils.c, lines 42-88, 209-295, 870-925)

    Case-insensitive and bounded substring search, bounded copy, the
    re-entrant tokenizer, the bracketed-list parser [ll_build] and the hex
    dump.  A C string is the list of its bytes before the NUL; a buffer is a
    list of bytes that is indexed with bounds checks, an access out of range
    being [Crash]. *)

From S2P Require Import Prelude.
Open Scope Z_scope.

(** ** The string functions of the C library that the code calls *)

Definition tolower (c : byte) : byte :=
  if (65 <=? c) && (c <=? 90) then c + 32 else c.

(** The byte of a C string at its start, the NUL included. *)
Definition head_byte (s : bytes) : byte := match s with [] => 0 | c :: _ => c end.

(** [strncasecmp(s1, s2, n)]. *)
Fixpoint strncasecmp (s1 s2 : bytes) (n : nat) : Z :=
  match n with
  | O => 0
  | S n' =>
      let c1 := tolower (head_byte s1) in
      let c2 := tolower (head_byte s2) in
      if c1 =? c2 then (if c1 =? 0 then 0 else strncasecmp (tail s1) (tail s2) n')
      else c1 - c2
  end.
Definition strcasecmp (s1 s2 : bytes) : Z :=
  strncasecmp s1 s2 (S (length s1 `max` length s2)).

(** [strspn] and [strcspn]. *)
Fixpoint span_in (p : byte → bool) (s : bytes) : nat :=
  match s with
  | [] => O
  | c :: s' => if p c then S (span_in p s') else O
  end.
Definition is_in (set : bytes) (c : byte) : bool := existsb (Z.eqb c) set.
Definition strspn (s set : bytes) : nat := span_in (is_in set) s.
Definition strcspn (s set : bytes) : nat := span_in (λ c, negb (is_in set c)) s.

(** [strchr(s, c)], [c] not NUL: the offset of the first [c]. *)
Definition strchr (s : bytes) (c : byte) : option nat :=
  let n := span_in (λ x, negb (x =? c)) s in
  if decide (n < length s)%nat then Some n else None.

(** [strrchr]: the offset of the last [c]. *)
Definition strrchr (s : bytes) (c : byte) : option nat := last (fst <$> List.filter (λ x, x.2 =? c) (imap pair s)).

(** Reads of a buffer. *)
Definition rd (buf : bytes) (i : Z) : outcome byte :=
  if i <? 0 then Crash else match buf !! Z.to_nat i with Some c => Ret c | None => Crash end.
Definition wr (buf : bytes) (i : Z) (c : byte) : outcome bytes :=
  if (0 <=? i) && (i <? Z.of_nat (length buf)) then Ret (<[Z.to_nat i := c]> buf) else Crash.

(** [memcmp(buf + i, s, length s) == 0], all bytes being read. *)
Fixpoint mem_eq (buf : bytes) (i : Z) (s : bytes) : outcome bool :=
  match s with
  | [] => Ret true
  | c :: s' =>
      b ← rd buf i;
      r ← mem_eq buf (i + 1) s';
      Ret ((b =? c) && r)
  end.

(** The C string that starts at offset [i] of a buffer. *)
Definition cstr_at (buf : bytes) (i : nat) : option bytes :=
  let n := span_in (λ c, negb (c =? 0)) (drop i buf) in
  if decide (n < length (drop i buf))%nat then Some (take n (drop i buf)) else None.

(** ** Substring search *)

Fixpoint strcasestr_loop (ptr substr : bytes) (i : nat) (n : nat) : option nat :=
  match n with
  | O => None
  | S n' =>
      if strncasecmp ptr substr (length substr) =? 0 then Some i
      else strcasestr_loop (tail ptr) substr (S i) n'
  end.

Definition strcasestr (string substr : bytes) : option nat :=
  let cmplen := Z.of_nat (length string) - Z.of_nat (length substr) + 1 in
  strcasestr_loop string substr 0 (Z.to_nat cmplen).

Fixpoint dumb_strnstr_loop (str substr : bytes) (i : Z) (n : nat) : outcome (option Z) :=
  match n with
  | O => Ret None
  | S n' =>
      c ← rd str i;
      if c =? 0 then Ret None
      else
        b ← mem_eq str i substr;
        if (b : bool) then Ret (Some i) else dumb_strnstr_loop str substr (i + 1) n'
  end.

(** The loop runs for [i] from 0 to [n - substrlen] inclusive. *)
Definition dumb_strnstr (str substr : bytes) (n : Z) : outcome (option Z) :=
  dumb_strnstr_loop str substr 0 (Z.to_nat (n - Z.of_nat (length substr) + 1)).

(** ** Bounded copy *)

(** [strncpy(dest, src, n)]: the bytes of [src], padded with NULs to [n]. *)
Definition strncpy_bytes (src : bytes) (n : nat) : bytes :=
  take n src ++ replicate (n - length src) 0.
Definition strncpy (dest src : bytes) (n : nat) : outcome bytes :=
  if decide (n <= length dest)%nat then Ret (strncpy_bytes src n ++ drop n dest) else Crash.

Definition safe_strncpy (dest src : bytes) (n : nat) : outcome bytes :=
  dest ← wr dest (Z.of_nat n - 1) 0;
  strncpy dest src (n - 1).

(** ** Tokenizer *)

Record ts_strtok_state := Strtok {
  string_dupe : bytes;       (* the copied string, with its NUL *)
  nxt_ptr : nat;             (* offset in [string_dupe] *)
  chars_remaining : Z;
}.

(** [string] may be NULL. *)
Definition ts_strtok_init (string : option bytes) : option ts_strtok_state :=
  match string with
  | None => None
  | Some s => Some (Strtok (s ++ [0]) 0 (Z.of_nat (length s)))
  end.

(** Returns the offset of the token in [string_dupe]. *)
Definition ts_strtok (matching : bytes) (state : ts_strtok_state) :
    outcome (option nat * ts_strtok_state) :=
  if chars_remaining state <=? 0 then Ret (None, state)
  else
    match cstr_at (string_dupe state) (nxt_ptr state) with
    | None => Crash
    | Some nxt =>
        let len1 := strspn nxt matching in
        if chars_remaining state <? Z.of_nat len1 then Ret (None, state)
        else
          let tmpo := (nxt_ptr state + len1)%nat in
          let len2 := strcspn (drop len1 nxt) matching in
          if chars_remaining state <? Z.of_nat (len2 + len1) then Ret (None, state)
          else
            dupe ← wr (string_dupe state) (Z.of_nat (tmpo + len2)) 0;
            Ret (Some tmpo,
                 Strtok dupe (tmpo + len2 + 1)
                        (chars_remaining state - Z.of_nat (len1 + len2 + 1)))
    end.

(** The caller's loop [while ((tok = ts_strtok(m, st)) != NULL)], each token
    being read as a C string as soon as it is returned. *)
Fixpoint strtok_all (fuel : nat) (matching : bytes) (st : ts_strtok_state) :
    outcome (list bytes) :=
  match fuel with
  | O => Stuck
  | S fuel' =>
      '(r, st') ← ts_strtok matching st;
      match r with
      | None => Ret []
      | Some p =>
          match cstr_at (string_dupe st') p with
          | None => Crash
          | Some tok => toks ← strtok_all fuel' matching st'; Ret (tok :: toks)
          end
      end
  end.

(** ** [ll_build]: parsing [[a, b, c]] *)

(** [while ( *start == ' ') { start++; end++; }] *)
Fixpoint skip_spaces (fuel : nat) (data : bytes) (start end_ : Z) : outcome (Z * Z) :=
  match fuel with
  | O => Stuck
  | S fuel' =>
      c ← rd data start;
      if c =? 32 then skip_spaces fuel' data (start + 1) (end_ + 1) else Ret (start, end_)
  end.

(** The token that starts at [start], copied by [strcpy]. *)
Definition token_at (data : bytes) (start : Z) : outcome bytes :=
  match cstr_at data (Z.to_nat start) with Some s => Ret s | None => Crash end.

(** [acc] holds the elements added with [ll_add_to_end] so far. *)
Fixpoint ll_build_loop (fuel : nat) (data : bytes) (start end_ : Z) (acc : list bytes) :
    outcome (list bytes) :=
  match fuel with
  | O => Stuck
  | S fuel' =>
      c ← rd data end_;
      if (c =? 93) || (c =? 0) then
        data ← wr data end_ 0;
        temp ← token_at data start;
        Ret (acc ++ [temp])
      else
        '(start, end_) ← skip_spaces (S (length data)) data start end_;
        c ← rd data end_;
        if c =? 44 then
          data ← wr data end_ 0;
          temp ← token_at data start;
          ll_build_loop fuel' data (end_ + 1) (end_ + 1) (acc ++ [temp])
        else ll_build_loop fuel' data start (end_ + 1) acc
  end.

Definition ll_build (buildMe : list bytes) (buildFromMe : bytes) : outcome (list bytes) :=
  ll_build_loop (S (length buildFromMe)) (buildFromMe ++ [0]) 1 1 buildMe.

(** ** Hex dump *)

(** What is printed: [Hex b] for ["%.02x "], [Chr b] for ["%c "]. *)
Inductive dump_item := Hex (b : byte) | Chr (b : byte) | Pad | Newline.

Fixpoint dump_bytes (buf : bytes) (mk : byte → dump_item) (i : Z) (n : nat) :
    outcome (list dump_item) :=
  match n with
  | O => Ret []
  | S n' => b ← rd buf i; l ← dump_bytes buf mk (i + 1) n'; Ret (mk b :: l)
  end.

Fixpoint dump_rows (buf : bytes) (i : Z) (n : nat) : outcome (list dump_item) :=
  match n with
  | O => Ret []
  | S n' =>
      hs ← dump_bytes buf Hex (5 * i) 5;
      cs ← dump_bytes buf Chr (5 * i) 5;
      rest ← dump_rows buf (i + 1) n';
      Ret (hs ++ [Pad] ++ cs ++ [Newline] ++ rest)
  end.

Definition dump_buf (buf : bytes) (retlen : Z) : outcome (list dump_item) :=
  rows ← dump_rows buf 0 (Z.to_nat (retlen / 5));
  if retlen mod 5 =? 0 then Ret rows
  else
    hs ← dump_bytes buf Hex (5 * (retlen / 5)) (Z.to_nat (retlen mod 5));
    cs ← dump_bytes buf Chr (5 * (retlen / 5)) 5;
    Ret (rows ++ hs ++ [Pad] ++ cs ++ [Newline]).

(** ** Specification notions *)

Definition no_nul (s : bytes) : Prop := Forall (λ c, c ≠ 0) s.

(** [t] occurs at offset [j] of [s], case being ignored. *)
Definition ci_match_at (s t : bytes) (j : nat) : Prop :=
  tolower <$> take (length t) (drop j s) = tolower <$> t.

(** [t] occurs at offset [j] of [s]. *)
Definition match_at (s t : bytes) (j : nat) : Prop := take (length t) (drop j s) = t.

#[export] Instance ci_match_at_dec s t j : Decision (ci_match_at s t j).
Proof. unfold ci_match_at. apply _. Defined.
#[export] Instance match_at_dec s t j : Decision (match_at s t j).
Proof. unfold match_at. apply _. Defined.

(** The maximal fields between delimiters, empty ones included. *)
Fixpoint fields (p : byte → bool) (s : bytes) : list bytes :=
  match s with
  | [] => [[]]
  | c :: s' =>
      if p c then [] :: fields p s'
      else match fields p s' with
           | f :: fs => (c :: f) :: fs
           | [] => [[c]]
           end
  end.

(** The tokens [strtok] is documented to produce. *)
Definition strtok_tokens (set s : bytes) : list bytes :=
  filter (λ f, f ≠ []) (fields (is_in set) s).

(** More delimiters are left once the last token has been delimited. *)
Definition dangling (set s : bytes) : bool :=
  if forallb (is_in set) s then bool_decide (s ≠ [])
  else bool_decide (2 <= strspn (rev s) set)%nat.

(** The text [ll_build] is meant to read. *)
Fixpoint print_items (items : list bytes) : bytes :=
  match items with
  | [] => [93]
  | [w] => w ++ [93]
  | w :: ws => w ++ [44; 32] ++ print_items ws
  end.
Definition print_list (items : list bytes) : bytes := 91 :: print_items items.
Definition item_ok (w : bytes) : bool :=
  forallb (λ c, negb ((c =? 0) || (c =? 44) || (c =? 93))) w &&
  negb (head_byte w =? 32) && negb (bool_decide (w = [])).

(** ** Lemmas *)

Lemma tolower_nul c : c ≠ 0 → tolower c ≠ 0.
Proof. unfold tolower. destruct (_ && _) eqn:E; [|done]. apply andb_prop in E. lia. Qed.

Lemma strncasecmp_prefix s t :
  no_nul s → no_nul t →
  strncasecmp s t (length t) = 0 ↔ tolower <$> take (length t) s = tolower <$> t.
Proof.
  intros Hs Ht. revert s Hs. induction Ht as [|c t Hc Ht IH]; intros s Hs; cbn; [done|].
  apply tolower_nul in Hc. destruct Hs as [|d s Hd Hs]; cbn.
  - change (tolower 0) with 0.
    destruct (Z.eqb_spec 0 (tolower c)); [congruence|]. split; [intros; exfalso; lia|done].
  - apply tolower_nul in Hd. destruct (Z.eqb_spec (tolower d) (tolower c)) as [->|Hne].
    + destruct (Z.eqb_spec (tolower c) 0); [congruence|]. rewrite IH by done. split; [by intros ->|by intros [= ?]].
    + split; [intros; exfalso; lia|congruence].
Qed.

Lemma strcasestr_loop_spec s t i n :
  no_nul s → no_nul t → (n + length t = S (length s))%nat ∨ n = O →
  match strcasestr_loop s t i n with
  | Some k => ∃ j, k = (i + j)%nat ∧ (j < n)%nat ∧ ci_match_at s t j ∧
      ∀ j', (j' < j)%nat → ¬ ci_match_at s t j'
  | None => ∀ j, (j < n)%nat → ¬ ci_match_at s t j
  end.
Proof.
  intros Hs Ht. revert s i Hs. induction n as [|n IH]; intros s i Hs Hn; cbn; [lia|].
  destruct (Z.eqb_spec (strncasecmp s t (length t)) 0) as [E|E];
    rewrite strncasecmp_prefix in E by done.
  - exists 0%nat. split_and!; [lia|lia|done|intros; lia].
  - specialize (IH (tail s) (S i)).
    assert (Htail : ∀ j, ci_match_at (tail s) t j ↔ ci_match_at s t (S j)) by (intros j; by destruct s, j).
    assert (Hs' : no_nul (tail s)) by (destruct Hs; [constructor|done]).
    specialize (IH Hs'). destruct (strcasestr_loop (tail s) t (S i) n) as [k|].
    + destruct IH as (j & -> & Hj & Hm & Hmin); [destruct s; cbn in *; lia|].
      exists (S j). split_and!; [lia|lia|by apply Htail|].
      intros [|j'] Hj'; [done|]. rewrite <-Htail. apply Hmin. lia.
    + intros [|j] Hj; [done|]. rewrite <-Htail. apply IH; [destruct s; cbn in *; lia|lia].
Qed.

Lemma rd_lookup buf i c : buf !! i = Some c → rd buf (Z.of_nat i) = Ret c.
Proof. intros E. unfold rd. rewrite Nat2Z.id, E. destruct (Z.ltb_spec (Z.of_nat i) 0); [lia|done]. Qed.

Lemma mem_eq_spec buf t i :
  (i + length t <= length buf)%nat →
  mem_eq buf (Z.of_nat i) t = Ret (bool_decide (match_at buf t i)).
Proof.
  revert i. induction t as [|c t IH]; intros i Hl; cbn [mem_eq].
  - done.
  - cbn in Hl. destruct (lookup_lt_is_Some_2 buf i) as [b Hb]; [lia|].
    erewrite rd_lookup by done. cbn. replace (Z.of_nat i + 1) with (Z.of_nat (S i)) by lia.
    rewrite IH by lia. cbn. f_equal.
    assert (Hm : match_at buf (c :: t) i ↔ b = c ∧ match_at buf t (S i)).
    { unfold match_at. rewrite (drop_S buf b i Hb). cbn. split; [by intros [= -> ?]|by intros [-> ->]]. }
    rewrite (bool_decide_ext _ _ Hm), bool_decide_and. f_equal.
    destruct (Z.eqb_spec b c); [by rewrite bool_decide_true|by rewrite bool_decide_false].
Qed.

Lemma dumb_strnstr_loop_spec buf t i n :
  (i + n + length t <= S (length buf))%nat → (0 < length t)%nat →
  ∃ r, dumb_strnstr_loop buf t (Z.of_nat i) n = Ret r ∧
    match r with
    | Some k => ∃ j, k = Z.of_nat j ∧ (i <= j < i + n)%nat ∧ match_at buf t j ∧
        (∀ j', (i <= j' < j)%nat → ¬ match_at buf t j') ∧
        (∀ j', (i <= j' <= j)%nat → buf !! j' ≠ Some 0)
    | None => ∀ j, (i <= j < i + n)%nat → match_at buf t j →
        ∃ j', (i <= j' <= j)%nat ∧ buf !! j' = Some 0
    end.
Proof.
  revert i. induction n as [|n IH]; intros i Hl Ht; cbn [dumb_strnstr_loop].
  - exists None. split; [done|]. intros; lia.
  - destruct (lookup_lt_is_Some_2 buf i) as [b Hb]; [lia|].
    erewrite rd_lookup by done. cbn. destruct (Z.eqb_spec b 0) as [->|Hb0].
    { exists None. split; [done|]. intros j Hj _. exists i. split; [lia|done]. }
    rewrite mem_eq_spec by lia. cbn. case_bool_decide as Hm.
    + exists (Some (Z.of_nat i)). split; [done|]. exists i. split_and!; [done|lia..|done|intros; lia|].
      intros j' Hj'. replace j' with i by lia. congruence.
    + replace (Z.of_nat i + 1) with (Z.of_nat (S i)) by lia.
      destruct (IH (S i)) as (r & -> & Hr); [lia|done|]. exists r. split; [done|].
      destruct r as [k|].
      * destruct Hr as (j & -> & Hj & Hmj & Hmin & Hnz). exists j. split_and!; [done|lia..|done| |].
        -- intros j' Hj'. destruct (decide (j' = i)) as [->|]; [done|]. apply Hmin. lia.
        -- intros j' Hj'. destruct (decide (j' = i)) as [->|]; [congruence|]. apply Hnz. lia.
      * intros j Hj Hmj. destruct (decide (j = i)) as [->|]; [done|].
        destruct (Hr j) as (j' & ? & ?); [lia|done|]. exists j'. split; [lia|done].
Qed.

(** *** Spans *)
Lemma span_in_split p s :
  ∃ s1 s2, s = s1 ++ s2 ∧ span_in p s = length s1 ∧ forallb p s1 = true ∧
    match s2 with [] => True | c :: _ => p c = false end.
Proof.
  induction s as [|c s IH]; cbn; [by exists [], []|]. destruct (p c) eqn:E.
  - destruct IH as (s1 & s2 & -> & -> & Hs1 & Hs2). exists (c :: s1), s2. cbn. by rewrite E.
  - by exists [], (c :: s).
Qed.

Lemma span_in_app p s1 s2 :
  span_in p (s1 ++ s2) =
  if forallb p s1 then (length s1 + span_in p s2)%nat else span_in p s1.
Proof.
  induction s1 as [|c s1 IH]; cbn; [done|]. destruct (p c); cbn; [|done].
  rewrite IH. by destruct (forallb p s1).
Qed.

Lemma forallb_rev (p : byte → bool) s : forallb p (rev s) = forallb p s.
Proof.
  induction s as [|c s IH]; cbn; [done|]. rewrite forallb_app, IH. cbn.
  rewrite andb_true_r. apply andb_comm.
Qed.

Lemma no_nul_span u : no_nul u → forallb (λ c, negb (c =? 0)) u = true.
Proof.
  intros Hu. apply forallb_forall. intros c Hc. unfold no_nul in Hu. rewrite Forall_forall in Hu.
  destruct (Z.eqb_spec c 0); [|done]. exfalso. by apply (Hu c); [apply list_elem_of_In|].
Qed.
Lemma cstr_at_app pre u post :
  no_nul u → cstr_at (pre ++ u ++ 0 :: post) (length pre) = Some u.
Proof.
  intros Hu. unfold cstr_at. rewrite drop_app_length.
  rewrite span_in_app, (no_nul_span u Hu). cbn. rewrite Nat.add_0_r.
  rewrite decide_True by (rewrite length_app; cbn; lia). by rewrite take_app_length.
Qed.

Lemma wr_app pre c post c' :
  wr (pre ++ c :: post) (Z.of_nat (length pre)) c' = Ret (pre ++ c' :: post).
Proof.
  unfold wr. rewrite (proj2 (andb_true_iff _ _)).
  - rewrite Nat2Z.id. rewrite insert_app_r_alt by lia. by rewrite Nat.sub_diag.
  - rewrite length_app. cbn [length]. split; [apply Z.leb_le|apply Z.ltb_lt]; lia.
Qed.

(** *** Fields and tokens *)
Lemma fields_delims p d s :
  forallb p d = true → fields p (d ++ s) = replicate (length d) [] ++ fields p s.
Proof.
  induction d as [|c d IH]; cbn; [done|]. intros [-> Hd]%andb_prop. by rewrite IH.
Qed.

Lemma fields_nondelims p w s :
  forallb (λ c, negb (p c)) w = true →
  match s with [] => True | c :: _ => p c = true end →
  fields p (w ++ s) = w :: match s with [] => [] | _ :: s' => fields p s' end.
Proof.
  intros Hw Hs. induction w as [|c w IH]; cbn in *.
  - destruct s as [|c s]; cbn; [done|]. by rewrite Hs.
  - apply andb_prop in Hw as [Hc Hw]. apply negb_true_iff in Hc. rewrite Hc, IH; done.
Qed.


(** [strchr]. *)
Lemma strchr_first (a b : bytes) c : (c ∉ a) → strchr (a ++ c :: b) c = Some (length a).
Proof.
  intros Ha. unfold strchr. rewrite span_in_app.
  assert (Hf : forallb (λ x, negb (x =? c)) a = true).
  { apply forallb_forall. intros x Hx%list_elem_of_In. apply negb_true_iff, Z.eqb_neq. by intros ->. }
  rewrite Hf. cbn [span_in]. rewrite Z.eqb_refl. cbn. rewrite decide_True; [f_equal; lia|]. rewrite length_app. cbn [length]. lia.
Qed.
Lemma strchr_none (a : bytes) c : (c ∉ a) → strchr a c = None.
Proof.
  intros Ha. unfold strchr. rewrite decide_False; [done|].
  assert (span_in (λ x, negb (x =? c)) a = length a) as ->; [|lia].
  induction a as [|x a IH]; cbn; [done|]. rewrite (proj2 (Z.eqb_neq x c)) by set_solver. cbn. rewrite IH; [done|set_solver].
Qed.

(** The bounded search, from the occurrences of the string. *)
Lemma dumb_strnstr_first buf t n j :
  match_at buf t j → (∀ j', (j' < j)%nat → ¬ match_at buf t j') → (∀ j', (j' <= j)%nat → buf !! j' ≠ Some 0) →
  (j + length t <= n <= length buf)%nat → (0 < length t)%nat → dumb_strnstr buf t (Z.of_nat n) = Ret (Some (Z.of_nat j)).
Proof.
  intros Hm Hmin Hnz Hl Ht. unfold dumb_strnstr.
  replace (Z.to_nat (Z.of_nat n - Z.of_nat (length t) + 1)) with (n - length t + 1)%nat by lia. change 0 with (Z.of_nat 0).
  destruct (dumb_strnstr_loop_spec buf t 0 (n - length t + 1)) as (r & -> & Hr); [lia|done|]. f_equal.
  destruct r as [k|].
  - destruct Hr as (j' & -> & Hj' & Hm' & Hmin' & _). do 2 f_equal.
    destruct (lt_eq_lt_dec j j') as [[?|?]|?]; [|done|]; [by destruct (Hmin' j); [lia|]|by destruct (Hmin j')].
  - destruct (Hr j) as (j' & ? & E); [lia|done|]. by destruct (Hnz j'); [lia|].
Qed.
Lemma dumb_strnstr_none buf t n :
  (∀ j, (j + length t <= n)%nat → ¬ match_at buf t j) → (n <= length buf)%nat → (0 < length t)%nat →
  dumb_strnstr buf t (Z.of_nat n) = Ret None.
Proof.
  intros Hno Hl Ht. unfold dumb_strnstr. destruct (decide (n < length t)%nat) as [Hlt|Hge].
  { by replace (Z.to_nat (Z.of_nat n - Z.of_nat (length t) + 1)) with 0%nat by lia. }
  replace (Z.to_nat (Z.of_nat n - Z.of_nat (length t) + 1)) with (n - length t + 1)%nat by lia. change 0 with (Z.of_nat 0).
  destruct (dumb_strnstr_loop_spec buf t 0 (n - length t + 1)) as (r & -> & Hr); [lia|done|]. f_equal.
  destruct r as [k|]; [|done]. destruct Hr as (j & _ & Hj & Hm & _). by destruct (Hno j); [lia|].
Qed.
Lemma match_at_prefix head rest t j : (j + length t <= length head)%nat → match_at (head ++ rest) t j ↔ match_at head t j.
Proof. intros Hl. unfold match_at. rewrite drop_app_le by lia. by rewrite take_app_le by (rewrite length_drop; lia). Qed.

Lemma filter_replicate_nil n : filter (λ f : bytes, f ≠ []) (replicate n []) = [].
Proof. induction n as [|n IH]; [done|]. cbn [replicate]. rewrite filter_cons_False; [done|naive_solver]. Qed.

Definition tokens_spec (set s : bytes) : list bytes :=
  strtok_tokens set s ++ (if dangling set s then [[]] else []).

Lemma tokens_all_delims set d :
  d ≠ [] → forallb (is_in set) d = true → tokens_spec set d = [[]].
Proof.
  intros Hne Hd. unfold tokens_spec, strtok_tokens, dangling. rewrite Hd.
  rewrite bool_decide_true by done. rewrite <-(app_nil_r d), fields_delims by done.
  rewrite filter_app, filter_replicate_nil. done.
Qed.

Lemma tokens_step set d w r :
  forallb (is_in set) d = true → forallb (λ c, negb (is_in set c)) w = true → w ≠ [] →
  match r with [] => True | c :: _ => is_in set c = true end →
  tokens_spec set (d ++ w ++ r) = w :: tokens_spec set (tail r).
Proof.
  intros Hd Hw Hne Hr. unfold tokens_spec, strtok_tokens.
  rewrite fields_delims, fields_nondelims, filter_app, filter_replicate_nil by done. cbn [app].
  rewrite filter_cons_True by done. cbn [app]. f_equal.
  assert (Hall : forallb (is_in set) (d ++ w ++ r) = false).
  { rewrite !forallb_app. destruct w as [|c w]; [done|]. cbn in *.
    apply andb_prop in Hw as [Hc%negb_true_iff _]. rewrite Hc. by rewrite andb_false_r. }
  assert (Hspan : ∀ z, span_in (is_in set) (rev w ++ z) = O).
  { intros z. destruct w as [|c w] using rev_ind; [done|clear IHw]. rewrite rev_app_distr. cbn.
    rewrite forallb_app in Hw. cbn in Hw. destruct (is_in set c); [|done].
    rewrite !andb_false_r in Hw. done. }
  f_equal; [by destruct r|]. unfold dangling at 1. rewrite Hall.
  unfold strspn. rewrite !rev_app_distr, <-app_assoc.
  destruct r as [|c r]; cbn [rev app tail].
  - by rewrite Hspan.
  - rewrite <-app_assoc. rewrite span_in_app, forallb_rev, length_rev.
    unfold dangling. destruct (forallb (is_in set) r) eqn:Er.
    + cbn. rewrite Hr, Hspan. destruct r; cbn; [done|]. by rewrite !bool_decide_true by (done || lia).
    + done.
Qed.

Lemma strtok_all_spec_from set u pre fuel :
  no_nul u → (length u < fuel)%nat →
  strtok_all fuel set (Strtok (pre ++ u ++ [0]) (length pre) (Z.of_nat (length u))) =
  Ret (tokens_spec set u).
Proof.
  revert u pre. induction fuel as [|fuel IH]; intros u pre Hu Hf; [lia|]. cbn [strtok_all].
  unfold ts_strtok. cbn [chars_remaining string_dupe nxt_ptr].
  destruct u as [|c0 u0]; [done|]. set (u := c0 :: u0) in *.
  assert (Hup : (0 < length u)%nat) by (cbn; lia). clearbody u.
  destruct (Z.leb_spec (Z.of_nat (length u)) 0) as [Hl|_]; [lia|].
  rewrite cstr_at_app by done.
  destruct (span_in_split (is_in set) u) as (d & s & Eu & Ed & Hd & Hs).
  destruct (span_in_split (λ c, negb (is_in set c)) s) as (w & r & Es & Ew & Hw & Hr).
  unfold strspn, strcspn. rewrite Ed.
  assert (length u = length d + length w + length r)%nat as Elen.
  { rewrite Eu, Es, !length_app. lia. }
  destruct (Z.ltb_spec (Z.of_nat (length u)) (Z.of_nat (length d))); [lia|].
  assert (Edrop : drop (length d) u = s) by (rewrite Eu; apply drop_app_length).
  rewrite Edrop, Ew.
  destruct (Z.ltb_spec (Z.of_nat (length u)) (Z.of_nat (length w + length d))); [lia|].
  assert (Hr' : match r with [] => True | c :: _ => is_in set c = true end).
  { destruct r; [done|]. by apply negb_false_iff in Hr. }
  assert (Hnn : no_nul d ∧ no_nul w ∧ no_nul r) by (unfold no_nul in *; rewrite Eu, Es, !Forall_app in Hu; tauto).
  destruct Hnn as (Hnd & Hnw & Hnr).
  assert (Ebuf : pre ++ u ++ [0] = (pre ++ d ++ w) ++ head_byte r :: (if decide (r = []) then [] else tail r ++ [0])).
  { rewrite Eu, Es, <-!app_assoc. destruct r; cbn; [by case_decide|]. by case_decide. }
  rewrite Ebuf. replace (length pre + length d + length w)%nat with (length (pre ++ d ++ w)) by (rewrite !length_app; lia).
  rewrite wr_app. cbn [mbind outcome_mbind string_dupe].
  replace ((pre ++ d ++ w) ++ 0 :: (if decide (r = []) then [] else tail r ++ [0]))
    with ((pre ++ d) ++ w ++ 0 :: (if decide (r = []) then [] else tail r ++ [0])) by (by rewrite <-!app_assoc).
  replace (length pre + length d)%nat with (length (pre ++ d)) by (by rewrite length_app).
  rewrite cstr_at_app by done.
  assert (Hw0 : w = [] → r = []).
  { intros ->. destruct r as [|c r]; [done|]. cbn in Es. rewrite Es in Hs. congruence. }
  destruct (decide (r = [])) as [->|Hrne].
  - destruct fuel as [|fuel]; [cbn in *; lia|]. cbn [strtok_all]. unfold ts_strtok. cbn [chars_remaining].
    destruct (Z.leb_spec (Z.of_nat (length u) - Z.of_nat (length d + length w + 1)) 0); [|cbn in Elen; lia].
    cbn [mbind outcome_mbind]. f_equal. rewrite Eu, Es, app_nil_r. destruct (decide (w = [])) as [->|Hwne].
    + rewrite app_nil_r, tokens_all_delims; [done| |done]. intros ->. rewrite Es in Eu. cbn in Eu. subst u. cbn in Hup. lia.
    + pose proof (tokens_step set d w [] Hd Hw Hwne I) as Hst. rewrite app_nil_r in Hst. by rewrite Hst.
  - destruct r as [|c r]; [done|]. cbn [tail].
    replace ((pre ++ d) ++ w ++ 0 :: r ++ [0]) with ((pre ++ d ++ w ++ [0]) ++ r ++ [0]) by (by rewrite <-!app_assoc).
    replace (length (pre ++ d ++ w) + 1)%nat with (length (pre ++ d ++ w ++ [0])) by (rewrite !length_app; cbn; lia).
    replace (Z.of_nat (length u) - Z.of_nat (length d + length w + 1)) with (Z.of_nat (length r)) by (cbn in Elen; lia).
    rewrite IH; [|by inversion Hnr|cbn in *; lia]. cbn [mbind outcome_mbind]. f_equal.
    rewrite Eu, Es, tokens_step; [done..|by intros ->; specialize (Hw0 eq_refl)|done].
Qed.

(** *** The bracketed list *)
Lemma rd_app pre c post : rd (pre ++ c :: post) (Z.of_nat (length pre)) = Ret c.
Proof. apply rd_lookup. by rewrite lookup_app_r, Nat.sub_diag by lia. Qed.

Lemma token_at_app pre w post :
  no_nul w → token_at (pre ++ w ++ 0 :: post) (Z.of_nat (length pre)) = Ret w.
Proof. intros Hw. unfold token_at. rewrite Nat2Z.id. by rewrite cstr_at_app. Qed.

(** A byte that ends no item. *)
Definition item_byte (c : byte) : Prop := c ≠ 0 ∧ c ≠ 44 ∧ c ≠ 93.

Lemma item_ok_inv w :
  item_ok w = true → ∃ c w', w = c :: w' ∧ c ≠ 32 ∧ Forall item_byte w.
Proof.
  unfold item_ok. intros [[Hb Hh]%andb_prop Hne]%andb_prop. destruct w as [|c w]; [done|].
  exists c, w. split_and!; [done| |].
  - cbn in Hh. apply negb_true_iff in Hh. lia.
  - apply List.Forall_forall. intros x Hx. rewrite forallb_forall in Hb. specialize (Hb x Hx).
    apply negb_true_iff, orb_false_elim in Hb as [[??]%orb_false_elim ?]. unfold item_byte. lia.
Qed.

Lemma item_no_nul w : Forall item_byte w → no_nul w.
Proof. intros Hw. eapply Forall_impl; [exact Hw|]. by intros c (? & _). Qed.

(** Away from spaces nothing is skipped. *)
Lemma skip_spaces_none fuel pre c post e :
  c ≠ 32 → skip_spaces (S fuel) (pre ++ c :: post) (Z.of_nat (length pre)) e =
    Ret (Z.of_nat (length pre), e).
Proof.
  intros Hc. cbn [skip_spaces]. rewrite rd_app. cbn [mbind outcome_mbind].
  by destruct (Z.eqb_spec c 32).
Qed.

(** An item's bytes are walked over. *)
Lemma ll_build_walk pre c w1 w2 post acc fuel :
  c ≠ 32 → Forall item_byte w2 →
  ll_build_loop (length w2 + fuel) (pre ++ (c :: w1) ++ w2 ++ post)
    (Z.of_nat (length pre)) (Z.of_nat (length (pre ++ c :: w1))) acc =
  ll_build_loop fuel (pre ++ (c :: w1) ++ w2 ++ post)
    (Z.of_nat (length pre)) (Z.of_nat (length (pre ++ (c :: w1) ++ w2))) acc.
Proof.
  intros Hc Hw2. revert w1. induction Hw2 as [|d w2 (Hd0 & Hd1 & Hd2) Hw2 IH]; intros w1.
  - by rewrite app_nil_r.
  - cbn [length Nat.add ll_build_loop].
    replace (pre ++ (c :: w1) ++ (d :: w2) ++ post) with ((pre ++ c :: w1) ++ d :: (w2 ++ post))
      by app_norm.
    rewrite rd_app. cbn [mbind outcome_mbind].
    destruct (Z.eqb_spec d 93); [done|]. destruct (Z.eqb_spec d 0); [done|]. cbn [orb].
    replace ((pre ++ c :: w1) ++ d :: w2 ++ post) with (pre ++ c :: (w1 ++ d :: w2 ++ post)) at 2
      by app_norm.
    rewrite skip_spaces_none by done. cbn [mbind outcome_mbind].
    rewrite rd_app. cbn [mbind outcome_mbind]. destruct (Z.eqb_spec d 44); [done|].
    specialize (IH (w1 ++ [d])).
    replace ((pre ++ c :: w1) ++ d :: w2 ++ post) with (pre ++ (c :: w1 ++ [d]) ++ w2 ++ post)
      by app_norm.
    replace (Z.of_nat (length (pre ++ c :: w1)) + 1) with (Z.of_nat (length (pre ++ c :: w1 ++ [d])))
      by len_lia.
    rewrite IH. do 2 f_equal. len_lia.
Qed.

Lemma skip_spaces_one fuel pre c post e :
  c ≠ 32 → skip_spaces (S (S fuel)) (pre ++ 32 :: c :: post) (Z.of_nat (length pre)) e =
    Ret (Z.of_nat (length pre) + 1, e + 1).
Proof.
  intros Hc. cbn [skip_spaces]. rewrite rd_app. cbn [mbind outcome_mbind].
  change (32 =? 32) with true. cbn iota.
  replace (pre ++ 32 :: c :: post) with ((pre ++ [32]) ++ c :: post) by app_norm.
  replace (Z.of_nat (length pre) + 1) with (Z.of_nat (length (pre ++ [32]))) by len_lia.
  rewrite rd_app. cbn [mbind outcome_mbind]. by destruct (Z.eqb_spec c 32).
Qed.

(** One item, once its first byte has been reached. *)
Lemma ll_build_item_last pre c w post acc fuel :
  c ≠ 32 → Forall item_byte (c :: w) → (length w < fuel)%nat →
  ll_build_loop fuel (pre ++ (c :: w) ++ 93 :: post) (Z.of_nat (length pre))
    (Z.of_nat (length (pre ++ [c]))) acc = Ret (acc ++ [c :: w]).
Proof.
  intros Hc Hw Hf. replace fuel with (length w + S (fuel - length w - 1))%nat by lia.
  pose proof (ll_build_walk pre c [] w (93 :: post) acc (S (fuel - length w - 1)) Hc) as HW.
  cbn [app] in HW |- *. rewrite HW by (by inversion Hw). cbn [ll_build_loop].
  replace (pre ++ c :: w ++ 93 :: post) with ((pre ++ c :: w) ++ 93 :: post) by app_norm.
  rewrite rd_app. cbn [mbind outcome_mbind]. change (93 =? 93) with true. cbn [orb].
  rewrite wr_app. cbn [mbind outcome_mbind]. rewrite <-app_assoc.
  rewrite (token_at_app pre (c :: w) post) by (by apply item_no_nul). done.
Qed.

Lemma ll_build_item_comma pre c w post acc fuel :
  c ≠ 32 → Forall item_byte (c :: w) →
  ll_build_loop (length w + S fuel) (pre ++ (c :: w) ++ 44 :: post) (Z.of_nat (length pre))
    (Z.of_nat (length (pre ++ [c]))) acc =
  ll_build_loop fuel ((pre ++ (c :: w) ++ [0]) ++ post)
    (Z.of_nat (length (pre ++ (c :: w) ++ [0]))) (Z.of_nat (length (pre ++ (c :: w) ++ [0])))
    (acc ++ [c :: w]).
Proof.
  intros Hc Hw. pose proof (ll_build_walk pre c [] w (44 :: post) acc (S fuel) Hc) as HW.
  cbn [app] in HW |- *. rewrite HW by (by inversion Hw). cbn [ll_build_loop].
  replace (pre ++ c :: w ++ 44 :: post) with ((pre ++ c :: w) ++ 44 :: post) by app_norm.
  rewrite rd_app. cbn [mbind outcome_mbind]. change ((44 =? 93) || (44 =? 0)) with false. cbn iota.
  replace ((pre ++ c :: w) ++ 44 :: post) with (pre ++ c :: (w ++ 44 :: post)) at 2 by app_norm.
  rewrite skip_spaces_none by done. cbn [mbind outcome_mbind].
  rewrite rd_app. cbn [mbind outcome_mbind]. change (44 =? 44) with true. cbn iota.
  rewrite wr_app. cbn [mbind outcome_mbind].
  replace ((pre ++ c :: w) ++ 0 :: post) with (pre ++ (c :: w) ++ 0 :: post) by app_norm.
  rewrite (token_at_app pre (c :: w) post) by (by apply item_no_nul). cbn [mbind outcome_mbind].
  f_equal; [app_norm|len_lia..].
Qed.

(** The first byte of the data is reached, past one optional space. *)
Lemma ll_build_first pre sp c post acc fuel :
  c ≠ 32 → item_byte c → sp = [] ∨ sp = [32] →
  ll_build_loop (S fuel) (pre ++ sp ++ c :: post) (Z.of_nat (length pre)) (Z.of_nat (length pre)) acc =
  ll_build_loop fuel ((pre ++ sp) ++ c :: post) (Z.of_nat (length (pre ++ sp)))
    (Z.of_nat (length ((pre ++ sp) ++ [c]))) acc.
Proof.
  intros Hc (H0 & H1 & H2) Hsp. cbn [ll_build_loop]. destruct Hsp as [-> | ->]; cbn [app].
  - rewrite rd_app. cbn [mbind outcome_mbind].
    destruct (Z.eqb_spec c 93); [done|]. destruct (Z.eqb_spec c 0); [done|]. cbn [orb].
    rewrite skip_spaces_none by done. cbn [mbind outcome_mbind]. rewrite rd_app. cbn [mbind outcome_mbind].
    destruct (Z.eqb_spec c 44); [done|]. rewrite app_nil_r. f_equal. len_lia.
  - rewrite rd_app. cbn [mbind outcome_mbind]. change ((32 =? 93) || (32 =? 0)) with false. cbn iota.
    rewrite length_app. cbn [length]. rewrite Nat.add_succ_r. rewrite skip_spaces_one by done.
    cbn [mbind outcome_mbind].
    replace (Z.of_nat (length pre) + 1) with (Z.of_nat (length (pre ++ [32]))) by len_lia.
    replace (pre ++ 32 :: c :: post) with ((pre ++ [32]) ++ c :: post) by app_norm.
    rewrite rd_app. cbn [mbind outcome_mbind]. destruct (Z.eqb_spec c 44); [done|]. f_equal. len_lia.
Qed.

Lemma ll_build_items items pre sp acc fuel :
  items ≠ [] → forallb item_ok items = true → sp = [] ∨ sp = [32] →
  (length (sp ++ print_items items) < fuel)%nat →
  ll_build_loop fuel (pre ++ sp ++ print_items items ++ [0])
    (Z.of_nat (length pre)) (Z.of_nat (length pre)) acc = Ret (acc ++ items).
Proof.
  intros Hne. revert pre sp acc fuel. induction items as [|w items IH]; [done|].
  intros pre sp acc fuel [Hw Hi]%andb_prop Hsp Hf.
  destruct (item_ok_inv w Hw) as (c & w' & -> & Hc & Hwb).
  assert (Hcb : item_byte c) by (by inversion Hwb).
  destruct fuel as [|fuel]; [lia|]. destruct items as [|w2 items].
  - cbn [print_items] in *. rewrite <-app_assoc.
    change (sp ++ (c :: w') ++ [93] ++ [0]) with (sp ++ c :: (w' ++ [93; 0])).
    rewrite ll_build_first by done. len_norm_in Hf.
    apply (ll_build_item_last (pre ++ sp) c w' [0]); [done..|lia].
  - cbn [print_items] in *. rewrite <-app_assoc. cbn [app].
    rewrite ll_build_first by done. len_norm_in Hf.
    replace fuel with (length w' + S (fuel - length w' - 1))%nat by lia.
    replace (w' ++ (44 :: 32 :: print_items (w2 :: items)) ++ [0])
      with (w' ++ 44 :: ([32] ++ print_items (w2 :: items) ++ [0])) by done.
    etransitivity; [by apply (ll_build_item_comma (pre ++ sp) c w')|].
    rewrite (IH ltac:(done) ((pre ++ sp) ++ (c :: w') ++ [0]) [32]); [by rewrite <-app_assoc|done|by right|].
    len_lia.
Qed.

(** *** The hex dump *)
Lemma dump_bytes_ok buf mk i n :
  (i + n <= length buf)%nat → dump_bytes buf mk (Z.of_nat i) n = Ret (mk <$> take n (drop i buf)).
Proof.
  revert i. induction n as [|n IH]; intros i Hl; cbn [dump_bytes]; [done|].
  destruct (lookup_lt_is_Some_2 buf i) as [b Hb]; [lia|].
  erewrite rd_lookup by done. cbn [mbind outcome_mbind].
  replace (Z.of_nat i + 1) with (Z.of_nat (S i)) by lia. rewrite IH by lia.
  by rewrite (drop_S buf b i Hb).
Qed.

Lemma dump_bytes_crash buf mk i n :
  (i <= length buf < i + n)%nat → dump_bytes buf mk (Z.of_nat i) n = Crash.
Proof.
  revert i. induction n as [|n IH]; intros i Hl; [lia|]. cbn [dump_bytes].
  destruct (decide (i = length buf)) as [->|Hne].
  - unfold rd. destruct (Z.ltb_spec (Z.of_nat (length buf)) 0); [lia|].
    by rewrite Nat2Z.id, lookup_ge_None_2 by lia.
  - destruct (lookup_lt_is_Some_2 buf i) as [b Hb]; [lia|].
    erewrite rd_lookup by done. cbn [mbind outcome_mbind].
    replace (Z.of_nat i + 1) with (Z.of_nat (S i)) by lia. by rewrite IH by lia.
Qed.

Lemma dump_rows_ok buf i n :
  (5 * (i + n) <= length buf)%nat → is_Some (match dump_rows buf (Z.of_nat i) n with Ret l => Some l | _ => None end).
Proof.
  revert i. induction n as [|n IH]; intros i Hl; cbn [dump_rows]; [done|].
  replace (5 * Z.of_nat i) with (Z.of_nat (5 * i)) by lia.
  rewrite !dump_bytes_ok by lia. cbn [mbind outcome_mbind].
  replace (Z.of_nat i + 1) with (Z.of_nat (S i)) by lia.
  destruct (IH (S i)) as [l Hl']; [lia|]. by destruct (dump_rows buf (Z.of_nat (S i)) n).
Qed.

(** A buffer of exactly [retlen] bytes is read past its end whenever
    [retlen] is not a multiple of five. *)
Lemma dump_buf_overread buf :
  Z.of_nat (length buf) mod 5 ≠ 0 → dump_buf buf (Z.of_nat (length buf)) = Crash.
Proof.
  intros Hm. unfold dump_buf. set (q := (length buf / 5)%nat).
  assert (Hq : (5 * q <= length buf < 5 * q + 5)%nat).
  { pose proof (Nat.div_mod_eq (length buf) 5). pose proof (Nat.mod_upper_bound (length buf) 5). lia. }
  replace (Z.of_nat (length buf) / 5) with (Z.of_nat q) by (subst q; rewrite Nat2Z.inj_div; lia).
  assert (Hmq : Z.to_nat (Z.of_nat (length buf) mod 5) = (length buf - 5 * q)%nat).
  { pose proof (Nat2Z.inj_mod (length buf) 5) as Hz. change (Z.of_nat 5) with 5 in Hz.
    rewrite <-Hz, Nat2Z.id. pose proof (Nat.div_mod_eq (length buf) 5) as Hd. fold q in Hd. lia. }
  rewrite Hmq, Nat2Z.id. destruct (dump_rows_ok buf 0 q) as [l Hl]; [lia|].
  change (Z.of_nat 0) with 0 in Hl. destruct (dump_rows buf 0 q) as [l'| | |]; try done.
  cbn [mbind outcome_mbind]. destruct (Z.eqb_spec (Z.of_nat (length buf) mod 5) 0); [done|].
  replace (5 * Z.of_nat q) with (Z.of_nat (5 * q)) by lia.
  rewrite (dump_bytes_ok _ Hex) by lia. cbn [mbind outcome_mbind]. by rewrite dump_bytes_crash by lia.
Qed.

(** [[ ] is read past its terminator: blanks after the bracket are skipped
    together with the test for the end. *)
Example ll_build_blank_overread : ll_build [] (bytes_of "[ ") = Crash.
Proof. vm_compute. reflexivity. Qed.

(** ** Properties *)

(** C32. [strcasestr] returns the offset of the first occurrence of the
    substring, case being ignored, or NULL when there is none. *)
Theorem strcasestr_spec (s t : bytes) (Hs : no_nul s) (Ht : no_nul t) (Hne : t ≠ []) :
  match strcasestr s t with
  | Some j => ci_match_at s t j ∧ ∀ j', (j' < j)%nat → ¬ ci_match_at s t j'
  | None => ∀ j, ¬ ci_match_at s t j
  end.
Proof.
  unfold strcasestr.
  pose proof (strcasestr_loop_spec s t 0
    (Z.to_nat (Z.of_nat (length s) - Z.of_nat (length t) + 1)) Hs Ht ltac:(lia)) as H.
  destruct (strcasestr_loop _ _ _ _) as [k|].
  - by destruct H as (j & -> & _ & ? & ?).
  - intros j Hm. apply (H j); [|done]. apply (f_equal length) in Hm.
    rewrite !length_fmap, length_take, length_drop in Hm.
    assert (0 < length t)%nat by (destruct t; [done|cbn; lia]). clear -Hm H0. rewrite Nat.min_l_iff in Hm. lia.
Qed.

Lemma strcasestr_spec_witness :
  match strcasestr (bytes_of "Content-LENGTH: 3") (bytes_of "length") with
  | Some j => ci_match_at (bytes_of "Content-LENGTH: 3") (bytes_of "length") j ∧
      ∀ j', (j' < j)%nat → ¬ ci_match_at (bytes_of "Content-LENGTH: 3") (bytes_of "length") j'
  | None => ∀ j, ¬ ci_match_at (bytes_of "Content-LENGTH: 3") (bytes_of "length") j
  end.
Proof. apply strcasestr_spec; [repeat constructor; done..|done]. Defined.

(** [dumb_strnstr] reads only the [n] bytes it is given, never past
    them, and returns the first place of the substring that no NUL precedes. *)
Theorem dumb_strnstr_spec (buf t : bytes) (n : nat) (Hn : (n <= length buf)%nat) (Ht : t ≠ []) :
  ∃ r, dumb_strnstr buf t (Z.of_nat n) = Ret r ∧
    match r with
    | Some k => ∃ j, k = Z.of_nat j ∧ (j + length t <= n)%nat ∧ match_at buf t j ∧
        (∀ j', (j' < j)%nat → ¬ match_at buf t j') ∧ (∀ j', (j' <= j)%nat → buf !! j' ≠ Some 0)
    | None => ∀ j, (j + length t <= n)%nat → match_at buf t j →
        ∃ j', (j' <= j)%nat ∧ buf !! j' = Some 0
    end.
Proof.
  assert (Hlt : (0 < length t)%nat) by (destruct t; [done|cbn; lia]).
  unfold dumb_strnstr. destruct (decide (length t <= n)%nat) as [Hle|Hgt].
  - destruct (dumb_strnstr_loop_spec buf t 0 (S n - length t)) as (r & Hr & H); [lia..|].
    replace (Z.to_nat _) with (S n - length t)%nat by lia. exists r. split; [exact Hr|].
    destruct r as [k|].
    + destruct H as (j & -> & Hj & Hm & Hmin & Hz). exists j. split_and!; [done|lia|done| |].
      * intros j' Hj'. apply Hmin. lia.
      * intros j' Hj'. apply Hz. lia.
    + intros j Hj Hm. destruct (H j) as (j' & ? & ?); [lia|done|]. exists j'. split; [lia|done].
  - replace (Z.to_nat _) with O by lia. exists None. split; [done|]. intros; lia.
Qed.

Lemma dumb_strnstr_spec_witness :
  ∃ r, dumb_strnstr (bytes_of "key: value") (bytes_of "val") (Z.of_nat 10) = Ret r ∧
    match r with
    | Some k => ∃ j, k = Z.of_nat j ∧ (j + length (bytes_of "val") <= 10)%nat ∧
        match_at (bytes_of "key: value") (bytes_of "val") j ∧
        (∀ j', (j' < j)%nat → ¬ match_at (bytes_of "key: value") (bytes_of "val") j') ∧
        (∀ j', (j' <= j)%nat → bytes_of "key: value" !! j' ≠ Some 0)
    | None => ∀ j, (j + length (bytes_of "val") <= 10)%nat →
        match_at (bytes_of "key: value") (bytes_of "val") j →
        ∃ j', (j' <= j)%nat ∧ bytes_of "key: value" !! j' = Some 0
    end.
Proof. apply dumb_strnstr_spec; [cbn; lia|done]. Defined.

(** The loop over [ts_strtok] terminates on every string and returns
    the tokens [strtok] is documented to return, followed by one empty token
    exactly when delimiters remain behind the one that ends the last token
    (or the string is all delimiters). *)
Theorem strtok_all_spec (set s : bytes) (st : ts_strtok_state) (Hs : no_nul s)
    (Hst : ts_strtok_init (Some s) = Some st) :
  strtok_all (S (length s)) set st =
  Ret (strtok_tokens set s ++ (if dangling set s then [[]] else [])).
Proof.
  injection Hst as <-. by rewrite (strtok_all_spec_from set s []) by (done || lia).
Qed.

Lemma strtok_all_spec_witness :
  strtok_all 8 (bytes_of " ,") (Strtok (bytes_of "a, b,, " ++ [0]) 0 7) =
  Ret (strtok_tokens (bytes_of " ,") (bytes_of "a, b,, ") ++
       (if dangling (bytes_of " ,") (bytes_of "a, b,, ") then [[]] else [])).
Proof.
  apply (strtok_all_spec (bytes_of " ,") (bytes_of "a, b,, ")); [repeat constructor; done|reflexivity].
Defined.

(** [ll_build] reads back a bracketed list: appended to the list it is
    given, it returns the items, for items that are not empty, do not begin
    with a blank and contain no comma, bracket or NUL. *)
Theorem ll_build_print (acc items : list bytes)
    (Hne : items ≠ []) (Hok : forallb item_ok items = true) :
  ll_build acc (print_list items) = Ret (acc ++ items).
Proof. by apply (ll_build_items items [91] []); [..|left|unfold print_list; cbn; lia]. Qed.

Lemma ll_build_print_witness :
  ll_build [bytes_of "x"] (print_list [bytes_of "GIF 1"; bytes_of "JPEG"]) =
  Ret ([bytes_of "x"] ++ [bytes_of "GIF 1"; bytes_of "JPEG"]).
Proof. apply ll_build_print; [discriminate|reflexivity]. Defined.
