(* ===== verification/TimeVal.v ===== *)
(** * Time arithmetic (client_lib/src/utils.c, lines 97-216)

    [tv_*] on [struct timeval] (microseconds) and [ts_*] on
    [struct timespec] (nanoseconds).  The two families are the same code but
    for the unit, which is a parameter here; [double] values are IEEE binary64
    numbers of the standard library's [SpecFloat].  Integers are mathematical:
    a signed overflow is undefined behaviour of the source. *)

From S2P Require Import Prelude.
From Stdlib Require Import SpecFloat.
Open Scope Z_scope.

(** ** Definitions *)

Record time := Time { t_sec : Z; t_frac : Z }.

Definition USEC : Z := 1000000.
Definition NSEC : Z := 1000000000.

(** *** Doubles *)
Definition prec : Z := 53.
Definition emax : Z := 1024.
Definition dbl_of_Z (z : Z) : spec_float := binary_normalize prec emax z 0 false.
Definition dmul := SFmul prec emax.
Definition dsub := SFsub prec emax.
Definition dadd := SFadd prec emax.

(** Conversion to [long], by truncation; out of range it is undefined. *)
Definition long_of_dbl (x : spec_float) : outcome Z :=
  match x with
  | S754_zero _ => Ret 0
  | S754_finite s m e =>
      let a := if 0 <=? e then Z.pos m * 2 ^ e else Z.pos m / 2 ^ (- e) in
      let z := if s then - a else a in
      if (- 2 ^ 63 <=? z) && (z <? 2 ^ 63) then Ret z else Crash
  | _ => Crash
  end.

Section unit.
Variable U : Z.   (* the fractions in a second *)

Definition timeadd (t1 t2 : time) : time :=
  let sec := t_sec t1 + t_sec t2 in
  let frac := t_frac t1 + t_frac t2 in
  if U <? frac then Time (sec + 1) (frac - U) else Time sec frac.

Definition timesub (t1 t2 : time) : time :=
  let '(f1, s2) := if t_frac t1 <? t_frac t2 then (t_frac t1 + U, t_sec t2 + 1)
                   else (t_frac t1, t_sec t2) in
  Time (t_sec t1 - s2) (f1 - t_frac t2).

Definition timecmp (t1 t2 : time) : Z :=
  if t_sec t2 <? t_sec t1 then 1
  else if t_sec t1 <? t_sec t2 then -1
  else if t_frac t2 <? t_frac t1 then 1
  else if t_frac t1 <? t_frac t2 then -1
  else 0.

(** [while (frac > U) { frac -= U; sec += 1; }] *)
Fixpoint carry_loop (fuel : nat) (t : time) : outcome time :=
  match fuel with
  | O => Stuck
  | S fuel' =>
      if U <? t_frac t then carry_loop fuel' (Time (t_sec t + 1) (t_frac t - U)) else Ret t
  end.

Definition carry_fuel (frac : Z) : nat := S (Z.to_nat (frac / U)).

Definition timemul (t1 : time) (mult : spec_float) : outcome time :=
  let rsec := dmul mult (dbl_of_Z (t_sec t1)) in
  let rfrac := dmul mult (dbl_of_Z (t_frac t1)) in
  sec ← long_of_dbl rsec;
  frac ← long_of_dbl rfrac;
  frac ← long_of_dbl (dadd (dbl_of_Z frac) (dmul (dbl_of_Z U) (dsub rsec (dbl_of_Z sec))));
  carry_loop (carry_fuel frac) (Time sec frac).
End unit.

Definition tv_timeadd := timeadd USEC.
Definition tv_timesub := timesub USEC.
Definition tv_timemul := timemul USEC.
Definition tv_timecmp := timecmp.
Definition ts_timeadd := timeadd NSEC.
Definition ts_timesub := timesub NSEC.
Definition ts_timemul := timemul NSEC.
Definition ts_timecmp := timecmp.

(** The duration a pair stands for, and the normal form of POSIX. *)
Definition time_val (U : Z) (t : time) : Z := t_sec t * U + t_frac t.
Definition time_norm (U : Z) (t : time) : Prop := 0 <= t_frac t < U.

(** ** Lemmas *)

(** The carry loop terminates, keeps the duration and leaves at most [U]
    fractions. *)
Lemma carry_loop_spec U fuel t :
  0 < U → t_frac t <= Z.of_nat (S fuel) * U →
  ∃ t', carry_loop U (S fuel) t = Ret t' ∧ time_val U t' = time_val U t ∧ t_frac t' <= U ∧
    (0 <= t_frac t → 0 <= t_frac t').
Proof.
  intros HU. revert t. induction fuel as [|fuel IH]; intros [s f] Hf; cbn [t_sec t_frac] in *.
  - exists (Time s f). cbn [carry_loop t_frac]. destruct (Z.ltb_spec U f); [exfalso; lia|]. split_and!; done || lia.
  - cbn [carry_loop t_sec t_frac]. destruct (Z.ltb_spec U f) as [Hlt|Hge].
    + destruct (IH (Time (s + 1) (f - U))) as (t' & Ht' & Hv & Hb & Hp); cbn [t_sec t_frac] in *; [nia|].
      exists t'. split_and!; [done| |done|lia]. rewrite Hv. unfold time_val. cbn [t_sec t_frac]. nia.
    + exists (Time s f). split_and!; done.
Qed.

Lemma carry_fuel_enough U f : 0 < U → ∃ n, carry_fuel U f = S n ∧ f <= Z.of_nat (S n) * U.
Proof.
  intros HU. exists (Z.to_nat (f / U)). split; [done|].
  pose proof (Z.div_mod f U ltac:(lia)). pose proof (Z.mod_pos_bound f U HU).
  destruct (Z.le_gt_cases 0 (f / U)); [rewrite Nat2Z.inj_succ, Z2Nat.id by done; nia|nia].
Qed.

(** [timemul] returns whenever the products fit a [long], and never leaves
    more than [U] fractions: its loop terminates. *)
Lemma timemul_terminates U t1 mult :
  0 < U → match timemul U t1 mult with
          | Ret t => t_frac t <= U | Crash => True | _ => False end.
Proof.
  intros HU. unfold timemul.
  assert (Hl : ∀ x, (∃ z, long_of_dbl x = Ret z) ∨ long_of_dbl x = Crash).
  { intros []; cbn; eauto. case_match; eauto. }
  destruct (Hl (dmul mult (dbl_of_Z (t_sec t1)))) as [[sec ->]| ->]; [|done].
  cbn [mbind outcome_mbind].
  destruct (Hl (dmul mult (dbl_of_Z (t_frac t1)))) as [[f0 ->]| ->]; [|done].
  cbn [mbind outcome_mbind].
  match goal with |- context [long_of_dbl ?x] => destruct (Hl x) as [[f ->]| ->]; [|done] end.
  cbn [mbind outcome_mbind]. destruct (carry_fuel_enough U f HU) as (n & -> & Hn).
  by destruct (carry_loop_spec U n (Time sec f) HU Hn) as (t & -> & _ & ? & _).
Qed.

(** The sum of two normal times whose fractions add up to a second exactly
    is not normal: the test is [>], not [>=]. *)
Lemma timeadd_unnormal U t1 t2 :
  t_frac t1 + t_frac t2 = U → t_frac (timeadd U t1 t2) = U.
Proof. intros H. unfold timeadd. rewrite H. by rewrite Z.ltb_irrefl. Qed.

(** One second and a half, times one and a half. *)
Example timemul_ex :
  tv_timemul (Time 3 500000) (S754_finite false 3 (-1)) = Ret (Time 5 250000).
Proof. vm_compute. reflexivity. Qed.

(** ** Properties *)

(** On normal times, addition and subtraction are exact; the difference
    is normal, the sum is normal unless the fractions add up to a second
    exactly (it then keeps a whole second of fractions); and the comparison
    is the sign of the difference of the durations. *)
Theorem time_ops_exact (U : Z) (t1 t2 : time) (H1 : time_norm U t1) (H2 : time_norm U t2) :
  time_val U (timeadd U t1 t2) = time_val U t1 + time_val U t2 ∧
  (time_norm U (timeadd U t1 t2) ↔ t_frac t1 + t_frac t2 ≠ U) ∧
  time_val U (timesub U t1 t2) = time_val U t1 - time_val U t2 ∧
  time_norm U (timesub U t1 t2) ∧
  timecmp t1 t2 = Z.sgn (time_val U t1 - time_val U t2).
Proof.
  destruct t1 as [s1 f1], t2 as [s2 f2]. unfold time_norm, time_val, timeadd, timesub, timecmp in *.
  cbn [t_sec t_frac] in *. split; [|split; [|split; [|split]]].
  - destruct (Z.ltb_spec U (f1 + f2)); cbn [t_sec t_frac]; lia.
  - destruct (Z.ltb_spec U (f1 + f2)); cbn [t_frac]; lia.
  - destruct (Z.ltb_spec f1 f2); cbn [t_sec t_frac]; lia.
  - destruct (Z.ltb_spec f1 f2); cbn [t_frac]; lia.
  - symmetry. destruct (Z.ltb_spec s2 s1); [apply Z.sgn_pos; nia|].
    destruct (Z.ltb_spec s1 s2); [apply Z.sgn_neg; nia|]. replace s2 with s1 by lia.
    destruct (Z.ltb_spec f2 f1); [apply Z.sgn_pos; lia|].
    destruct (Z.ltb_spec f1 f2); [apply Z.sgn_neg; lia|]. apply Z.sgn_null. lia.
Qed.

Lemma time_ops_exact_witness :
  let a := Time 3 700000 in let b := Time 1 800000 in
  time_val USEC (timeadd USEC a b) = time_val USEC a + time_val USEC b ∧
  (time_norm USEC (timeadd USEC a b) ↔ t_frac a + t_frac b ≠ USEC) ∧
  time_val USEC (timesub USEC a b) = time_val USEC a - time_val USEC b ∧
  time_norm USEC (timesub USEC a b) ∧
  timecmp a b = Z.sgn (time_val USEC a - time_val USEC b).
Proof. intros a b. apply time_ops_exact; unfold time_norm, USEC; cbn; lia. Defined.
