(* ===== verification/HashTable.v ===== *)
(** * Chained hash tables (client_lib/src/utils.c, lines 927-1040)

    The hash tables are arrays of linked lists: the model keeps the slot array
    as the list of its list variables and runs the list operations of
    [LinkedList] on the shared node memory.  The theorem relates a table to
    one plain list, most recent insertion first. *)

From S2P Require Import Prelude LinkedList.

(** ** Definitions *)

Record hash_table := Table {
  num_elements : Z;
  slot_array : list (option loc);
}.
Definition set_slot (i : nat) (p : option loc) (ht : hash_table) :=
  Table (num_elements ht) (<[i := p]> (slot_array ht)).

Section ops.
Context {D : Type} `{Null D}.
Variable uninit : ll_node D.
Abbreviation cmd := (M (ll_mem D)).

(** [malloc_ok] tells whether [malloc] provides the slot array. *)
Definition chained_hash_create (num_slots : Z) (malloc_ok : bool) : Z * option hash_table :=
  if malloc_ok then (0, Some (Table num_slots (replicate (Z.to_nat num_slots) None)))%Z
  else (-1, None)%Z.

(** The loop over the slots; returns the data passed to the deletor. *)
Fixpoint destroy_slots (sArray : list (option loc)) : cmd (list D) :=
  match sArray with
  | [] => mret []
  | None :: rest => destroy_slots rest
  | Some a :: rest =>
      '(_, _, nuked) ← ll_destroy (Some a);
      rest_nuked ← destroy_slots rest;
      mret (nuked ++ rest_nuked)
  end.
Definition chained_hash_destroy (ht : hash_table) : cmd (Z * list D) :=
  nuked ← destroy_slots (take (Z.to_nat (num_elements ht)) (slot_array ht));
  mret (0%Z, nuked).

Section hash.
Variable f : D → Z → Z.        (* hash_function *)
Variable c : D → D → Z.        (* sc_comparator *)

Definition slotnum (element : D) (ht : hash_table) : option nat :=
  let s := f element (num_elements ht) in
  if ((0 <=? s) && (s <? num_elements ht))%Z then Some (Z.to_nat s) else None.

Definition chained_hash_insert (element : D) (ht : hash_table) : cmd (Z * hash_table) :=
  match slotnum element ht with
  | None => mret ((-1)%Z, ht)
  | Some i =>
      slotList ← deref (slot_array ht !! i);
      '(r, slotList) ← ll_add_to_start uninit slotList element;
      if (r =? 1)%Z then mret (0%Z, set_slot i slotList ht)
      else mret ((-1)%Z, set_slot i slotList ht)
  end.

Definition chained_hash_search (element : D) (ht : hash_table) : cmd (option D) :=
  match slotnum element ht with
  | None => mret None
  | Some i =>
      slotList ← deref (slot_array ht !! i);
      foundEl ← ll_find c slotList element;
      match foundEl with
      | None => mret None
      | Some _ => n ← load foundEl; mret (Some (data n))
      end
  end.

Definition chained_hash_delete (element : D) (ht : hash_table) : cmd (Z * list D * hash_table) :=
  match slotnum element ht with
  | None => mret (0%Z, [], ht)
  | Some i =>
      slotList ← deref (slot_array ht !! i);
      '(r, slotList, nuked) ← ll_del c slotList element;
      mret (r, nuked, set_slot i slotList ht)
  end.

Inductive hash_op := HInsert (d : D) | HSearch (d : D) | HDelete (d : D).

Definition hash_step (op : hash_op) (ht : hash_table) : cmd (ll_result D * hash_table) :=
  match op with
  | HInsert d => '(r, ht) ← chained_hash_insert d ht; mret (RInt r [], ht)
  | HSearch d => r ← chained_hash_search d ht; mret (RFound r, ht)
  | HDelete d => '(r, nuked, ht) ← chained_hash_delete d ht; mret (RInt r nuked, ht)
  end.

Fixpoint hash_exec (ops : list hash_op) (ht : hash_table) : cmd (list (ll_result D) * hash_table) :=
  match ops with
  | [] => mret ([], ht)
  | op :: ops' =>
      '(r, ht) ← hash_step op ht;
      '(rs, ht) ← hash_exec ops' ht;
      mret (r :: rs, ht)
  end.
End hash.
End ops.
Arguments hash_op : clear implicits.

(** ** The reference: one plain list, most recent insertion first *)
Section reference.
Context {D : Type}.
Variables (f : D → Z → Z) (c : D → D → Z) (n : Z).

Definition good_hash (d : D) : bool := ((0 <=? f d n) && (f d n <? n))%Z.

Definition ref_step (op : hash_op D) (xs : list D) : ll_result D * list D :=
  match op with
  | HInsert d => if good_hash d then (RInt 0 [], d :: xs) else (RInt (-1) [], xs)
  | HSearch d => (RFound (fst <$> remove_first (cmp_eq c d) xs), xs)
  | HDelete d =>
      match remove_first (cmp_eq c d) xs with
      | Some (e, xs') => (RInt 1 [e], xs')
      | None => (RInt 0 [], xs)
      end
  end.

Fixpoint ref_exec (ops : list (hash_op D)) (xs : list D) : list (ll_result D) * list D :=
  match ops with
  | [] => ([], xs)
  | op :: ops' =>
      let '(r, xs') := ref_step op xs in
      let '(rs, xs'') := ref_exec ops' xs' in (r :: rs, xs'')
  end.

(** The elements of one slot. *)
Definition bucket (i : nat) (xs : list D) : list D := filter (λ x, f x n = Z.of_nat i) xs.
End reference.

(** ** Representation *)

(** The slots [sl] hold the lists [ls], on nodes of their own. *)
Record slots_wf {D} (m : ll_mem D) (fl : list loc) (sl : list (option loc))
    (ls : list (list (loc * D))) : Prop := {
  sw_alloc : alloc_wf m fl;
  sw_lists : Forall2 (dll (cells m)) sl ls;
  sw_nodup : NoDup (fl ++ (concat ls).*1);
}.

Record table_wf {D} (f : D → Z → Z) (m : ll_mem D) (fl : list loc) (ht : hash_table)
    (ls : list (list (loc * D))) (xs : list D) : Prop := {
  tw_slots : slots_wf m fl (slot_array ht) ls;
  tw_len : Z.of_nat (length (slot_array ht)) = num_elements ht;
  tw_bucket : ∀ i l, ls !! i = Some l → l.*2 = bucket f (num_elements ht) i xs;
  tw_good : Forall (λ x, good_hash f (num_elements ht) x = true) xs;
}.

(** ** Lemmas *)
Section wf.
Context {D : Type} `{Null D}.
Implicit Types (m : ll_mem D) (ls : list (list (loc * D))).

Lemma elem_of_concat {A} (x : A) (ls : list (list A)) : x ∈ concat ls ↔ ∃ l, l ∈ ls ∧ x ∈ l.
Proof.
  rewrite list_elem_of_In, in_concat. by setoid_rewrite list_elem_of_In.
Qed.

Lemma concat_split i ls l :
  ls !! i = Some l → ∃ c1 c2, concat ls = c1 ++ l ++ c2 ∧
    ∀ l', concat (<[i := l']> ls) = c1 ++ l' ++ c2.
Proof.
  intros Hi. pose proof (take_drop_middle ls i l Hi) as E.
  exists (concat (take i ls)), (concat (drop (S i) ls)). split.
  - rewrite <-E at 1. by rewrite concat_app.
  - intros l'. rewrite insert_take_drop by (by eapply lookup_lt_Some). by rewrite concat_app.
Qed.

Lemma nodup_split (fl a b c : list loc) :
  NoDup (fl ++ a ++ b ++ c) ↔ NoDup (fl ++ b) ∧ NoDup (a ++ c) ∧
    (∀ x, x ∈ a ++ c → (x ∉ fl) ∧ (x ∉ b)).
Proof.
  rewrite !NoDup_app. setoid_rewrite elem_of_app. setoid_rewrite elem_of_app. split; intros Hn; destruct_all; split_and!; naive_solver.
Qed.

Lemma slots_wf_lookup m fl sl ls i hd :
  slots_wf m fl sl ls → sl !! i = Some hd →
  ∃ l, ls !! i = Some l ∧ ll_wf m fl hd l.
Proof.
  intros [Ha Hl Hnd] Hi. destruct (Forall2_lookup_l _ _ _ _ _ Hl Hi) as (l & Hli & Hd).
  exists l. split; [done|]. destruct (concat_split i ls l Hli) as (c1 & c2 & E & _).
  rewrite E, !fmap_app in Hnd. apply nodup_split in Hnd as (? & _). by split.
Qed.

Lemma slots_wf_update m fl sl ls i hd l m' fl' hd' l' :
  slots_wf m fl sl ls → sl !! i = Some hd → ls !! i = Some l →
  ll_wf m' fl' hd' l' → preserves l.*1 m fl m' fl' →
  (∀ b, b ∈ l'.*1 → b ∈ l.*1 ∨ ¬ used m fl b) →
  slots_wf m' fl' (<[i := hd']> sl) (<[i := l']> ls).
Proof.
  intros [Ha Hl Hnd] Hi Hli Hwf' Hpr Hnew.
  destruct (concat_split i ls l Hli) as (c1 & c2 & E & E').
  rewrite E, !fmap_app in Hnd. apply nodup_split in Hnd as (Hnd1 & Hnd2 & Hdj).
  assert (Hrest : ∀ j hdj lj, j ≠ i → sl !! j = Some hdj → ls !! j = Some lj →
    dll (cells m) hdj lj → ∀ b, b ∈ lj.*1 → b ∈ c1.*1 ++ c2.*1).
  { intros j hdj lj Hj Hsj Hlj _ b Hb. rewrite <-fmap_app.
    pose proof (E' []) as E0. rewrite app_nil_l in E0. rewrite <-E0.
    apply list_elem_of_fmap in Hb as (y & -> & Hy). apply list_elem_of_fmap_2.
    apply elem_of_concat. exists lj. split; [|done].
    apply list_elem_of_lookup_2 with j. rewrite list_lookup_insert_ne; congruence. }
  assert (Hused : ∀ b, b ∈ c1.*1 ++ c2.*1 → is_Some (cells m !! b)).
  { intros b Hb. rewrite <-fmap_app in Hb. pose proof (E' []) as E0. rewrite app_nil_l in E0.
    rewrite <-E0 in Hb. apply list_elem_of_fmap in Hb as (y & -> & Hy).
    apply elem_of_concat in Hy as (lj & Hlj & Hy).
    apply list_elem_of_lookup_1 in Hlj as [j Hj].
    destruct (decide (j = i)) as [->|Hne].
    - apply list_lookup_insert_Some in Hj as [(_ & <- & _)|[]]; [by apply elem_of_nil in Hy|done].
    - rewrite list_lookup_insert_ne in Hj by congruence.
      destruct (Forall2_lookup_r _ _ _ _ _ Hl Hj) as (hdj & Hsj & Hd).
      eapply dseg_lookup; [done|]. by apply list_elem_of_fmap_2. }
  split; [apply Hwf'| |].
  - apply Forall2_same_length_lookup. split.
    { rewrite !length_insert. by eapply Forall2_length. }
    intros j hdj lj Hsj Hlj. destruct (decide (j = i)) as [->|Hne].
    + apply list_lookup_insert_Some in Hsj as [(_ & <- & _)|[]]; [|done].
      apply list_lookup_insert_Some in Hlj as [(_ & <- & _)|[]]; [|done]. apply Hwf'.
    + rewrite list_lookup_insert_ne in Hsj by congruence. rewrite list_lookup_insert_ne in Hlj by congruence.
      assert (Hd : dll (cells m) hdj lj) by (by eapply Forall2_lookup_lr).
      eapply dseg_frame, Hd. intros b Hb.
      specialize (Hrest j hdj lj Hne Hsj Hlj Hd b Hb). destruct (Hdj b Hrest).
      by destruct (Hpr b) as [? _]; auto.
  - rewrite E', !fmap_app. apply nodup_split. split_and!; [apply Hwf'|done|].
    intros b Hb. destruct (Hdj b Hb) as [Hb1 Hb2]. split.
    + by destruct (Hpr b) as [_ ?]; auto.
    + intros Hbl. destruct (Hnew b Hbl) as [|Hnu]; [done|]. apply Hnu. split; auto.
Qed.
End wf.

(** *** Filters and removals *)
Lemma remove_first_filter {A} (p : A → bool) (q : A → Prop) `{∀ x, Decision (q x)} (xs : list A) :
  (∀ x, p x = true → q x) →
  remove_first p (filter q xs) =
  match remove_first p xs with Some (y, ys) => Some (y, filter q ys) | None => None end.
Proof.
  intros Hpq. induction xs as [|x xs IH]; [done|]. cbn [remove_first].
  destruct (p x) eqn:Hp.
  - rewrite filter_cons_True by auto. cbn [remove_first]. by rewrite Hp.
  - destruct (decide (q x)).
    + rewrite filter_cons_True by done. cbn [remove_first]. rewrite Hp, IH.
      destruct (remove_first p xs) as [[y ys]|]; [|done]. by rewrite filter_cons_True.
    + rewrite filter_cons_False by done. rewrite IH.
      destruct (remove_first p xs) as [[y ys]|]; [|done]. by rewrite filter_cons_False.
Qed.

Lemma remove_first_filter_out {A} (p : A → bool) (q : A → Prop) `{∀ x, Decision (q x)} xs y ys :
  (∀ x, p x = true → ¬ q x) → remove_first p xs = Some (y, ys) → filter q ys = filter q xs.
Proof.
  intros Hpq. revert ys. induction xs as [|x xs IH]; intros ys; cbn [remove_first]; [done|].
  destruct (p x) eqn:Hp.
  - intros [= <- <-]. by rewrite filter_cons_False by auto.
  - destruct (remove_first p xs) as [[z zs]|]; [|done]. intros [= -> <-].
    specialize (IH zs eq_refl). destruct (decide (q x)).
    + by rewrite !filter_cons_True, IH.
    + by rewrite !filter_cons_False, IH.
Qed.

Lemma remove_first_true {A} (p : A → bool) xs y ys :
  remove_first p xs = Some (y, ys) → p y = true.
Proof.
  revert ys. induction xs as [|x xs IH]; intros ys; cbn [remove_first]; [done|].
  destruct (p x) eqn:Hp; [by intros [= -> _]|].
  destruct (remove_first p xs) as [[z zs]|]; [|done]. intros [= -> _]. by eapply IH.
Qed.

Lemma remove_first_none_filter {A} (p : A → bool) (q : A → Prop) `{∀ x, Decision (q x)} xs :
  (∀ x, x ∈ xs → p x = false) → remove_first p xs = None.
Proof.
  induction xs as [|x xs IH]; intros Hp; cbn [remove_first]; [done|].
  rewrite Hp by set_solver +. by rewrite IH by (intros; apply Hp; set_solver).
Qed.

(** ** One operation against the reference *)
Section refine.
Context {D : Type} `{Null D}.
Variable uninit : ll_node D.
Variables (f : D → Z → Z) (c : D → D → Z).
(** Elements that compare equal hash to the same slot. *)
Hypothesis f_compat : ∀ n d e, c d e = 0%Z → f d n = f e n.

Lemma slotnum_inv d ht i :
  slotnum f d ht = Some i → f d (num_elements ht) = Z.of_nat i ∧ (Z.of_nat i < num_elements ht)%Z.
Proof.
  unfold slotnum. destruct (Z.leb_spec 0 (f d (num_elements ht))); [|done].
  destruct (Z.ltb_spec (f d (num_elements ht)) (num_elements ht)); [|done].
  intros [= <-]. rewrite Z2Nat.id by done. done.
Qed.

Lemma slotnum_good d ht : slotnum f d ht =
  if good_hash f (num_elements ht) d then Some (Z.to_nat (f d (num_elements ht))) else None.
Proof. done. Qed.

Lemma cmp_eq_hash d e n : cmp_eq c d e = true → f e n = f d n.
Proof. intros Hc%Z.eqb_eq. symmetry. by apply f_compat. Qed.

(** A slot of a well-formed table. *)
Lemma table_slot m fl ht ls xs i :
  table_wf f m fl ht ls xs → (Z.of_nat i < num_elements ht)%Z →
  ∃ hd l, slot_array ht !! i = Some hd ∧ ls !! i = Some l ∧ ll_wf m fl hd l ∧
    l.*2 = bucket f (num_elements ht) i xs.
Proof.
  intros [Hs Hlen Hb _] Hi.
  destruct (lookup_lt_is_Some_2 (slot_array ht) i) as [hd Hhd]; [lia|].
  destruct (slots_wf_lookup _ _ _ _ _ _ Hs Hhd) as (l & Hl & Hwf). exists hd, l. auto.
Qed.

Lemma table_wf_update m fl ht ls xs i hd l m' fl' hd' l' xs' :
  table_wf f m fl ht ls xs → slot_array ht !! i = Some hd → ls !! i = Some l →
  ll_wf m' fl' hd' l' → preserves l.*1 m fl m' fl' →
  (∀ b, b ∈ l'.*1 → b ∈ l.*1 ∨ ¬ used m fl b) →
  l'.*2 = bucket f (num_elements ht) i xs' →
  (∀ j, j ≠ i → bucket f (num_elements ht) j xs' = bucket f (num_elements ht) j xs) →
  Forall (λ x, good_hash f (num_elements ht) x = true) xs' →
  table_wf f m' fl' (set_slot i hd' ht) (<[i := l']> ls) xs'.
Proof.
  intros [Hs Hlen Hb Hg] Hhd Hl Hwf Hpr Hnew Hi Hne Hg'. split; cbn.
  - by eapply slots_wf_update.
  - by rewrite length_insert.
  - intros j lj Hj. apply list_lookup_insert_Some in Hj as [(<- & <- & _)|[Hij Hj]]; [done|].
    rewrite Hne by done. by apply Hb.
  - done.
Qed.

Lemma bucket_cons_eq n i d xs :
  f d n = Z.of_nat i → bucket f n i (d :: xs) = d :: bucket f n i xs.
Proof. intros E. unfold bucket. by rewrite filter_cons_True. Qed.
Lemma bucket_cons_ne n i j d xs :
  f d n = Z.of_nat i → j ≠ i → bucket f n j (d :: xs) = bucket f n j xs.
Proof. intros E Hj. unfold bucket. rewrite filter_cons_False; [done|lia]. Qed.

(** The first match of the table is the first match of its slot. *)
Lemma bucket_remove n i d xs :
  f d n = Z.of_nat i →
  remove_first (cmp_eq c d) (bucket f n i xs) =
  match remove_first (cmp_eq c d) xs with Some (y, ys) => Some (y, bucket f n i ys) | None => None end.
Proof. intros E. apply remove_first_filter. intros x Hx. by rewrite (cmp_eq_hash d x n Hx). Qed.
Lemma bucket_remove_ne n i j d xs y ys :
  f d n = Z.of_nat i → j ≠ i → remove_first (cmp_eq c d) xs = Some (y, ys) →
  bucket f n j ys = bucket f n j xs.
Proof.
  intros E Hj. apply remove_first_filter_out. intros x Hx. rewrite (cmp_eq_hash d x n Hx). lia.
Qed.

Lemma insert_refines m fl ht ls xs d k :
  table_wf f m fl ht ls xs → can_alloc (S k) m fl → good_hash f (num_elements ht) d = true →
  ∃ m' fl' ht' ls', chained_hash_insert uninit f d ht m = Ret ((0%Z, ht'), m') ∧
    table_wf f m' fl' ht' ls' (d :: xs) ∧ num_elements ht' = num_elements ht ∧ can_alloc k m' fl'.
Proof.
  intros Hwf Hcan Hg. unfold chained_hash_insert.
  destruct (slotnum f d ht) as [i|] eqn:Hs; [|by rewrite slotnum_good, Hg in Hs].
  destruct (slotnum_inv d ht i Hs) as [Hfi Hi].
  destruct (table_slot _ _ _ _ _ _ Hwf Hi) as (hd & l & Hhd & Hl & Hlwf & Hbk).
  destruct (ll_add_to_start_spec uninit m fl hd l d k Hlwf Hcan) as (a & m' & fl' & Hr & Hwf' & Hcan2 & Hpr & Hnu).
  exists m', fl', (set_slot i (Some a) ht), (<[i := (a, d) :: l]> ls). rewrite Hhd. cbn [deref].
  rewrite mret_bind. step_with Hr. split; [done|]. split_and!; [|done|done].
  eapply table_wf_update; [done..| | | |].
  - intros b [->|Hb]%elem_of_cons; auto.
  - rewrite bucket_cons_eq by done. cbn. by rewrite Hbk.
  - intros j Hj. by eapply bucket_cons_ne.
  - constructor; [done|apply Hwf].
Qed.

(** A badly hashed element matches nothing. *)
Lemma bad_slot_no_match m fl ht ls xs d :
  table_wf f m fl ht ls xs → slotnum f d ht = None → remove_first (cmp_eq c d) xs = None.
Proof.
  intros Hwf Hs. rewrite slotnum_good in Hs. destruct (good_hash _ _ d) eqn:Hg; [done|].
  pose proof (tw_good _ _ _ _ _ _ Hwf) as Hall. destruct (remove_first _ xs) as [[y ys]|] eqn:E; [|done].
  pose proof (remove_first_elem _ _ _ _ E) as Hin. pose proof (remove_first_true _ _ _ _ E) as Hc.
  rewrite Forall_forall in Hall. specialize (Hall y Hin). unfold good_hash in *.
  by rewrite (cmp_eq_hash d y _ Hc), Hg in Hall.
Qed.

Lemma search_refines m fl ht ls xs d :
  table_wf f m fl ht ls xs →
  chained_hash_search f c d ht m = Ret (fst <$> remove_first (cmp_eq c d) xs, m).
Proof.
  intros Hwf. unfold chained_hash_search. destruct (slotnum f d ht) as [i|] eqn:Hs.
  - destruct (slotnum_inv d ht i Hs) as [Hfi Hi].
    destruct (table_slot _ _ _ _ _ _ Hwf Hi) as (hd & l & Hhd & Hl & Hlwf & Hbk).
    rewrite Hhd. cbn [deref]. rewrite mret_bind.
    rewrite (bind_ret _ _ _ _ _ (ll_find_spec c m fl hd l d Hlwf)).
    pose proof (bucket_remove _ i d xs Hfi) as Hrem.
    rewrite <-Hbk, remove_first_snd in Hrem.
    destruct (remove_first (λ x, cmp_eq c d x.2) l) as [[[a x] l']|] eqn:E; cbn in Hrem |- *.
    + apply remove_first_elem in E.
      destruct (dseg_data _ _ _ _ _ _ _ (lw_dll _ _ _ _ Hlwf) E) as (n & Hn & <-).
      rewrite (bind_ret _ _ _ _ _ (load_Some _ _ _ Hn)).
      destruct (remove_first (cmp_eq c d) xs) as [[y ys]|]; [|done]. by injection Hrem as <- _.
    + by destruct (remove_first (cmp_eq c d) xs) as [[y ys]|].
  - by rewrite (bad_slot_no_match _ _ _ _ _ _ Hwf Hs).
Qed.

Lemma delete_refines m fl ht ls xs d k :
  table_wf f m fl ht ls xs → can_alloc k m fl →
  ∃ m' fl' ht' ls',
    chained_hash_delete f c d ht m =
      Ret (match remove_first (cmp_eq c d) xs with
           | Some (e, _) => (1%Z, [e]) | None => (0%Z, []) end, ht', m') ∧
    table_wf f m' fl' ht' ls'
      (match remove_first (cmp_eq c d) xs with Some (_, xs') => xs' | None => xs end) ∧
    num_elements ht' = num_elements ht ∧ can_alloc k m' fl'.
Proof.
  intros Hwf Hcan. unfold chained_hash_delete. destruct (slotnum f d ht) as [i|] eqn:Hs.
  - destruct (slotnum_inv d ht i Hs) as [Hfi Hi].
    destruct (table_slot _ _ _ _ _ _ Hwf Hi) as (hd & l & Hhd & Hl & Hlwf & Hbk).
    rewrite Hhd. cbn [deref]. pose proof (ll_del_spec c m fl hd l d Hlwf) as Hdel.
    pose proof (bucket_remove _ i d xs Hfi) as Hrem. rewrite <-Hbk, remove_first_snd in Hrem.
    destruct (remove_first (λ x, cmp_eq c d x.2) l) as [[[t x] l']|] eqn:E;
      destruct (remove_first (cmp_eq c d) xs) as [[y ys]|] eqn:Ex; try done; cbn in Hrem.
    + destruct Hdel as (hd' & m' & Hr & Hwf' & Hbl & Hpr). injection Hrem as <- Hl'.
      exists m', (t :: fl), (set_slot i hd' ht), (<[i := l']> ls).
      rewrite mret_bind. step_with Hr. split; [done|]. split_and!; [|done|by eapply can_alloc_freed].
      eapply table_wf_update; [done..| |done| |].
      * intros b Hb. left. eapply remove_first_sub in E. by apply (list_elem_of_fmap_sub b E).
      * intros j Hj. by eapply bucket_remove_ne.
      * pose proof (tw_good _ _ _ _ _ _ Hwf) as Hg. rewrite Forall_forall in Hg |- *.
        intros z Hz. apply Hg. by eapply remove_first_sub.
    + exists m, fl, (set_slot i hd ht), ls. rewrite mret_bind. step_with Hdel.
      assert (Eht : set_slot i hd ht = ht).
      { destruct ht as [n sl]. unfold set_slot. cbn in *. by rewrite list_insert_id. }
      rewrite Eht. by split_and!.
  - exists m, fl, ht, ls. rewrite (bad_slot_no_match _ _ _ _ _ _ Hwf Hs). by split_and!.
Qed.

Lemma hash_step_refines m fl ht ls xs op k :
  table_wf f m fl ht ls xs → can_alloc (S k) m fl →
  ∃ m' fl' ht' ls',
    hash_step uninit f c op ht m = Ret ((ref_step f c (num_elements ht) op xs).1, ht', m') ∧
    table_wf f m' fl' ht' ls' (ref_step f c (num_elements ht) op xs).2 ∧
    num_elements ht' = num_elements ht ∧ can_alloc k m' fl'.
Proof.
  intros Hwf Hcan. assert (Hcan' : can_alloc k m fl) by (unfold can_alloc in *; lia).
  destruct op as [d|d|d]; cbn [hash_step ref_step].
  - destruct (good_hash f (num_elements ht) d) eqn:Hg.
    + destruct (insert_refines m fl ht ls xs d k Hwf Hcan Hg) as (m' & fl' & ht' & ls' & Hr & ?).
      exists m', fl', ht', ls'. by step_with Hr.
    + exists m, fl, ht, ls. unfold chained_hash_insert. rewrite slotnum_good, Hg. by split_and!.
  - exists m, fl, ht, ls. step_with (search_refines m fl ht ls xs d Hwf). by split_and!.
  - pose proof (delete_refines m fl ht ls xs d k Hwf Hcan') as Hd.
    destruct (remove_first (cmp_eq c d) xs) as [[e xs']|];
      destruct Hd as (m' & fl' & ht' & ls' & Hr & Hwf' & ?); exists m', fl', ht', ls'; by step_with Hr.
Qed.

Lemma hash_exec_refines_from ops m fl ht ls xs :
  table_wf f m fl ht ls xs → can_alloc (length ops) m fl →
  ∃ m' fl' ht' ls',
    hash_exec uninit f c ops ht m = Ret ((ref_exec f c (num_elements ht) ops xs).1, ht', m') ∧
    table_wf f m' fl' ht' ls' (ref_exec f c (num_elements ht) ops xs).2.
Proof.
  revert m fl ht ls xs. induction ops as [|op ops IH]; intros m fl ht ls xs Hwf Hcan; cbn.
  - by exists m, fl, ht, ls.
  - destruct (hash_step_refines m fl ht ls xs op _ Hwf Hcan) as (m1 & fl1 & ht1 & ls1 & Hr & Hwf1 & En & Hcan1).
    destruct (IH m1 fl1 ht1 ls1 _ Hwf1 Hcan1) as (m2 & fl2 & ht2 & ls2 & Hr2 & Hwf2).
    exists m2, fl2, ht2, ls2. step_with Hr. step_with Hr2. rewrite En in *.
    destruct (ref_step f c (num_elements ht) op xs) as [r xs']. cbn in *.
    by destruct (ref_exec f c (num_elements ht) ops xs') as [rs xs''].
Qed.
End refine.

(** ** Destruction *)
Section destroy.
Context {D : Type} `{Null D}.
Implicit Types (m : ll_mem D) (ls : list (list (loc * D))).

Lemma destroy_slots_spec m fl sl ls :
  slots_wf m fl sl ls →
  ∃ m' fl', destroy_slots sl m = Ret ((concat ls).*2, m') ∧ alloc_wf m' fl'.
Proof.
  intros [Ha Hl Hnd]. revert m fl ls Ha Hl Hnd. induction sl as [|hd sl IH]; intros m fl ls Ha Hl Hnd.
  - apply Forall2_nil_inv_l in Hl as ->. by exists m, fl.
  - destruct ls as [|l ls]; [by apply Forall2_cons_nil_inv in Hl|]. apply Forall2_cons in Hl as [Hd Hl].
    cbn [concat] in *. rewrite fmap_app in Hnd.
    assert (Hwf : ll_wf m fl hd l).
    { split; [done..|]. rewrite app_assoc in Hnd. by apply NoDup_app in Hnd as (? & _). }
    destruct hd as [a|]; cbn [destroy_slots].
    + destruct (ll_destroy_spec m fl _ l Hwf) as (m1 & Hr & Hwf1 & _ & Hpr). rewrite app_assoc in Hnd.
      apply NoDup_app in Hnd as (Hnd1 & Hdj & Hnd2).
      assert (Hlive : ∀ b, b ∈ (concat ls).*1 → cells m1 !! b = cells m !! b ∧ b ∉ rev l.*1 ++ fl).
      { intros b Hb. apply Hpr; [|intros Hin; apply (Hdj b); [set_solver + Hin|done]..].
        apply list_elem_of_fmap in Hb as (y & -> & Hy). apply elem_of_concat in Hy as (lj & Hlj & Hy).
        apply list_elem_of_lookup_1 in Hlj as [j Hj]. destruct (Forall2_lookup_r _ _ _ _ _ Hl Hj) as (hdj & _ & Hdl).
        eapply dseg_lookup; [done|]. by apply list_elem_of_fmap_2. }
      destruct (IH m1 (rev l.*1 ++ fl) ls) as (m2 & fl2 & Hr2 & ?); [apply Hwf1| | |].
      * apply Forall2_same_length_lookup. split; [by eapply Forall2_length|]. intros j hdj lj Hsj Hlj.
        assert (Hdl : dll (cells m) hdj lj) by (by eapply Forall2_lookup_lr).
        eapply dseg_frame, Hdl. intros b Hb. apply Hlive.
        apply list_elem_of_fmap in Hb as (y & -> & Hy). apply list_elem_of_fmap_2, elem_of_concat.
        exists lj. split; [by apply list_elem_of_lookup_2 in Hlj|done].
      * pose proof (lw_nodup _ _ _ _ Hwf1) as Hnd'. rewrite app_nil_r in Hnd'. apply NoDup_app.
        split_and!; [done| |done]. intros b Hb Hb2. by apply (Hlive b Hb2).
      * exists m2, fl2. step_with Hr. step_with Hr2. by rewrite fmap_app.
    + destruct l as [|[b x] l]; [|by destruct Hd]. by apply (IH m fl ls).
Qed.

Lemma buckets_permutation (f : D → Z → Z) n xs :
  Forall (λ x, good_hash f n x = true) xs →
  concat ((λ i, bucket f n i xs) <$> seq 0 (Z.to_nat n)) ≡ₚ xs.
Proof.
  induction 1 as [|x xs Hx Hxs IH].
  - generalize (seq 0 (Z.to_nat n)). by induction l.
  - trans (x :: concat ((λ i, bucket f n i xs) <$> seq 0 (Z.to_nat n))); [clear IH|by constructor]. unfold good_hash in Hx. apply andb_prop in Hx as [H0 H1].
    assert (Hin : Z.to_nat (f x n) ∈ seq 0 (Z.to_nat n)) by (apply elem_of_seq; lia).
    pose proof (NoDup_seq 0 (Z.to_nat n)) as Hnd. apply list_elem_of_split in Hin as (s1 & s2 & E).
    rewrite E in Hnd |- *. apply NoDup_app in Hnd as (_ & Hd1 & [Hd2 _]%NoDup_cons).
    rewrite !fmap_app, !fmap_cons, !concat_app. cbn [concat].
    rewrite bucket_cons_eq by lia. cbn [app]. rewrite <-Permutation_middle.
    assert (Heq : ∀ s : list nat, Z.to_nat (f x n) ∉ s →
      ((λ i, bucket f n i (x :: xs)) <$> s) = ((λ i, bucket f n i xs) <$> s)).
    { intros s Hs. apply list_fmap_ext. intros i j Hj. eapply (bucket_cons_ne f n (Z.to_nat (f x n))); [lia|].
      intros ->. by apply Hs, (list_elem_of_lookup_2 _ i). }
    rewrite !Heq; [done|done|]. intros Hin. apply (Hd1 _ Hin). set_solver +.
Qed.

Lemma table_wf_buckets (f : D → Z → Z) m fl ht ls xs :
  table_wf f m fl ht ls xs → (concat ls).*2 ≡ₚ xs.
Proof.
  intros [[Ha Hl Hnd] Hlen Hb Hg]. trans (concat ((λ i, bucket f (num_elements ht) i xs) <$> seq 0 (Z.to_nat (num_elements ht)))); [|by apply buckets_permutation].
  change (map snd (concat ls) ≡ₚ concat ((λ i, bucket f (num_elements ht) i xs) <$> seq 0 (Z.to_nat (num_elements ht)))). rewrite concat_map. apply eq_subrelation; [apply _|]. f_equal. apply list_eq. intros i.
  pose proof (Forall2_length _ _ _ Hl) as Hll.
  change (map (map snd) ls) with ((λ l : list (loc * D), l.*2) <$> ls). rewrite !list_lookup_fmap.
  destruct (ls !! i) as [l|] eqn:Hi.
  - rewrite lookup_seq_lt by (apply lookup_lt_Some in Hi; lia). cbn. by rewrite (Hb i l Hi).
  - rewrite lookup_seq_ge by (apply lookup_ge_None in Hi; lia). done.
Qed.
End destroy.

Lemma table_wf_create {D} `{Null D} (f : D → Z → Z) n blocks :
  (0 <= n)%Z →
  table_wf f (ll_mem_init blocks) [] (Table n (replicate (Z.to_nat n) None)) (replicate (Z.to_nat n) []) [].
Proof.
  intros Hn. split; cbn; [split| |..]; cbn.
  - split; cbn; [done|constructor|]. intros a [x Hx]. by rewrite lookup_empty in Hx.
  - apply Forall2_replicate. done.
  - assert (concat (replicate (Z.to_nat n) []) = ([] : list (loc * D))) as -> by (by induction (Z.to_nat n)).
    constructor.
  - rewrite length_replicate. lia.
  - intros i l [-> _]%lookup_replicate. done.
  - constructor.
Qed.

(** ** Properties *)

(** C26. A hash table created with [n] slots answers any sequence of
    insertions, searches and deletions exactly as one plain list would, the
    most recent insertion first: a search finds the latest element that
    compares equal, a deletion removes it, and an insertion fails only when
    the hash function leaves its range.  Destroying the table afterwards
    passes each remaining element to the deletor once.  The hash function is
    any that agrees on elements that compare equal. *)
Theorem chained_hash_refines {D} `{Null D} (uninit : ll_node D) (f : D → Z → Z) (c : D → D → Z)
    (f_compat : ∀ n d e, c d e = 0%Z → f d n = f e n)
    (n : Z) (Hn : (0 <= n)%Z) (ops : list (hash_op D)) (blocks : nat)
    (Hb : length ops ≤ LL_HEAPSIZE * blocks) :
  ∃ ht0 ht m m' nuked,
    chained_hash_create n true = (0%Z, Some ht0) ∧
    hash_exec uninit f c ops ht0 (ll_mem_init blocks) = Ret ((ref_exec f c n ops []).1, ht, m) ∧
    chained_hash_destroy ht m = Ret ((0%Z, nuked), m') ∧
    nuked ≡ₚ (ref_exec f c n ops []).2.
Proof.
  pose proof (table_wf_create f n blocks Hn) as Hwf.
  destruct (hash_exec_refines_from uninit f c f_compat ops _ _ _ _ _ Hwf)
    as (m & fl & ht & ls & Hr & Hwf'); [by unfold can_alloc|].
  destruct (destroy_slots_spec m fl (slot_array ht) ls (tw_slots _ _ _ _ _ _ Hwf')) as (m' & fl' & Hd & _).
  eexists _, ht, m, m', _. split; [reflexivity|]. split; [exact Hr|]. split.
  - unfold chained_hash_destroy. rewrite take_ge by (rewrite <-(tw_len _ _ _ _ _ _ Hwf'); lia). by step_with Hd.
  - by apply (table_wf_buckets f m fl ht ls).
Qed.

Definition demo_hash (d n : Z) : Z := (d mod 7 mod n)%Z.
Definition demo_cmp (d e : Z) : Z := (d mod 7 - e mod 7)%Z.
Definition demo_hash_ops : list (hash_op Z) :=
  [HInsert 3; HInsert 11; HInsert 10; HSearch 3; HDelete 17; HSearch 3; HInsert 5]%Z.

Lemma chained_hash_refines_witness :
  ref_exec demo_hash demo_cmp 4 demo_hash_ops [] =
    ([RInt 0 []; RInt 0 []; RInt 0 []; RFound (Some 10); RInt 1 [10]; RFound (Some 3); RInt 0 []],
     [5; 11; 3])%Z ∧
  ∃ ht0 ht m m' nuked,
    chained_hash_create 4 true = (0%Z, Some ht0) ∧
    hash_exec (H := 0%Z) (Node 0%Z None None) demo_hash demo_cmp demo_hash_ops ht0 (ll_mem_init 1) =
      Ret ((ref_exec demo_hash demo_cmp 4 demo_hash_ops []).1, ht, m) ∧
    chained_hash_destroy ht m = Ret ((0%Z, nuked), m') ∧
    nuked ≡ₚ (ref_exec demo_hash demo_cmp 4 demo_hash_ops []).2.
Proof.
  split; [vm_compute; reflexivity|].
  apply (chained_hash_refines (H := 0%Z) (Node 0%Z None None) demo_hash demo_cmp).
  - intros n d e He. unfold demo_cmp, demo_hash in *. f_equal. lia.
  - lia.
  - vm_compute. lia.
Defined.
