(* ===== verification/AvlTree.v ===== *)
(** * AVL trees (client_lib/src/utils.c, lines 1040-1387)

    The balanced trees of the client library at the level of the heap: nodes
    with parent pointers live in a store indexed by addresses, a pointer to a
    pointer is a [place], and the function-level static variables
    ([checkBalance] and [parent] of [Tree_Add], [root] of [Tree_Delete]) are
    fields of the state.  [free] removes the cell, so that a use after free
    is a [Crash].  The theorems relate the operations to pure trees and to
    the sorted list of their elements. *)

From S2P Require Import Prelude LinkedList.
From Stdlib Require Import Sorted.

(** ** Data *)

Record avl_node (D : Type) := ANode {
  adata : D;
  bal : Z;
  left : option loc;
  right : option loc;
  parent : option loc;
}.
Arguments ANode {D} _ _ _ _ _.
Arguments adata {D} _.
Arguments bal {D} _.
Arguments left {D} _.
Arguments right {D} _.
Arguments parent {D} _.

Section setters.
Context {D : Type}.
Definition set_adata (d : D) (n : avl_node D) := ANode d (bal n) (left n) (right n) (parent n).
Definition set_bal (b : Z) (n : avl_node D) := ANode (adata n) b (left n) (right n) (parent n).
Definition set_left (p : option loc) (n : avl_node D) := ANode (adata n) (bal n) p (right n) (parent n).
Definition set_right (p : option loc) (n : avl_node D) := ANode (adata n) (bal n) (left n) p (parent n).
Definition set_parent (p : option loc) (n : avl_node D) := ANode (adata n) (bal n) (left n) (right n) p.
End setters.

(** An lvalue of type [AVL_tree]: the root variable or a field of a node. *)
Inductive place := PRoot | PLeft (a : loc) | PRight (a : loc).
#[export] Instance place_eq_dec : EqDecision place.
Proof. solve_decision. Defined.

Record avl_mem (D : Type) := AMem {
  acells : gmap loc (avl_node D);
  aroot : option loc;             (* the caller's root variable *)
  checkBalance : bool;            (* statics of Tree_Add *)
  add_parent : option loc;
  del_root : option place;        (* static of Tree_Delete *)
}.
Arguments AMem {D} _ _ _ _ _.
Arguments acells {D} _.
Arguments aroot {D} _.
Arguments checkBalance {D} _.
Arguments add_parent {D} _.
Arguments del_root {D} _.

(** ** Operations *)
Section ops.
Context {D : Type}.
Variable uninit : avl_node D.
(** [malloc]: an address, or NULL. *)
Variable malloc : gmap loc (avl_node D) → option loc.
Variable theComp : D → D → Z.
Abbreviation cmd := (M (avl_mem D)).

Definition set_acells (f : gmap loc (avl_node D) → gmap loc (avl_node D)) (m : avl_mem D) :=
  AMem (f (acells m)) (aroot m) (checkBalance m) (add_parent m) (del_root m).
Definition set_aroot p (m : avl_mem D) :=
  AMem (acells m) p (checkBalance m) (add_parent m) (del_root m).
Definition set_check b (m : avl_mem D) :=
  AMem (acells m) (aroot m) b (add_parent m) (del_root m).
Definition set_add_parent p (m : avl_mem D) :=
  AMem (acells m) (aroot m) (checkBalance m) p (del_root m).
Definition set_del_root p (m : avl_mem D) :=
  AMem (acells m) (aroot m) (checkBalance m) (add_parent m) p.

Definition aload (p : option loc) : cmd (avl_node D) :=
  a ← deref p; m ← get; deref (acells m !! a).
Definition aupdate (p : option loc) (f : avl_node D → avl_node D) : cmd () :=
  a ← deref p; n ← aload p; modify (set_acells <[a := f n]>).

Definition read_place (pl : place) : cmd (option loc) :=
  match pl with
  | PRoot => gets aroot
  | PLeft a => n ← aload (Some a); mret (left n)
  | PRight a => n ← aload (Some a); mret (right n)
  end.
Definition write_place (pl : place) (p : option loc) : cmd () :=
  match pl with
  | PRoot => modify (set_aroot p)
  | PLeft a => aupdate (Some a) (set_left p)
  | PRight a => aupdate (Some a) (set_right p)
  end.

Definition Allocate_AVL_tree : cmd loc :=
  m ← get;
  match malloc (acells m) with
  | None => exit (-1)
  | Some a => _ ← modify (set_acells <[a := uninit]>); mret a
  end.
Definition Free_AVL_tree (freeMe : option loc) : cmd () :=
  match freeMe with
  | None => mret ()
  | Some a => _ ← aload freeMe; modify (set_acells (delete a))
  end.

(** [if (p != NULL) p->parent = q] *)
Definition set_parent_if (p q : option loc) : cmd () :=
  match p with None => mret () | Some _ => aupdate p (set_parent q) end.

(** *** [Tree_Add] *)

(** The double rotation's balances, by the balance of [q]. *)
Definition lr_balances (q p m : option loc) (qbal : Z) : cmd () :=
  if (qbal =? 0)%Z then
    _ ← aupdate q (set_bal 0); _ ← aupdate p (set_bal 0); aupdate m (set_bal 0)
  else if (qbal =? -1)%Z then
    _ ← aupdate q (set_bal 0); _ ← aupdate p (set_bal 0); aupdate m (set_bal 1)
  else if (qbal =? 1)%Z then
    _ ← aupdate q (set_bal 0); _ ← aupdate p (set_bal (-1)); aupdate m (set_bal 0)
  else mret ().
Definition rl_balances (q p m : option loc) (qbal : Z) : cmd () :=
  if (qbal =? 0)%Z then
    _ ← aupdate q (set_bal 0); _ ← aupdate p (set_bal 0); aupdate m (set_bal 0)
  else if (qbal =? -1)%Z then
    _ ← aupdate q (set_bal 0); _ ← aupdate p (set_bal 1); aupdate m (set_bal 0)
  else if (qbal =? 1)%Z then
    _ ← aupdate q (set_bal 0); _ ← aupdate p (set_bal 0); aupdate m (set_bal (-1))
  else mret ().

Definition rotate_LL (addTree : place) (p : option loc) : cmd Z :=
  q ← read_place addTree;
  pn ← aload p;
  let r := right pn in
  qn ← aload q;
  _ ← aupdate p (set_parent (parent qn));
  _ ← aupdate p (set_right q);
  _ ← aupdate q (set_parent p);
  _ ← aupdate q (set_left r);
  _ ← set_parent_if r q;
  _ ← write_place addTree p;
  _ ← aupdate p (set_bal 0);
  _ ← aupdate q (set_bal 0);
  _ ← modify (set_check false);
  mret 0%Z.

Definition rotate_LR (addTree : place) (p : option loc) : cmd Z :=
  m ← read_place addTree;
  pn ← aload p;
  let q := right pn in
  qn ← aload q;
  let s := left qn in
  let u := right qn in
  mn ← aload m;
  _ ← aupdate q (set_parent (parent mn));
  _ ← aupdate m (set_parent q);
  _ ← aupdate p (set_parent q);
  _ ← set_parent_if s p;
  _ ← set_parent_if u m;
  _ ← aupdate p (set_right s);
  _ ← aupdate q (set_left p);
  _ ← aupdate q (set_right m);
  _ ← aupdate m (set_left u);
  _ ← write_place addTree q;
  qn ← aload q;
  _ ← lr_balances q p m (bal qn);
  _ ← modify (set_check false);
  mret 0%Z.

Definition rotate_RL (addTree : place) (p : option loc) : cmd Z :=
  m ← read_place addTree;
  pn ← aload p;
  let q := left pn in
  qn ← aload q;
  let r := right qn in
  let s := left qn in
  mn ← aload m;
  _ ← aupdate q (set_parent (parent mn));
  _ ← aupdate m (set_parent q);
  _ ← aupdate p (set_parent q);
  _ ← set_parent_if s m;
  _ ← set_parent_if r p;
  _ ← aupdate m (set_right s);
  _ ← aupdate q (set_left m);
  _ ← aupdate q (set_right p);
  _ ← aupdate p (set_left r);
  _ ← write_place addTree q;
  qn ← aload q;
  _ ← rl_balances q p m (bal qn);
  _ ← modify (set_check false);
  mret 0%Z.

Definition rotate_RR (addTree : place) (p : option loc) : cmd Z :=
  q ← read_place addTree;
  pn ← aload p;
  let r := left pn in
  qn ← aload q;
  _ ← aupdate p (set_parent (parent qn));
  _ ← aupdate q (set_parent p);
  _ ← set_parent_if r q;
  _ ← aupdate p (set_left q);
  _ ← aupdate q (set_right r);
  _ ← write_place addTree p;
  _ ← aupdate p (set_bal 0);
  _ ← aupdate q (set_bal 0);
  _ ← modify (set_check false);
  mret 0%Z.

(** The [switch] after an insertion on the left: a balance that is none of
    the cases falls through to the final [return 0]. *)
Definition rebalance_left (addTree : place) : cmd Z :=
  a ← read_place addTree;
  n ← aload a;
  if (bal n =? 1)%Z then
    _ ← aupdate a (set_bal 0); _ ← modify (set_check false); mret 0%Z
  else if (bal n =? 0)%Z then
    _ ← aupdate a (set_bal (-1)); _ ← modify (set_check true); mret 0%Z
  else if (bal n =? -1)%Z then
    let p := left n in
    pn ← aload p;
    if (bal pn =? -1)%Z then rotate_LL addTree p
    else if (bal pn =? 1)%Z then rotate_LR addTree p
    else exit 1                       (* "Wierd case in balance" *)
  else mret 0%Z.

Definition rebalance_right (addTree : place) : cmd Z :=
  a ← read_place addTree;
  n ← aload a;
  if (bal n =? -1)%Z then
    _ ← aupdate a (set_bal 0); _ ← modify (set_check false); mret 0%Z
  else if (bal n =? 0)%Z then
    _ ← aupdate a (set_bal 1); _ ← modify (set_check true); mret 0%Z
  else if (bal n =? 1)%Z then
    let p := right n in
    pn ← aload p;
    if (bal pn =? -1)%Z then rotate_RL addTree p
    else if (bal pn =? 1)%Z then rotate_RR addTree p
    else mret 0%Z
  else mret 0%Z.

(** What both branches do with the result of the recursive call. *)
Definition after_add (r : Z) (rebalance : cmd Z) : cmd Z :=
  if negb (r =? 0)%Z then _ ← modify (set_check false); mret (-1)%Z
  else
    cb ← gets checkBalance;
    if (cb : bool) then rebalance
    else _ ← modify (set_check false); mret 0%Z.

Fixpoint Tree_Add (fuel : nat) (addToMe : place) (addMe : D) : cmd Z :=
  match fuel with
  | O => stuck
  | S fuel' =>
      p ← read_place addToMe;
      match p with
      | None =>
          a ← Allocate_AVL_tree;
          _ ← write_place addToMe (Some a);
          _ ← aupdate (Some a) (set_adata addMe);
          _ ← aupdate (Some a) (set_bal 0);
          _ ← aupdate (Some a) (set_right None);
          _ ← aupdate (Some a) (set_left None);
          par ← gets add_parent;
          _ ← aupdate (Some a) (set_parent par);
          _ ← modify (set_check true);
          _ ← modify (set_add_parent None);
          mret 0%Z
      | Some a =>
          n ← aload p;
          if (0 <? theComp (adata n) addMe)%Z then
            _ ← modify (set_add_parent p);
            r ← Tree_Add fuel' (PLeft a) addMe;
            after_add r (rebalance_left addToMe)
          else if (theComp (adata n) addMe <? 0)%Z then
            _ ← modify (set_add_parent p);
            r ← Tree_Add fuel' (PRight a) addMe;
            after_add r (rebalance_right addToMe)
          else _ ← modify (set_check false); mret (-1)%Z
      end
  end.

(** *** Traversals *)

Definition avl_fuel (m : avl_mem D) : nat := S (size (acells m)).

Fixpoint Tree_Search_loop (fuel : nat) (searchMe : option loc) (searchForMe : D) : cmd (option loc) :=
  match searchMe with
  | None => mret None
  | Some _ =>
      match fuel with
      | O => stuck
      | S fuel' =>
          n ← aload searchMe;
          if (0 <? theComp (adata n) searchForMe)%Z then Tree_Search_loop fuel' (left n) searchForMe
          else if (theComp (adata n) searchForMe <? 0)%Z then
            Tree_Search_loop fuel' (right n) searchForMe
          else mret searchMe
      end
  end.
Definition Tree_Search (searchMe : option loc) (searchForMe : D) : cmd (option loc) :=
  m ← get; Tree_Search_loop (avl_fuel m) searchMe searchForMe.

(** [while (t->left != NULL) t = t->left;] and its mirror image. *)
Fixpoint go_left (fuel : nat) (t : option loc) : cmd (option loc) :=
  match fuel with
  | O => stuck
  | S fuel' =>
      n ← aload t;
      match left n with None => mret t | Some _ => go_left fuel' (left n) end
  end.
Fixpoint go_right (fuel : nat) (t : option loc) : cmd (option loc) :=
  match fuel with
  | O => stuck
  | S fuel' =>
      n ← aload t;
      match right n with None => mret t | Some _ => go_right fuel' (right n) end
  end.
Definition Tree_First (searchMe : option loc) : cmd (option loc) :=
  match searchMe with None => mret None | Some _ => m ← get; go_left (avl_fuel m) searchMe end.
Definition Tree_Last (searchMe : option loc) : cmd (option loc) :=
  match searchMe with None => mret None | Some _ => m ← get; go_right (avl_fuel m) searchMe end.

(** The climb to the lowest ancestor whose left child is also an ancestor. *)
Fixpoint climb (fuel : nat) (searchMe tempTree : option loc) : cmd (option loc) :=
  match tempTree with
  | None => mret None
  | Some _ =>
      match fuel with
      | O => stuck
      | S fuel' =>
          n ← aload tempTree;
          if decide (searchMe = right n) then climb fuel' tempTree (parent n)
          else mret tempTree
      end
  end.
Definition Tree_Next (searchMe : option loc) : cmd (option loc) :=
  m ← get;
  n ← aload searchMe;
  match right n with
  | Some _ => go_left (avl_fuel m) (right n)
  | None => climb (avl_fuel m) searchMe (parent n)
  end.

(** *** [Tree_Delete] *)

(** [tempTree], which has at most one child, is replaced by that child in
    its parent, or in the root variable if it has none. *)
Definition splice (tempTree : option loc) : cmd () :=
  tn ← aload tempTree;
  let tempTreeX := match left tn with Some _ => left tn | None => right tn end in
  _ ← set_parent_if tempTreeX (parent tn);
  tn ← aload tempTree;
  match parent tn with
  | None => root ← gets del_root; pl ← deref root; write_place pl tempTreeX
  | Some _ =>
      pn ← aload (parent tn);
      if decide (tempTree = left pn) then aupdate (parent tn) (set_left tempTreeX)
      else aupdate (parent tn) (set_right tempTreeX)
  end.

(** The node to delete has been found; the datum passed to [theDel] is
    returned with the result.  [deleteFromMe] is read again after the splice,
    as the code does. *)
Definition delete_here (deleteFromMe : place) : cmd (Z * list D) :=
  Z ← read_place deleteFromMe;
  n ← aload Z;
  tempTree ← (match left n, right n with
              | Some _, Some _ => Tree_Next Z
              | _, _ => mret Z
              end);
  _ ← splice tempTree;
  _ ← (if decide (tempTree = Z) then mret ()
       else
         tn ← aload tempTree;
         p ← read_place deleteFromMe;
         aupdate p (set_adata (adata tn)));
  _ ← Free_AVL_tree tempTree;
  _ ← modify (set_del_root None);
  mret (0%Z, [adata n]).

Fixpoint Tree_Delete (fuel : nat) (deleteFromMe : place) (deleteMe : D) : cmd (Z * list D) :=
  match fuel with
  | O => stuck
  | S fuel' =>
      p ← read_place deleteFromMe;
      match p with
      | None => _ ← modify (set_del_root None); mret (-1, [])%Z
      | Some a =>
          root ← gets del_root;
          _ ← (match root with None => modify (set_del_root (Some deleteFromMe)) | Some _ => mret () end);
          n ← aload p;
          if (0 <? theComp (adata n) deleteMe)%Z then Tree_Delete fuel' (PLeft a) deleteMe
          else if (theComp (adata n) deleteMe <? 0)%Z then Tree_Delete fuel' (PRight a) deleteMe
          else delete_here deleteFromMe
      end
  end.

(** Returns the data passed to [theDel], in order. *)
Fixpoint Tree_Destroy (fuel : nat) (destroyMe : place) : cmd (list D) :=
  match fuel with
  | O => stuck
  | S fuel' =>
      p ← read_place destroyMe;
      match p with
      | None => mret []
      | Some a =>
          nuked_l ← Tree_Destroy fuel' (PLeft a);
          nuked_r ← Tree_Destroy fuel' (PRight a);
          n ← aload p;
          _ ← Free_AVL_tree p;
          _ ← write_place destroyMe None;
          mret (nuked_l ++ nuked_r ++ [adata n])
      end
  end.
End ops.

(** ** Pure trees *)
Inductive atree (D : Type) := E | T (a : loc) (l : atree D) (d : D) (b : Z) (r : atree D).
Arguments E {D}.
Arguments T {D} a l d b r.

Section pure.
Context {D : Type}.
Implicit Types t l r : atree D.

Definition root_of t : option loc := match t with E => None | T a _ _ _ _ => Some a end.
Fixpoint nodes t : list loc := match t with E => [] | T a l _ _ r => a :: nodes l ++ nodes r end.
Fixpoint elems t : list D := match t with E => [] | T _ l d _ r => elems l ++ d :: elems r end.
Fixpoint height t : Z := match t with E => 0 | T _ l _ _ r => 1 + Z.max (height l) (height r) end.
Definition bal_of t : Z := match t with E => 0 | T _ _ _ b _ => b end.

(** The balance fields are right and differ from 0 by one at most. *)
Fixpoint avl t : Prop :=
  match t with
  | E => True
  | T _ l _ b r => avl l ∧ avl r ∧ (b = height r - height l)%Z ∧ (-1 <= b <= 1)%Z
  end.

(** The tree [t] lies in the heap [c], its root having the parent [par]. *)
Fixpoint rep (c : gmap loc (avl_node D)) (par : option loc) t : Prop :=
  match t with
  | E => True
  | T a l d b r =>
      c !! a = Some (ANode d b (root_of l) (root_of r) par) ∧
      rep c (Some a) l ∧ rep c (Some a) r
  end.

(** Insertion with rotations; the boolean tells that the tree has grown. *)
Definition balance_left (x : loc) l (e : D) (b : Z) r : atree D * bool :=
  if (b =? 1)%Z then (T x l e 0 r, false)
  else if (b =? 0)%Z then (T x l e (-1) r, true)
  else match l with
  | T p pl pd pb pr =>
      if (pb =? -1)%Z then (T p pl pd 0 (T x pr e 0 r), false)
      else match pr with
      | T q s qd qb u =>
          (T q (T p pl pd (if (qb =? 1)%Z then -1 else 0) s) qd 0
               (T x u e (if (qb =? -1)%Z then 1 else 0) r), false)
      | E => (T x l e b r, false)
      end
  | E => (T x l e b r, false)
  end.
Definition balance_right (x : loc) l (e : D) (b : Z) r : atree D * bool :=
  if (b =? -1)%Z then (T x l e 0 r, false)
  else if (b =? 0)%Z then (T x l e 1 r, true)
  else match r with
  | T p pl pd pb pr =>
      if (pb =? 1)%Z then (T p (T x l e 0 pl) pd 0 pr, false)
      else match pl with
      | T q s qd qb rr =>
          (T q (T x l e (if (qb =? 1)%Z then -1 else 0) s) qd 0
               (T p rr pd (if (qb =? -1)%Z then 1 else 0) pr), false)
      | E => (T x l e b r, false)
      end
  | E => (T x l e b r, false)
  end.

Variable theComp : D → D → Z.

Fixpoint ins (a : loc) (d : D) t : option (atree D * bool) :=
  match t with
  | E => Some (T a E d 0 E, true)
  | T x l e b r =>
      if (0 <? theComp e d)%Z then
        match ins a d l with
        | None => None
        | Some (l', grown) => Some (if grown then balance_left x l' e b r else (T x l' e b r, false))
        end
      else if (theComp e d <? 0)%Z then
        match ins a d r with
        | None => None
        | Some (r', grown) => Some (if grown then balance_right x l e b r' else (T x l e b r', false))
        end
      else None
  end.

(** Removal of the least element. *)
Fixpoint del_min t : option (loc * D * atree D) :=
  match t with
  | E => None
  | T x l e b r =>
      match del_min l with
      | Some (y, d, l') => Some (y, d, T x l' e b r)
      | None => Some (x, e, r)
      end
  end.
Definition del_root_node x l (e : D) (b : Z) r : atree D :=
  match l, r with
  | E, _ => r
  | _, E => l
  | _, _ => match del_min r with Some (_, d, r') => T x l d b r' | None => l end
  end.
Fixpoint del (d : D) t : option (D * atree D) :=
  match t with
  | E => None
  | T x l e b r =>
      if (0 <? theComp e d)%Z then
        match del d l with Some (z, l') => Some (z, T x l' e b r) | None => None end
      else if (theComp e d <? 0)%Z then
        match del d r with Some (z, r') => Some (z, T x l e b r') | None => None end
      else Some (e, del_root_node x l e b r)
  end.

(** *** The comparator is a total preorder *)
Class Comparator := {
  comp_flip : ∀ x y, Z.sgn (theComp x y) = (- Z.sgn (theComp y x))%Z;
  comp_trans : ∀ x y z, (theComp x y < 0)%Z → (theComp y z < 0)%Z → (theComp x z < 0)%Z;
  comp_equiv : ∀ x y z, theComp x y = 0%Z → Z.sgn (theComp x z) = Z.sgn (theComp y z);
}.
Definition comp_lt (x y : D) : Prop := (theComp x y < 0)%Z.
(** The elements are in strict order. *)
Definition bst t : Prop := StronglySorted comp_lt (elems t).

(** *** Balance *)
Lemma height_nonneg t : (0 <= height t)%Z.
Proof. induction t; cbn; lia. Qed.

Lemma balance_left_avl x l e b r hl :
  avl l → avl r → (b = height r - hl)%Z → (-1 <= b <= 1)%Z → height l = (hl + 1)%Z →
  ((b = -1)%Z → bal_of l ≠ 0%Z) →
  let '(t', grown) := balance_left x l e b r in
  avl t' ∧ height t' = (1 + Z.max hl (height r) + (if grown then 1 else 0))%Z ∧
  (grown = true → bal_of t' ≠ 0%Z).
Proof.
  intros Hl Hr Hb Hbb Hh Hnz. unfold balance_left.
  destruct (Z.eqb_spec b 1); [cbn; split_and!; (done || lia)|].
  destruct (Z.eqb_spec b 0); [cbn; split_and!; (done || lia)|].
  assert (b = -1)%Z as -> by lia. specialize (Hnz eq_refl).
  pose proof (height_nonneg r). destruct l as [|p pl pd pb pr]; [cbn in *; lia|].
  destruct Hl as (Hpl & Hpr & Hpb & Hpbb). cbn in Hnz, Hh.
  destruct (Z.eqb_spec pb (-1)); [cbn; split_and!; (done || lia)|].
  pose proof (height_nonneg pl). destruct pr as [|q s qd qb u]; [cbn in *; lia|].
  destruct Hpr as (Hs & Hu & Hqb & Hqbb). cbn in Hpb, Hh |- *.
  destruct (Z.eqb_spec qb 1), (Z.eqb_spec qb (-1)); split_and!; (done || lia).
Qed.

Lemma balance_right_avl x l e b r hr :
  avl l → avl r → (b = hr - height l)%Z → (-1 <= b <= 1)%Z → height r = (hr + 1)%Z →
  ((b = 1)%Z → bal_of r ≠ 0%Z) →
  let '(t', grown) := balance_right x l e b r in
  avl t' ∧ height t' = (1 + Z.max (height l) hr + (if grown then 1 else 0))%Z ∧
  (grown = true → bal_of t' ≠ 0%Z).
Proof.
  intros Hl Hr Hb Hbb Hh Hnz. unfold balance_right.
  destruct (Z.eqb_spec b (-1)); [cbn; split_and!; (done || lia)|].
  destruct (Z.eqb_spec b 0); [cbn; split_and!; (done || lia)|].
  assert (b = 1)%Z as -> by lia. specialize (Hnz eq_refl).
  pose proof (height_nonneg l). destruct r as [|p pl pd pb pr]; [cbn in *; lia|].
  destruct Hr as (Hpl & Hpr & Hpb & Hpbb). cbn in Hnz, Hh.
  destruct (Z.eqb_spec pb 1); [cbn; split_and!; (done || lia)|].
  pose proof (height_nonneg pr). destruct pl as [|q s qd qb u]; [cbn in *; lia|].
  destruct Hpl as (Hs & Hu & Hqb & Hqbb). cbn in Hpb, Hh |- *.
  destruct (Z.eqb_spec qb 1), (Z.eqb_spec qb (-1)); split_and!; (done || lia).
Qed.

(** Insertion keeps the balance, and a tree that was not empty and has grown
    leans to one side. *)
Lemma ins_avl a d t t' grown :
  avl t → ins a d t = Some (t', grown) →
  avl t' ∧ height t' = (height t + (if grown then 1 else 0))%Z ∧
  (grown = true → t ≠ E → bal_of t' ≠ 0%Z).
Proof.
  revert t' grown. induction t as [|x l IHl e b r IHr]; intros t' grown; cbn.
  - intros _ [= <- <-]. cbn. split_and!; (done || lia).
  - intros (Hl & Hr & Hb & Hbb). destruct (0 <? theComp e d)%Z; [|destruct (theComp e d <? 0)%Z; [|done]].
    + destruct (ins a d l) as [[l' g]|]; [|done]. destruct (IHl l' g Hl eq_refl) as (Hl' & Hh & Hnz).
      destruct g; [|intros [= <- <-]; cbn; split_and!; (done || lia)].
      pose proof (balance_left_avl x l' e b r (height l) Hl' Hr Hb Hbb Hh) as Hbal. intros [= Eb].
      rewrite Eb in Hbal. destruct Hbal as (? & ? & ?); [|by split_and!; auto].
      intros ->. apply Hnz; [done|]. intros ->. pose proof (height_nonneg r). cbn in Hb. lia.
    + destruct (ins a d r) as [[r' g]|]; [|done]. destruct (IHr r' g Hr eq_refl) as (Hr' & Hh & Hnz).
      destruct g; [|intros [= <- <-]; cbn; split_and!; (done || lia)].
      pose proof (balance_right_avl x l e b r' (height r) Hl Hr' Hb Hbb Hh) as Hbal. intros [= Eb].
      rewrite Eb in Hbal. destruct Hbal as (? & ? & ?); [|by split_and!; auto].
      intros ->. apply Hnz; [done|]. intros ->. pose proof (height_nonneg l). cbn in Hb. lia.
Qed.

(** *** Elements *)
Lemma balance_left_elems x l e b r : elems (balance_left x l e b r).1 = elems l ++ e :: elems r.
Proof.
  unfold balance_left. repeat case_match; cbn [fst elems]; app_norm.
Qed.
Lemma balance_right_elems x l e b r : elems (balance_right x l e b r).1 = elems l ++ e :: elems r.
Proof.
  unfold balance_right. repeat case_match; cbn [fst elems]; app_norm.
Qed.
Lemma balance_left_nodes x l e b r : nodes (balance_left x l e b r).1 ≡ₚ x :: nodes l ++ nodes r.
Proof.
  unfold balance_left. repeat case_match; cbn; solve_Permutation.
Qed.
Lemma balance_right_nodes x l e b r : nodes (balance_right x l e b r).1 ≡ₚ x :: nodes l ++ nodes r.
Proof.
  unfold balance_right. repeat case_match; cbn; solve_Permutation.
Qed.

(** *** Order *)
Context {comp_ok : Comparator}.

Lemma comp_gt x y : (0 < theComp x y)%Z ↔ comp_lt y x.
Proof. unfold comp_lt. pose proof (comp_flip x y). destruct (theComp x y), (theComp y x); cbn in *; lia. Qed.
Lemma comp_eq x y : theComp x y = 0%Z ↔ theComp y x = 0%Z.
Proof. pose proof (comp_flip x y). destruct (theComp x y), (theComp y x); cbn in *; lia. Qed.
Lemma comp_lt_irrefl x : ¬ comp_lt x x.
Proof. unfold comp_lt. pose proof (comp_flip x x). destruct (theComp x x); cbn in *; lia. Qed.
Lemma comp_lt_equiv_l x y z : theComp x y = 0%Z → comp_lt x z ↔ comp_lt y z.
Proof.
  intros He. unfold comp_lt. pose proof (comp_equiv x y z He).
  destruct (theComp x z), (theComp y z); cbn in *; lia.
Qed.
Lemma comp_lt_equiv_r x y z : theComp x y = 0%Z → comp_lt z x ↔ comp_lt z y.
Proof.
  intros He. rewrite <-!comp_gt. pose proof (comp_equiv x y z He).
  destruct (theComp x z), (theComp y z); cbn in *; lia.
Qed.

Lemma sorted_app (l1 : list D) e (l2 : list D) :
  StronglySorted comp_lt (l1 ++ e :: l2) ↔
  StronglySorted comp_lt l1 ∧ StronglySorted comp_lt l2 ∧
  Forall (λ x, comp_lt x e) l1 ∧ Forall (comp_lt e) l2.
Proof.
  induction l1 as [|x l1 IH]; cbn [app].
  - split; [intros H; inversion H; subst; split_and!; (done || constructor)|].
    intros (_ & ? & _ & ?). by constructor.
  - split.
    + intros H. inversion H as [|?? Hs Hf]; subst. apply IH in Hs as (H1 & H2 & H3 & H4).
      rewrite Forall_app, Forall_cons in Hf. destruct Hf as (F1 & F2 & F3). split_and!; [by constructor|done|by constructor|done].
    + intros (H1 & H2 & H3 & H4). inversion H1; subst. apply Forall_cons in H3 as [Hxe H3].
      constructor; [by apply IH|]. rewrite Forall_app, Forall_cons. split_and!; [done..|].
      eapply Forall_impl; [exact H4|]. intros y Hy. by eapply comp_trans.
Qed.

Lemma insert_sorted_left (le : D → D → bool) d (l1 : list D) e (l2 : list D) :
  le d e = true → insert_sorted le d (l1 ++ e :: l2) = insert_sorted le d l1 ++ e :: l2.
Proof.
  intros Hle. induction l1 as [|x l1 IH]; cbn; [by rewrite Hle|]. destruct (le d x); [done|]. by rewrite IH.
Qed.
Lemma insert_sorted_right (le : D → D → bool) d (l1 l2 : list D) :
  Forall (λ x, le d x = false) l1 → insert_sorted le d (l1 ++ l2) = l1 ++ insert_sorted le d l2.
Proof. induction 1 as [|x l1 Hx Hl IH]; cbn; [done|]. by rewrite Hx, IH. Qed.

(** Insertion adds the element at its place of the order. *)
Lemma ins_elems a d t t' grown :
  bst t → ins a d t = Some (t', grown) →
  elems t' = insert_sorted (cmp_le theComp) d (elems t).
Proof.
  revert t' grown. induction t as [|x l IHl e b r IHr]; intros t' grown; cbn [ins]; unfold bst; cbn [elems].
  - by intros _ [= <- <-].
  - intros (Hl & Hr & Hle & Hre)%sorted_app. destruct (Z.ltb_spec 0 (theComp e d)) as [Hgt|Hngt].
    + destruct (ins a d l) as [[l' g]|]; [|done]. specialize (IHl l' g Hl eq_refl).
      rewrite insert_sorted_left, <-IHl.
      * destruct g; [|by intros [= <- <-]]. intros [= Eb]. by rewrite <-balance_left_elems with (x := x) (b := b), Eb.
      * unfold cmp_le. apply comp_gt in Hgt. unfold comp_lt in Hgt. lia.
    + destruct (Z.ltb_spec (theComp e d) 0) as [Hlt|Hnlt]; [|done].
      destruct (ins a d r) as [[r' g]|]; [|done]. specialize (IHr r' g Hr eq_refl).
      change (e :: elems r) with ([e] ++ elems r).
      rewrite app_assoc, insert_sorted_right, <-IHr, <-app_assoc.
      * destruct g; [|by intros [= <- <-]]. intros [= Eb]. cbn [app]. by rewrite <-balance_right_elems with (x := x) (b := b), Eb.
      * assert (Hde : (0 < theComp d e)%Z) by (by apply comp_gt).
        rewrite Forall_app. split; [|constructor; [unfold cmp_le; lia|constructor]].
        eapply Forall_impl; [exact Hle|]. intros y Hy. unfold cmp_le.
        assert (comp_lt y d) as Hyd%comp_gt by (eapply comp_trans; [exact Hy|exact Hlt]). lia.
Qed.

(** It fails exactly when an equal element is present. *)
Lemma ins_none a d t : bst t → ins a d t = None ↔ ∃ e, e ∈ elems t ∧ theComp e d = 0%Z.
Proof.
  induction t as [|x l IHl e b r IHr]; cbn [ins]; unfold bst; cbn [elems].
  - intros _. split; [done|]. by intros (e & He%elem_of_nil & _).
  - intros (Hl & Hr & Hle & Hre)%sorted_app.
    setoid_rewrite elem_of_app. setoid_rewrite elem_of_cons.
    rewrite Forall_forall in Hle, Hre.
    destruct (Z.ltb_spec 0 (theComp e d)) as [Hgt|Hngt]; [|destruct (Z.ltb_spec (theComp e d) 0) as [Hlt|Hnlt]].
    + destruct (ins a d l) as [[l' g]|]; cbn.
      * split; [by destruct g|]. intros (y & [Hy|[->|Hy]] & Hc); [|lia|].
        -- assert (Some (l', g) = None) by (apply IHl; eauto). done.
        -- apply comp_gt in Hgt. exfalso. apply (comp_lt_irrefl e). eapply comp_trans; [by apply Hre|].
           by apply (comp_lt_equiv_l y d e Hc).
      * split; [|done]. intros _. destruct (proj1 (IHl Hl) eq_refl) as (y & ? & ?). eauto.
    + destruct (ins a d r) as [[r' g]|]; cbn.
      * split; [by destruct g|]. intros (y & [Hy|[->|Hy]] & Hc); [|lia|].
        -- exfalso. apply (comp_lt_irrefl y). eapply comp_trans; [by apply Hle|].
           by apply (comp_lt_equiv_r y d e Hc).
        -- assert (Some (r', g) = None) by (apply IHr; eauto). done.
      * split; [|done]. intros _. destruct (proj1 (IHr Hr) eq_refl) as (y & ? & ?). eauto.
    + split; [|done]. intros _. exists e. split; [auto|lia].
Qed.

Lemma insert_sorted_sorted d xs :
  StronglySorted comp_lt xs → (∀ e, e ∈ xs → theComp e d ≠ 0%Z) →
  StronglySorted comp_lt (insert_sorted (cmp_le theComp) d xs).
Proof.
  induction 1 as [|x xs Hs IH Hf]; intros Hne; cbn; [repeat constructor|]. unfold cmp_le.
  destruct (Z.leb_spec (theComp d x) 0) as [Hle|Hgt].
  - assert (Hdx : comp_lt d x).
    { unfold comp_lt. destruct (decide (theComp d x = 0%Z)) as [E0%comp_eq|]; [|lia]. exfalso. apply (Hne x); [set_solver +|done]. }
    constructor; [by constructor|]. constructor; [done|]. eapply Forall_impl; [exact Hf|]. intros y Hy. by eapply comp_trans.
  - apply comp_gt in Hgt. constructor; [apply IH; intros; apply Hne; set_solver|].
    apply Forall_forall. intros y Hy. apply insert_sorted_elem in Hy as [->|Hy]; [done|].
    rewrite Forall_forall in Hf. by apply Hf.
Qed.

Lemma ins_nodes a d t t' grown : ins a d t = Some (t', grown) → nodes t' ≡ₚ a :: nodes t.
Proof.
  revert t' grown. induction t as [|x l IHl e b r IHr]; intros t' grown; cbn [ins].
  - by intros [= <- <-].
  - cbn [nodes]. destruct (0 <? theComp e d)%Z; [|destruct (theComp e d <? 0)%Z; [|done]].
    + destruct (ins a d l) as [[l' g]|]; [|done]. specialize (IHl l' g eq_refl).
      destruct g; intros [= Eb].
      * pose proof (balance_left_nodes x l' e b r) as Hb. rewrite Eb in Hb. cbn in Hb. rewrite Hb, IHl. solve_Permutation.
      * subst t'. cbn. rewrite IHl. solve_Permutation.
    + destruct (ins a d r) as [[r' g]|]; [|done]. specialize (IHr r' g eq_refl).
      destruct g; intros [= Eb].
      * pose proof (balance_right_nodes x l e b r') as Hb. rewrite Eb in Hb. cbn in Hb. rewrite Hb, IHr. solve_Permutation.
      * subst t'. cbn. rewrite IHr. solve_Permutation.
Qed.
End pure.
Arguments Comparator {D} theComp.

(** ** The heap *)
Section heap.
Context {D : Type}.
Implicit Types (t l r : atree D) (c : gmap loc (avl_node D)) (m : avl_mem D).

(** A place holds [v]; writing a place, as a function of the state. *)
Definition owner (pl : place) : option loc :=
  match pl with PRoot => None | PLeft o | PRight o => Some o end.
Definition holds m (pl : place) (v : option loc) : Prop :=
  match pl with
  | PRoot => aroot m = v
  | PLeft o => ∃ n, acells m !! o = Some n ∧ left n = v
  | PRight o => ∃ n, acells m !! o = Some n ∧ right n = v
  end.
Definition wp (pl : place) (v : option loc) m : avl_mem D :=
  match pl with
  | PRoot => set_aroot v m
  | PLeft o => set_acells (alter (set_left v) o) m
  | PRight o => set_acells (alter (set_right v) o) m
  end.
(** What writing a place does to the cell [b]. *)
Definition place_upd (pl : place) (v : option loc) (b : loc) (n : avl_node D) : avl_node D :=
  match pl with
  | PRoot => n
  | PLeft o => if decide (o = b) then set_left v n else n
  | PRight o => if decide (o = b) then set_right v n else n
  end.

(** From [m] to [m'], only the cells of [own] and the place [pl], which now
    holds [v], have changed. *)
Record changes (own : list loc) (pl : place) (v : option loc) m m' : Prop := {
  ch_cells : ∀ b, b ∉ own → acells m' !! b = place_upd pl v b <$> acells m !! b;
  ch_root : aroot m' = if decide (pl = PRoot) then v else aroot m;
  ch_del : del_root m' = del_root m;
}.

(** The root of a tree gets another parent. *)
Definition reparent t (q : option loc) c : gmap loc (avl_node D) :=
  match t with E => c | T a _ _ _ _ => alter (set_parent q) a c end.

Lemma aload_Some m a n : acells m !! a = Some n → aload (Some a) m = Ret (n, m).
Proof. intros Ha. unfold aload. cbn. unfold mbind, M_mbind. cbn. by rewrite Ha. Qed.
Lemma aupdate_Some m a n f :
  acells m !! a = Some n → aupdate (Some a) f m = Ret ((), set_acells <[a := f n]> m).
Proof.
  intros Ha. unfold aupdate. rewrite (bind_ret _ _ m a m) by done.
  by rewrite (bind_ret _ _ _ _ _ (aload_Some _ _ _ Ha)).
Qed.
Lemma read_place_ok m pl v : holds m pl v → read_place pl m = Ret (v, m).
Proof.
  destruct pl; cbn; [by intros <-|..]; intros (n & Hn & <-);
    by rewrite (bind_ret _ _ _ _ _ (aload_Some _ _ _ Hn)).
Qed.
Lemma alter_is_insert c a n f : c !! a = Some n → alter f a c = <[a := f n]> c.
Proof.
  intros Ha. apply map_eq. intros b. rewrite lookup_insert, lookup_alter.
  case_decide; simplify_eq; [by rewrite Ha|done].
Qed.
Lemma write_place_ok m pl v w : holds m pl v → write_place pl w m = Ret ((), wp pl w m).
Proof.
  destruct pl; cbn [holds write_place wp]; [done|..]; intros (n & Hn & _); rewrite (aupdate_Some _ _ _ _ Hn);
    unfold set_acells; by rewrite (alter_is_insert _ _ _ _ Hn).
Qed.
Lemma lookup_wp m pl v b : acells (wp pl v m) !! b = place_upd pl v b <$> acells m !! b.
Proof.
  destruct pl as [|o|o]; cbn [wp acells set_acells set_aroot]; [by destruct (acells m !! b)|..];
    (destruct (decide (o = b)) as [->|Hne]; [rewrite lookup_alter_eq|rewrite lookup_alter_ne by done]);
    (destruct (acells m !! b); [|done]); cbn; by case_decide.
Qed.
Lemma place_upd_ne pl v b n : owner pl ≠ Some b → place_upd pl v b n = n.
Proof. destruct pl; cbn; intros; [done|..]; rewrite decide_False; congruence. Qed.
Lemma lookup_wp_ne m pl v b : owner pl ≠ Some b → acells (wp pl v m) !! b = acells m !! b.
Proof.
  intros Hb. rewrite lookup_wp. destruct (acells m !! b); [|done]. cbn. by rewrite place_upd_ne.
Qed.
Lemma holds_wp m pl v w : holds m pl v → holds (wp pl w m) pl w.
Proof. destruct pl; cbn; [done|..]; intros (n & Hn & _); rewrite lookup_alter_eq, Hn; eexists; split; reflexivity. Qed.
Lemma holds_cells m m' pl v :
  (∀ o, owner pl = Some o → acells m' !! o = acells m !! o) → (pl = PRoot → aroot m' = aroot m) →
  holds m pl v → holds m' pl v.
Proof. destruct pl; cbn; intros Hc Hr; [by rewrite Hr|..]; rewrite (Hc _ eq_refl); done. Qed.

Lemma rep_frame c c' par t :
  (∀ b, b ∈ nodes t → c' !! b = c !! b) → rep c par t → rep c' par t.
Proof.
  revert par. induction t as [|a l IHl d b r IHr]; intros par Hc; cbn in *; [done|].
  intros (Ha & Hl & Hr). split_and!; [rewrite Hc; [done|set_solver +]|apply IHl|apply IHr]; try done;
    intros x Hx; apply Hc; set_solver + Hx.
Qed.
Lemma rep_lookup c par t a : rep c par t → a ∈ nodes t → is_Some (c !! a).
Proof.
  revert par. induction t as [|x l IHl d b r IHr]; intros par; cbn; [set_solver|].
  intros (Ha & Hl & Hr) [->|[Hin|Hin]%elem_of_app]%elem_of_cons; eauto.
Qed.

Lemma lookup_reparent_ne t q c b : b ∉ nodes t → reparent t q c !! b = c !! b.
Proof. destruct t; cbn; [done|]. intros Hb. apply lookup_alter_ne. set_solver. Qed.
Lemma rep_reparent t par q c : NoDup (nodes t) → rep c par t → rep (reparent t q c) q t.
Proof.
  destruct t as [|a l d b r]; cbn; [done|]. intros [Ha Hnd]%NoDup_cons (Hc & Hl & Hr).
  rewrite lookup_alter_eq, Hc. split_and!; [done|..]; (eapply rep_frame; [|eassumption]);
    intros x Hx; apply lookup_alter_ne; set_solver.
Qed.
Lemma set_parent_if_ok m t par q :
  rep (acells m) par t →
  set_parent_if (root_of t) q m = Ret ((), set_acells (reparent t q) m).
Proof.
  destruct t as [|a l d b r]; cbn [set_parent_if root_of rep reparent]; [by destruct m|]. intros (Ha & _). rewrite (aupdate_Some _ _ _ _ Ha).
  unfold set_acells, reparent. by rewrite (alter_is_insert _ _ _ _ Ha).
Qed.
End heap.

(** A tree lies at a place: its nodes are distinct, its root has the parent
    [par], and the place belongs to none of its nodes. *)
Record at_place {D} (m : avl_mem D) (pl : place) (par : option loc) (t : atree D) : Prop := {
  ap_rep : rep (acells m) par t;
  ap_holds : holds m pl (root_of t);
  ap_nodup : NoDup (nodes t);
  ap_own : ∀ o, owner pl = Some o → o ∉ nodes t;
}.

(** Splits the freshness facts of a concrete tree. *)
Ltac nodes_facts H :=
  repeat (first
    [ rewrite NoDup_cons in H | rewrite NoDup_app in H
    | rewrite not_elem_of_cons in H | rewrite not_elem_of_app in H ]); destruct_all.
Ltac heads_facts :=
  repeat match goal with
  | H : ∀ x, x ∈ ?L → x ∉ ?R |- _ =>
      match L with context [?y :: _] =>
        lazymatch goal with
        | _ : y ∉ R |- _ => fail
        | _ => assert (y ∉ R) by (apply (H y); set_solver +)
        end
      end
  | H : ∀ x, x ∈ ?L → x ∉ ?R |- _ =>
      match R with context [?y :: _] =>
        lazymatch goal with
        | _ : y ∉ L |- _ => fail
        | _ => assert (y ∉ L) by (let Hq := fresh in intros Hq; apply (H y Hq); set_solver +)
        end
      end
  end;
  repeat match goal with
  | H : _ ∉ _ :: _ |- _ => apply not_elem_of_cons in H as [??]
  | H : _ ∉ _ ++ _ |- _ => apply not_elem_of_app in H as [??]
  end.

(** The place's owner is none of the tree's nodes. *)
Ltac own_facts Hown :=
  repeat match type of Hown with
  | ∀ o, owner ?pl = Some o → o ∉ ?L =>
      match L with context [?x :: _] =>
        lazymatch goal with
        | _ : owner pl ≠ Some x |- _ => fail
        | _ => assert (owner pl ≠ Some x) by (let Hq := fresh in intros Hq; apply (Hown _ Hq); set_solver +)
        end
      end
  end.

(** Lookups in a heap whose updated cells are known to be distinct. *)
Ltac look :=
  repeat first
    [ progress cbn [acells set_acells set_aroot set_check set_add_parent set_del_root aroot]
    | rewrite lookup_insert_eq | rewrite lookup_insert_ne by congruence
    | rewrite lookup_wp_ne by congruence | rewrite lookup_reparent_ne by assumption ].
Ltac setters :=
  cbn [set_left set_right set_parent set_bal set_adata left right parent bal adata].

(** One command of an operation. *)
Ltac astep :=
  lazymatch goal with
  | |- context [(mbind _ (aload (Some ?a))) ?m] =>
      erewrite (bind_ret (aload (Some a))) by (apply aload_Some; look; first [eassumption|reflexivity]); setters
  | |- context [(mbind _ (aupdate (Some ?a) ?f)) ?m] =>
      erewrite (bind_ret (aupdate (Some a) f)) by (apply aupdate_Some; look; first [eassumption|reflexivity]); setters
  | |- context [(mbind _ (set_parent_if (root_of ?t) ?q)) ?m] =>
      erewrite (bind_ret (set_parent_if (root_of t) q)) by (eapply set_parent_if_ok; tree_frame)
  | |- context [(mbind _ (read_place ?pl)) ?m] =>
      erewrite (bind_ret (read_place pl)) by (apply read_place_ok; place_frame)
  | |- context [(mbind _ (write_place ?pl ?v)) ?m] =>
      erewrite (bind_ret (write_place pl v)) by (eapply write_place_ok; place_frame)
  | |- _ => mstep
  end
(** A place keeps its value when none of its owner's cells change. *)
with place_frame :=
  match goal with
  | Hh : holds ?m ?pl _, Hown : ∀ o, owner ?pl = Some o → o ∉ _ |- holds _ ?pl _ =>
      first [ exact Hh
            | eapply holds_cells; [|intros _|exact Hh];
              [ let o := fresh "o" in let Ho := fresh "Ho" in
                intros o Ho; specialize (Hown _ Ho); nodes_facts Hown; look; reflexivity
              | reflexivity ] ]
  end
(** A subtree keeps its representation when its cells do not change, or gets
    a new parent. *)
with tree_frame :=
  let z := fresh "z" in let Hz := fresh "Hz" in
  lazymatch goal with
  | |- rep _ _ ?t =>
      first
        [ eapply rep_frame; [|eassumption]; intros z Hz; tree_lookup z Hz
        | eapply rep_frame; [|eapply rep_reparent; [assumption|]];
          [ intros z Hz; tree_lookup z Hz | tree_frame ] ]
  end
with tree_lookup z Hz :=
  repeat match goal with
  | H : ?x ∉ nodes ?t |- _ =>
      lazymatch type of Hz with _ ∈ nodes t => idtac end;
      lazymatch goal with _ : z ≠ x |- _ => fail | _ => idtac end;
      assert (z ≠ x) by (intros ->; contradiction)
  end;
  repeat match goal with
  | Ho : owner ?pl ≠ _, Hown : ∀ o, owner ?pl = Some o → o ∉ _ |- _ =>
      lazymatch goal with _ : owner pl ≠ Some z |- _ => fail | _ => idtac end;
      assert (owner pl ≠ Some z) by (let Hq := fresh in intros Hq; apply (Hown _ Hq); set_solver + Hz)
  end;
  repeat match goal with
  | t : atree _ |- _ =>
      lazymatch type of Hz with _ ∈ nodes t => fail | _ => idtac end;
      lazymatch goal with _ : z ∉ nodes t |- _ => fail | _ => idtac end;
      assert (z ∉ nodes t) by (let Hq := fresh in intros Hq;
        match goal with H : ∀ x, x ∈ ?L → x ∉ _ |- _ => apply (H z); [set_solver + Hz Hq|set_solver + Hz Hq] end)
  end;
  look; reflexivity.

Ltac rotation_start :=
  let Hrep := fresh in let Hh := fresh "Hh" in let Hnd := fresh "Hnd" in let Hown := fresh "Hown" in
  intros [Hrep Hh Hnd Hown]; cbn [nodes root_of rep] in *; destruct_all;
  own_facts Hown; nodes_facts Hnd; heads_facts.
Ltac place_cases := match goal with pl : place |- _ => destruct pl; reflexivity end.
Ltac rotation_done :=
  eexists; split; [reflexivity|];
  split; [|split; [|split]];
  [ cbn [rep root_of]; split_and!; first [look; reflexivity|tree_frame]
  | split;
    [ let z := fresh in let Hz := fresh in
      intros z Hz; nodes_facts Hz; look; rewrite lookup_wp; look; reflexivity
    | place_cases ..]
  | place_cases ..].

Section rotations.
Context {D : Type}.
Implicit Types (t l r : atree D) (c : gmap loc (avl_node D)) (m : avl_mem D).

Lemma rotate_LL_spec m pl par x p A pd pb B e b C :
  at_place m pl par (T x (T p A pd pb B) e b C) →
  ∃ m', rotate_LL pl (Some p) m = Ret (0%Z, m') ∧
    rep (acells m') par (T p A pd 0 (T x B e 0 C)) ∧
    changes (nodes (T x (T p A pd pb B) e b C)) pl (Some p) m m' ∧
    checkBalance m' = false ∧ add_parent m' = add_parent m.
Proof.
  rotation_start.
  unfold rotate_LL. do 12 astep. rotation_done.
Qed.

Lemma rotate_RR_spec m pl par x p A pd pb B e b C :
  at_place m pl par (T x C e b (T p A pd pb B)) →
  ∃ m', rotate_RR pl (Some p) m = Ret (0%Z, m') ∧
    rep (acells m') par (T p (T x C e 0 A) pd 0 B) ∧
    changes (nodes (T x C e b (T p A pd pb B))) pl (Some p) m m' ∧
    checkBalance m' = false ∧ add_parent m' = add_parent m.
Proof.
  rotation_start. unfold rotate_RR. do 12 astep. rotation_done.
Qed.

Lemma rotate_LR_spec m pl par x p A pd pb q S qd qb U e b C :
  at_place m pl par (T x (T p A pd pb (T q S qd qb U)) e b C) → (-1 <= qb <= 1)%Z →
  ∃ m', rotate_LR pl (Some p) m = Ret (0%Z, m') ∧
    rep (acells m') par
      (T q (T p A pd (if (qb =? 1)%Z then -1 else 0) S) qd 0
           (T x U e (if (qb =? -1)%Z then 1 else 0) C)) ∧
    changes (nodes (T x (T p A pd pb (T q S qd qb U)) e b C)) pl (Some q) m m' ∧
    checkBalance m' = false ∧ add_parent m' = add_parent m.
Proof.
  intros Hat Hqb. revert Hat. rotation_start. unfold rotate_LR. do 15 astep. unfold lr_balances.
  destruct (Z.eqb_spec qb 0) as [->|]; [|destruct (Z.eqb_spec qb (-1)) as [->|];
    [|destruct (Z.eqb_spec qb 1) as [->|]; [|exfalso; lia]]]; do 4 (rewrite ?M_assoc; astep); rotation_done.
Qed.

Lemma rotate_RL_spec m pl par x p A pd pb q S qd qb U e b C :
  at_place m pl par (T x C e b (T p (T q S qd qb U) pd pb A)) → (-1 <= qb <= 1)%Z →
  ∃ m', rotate_RL pl (Some p) m = Ret (0%Z, m') ∧
    rep (acells m') par
      (T q (T x C e (if (qb =? 1)%Z then -1 else 0) S) qd 0
           (T p U pd (if (qb =? -1)%Z then 1 else 0) A)) ∧
    changes (nodes (T x C e b (T p (T q S qd qb U) pd pb A))) pl (Some q) m m' ∧
    checkBalance m' = false ∧ add_parent m' = add_parent m.
Proof.
  intros Hat Hqb. revert Hat. rotation_start. unfold rotate_RL. do 15 astep. unfold rl_balances.
  destruct (Z.eqb_spec qb 0) as [->|]; [|destruct (Z.eqb_spec qb (-1)) as [->|];
    [|destruct (Z.eqb_spec qb 1) as [->|]; [|exfalso; lia]]]; do 4 (rewrite ?M_assoc; astep); rotation_done.
Qed.

(** Changing the balance of the root. *)
Lemma set_root_bal m pl par x l e b r b' chk :
  at_place m pl par (T x l e b r) →
  let m' := set_check chk (set_acells <[x := ANode e b' (root_of l) (root_of r) par]> m) in
  rep (acells m') par (T x l e b' r) ∧ changes (nodes (T x l e b r)) pl (Some x) m m'.
Proof.
  rotation_start. cbn zeta. split.
  - cbn [rep]. split_and!; [by look|tree_frame..].
  - match goal with H : holds _ _ _ |- _ => rename H into Hh end.
    split; [|by destruct pl; cbn in *|done]. intros z Hz. nodes_facts Hz. look.
    destruct (acells m !! z) as [n|] eqn:En; [|done]. cbn. f_equal.
    destruct pl as [|o|o]; cbn in *; [done|..]; case_decide; [|done|..|done]; subst;
      destruct Hh as (n' & Hn' & Hl); rewrite En in Hn'; injection Hn' as <-; destruct n; cbn in *; by subst.
Qed.

(** The [switch] after an insertion on the left is [balance_left]. *)
Lemma rebalance_left_spec m pl par x l e b r :
  at_place m pl par (T x l e b r) → avl l → (-1 <= b <= 1)%Z → (b = -1 → bal_of l ≠ 0 ∧ 1 <= height l)%Z →
  ∃ m', rebalance_left pl m = Ret (0%Z, m') ∧
    rep (acells m') par (balance_left x l e b r).1 ∧
    changes (nodes (T x l e b r)) pl (root_of (balance_left x l e b r).1) m m' ∧
    checkBalance m' = (balance_left x l e b r).2 ∧ add_parent m' = add_parent m.
Proof.
  intros Hat Hl Hb Hbl. pose proof (ap_holds _ _ _ _ Hat) as Hh.
  pose proof (ap_rep _ _ _ _ Hat) as (Hx & Hrl & Hrr). unfold rebalance_left, balance_left.
  rewrite (bind_ret _ _ _ _ _ (read_place_ok _ _ _ Hh)). cbn [root_of]. astep.
  destruct (Z.eqb_spec b 1) as [->|]; [|destruct (Z.eqb_spec b 0) as [->|]].
  - do 2 astep. eexists. split; [reflexivity|].
    destruct (set_root_bal m pl par x l e 1 r 0 false Hat). by split_and!.
  - do 2 astep. eexists. split; [reflexivity|].
    destruct (set_root_bal m pl par x l e 0 r (-1) true Hat). by split_and!.
  - assert (b = -1)%Z as -> by lia. destruct (Hbl eq_refl) as [Hnz Hh1]. change (-1 =? -1)%Z with true. cbn iota.
    destruct l as [|p A pd pb B]; [by cbn in Hh1|]. destruct Hrl as (Hp & HA & HB). cbn [root_of]. astep.
    destruct Hl as (HlA & HlB & Hpb & Hpbb). cbn in Hnz.
    destruct (Z.eqb_spec pb (-1)) as [->|]; [by apply (rotate_LL_spec _ _ par)|].
    assert (pb = 1)%Z as -> by lia. change (1 =? 1)%Z with true. cbn iota.
    pose proof (height_nonneg A). destruct B as [|q S qd qb U]; [cbn in Hpb; lia|].
    apply rotate_LR_spec; [done|]. apply HlB.
Qed.

Lemma rebalance_right_spec m pl par x l e b r :
  at_place m pl par (T x l e b r) → avl r → (-1 <= b <= 1)%Z → (b = 1 → bal_of r ≠ 0 ∧ 1 <= height r)%Z →
  ∃ m', rebalance_right pl m = Ret (0%Z, m') ∧
    rep (acells m') par (balance_right x l e b r).1 ∧
    changes (nodes (T x l e b r)) pl (root_of (balance_right x l e b r).1) m m' ∧
    checkBalance m' = (balance_right x l e b r).2 ∧ add_parent m' = add_parent m.
Proof.
  intros Hat Hr Hb Hbr. pose proof (ap_holds _ _ _ _ Hat) as Hh.
  pose proof (ap_rep _ _ _ _ Hat) as (Hx & Hrl & Hrr). unfold rebalance_right, balance_right.
  rewrite (bind_ret _ _ _ _ _ (read_place_ok _ _ _ Hh)). cbn [root_of]. astep.
  destruct (Z.eqb_spec b (-1)) as [->|]; [|destruct (Z.eqb_spec b 0) as [->|]].
  - do 2 astep. eexists. split; [reflexivity|].
    destruct (set_root_bal m pl par x l e (-1) r 0 false Hat). by split_and!.
  - do 2 astep. eexists. split; [reflexivity|].
    destruct (set_root_bal m pl par x l e 0 r 1 true Hat). by split_and!.
  - assert (b = 1)%Z as -> by lia. destruct (Hbr eq_refl) as [Hnz Hh1]. change (1 =? 1)%Z with true. cbn iota.
    destruct r as [|p A pd pb B]; [by cbn in Hh1|]. destruct Hrr as (Hp & HA & HB). cbn [root_of]. astep.
    destruct Hr as (HrA & HrB & Hpb & Hpbb). cbn in Hnz.
    destruct (Z.eqb_spec pb (-1)) as [->|].
    + pose proof (height_nonneg B). destruct A as [|q S qd qb U]; [cbn in Hpb; lia|].
      change (-1 =? 1)%Z with false. apply rotate_RL_spec; [done|]. apply HrA.
    + assert (pb = 1)%Z as -> by lia. change (1 =? 1)%Z with true. cbn iota. by apply (rotate_RR_spec _ _ par).
Qed.
End rotations.

(** ** [Tree_Add] is [ins] *)
Section add.
Context {D : Type}.
Variable uninit : avl_node D.
Variable malloc : gmap loc (avl_node D) → option loc.
Variable theComp : D → D → Z.
Implicit Types (t l r : atree D) (c : gmap loc (avl_node D)) (m : avl_mem D).

(** Restoring a value that a place already holds changes nothing. *)
Lemma place_upd_id m pl v b n :
  holds m pl v → acells m !! b = Some n → place_upd pl v b n = n.
Proof.
  intros Hh Hn. destruct pl as [|o|o]; cbn in *; [done|..]; case_decide; [|done|..|done]; subst;
    destruct Hh as (n' & Hn' & Hl); rewrite Hn in Hn'; injection Hn' as <-; destruct n; cbn in *; by subst.
Qed.

Lemma changes_refl own m m' pl v :
  holds m pl v → acells m' = acells m → aroot m' = aroot m → del_root m' = del_root m →
  changes own pl v m m'.
Proof.
  intros Hh Hc Hr Hd. split; [|rewrite Hr; by destruct pl|done]. intros z _. rewrite Hc.
  destruct (acells m !! z) eqn:En; [|done]. cbn. by rewrite (place_upd_id m).
Qed.

Lemma changes_statics own pl v m m1 m' :
  acells m = acells m1 → aroot m = aroot m1 → del_root m = del_root m1 →
  changes own pl v m m' → changes own pl v m1 m'.
Proof. intros Hc Hr Hd [H1 H2 H3]. split; [by rewrite <-Hc|by rewrite <-Hr|congruence]. Qed.

(** A change below a node of the tree is a change of the tree. *)
Lemma changes_below own pl v x w m m1 m2 own2 pl' :
  changes own pl' w m m1 → owner pl' = Some x → changes own2 pl v m1 m2 →
  (∀ b, b ∉ x :: own2 → b ∉ own) →
  x ∈ own2 → ∀ own3, own2 ⊆ own3 → changes own3 pl v m m2.
Proof.
  intros [Hc1 Hr1 Hd1] Ho [Hc2 Hr2 Hd2] Hsub Hx own3 Hs. split.
  - intros b Hb. assert (b ∉ own2) as Hb2 by set_solver. rewrite Hc2 by done.
    assert (b ∉ own) by (apply Hsub; set_solver). rewrite Hc1 by done.
    destruct (acells m !! b); [|done]. cbn. rewrite (place_upd_ne pl'); [done|]. set_solver.
  - rewrite Hr2, Hr1. destruct pl'; [done|by destruct pl..].
  - congruence.
Qed.

(** The subtree [l] of [x] has been replaced by [l'], with the new node [a]. *)
Lemma at_place_left m m1 pl par x l e b r l' a :
  at_place m pl par (T x l e b r) → acells m !! a = None →
  rep (acells m1) (Some x) l' → changes (a :: nodes l) (PLeft x) (root_of l') m m1 →
  nodes l' ≡ₚ a :: nodes l → at_place m1 pl par (T x l' e b r).
Proof.
  intros Hat Ha Hl' [Hc Hr Hd] Hn. pose proof (ap_rep _ _ _ _ Hat) as Hrep.
  assert (Han : a ∉ nodes (T x l e b r)).
  { intros Hin. destruct (rep_lookup _ _ _ _ Hrep Hin). congruence. }
  destruct Hat as [(Hx & Hl & Hrr) Hh Hnd Hown]. cbn [nodes root_of] in *.
  pose proof Hnd as Hnd'. nodes_facts Hnd'. nodes_facts Han. split.
  - cbn [rep]. split_and!; [|done|].
    + rewrite Hc by set_solver. rewrite Hx. cbn. by rewrite decide_True.
    + eapply rep_frame, Hrr. intros z Hz. rewrite Hc by set_solver.
      destruct (acells m !! z); [|done]. cbn. rewrite decide_False; [done|]. set_solver.
  - eapply holds_cells, Hh; [|done]. intros o Ho. specialize (Hown o Ho). nodes_facts Hown.
    rewrite Hc; [destruct (acells m !! o); [cbn; by rewrite decide_False by done|done]|].
    apply not_elem_of_cons. split; [|done]. intros ->. destruct pl; cbn in *; [done|..];
      simplify_eq; destruct Hh as (? & Hh & _); congruence.
  - cbn [nodes]. rewrite Hn. cbn. apply NoDup_cons. split; [set_solver|]. by constructor; [set_solver|inversion Hnd].
  - intros o Ho. specialize (Hown o Ho). cbn [nodes]. rewrite Hn.
    assert (o ≠ a) by (intros ->; destruct pl; cbn in *; [done|..];
      simplify_eq; destruct Hh as (? & Hh & _); congruence). set_solver.
Qed.

Lemma at_place_right m m1 pl par x l e b r r' a :
  at_place m pl par (T x l e b r) → acells m !! a = None →
  rep (acells m1) (Some x) r' → changes (a :: nodes r) (PRight x) (root_of r') m m1 →
  nodes r' ≡ₚ a :: nodes r → at_place m1 pl par (T x l e b r').
Proof.
  intros Hat Ha Hr' [Hc Hr Hd] Hn. pose proof (ap_rep _ _ _ _ Hat) as Hrep.
  assert (Han : a ∉ nodes (T x l e b r)).
  { intros Hin. destruct (rep_lookup _ _ _ _ Hrep Hin). congruence. }
  destruct Hat as [(Hx & Hl & Hrr) Hh Hnd Hown]. cbn [nodes root_of] in *.
  pose proof Hnd as Hnd'. nodes_facts Hnd'. nodes_facts Han. split.
  - cbn [rep]. split_and!; [| |done].
    + rewrite Hc by set_solver. rewrite Hx. cbn. by rewrite decide_True.
    + eapply rep_frame, Hl. intros z Hz. rewrite Hc by set_solver.
      destruct (acells m !! z); [|done]. cbn. rewrite decide_False; [done|]. set_solver.
  - eapply holds_cells, Hh; [|done]. intros o Ho. specialize (Hown o Ho). nodes_facts Hown.
    rewrite Hc; [destruct (acells m !! o); [cbn; by rewrite decide_False by done|done]|].
    apply not_elem_of_cons. split; [|done]. intros ->. destruct pl; cbn in *; [done|..];
      simplify_eq; destruct Hh as (? & Hh & _); congruence.
  - cbn [nodes]. rewrite Hn. rewrite <-Permutation_middle. rewrite Permutation_swap.
    apply NoDup_cons. split; [set_solver|done].
  - intros o Ho. specialize (Hown o Ho). cbn [nodes]. rewrite Hn.
    assert (o ≠ a) by (intros ->; destruct pl; cbn in *; [done|..];
      simplify_eq; destruct Hh as (? & Hh & _); congruence). set_solver.
Qed.

Lemma at_place_sub_left m pl par x l e b r :
  at_place m pl par (T x l e b r) → at_place m (PLeft x) (Some x) l.
Proof.
  intros [(Hx & Hl & Hr) Hh Hnd Hown]. cbn [nodes] in Hnd. nodes_facts Hnd. split; [done| |done|].
  - cbn. eauto.
  - by intros o [= ->].
Qed.
Lemma at_place_sub_right m pl par x l e b r :
  at_place m pl par (T x l e b r) → at_place m (PRight x) (Some x) r.
Proof.
  intros [(Hx & Hl & Hr) Hh Hnd Hown]. cbn [nodes] in Hnd. nodes_facts Hnd. split; [done| |done|].
  - cbn. eauto.
  - by intros o [= ->].
Qed.
Lemma at_place_statics m m' pl par t :
  acells m' = acells m → aroot m' = aroot m → at_place m pl par t → at_place m' pl par t.
Proof.
  intros Hc Hr [H1 H2 H3 H4]. split; [by rewrite Hc| |done..].
  eapply holds_cells, H2; [by rewrite Hc|done].
Qed.

(** The new leaf. *)
Lemma add_leaf m pl par a d (fuel : nat) :
  at_place m pl par E → acells m !! a = None → malloc (acells m) = Some a → add_parent m = par →
  ∃ m', Tree_Add uninit malloc theComp (S fuel) pl d m = Ret (0%Z, m') ∧
    rep (acells m') par (T a E d 0 E) ∧ changes [a] pl (Some a) m m' ∧
    checkBalance m' = true ∧ add_parent m' = None.
Proof.
  intros [_ Hh _ Hown] Ha Hm Hpar. cbn [Tree_Add root_of] in *.
  assert (owner pl ≠ Some a) as Hoa.
  { intros Ho. destruct pl; cbn in *; [done|..]; simplify_eq; destruct Hh as (? & Hh & _); congruence. }
  rewrite (bind_ret _ _ _ _ _ (read_place_ok _ _ _ Hh)). unfold Allocate_AVL_tree. rewrite M_assoc. mstep.
  rewrite Hm, M_assoc. mstep. rewrite mret_bind.
  assert (holds (set_acells <[a := uninit]> m) pl None) as Hh'.
  { eapply holds_cells, Hh; [|done]. intros o Ho. cbn. apply lookup_insert_ne. congruence. }
  rewrite (bind_ret _ _ _ _ _ (write_place_ok _ _ _ _ Hh')). do 8 astep.
  eexists. split; [reflexivity|]. split; [|split; [|split]].
  - cbn [rep root_of]. split_and!; [|done..]. look. setters. rewrite <-Hpar. by destruct pl.
  - split; [|by destruct pl..]. intros z Hz. nodes_facts Hz. look. rewrite lookup_wp. by look.
  - by destruct pl.
  - by destruct pl.
Qed.

(** The end of a branch of [Tree_Add], once the subtree has been inserted. *)
Lemma after_add_left m0 m1 pl par x l e b r l' g a d :
  at_place m0 pl par (T x l e b r) → acells m0 !! a = None → avl (T x l e b r) →
  ins theComp a d l = Some (l', g) → rep (acells m1) (Some x) l' →
  changes (a :: nodes l) (PLeft x) (root_of l') m0 m1 → checkBalance m1 = g → add_parent m1 = None →
  let '(t', grown) := if g then balance_left x l' e b r else (T x l' e b r, false) in
  ∃ m', after_add 0 (rebalance_left pl) m1 = Ret (0%Z, m') ∧
    rep (acells m') par t' ∧ changes (a :: nodes (T x l e b r)) pl (root_of t') m0 m' ∧
    checkBalance m' = grown ∧ add_parent m' = None.
Proof.
  intros Hat Ha (Hal & Har & Hb & Hbb) Ei Hrep1 Hch1 Hg Hp1.
  pose proof (ins_nodes _ _ _ _ _ _ Ei) as Hn. destruct (ins_avl _ _ _ _ _ _ Hal Ei) as (Hal' & Hhl & Hgl).
  assert (Hat1 : at_place m1 pl par (T x l' e b r)) by (by eapply at_place_left).
  assert (Hsub : ∀ z, z ∉ x :: nodes (T x l' e b r) → z ∉ a :: nodes l).
  { intros z. cbn [nodes]. rewrite Hn. set_solver +. }
  assert (Hsup : nodes (T x l' e b r) ⊆ a :: nodes (T x l e b r)).
  { intros z. cbn [nodes]. rewrite Hn. set_solver +. }
  unfold after_add. change (negb (0 =? 0)%Z) with false. cbn iota. mstep. rewrite Hg. destruct g.
  - destruct (rebalance_left_spec m1 pl par x l' e b r Hat1 Hal' Hbb) as (m2 & Hr2 & Hrep2 & Hch2 & Hg2 & Hp2).
    { intros ->. pose proof (height_nonneg r). pose proof (height_nonneg l). split; [|lia].
      apply Hgl; [done|]. intros ->. cbn in Hb. lia. }
    destruct (balance_left x l' e b r) as [t' grown]. cbn [fst snd] in *. exists m2.
    rewrite Hp2. split_and!; [done..| |done|done].
    eapply (changes_below _ _ _ x); [exact Hch1|done|exact Hch2|done|cbn; set_solver +|done].
  - exists (set_check false m1). split_and!; [done|apply Hat1| |done|done].
    eapply (changes_below _ _ _ x); [exact Hch1|done| |done|cbn; set_solver +|done].
    apply changes_refl; [apply (ap_holds _ _ _ _ Hat1)|done..].
Qed.

Lemma after_add_right m0 m1 pl par x l e b r r' g a d :
  at_place m0 pl par (T x l e b r) → acells m0 !! a = None → avl (T x l e b r) →
  ins theComp a d r = Some (r', g) → rep (acells m1) (Some x) r' →
  changes (a :: nodes r) (PRight x) (root_of r') m0 m1 → checkBalance m1 = g → add_parent m1 = None →
  let '(t', grown) := if g then balance_right x l e b r' else (T x l e b r', false) in
  ∃ m', after_add 0 (rebalance_right pl) m1 = Ret (0%Z, m') ∧
    rep (acells m') par t' ∧ changes (a :: nodes (T x l e b r)) pl (root_of t') m0 m' ∧
    checkBalance m' = grown ∧ add_parent m' = None.
Proof.
  intros Hat Ha (Hal & Har & Hb & Hbb) Ei Hrep1 Hch1 Hg Hp1.
  pose proof (ins_nodes _ _ _ _ _ _ Ei) as Hn. destruct (ins_avl _ _ _ _ _ _ Har Ei) as (Har' & Hhr & Hgr).
  assert (Hat1 : at_place m1 pl par (T x l e b r')) by (by eapply at_place_right).
  assert (Hsub : ∀ z, z ∉ x :: nodes (T x l e b r') → z ∉ a :: nodes r).
  { intros z. cbn [nodes]. rewrite Hn. set_solver +. }
  assert (Hsup : nodes (T x l e b r') ⊆ a :: nodes (T x l e b r)).
  { intros z. cbn [nodes]. rewrite Hn. set_solver +. }
  unfold after_add. change (negb (0 =? 0)%Z) with false. cbn iota. mstep. rewrite Hg. destruct g.
  - destruct (rebalance_right_spec m1 pl par x l e b r' Hat1 Har' Hbb) as (m2 & Hr2 & Hrep2 & Hch2 & Hg2 & Hp2).
    { intros ->. pose proof (height_nonneg r). pose proof (height_nonneg l). split; [|lia].
      apply Hgr; [done|]. intros ->. cbn in Hb. lia. }
    destruct (balance_right x l e b r') as [t' grown]. cbn [fst snd] in *. exists m2.
    rewrite Hp2. split_and!; [done..| |done|done].
    eapply (changes_below _ _ _ x); [exact Hch1|done|exact Hch2|done|cbn; set_solver +|done].
  - exists (set_check false m1). split_and!; [done|apply Hat1| |done|done].
    eapply (changes_below _ _ _ x); [exact Hch1|done| |done|cbn; set_solver +|done].
    apply changes_refl; [apply (ap_holds _ _ _ _ Hat1)|done..].
Qed.

Lemma Tree_Add_spec a d t : ∀ fuel m pl par,
  avl t → at_place m pl par t → length (nodes t) < fuel →
  malloc (acells m) = Some a → acells m !! a = None → (t = E → add_parent m = par) →
  match ins theComp a d t with
  | Some (t', grown) => ∃ m', Tree_Add uninit malloc theComp fuel pl d m = Ret (0%Z, m') ∧
      rep (acells m') par t' ∧ changes (a :: nodes t) pl (root_of t') m m' ∧
      checkBalance m' = grown ∧ add_parent m' = None
  | None => ∃ m', Tree_Add uninit malloc theComp fuel pl d m = Ret ((-1)%Z, m') ∧
      acells m' = acells m ∧ aroot m' = aroot m ∧ del_root m' = del_root m
  end.
Proof.
  induction t as [|x l IHl e b r IHr]; intros fuel m pl par Havl Hat Hf Hm Ha Hpar.
  - destruct fuel as [|fuel]; [lia|]. cbn [ins]. apply (add_leaf m pl par a d fuel); auto.
  - destruct fuel as [|fuel]; [lia|]. cbn [nodes length] in Hf. rewrite length_app in Hf.
    cbn [ins Tree_Add]. pose proof (ap_rep _ _ _ _ Hat) as (Hx & _). pose proof (ap_holds _ _ _ _ Hat) as Hh.
    rewrite (bind_ret _ _ _ _ _ (read_place_ok _ _ _ Hh)). cbn [root_of]. astep.
    pose proof Havl as (Hal & Har & Hb & Hbb).
    destruct (0 <? theComp e d)%Z; [|destruct (theComp e d <? 0)%Z].
    + mstep. set (m0 := set_add_parent (Some x) m).
      assert (Hat0 : at_place m0 pl par (T x l e b r)) by (by apply (at_place_statics m)).
      pose proof (IHl fuel m0 (PLeft x) (Some x) Hal) as IH.
      destruct (ins theComp a d l) as [[l' g]|] eqn:Ei.
      * destruct IH as (m1 & Hr1 & Hrep1 & Hch1 & Hg & Hp1); [by eapply at_place_sub_left|lia|done..|].
        step_with Hr1.
        pose proof (after_add_left m0 m1 pl par x l e b r l' g a d Hat0 Ha Havl Ei Hrep1 Hch1 Hg Hp1) as Hafter.
        destruct (if g then _ else _) as [t' grown]. destruct Hafter as (m' & Hr' & ? & Hch' & ? & ?).
        exists m'. split_and!; [done..| |done|done]. eapply (changes_statics _ _ _ m0); done.
      * destruct IH as (m1 & Hr1 & ? & ? & ?); [by eapply at_place_sub_left|lia|done..|].
        step_with Hr1. by exists (set_check false m1).
    + mstep. set (m0 := set_add_parent (Some x) m).
      assert (Hat0 : at_place m0 pl par (T x l e b r)) by (by apply (at_place_statics m)).
      pose proof (IHr fuel m0 (PRight x) (Some x) Har) as IH.
      destruct (ins theComp a d r) as [[r' g]|] eqn:Ei.
      * destruct IH as (m1 & Hr1 & Hrep1 & Hch1 & Hg & Hp1); [by eapply at_place_sub_right|lia|done..|].
        step_with Hr1.
        pose proof (after_add_right m0 m1 pl par x l e b r r' g a d Hat0 Ha Havl Ei Hrep1 Hch1 Hg Hp1) as Hafter.
        destruct (if g then _ else _) as [t' grown]. destruct Hafter as (m' & Hr' & ? & Hch' & ? & ?).
        exists m'. split_and!; [done..| |done|done]. eapply (changes_statics _ _ _ m0); done.
      * destruct IH as (m1 & Hr1 & ? & ? & ?); [by eapply at_place_sub_right|lia|done..|].
        step_with Hr1. by exists (set_check false m1).
    + by exists (set_check false m).
Qed.
End add.

(** ** Traversals *)
Section traversals.
Context {D : Type}.
Variable theComp : D → D → Z.
Implicit Types (t l r : atree D) (c : gmap loc (avl_node D)) (m : avl_mem D).

Lemma nodes_fuel m par t : rep (acells m) par t → NoDup (nodes t) → length (nodes t) < avl_fuel m.
Proof.
  intros Hrep Hnd. unfold avl_fuel. apply Nat.lt_succ_r. rewrite <-size_dom.
  rewrite <-(size_list_to_set (C := gset loc) (nodes t) Hnd). apply subseteq_size.
  intros a. rewrite elem_of_list_to_set, elem_of_dom. intros Ha. by eapply rep_lookup.
Qed.

Lemma height_nodes t : (height t <= Z.of_nat (length (nodes t)))%Z.
Proof. induction t as [|x l IHl e b r IHr]; cbn; [lia|]. rewrite length_app. pose proof (height_nonneg l). pose proof (height_nonneg r). lia. Qed.

(** The node the search stops at. *)
Fixpoint find (d : D) t : option (loc * D) :=
  match t with
  | E => None
  | T x l e b r =>
      if (0 <? theComp e d)%Z then find d l
      else if (theComp e d <? 0)%Z then find d r else Some (x, e)
  end.

(** One node is visited per level: fuel above the height is enough. *)
Lemma search_find d m par t fuel :
  rep (acells m) par t → (height t < Z.of_nat fuel)%Z →
  Tree_Search_loop theComp fuel (root_of t) d m = Ret (fst <$> find d t, m).
Proof.
  revert par fuel. induction t as [|x l IHl e b r IHr]; intros par fuel Hrep Hf; [by destruct fuel|].
  destruct Hrep as (Hx & Hl & Hr). cbn [height] in Hf. pose proof (height_nonneg l). pose proof (height_nonneg r).
  destruct fuel as [|fuel]; [lia|]. cbn [Tree_Search_loop root_of find]. astep.
  destruct (0 <? theComp e d)%Z; [eapply IHl; [done|lia]|].
  destruct (theComp e d <? 0)%Z; [eapply IHr; [done|lia]|done].
Qed.

Lemma find_elems `{!Comparator theComp} d t :
  bst theComp t →
  match find d t with
  | Some (a, e) => a ∈ nodes t ∧ e ∈ elems t ∧ theComp e d = 0%Z
  | None => ∀ e, e ∈ elems t → theComp e d ≠ 0%Z
  end.
Proof.
  induction t as [|x l IHl e b r IHr]; cbn [find]; unfold bst; cbn [elems nodes].
  - intros _ e He. by apply elem_of_nil in He.
  - intros (Hl & Hr & Hle & Hre)%sorted_app; [|done]. rewrite Forall_forall in Hle, Hre.
    destruct (Z.ltb_spec 0 (theComp e d)) as [Hgt|Hngt]; [|destruct (Z.ltb_spec (theComp e d) 0) as [Hlt|Hnlt]].
    + specialize (IHl Hl). destruct (find d l) as [[a y]|].
      * destruct IHl as (? & ? & ?). split_and!; [set_solver|set_solver|done].
      * intros y [Hy|[->|Hy]%elem_of_cons]%elem_of_app; [by apply IHl|lia|]. intros Hc.
        apply comp_gt in Hgt; [|done]. apply (comp_lt_irrefl theComp e). eapply (comp_trans theComp); [by apply Hre|].
        by apply (comp_lt_equiv_l theComp y d e Hc).
    + specialize (IHr Hr). destruct (find d r) as [[a y]|].
      * destruct IHr as (? & ? & ?). split_and!; [set_solver|set_solver|done].
      * intros y [Hy|[->|Hy]%elem_of_cons]%elem_of_app; [|lia|by apply IHr]. intros Hc.
        apply (comp_lt_irrefl theComp y). eapply (comp_trans theComp); [by apply Hle|].
        by apply (comp_lt_equiv_r theComp y d e Hc).
    + split_and!; [set_solver +|set_solver +|lia].
Qed.

Lemma find_rep d c par t :
  rep c par t →
  match find d t with Some (a, e) => ∃ n, c !! a = Some n ∧ adata n = e | None => True end.
Proof.
  revert par. induction t as [|x l IHl e b r IHr]; intros par; cbn [find]; [done|]. intros (Hx & Hl & Hr).
  destruct (0 <? theComp e d)%Z; [by eapply IHl|]. destruct (theComp e d <? 0)%Z; [by eapply IHr|]. by eexists.
Qed.

(** A balanced tree is shallow: its height is at most twice the logarithm of
    its number of elements. *)
Lemma avl_height t : avl t → (2 ^ (height t / 2) <= Z.of_nat (length (elems t)) + 1)%Z.
Proof.
  assert (Hs : ∀ h, (0 <= h → 2 ^ ((h + 2) / 2) = 2 * 2 ^ (h / 2))%Z).
  { intros h Hh. replace (h + 2)%Z with (h + 1 * 2)%Z by lia. rewrite Z.div_add by lia.
    rewrite Z.pow_add_r by (try apply Z.div_pos; lia). lia. }
  assert (Hm : ∀ a b, (a <= b → 2 ^ (a / 2) <= 2 ^ (b / 2))%Z).
  { intros a b Hab. apply Z.pow_le_mono_r; [lia|]. apply Z.div_le_mono; lia. }
  induction t as [|x l IHl e b r IHr]; [done|]. intros (Hl & Hr & Hb & Hbb). specialize (IHl Hl). specialize (IHr Hr).
  cbn [height elems]. rewrite length_app. cbn [length]. pose proof (height_nonneg l). pose proof (height_nonneg r).
  set (hm := Z.min (height l) (height r)).
  pose proof (Hm hm (height l) ltac:(lia)). pose proof (Hm hm (height r) ltac:(lia)).
  pose proof (Hm (1 + Z.max (height l) (height r))%Z (hm + 2)%Z ltac:(lia)). rewrite Hs in * by lia. lia.
Qed.

Lemma del_min_some t : t ≠ E → ∃ y d t', del_min t = Some (y, d, t') ∧ y ∈ nodes t ∧ elems t = d :: elems t' ∧
  nodes t ≡ₚ y :: nodes t'.
Proof.
  induction t as [|x l IHl e b r IHr]; [done|]. intros _. cbn. destruct l as [|x' l' e' b' r'].
  - exists x, e, r. cbn. split_and!; [done|set_solver +|done|done].
  - destruct IHl as (y & d & t' & -> & Hy & Ee & Hn); [done|]. exists y, d, (T x t' e b r).
    split_and!; [done|set_solver + Hy|by rewrite Ee|]. cbn [nodes] in *. rewrite Hn. solve_Permutation.
Qed.

(** [Tree_First] and the descent of [Tree_Next] stop at the least element. *)
Lemma go_left_spec m par t fuel y d t' :
  rep (acells m) par t → del_min t = Some (y, d, t') → (height t <= Z.of_nat fuel)%Z →
  go_left fuel (root_of t) m = Ret (Some y, m).
Proof.
  revert par fuel y d t'. induction t as [|x l IHl e b r IHr]; intros par fuel y d t' Hrep; [done|].
  destruct Hrep as (Hx & Hl & Hr). cbn [del_min height]. pose proof (height_nonneg l). pose proof (height_nonneg r).
  intros Hd Hf. destruct fuel as [|fuel]; [lia|]. cbn [go_left root_of]. astep.
  destruct l as [|x' l' e' b' r']; [by cbn in Hd; simplify_eq|].
  destruct (del_min (T x' l' e' b' r')) as [[[y' d'] l'']|] eqn:Ed.
  - simplify_eq. cbn [root_of]. eapply (IHl (Some x)); [done|done|lia].
  - destruct (del_min_some (T x' l' e' b' r')) as (? & ? & ? & Hm & _); [done|]. congruence.
Qed.

(** *** Tree_Next *)

(** The nodes in the order of their elements. *)
Fixpoint inodes t : list loc :=
  match t with E => [] | T a l _ _ r => inodes l ++ a :: inodes r end.

Lemma inodes_nodes t : inodes t ≡ₚ nodes t.
Proof. induction t as [|x l IHl e b r IHr]; cbn; [done|]. rewrite IHl, IHr. solve_Permutation. Qed.

(** The nodes and the elements correspond. *)
Lemma inodes_elems c par t :
  rep c par t → Forall2 (λ a e, ∃ n, c !! a = Some n ∧ adata n = e) (inodes t) (elems t).
Proof.
  revert par. induction t as [|x l IHl e b r IHr]; intros par; cbn; [constructor|]. intros (Hx & Hl & Hr).
  apply Forall2_app; [by eapply IHl|]. constructor; [by eexists|by eapply IHr].
Qed.

Lemma del_min_inodes t y d t' : del_min t = Some (y, d, t') → head (inodes t) = Some y.
Proof.
  revert y d t'. induction t as [|x l IHl e b r IHr]; intros y d t'; cbn; [done|].
  destruct (del_min l) as [[[y' d'] l']|] eqn:Ed.
  - intros [= -> -> <-]. specialize (IHl _ _ _ eq_refl). by destruct (inodes l).
  - intros [= -> -> ->]. destruct l; [done|].
    edestruct (del_min_some (T a l1 d0 b0 l2)) as (? & ? & ? & Hm & _); [done|]. congruence.
Qed.

Definition next_from (gfuel fuel : nat) (a : option loc) : M (avl_mem D) (option loc) :=
  n ← aload a;
  match right n with
  | Some _ => go_left gfuel (right n)
  | None => climb fuel a (parent n)
  end.

Lemma next_spec m t gfuel a (l1 l2 : list loc) : ∀ par,
  rep (acells m) par t → NoDup (nodes t) → (height t <= Z.of_nat gfuel)%Z →
  inodes t = l1 ++ a :: l2 →
  ∃ k, (Z.of_nat k <= height t)%Z ∧ ∀ f, next_from gfuel (k + f) (Some a) m =
    match head l2 with
    | Some s => Ret (Some s, m)
    | None => climb f (root_of t) par m
    end.
Proof.
  revert l1 l2. induction t as [|x l IHl e b r IHr]; intros l1 l2 par; cbn [inodes height].
  { intros _ _ _ Hi. destruct l1; discriminate. }
  intros (Hx & Hl & Hr) Hnd Hf Hi. cbn [nodes] in Hnd. nodes_facts Hnd.
  pose proof (height_nonneg l). pose proof (height_nonneg r).
  assert (Hcase : (∃ l2' : list loc, inodes l = l1 ++ a :: l2' ∧ l2 = l2' ++ x :: inodes r) ∨
                  (a = x ∧ l2 = inodes r) ∨ (∃ l1' : list loc, inodes r = l1' ++ a :: l2)).
  { apply app_eq_inv in Hi as [(k & E1 & E2)|(k & E1 & E2)].
    - destruct k as [|z k]; cbn in E2; simplify_eq; [by right; left|]. left. eauto.
    - destruct k as [|z k]; cbn in E2; simplify_eq; [by right; left|]. right; right. eauto. }
  destruct Hcase as [(l2' & El & ->)|[[-> ->]|(l1' & Er)]].
  - destruct (IHl l1 l2' (Some x)) as (k & Hk & Hn); [done|done|lia|done|]. exists (S k). split; [lia|]. intros f.
    replace (S k + f) with (k + S f) by lia. rewrite Hn. destruct l2' as [|s l2']; [|done]. cbn [head app].
    destruct l as [|y ll d' b' lr]; [by destruct l1|]. cbn [climb root_of]. astep.
    rewrite decide_False; [done|]. intros Heq. destruct r as [|z rl rd rb rr]; [done|]. injection Heq as ->.
    apply (H1 z); set_solver +.
  - exists 0. split; [lia|]. intros f. cbn [Nat.add]. unfold next_from. astep.
    destruct r as [|z rl rd rb rr]; [done|]. cbn [root_of].
    destruct (del_min_some (T z rl rd rb rr)) as (y & d & t' & Hm & _); [done|].
    rewrite (del_min_inodes _ _ _ _ Hm). change (Some z) with (root_of (T z rl rd rb rr)).
    eapply go_left_spec; [done|done|lia].
  - destruct (IHr l1' l2 (Some x)) as (k & Hk & Hn); [done|done|lia|done|]. exists (S k). split; [lia|]. intros f.
    replace (S k + f) with (k + S f) by lia. rewrite Hn. destruct l2 as [|s l2]; [|done]. cbn [head].
    destruct r as [|z rl rd rb rr]; [by destruct l1'|]. cbn [climb root_of]. astep. by rewrite decide_True.
Qed.
End traversals.

(** ** [Tree_Delete] is [del] *)
Section delete.
Context {D : Type}.
Variable theComp : D → D → Z.
Implicit Types (t l r : atree D) (c : gmap loc (avl_node D)) (m : avl_mem D).

(** What tells [splice] which link to the node [y] it has to change. *)
Definition position m (pl : place) (par : option loc) (y : loc) : Prop :=
  match pl with
  | PRoot => par = None ∧ del_root m = Some PRoot
  | PLeft o => par = Some o
  | PRight o => par = Some o ∧ ∀ n, acells m !! o = Some n → left n ≠ Some y
  end.

Lemma set_acells_alter m a n f :
  acells m !! a = Some n → set_acells (alter f a) m = set_acells <[a := f n]> m.
Proof. intros Hn. unfold set_acells. by rewrite (alter_is_insert _ _ _ _ Hn). Qed.

Lemma splice_spec m pl par y l e b r :
  at_place m pl par (T y l e b r) → l = E ∨ r = E → position m pl par y →
  let X := match l with E => r | _ => l end in
  ∃ m', splice (Some y) m = Ret ((), m') ∧ rep (acells m') par X ∧
    changes (nodes (T y l e b r)) pl (root_of X) m m' ∧ acells m' !! y = acells m !! y.
Proof.
  intros Hat Hlr Hpos X. pose proof Hat as Hat'. revert Hat. rotation_start.
  rename H into Hy. assert (rep (acells m) (Some y) X ∧ NoDup (nodes X) ∧ (y ∉ nodes X) ∧ nodes X ⊆ nodes l ++ nodes r)
    as (HX & HndX & HyX & HsX) by (subst X; destruct l; [split_and!; (done || set_solver +)|]; split_and!; (done || set_solver +)).
  assert (HrX : match root_of l with Some _ => root_of l | None => root_of r end = root_of X).
  { subst X. destruct Hlr as [-> | ->]; [done|by destruct l]. }
  clearbody X. unfold splice. astep. rewrite HrX.
  rewrite (bind_ret _ _ _ _ _ (set_parent_if_ok m X (Some y) par HX)).
  set (m1 := set_acells (reparent X par) m).
  assert (Hy1 : acells m1 !! y = acells m !! y) by (by apply lookup_reparent_ne).
  erewrite bind_ret by (apply aload_Some; rewrite Hy1; exact Hy). setters.
  assert (Hh1 : holds m1 pl (Some y)).
  { eapply holds_cells, Hh; [|done]. intros o Ho. apply lookup_reparent_ne. specialize (Hown o Ho). set_solver. }
  assert (Hrep1 : rep (acells m1) par X) by (by eapply rep_reparent).
  assert (Hfin : rep (acells (wp pl (root_of X) m1)) par X ∧
    changes (nodes (T y l e b r)) pl (root_of X) m (wp pl (root_of X) m1) ∧
    acells (wp pl (root_of X) m1) !! y = acells m !! y).
  { split_and!.
    - eapply rep_frame, Hrep1. intros z Hz. apply lookup_wp_ne. intros Ho. apply (Hown _ Ho). set_solver.
    - split; [|by destruct pl..]. intros z Hz. rewrite lookup_wp. f_equal. apply lookup_reparent_ne. cbn in Hz. set_solver.
    - rewrite lookup_wp_ne by done. done. }
  destruct pl as [|o|o]; cbn [position] in Hpos.
  - destruct Hpos as [-> Hdr]. mstep. change (del_root m1) with (del_root m). rewrite Hdr. mstep. by eexists.
  - subst par. destruct Hh1 as (n & Hn & Hln). rewrite (bind_ret _ _ _ _ _ (aload_Some _ _ _ Hn)).
    rewrite decide_True by done. rewrite (aupdate_Some _ _ _ _ Hn). exists (wp (PLeft o) (root_of X) m1).
    split; [|exact Hfin]. cbn [wp]. by rewrite (set_acells_alter _ _ _ _ Hn).
  - destruct Hpos as [-> Hne]. destruct Hh1 as (n & Hn & Hrn). rewrite (bind_ret _ _ _ _ _ (aload_Some _ _ _ Hn)).
    rewrite decide_False.
    + rewrite (aupdate_Some _ _ _ _ Hn). exists (wp (PRight o) (root_of X) m1).
      split; [|exact Hfin]. cbn [wp]. by rewrite (set_acells_alter _ _ _ _ Hn).
    + intros Hly. apply (Hne n); [|done]. rewrite <-Hn. symmetry. apply lookup_reparent_ne.
      specialize (Hown o eq_refl). set_solver.
Qed.

Lemma splice_min_spec t : ∀ m pl par y d t',
  at_place m pl par t → (∀ y, root_of t = Some y → position m pl par y) →
  del_min t = Some (y, d, t') →
  ∃ m', splice (Some y) m = Ret ((), m') ∧ rep (acells m') par t' ∧
    changes (nodes t) pl (root_of t') m m' ∧ acells m' !! y = acells m !! y ∧
    ∃ n, acells m !! y = Some n ∧ adata n = d.
Proof.
  induction t as [|x l IHl e b r IHr]; intros m pl par y d t' Hat Hpos Hd; [done|]. cbn [del_min] in Hd.
  pose proof (ap_rep _ _ _ _ Hat) as (Hx & Hrl & Hrr).
  destruct l as [|x' l' e' b' r'].
  - cbn in Hd. simplify_eq. destruct (splice_spec m pl par y E d b t' Hat) as (m' & ? & ? & ? & ?);
      [by left|by apply Hpos|]. exists m'. split_and!; [done..|]. by eexists.
  - destruct (del_min (T x' l' e' b' r')) as [[[y' d'] l'']|] eqn:Ed; [|by
      edestruct (del_min_some (T x' l' e' b' r')) as (? & ? & ? & Hm & _); [|congruence]].
    simplify_eq. set (l := T x' l' e' b' r') in *.
    destruct (del_min_some l) as (? & ? & ? & Hm & Hyl & _ & Hn); [done|]. rewrite Ed in Hm. simplify_eq.
    destruct (IHl m (PLeft x) (Some x) x0 x1 x2 (at_place_sub_left _ _ _ _ _ _ _ _ Hat)) as (m' & Hr' & Hrep' & Hch & Hsame & Hdat);
      [by intros; cbn|done|]. exists m'. split; [done|].
    destruct Hat as [_ Hh Hnd Hown]. cbn [nodes root_of] in *. destruct Hch as [Hc Hrt Hdr]. nodes_facts Hnd. split; [|split; [|split; [done|by eauto]]].
    + cbn [rep]. split_and!; [|done|].
      * rewrite Hc by done. rewrite Hx. cbn. by rewrite decide_True.
      * eapply rep_frame, Hrr. intros z Hz. rewrite Hc by (intros Hz'; by apply (H1 z)).
        destruct (acells m !! z); [|done]. cbn. rewrite decide_False; [done|]. by intros ->.
    + split; [|by rewrite Hrt; destruct pl; cbn in *|done]. intros z Hz. nodes_facts Hz. rewrite Hc by done.
      destruct (acells m !! z) as [n|] eqn:En; [|done]. cbn. rewrite decide_False by done. by rewrite (place_upd_id m).
Qed.

(** The end of a deletion: the cell is freed and the static reset. *)
Lemma free_spec m y n own pl v m0 :
  acells m !! y = Some n → y ∈ own → changes own pl v m0 m →
  Free_AVL_tree (Some y) m = Ret ((), set_acells (delete y) m) ∧ changes own pl v m0 (set_acells (delete y) m).
Proof.
  intros Hy Hin [Hc Hr Hd]. unfold Free_AVL_tree. rewrite (bind_ret _ _ _ _ _ (aload_Some _ _ _ Hy)). split; [done|].
  split; [|done..]. intros z Hz. cbn. rewrite lookup_delete_ne by (by intros ->). by apply Hc.
Qed.

Lemma rep_delete c par t y : y ∉ nodes t → rep c par t → rep (delete y c) par t.
Proof. intros Hy. apply rep_frame. intros z Hz. apply lookup_delete_ne. by intros ->. Qed.

(** Deleting a root with at most one child. *)
Lemma delete_one_child m pl par x l e b r :
  at_place m pl par (T x l e b r) → l = E ∨ r = E → position m pl par x →
  ∃ m', delete_here pl m = Ret ((0%Z, [e]), set_del_root None m') ∧
    rep (acells m') par (del_root_node x l e b r) ∧
    changes (nodes (T x l e b r)) pl (root_of (del_root_node x l e b r)) m m'.
Proof.
  intros Hat Hlr Hpos. destruct (splice_spec m pl par x l e b r Hat Hlr Hpos) as (m1 & Hr & Hrep & Hch & Hsame).
  pose proof (ap_rep _ _ _ _ Hat) as (Hx & _). pose proof (ap_holds _ _ _ _ Hat) as Hh. unfold delete_here.
  rewrite (bind_ret _ _ _ _ _ (read_place_ok _ _ _ Hh)). cbn [root_of]. astep.
  rewrite (bind_ret _ _ m (Some x) m) by (by destruct Hlr as [-> | ->]; [|destruct l]).
  step_with Hr. rewrite decide_True by done. rewrite mret_bind.
  assert (EX : del_root_node x l e b r = match l with E => r | _ => l end).
  { destruct l; [done|]. by destruct Hlr as [?| ->]. }
  rewrite EX. rewrite Hx in Hsame.
  destruct (free_spec _ _ _ _ _ _ _ Hsame (list_elem_of_here _ _) Hch) as [Hfr Hch'].
  step_with Hfr. mstep. eexists. split; [reflexivity|]. split; [|exact Hch'].
  apply rep_delete; [|done]. pose proof (ap_nodup _ _ _ _ Hat) as Hnd. cbn [nodes] in Hnd. nodes_facts Hnd. by destruct l.
Qed.

(** Deleting a root with two children: its successor takes its place. *)
Lemma delete_two_children m pl par x l e b r :
  at_place m pl par (T x l e b r) → l ≠ E → r ≠ E →
  ∃ m', delete_here pl m = Ret ((0%Z, [e]), set_del_root None m') ∧
    rep (acells m') par (del_root_node x l e b r) ∧
    changes (nodes (T x l e b r)) pl (root_of (del_root_node x l e b r)) m m'.
Proof.
  intros Hat Hl Hr. destruct (del_min_some r Hr) as (y & d & r' & Ed & Hy & _ & Hn).
  pose proof (at_place_sub_right _ _ _ _ _ _ _ _ Hat) as Hatr.
  pose proof (nodes_fuel m par _ (ap_rep _ _ _ _ Hat) (ap_nodup _ _ _ _ Hat)) as Hfuel.
  pose proof (ap_rep _ _ _ _ Hat) as (Hx & Hrl & Hrr). pose proof (ap_holds _ _ _ _ Hat) as Hh.
  pose proof (ap_nodup _ _ _ _ Hat) as Hnd. pose proof (ap_own _ _ _ _ Hat) as Hown. cbn [nodes] in Hnd, Hfuel. nodes_facts Hnd.
  destruct (splice_min_spec r m (PRight x) (Some x) y d r' Hatr) as (m1 & Hs & Hrep1 & Hch1 & Hsame & n & Hyn & Hd); [|done|].
  { intros y' Hy'. split; [done|]. intros n' Hn'. rewrite Hx in Hn'. injection Hn' as <-. cbn. intros Hl'.
    destruct l as [|z]; [done|]. destruct r as [|z']; [done|]. cbn in *. simplify_eq. apply (H1 y'); set_solver +. }
  assert (Hxy : x ≠ y) by (by intros ->).
  unfold delete_here. rewrite (bind_ret _ _ _ _ _ (read_place_ok _ _ _ Hh)). cbn [root_of]. astep.
  assert (Hnext : Tree_Next (Some x) m = Ret (Some y, m)).
  { unfold Tree_Next. mstep. astep. destruct r as [|z rl rd rb rr]; [done|]. cbn [root_of].
    change (Some z) with (root_of (T z rl rd rb rr)). eapply go_left_spec; [done|done|].
    pose proof (height_nodes (T z rl rd rb rr)). rewrite length_cons, length_app in Hfuel. lia. }
  destruct (root_of l) as [zl|] eqn:El; [|by destruct l]. destruct (root_of r) as [zr|] eqn:Er; [|by destruct r].
  step_with Hnext. step_with Hs. rewrite decide_False by congruence.
  rewrite M_assoc. rewrite <-Hsame in Hyn. rewrite (bind_ret _ _ _ _ _ (aload_Some _ _ _ Hyn)).
  destruct Hch1 as [Hc Hrt Hdr].
  assert (Hh1 : holds m1 pl (Some x)).
  { eapply holds_cells, Hh; [|done]. intros o Ho. specialize (Hown o Ho). cbn [nodes] in Hown. nodes_facts Hown.
    rewrite Hc by done. destruct (acells m !! o); [|done]. cbn. by rewrite decide_False. }
  assert (Hx1 : acells m1 !! x = Some (ANode e b (root_of l) (root_of r') par)).
  { rewrite Hc by done. rewrite Hx. cbn. by rewrite decide_True, El. }
  rewrite M_assoc, (bind_ret _ _ _ _ _ (read_place_ok _ _ _ Hh1)).
  rewrite (bind_ret _ _ _ _ _ (aupdate_Some _ _ _ _ Hx1)). setters.
  set (m2 := set_acells _ m1).
  assert (Hch2 : changes (nodes (T x l e b r)) pl (Some x) m m2).
  { split; [|cbn; rewrite Hrt; by destruct pl; cbn in *|done]. intros z Hz. cbn [nodes] in Hz. nodes_facts Hz.
    cbn. rewrite lookup_insert_ne by done. rewrite Hc by done.
    destruct (acells m !! z) as [n'|] eqn:En; [|done]. cbn. rewrite decide_False by done. by rewrite (place_upd_id m). }
  assert (Hy2 : acells m2 !! y = Some n) by (cbn; by rewrite lookup_insert_ne).
  assert (Hyin : y ∈ nodes (T x l e b r)) by (cbn; set_solver + Hy).
  destruct (free_spec _ _ _ _ _ _ _ Hy2 Hyin Hch2) as [Hfr Hch'].
  step_with Hfr. mstep. eexists. split; [reflexivity|].
  assert (Hdel : del_root_node x l e b r = T x l d b r') by (unfold del_root_node; destruct l, r; [done..|by rewrite Ed]).
  rewrite Hdel. split; [|exact Hch'].
  assert (Hyr : (y ∉ nodes r') ∧ (x ∉ nodes r') ∧ nodes r' ⊆ nodes r).
  { rewrite Hn in H2. apply NoDup_cons in H2 as [??]. split_and!; [done| |].
    - intros Hin. apply H3. rewrite Hn. set_solver + Hin.
    - intros z. rewrite Hn. set_solver +. }
  destruct Hyr as (? & ? & ?). cbn [rep]. cbn. rewrite lookup_delete_ne by done. rewrite lookup_insert_eq. split_and!.
  - by rewrite Hd.
  - apply rep_delete; [intros Hin; by apply (H1 y)|]. eapply rep_frame, Hrl. intros z Hz.
    rewrite lookup_insert_ne by (by intros ->). rewrite Hc by (by apply H1).
    destruct (acells m !! z); [|done]. cbn. rewrite decide_False; [done|]. by intros ->.
  - apply rep_delete; [done|]. eapply rep_frame, Hrep1. intros z Hz. apply lookup_insert_ne. by intros ->.
Qed.

(** A change below the node [x], the pointer in [pl] staying the same. *)
Lemma changes_under m m1 pl par x l e b r own pl' w :
  at_place m pl par (T x l e b r) → owner pl' = Some x → own ⊆ nodes l ++ nodes r →
  changes own pl' w m m1 → changes (nodes (T x l e b r)) pl (Some x) m m1.
Proof.
  intros Hat Ho Hsub [Hc Hr Hd]. pose proof (ap_holds _ _ _ _ Hat) as Hh. split; [|rewrite Hr; by destruct pl, pl'; cbn in *|done].
  intros z Hz. cbn [nodes] in Hz. apply not_elem_of_cons in Hz as [Hzx Hz]. rewrite Hc by set_solver.
  destruct (acells m !! z) as [n|] eqn:En; [|done]. cbn. rewrite place_upd_ne by (rewrite Ho; congruence).
  by rewrite (place_upd_id m).
Qed.

Lemma under_left_rep m m1 pl par x l e b r l' :
  at_place m pl par (T x l e b r) → rep (acells m1) (Some x) l' →
  changes (nodes l) (PLeft x) (root_of l') m m1 → rep (acells m1) par (T x l' e b r).
Proof.
  intros [(Hx & Hl & Hr) _ Hnd _] Hl' [Hc _ _]. cbn [nodes] in Hnd. nodes_facts Hnd. cbn [rep]. split_and!; [|done|].
  - rewrite Hc by done. rewrite Hx. cbn. by rewrite decide_True.
  - eapply rep_frame, Hr. intros z Hz. rewrite Hc by (intros Hz'; by apply (H1 z)).
    destruct (acells m !! z); [|done]. cbn. rewrite decide_False; [done|]. by intros ->.
Qed.
Lemma under_right_rep m m1 pl par x l e b r r' :
  at_place m pl par (T x l e b r) → rep (acells m1) (Some x) r' →
  changes (nodes r) (PRight x) (root_of r') m m1 → rep (acells m1) par (T x l e b r').
Proof.
  intros [(Hx & Hl & Hr) _ Hnd _] Hr' [Hc _ _]. cbn [nodes] in Hnd. nodes_facts Hnd. cbn [rep]. split_and!; [| |done].
  - rewrite Hc by done. rewrite Hx. cbn. by rewrite decide_True.
  - eapply rep_frame, Hl. intros z Hz. rewrite Hc by (by apply H1).
    destruct (acells m !! z); [|done]. cbn. rewrite decide_False; [done|]. by intros ->.
Qed.

Lemma Tree_Delete_spec d t : ∀ fuel m pl par,
  at_place m pl par t → length (nodes t) < fuel →
  (∀ y, root_of t = Some y → position m pl par y) → del_root m = Some PRoot →
  match del theComp d t with
  | Some (z, t') => ∃ m', Tree_Delete theComp fuel pl d m = Ret ((0%Z, [z]), set_del_root None m') ∧
      rep (acells m') par t' ∧ changes (nodes t) pl (root_of t') m m'
  | None => Tree_Delete theComp fuel pl d m = Ret ((-1, [])%Z, set_del_root None m)
  end.
Proof.
  induction t as [|x l IHl e b r IHr]; intros fuel m pl par Hat Hf Hpos Hdr;
    (destruct fuel as [|fuel]; [lia|]); pose proof (ap_holds _ _ _ _ Hat) as Hh; cbn [del Tree_Delete].
  - by rewrite (bind_ret _ _ _ _ _ (read_place_ok _ _ _ Hh)).
  - cbn [nodes length] in Hf. rewrite length_app in Hf. pose proof (ap_rep _ _ _ _ Hat) as (Hx & _).
    rewrite (bind_ret _ _ _ _ _ (read_place_ok _ _ _ Hh)). cbn [root_of]. mstep. rewrite Hdr, mret_bind. astep.
    pose proof (ap_nodup _ _ _ _ Hat) as Hnd. cbn [nodes] in Hnd. nodes_facts Hnd.
    destruct (0 <? theComp e d)%Z; [|destruct (theComp e d <? 0)%Z].
    + pose proof (IHl fuel m (PLeft x) (Some x)) as IH.
      assert (Hpl : ∀ y, root_of l = Some y → position m (PLeft x) (Some x) y) by (intros y _; reflexivity).
      destruct (del theComp d l) as [[z l']|].
      * destruct IH as (m' & Hr' & Hrep' & Hch); [by eapply at_place_sub_left|lia|done..|]. exists m'.
        split; [done|]. split; [by eapply under_left_rep|].
        by apply (changes_under m m' pl par x l e b r (nodes l) (PLeft x) (root_of l') Hat eq_refl ltac:(set_solver +)).
      * apply IH; [by eapply at_place_sub_left|lia|done..].
    + pose proof (IHr fuel m (PRight x) (Some x)) as IH.
      assert (Hpr : ∀ y, root_of r = Some y → position m (PRight x) (Some x) y).
      { intros y Hy. split; [done|]. intros n Hn. rewrite Hx in Hn. injection Hn as <-. cbn. intros Hl.
        destruct l as [|z]; [done|]. destruct r as [|z']; [done|]. cbn in *. simplify_eq. apply (H1 y); set_solver +. }
      destruct (del theComp d r) as [[z r']|].
      * destruct IH as (m' & Hr' & Hrep' & Hch); [by eapply at_place_sub_right|lia|done..|]. exists m'.
        split; [done|]. split; [by eapply under_right_rep|].
        by apply (changes_under m m' pl par x l e b r (nodes r) (PRight x) (root_of r') Hat eq_refl ltac:(set_solver +)).
      * apply IH; [by eapply at_place_sub_right|lia|done..].
    + destruct (decide (root_of l = None)) as [El|El]; [|destruct (decide (root_of r = None)) as [Er|Er]].
      * apply (delete_one_child m pl par x l e b r Hat); [left; by destruct l|by apply Hpos].
      * apply (delete_one_child m pl par x l e b r Hat); [right; by destruct r|by apply Hpos].
      * apply (delete_two_children m pl par x l e b r Hat); by intros ->.
Qed.

Lemma del_root_nodes x l e b r : ∃ y, nodes (T x l e b r) ≡ₚ y :: nodes (del_root_node x l e b r).
Proof.
  unfold del_root_node. destruct l as [|x1 l1 e1 b1 r1]; [by exists x|]. destruct r as [|x2 l2 e2 b2 r2].
  - exists x. cbn. by rewrite app_nil_r.
  - edestruct (del_min_some (T x2 l2 e2 b2 r2)) as (y & dy & t' & Hm & _ & _ & Hn); [done|]. rewrite Hm. exists y.
    cbn [nodes] in *. rewrite Hn. solve_Permutation.
Qed.
Lemma del_nodes d t z t' : del theComp d t = Some (z, t') → ∃ y, nodes t ≡ₚ y :: nodes t'.
Proof.
  revert z t'. induction t as [|x l IHl e b r IHr]; intros z t'; cbn [del]; [done|].
  destruct (0 <? theComp e d)%Z; [|destruct (theComp e d <? 0)%Z].
  - destruct (del theComp d l) as [[z' l']|]; [|done]. intros [= -> <-]. destruct (IHl _ _ eq_refl) as [y Hy].
    exists y. cbn. rewrite Hy. solve_Permutation.
  - destruct (del theComp d r) as [[z' r']|]; [|done]. intros [= -> <-]. destruct (IHr _ _ eq_refl) as [y Hy].
    exists y. cbn. rewrite Hy. solve_Permutation.
  - intros [= -> <-]. apply del_root_nodes.
Qed.
Lemma remove_first_sorted (R : D → D → Prop) (p : D → bool) (xs : list D) z xs' :
  StronglySorted R xs → remove_first p xs = Some (z, xs') → StronglySorted R xs'.
Proof.
  intros Hs. revert z xs'. induction Hs as [|x xs Hs IH Hf]; intros z xs'; cbn; [done|].
  destruct (p x); [by intros [= _ <-]|]. destruct (remove_first p xs) as [[z' zs]|] eqn:E0; [|done].
  intros [= _ <-]. constructor; [by eapply IH|]. rewrite Forall_forall in Hf |- *. intros y Hy.
  apply Hf. by eapply (remove_first_sub p xs).
Qed.

Lemma del_elems `{!Comparator theComp} d t :
  bst theComp t →
  match del theComp d t with
  | Some (z, t') => remove_first (cmp_eq theComp d) (elems t) = Some (z, elems t')
  | None => remove_first (cmp_eq theComp d) (elems t) = None
  end.
Proof.
  induction t as [|x l IHl e b r IHr]; cbn [del]; unfold bst; cbn [elems]; [done|].
  intros (Hl & Hr & Hle & Hre)%sorted_app; [|done]. rewrite Forall_forall in Hle, Hre.
  assert (Happ : ∀ (l1 l2 : list D), remove_first (cmp_eq theComp d) (l1 ++ l2) =
    match remove_first (cmp_eq theComp d) l1 with
    | Some (z, zs) => Some (z, zs ++ l2)
    | None => match remove_first (cmp_eq theComp d) l2 with
              | Some (z, zs) => Some (z, l1 ++ zs) | None => None end
    end).
  { intros l1 l2. induction l1 as [|y l1 IH]; cbn; [by destruct (remove_first _ l2) as [[??]|]|].
    destruct (cmp_eq theComp d y); [done|]. rewrite IH. destruct (remove_first _ l1) as [[??]|]; [done|].
    by destruct (remove_first _ l2) as [[??]|]. }
  assert (Hnone : ∀ xs : list D, (∀ y, y ∈ xs → theComp y d ≠ 0%Z) → remove_first (cmp_eq theComp d) xs = None).
  { intros xs. induction xs as [|y xs IH]; cbn; intros Hxs; [done|]. unfold cmp_eq at 1.
    destruct (Z.eqb_spec (theComp d y) 0) as [E0|]; [|rewrite IH; [done|]; intros; apply Hxs; set_solver].
    apply comp_eq in E0; [|done]. exfalso. apply (Hxs y); [set_solver +|done]. }
  rewrite Happ. destruct (Z.ltb_spec 0 (theComp e d)) as [Hgt|Hngt]; [|destruct (Z.ltb_spec (theComp e d) 0) as [Hlt|Hnlt]].
  - specialize (IHl Hl). apply comp_gt in Hgt; [|done]. rewrite (Hnone (e :: elems r)).
    + destruct (del theComp d l) as [[z l']|]; by rewrite IHl.
    + intros y [->|Hy]%elem_of_cons Hc.
      * apply (comp_lt_equiv_r theComp e d d Hc), comp_lt_irrefl in Hgt; done.
      * apply (comp_lt_irrefl theComp e). eapply (comp_trans theComp); [by apply Hre|].
        by apply (comp_lt_equiv_l theComp y d e Hc).
  - specialize (IHr Hr). rewrite (Hnone (elems l)).
    + assert (Hce : cmp_eq theComp d e = false).
      { unfold cmp_eq. destruct (Z.eqb_spec (theComp d e) 0) as [E0|]; [|done]. apply comp_eq in E0; [lia|done]. }
      cbn [remove_first]. rewrite Hce. destruct (del theComp d r) as [[z r']|]; by rewrite IHr.
    + intros y Hy Hc. apply (comp_lt_irrefl theComp y). eapply (comp_trans theComp); [by apply Hle|].
      by apply (comp_lt_equiv_r theComp y d e Hc).
  - assert (E0 : theComp e d = 0%Z) by lia. rewrite (Hnone (elems l)).
    + cbn [remove_first]. unfold cmp_eq at 1. rewrite (proj1 (comp_eq theComp e d) E0). change (0 =? 0)%Z with true.
      do 2 f_equal. unfold del_root_node. destruct l as [|x1 l1 e1 b1 r1]; [done|]. destruct r as [|x2 l2 e2 b2 r2]; [by rewrite app_nil_r|].
      edestruct (del_min_some (T x2 l2 e2 b2 r2)) as (y & dy & t' & Hm & _ & Ee & _); [done|]. rewrite Hm. cbn [elems] in *. by rewrite Ee.
    + intros y Hy Hc. apply (comp_lt_irrefl theComp y). eapply (comp_trans theComp); [by apply Hle|].
      unfold comp_lt. assert (Hye : theComp y e = 0%Z); [|pose proof (Hle y Hy) as Hlt; unfold comp_lt in Hlt; lia].
      apply comp_eq in E0; [|done]. pose proof (comp_equiv theComp y d e Hc) as Hs. rewrite E0 in Hs. destruct (theComp y e); done.
Qed.
End delete.

(** ** [Tree_Destroy] *)
Section destroy.
Context {D : Type}.
Implicit Types (t l r : atree D) (m : avl_mem D).

Fixpoint postorder t : list D :=
  match t with E => [] | T _ l d _ r => postorder l ++ postorder r ++ [d] end.

Lemma postorder_elems t : postorder t ≡ₚ elems t.
Proof. induction t as [|x l IHl e b r IHr]; cbn; [done|]. rewrite IHl, IHr. solve_Permutation. Qed.

Lemma place_upd_twice pl v w z (n : avl_node D) : place_upd pl v z (place_upd pl w z n) = place_upd pl v z n.
Proof. destruct pl; cbn; [done|..]; by case_decide. Qed.

Lemma Tree_Destroy_spec t : ∀ fuel m pl par,
  at_place m pl par t → length (nodes t) < fuel →
  ∃ m', Tree_Destroy fuel pl m = Ret (postorder t, m') ∧ changes (nodes t) pl None m m' ∧
    (∀ a, a ∈ nodes t → acells m' !! a = None).
Proof.
  induction t as [|x l IHl e b r IHr]; intros fuel m pl par Hat Hf; (destruct fuel as [|fuel]; [lia|]);
    pose proof (ap_holds _ _ _ _ Hat) as Hh; cbn [Tree_Destroy]; rewrite (bind_ret _ _ _ _ _ (read_place_ok _ _ _ Hh)); cbn [root_of].
  { exists m. split; [done|]. split; [by apply changes_refl|]. cbn. set_solver +. }
  cbn [nodes length] in Hf. rewrite length_app in Hf.
  pose proof (ap_rep _ _ _ _ Hat) as (Hx & Hrl & Hrr). pose proof (ap_nodup _ _ _ _ Hat) as Hnd. cbn [nodes] in Hnd. nodes_facts Hnd.
  destruct (IHl fuel m (PLeft x) (Some x)) as (m1 & Hr1 & [Hc1 Hrt1 Hd1] & Hf1); [by eapply at_place_sub_left|lia|].
  assert (Hx1 : acells m1 !! x = Some (ANode e b None (root_of r) par)).
  { rewrite Hc1 by done. rewrite Hx. cbn. by rewrite decide_True. }
  assert (Hrr1 : rep (acells m1) (Some x) r).
  { eapply rep_frame, Hrr. intros z Hz. rewrite Hc1 by (intros Hz'; by apply (H1 z)).
    destruct (acells m !! z); [|done]. cbn. rewrite decide_False; [done|]. by intros ->. }
  destruct (IHr fuel m1 (PRight x) (Some x)) as (m2 & Hr2 & [Hc2 Hrt2 Hd2] & Hf2); [|lia|].
  { split; [done| |done|by intros o [= ->]]. by eexists. }
  assert (Hx2 : acells m2 !! x = Some (ANode e b None None par)).
  { rewrite Hc2 by done. rewrite Hx1. cbn. by rewrite decide_True. }
  step_with Hr1. step_with Hr2. rewrite (bind_ret _ _ _ _ _ (aload_Some _ _ _ Hx2)).
  unfold Free_AVL_tree. rewrite M_assoc, (bind_ret _ _ _ _ _ (aload_Some _ _ _ Hx2)). mstep.
  set (m3 := set_acells (delete x) m2).
  assert (Hz3 : ∀ z, z ∉ x :: nodes l ++ nodes r → acells m3 !! z = acells m !! z).
  { intros z [Hzx [Hzl Hzr]%not_elem_of_app]%not_elem_of_cons. cbn. rewrite lookup_delete_ne by done.
    rewrite Hc2, Hc1 by done. destruct (acells m !! z); [|done]. cbn. by rewrite !decide_False. }
  assert (Hh3 : holds m3 pl (Some x)).
  { eapply holds_cells, Hh; [|intros _; cbn; by rewrite Hrt2, Hrt1]. intros o Ho. apply Hz3, (ap_own _ _ _ _ Hat o Ho). }
  rewrite (bind_ret _ _ _ _ _ (write_place_ok _ _ _ None Hh3)). eexists. split; [reflexivity|]. split; [split|].
  - intros z Hz. rewrite lookup_wp. by rewrite Hz3.
  - destruct pl; cbn; [done|by rewrite Hrt2, Hrt1..].
  - destruct pl; cbn; by rewrite Hd2, Hd1.
  - intros a Ha. rewrite lookup_wp_ne by (intros Ho; by apply (ap_own _ _ _ _ Hat a Ho)). cbn.
    cbn [nodes] in Ha. apply elem_of_cons in Ha as [->|[Ha|Ha]%elem_of_app]; [by rewrite lookup_delete_eq|..].
    + rewrite lookup_delete_ne by (by intros ->). rewrite Hc2 by (by apply H1). by rewrite Hf1.
    + rewrite lookup_delete_ne by (by intros ->). by apply Hf2.
Qed.
End destroy.

(** ** Properties *)

(** A tree variable in a coherent state: the statics between two calls are
    NULL, except that [parent] may be stale when the tree is not empty. *)
Record tree_ok {D} (theComp : D → D → Z) (m : avl_mem D) (t : atree D) : Prop := {
  to_at : at_place m PRoot None t;
  to_bst : bst theComp t;
  to_parent : t = E → add_parent m = None;
  to_del : del_root m = None;
}.

(** C2. [Tree_Add] inserts into a balanced search tree: it returns 0, the
    tree stays a search tree with exact parent pointers and balance fields,
    every node's subtrees differ in height by one at most, and its elements
    are the old ones with the new datum at its place; when an equal element is
    present it returns -1 and leaves the heap as it was.  It never reaches the
    error exit of its left branch or a NULL pointer, and cells that are not
    the tree's keep their content. *)
Theorem tree_add_refines {D} (uninit : avl_node D) malloc (theComp : D → D → Z)
    (Hcomp : Comparator theComp) (m : avl_mem D) (t : atree D) (d : D) (a : loc)
    (Hok : tree_ok theComp m t) (Havl : avl t)
    (Hm : malloc (acells m) = Some a) (Ha : acells m !! a = None) :
  ∃ r m' t', Tree_Add uninit malloc theComp (S (length (nodes t))) PRoot d m = Ret (r, m') ∧
    tree_ok theComp m' t' ∧ avl t' ∧
    (∀ b, b ∉ a :: nodes t → acells m' !! b = acells m !! b) ∧
    ((r = 0%Z ∧ elems t' = insert_sorted (cmp_le theComp) d (elems t) ∧ (∀ e, e ∈ elems t → theComp e d ≠ 0%Z)) ∨
     (r = (-1)%Z ∧ t' = t ∧ acells m' = acells m ∧ ∃ e, e ∈ elems t ∧ theComp e d = 0%Z)).
Proof.
  destruct Hok as [Hat Hbst Hpar Hdel].
  pose proof (Tree_Add_spec uninit malloc theComp a d t (S (length (nodes t))) m PRoot None Havl Hat
    ltac:(lia) Hm Ha Hpar) as Hs.
  pose proof (ins_none theComp a d t Hbst) as Hnone.
  destruct (ins theComp a d t) as [[t' g]|] eqn:Ei.
  - destruct Hs as (m' & Hr & Hrep & [Hc Hrt Hd] & Hg & Hp). exists 0%Z, m', t'. split; [done|].
    assert (Hne : ∀ e, e ∈ elems t → theComp e d ≠ 0%Z) by (intros e He Hc'; by assert (Some (t', g) = None) by (apply Hnone; eauto)).
    pose proof (ins_elems theComp a d t t' g Hbst Ei) as He.
    split; [split|split; [by eapply ins_avl|split]].
    + split; [done|done| |done]. rewrite (ins_nodes theComp a d t t' g Ei). apply NoDup_cons. split; [|apply Hat].
      intros Hin. destruct (rep_lookup _ _ _ _ (ap_rep _ _ _ _ Hat) Hin). congruence.
    + unfold bst. rewrite He. by apply insert_sorted_sorted.
    + done.
    + congruence.
    + intros b Hb. rewrite Hc by done. cbn. by destruct (acells m !! b).
    + by left.
  - destruct Hs as (m' & Hr & Hc & Hrt & Hd). exists (-1)%Z, m', t. split; [done|].
    destruct (proj1 Hnone eq_refl) as (e & He & Hcmp).
    split; [split|split; [done|split]].
    + by apply (at_place_statics m).
    + done.
    + intros ->. by apply elem_of_nil in He.
    + congruence.
    + intros b _. by rewrite Hc.
    + right. split_and!; eauto.
Qed.

(** [Tree_Search] returns the node of an element that compares equal, or
    NULL exactly when there is none; on a balanced tree of [n] elements it
    visits no more than [2 log2 (n + 1) + 2] nodes. *)
Theorem tree_search_spec {D} (theComp : D → D → Z) (Hcomp : Comparator theComp)
    (m : avl_mem D) (t : atree D) (d : D) (fuel : nat) (Hok : tree_ok theComp m t) (Havl : avl t)
    (Hf : (2 * Z.log2 (Z.of_nat (length (elems t)) + 1) + 1 < Z.of_nat fuel)%Z) :
  ∃ p, Tree_Search_loop theComp fuel (aroot m) d m = Ret (p, m) ∧
    match p with
    | Some a => ∃ n, acells m !! a = Some n ∧ adata n ∈ elems t ∧ theComp (adata n) d = 0%Z
    | None => ∀ e, e ∈ elems t → theComp e d ≠ 0%Z
    end.
Proof.
  destruct Hok as [Hat Hbst _ _]. pose proof (ap_holds _ _ _ _ Hat) as Hh. cbn in Hh. rewrite Hh.
  exists (fst <$> find theComp d t). split.
  - eapply search_find; [apply Hat|]. pose proof (avl_height t Havl) as Hlog. pose proof (height_nonneg t) as H0.
    apply Z.log2_le_mono in Hlog. rewrite Z.log2_pow2 in Hlog by (apply Z.div_pos; lia).
    pose proof (Z.div_mod (height t) 2). pose proof (Z.mod_pos_bound (height t) 2). lia.
  - pose proof (find_elems theComp d t Hbst) as Hfe. pose proof (find_rep theComp d (acells m) None t (ap_rep _ _ _ _ Hat)) as Hfr.
    destruct (find theComp d t) as [[a e]|]; cbn; [|done]. destruct Hfr as (n & Hn & <-). exists n. tauto.
Qed.

(** C29. [Tree_Delete] removes the element that compares equal, passes it to
    the deletor once and returns 0, or returns -1 and changes nothing; the
    tree stays a search tree with exact parent pointers, and no cell of
    another structure is touched.  (It does not maintain the balance fields.) *)
Theorem tree_delete_refines {D} (theComp : D → D → Z) (Hcomp : Comparator theComp)
    (m : avl_mem D) (t : atree D) (d : D) (Hok : tree_ok theComp m t) :
  ∃ r nuked m' t', Tree_Delete theComp (S (length (nodes t))) PRoot d m = Ret ((r, nuked), m') ∧
    at_place m' PRoot None t' ∧ bst theComp t' ∧ del_root m' = None ∧
    (∀ b, b ∉ nodes t → acells m' !! b = acells m !! b) ∧
    match remove_first (cmp_eq theComp d) (elems t) with
    | Some (z, xs) => r = 0%Z ∧ nuked = [z] ∧ elems t' = xs
    | None => r = (-1)%Z ∧ nuked = [] ∧ t' = t
    end.
Proof.
  destruct Hok as [Hat Hbst _ Hdel]. pose proof (del_elems theComp d t Hbst) as He.
  set (m0 := set_del_root (Some PRoot) m). assert (Hat0 : at_place m0 PRoot None t) by (by apply (at_place_statics m)).
  assert (Hroot : t ≠ E → Tree_Delete theComp (S (length (nodes t))) PRoot d m =
    Tree_Delete theComp (S (length (nodes t))) PRoot d m0).
  { intros Hne. destruct t as [|x l e b r]; [done|]. cbn [Tree_Delete nodes length read_place].
    pose proof (ap_holds _ _ _ _ Hat) as Hh. cbn in Hh. mstep. rewrite Hh. cbn [root_of]. mstep. rewrite Hdel. mstep.
    mstep. rewrite (Hh : aroot m0 = _). cbn [root_of]. mstep. done. }
  pose proof (Tree_Delete_spec theComp d t (S (length (nodes t))) m0 PRoot None Hat0 ltac:(lia)) as Hs.
  destruct (del theComp d t) as [[z t']|] eqn:Ed.
  - destruct Hs as (m1 & Hr & Hrep & [Hc Hrt Hd]); [done..|]. exists 0%Z, [z], (set_del_root None m1), t'. rewrite He.
    split; [rewrite Hroot; [done|by intros ->]|]. split; [split|].
    + done.
    + done.
    + destruct (del_nodes theComp d t z t' Ed) as [y Hy]. pose proof (ap_nodup _ _ _ _ Hat) as Hnd. rewrite Hy in Hnd. by inversion Hnd.
    + done.
    + split; [by eapply remove_first_sorted|]. split; [done|]. split; [|done].
      intros b Hb. cbn. rewrite Hc by done. by destruct (acells m0 !! b) eqn:E0; cbn in *; rewrite E0.
  - exists (-1)%Z, [], (set_del_root None m), t. rewrite He. destruct (decide (root_of t = None)) as [Et|Et].
    + destruct t; [|done]. split_and!; try done; [|by apply (at_place_statics m)].
      cbn [Tree_Delete read_place]. mstep. pose proof (ap_holds _ _ _ _ Hat) as Hh. cbn in Hh. by rewrite Hh.
    + split; [rewrite Hroot by (by intros ->); by rewrite Hs|]. split_and!; try done. by apply (at_place_statics m).
Qed.

(** [Tree_First] and [Tree_Next] enumerate the tree: the first node is
    that of the least element, the successor of each node is the next one in
    the order of the elements, and the last node has none. *)
Theorem tree_next_inorder {D} (m : avl_mem D) (t : atree D) (Hat : at_place m PRoot None t) :
  Forall2 (λ a e, ∃ n, acells m !! a = Some n ∧ adata n = e) (inodes t) (elems t) ∧
  Tree_First (aroot m) m = Ret (head (inodes t), m) ∧
  ∀ l1 a l2, inodes t = l1 ++ a :: l2 → Tree_Next (Some a) m = Ret (head l2, m).
Proof.
  pose proof (ap_rep _ _ _ _ Hat) as Hrep. pose proof (ap_holds _ _ _ _ Hat) as Hh. cbn in Hh.
  pose proof (nodes_fuel m None t Hrep (ap_nodup _ _ _ _ Hat)) as Hfuel. pose proof (height_nodes t) as Hht.
  split; [by eapply inodes_elems|]. split.
  - rewrite Hh. destruct t as [|x l e b r]; [done|]. cbn [Tree_First root_of]. mstep.
    destruct (del_min_some (T x l e b r)) as (y & d & t' & Hm & _); [done|].
    rewrite (del_min_inodes _ _ _ _ Hm). eapply (go_left_spec m None (T x l e b r)); [done|done|lia].
  - intros l1 a l2 Hi.
    destruct (next_spec m t (avl_fuel m) a l1 l2 None Hrep (ap_nodup _ _ _ _ Hat) ltac:(lia) Hi) as (k & Hk & Hn).
    specialize (Hn (avl_fuel m - k)). replace (k + (avl_fuel m - k)) with (avl_fuel m) in Hn by lia.
    unfold Tree_Next. mstep. unfold next_from in Hn. rewrite Hn. destruct l2; [|done]. by destruct (avl_fuel m - k).
Qed.

(** ** Concrete instances *)

(** An allocator: the address above all cells. *)
Definition demo_malloc {D} (c : gmap loc (avl_node D)) : option loc :=
  Some (map_fold (λ a _ n, Nat.max (S a) n) 0 c).
Definition demo_node : avl_node Z := ANode 0%Z 0%Z None None None.

#[export] Instance Zsub_comparator : Comparator Z.sub.
Proof.
  split.
  - intros x y. rewrite <-Z.sgn_opp. f_equal. lia.
  - intros x y z. lia.
  - intros x y z Hxy. f_equal. lia.
Qed.

(** The tree of the elements 2, 5 and 9, at the addresses 1, 0 and 2. *)
Definition demo_tree : atree Z := (T 0 (T 1 E 2 0 E) 5 0 (T 2 E 9 0 E))%Z.
Definition demo_tree_mem : avl_mem Z :=
  AMem (<[0 := ANode 5%Z 0%Z (Some 1) (Some 2) None]> (<[1 := ANode 2%Z 0%Z None None (Some 0)]>
       (<[2 := ANode 9%Z 0%Z None None (Some 0)]> ∅))) (Some 0) false None None.

Lemma demo_tree_ok : tree_ok Z.sub demo_tree_mem demo_tree.
Proof.
  split; [split| | |].
  - cbn. split_and!; reflexivity.
  - reflexivity.
  - by apply (bool_decide_unpack _).
  - by intros o.
  - unfold bst, comp_lt. cbn. repeat constructor; lia.
  - done.
  - done.
Qed.
Lemma demo_tree_avl : avl demo_tree.
Proof. cbn. split_and!; (done || lia). Qed.

Lemma tree_add_refines_witness :
  ∃ r m' t', Tree_Add demo_node demo_malloc Z.sub 4 PRoot 7%Z demo_tree_mem = Ret (r, m') ∧
    tree_ok Z.sub m' t' ∧ avl t' ∧
    (∀ b, b ∉ 3 :: nodes demo_tree → acells m' !! b = acells demo_tree_mem !! b) ∧
    ((r = 0%Z ∧ elems t' = insert_sorted (cmp_le Z.sub) 7%Z (elems demo_tree) ∧ (∀ e, e ∈ elems demo_tree → (e - 7)%Z ≠ 0%Z)) ∨
     (r = (-1)%Z ∧ t' = demo_tree ∧ acells m' = acells demo_tree_mem ∧ ∃ e, e ∈ elems demo_tree ∧ (e - 7)%Z = 0%Z)).
Proof.
  apply (tree_add_refines demo_node demo_malloc Z.sub Zsub_comparator demo_tree_mem demo_tree 7%Z 3);
    [apply demo_tree_ok|apply demo_tree_avl|reflexivity|reflexivity].
Defined.

Lemma tree_search_spec_witness :
  ∃ p, Tree_Search_loop Z.sub 6 (Some 0) 9%Z demo_tree_mem = Ret (p, demo_tree_mem) ∧
    match p with
    | Some a => ∃ n, acells demo_tree_mem !! a = Some n ∧ adata n ∈ elems demo_tree ∧ (adata n - 9 = 0)%Z
    | None => ∀ e, e ∈ elems demo_tree → (e - 9)%Z ≠ 0%Z
    end.
Proof.
  apply (tree_search_spec Z.sub Zsub_comparator demo_tree_mem demo_tree 9%Z 6);
    [apply demo_tree_ok|apply demo_tree_avl|vm_compute; reflexivity].
Defined.

Lemma tree_delete_refines_witness :
  ∃ r nuked m' t', Tree_Delete Z.sub 4 PRoot 5%Z demo_tree_mem = Ret ((r, nuked), m') ∧
    at_place m' PRoot None t' ∧ bst Z.sub t' ∧ del_root m' = None ∧
    (∀ b, b ∉ nodes demo_tree → acells m' !! b = acells demo_tree_mem !! b) ∧
    match remove_first (cmp_eq Z.sub 5%Z) (elems demo_tree) with
    | Some (z, xs) => r = 0%Z ∧ nuked = [z] ∧ elems t' = xs
    | None => r = (-1)%Z ∧ nuked = [] ∧ t' = demo_tree
    end.
Proof.
  apply (tree_delete_refines Z.sub Zsub_comparator demo_tree_mem demo_tree 5%Z); apply demo_tree_ok.
Defined.

Lemma tree_next_inorder_witness :
  Forall2 (λ a e, ∃ n, acells demo_tree_mem !! a = Some n ∧ adata n = e) (inodes demo_tree) (elems demo_tree) ∧
  Tree_First (Some 0) demo_tree_mem = Ret (head (inodes demo_tree), demo_tree_mem) ∧
  ∀ l1 a l2, inodes demo_tree = l1 ++ a :: l2 → Tree_Next (Some a) demo_tree_mem = Ret (head l2, demo_tree_mem).
Proof. apply (tree_next_inorder demo_tree_mem demo_tree), demo_tree_ok. Defined.

(** *** Behaviours outside the theorems' hypotheses *)
Definition tree_adds (ds : list Z) : M (avl_mem Z) () :=
  foldr (λ d k, _ ← Tree_Add demo_node demo_malloc Z.sub 50 PRoot d; k) (mret ()) ds.
Definition tree_dels (ds : list Z) : M (avl_mem Z) () :=
  foldr (λ d k, _ ← Tree_Delete Z.sub 50 PRoot d; k) (mret ()) ds.
Definition empty_tree_mem : avl_mem Z := AMem ∅ None false None None.
Definition outcome_tag {A} (o : outcome A) : option Z :=
  match o with Ret _ => None | Exit c => Some c | Crash => Some (-2) | Stuck => Some (-3) end%Z.

(** A duplicate leaves the static [parent] set: when the tree is emptied and
    used again, its new root has a stale parent, so that deleting it does not
    clear the root variable, which the next call dereferences. *)
Example stale_parent_crash :
  outcome_tag ((_ ← tree_adds [1; 2; 2]; _ ← tree_dels [2; 1]; _ ← tree_adds [3]; _ ← tree_dels [3]; tree_adds [4])%Z empty_tree_mem)
  = Some (-2)%Z.
Proof. vm_compute. reflexivity. Qed.

(** [Tree_Delete] leaves the balances of the ancestors as they were, and the
    next insertions trust them: inserting, deleting and inserting the same
    element again ends the process. *)
Example stale_balance_exit :
  outcome_tag ((_ ← tree_adds [2; 1]; _ ← tree_dels [1]; tree_adds [1])%Z empty_tree_mem) = Some 1%Z.
Proof. vm_compute. reflexivity. Qed.

(** On the right the same sequence only leaves a wrong balance behind. *)
Example stale_balance_right :
  outcome_tag ((_ ← tree_adds [1; 2]; _ ← tree_dels [2]; tree_adds [2])%Z empty_tree_mem) = None.
Proof. vm_compute. reflexivity. Qed.
