(* ===== verification/SockIO.v ===== *)
(** * Sockets (client_lib/src/utils.c, lines 303-675)

    The socket routines against an operating system that answers every call
    as it likes: the answers of the system calls are read from scripts, bytes
    written are appended to a wire, bytes read come from an input stream, and
    a script that is used up leaves the process blocked ([Stuck]).  A
    transfer never moves more than what was asked for. *)

From S2P Require Import Prelude CString.
Open Scope Z_scope.

(** ** The operating system *)

Inductive errno := EINTR | EAGAIN | EWOULDBLOCK | EOTHER (e : Z).
(** EAGAIN and EWOULDBLOCK are the same number. *)
Definition is_eagain (e : errno) : bool :=
  match e with EAGAIN | EWOULDBLOCK => true | _ => false end.
Definition is_eintr (e : errno) : bool := match e with EINTR => true | _ => false end.

(** An answer to [read] or [write]: the kernel is ready to move at most [n]
    bytes, or the call fails.  An answer to [select]. *)
Inductive xfer := Moved (n : nat) | Failed (e : errno).
Inductive sel := Ready | TimedOut | SelFailed (e : errno).

Record io := Io {
  xfers : list xfer;
  sels : list sel;
  wire : bytes;      (* what has been written *)
  input : bytes;     (* what can still be read *)
}.
Definition with_xfers x (w : io) := Io x (sels w) (wire w) (input w).
Definition with_sels x (w : io) := Io (xfers w) x (wire w) (input w).
Definition with_wire x (w : io) := Io (xfers w) (sels w) x (input w).
Definition with_input x (w : io) := Io (xfers w) (sels w) (wire w) x.

Abbreviation IO := (M io).

(** [write(s, data, n)]: the result and [errno]. *)
Definition sys_write (data : bytes) : IO (Z * errno) := λ w,
  match xfers w with
  | [] => Stuck
  | Moved k :: r =>
      let n := (k `min` length data)%nat in
      Ret ((Z.of_nat n, EOTHER 0), with_wire (wire w ++ take n data) (with_xfers r w))
  | Failed e :: r => Ret ((-1, e), with_xfers r w)
  end.

(** [read(s, buf, n)]: the result, [errno] and the bytes read. *)
Definition sys_read (n : nat) : IO (Z * errno * bytes) := λ w,
  match xfers w with
  | [] => Stuck
  | Moved k :: r =>
      let got := take (k `min` n) (input w) in
      Ret ((Z.of_nat (length got), EOTHER 0, got), with_input (drop (length got) (input w)) (with_xfers r w))
  | Failed e :: r => Ret ((-1, e, []), with_xfers r w)
  end.

(** [select] on one descriptor. *)
Definition sys_select : IO (Z * errno) := λ w,
  match sels w with
  | [] => Stuck
  | Ready :: r => Ret ((1, EOTHER 0), with_sels r w)
  | TimedOut :: r => Ret ((0, EOTHER 0), with_sels r w)
  | SelFailed e :: r => Ret ((-1, e), with_sels r w)
  end.

Definition transient (ret : Z) (e : errno) : bool := (ret =? -1) && (is_eagain e || is_eintr e).

(** ** Complete transfers *)

(** [len] is the length of the data, or -1 for a C string, which ends at the
    first NUL of the list or, if there is none, with a NUL behind it. *)
Definition data_len (data : bytes) (len : Z) : Z :=
  if len =? -1 then Z.of_nat (length (c_str data)) else len.

Fixpoint correct_write_loop (fuel : nat) (data : bytes) (len sofar : Z) : IO Z :=
  match fuel with
  | O => stuck
  | S fuel' =>
      if sofar =? len then mret len
      else
        '(ret, e) ← sys_write (take (Z.to_nat (len - sofar)) (drop (Z.to_nat sofar) data));
        if ret <=? 0 then
          if transient ret e then correct_write_loop fuel' data len sofar else mret ret
        else correct_write_loop fuel' data len (sofar + ret)
  end.

(** Every turn consumes one answer of the script. *)
Definition io_fuel (w : io) : nat := S (length (xfers w) + length (sels w)).

Definition correct_write (data : bytes) (len : Z) : IO Z :=
  w ← get;
  correct_write_loop (io_fuel w) data (data_len data len) 0.

(** The result and [*timed_out]. *)
Fixpoint correct_write_to_loop (fuel : nat) (data : bytes) (len sofar : Z) : IO (Z * Z) :=
  match fuel with
  | O => stuck
  | S fuel' =>
      if sofar =? len then mret (len, 0)
      else
        '(count, e) ← sys_select;
        if count =? -1 then
          if negb (is_eintr e) then mret (count, 0) else correct_write_to_loop fuel' data len sofar
        else if count =? 0 then mret (sofar, 1)
        else
          '(ret, e) ← sys_write (take (Z.to_nat (len - sofar)) (drop (Z.to_nat sofar) data));
          if ret <=? 0 then
            if transient ret e then correct_write_to_loop fuel' data len sofar else mret (ret, 0)
          else correct_write_to_loop fuel' data len (sofar + ret)
  end.
Definition correct_write_to (data : bytes) (len : Z) : IO (Z * Z) :=
  w ← get;
  correct_write_to_loop (io_fuel w) data (data_len data len) 0.

(** The buffer is returned with the result: [data] with the bytes read
    stored from its start; storing past its end is a [Crash]. *)
Definition store_at (data : bytes) (sofar : nat) (got : bytes) : outcome bytes :=
  if decide (sofar + length got <= length data)%nat
  then Ret (take sofar data ++ got ++ drop (sofar + length got) data) else Crash.
Definition lift_o {A} (o : outcome A) : IO A := λ w, a ← o; Ret (a, w).

Fixpoint correct_read_loop (fuel : nat) (data : bytes) (len sofar : Z) : IO (Z * bytes) :=
  match fuel with
  | O => stuck
  | S fuel' =>
      if sofar =? len then mret (len, data)
      else
        '(ret, e, got) ← sys_read (Z.to_nat (len - sofar));
        data ← lift_o (store_at data (Z.to_nat sofar) got);
        if ret <=? 0 then
          if transient ret e then correct_read_loop fuel' data len sofar else mret (ret, data)
        else correct_read_loop fuel' data len (sofar + ret)
  end.
Definition correct_read (data : bytes) (len : Z) : IO (Z * bytes) :=
  w ← get;
  correct_read_loop (io_fuel w) data len 0.

Fixpoint correct_read_to_loop (fuel : nat) (data : bytes) (len sofar : Z) : IO (Z * Z * bytes) :=
  match fuel with
  | O => stuck
  | S fuel' =>
      if sofar =? len then mret (len, 0, data)
      else
        '(count, e) ← sys_select;
        if count =? -1 then
          if negb (is_eintr e) then mret (count, 0, data) else correct_read_to_loop fuel' data len sofar
        else if count =? 0 then mret (sofar, 1, data)
        else
          '(ret, e, got) ← sys_read (Z.to_nat (len - sofar));
          data ← lift_o (store_at data (Z.to_nat sofar) got);
          if ret <=? 0 then
            if transient ret e then correct_read_to_loop fuel' data len sofar else mret (ret, 0, data)
          else correct_read_to_loop fuel' data len (sofar + ret)
  end.
Definition correct_read_to (data : bytes) (len : Z) : IO (Z * Z * bytes) :=
  w ← get;
  correct_read_to_loop (io_fuel w) data len 0.

(** ** Descriptors

    The state of the descriptors that the other routines see: the answers of
    [accept], [socket], [bind] and the like in the order of the calls, the
    descriptors open, and their flags. *)
Record net := Net {
  answers : list (Z * errno);
  open_fds : list Z;
  nonblock : gmap Z Z;             (* fcntl flags *)
}.
Definition with_answers x (n : net) := Net x (open_fds n) (nonblock n).
Definition with_open x (n : net) := Net (answers n) x (nonblock n).
Definition with_flags x (n : net) := Net (answers n) (open_fds n) x.
Abbreviation NET := (M net).

Definition sys_call : NET (Z * errno) := λ n,
  match answers n with [] => Stuck | a :: r => Ret (a, with_answers r n) end.
(** A call that creates a descriptor. *)
Definition sys_open : NET (Z * errno) :=
  '(fd, e) ← sys_call;
  _ ← (if 0 <=? fd then modify (λ n, with_open (fd :: open_fds n) n) else mret ());
  mret (fd, e).

Definition saccept : NET (Z * errno) :=
  '(ns, e) ← sys_open;
  if ns <? 0 then mret (-1, e) else mret (ns, e).

(** The result and the new value of [*rs]. *)
Definition nbaccept : NET (Z * option Z) :=
  '(val, _) ← sys_call;
  if (val =? 0) || (val =? -1) then mret (val, None)
  else
    '(socket_talk, e) ← saccept;
    if socket_talk <? 0 then
      if is_eagain e then mret (0, None) else mret (-1, None)
    else mret (1, Some socket_talk).

(** *** Addresses *)
Record sockaddr_in := SockAddr { sin_addr : Z; sin_port : Z }.

(** The name services of the system, which are not part of the program:
    [gethostbyname] (family and address), [getservbyname(.., tcp)] (port in
    network order), [getprotobyname], and [inet_addr]. *)
Record names := Names {
  gethostbyname : bytes → option (Z * Z);
  getservbyname : bytes → option Z;
  getprotobyname : bytes → option Z;
  inet_addr : bytes → Z;
}.
Definition AF_INET : Z := 2.

(** [htons] on a little-endian machine. *)
Definition htons (x : Z) : Z := Z.lor (Z.shiftl (Z.land x 255) 8) (Z.land (Z.shiftr x 8) 255).

Definition isdigit (c : byte) : bool := (48 <=? c) && (c <=? 57).
(** [atoi]: leading blanks and a sign are accepted. *)
Fixpoint digits (s : bytes) (acc : Z) : Z :=
  match s with
  | c :: s' => if isdigit c then digits s' (acc * 10 + (c - 48)) else acc
  | [] => acc
  end.
Fixpoint skip_blanks (s : bytes) : bytes :=
  match s with
  | c :: s' => if (c =? 32) || ((9 <=? c) && (c <=? 13)) then skip_blanks s' else s
  | [] => []
  end.
Definition atoi (s : bytes) : Z :=
  match skip_blanks s with
  | c :: s' =>
      if c =? 45 then - digits s' 0 else if c =? 43 then digits s' 0 else digits (c :: s') 0
  | [] => 0
  end.

(** [sprintf("%d")] and [sprintf("%lu")]. *)
Fixpoint dec_loop (fuel : nat) (n : Z) (acc : bytes) : bytes :=
  match fuel with
  | O => acc
  | S fuel' =>
      if n / 10 =? 0 then (48 + n mod 10) :: acc else dec_loop fuel' (n / 10) ((48 + n mod 10) :: acc)
  end.
Definition dec (n : Z) : bytes :=
  if n <? 0 then 45 :: dec_loop (S (Z.to_nat (Z.log2 (- n)))) (- n) []
  else dec_loop (S (Z.to_nat (Z.log2 n))) n [].

Section names.
Variable nm : names.

(** NULL strings are [None]. *)
Definition make_inetaddr (hostname servicename : option bytes) : option sockaddr_in :=
  match
    match hostname with
    | None => Some 0
    | Some h =>
        if isdigit (head_byte h) then Some (inet_addr nm h)
        else match gethostbyname nm h with
             | None => None
             | Some (h_addrtype, h_addr) =>
                 if negb (h_addrtype =? AF_INET) then None else Some h_addr
             end
    end
  with
  | None => None
  | Some addr =>
      match servicename with
      | None => Some (SockAddr addr 0)
      | Some s =>
          if isdigit (head_byte s) then Some (SockAddr addr (htons (u16 (atoi s))))
          else match getservbyname nm s with
               | None => None
               | Some p => Some (SockAddr addr p)
               end
      end
  end.

Definition protonumber (protoname : bytes) : Z :=
  match getprotobyname nm protoname with None => -1 | Some p => p end.

(** The calls after [socket] are scripted in the order the code makes them:
    [bind], [connect]. *)
Definition sconnect (hostname servicename : bytes) : NET Z :=
  match make_inetaddr (Some hostname) (Some servicename) with
  | None => mret (-1)
  | Some remote =>
      if protonumber (bytes_of "tcp") <? 0 then mret (-1)
      else
        '(s, _) ← sys_open;
        if s <? 0 then mret (-1)
        else match make_inetaddr None None with
        | None => mret (-1)
        | Some local =>
            '(r, _) ← sys_call;
            if r <? 0 then mret (-1)
            else
              '(r, _) ← sys_call;
              if r <? 0 then mret (-1) else mret s
        end
  end.

(** [setsockopt] twice, then [bind], [listen]. *)
Definition slisten (servicename : bytes) : NET Z :=
  if protonumber (bytes_of "tcp") <? 0 then mret (-1)
  else
    '(s, _) ← sys_open;
    if s <? 0 then mret (-1)
    else
      '(r, _) ← sys_call;
      if negb (r =? 0) then mret (-1)
      else
        '(r, _) ← sys_call;
        if negb (r =? 0) then mret (-1)
        else match make_inetaddr None (Some servicename) with
        | None => mret (-1)
        | Some inaddr =>
            '(r, _) ← sys_call;
            if r <? 0 then mret (-1)
            else
              '(r, _) ← sys_call;
              if r <? 0 then mret (-1) else mret s
        end.
End names.

(** [getsockname] fills in the family and the port. *)
Definition sportnum (sa_family sin_port : Z) : NET Z :=
  '(r, _) ← sys_call;
  if r <? 0 then mret (-1)
  else if negb (sa_family =? AF_INET) then mret (-1)
  else mret sin_port.

Definition test_readable : NET Z :=
  '(val, _) ← sys_call;
  if 0 <? val then mret 1 else mret val.
Definition test_writable : NET Z :=
  '(val, _) ← sys_call;
  if 0 <? val then mret 1 else mret val.

(** *** Flags *)
Definition O_NONBLOCK : Z := 2048.
(** [fcntl(s, F_GETFL)] and [fcntl(s, F_SETFL, flags)]: -1 for a bad [s]. *)
Definition fcntl_getfl (s : Z) : NET Z := gets (λ n, default (-1) (nonblock n !! s)).
Definition fcntl_setfl (s flags : Z) : NET Z :=
  n ← get;
  match nonblock n !! s with
  | None => mret (-1)
  | Some _ => _ ← modify (with_flags (<[s := flags]> (nonblock n))); mret 0
  end.
Definition make_nonblocking (s : Z) : NET Z :=
  flags ← fcntl_getfl s;
  if flags <? 0 then mret 0
  else
    res ← fcntl_setfl s (Z.lor flags O_NONBLOCK);
    if res <? 0 then mret 0 else mret 1.
Definition make_blocking (s : Z) : NET Z :=
  flags ← fcntl_getfl s;
  if flags =? -1 then mret 0
  else
    res ← fcntl_setfl s (Z.land flags (Z.lnot O_NONBLOCK));
    if res <? 0 then mret 0 else mret 1.

(** ** Lemmas *)

(** Bytes the kernel is ready to move, and answers that let the loops go on. *)
Fixpoint budget (xs : list xfer) : nat :=
  match xs with [] => O | Moved k :: r => (k + budget r)%nat | Failed _ :: r => budget r end.
Definition live (x : xfer) : bool :=
  match x with Moved k => negb (k =? 0)%nat | Failed e => is_eagain e || is_eintr e end.

(** [n] bytes of [data] have been sent between [w] and [w']. *)
Definition sent (data : bytes) (from n : nat) (w w' : io) : Prop :=
  wire w' = wire w ++ take n (drop from data) ∧ input w' = input w.

Lemma sent_refl data from w w' :
  wire w' = wire w → input w' = input w → sent data from 0 w w'.
Proof. intros Hw Hi. split; [by rewrite app_nil_r|done]. Qed.

Lemma sent_trans data from n1 n2 w1 w2 w3 :
  sent data from n1 w1 w2 → sent data (from + n1) n2 w2 w3 → sent data from (n1 + n2) w1 w3.
Proof.
  intros [H1 H1'] [H2 H2']. split; [|congruence]. rewrite H2, H1, <-app_assoc, <-drop_drop.
  by rewrite take_take_drop.
Qed.

(** One [write]: a prefix of what is asked for is sent. *)
Lemma sys_write_moved data from len k r w :
  (from <= len <= length data)%nat → xfers w = Moved k :: r →
  let n := (k `min` (len - from))%nat in
  ∃ w', sys_write (take (len - from) (drop from data)) w = Ret ((Z.of_nat n, EOTHER 0), w') ∧
    sent data from n w w' ∧ xfers w' = r ∧ sels w' = sels w.
Proof.
  intros Hl Hx n. unfold sys_write. rewrite Hx.
  assert (Hlen : length (take (len - from) (drop from data)) = (len - from)%nat) by (rewrite length_take, length_drop; lia).
  rewrite Hlen. fold n. eexists. split; [reflexivity|]. split; [split|done]; [|done]. cbn. rewrite take_take.
  do 2 f_equal. lia.
Qed.

Lemma correct_write_loop_spec data len : (len <= length data)%nat → ∀ fuel w from,
  (from <= len)%nat → (length (xfers w) < fuel)%nat →
  match correct_write_loop fuel data (Z.of_nat len) (Z.of_nat from) w with
  | Ret (r, w') => ∃ n, sent data from n w w' ∧
      ((r = Z.of_nat len ∧ (from + n = len)%nat) ∨ (r <= 0 ∧ (from + n < len)%nat ∧ forallb live (xfers w) = false))
  | Stuck => (budget (xfers w) < len - from)%nat
  | _ => False
  end.
Proof.
  intros Hlen. induction fuel as [|fuel IH]; intros w from Hf Hfuel; [lia|]. cbn [correct_write_loop].
  destruct (Z.eqb_spec (Z.of_nat from) (Z.of_nat len)) as [Heq|Hne].
  { exists 0%nat. split; [by apply sent_refl|]. left. lia. }
  replace (Z.to_nat (Z.of_nat len - Z.of_nat from)) with (len - from)%nat by lia. rewrite Nat2Z.id.
  destruct (xfers w) as [|[k|e] r] eqn:Hx.
  - unfold mbind, M_mbind, sys_write. rewrite Hx. cbn. lia.
  - destruct (sys_write_moved data from len k r w ltac:(lia) Hx) as (w' & Hr & Hs & Hx' & _). step_with Hr.
    cbn in Hfuel. rewrite <-Hx' in Hfuel. set (n := (k `min` (len - from))%nat) in *.
    destruct (Z.leb_spec (Z.of_nat n) 0) as [Hn0|Hn0].
    + destruct (transient (Z.of_nat n) (EOTHER 0)) eqn:Ht; [unfold transient in Ht; cbn in Ht; by rewrite andb_false_r in Ht|].
      exists n. split; [done|]. right. cbn. destruct k; [split_and!; [lia|lia|done]|exfalso; lia].
    + replace (Z.of_nat from + Z.of_nat n) with (Z.of_nat (from + n)) by lia.
      specialize (IH w' (from + n)%nat ltac:(lia) ltac:(lia)).
      destruct (correct_write_loop fuel data (Z.of_nat len) (Z.of_nat (from + n)) w') as [[r' w2]| | |]; try done.
      * destruct IH as (n2 & Hs2 & Hcase). exists (n + n2)%nat. split; [by eapply sent_trans|].
        destruct Hcase as [[-> ?]|(? & ? & Hlive)]; [left; lia|right; split_and!; [done|lia|]]. cbn. rewrite Hx' in Hlive. rewrite Hlive. apply andb_false_r.
      * rewrite Hx' in IH. cbn. lia.
  - assert (Hr : sys_write (take (len - from) (drop from data)) w = Ret ((-1, e), with_xfers r w)) by (unfold sys_write; by rewrite Hx).
    step_with Hr. change (-1 <=? 0) with true. cbn iota. unfold transient. change (-1 =? -1) with true. cbn [andb].
    cbn in Hfuel. destruct (is_eagain e || is_eintr e) eqn:Ht.
    + specialize (IH (with_xfers r w) from Hf). cbn [xfers with_xfers] in IH. specialize (IH ltac:(lia)).
      destruct (correct_write_loop fuel data (Z.of_nat len) (Z.of_nat from) (with_xfers r w)) as [[r' w2]| | |]; try done.
      destruct IH as (n2 & Hs2 & Hcase). exists n2. split; [done|]. destruct Hcase as [|(? & ? & Hlive)]; [by left|right].
      split_and!; [done|lia|]. cbn. rewrite Hlive. apply andb_false_r.
    + exists 0%nat. split; [by apply sent_refl|]. right. cbn. rewrite Ht. split_and!; [lia|lia|done].
Qed.

Lemma isdigit_mod n : isdigit (48 + n mod 10) = true.
Proof. pose proof (Z.mod_pos_bound n 10). unfold isdigit. lia. Qed.

(** Printing in decimal puts digits in front that read back as the number. *)
Lemma dec_loop_spec fuel n acc :
  0 <= n < 2 ^ Z.of_nat (S fuel) →
  ∃ c ds, dec_loop (S fuel) n acc = c :: ds ++ acc ∧ forallb isdigit (c :: ds) = true ∧
    ∀ r, digits (c :: ds ++ r) 0 = digits r n.
Proof.
  revert n acc. induction fuel as [|fuel IH]; intros n acc Hn; cbn [dec_loop].
  - change (2 ^ Z.of_nat 1) with 2 in Hn. rewrite (Z.div_small n 10) by lia. cbn. exists (48 + n mod 10), [].
    split; [done|]. cbn [app forallb digits]. rewrite isdigit_mod. split; [done|]. intros r. f_equal.
    rewrite Z.mod_small by lia. lia.
  - destruct (Z.eqb_spec (n / 10) 0) as [H0|H0].
    + exists (48 + n mod 10), []. cbn [app forallb digits]. rewrite isdigit_mod. split_and!; [done|done|]. intros r. f_equal.
      pose proof (Z.div_mod n 10). lia.
    + assert (Hlt : 0 <= n / 10 < 2 ^ Z.of_nat (S fuel)).
      { split; [apply Z.div_pos; lia|]. apply Z.div_lt_upper_bound; [lia|].
        replace (Z.of_nat (S (S fuel))) with (Z.succ (Z.of_nat (S fuel))) in Hn by lia. rewrite Z.pow_succ_r in Hn by lia. lia. }
      destruct (IH (n / 10) ((48 + n mod 10) :: acc) Hlt) as (c & ds & E & Hd & Hr).
      exists c, (ds ++ [48 + n mod 10]). cbn [dec_loop] in E. rewrite E, <-app_assoc. split; [done|]. split.
      { cbn [forallb] in Hd |- *. apply andb_true_iff in Hd as [-> Hd]. rewrite forallb_app, Hd. cbn. by rewrite isdigit_mod. }
      intros r. rewrite <-app_assoc. rewrite Hr. cbn [app digits]. rewrite isdigit_mod. f_equal. pose proof (Z.div_mod n 10). lia.
Qed.

Lemma atoi_dec n r :
  0 <= n → match r with [] => True | c :: _ => isdigit c = false end → atoi (dec n ++ r) = n.
Proof.
  intros Hn Hr. unfold dec. rewrite (proj2 (Z.ltb_ge n 0) Hn).
  destruct (dec_loop_spec (Z.to_nat (Z.log2 n)) n []) as (c & ds & -> & Hd & Hdig).
  { split; [lia|]. rewrite Nat2Z.inj_succ, Z2Nat.id by apply Z.log2_nonneg.
    destruct (Z.eq_dec n 0) as [->|]; [done|]. apply Z.log2_spec. lia. }
  rewrite app_nil_r. cbn [app forallb] in *. apply andb_true_iff in Hd as [Hc _]. unfold atoi. cbn [skip_blanks].
  assert (((c =? 32) || ((9 <=? c) && (c <=? 13))) = false ∧ (c =? 45) = false ∧ (c =? 43) = false) as (-> & -> & ->)
    by (unfold isdigit in Hc; lia).
  cbn iota. rewrite Hdig. destruct r as [|d r]; cbn [digits]; [done|]. by rewrite Hr.
Qed.

(** [got] has been read and stored at [from] between [w] and [w']. *)
Definition received (buf buf' : bytes) (from : nat) (got : bytes) (w w' : io) : Prop :=
  buf' = take from buf ++ got ++ drop (from + length got) buf ∧
  input w = got ++ input w' ∧ wire w' = wire w ∧ (from + length got <= length buf)%nat.

Lemma received_refl buf from w w' :
  (from <= length buf)%nat → input w' = input w → wire w' = wire w → received buf buf from [] w w'.
Proof. intros Hl Hi Hw. split_and!; [|done|done|cbn; lia]. cbn. by rewrite Nat.add_0_r, take_drop. Qed.

Lemma received_trans buf1 buf2 buf3 from g1 g2 w1 w2 w3 :
  received buf1 buf2 from g1 w1 w2 → received buf2 buf3 (from + length g1) g2 w2 w3 →
  received buf1 buf3 from (g1 ++ g2) w1 w3.
Proof.
  intros (E1 & I1 & W1 & L1) (E2 & I2 & W2 & L2).
  assert (Elen : length buf2 = length buf1).
  { rewrite E1, !length_app, length_take, length_drop. lia. }
  assert (Ht : length (take from buf1) = from) by (rewrite length_take; lia).
  split_and!; [|by rewrite I1, I2, app_assoc|congruence|rewrite length_app; lia].
  rewrite E2, E1, length_app. rewrite take_app_add' by done. rewrite <-app_assoc. f_equal.
  rewrite take_app_length. rewrite <-app_assoc. do 2 f_equal.
  rewrite drop_app_ge by lia. rewrite drop_app_ge by (rewrite Ht; lia). rewrite drop_drop. f_equal. rewrite Ht. lia.
Qed.

Lemma correct_read_loop_spec len : ∀ fuel w buf from,
  (len <= length buf)%nat → (from <= len)%nat → (length (xfers w) < fuel)%nat →
  match correct_read_loop fuel buf (Z.of_nat len) (Z.of_nat from) w with
  | Ret ((r, buf'), w') => ∃ got, received buf buf' from got w w' ∧
      ((r = Z.of_nat len ∧ (from + length got = len)%nat) ∨
       (r <= 0 ∧ (from + length got < len)%nat ∧ (forallb live (xfers w) = false ∨ input w' = [])))
  | Stuck => (budget (xfers w) < len - from)%nat ∨ (length (input w) < len - from)%nat
  | _ => False
  end.
Proof.
  induction fuel as [|fuel IH]; intros w buf from Hlen Hf Hfuel; [lia|]. cbn [correct_read_loop].
  destruct (Z.eqb_spec (Z.of_nat from) (Z.of_nat len)) as [Heq|Hne].
  { exists []. split; [apply received_refl; (done || lia)|]. left. cbn. lia. }
  replace (Z.to_nat (Z.of_nat len - Z.of_nat from)) with (len - from)%nat by lia. rewrite Nat2Z.id.
  destruct (xfers w) as [|[k|e] r] eqn:Hx.
  - unfold mbind, M_mbind, sys_read. rewrite Hx. left. cbn. lia.
  - set (got := take (k `min` (len - from)) (input w)).
    set (w' := with_input (drop (length got) (input w)) (with_xfers r w)).
    assert (Hr : sys_read (len - from) w = Ret ((Z.of_nat (length got), EOTHER 0, got), w')) by (unfold sys_read; by rewrite Hx).
    step_with Hr. assert (Hgl : (length got <= len - from)%nat) by (unfold got; rewrite length_take; lia).
    set (buf1 := take from buf ++ got ++ drop (from + length got) buf).
    assert (Hst : lift_o (store_at buf from got) w' = Ret (buf1, w')).
    { unfold lift_o, store_at. rewrite decide_True by lia. done. }
    step_with Hst.
    assert (Hrec : received buf buf1 from got w w').
    { split_and!; [done| |done|lia]. unfold w', got. cbn. rewrite length_take.
      destruct (decide (k `min` (len - from) <= length (input w))%nat).
      - replace ((k `min` (len - from)) `min` length (input w))%nat with (k `min` (len - from))%nat by lia. by rewrite take_drop.
      - rewrite take_ge by lia. rewrite drop_ge by lia. by rewrite app_nil_r. }
    cbn in Hfuel. destruct (Z.leb_spec (Z.of_nat (length got)) 0) as [Hn0|Hn0].
    + destruct (transient (Z.of_nat (length got)) (EOTHER 0)) eqn:Ht; [unfold transient in Ht; cbn in Ht; by rewrite andb_false_r in Ht|].
      exists got. split; [done|]. right. split_and!; [lia|lia|]. destruct k as [|k]; [by left|right].
      assert (length got = (S k `min` (len - from)) `min` length (input w))%nat as Hgn by apply length_take.
      unfold w'. cbn [input with_input]. destruct (input w) as [|b i]; [by rewrite drop_nil|]. cbn [length] in Hgn. lia.
    + replace (Z.of_nat from + Z.of_nat (length got)) with (Z.of_nat (from + length got)) by lia.
      assert (Elen : length buf1 = length buf) by (unfold buf1; rewrite !length_app, length_take, length_drop; lia).
      specialize (IH w' buf1 (from + length got)%nat ltac:(lia) ltac:(lia)). cbn [xfers w' with_input with_xfers] in IH.
      specialize (IH ltac:(lia)).
      destruct (correct_read_loop fuel buf1 (Z.of_nat len) (Z.of_nat (from + length got)) w') as [[[r' buf'] w2]| | |]; try done.
      * destruct IH as (g2 & Hs2 & Hcase). exists (got ++ g2). split; [by eapply received_trans|]. rewrite length_app.
        destruct Hcase as [[-> ?]|(? & ? & Hlive)]; [left; lia|right; split_and!; [done|lia|]].
        destruct Hlive as [Hlive|]; [left|by right]. cbn. rewrite Hlive. apply andb_false_r.
      * unfold w' in IH. cbn [xfers input with_input with_xfers budget] in IH |- *. rewrite length_drop in IH.
        assert (length got = (k `min` (len - from)) `min` length (input w))%nat by apply length_take. lia.
  - assert (Hr : sys_read (len - from) w = Ret ((-1, e, []), with_xfers r w)) by (unfold sys_read; by rewrite Hx).
    step_with Hr. assert (Hst : lift_o (store_at buf from []) (with_xfers r w) = Ret (buf, with_xfers r w)).
    { unfold lift_o, store_at. cbn [length]. rewrite decide_True by lia. cbn. by rewrite Nat.add_0_r, take_drop. }
    step_with Hst. change (-1 <=? 0) with true. cbn iota. unfold transient. change (-1 =? -1) with true. cbn [andb].
    cbn in Hfuel. destruct (is_eagain e || is_eintr e) eqn:Ht.
    + specialize (IH (with_xfers r w) buf from Hlen Hf). cbn [xfers with_xfers] in IH. specialize (IH ltac:(lia)).
      destruct (correct_read_loop fuel buf (Z.of_nat len) (Z.of_nat from) (with_xfers r w)) as [[[r' buf'] w2]| | |]; try done.
      destruct IH as (g2 & Hs2 & Hcase). exists g2. split; [done|]. destruct Hcase as [|(? & ? & Hlive)]; [by left|right].
      split_and!; [done|lia|]. destruct Hlive as [Hlive|]; [left|by right]. cbn. rewrite Hlive. apply andb_false_r.
    + exists []. split; [apply received_refl; (done || lia)|]. right. cbn. rewrite Ht. split_and!; [lia|lia|by left].
Qed.

(** ** Properties *)

Lemma data_len_whole data len : len = Z.of_nat (length data) ∨ (len = -1 ∧ no_nul data) → data_len data len = Z.of_nat (length data).
Proof.
  unfold data_len. intros [-> |[-> H]]; [by rewrite (proj2 (Z.eqb_neq _ (-1))) by lia|]. change (-1 =? -1) with true. cbn iota. by rewrite c_str_whole.
Qed.

(** C7. A message written by [correct_write] and read by [correct_read]
    arrives whole and in order, however the kernel fragments the two
    transfers and however often a call is interrupted or would block: when
    the answers are not errors and move enough bytes, both return the length,
    and the bytes behind the message stay to be read.  The length is given, or
    it is -1 and the message contains no NUL. *)
Theorem transfer_roundtrip (len : Z) (data buf rest : bytes) (xs1 xs2 : list xfer)
    (Hlen : len = Z.of_nat (length data) ∨ (len = -1 ∧ no_nul data))
    (Hlive1 : forallb live xs1 = true) (Hlive2 : forallb live xs2 = true)
    (Hb1 : (length data <= budget xs1)%nat) (Hb2 : (length data <= budget xs2)%nat)
    (Hbuf : length buf = length data) :
  ∃ w1 w2, correct_write data len (Io xs1 [] [] []) = Ret (Z.of_nat (length data), w1) ∧
    correct_read buf (Z.of_nat (length data)) (Io xs2 [] [] (wire w1 ++ rest)) =
      Ret ((Z.of_nat (length data), data), w2) ∧
    input w2 = rest.
Proof.
  unfold correct_write, correct_read. rewrite (data_len_whole data len Hlen).
  pose proof (correct_write_loop_spec data (length data) ltac:(lia) (io_fuel (Io xs1 [] [] [])) (Io xs1 [] [] []) 0
    ltac:(lia) ltac:(unfold io_fuel; cbn; lia)) as Hw. change (Z.of_nat 0) with 0 in Hw.
  rewrite (bind_ret get _ _ _ _ eq_refl).
  destruct (correct_write_loop _ data _ 0 (Io xs1 [] [] [])) as [[r w1]| | |]; [|done..|cbn in Hw; lia].
  destruct Hw as (n & [Hwire _] & [[-> Hn]|(_ & _ & Hl)]); [|cbn in Hl; congruence].
  cbn in Hwire. rewrite drop_0, take_ge in Hwire by lia.
  set (w := Io xs2 [] [] (wire w1 ++ rest)).
  pose proof (correct_read_loop_spec (length data) (io_fuel w) w buf 0
    ltac:(lia) ltac:(lia) ltac:(unfold io_fuel; cbn; lia)) as Hr. change (Z.of_nat 0) with 0 in Hr.
  assert (Hin : input w = data ++ rest) by (unfold w; cbn; by rewrite Hwire).
  destruct (correct_read_loop _ buf _ 0 w) as [[[r buf'] w2]| | |] eqn:Er; [|done..|].
  - destruct Hr as (got & (Eb & Ei & _ & _) & Hcase). rewrite Hin in Ei.
    destruct Hcase as [[-> Hn2]|(_ & Hlt & [Hl|Hl])]; [|cbn in Hl; congruence|].
    + apply app_inj_1 in Ei as [<- Hrest]; [|cbn in Hn2; lia]. exists w1, w2. split_and!; [done| |congruence].
      rewrite (bind_ret get _ _ _ _ eq_refl). change (Io xs2 [] [] (wire w1 ++ rest)) with w. rewrite Er. do 3 f_equal. rewrite Eb. cbn. rewrite drop_ge by lia. by rewrite app_nil_r.
    + exfalso. rewrite Hl, app_nil_r in Ei. apply (f_equal length) in Ei. rewrite length_app in Ei. cbn in Hlt. lia.
  - exfalso. rewrite Hin, length_app in Hr. cbn in Hr. lia.
Qed.

Lemma transfer_roundtrip_witness :
  ∃ w1 w2, correct_write (bytes_of "glomop") (-1) (Io [Moved 2; Failed EINTR; Moved 9] [] [] []) = Ret (6, w1) ∧
    correct_read (replicate 6 0) 6 (Io [Failed EAGAIN; Moved 1; Moved 3; Moved 4] [] [] (wire w1 ++ [33])) =
      Ret ((6, bytes_of "glomop"), w2) ∧
    input w2 = [33].
Proof. apply (transfer_roundtrip (-1) (bytes_of "glomop") (replicate 6 0)); [right; split; [reflexivity|unfold no_nul; apply (bool_decide_unpack _); vm_compute; exact I]|..]; vm_compute; (reflexivity || lia). Defined.

Lemma correct_write_to_loop_spec data len : (len <= length data)%nat → ∀ fuel w from,
  (from <= len)%nat →
  match correct_write_to_loop fuel data (Z.of_nat len) (Z.of_nat from) w with
  | Ret ((r, timed_out), w') => ∃ n, sent data from n w w' ∧
      ((timed_out = 0 ∧ r = Z.of_nat len ∧ (from + n = len)%nat) ∨
       (timed_out = 1 ∧ r = Z.of_nat (from + n) ∧ (from + n < len)%nat) ∨
       (timed_out = 0 ∧ r <= 0 ∧ (from + n < len)%nat))
  | Stuck => True
  | _ => False
  end.
Proof.
  intros Hlen. induction fuel as [|fuel IH]; intros w from Hf; [done|]. cbn [correct_write_to_loop].
  destruct (Z.eqb_spec (Z.of_nat from) (Z.of_nat len)) as [Heq|Hne].
  { exists 0%nat. split; [by apply sent_refl|]. left. split_and!; [done|done|lia]. }
  replace (Z.to_nat (Z.of_nat len - Z.of_nat from)) with (len - from)%nat by lia. rewrite Nat2Z.id.
  destruct (sels w) as [|s ss] eqn:Hs; [unfold mbind, M_mbind, sys_select; by rewrite Hs|].
  set (w0 := with_sels ss w).
  assert (Hsent : ∀ n w', sent data from n w0 w' → sent data from n w w') by done.
  destruct s as [| |e].
  - assert (Hsel : sys_select w = Ret ((1, EOTHER 0), w0)) by (unfold sys_select; by rewrite Hs).
    step_with Hsel. change (1 =? -1) with false. change (1 =? 0) with false. cbn iota.
    destruct (xfers w) as [|[k|e] r] eqn:Hx.
    + unfold mbind, M_mbind, sys_write, w0. cbn. by rewrite Hx.
    + destruct (sys_write_moved data from len k r w0 ltac:(lia) Hx) as (w' & Hr & Hsn & _). step_with Hr.
      set (n := (k `min` (len - from))%nat) in *. destruct (Z.leb_spec (Z.of_nat n) 0) as [Hn0|Hn0].
      * destruct (transient (Z.of_nat n) (EOTHER 0)) eqn:Ht; [unfold transient in Ht; cbn in Ht; by rewrite andb_false_r in Ht|].
        exists n. split; [done|]. right; right. split_and!; [done|lia|lia].
      * replace (Z.of_nat from + Z.of_nat n) with (Z.of_nat (from + n)) by lia.
        specialize (IH w' (from + n)%nat ltac:(lia)).
        destruct (correct_write_to_loop fuel data (Z.of_nat len) (Z.of_nat (from + n)) w') as [[[r' to] w2]| | |]; try done.
        destruct IH as (n2 & Hs2 & Hcase). exists (n + n2)%nat. split; [by eapply sent_trans|].
        rewrite Nat.add_assoc. done.
    + assert (Hr : sys_write (take (len - from) (drop from data)) w0 = Ret ((-1, e), with_xfers r w0)) by (unfold sys_write; cbn; by rewrite Hx).
      step_with Hr. change (-1 <=? 0) with true. cbn iota. unfold transient. change (-1 =? -1) with true. cbn [andb].
      destruct (is_eagain e || is_eintr e).
      * specialize (IH (with_xfers r w0) from Hf).
        by destruct (correct_write_to_loop fuel data (Z.of_nat len) (Z.of_nat from) (with_xfers r w0)) as [[[r' to] w2]| | |].
      * exists 0%nat. split; [by apply sent_refl|]. right; right. split_and!; [done|lia|lia].
  - assert (Hsel : sys_select w = Ret ((0, EOTHER 0), w0)) by (unfold sys_select; by rewrite Hs).
    step_with Hsel. change (0 =? -1) with false. change (0 =? 0) with true. cbn iota.
    exists 0%nat. split; [by apply sent_refl|]. right; left. split_and!; [done|lia|lia].
  - assert (Hsel : sys_select w = Ret ((-1, e), w0)) by (unfold sys_select; by rewrite Hs).
    step_with Hsel. change (-1 =? -1) with true. cbn iota. destruct (negb (is_eintr e)).
    + exists 0%nat. split; [by apply sent_refl|]. right; right. split_and!; [done|lia|lia].
    + specialize (IH w0 from Hf).
      by destruct (correct_write_to_loop fuel data (Z.of_nat len) (Z.of_nat from) w0) as [[[r' to] w2]| | |].
Qed.

(** Whatever the kernel answers, [correct_write_to] puts a prefix of the
    data on the wire, nothing twice and nothing out of order: the whole of it
    when it returns the length, exactly the number of bytes it returns when it
    reports a timeout, and less than the whole when it returns an error. *)
Theorem write_timeout_prefix (data : bytes) (w w' : io) (r timed_out : Z) (Hdata : no_nul data)
    (Hrun : correct_write_to data (-1) w = Ret ((r, timed_out), w')) :
  ∃ n, wire w' = wire w ++ take n data ∧
    ((timed_out = 0 ∧ r = Z.of_nat (length data) ∧ n = length data) ∨
     (timed_out = 1 ∧ r = Z.of_nat n ∧ (n < length data)%nat) ∨
     (timed_out = 0 ∧ r <= 0 ∧ (n < length data)%nat)).
Proof.
  unfold correct_write_to in Hrun. rewrite (bind_ret get _ _ _ _ eq_refl) in Hrun.
  pose proof (correct_write_to_loop_spec data (length data) ltac:(lia) (io_fuel w) w 0 ltac:(lia)) as Hs.
  rewrite (data_len_whole data (-1) (or_intror (conj eq_refl Hdata))) in Hrun. change (Z.of_nat 0) with 0 in Hs.
  rewrite Hrun in Hs. destruct Hs as (n & [Hw _] & Hcase). exists n. by rewrite drop_0 in Hw.
Qed.

Lemma write_timeout_prefix_witness :
  ∃ n, bytes_of "GET" = [] ++ take n (bytes_of "GET /") ∧
    ((1 = 0 ∧ 3 = Z.of_nat 5 ∧ n = 5%nat) ∨
     (1 = 1 ∧ 3 = Z.of_nat n ∧ (n < 5)%nat) ∨ (1 = 0 ∧ 3 <= 0 ∧ (n < 5)%nat)).
Proof.
  apply (write_timeout_prefix (bytes_of "GET /") (Io [Failed EINTR; Moved 3] [Ready; SelFailed EINTR; Ready; TimedOut] [] [])
    (Io [] [] (bytes_of "GET") []) 3 1).
  - unfold no_nul. apply (bool_decide_unpack _). vm_compute. exact I.
  - vm_compute. reflexivity.
Defined.

(** A connection that cannot be established leaves its descriptor open. *)
Example sconnect_leaks (nm : names) (h s : bytes) (a : sockaddr_in) :
  make_inetaddr nm (Some h) (Some s) = Some a → 0 <= protonumber nm (bytes_of "tcp") →
  sconnect nm h s (Net [(7, EOTHER 0); (0, EOTHER 0); (-1, EOTHER 111)] [] ∅) =
    Ret (-1, Net [] [7] ∅).
Proof.
  intros Ha Hp. unfold sconnect. rewrite Ha. by destruct (Z.ltb_spec (protonumber nm (bytes_of "tcp")) 0); [exfalso; lia|].
Qed.

(** [make_nonblocking] and [make_blocking] set and clear the flag. *)
Lemma nonblocking_roundtrip (s flags : Z) (n : net) :
  nonblock n !! s = Some flags → 0 <= flags → Z.testbit flags 11 = false →
  ∃ n', make_nonblocking s n = Ret (1, n') ∧ nonblock n' !! s = Some (Z.lor flags O_NONBLOCK) ∧
    ∃ n'', make_blocking s n' = Ret (1, n'') ∧ nonblock n'' !! s = Some flags.
Proof.
  intros Hs Hf Hbit. eexists. split.
  { unfold make_nonblocking, fcntl_getfl, fcntl_setfl, mbind, M_mbind, gets, get, modify. rewrite Hs. cbn.
    destruct (Z.ltb_spec flags 0); [exfalso; lia|]. cbn. rewrite Hs. cbn. reflexivity. }
  cbn. rewrite lookup_insert_eq. split; [done|]. eexists. split.
  { unfold make_blocking, fcntl_getfl, fcntl_setfl, mbind, M_mbind, gets, get, modify. cbn. rewrite lookup_insert_eq. cbn.
    assert (0 <= Z.lor flags O_NONBLOCK) by (apply Z.lor_nonneg; unfold O_NONBLOCK; lia).
    destruct (Z.eqb_spec (Z.lor flags O_NONBLOCK) (-1)); [exfalso; lia|]. cbn. rewrite lookup_insert_eq. cbn. reflexivity. }
  cbn. rewrite lookup_insert_eq. f_equal. apply Z.bits_inj'. intros i Hi.
  rewrite Z.land_spec, Z.lor_spec, Z.lnot_spec by done.
  change O_NONBLOCK with (2 ^ 11). rewrite Z.pow2_bits_eqb by lia.
  destruct (Z.eqb_spec 11 i) as [<-|]; [by rewrite Hbit|]. cbn. by rewrite orb_false_r, andb_true_r.
Qed.
