(* ===== verification/Md5.v ===== *)
(** * MD5 (client_lib/src/md5.c)

    The message digest that the partitioning of the distillers and the cache
    simulator use, on 32-bit words as integers below [2^32].  The theorem
    shows that any way of feeding a message to [MD5Update] gives the digest of
    a one-shot reference definition (RFC 1321).  The last section is the
    interface through which the other components use a digest. *)

From S2P Require Import Prelude.
Open Scope Z_scope.

Module MD5.

(** ** Definitions *)

(** The four words of the scratch buffer. *)
Record quad := Quad { q0 : Z; q1 : Z; q2 : Z; q3 : Z }.

Record MD5_CTX := Ctx {
  i_0 : Z;            (* number of bits mod 2^64, low word first *)
  i_1 : Z;
  buf : quad;
  inb : bytes;        (* input buffer, 64 bytes *)
  digest : bytes;
}.

Definition PADDING : bytes := 128 :: replicate 63 0.

(** [~x] on 32 bits. *)
Definition not32 (x : Z) : Z := Z.lxor x 4294967295.
Definition F (x y z : Z) : Z := Z.lor (Z.land x y) (Z.land (not32 x) z).
Definition G (x y z : Z) : Z := Z.lor (Z.land x z) (Z.land y (not32 z)).
Definition H (x y z : Z) : Z := Z.lxor (Z.lxor x y) z.
Definition I (x y z : Z) : Z := Z.lxor y (Z.lor x (not32 z)).
Definition ROTATE_LEFT (x n : Z) : Z := Z.lor (u32 (Z.shiftl x n)) (Z.shiftr x (32 - n)).

(** The four macros [FF], [GG], [HH], [II] differ by their function. *)
Definition XX (f : Z → Z → Z → Z) (a b c d x s ac : Z) : Z :=
  u32 (ROTATE_LEFT (u32 (a + f b c d + x + ac)) s + b).

(** One step; the registers are renamed as the code does from one line to the
    next, [(a, b, c, d)], [(d, a, b, c)], ... *)
Definition step (f : Z → Z → Z → Z) (words : list Z) (q : quad) (p : nat * Z * Z) : quad :=
  let '(k, s, ac) := p in
  Quad (q3 q) (XX f (q0 q) (q1 q) (q2 q) (q3 q) (nth k words 0) s ac) (q1 q) (q2 q).

(** Word index, shift and constant of each step. *)
Definition round1 : list (nat * Z * Z) :=
  [(0%nat, 7, 3614090360); (1%nat, 12, 3905402710); (2%nat, 17, 606105819); (3%nat, 22, 3250441966);
   (4%nat, 7, 4118548399); (5%nat, 12, 1200080426); (6%nat, 17, 2821735955); (7%nat, 22, 4249261313);
   (8%nat, 7, 1770035416); (9%nat, 12, 2336552879); (10%nat, 17, 4294925233); (11%nat, 22, 2304563134);
   (12%nat, 7, 1804603682); (13%nat, 12, 4254626195); (14%nat, 17, 2792965006); (15%nat, 22, 1236535329)].
Definition round2 : list (nat * Z * Z) :=
  [(1%nat, 5, 4129170786); (6%nat, 9, 3225465664); (11%nat, 14, 643717713); (0%nat, 20, 3921069994);
   (5%nat, 5, 3593408605); (10%nat, 9, 38016083); (15%nat, 14, 3634488961); (4%nat, 20, 3889429448);
   (9%nat, 5, 568446438); (14%nat, 9, 3275163606); (3%nat, 14, 4107603335); (8%nat, 20, 1163531501);
   (13%nat, 5, 2850285829); (2%nat, 9, 4243563512); (7%nat, 14, 1735328473); (12%nat, 20, 2368359562)].
Definition round3 : list (nat * Z * Z) :=
  [(5%nat, 4, 4294588738); (8%nat, 11, 2272392833); (11%nat, 16, 1839030562); (14%nat, 23, 4259657740);
   (1%nat, 4, 2763975236); (4%nat, 11, 1272893353); (7%nat, 16, 4139469664); (10%nat, 23, 3200236656);
   (13%nat, 4, 681279174); (0%nat, 11, 3936430074); (3%nat, 16, 3572445317); (6%nat, 23, 76029189);
   (9%nat, 4, 3654602809); (12%nat, 11, 3873151461); (15%nat, 16, 530742520); (2%nat, 23, 3299628645)].
Definition round4 : list (nat * Z * Z) :=
  [(0%nat, 6, 4096336452); (7%nat, 10, 1126891415); (14%nat, 15, 2878612391); (5%nat, 21, 4237533241);
   (12%nat, 6, 1700485571); (3%nat, 10, 2399980690); (10%nat, 15, 4293915773); (1%nat, 21, 2240044497);
   (8%nat, 6, 1873313359); (15%nat, 10, 4264355552); (6%nat, 15, 2734768916); (13%nat, 21, 1309151649);
   (4%nat, 6, 4149444226); (11%nat, 10, 3174756917); (2%nat, 15, 718787259); (9%nat, 21, 3951481745)].

Definition Transform (q : quad) (words : list Z) : quad :=
  let r := foldl (step F words) q round1 in
  let r := foldl (step G words) r round2 in
  let r := foldl (step H words) r round3 in
  let r := foldl (step I words) r round4 in
  Quad (u32 (q0 q + q0 r)) (u32 (q1 q + q1 r)) (u32 (q2 q + q2 r)) (u32 (q3 q + q3 r)).

Definition MD5Init (mdContext : MD5_CTX) : MD5_CTX :=
  Ctx 0 0 (Quad 1732584193 4023233417 2562383102 271733878) (inb mdContext) (digest mdContext).

(** A little-endian word, and the words of a buffer. *)
Definition word (b0 b1 b2 b3 : byte) : Z :=
  Z.lor (Z.lor (Z.lor (Z.shiftl b3 24) (Z.shiftl b2 16)) (Z.shiftl b1 8)) b0.
Fixpoint words_of (s : bytes) : list Z :=
  match s with
  | b0 :: b1 :: b2 :: b3 :: s' => word b0 b1 b2 b3 :: words_of s'
  | _ => []
  end.

(** The loop of [MD5Update] over the input. *)
Fixpoint update_loop (inBuf : bytes) (mdi : nat) (q : quad) (inb : bytes) : quad * bytes :=
  match inBuf with
  | [] => (q, inb)
  | c :: inBuf' =>
      let inb := <[mdi := c]> inb in
      if decide (S mdi = 64%nat) then update_loop inBuf' 0 (Transform q (words_of inb)) inb
      else update_loop inBuf' (S mdi) q inb
  end.

Definition mdi_of (mdContext : MD5_CTX) : nat := Z.to_nat (Z.land (Z.shiftr (i_0 mdContext) 3) 63).

Definition MD5Update (mdContext : MD5_CTX) (inBuf : bytes) : MD5_CTX :=
  let inLen := u32 (Z.of_nat (length inBuf)) in
  let mdi := mdi_of mdContext in
  let i1 := if u32 (i_0 mdContext + u32 (Z.shiftl inLen 3)) <? i_0 mdContext
            then u32 (i_1 mdContext + 1) else i_1 mdContext in
  let i0 := u32 (i_0 mdContext + u32 (Z.shiftl inLen 3)) in
  let i1 := u32 (i1 + Z.shiftr inLen 29) in
  let '(q, b) := update_loop inBuf mdi (buf mdContext) (inb mdContext) in
  Ctx i0 i1 q b (digest mdContext).

Definition word_bytes (x : Z) : bytes :=
  [Z.land x 255; Z.land (Z.shiftr x 8) 255; Z.land (Z.shiftr x 16) 255; Z.land (Z.shiftr x 24) 255].

Definition MD5Final (mdContext : MD5_CTX) : MD5_CTX :=
  let in14 := i_0 mdContext in
  let in15 := i_1 mdContext in
  let mdi := mdi_of mdContext in
  let padLen := if decide (mdi < 56)%nat then (56 - mdi)%nat else (120 - mdi)%nat in
  let c := MD5Update mdContext (take padLen PADDING) in
  let q := Transform (buf c) (words_of (take 56 (inb c)) ++ [in14; in15]) in
  Ctx (i_0 c) (i_1 c) q (inb c)
    (word_bytes (q0 q) ++ word_bytes (q1 q) ++ word_bytes (q2 q) ++ word_bytes (q3 q)).

(** ** The reference: RFC 1321 on the whole message *)

Definition padding_len (n : nat) : nat :=
  let r := (n mod 64)%nat in if decide (r < 56)%nat then (56 - r)%nat else (120 - r)%nat.
Definition padded (msg : bytes) : bytes :=
  let bits := (8 * Z.of_nat (length msg)) mod 2 ^ 64 in
  msg ++ take (padding_len (length msg)) PADDING ++ word_bytes (bits mod 2 ^ 32) ++ word_bytes (bits / 2 ^ 32).

(** The complete 64-byte blocks of a message. *)
Fixpoint blocks (n : nat) (s : bytes) : list bytes :=
  match n with O => [] | S n' => take 64 s :: blocks n' (drop 64 s) end.
Definition hash_blocks (s : bytes) : quad :=
  foldl (λ q b, Transform q (words_of b)) (Quad 1732584193 4023233417 2562383102 271733878)
    (blocks (length s / 64) s).
Definition md5 (msg : bytes) : bytes :=
  let q := hash_blocks (padded msg) in
  word_bytes (q0 q) ++ word_bytes (q1 q) ++ word_bytes (q2 q) ++ word_bytes (q3 q).

(** The code's sequence of calls on a message fed in pieces. *)
Definition md5_run (ctx : MD5_CTX) (chunks : list bytes) : bytes :=
  digest (MD5Final (foldl MD5Update (MD5Init ctx) chunks)).
Definition fresh_ctx : MD5_CTX := Ctx 0 0 (Quad 0 0 0 0) (replicate 64 0) (replicate 16 0).

Definition hex_digit (x : Z) : Z := if x <? 10 then 48 + x else 87 + x.
Definition hex (s : bytes) : bytes := s ≫= λ b, [hex_digit (b / 16); hex_digit (b mod 16)].

(** *** The test suite of RFC 1321 *)
Example md5_empty : hex (md5_run fresh_ctx []) = bytes_of "d41d8cd98f00b204e9800998ecf8427e".
Proof. vm_compute. reflexivity. Qed.
Example md5_abc : hex (md5_run fresh_ctx [bytes_of "a"; bytes_of "bc"]) = bytes_of "900150983cd24fb0d6963f7d28e17f72".
Proof. vm_compute. reflexivity. Qed.
Example md5_digits : hex (md5_run fresh_ctx
    [bytes_of "1234567890123456789012345678901234567890"; bytes_of "1234567890123456789012345678901234567890"])
  = bytes_of "57edf4a22be3c955ac49da2e2107b67a".
Proof. vm_compute. reflexivity. Qed.

(** ** Lemmas *)

Lemma blocks_app n s t : (64 * n <= length s)%nat → blocks n (s ++ t) = blocks n s.
Proof.
  revert s. induction n as [|n IH]; intros s Hl; cbn [blocks]; [done|].
  rewrite take_app_le by lia. rewrite drop_app_le by lia. rewrite IH; [done|]. rewrite length_drop. lia.
Qed.
Lemma blocks_snoc n s :
  (64 * S n <= length s)%nat → blocks (S n) s = blocks n s ++ [take 64 (drop (64 * n) s)].
Proof.
  revert s. induction n as [|n IH]; intros s Hl; [done|].
  change (blocks (S (S n)) s) with (take 64 s :: blocks (S n) (drop 64 s)).
  rewrite IH by (rewrite length_drop; lia). cbn [blocks app]. rewrite drop_drop. by replace (64 + 64 * n)%nat with (64 * S n)%nat by lia.
Qed.

(** The bytes of the last, incomplete block. *)
Definition tail_of (s : bytes) : bytes := drop (64 * (length s / 64)) s.

Lemma length_tail_of s : length (tail_of s) = (length s mod 64)%nat.
Proof. unfold tail_of. rewrite length_drop. pose proof (Nat.div_mod_eq (length s) 64). lia. Qed.

(** A message that completes a block. *)
Lemma hash_blocks_full s t :
  (length (tail_of s) + length t = 64)%nat →
  hash_blocks (s ++ t) = Transform (hash_blocks s) (words_of (tail_of s ++ t)) ∧ tail_of (s ++ t) = [].
Proof.
  intros Hl. rewrite length_tail_of in Hl. pose proof (Nat.div_mod_eq (length s) 64) as Hdm.
  set (n := (length s / 64)%nat) in *.
  assert (Hn : (length (s ++ t) / 64 = S n)%nat).
  { rewrite length_app. symmetry. apply (Nat.div_unique _ _ _ 0); lia. }
  split.
  - unfold hash_blocks. rewrite Hn. fold n. rewrite blocks_snoc by (rewrite length_app; lia).
    rewrite foldl_app. cbn [foldl]. rewrite blocks_app by lia. do 2 f_equal. unfold tail_of. fold n.
    rewrite drop_app_le by lia. apply take_ge. rewrite length_app, length_drop. lia.
  - unfold tail_of. rewrite Hn. apply drop_ge. rewrite length_app. lia.
Qed.
Lemma hash_blocks_partial s t :
  (length (tail_of s) + length t < 64)%nat →
  hash_blocks (s ++ t) = hash_blocks s ∧ tail_of (s ++ t) = tail_of s ++ t.
Proof.
  intros Hl. rewrite length_tail_of in Hl. pose proof (Nat.div_mod_eq (length s) 64) as Hdm.
  set (n := (length s / 64)%nat) in *.
  assert (Hn : (length (s ++ t) / 64 = n)%nat).
  { rewrite length_app. symmetry. apply (Nat.div_unique _ _ _ (length s mod 64 + length t)); lia. }
  split.
  - unfold hash_blocks. rewrite Hn. fold n. by rewrite blocks_app by lia.
  - unfold tail_of. rewrite Hn. fold n. apply drop_app_le. lia.
Qed.

(** The buffer holds the incomplete block of the message. *)
Record absorbed (msg : bytes) (q : quad) (inb : bytes) : Prop := {
  ab_hash : q = hash_blocks msg;
  ab_len : length inb = 64%nat;
  ab_tail : take (length msg mod 64) inb = tail_of msg;
}.

Lemma update_loop_spec inBuf : ∀ msg q inb,
  absorbed msg q inb →
  absorbed (msg ++ inBuf) (update_loop inBuf (length msg mod 64) q inb).1
    (update_loop inBuf (length msg mod 64) q inb).2.
Proof.
  induction inBuf as [|c s IH]; intros msg q inb [-> Hlen Htail]; [by rewrite app_nil_r|].
  cbn [update_loop]. pose proof (Nat.mod_upper_bound (length msg) 64 ltac:(lia)) as Hr.
  pose proof (length_tail_of msg) as Hlt. set (r := (length msg mod 64)%nat) in *.
  replace (msg ++ c :: s) with ((msg ++ [c]) ++ s) by (by rewrite <-app_assoc).
  assert (Htake : take (S r) (<[r := c]> inb) = tail_of msg ++ [c]).
  { rewrite (take_S_r _ _ c) by (apply list_lookup_insert_eq; lia). rewrite take_insert_ge by lia. by rewrite Htail. }
  assert (Hlen' : length (<[r := c]> inb) = 64%nat) by (by rewrite length_insert).
  assert (Hm : (length (msg ++ [c]) mod 64 = if decide (S r = 64) then 0 else S r)%nat).
  { rewrite length_app. cbn [length]. pose proof (Nat.div_mod_eq (length msg) 64). fold r in H0. symmetry. case_decide.
    - apply (Nat.mod_unique _ _ (S (length msg / 64))); lia.
    - apply (Nat.mod_unique _ _ (length msg / 64)); lia. }
  destruct (decide (S r = 64%nat)) as [E|E].
  - destruct (hash_blocks_full msg [c]) as [Hh Ht]; [cbn [length]; lia|].
    specialize (IH (msg ++ [c]) (Transform (hash_blocks msg) (words_of (<[r := c]> inb))) (<[r := c]> inb)).
    rewrite Hm in IH. apply IH. split; [|done|by rewrite Hm, Ht].
    rewrite Hh. f_equal. rewrite <-Htake, E. f_equal. symmetry. apply take_ge. lia.
  - destruct (hash_blocks_partial msg [c]) as [Hh Ht]; [cbn [length]; lia|].
    specialize (IH (msg ++ [c]) (hash_blocks msg) (<[r := c]> inb)). rewrite Hm in IH. apply IH.
    split; [done|done|]. by rewrite Hm, Ht, Htake.
Qed.

(** The state after a message has been fed. *)
Record fed (msg : bytes) (ctx : MD5_CTX) : Prop := {
  fd_0 : i_0 ctx = (8 * Z.of_nat (length msg)) mod 2 ^ 32;
  fd_1 : i_1 ctx = (8 * Z.of_nat (length msg) / 2 ^ 32) mod 2 ^ 32;
  fd_ab : absorbed msg (buf ctx) (inb ctx);
}.

Lemma mdi_fed msg ctx : fed msg ctx → mdi_of ctx = (length msg mod 64)%nat.
Proof.
  intros [H0 _ _]. unfold mdi_of. rewrite H0. change 63 with (Z.ones 6). rewrite Z.land_ones, Z.shiftr_div_pow2 by lia.
  change (2 ^ 3) with 8. change (2 ^ 6) with 64. change (2 ^ 32) with (8 * 536870912).
  rewrite Z.mul_mod_distr_l by lia. rewrite Z.mul_comm, Z.div_mul by lia.
  rewrite Z.mod_mod_divide by (by exists 8388608).
  rewrite <-(Nat2Z.id (length msg mod 64)), Nat2Z.inj_mod. done.
Qed.

Lemma MD5Update_fed msg chunk ctx :
  fed msg ctx → Z.of_nat (length chunk) < 2 ^ 32 → fed (msg ++ chunk) (MD5Update ctx chunk).
Proof.
  intros Hfed Hc. pose proof (mdi_fed _ _ Hfed) as Hmdi. destruct Hfed as [H0 H1 Hab].
  pose proof (update_loop_spec chunk msg (buf ctx) (inb ctx) Hab) as Hloop.
  unfold MD5Update. rewrite Hmdi. destruct (update_loop chunk (length msg mod 64) (buf ctx) (inb ctx)) as [q b].
  cbn [fst snd] in Hloop. rewrite (wrap_small 32 (Z.of_nat (length chunk))) by lia.
  rewrite Z.shiftl_mul_pow2, Z.shiftr_div_pow2 by lia.
  assert (El : 8 * Z.of_nat (length (msg ++ chunk)) = 8 * Z.of_nat (length msg) + 8 * Z.of_nat (length chunk)) by len_lia.
  set (T := 8 * Z.of_nat (length msg)) in *. set (n := Z.of_nat (length chunk)) in *.
  assert (0 <= T ∧ 0 <= n) as [HT Hn] by lia.
  split; [| |exact Hloop]; cbn [i_0 i_1]; rewrite El; unfold wrap.
  - rewrite H0. rewrite Z.add_mod_idemp_l, Z.add_mod_idemp_r by lia. f_equal. lia.
  - clearbody T n. clear Hloop Hab Hmdi El. rewrite H0, H1. change (2 ^ 3) with 8. change (2 ^ 29) with 536870912.
    change (2 ^ 32) with 4294967296 in *.
    pose proof (Z.div_mod T 4294967296 ltac:(lia)). pose proof (Z.mod_pos_bound T 4294967296 ltac:(lia)).
    pose proof (Z.div_mod (n * 8) 4294967296 ltac:(lia)). pose proof (Z.mod_pos_bound (n * 8) 4294967296 ltac:(lia)).
    assert (Eh : n / 536870912 = n * 8 / 4294967296).
    { change 4294967296 with (536870912 * 8). by rewrite Z.div_mul_cancel_r by lia. }
    rewrite Eh. set (a := T / 4294967296) in *. set (h := n * 8 / 4294967296) in *.
    set (x := T mod 4294967296) in *. set (y := (n * 8) mod 4294967296) in *.
    assert (Ediv : (T + 8 * n) / 4294967296 = a + h + (x + y) / 4294967296).
    { replace (T + 8 * n) with ((x + y) + (a + h) * 4294967296) by lia. rewrite Z.div_add by lia. lia. }
    rewrite Ediv. destruct (Z.ltb_spec ((x + y) mod 4294967296) x) as [Hlt|Hge].
    + assert ((x + y) / 4294967296 = 1) as ->.
      { destruct (Z.lt_ge_cases (x + y) 4294967296); [rewrite Z.mod_small in Hlt by lia; lia|].
        symmetry. apply (Z.div_unique _ _ _ (x + y - 4294967296)); lia. }
      rewrite Z.add_mod_idemp_l by lia.
      replace (a mod 4294967296 + 1 + h) with (a mod 4294967296 + (1 + h)) by lia.
      rewrite Z.add_mod_idemp_l by lia. f_equal. lia.
    + assert ((x + y) / 4294967296 = 0) as ->.
      { apply Z.div_small. destruct (Z.lt_ge_cases (x + y) 4294967296); [lia|].
        rewrite <-(Z.mod_unique (x + y) 4294967296 1 (x + y - 4294967296)) in Hge by lia. lia. }
      rewrite Z.add_mod_idemp_l by lia. f_equal. lia.
Qed.

Lemma fed_init ctx : length (inb ctx) = 64%nat → fed [] (MD5Init ctx).
Proof. intros Hl. by split. Qed.

Lemma fed_chunks chunks msg ctx :
  fed msg ctx → Forall (λ c, Z.of_nat (length c) < 2 ^ 32) chunks →
  fed (msg ++ concat chunks) (foldl MD5Update ctx chunks).
Proof.
  intros Hf Hc. revert msg ctx Hf. induction Hc as [|c cs Hc Hcs IH]; intros msg ctx Hf; cbn [concat foldl].
  - by rewrite app_nil_r.
  - rewrite app_assoc. by apply IH, MD5Update_fed.
Qed.

(** *** Bytes of words *)
Lemma word_word_bytes x :
  0 <= x < 2 ^ 32 → word (Z.land x 255) (Z.land (Z.shiftr x 8) 255) (Z.land (Z.shiftr x 16) 255) (Z.land (Z.shiftr x 24) 255) = x.
Proof.
  intros Hx. unfold word. apply Z.bits_inj'. intros i Hi. change 255 with (Z.ones 8).
  assert (Hbit : ∀ s, 0 <= s → Z.testbit (Z.shiftl (Z.land (Z.shiftr x s) (Z.ones 8)) s) i =
    (s <=? i) && (i <? s + 8) && Z.testbit x i).
  { intros s Hs. rewrite Z.shiftl_spec by done. destruct (Z.leb_spec s i); cbn [andb].
    - rewrite Z.land_spec, Z.shiftr_spec, Z.testbit_ones_nonneg by lia. replace (i - s + s) with i by lia.
      rewrite andb_comm. f_equal. destruct (Z.ltb_spec (i - s) 8), (Z.ltb_spec i (s + 8)); (done || lia).
    - apply Z.testbit_neg_r. lia. }
  rewrite !Z.lor_spec. pose proof (Hbit 24 ltac:(lia)) as ->. pose proof (Hbit 16 ltac:(lia)) as ->. pose proof (Hbit 8 ltac:(lia)) as ->.
  rewrite Z.land_spec, Z.testbit_ones_nonneg by lia.
  destruct (Z.leb_spec 32 i) as [H32|H32].
  - assert (Z.testbit x i = false) as ->.
    { rewrite <-(Z.mod_small x (2 ^ 32)) by done. by apply Z.mod_pow2_bits_high. }
    by rewrite !andb_false_r.
  - destruct (Z.testbit x i); [|by rewrite ?andb_false_r]. rewrite !andb_true_r. lia.
Qed.

Lemma words_of_app s t n :
  length s = (4 * n)%nat → words_of (s ++ t) = words_of s ++ words_of t.
Proof.
  revert s. induction n as [|n IH]; intros s Hl; [by destruct s|].
  destruct s as [|b0 [|b1 [|b2 [|b3 s]]]]; try (cbn [length] in Hl; lia).
  cbn [app words_of]. rewrite (IH s); [done|]. cbn [length] in Hl. lia.
Qed.

Lemma words_of_word_bytes a b :
  0 <= a < 2 ^ 32 → 0 <= b < 2 ^ 32 → words_of (word_bytes a ++ word_bytes b) = [a; b].
Proof. intros Ha Hb. unfold word_bytes. cbn [app words_of]. by rewrite !word_word_bytes. Qed.

(** ** Properties *)

(** C5. However a message is cut into pieces, feeding the pieces to
    [MD5Update] between [MD5Init] and [MD5Final] gives the digest that the
    block-by-block definition of RFC 1321 gives for the whole message,
    lengths beyond [2^32] bits included. *)
Theorem md5_streaming (ctx : MD5_CTX) (chunks : list bytes)
    (Hin : length (inb ctx) = 64%nat)
    (Hc : Forall (λ c, Z.of_nat (length c) < 2 ^ 32) chunks) :
  md5_run ctx chunks = md5 (concat chunks).
Proof.
  unfold md5_run. pose proof (fed_chunks chunks [] _ (fed_init ctx Hin) Hc) as Hf. cbn [app] in Hf.
  set (c := foldl MD5Update (MD5Init ctx) chunks) in *. set (msg := concat chunks) in *. clearbody c msg.
  unfold MD5Final, md5. rewrite (mdi_fed _ _ Hf). change (digest (Ctx _ _ _ _ ?d)) with d.
  cbv zeta.
  change (if decide (length msg mod 64 < 56)%nat then (56 - length msg mod 64)%nat else (120 - length msg mod 64)%nat)
    with (padding_len (length msg)).
  assert (Hpl : (length (take (padding_len (length msg)) PADDING) = padding_len (length msg))%nat).
  { rewrite length_take. change (length PADDING) with 64%nat. unfold padding_len.
    pose proof (Nat.mod_upper_bound (length msg) 64). case_decide; lia. }
  assert (H56 : ((length msg + padding_len (length msg)) mod 64 = 56)%nat).
  { unfold padding_len. pose proof (Nat.div_mod_eq (length msg) 64). pose proof (Nat.mod_upper_bound (length msg) 64 ltac:(lia)).
    symmetry. case_decide; [apply (Nat.mod_unique _ _ (length msg / 64))|apply (Nat.mod_unique _ _ (S (length msg / 64)))]; lia. }
  pose proof (MD5Update_fed msg (take (padding_len (length msg)) PADDING) c Hf) as Hf2.
  set (pad := take (padding_len (length msg)) PADDING) in *. rewrite <-Hpl in H56. rewrite <-length_app in H56.
  assert (Hpb : Z.of_nat (length pad) < 2 ^ 32).
  { assert (length pad <= 64)%nat by (unfold pad; rewrite length_take; change (length PADDING) with 64%nat; lia). lia. }
  destruct (fd_ab _ _ (Hf2 Hpb)) as [Hh Hl64 Htl]. set (c2 := MD5Update c pad) in *.
  rewrite H56 in Htl. rewrite Htl, Hh.
  set (bits := 8 * Z.of_nat (length msg)).
  assert (E0 : i_0 c = (bits mod 2 ^ 64) mod 2 ^ 32).
  { rewrite (fd_0 _ _ Hf). fold bits. symmetry. apply Z.mod_mod_divide. by exists (2 ^ 32). }
  assert (E1 : i_1 c = (bits mod 2 ^ 64) / 2 ^ 32).
  { rewrite (fd_1 _ _ Hf). fold bits. change (2 ^ 64) with (2 ^ 32 * 2 ^ 32).
    rewrite Z.rem_mul_r by lia. rewrite Z.mul_comm, Z.div_add by lia. rewrite (Z.div_small (bits mod 2 ^ 32)); [lia|].
    apply Z.mod_pos_bound. lia. }
  
  assert (R0 : 0 <= i_0 c < 2 ^ 32) by (rewrite (fd_0 _ _ Hf); apply Z.mod_pos_bound; lia).
  assert (R1 : 0 <= i_1 c < 2 ^ 32) by (rewrite (fd_1 _ _ Hf); apply Z.mod_pos_bound; lia).
  assert (Hfin : hash_blocks (padded msg) = Transform (hash_blocks (msg ++ pad)) (words_of (tail_of (msg ++ pad)) ++ [i_0 c; i_1 c])).
  { unfold padded. fold bits pad. rewrite <-E0, <-E1, app_assoc.
    pose proof (length_tail_of (msg ++ pad)) as Hlt. rewrite H56 in Hlt.
    destruct (hash_blocks_full (msg ++ pad) (word_bytes (i_0 c) ++ word_bytes (i_1 c))) as [-> _]; [rewrite Hlt; reflexivity|].
    rewrite (words_of_app _ _ 14) by (rewrite Hlt; reflexivity). by rewrite words_of_word_bytes. }
  rewrite Hfin. reflexivity.
Qed.

Lemma md5_streaming_witness :
  md5_run fresh_ctx [bytes_of "message "; []; bytes_of "digest"] = md5 (concat [bytes_of "message "; []; bytes_of "digest"]).
Proof. apply md5_streaming; [reflexivity|repeat constructor; vm_compute; reflexivity]. Defined.

Lemma length_md5 msg : length (md5 msg) = 16%nat.
Proof. reflexivity. Qed.

Lemma word_bytes_range x : Forall (λ b, 0 <= b < 256) (word_bytes x).
Proof. unfold word_bytes. change 255 with (Z.ones 8). repeat constructor; rewrite Z.land_ones by lia; apply Z.mod_pos_bound; lia. Qed.
Lemma md5_bytes msg : Forall (λ b, 0 <= b < 256) (md5 msg).
Proof. unfold md5. rewrite !Forall_app. split_and!; apply word_bytes_range. Qed.
End MD5.

(** ** The interface of a digest

    What the partitioning, the cache simulator and the text converter rely
    on: sixteen bytes that depend on the message only. *)
Class Digest := {
  digest_of : bytes → bytes;
  digest_length : ∀ m, length (digest_of m) = 16%nat;
  digest_range : ∀ m, Forall (λ b, 0 <= b < 256) (digest_of m);
}.
#[export] Instance md5_digest : Digest :=
  {| digest_of := MD5.md5; digest_length := MD5.length_md5; digest_range := MD5.md5_bytes |}.
