(* ===== verification/Config.v ===== *)
(** * Configuration of the client library (client_lib/src/configure.c)

    The name/value pairs taken from the options, the search of the list of
    pairs, and the tokenizer of configuration files with its comments. *)

From S2P Require Import Prelude CString.
Open Scope Z_scope.

(** ** Definitions *)

Record cfg_nv := CfgNv { name : bytes; value : bytes }.

Definition name_tokens : list bytes :=
  bytes_of <$> ["cache.Partition"; "cache.UDP_retries"; "cache.UDP_timeout_sec";
                "cache.UDP_timeout_usec"; "Monitor.listen"]%string.

Definition CLIB_OK : Z := 0.
Definition CLIB_CONFIG_ERROR : Z := 4.

(** [Options_Find] of the option database, which is not part of the client
    library: the value of a name, or NULL.  [config_list] is rebuilt. *)
Fixpoint config_parse_loop (Options_Find : bytes → option bytes) (tokens : list bytes)
    (config_list : list cfg_nv) : list cfg_nv :=
  match tokens with
  | [] => config_list
  | tok :: tokens' =>
      match Options_Find tok with
      | Some v => config_parse_loop Options_Find tokens' (config_list ++ [CfgNv tok v])
      | None => config_parse_loop Options_Find tokens' config_list
      end
  end.
Definition config_parse (Options_Find : bytes → option bytes) : Z * list cfg_nv :=
  (CLIB_OK, config_parse_loop Options_Find name_tokens []).

(** The list pointer is the rest of the list; the pair found and the pointer
    to its element, or NULL. *)
Fixpoint get_next_matching (nm : bytes) (last_value : list cfg_nv) : option cfg_nv * list cfg_nv :=
  match last_value with
  | [] => (None, [])
  | d :: rest =>
      if strcasecmp (name d) nm =? 0 then (Some d, last_value) else get_next_matching nm rest
  end.

(** [fgets(nextline, 1024, file)]: at most 1023 bytes, up to a newline. *)
Fixpoint fgets_n (n : nat) (file : bytes) : bytes * bytes :=
  match n, file with
  | O, _ | _, [] => ([], file)
  | S n', c :: file' =>
      if c =? 10 then ([c], file') else let '(l, r) := fgets_n n' file' in (c :: l, r)
  end.
Definition fgets (file : bytes) : option (bytes * bytes) :=
  match file with [] => None | _ => Some (fgets_n 1023 file) end.

(** [nextline[strlen(nextline) - 1]]: an empty C string is read before its
    start. *)
Definition last_char (line : bytes) : outcome byte :=
  match last (take (span_in (λ c, negb (c =? 0)) line) line) with
  | Some c => Ret c
  | None => Crash
  end.

(** Reads until the end of the line; [None] at the end of the file. *)
Fixpoint skip_comment (fuel : nat) (file : bytes) : outcome (option bytes) :=
  match fuel with
  | O => Stuck
  | S fuel' =>
      match fgets file with
      | None => Ret None
      | Some (line, rest) =>
          c ← last_char line;
          if c =? 10 then Ret (Some rest) else skip_comment fuel' rest
      end
  end.

Definition isspace_tok (c : byte) : bool := (c =? 32) || (c =? 9) || (c =? 10) || (c =? 13).

(** Returns the token (its length is the C function's result) and the rest
    of the file. *)
Fixpoint get_next_token (fuel : nat) (file token : bytes) : outcome (bytes * bytes) :=
  match fuel with
  | O => Stuck
  | S fuel' =>
      match file with
      | [] => Ret (token, [])
      | nextc :: file' =>
          if isspace_tok nextc then
            match token with [] => get_next_token fuel' file' token | _ => Ret (token, file') end
          else if nextc =? 35 then
            r ← skip_comment (S (length file')) file';
            match r with
            | None => Ret (token, [])
            | Some rest => get_next_token fuel' rest token
            end
          else get_next_token fuel' file' (token ++ [nextc])
      end
  end.

Definition is_name_tok (tok : bytes) : bool :=
  existsb (λ n, strcasecmp n tok =? 0) name_tokens.

(** The caller's loop: tokens until the result is 0. *)
Fixpoint all_tokens (fuel : nat) (file : bytes) : outcome (list bytes) :=
  match fuel with
  | O => Stuck
  | S fuel' =>
      '(tok, rest) ← get_next_token (S (length file)) file [];
      match tok with
      | [] => Ret []
      | _ => toks ← all_tokens fuel' rest; Ret (tok :: toks)
      end
  end.

(** ** The reference: words of the text without its comments *)

(** What follows the end of the line. *)
Fixpoint after_line (s : bytes) : bytes :=
  match s with [] => [] | c :: s' => if c =? 10 then s' else after_line s' end.
Fixpoint strip_comments (in_comment : bool) (s : bytes) : bytes :=
  match s with
  | [] => []
  | c :: s' =>
      if in_comment then strip_comments (negb (c =? 10)) s'
      else if c =? 35 then strip_comments true s'
      else c :: strip_comments false s'
  end.
Definition words (s : bytes) : list bytes := filter (λ f, f ≠ []) (fields isspace_tok s).

(** ** Lemmas *)

Lemma after_line_length s : (length (after_line s) <= length s)%nat.
Proof. induction s as [|c s IH]; cbn [after_line length]; [lia|]. case_match; cbn [length]; lia. Qed.
Lemma strip_comment_line s : strip_comments true s = strip_comments false (after_line s).
Proof. induction s as [|c s IH]; cbn [strip_comments after_line]; [done|]. destruct (Z.eqb_spec c 10); cbn; [done|done]. Qed.

(** A line without NUL: either it ends with the newline, or it is full or ends the file. *)
Lemma fgets_n_spec n s l r :
  fgets_n n s = (l, r) → no_nul s →
  s = l ++ r ∧ ((∃ l', l = l' ++ [10] ∧ after_line s = r) ∨
    ((10 ∉ l) ∧ (length l = n ∨ r = []) ∧ after_line s = after_line r)).
Proof.
  revert s l r. induction n as [|n IH]; intros s l r; cbn [fgets_n].
  { intros [= <- <-] _. split; [done|]. right. split; [set_solver +|]. split; [by left|done]. }
  destruct s as [|c s].
  { intros [= <- <-] _. split; [done|]. right. split; [set_solver +|]. split; [by right|done]. }
  destruct (Z.eqb_spec c 10) as [->|Hc].
  { intros [= <- <-] _. split; [done|]. left. by exists []. }
  destruct (fgets_n n s) as [l1 r1] eqn:E. intros [= <- <-] Hnn. inversion Hnn; subst.
  destruct (IH s l1 r1 E) as (-> & Hcase); [done|]. split; [done|].
  cbn [after_line]. rewrite (proj2 (Z.eqb_neq c 10) Hc).
  destruct Hcase as [(l' & -> & Ha)|(Hn & Hl & Ha)].
  - left. by exists (c :: l').
  - right. split; [set_solver|]. split; [|done]. destruct Hl as [Hl|]; [left; cbn [length]; lia|by right].
Qed.

Lemma fgets_n_nonempty n c s l r : fgets_n (S n) (c :: s) = (l, r) → l ≠ [].
Proof.
  cbn [fgets_n]. destruct (c =? 10); [by intros [= <- <-]|]. destruct (fgets_n n s) as [l1 r1]. by intros [= <- <-].
Qed.

Lemma last_char_ok l c : no_nul l → last l = Some c → last_char l = Ret c.
Proof.
  intros Hn Hl. unfold last_char.
  assert (span_in (λ c, negb (c =? 0)) l = length l) as ->.
  { clear Hl. induction Hn as [|d l Hd Hl IH]; cbn; [done|]. destruct (Z.eqb_spec d 0); [done|]. cbn. by rewrite IH. }
  by rewrite firstn_all, Hl.
Qed.

Lemma skip_comment_spec fuel s :
  no_nul s → (length s < fuel)%nat →
  ∃ r, skip_comment fuel s = Ret r ∧ default [] r = after_line s ∧ (length (default [] r) <= length s)%nat.
Proof.
  revert s. induction fuel as [|fuel IH]; intros s Hnn Hf; [lia|]. cbn [skip_comment].
  destruct s as [|c s]; [by exists None|]. cbn [fgets].
  destruct (fgets_n 1023 (c :: s)) as [l r] eqn:E.
  destruct (fgets_n_spec _ _ _ _ E Hnn) as (Es & Hcase).
  assert (Hl : l ≠ []).
  { by eapply fgets_n_nonempty. }
  assert (Hnl : no_nul l ∧ no_nul r) by (unfold no_nul in *; rewrite Es, Forall_app in Hnn; done).
  destruct Hnl as [Hnl Hnr].
  destruct Hcase as [(l' & -> & Ha)|(Hn & _ & Ha)].
  - rewrite (last_char_ok _ 10) by (done || apply last_snoc). cbn [mbind outcome_mbind]. change (10 =? 10) with true.
    exists (Some r). split; [done|]. cbn [from_option id]. rewrite Ha. split; [done|]. rewrite Es, length_app. lia.
  - destruct (last l) as [x|] eqn:Elast; [|by apply last_None in Elast].
    rewrite (last_char_ok _ x) by done. cbn [mbind outcome_mbind].
    destruct (Z.eqb_spec x 10) as [->|]; [exfalso; apply Hn; apply last_Some in Elast as (l' & ->); set_solver +|].
    assert (Hlen : (length r < length (c :: s))%nat) by (rewrite Es, length_app; destruct l; [done|cbn [length]; lia]).
    destruct (IH r Hnr ltac:(lia)) as (r' & -> & Hr' & Hle). exists r'. split; [done|]. rewrite Ha. split; [done|lia].
Qed.

Lemma words_cons_space c s : isspace_tok c = true → words (c :: s) = words s.
Proof. intros Hc. unfold words. cbn [fields]. by rewrite Hc. Qed.
Lemma words_word w s :
  w ≠ [] → forallb (λ c, negb (isspace_tok c)) w = true → match s with [] => True | c :: _ => isspace_tok c = true end →
  words (w ++ s) = w :: words (tail s).
Proof.
  intros Hne Hw Hs. unfold words. rewrite fields_nondelims by done. rewrite filter_cons_True by done. by destruct s.
Qed.

Lemma no_nul_after s : no_nul s → no_nul (after_line s).
Proof. induction 1 as [|c s Hc Hs IH]; cbn [after_line]; [constructor|]. by case_match. Qed.

Lemma get_next_token_spec fuel s tok :
  no_nul s → (length s < fuel)%nat → forallb (λ c, negb (isspace_tok c)) tok = true →
  ∃ tok' rest, get_next_token fuel s tok = Ret (tok', rest) ∧ no_nul rest ∧
    (length rest <= length s)%nat ∧ (tok' ≠ [] → tok = [] → (length rest < length s)%nat) ∧
    match tok' with
    | [] => tok = [] ∧ words (strip_comments false s) = []
    | _ => words (tok ++ strip_comments false s) = tok' :: words (strip_comments false rest)
    end.
Proof.
  revert s tok. induction fuel as [|fuel IH]; intros s tok Hnn Hf Htok; [lia|]. cbn [get_next_token].
  destruct s as [|c s].
  { exists tok, []. split; [done|]. split; [constructor|]. split; [done|]. split; [by intros ? ->|].
    cbn [strip_comments]. destruct tok as [|t tok]; [done|]. by apply words_word. }
  inversion Hnn as [|?? Hc0 Hs]; subst. cbn [length] in Hf. destruct (isspace_tok c) eqn:Hsp.
  - assert (Hc35 : (c =? 35) = false) by (unfold isspace_tok in Hsp; lia).
    cbn [strip_comments]. rewrite Hc35. destruct tok as [|t tok].
    + destruct (IH s [] Hs ltac:(lia) Htok) as (tok' & rest & -> & Hr & Hle & Hlt & Hw). exists tok', rest.
      split; [done|]. split; [done|]. cbn [length]. split; [lia|]. split; [lia|].
      cbn [app] in *. by rewrite words_cons_space.
    + exists (t :: tok), s. split; [done|]. split; [done|]. cbn [length]. split; [lia|]. split; [lia|].
      by rewrite words_word.
  - destruct (Z.eqb_spec c 35) as [->|Hc].
    + destruct (skip_comment_spec (S (length s)) s Hs ltac:(lia)) as (r & -> & Hr & Hle). cbn [mbind outcome_mbind].
      cbn [strip_comments]. change (35 =? 35) with true. cbn iota. rewrite strip_comment_line, <-Hr.
      destruct r as [r|]; cbn [from_option id] in *; try change (id r) with r in *.
      * destruct (IH r tok) as (tok' & rest & -> & Hr' & Hle' & Hlt & Hw); [by rewrite Hr; apply no_nul_after|lia|done|].
        exists tok', rest. split; [done|]. split; [done|]. cbn [length]. split; [lia|]. split; [lia|done].
      * exists tok, []. split; [done|]. split; [constructor|]. cbn [length]. split; [lia|]. split; [intros; lia|].
        destruct tok as [|t tok]; [done|]. by apply words_word.
    + destruct (IH s (tok ++ [c]) Hs ltac:(lia)) as (tok' & rest & -> & Hr & Hle & Hlt & Hw);
        [rewrite forallb_app, Htok; cbn; by rewrite Hsp|].
      exists tok', rest. split; [done|]. split; [done|]. cbn [length]. split; [lia|]. split; [lia|].
      cbn [strip_comments]. rewrite (proj2 (Z.eqb_neq c 35) Hc). rewrite <-app_assoc in Hw.
      destruct tok' as [|t' tok']; [by destruct Hw as [? _]; destruct tok|done].
Qed.

(** ** Properties *)

(** Reading a configuration file token by token gives the words of its
    text once every comment, from a [#] to the end of its line, has been
    taken out; the reading terminates on every file without NUL bytes,
    comments longer than the line buffer included. *)
Theorem all_tokens_words (file : bytes) (Hnn : no_nul file) :
  all_tokens (S (length file)) file = Ret (words (strip_comments false file)).
Proof.
  enough (Hgen : ∀ fuel s, no_nul s → (length s < fuel)%nat →
    all_tokens fuel s = Ret (words (strip_comments false s))) by (apply Hgen; [done|lia]).
  intros fuel. induction fuel as [|fuel IH]; intros s Hs Hf; [lia|]. cbn [all_tokens].
  destruct (get_next_token_spec (S (length s)) s [] Hs ltac:(lia) eq_refl) as (tok & rest & -> & Hr & Hle & Hlt & Hw).
  cbn [mbind outcome_mbind app] in *. destruct tok as [|t tok]; [by destruct Hw as [_ ->]|].
  rewrite IH by (done || (specialize (Hlt ltac:(done) eq_refl); lia)). cbn [mbind outcome_mbind]. by rewrite Hw.
Qed.

Definition demo_config : bytes := bytes_of "Monitor.listen 1#x y" ++ [10] ++ bytes_of " a # c".
Lemma all_tokens_words_witness :
  words (strip_comments false demo_config) = [bytes_of "Monitor.listen"; bytes_of "1"; bytes_of "a"] ∧
  all_tokens 28 demo_config = Ret (words (strip_comments false demo_config)).
Proof.
  split; [vm_compute; reflexivity|]. apply (all_tokens_words demo_config).
  unfold no_nul, demo_config. apply (bool_decide_unpack _). vm_compute. exact I.
Defined.
