(* ===== verification/Partition.v ===== *)
(** * The partitions of the cache (client_lib/src/part.c)

    The list of the cache servers that are up: its growth from the
    configuration, the choice of a server from the hash of a URL's host, the
    removal of servers that fail and the retry with those that remain.  The
    linked list is the plain list that [LinkedList] shows it to be. *)

From S2P Require Import Prelude LinkedList CString SockIO Md5 Config.
Open Scope Z_scope.

(** ** Definitions *)

Definition CLIB_NO_FD : Z := 14.
Definition CLIB_NO_SUCH_PART : Z := 15.
Definition CLIB_PTHREAD_FAIL : Z := 16.
Definition CLIB_SOCKETOP_FAIL : Z := 17.

Record part_element := PartElement { addr : sockaddr_in; addrlen : Z }.
#[export] Instance sockaddr_in_eq_dec : EqDecision sockaddr_in.
Proof. solve_decision. Defined.
#[export] Instance part_element_eq_dec : EqDecision part_element.
Proof. solve_decision. Defined.

Inductive mutex := partition_mutex | config_list_mutex.
#[export] Instance mutex_eq_dec : EqDecision mutex.
Proof. solve_decision. Defined.

(** What is told to the monitor. *)
Inductive mon_call := SetAsDefault | UnitSend (msg : bytes).

Record part_state (Monitor : Type) := PartState {
  num_partitions : Z;
  partition_list : list part_element;
  attempt_to_regrow : Z;
  held : list mutex;                 (* the mutexes that are locked *)
  config_list : list cfg_nv;
  pMon : option Monitor;
  tcpproto : option Z;               (* [None]: zero, as at the start *)
  localaddr : option sockaddr_in;
  sighup_handler : bool;             (* [regrow_partitionlist] is installed *)
  mon_log : list mon_call;
  pthread_codes : list Z;            (* results of the pthread calls to come; 0 from then on *)
  os : net;
}.
Arguments PartState {Monitor}.
Arguments num_partitions {Monitor}.
Arguments partition_list {Monitor}.
Arguments attempt_to_regrow {Monitor}.
Arguments held {Monitor}.
Arguments config_list {Monitor}.
Arguments pMon {Monitor}.
Arguments tcpproto {Monitor}.
Arguments localaddr {Monitor}.
Arguments sighup_handler {Monitor}.
Arguments mon_log {Monitor}.
Arguments pthread_codes {Monitor}.
Arguments os {Monitor}.

Section with_record.
Context {Monitor : Type}.
Implicit Types s : part_state Monitor.
Definition with_parts n l s := PartState n l (attempt_to_regrow s) (held s) (config_list s) (pMon s) (tcpproto s) (localaddr s) (sighup_handler s) (mon_log s) (pthread_codes s) (os s).
Definition with_attempt b s := PartState (num_partitions s) (partition_list s) b (held s) (config_list s) (pMon s) (tcpproto s) (localaddr s) (sighup_handler s) (mon_log s) (pthread_codes s) (os s).
Definition with_held h s := PartState (num_partitions s) (partition_list s) (attempt_to_regrow s) h (config_list s) (pMon s) (tcpproto s) (localaddr s) (sighup_handler s) (mon_log s) (pthread_codes s) (os s).
Definition with_config c s := PartState (num_partitions s) (partition_list s) (attempt_to_regrow s) (held s) c (pMon s) (tcpproto s) (localaddr s) (sighup_handler s) (mon_log s) (pthread_codes s) (os s).
Definition with_mon (m : option Monitor) s := PartState (num_partitions s) (partition_list s) (attempt_to_regrow s) (held s) (config_list s) m (tcpproto s) (localaddr s) (sighup_handler s) (mon_log s) (pthread_codes s) (os s).
Definition with_proto p s := PartState (num_partitions s) (partition_list s) (attempt_to_regrow s) (held s) (config_list s) (pMon s) p (localaddr s) (sighup_handler s) (mon_log s) (pthread_codes s) (os s).
Definition with_local a s := PartState (num_partitions s) (partition_list s) (attempt_to_regrow s) (held s) (config_list s) (pMon s) (tcpproto s) a (sighup_handler s) (mon_log s) (pthread_codes s) (os s).
Definition with_handler s := PartState (num_partitions s) (partition_list s) (attempt_to_regrow s) (held s) (config_list s) (pMon s) (tcpproto s) (localaddr s) true (mon_log s) (pthread_codes s) (os s).
Definition with_log l s := PartState (num_partitions s) (partition_list s) (attempt_to_regrow s) (held s) (config_list s) (pMon s) (tcpproto s) (localaddr s) (sighup_handler s) l (pthread_codes s) (os s).
Definition with_codes l s := PartState (num_partitions s) (partition_list s) (attempt_to_regrow s) (held s) (config_list s) (pMon s) (tcpproto s) (localaddr s) (sighup_handler s) (mon_log s) l (os s).
Definition with_os o s := PartState (num_partitions s) (partition_list s) (attempt_to_regrow s) (held s) (config_list s) (pMon s) (tcpproto s) (localaddr s) (sighup_handler s) (mon_log s) (pthread_codes s) o.
End with_record.

(** Three-way comparison of lengths, addresses and ports. *)
Definition part_compare (el1 el2 : part_element) : Z :=
  if addrlen el2 <? addrlen el1 then 1
  else if addrlen el1 <? addrlen el2 then -1
  else if sin_addr (addr el2) <? sin_addr (addr el1) then 1
  else if sin_addr (addr el1) <? sin_addr (addr el2) then -1
  else if sin_port (addr el2) <? sin_port (addr el1) then 1
  else if sin_port (addr el1) <? sin_port (addr el2) then -1
  else 0.

Definition stream_ntoa (a : Z) : bytes :=
  dec (Z.shiftr a 24) ++ [46] ++ dec (Z.shiftr a 16 mod 256) ++ [46] ++
  dec (Z.shiftr a 8 mod 256) ++ [46] ++ dec (a mod 256).

(** [bits]: the first four bytes of the digest as a big-endian [long]. *)
Definition digest_bits (digest : bytes) : Z :=
  i32 (foldl (λ acc b, acc * 256 + b) 0 (take 4 digest)).

(** What is hashed: the host of an [http://host/...] URL, or the URL. *)
Definition hash_key (url : bytes) : bytes :=
  if head_byte url =? 104 then
    match strchr url 47 with
    | None => url
    | Some fslash =>
        if negb (head_byte (drop (fslash + 1) url) =? 47) then url
        else
          let host := drop (fslash + 2) url in
          match strchr host 47 with
          | None => host
          | Some diff =>
              if (0 <? diff)%nat then take (diff `min` 1020) host else url
          end
    end
  else url.

Definition get_part_number `{Digest} (num : Z) (url : bytes) : Z :=
  if num =? 0 then -1
  else
    let bits := digest_bits (digest_of (hash_key url)) in
    let bits := if bits <? 0 then i32 (bits * -1) else bits in
    Z.rem bits num.

(** *** [sscanf] with [%d] and literal characters *)
Fixpoint scan_digits (s : bytes) (acc : Z) (some : bool) : option (Z * bytes) :=
  match s with
  | c :: s' => if isdigit c then scan_digits s' (acc * 10 + (c - 48)) true
               else if (some : bool) then Some (acc, s) else None
  | [] => if (some : bool) then Some (acc, s) else None
  end.
(** The conversion saturates as [strtol] does. *)
Definition scan_d (s : bytes) : option (Z * bytes) :=
  let clamp z := Z.max (- 2 ^ 31) (Z.min (2 ^ 31 - 1) z) in
  let '(sgn, s) := match skip_blanks s with
                   | c :: s' => if c =? 45 then (-1, s') else if c =? 43 then (1, s') else (1, c :: s')
                   | [] => (1, [])
                   end in
  '(n, r) ← scan_digits s 0 false; Some (clamp (sgn * n), r).
Definition scan_lit (c : byte) (s : bytes) : option bytes :=
  match s with d :: s' => if d =? c then Some s' else None | [] => None end.

(** ["%d.%d.%d.%d/%d/%d"]: the last two numbers when all six are read. *)
Definition scan_listen (s : bytes) : option (Z * Z) :=
  '(_, s) ← scan_d s; s ← scan_lit 46 s; '(_, s) ← scan_d s; s ← scan_lit 46 s;
  '(_, s) ← scan_d s; s ← scan_lit 46 s; '(_, s) ← scan_d s; s ← scan_lit 47 s;
  '(port, s) ← scan_d s; s ← scan_lit 47 s; '(ttl, _) ← scan_d s; Some (port, ttl).

Definition def_ip : bytes := bytes_of "228.9.10.7".
Definition def_port : Z := 8884.
Definition def_ttl : Z := 4.

(** The address, port and ttl the monitor listens on.  [tmp_ip] has 20 bytes
    and no terminator when the value is longer. *)
Definition monitor_listen (match_ : option cfg_nv) : outcome (bytes * Z * Z) :=
  match match_ with
  | None => Ret (def_ip, def_port, def_ttl)
  | Some d =>
      match cstr_at (strncpy_bytes (value d) 20) 0 with
      | None => Crash
      | Some tmp_ip =>
          match scan_listen tmp_ip, strchr tmp_ip 47 with
          | Some (port, ttl), Some slash => Ret (take slash tmp_ip, port, ttl)
          | _, _ => Ret (def_ip, def_port, def_ttl)
          end
      end
  end.

Section part.
Context `{Digest}.
Context {Monitor : Type}.
(** The name services; the options ([part_opts]); the monitor library; the
    local address of a descriptor; the usable size of the block that [malloc]
    returns for a size, which is at least that size, or [None] for NULL. *)
Variable nm : names.
Variable part_opts : bytes → option bytes.
Variable MonitorClient_Create : bytes → Z → Z → option Monitor.
Variable getsockname : Z → Z * sockaddr_in.
Variable malloc_usable : Z → option Z.
Abbreviation PART := (M (part_state Monitor)).

Definition lift {A} (o : outcome A) : PART A := λ s, a ← o; Ret (a, s).
Definition on_net {A} (m : NET A) : PART A := λ s,
  '(a, n) ← m (os s); Ret (a, with_os n s).

(** *** pthreads *)
Definition pthread_result : PART Z := λ s,
  match pthread_codes s with [] => Ret (0, s) | c :: r => Ret (c, with_codes r s) end.
(** A mutex that is held already blocks its holder forever. *)
Definition pthread_mutex_lock (m : mutex) : PART Z :=
  pretval ← pthread_result;
  if negb (pretval =? 0) then mret pretval
  else
    s ← get;
    if decide (m ∈ held s) then stuck
    else _ ← modify (λ s, with_held (m :: held s) s); mret 0.
Definition pthread_mutex_unlock (m : mutex) : PART Z :=
  pretval ← pthread_result;
  if negb (pretval =? 0) then mret pretval
  else _ ← modify (λ s, with_held (filter (λ m', m' ≠ m) (held s)) s); mret 0.

(** [MonitorClient_UnitSend(pMon, pMon->unitname, "Messages", msg, MON_LOG)]. *)
Definition unit_send (msg : bytes) : PART () :=
  s ← get;
  _ ← deref (pMon s);
  modify (λ s, with_log (mon_log s ++ [UnitSend msg]) s).

(** *** Growth from the configuration *)

(** One token of a partition line: a host name that resolves is added.  The
    memory for it suffices. *)
Definition add_token (tok : bytes) : PART () :=
  match make_inetaddr nm (Some tok) (Some (bytes_of "3128")) with
  | None => mret ()
  | Some a =>
      _ ← unit_send (bytes_of "Adding partition at " ++ stream_ntoa (sin_addr a) ++ bytes_of ".." ++ [10]);
      modify (λ s, with_parts (num_partitions s + 1) (partition_list s ++ [PartElement a 16]) s)
  end.
Fixpoint add_tokens (toks : list bytes) : PART () :=
  match toks with [] => mret () | tok :: toks' => _ ← add_token tok; add_tokens toks' end.

(** The [do ... while] over the matching pairs; [tmp] is the rest of the list. *)
Fixpoint suck_loop (fuel : nat) (tmp : list cfg_nv) : PART () :=
  match fuel with
  | O => stuck
  | S fuel' =>
      match get_next_matching (bytes_of "cache.partition") tmp with
      | (None, _) => mret ()
      | (Some cfg_el, tmp) =>
          match ts_strtok_init (Some (value cfg_el)) with
          | None => crash
          | Some ts_st =>
              toks ← lift (strtok_all (S (length (value cfg_el))) (bytes_of " ") ts_st);
              _ ← add_tokens toks;
              suck_loop fuel' (tail tmp)
          end
      end
  end.

Definition do_suck_from_configfile (opts : bytes → option bytes) : PART Z :=
  pretval ← pthread_mutex_lock config_list_mutex;
  if negb (pretval =? 0) then mret CLIB_PTHREAD_FAIL
  else
    let '(retval, cfg) := config_parse opts in
    _ ← modify (with_config cfg);
    if negb (retval =? CLIB_OK) then mret retval
    else
      _ ← suck_loop (S (length cfg)) cfg;
      pretval ← pthread_mutex_unlock config_list_mutex;
      if negb (pretval =? 0) then mret CLIB_PTHREAD_FAIL else mret retval.

(** The handler of SIGHUP. *)
Definition regrow_partitionlist : PART () := modify (λ s, with_handler (with_attempt 1 s)).

Definition do_regrow : PART () :=
  s ← get;
  if attempt_to_regrow s =? 0 then mret ()
  else
    _ ← unit_send (bytes_of "Regrowing partition list (SIG_HUP)" ++ [10]);
    _ ← modify (with_attempt 0);
    pretval ← pthread_mutex_lock partition_mutex;
    if negb (pretval =? 0) then mret ()
    else
      _ ← modify (with_parts 0 []);
      _ ← do_suck_from_configfile part_opts;
      pretval ← pthread_mutex_unlock partition_mutex;
      if negb (pretval =? 0) then mret ()
      else
        s ← get;
        unit_send (bytes_of "Regrow succeeded, " ++ dec (num_partitions s) ++ bytes_of " partitions loaded" ++ [10]).

(** [defMon] is the monitor the caller already has, or NULL. *)
Definition Part_Initialize (opts : bytes → option bytes) (defMon : option Monitor) : PART Z :=
  _ ← modify with_handler;
  foo ← deref (getprotobyname nm (bytes_of "tcp"));
  _ ← modify (with_proto (Some foo));
  pretval ← pthread_result;
  if negb (pretval =? 0) then mret CLIB_PTHREAD_FAIL
  else
    pretval ← pthread_result;
    if negb (pretval =? 0) then mret CLIB_PTHREAD_FAIL
    else
      _ ← modify (with_local (make_inetaddr nm None None));
      let '(retval, cfg) := config_parse opts in
      _ ← modify (with_config cfg);
      if negb (retval =? CLIB_OK) then mret retval
      else
        let '(match_, _) := get_next_matching (bytes_of "Monitor.listen") cfg in
        '(ip, port, ttl) ← lift (monitor_listen match_);
        _ ← modify (with_mon (match defMon with None => MonitorClient_Create ip port ttl | Some m => Some m end));
        _ ← modify (λ s, with_log (mon_log s ++ [SetAsDefault]) s);
        _ ← unit_send (bytes_of "Harvest client library initializing." ++ [10]);
        do_suck_from_configfile opts.

(** *** Operations *)

(** The new element: two fields of 4 bytes are stored in a block that is
    allocated with the size of a pointer (4 bytes).  The address is copied from
    a [struct sockaddr] of 16 bytes; a copy of less than 8 bytes does not hold
    the fields that every search of the list then reads. *)
Definition new_element (a : sockaddr_in) (len : Z) : outcome part_element :=
  match malloc_usable 4, malloc_usable (u32 len) with
  | Some size, Some _ => if (size <? 8) || (len <? 8) || (16 <? len) then Crash else Ret (PartElement a len)
  | _, _ => Exit 1
  end.
Definition Part_Add (a : sockaddr_in) (len : Z) : PART Z :=
  _ ← do_regrow;
  add ← lift (new_element a len);
  pretval ← pthread_mutex_lock partition_mutex;
  if negb (pretval =? 0) then mret CLIB_PTHREAD_FAIL
  else
    _ ← modify (λ s, with_parts (num_partitions s + 1) (partition_list s ++ [add]) s);
    pretval ← pthread_mutex_unlock partition_mutex;
    if negb (pretval =? 0) then mret CLIB_PTHREAD_FAIL else mret CLIB_OK.

Definition Part_Delete (a : sockaddr_in) (len : Z) : PART Z :=
  _ ← do_regrow;
  let el := PartElement a len in
  pretval ← pthread_mutex_lock partition_mutex;
  if negb (pretval =? 0) then mret CLIB_PTHREAD_FAIL
  else
    s ← get;
    let ipb := match list_find (λ e, part_compare el e = 0) (partition_list s) with
               | Some (_, e2) => stream_ntoa (sin_addr (addr e2))
               | None => bytes_of "(failed)"
               end in
    rv ← match remove_first (cmp_eq part_compare el) (partition_list s) with
         | Some (_, l') => _ ← modify (with_parts (num_partitions s - 1) l'); mret CLIB_OK
         | None => mret CLIB_NO_SUCH_PART
         end;
    pretval ← pthread_mutex_unlock partition_mutex;
    if negb (pretval =? 0) then mret CLIB_PTHREAD_FAIL
    else
      _ ← unit_send (bytes_of "Deleted partition at " ++ ipb ++ bytes_of "." ++ [10]);
      mret rv.

Definition Part_HandleFailureS (a : sockaddr_in) (len : Z) : PART Z :=
  _ ← unit_send (bytes_of "Failure detected on partition!" ++ [10]);
  Part_Delete a len.

(** [namelen], which [getsockname] reads, has not been set: what the call does
    with it is up to the parameter.  The condition assigns 0 to it. *)
Definition Part_HandleFailure (fd : Z) : PART Z :=
  _ ← unit_send (bytes_of "Failure detected on partition!" ++ [10]);
  let '(res, name) := getsockname fd in
  let namelen := 0 in
  if (res <? 0) || negb (namelen =? 0) then mret CLIB_SOCKETOP_FAIL
  else Part_Delete name namelen.

(** [for (i = 0; i < part_num; i++) { assert(tmp != NULL); tmp = tmp->next; }]
    and the element at [tmp]. *)
Fixpoint part_walk (n : nat) (tmp : list part_element) : PART (list part_element) :=
  match n with
  | O => mret tmp
  | S n' => match tmp with [] => crash | _ :: tmp' => part_walk n' tmp' end
  end.
Definition part_at (part_num : Z) (l : list part_element) : PART part_element :=
  tmp ← part_walk (Z.to_nat part_num) l;
  deref (head tmp).

(** The result and [*fd].  [socket], [bind] and [connect] answer from the
    script of the system. *)
Fixpoint Part_GetTCPsock_loop (fuel : nat) (url : bytes) (fd : option Z) : PART (Z * option Z) :=
  match fuel with
  | O => stuck
  | S fuel' =>
      _ ← do_regrow;
      pretval ← pthread_mutex_lock partition_mutex;
      if negb (pretval =? 0) then mret (CLIB_PTHREAD_FAIL, fd)
      else
        s ← get;
        let part_num := get_part_number (num_partitions s) url in
        el ← (if part_num =? -1 then mret None
              else e ← part_at part_num (partition_list s); mret (Some e));
        pretval ← pthread_mutex_unlock partition_mutex;
        match el with
        | None => mret (CLIB_PTHREAD_FAIL, fd)
        | Some e =>
            if negb (pretval =? 0) then mret (CLIB_PTHREAD_FAIL, fd)
            else
              '(sock, _) ← on_net sys_open;
              if sock <? 0 then mret (CLIB_NO_FD, Some sock)
              else
                '(b, _) ← on_net sys_call;
                if b <? 0 then mret (CLIB_NO_FD, Some sock)
                else
                  let a := SockAddr (sin_addr (addr e)) (htons 3128) in
                  '(c, _) ← on_net sys_call;
                  if c <? 0 then
                    _ ← Part_HandleFailureS a (addrlen e);
                    s ← get;
                    if num_partitions s =? 0 then mret (CLIB_NO_FD, Some sock)
                    else Part_GetTCPsock_loop fuel' url (Some sock)
                  else mret (CLIB_OK, Some sock)
        end
  end.

(** Every turn consumes answers of the system. *)
Definition Part_GetTCPsock (url : bytes) : PART (Z * option Z) :=
  s ← get;
  Part_GetTCPsock_loop (S (length (answers (os s)))) url None.

Definition Part_GetUDPsock (url : bytes) : PART (Z * option Z) :=
  _ ← do_regrow;
  pretval ← pthread_mutex_lock partition_mutex;
  if negb (pretval =? 0) then mret (CLIB_PTHREAD_FAIL, None)
  else
    s ← get;
    e ← part_at (get_part_number (num_partitions s) url) (partition_list s);
    pretval ← pthread_mutex_unlock partition_mutex;
    let rv := if negb (pretval =? 0) then CLIB_PTHREAD_FAIL else CLIB_OK in
    match getprotobyname nm (bytes_of "udp") with
    | None => mret (CLIB_NO_FD, None)
    | Some _ =>
        '(sock, _) ← on_net sys_open;
        if sock <? 0 then mret (CLIB_NO_FD, Some sock)
        else
          '(b, _) ← on_net sys_call;
          if b <? 0 then mret (CLIB_NO_FD, Some sock)
          else
            '(c, _) ← on_net sys_call;
            if c <? 0 then mret (CLIB_NO_FD, Some sock) else mret (rv, Some sock)
    end.
End part.

(** ** Specification *)

(** The servers named by the configuration. *)
Definition configured_parts (nm : names) (opts : bytes → option bytes) : list part_element :=
  match opts (bytes_of "cache.Partition") with
  | None => []
  | Some v => omap (λ tok, a ← make_inetaddr nm (Some tok) (Some (bytes_of "3128")); Some (PartElement a 16))
                   (tokens_spec (bytes_of " ") v)
  end.

(** The server of a URL. *)
Definition part_pick `{Digest} (url : bytes) (l : list part_element) : option part_element :=
  let n := get_part_number (Z.of_nat (length l)) url in
  if n =? -1 then None else l !! Z.to_nat n.

(** The list after the servers of the URL have failed [n] times in a row. *)
Definition remove_part (e : part_element) (l : list part_element) : list part_element :=
  match remove_first (λ e', bool_decide (e = e')) l with Some (_, l') => l' | None => l end.
Fixpoint drop_failed `{Digest} (url : bytes) (n : nat) (l : list part_element) : list part_element :=
  match n with
  | O => l
  | S n' => match part_pick url l with Some e => drop_failed url n' (remove_part e l) | None => l end
  end.

(** The answers [A] of [socket], [bind] and [connect], three for each server
    tried, give the result [r], the descriptor, the servers left [l'] of the
    servers [l0] and the answers left [A']: the first [n] tried refused the
    connection. *)
Definition tcp_result `{Digest} (url : bytes) (A : list (Z * errno)) (l0 : list part_element)
    (r : Z) (fd : option Z) (l' : list part_element) (A' : list (Z * errno)) : Prop :=
  ∃ n, l' = drop_failed url n l0 ∧ (length l' + n)%nat = length l0 ∧
    (∀ i, (i < n)%nat → ∃ c e, A !! (3 * i + 2)%nat = Some (c, e) ∧ c < 0) ∧
    ((r = CLIB_OK ∧ is_Some (part_pick url l') ∧
        (∃ x e, A !! (3 * n)%nat = Some (x, e) ∧ 0 <= x ∧ fd = Some x) ∧
        (∃ c e, A !! (3 * n + 2)%nat = Some (c, e) ∧ 0 <= c) ∧ A' = drop (3 * n + 3) A) ∨
     (r = CLIB_NO_FD ∧
        ((l' = [] ∧ (0 < n)%nat) ∨ ∃ j x e, (j < 2)%nat ∧ A !! (3 * n + j)%nat = Some (x, e) ∧ x < 0)) ∨
     (r = CLIB_PTHREAD_FAIL ∧ part_pick url l' = None)).

(** *** Sequences of operations, SIGHUP included *)
Inductive part_op :=
| OpSighup
| OpAdd (a : sockaddr_in) (len : Z)
| OpDelete (a : sockaddr_in) (len : Z)
| OpFailS (a : sockaddr_in) (len : Z)
| OpFail (fd : Z).

Section ops.
Context `{Digest} {Monitor : Type}.
Variable nm : names.
Variable part_opts : bytes → option bytes.
Variable getsockname : Z → Z * sockaddr_in.
Variable malloc_usable : Z → option Z.
Abbreviation PART := (M (part_state Monitor)).

Definition part_step (op : part_op) : PART Z :=
  match op with
  | OpSighup => _ ← regrow_partitionlist; mret CLIB_OK
  | OpAdd a len => Part_Add nm part_opts malloc_usable a len
  | OpDelete a len => Part_Delete nm part_opts a len
  | OpFailS a len => Part_HandleFailureS nm part_opts a len
  | OpFail fd => Part_HandleFailure nm part_opts getsockname fd
  end.
Fixpoint part_exec (ops : list part_op) : PART (list Z) :=
  match ops with [] => mret [] | op :: ops' => r ← part_step op; rs ← part_exec ops'; mret (r :: rs) end.

(** The abstract machine: a list of servers and whether a reload is pending. *)
Definition reload (st : list part_element * bool) : list part_element :=
  if st.2 then configured_parts nm part_opts else st.1.
Definition spec_delete (e : part_element) (st : list part_element * bool) : Z * (list part_element * bool) :=
  let l := reload st in
  if decide (e ∈ l) then (CLIB_OK, (remove_part e l, false)) else (CLIB_NO_SUCH_PART, (l, false)).
Definition spec_step (op : part_op) (st : list part_element * bool) : outcome (Z * (list part_element * bool)) :=
  match op with
  | OpSighup => Ret (CLIB_OK, (st.1, true))
  | OpAdd a len => e ← new_element malloc_usable a len; Ret (CLIB_OK, (reload st ++ [e], false))
  | OpDelete a len | OpFailS a len => Ret (spec_delete (PartElement a len) st)
  | OpFail fd =>
      if (getsockname fd).1 <? 0 then Ret (CLIB_SOCKETOP_FAIL, st)
      else Ret (spec_delete (PartElement (getsockname fd).2 0) st)
  end.
Fixpoint spec_exec (ops : list part_op) (st : list part_element * bool) : outcome (list Z * (list part_element * bool)) :=
  match ops with
  | [] => Ret ([], st)
  | op :: ops' => '(r, st) ← spec_step op st; '(rs, st) ← spec_exec ops' st; Ret (r :: rs, st)
  end.
End ops.

(** The state between calls: the count is the length of the list, no mutex
    is held, the monitor is there, and the pthread calls to come succeed. *)
Record part_wf {Monitor} (s : part_state Monitor) : Prop := {
  wf_count : num_partitions s = Z.of_nat (length (partition_list s));
  wf_held : held s = [];
  wf_codes : pthread_codes s = [];
  wf_mon : is_Some (pMon s);
}.
Definition part_view {Monitor} (s : part_state Monitor) : list part_element * bool :=
  (partition_list s, negb (attempt_to_regrow s =? 0)).

(** ** Lemmas *)

Lemma part_compare_eq e1 e2 : cmp_eq part_compare e1 e2 = bool_decide (e1 = e2).
Proof.
  unfold cmp_eq, part_compare. destruct e1 as [[a1 p1] l1], e2 as [[a2 p2] l2]. cbn [addr addrlen sin_addr sin_port].
  repeat (case_match; [symmetry; apply bool_decide_eq_false; intros [= -> -> ->]; lia|]).
  symmetry. apply bool_decide_eq_true. f_equal; [f_equal|]; lia.
Qed.

Lemma remove_part_compare e l :
  remove_first (cmp_eq part_compare e) l = remove_first (λ e', bool_decide (e = e')) l.
Proof. induction l as [|x l IH]; cbn [remove_first]; [done|]. rewrite part_compare_eq. by rewrite IH. Qed.

Lemma remove_part_elem e l :
  e ∈ l → ∃ l', remove_first (λ e', bool_decide (e = e')) l = Some (e, l') ∧ remove_part e l = l' ∧ S (length l') = length l.
Proof.
  unfold remove_part. induction l as [|x l IH]; [set_solver|]. intros He. cbn [remove_first].
  case_bool_decide as Hx; [subst; by exists l|]. destruct IH as (l' & -> & _ & Hl); [set_solver|].
  exists (x :: l'). cbn. split_and!; [done|done|lia].
Qed.

Lemma remove_first_holds {A} (p : A → bool) (l l' : list A) x : remove_first p l = Some (x, l') → p x = true.
Proof.
  revert l'. induction l as [|y l IH]; intros l'; cbn [remove_first]; [done|]. destruct (p y) eqn:Ey; [by intros [= <- _]|].
  destruct (remove_first p l) as [[z zs]|]; [|done]. intros [= -> _]. by eapply IH.
Qed.

Lemma remove_part_subset e l x : x ∈ remove_part e l → x ∈ l.
Proof.
  unfold remove_part. destruct (remove_first _ l) as [[y l']|] eqn:E; [|done].
  intros Hx. by eapply remove_first_sub.
Qed.

Section hash.
Context `{Digest}.

Lemma digest_bits_range d : Forall (λ b, 0 <= b < 256) d → - 2 ^ 31 <= digest_bits d < 2 ^ 31.
Proof.
  intros _. unfold digest_bits, swrap. change (2 ^ (32 - 1)) with (2 ^ 31).
  pose proof (Z.mod_pos_bound (foldl (λ acc b, acc * 256 + b) 0 (take 4 d) + 2 ^ 31) (2 ^ 32) ltac:(lia)). lia.
Qed.

Lemma get_part_number_range url n :
  0 < n → - n < get_part_number n url < n ∧
  (digest_bits (digest_of (hash_key url)) ≠ - 2 ^ 31 → 0 <= get_part_number n url).
Proof.
  intros Hn. unfold get_part_number. rewrite (proj2 (Z.eqb_neq n 0)) by lia.
  pose proof (digest_bits_range _ (digest_range (hash_key url))) as Hb.
  set (b := digest_bits _) in *. clearbody b. split.
  - set (x := if b <? 0 then _ else _). pose proof (Z.rem_bound_abs x n). lia.
  - intros Hb'. destruct (Z.ltb_spec b 0) as [Hneg|Hpos]; [|apply Z.rem_nonneg; lia].
    unfold swrap. rewrite Z.mod_small by (change (2 ^ (32 - 1)) with (2 ^ 31); change (2 ^ 32) with (2 * 2 ^ 31); lia).
    apply Z.rem_nonneg; lia.
Qed.

Lemma part_pick_elem url l e : part_pick url l = Some e → e ∈ l.
Proof. unfold part_pick. case_match; [done|]. apply list_elem_of_lookup_2. Qed.

Lemma part_pick_some url l :
  l ≠ [] → get_part_number (Z.of_nat (length l)) url ≠ -1 → ∃ e, part_pick url l = Some e.
Proof.
  intros Hl Hn. unfold part_pick. rewrite (proj2 (Z.eqb_neq _ _) Hn).
  assert (0 < Z.of_nat (length l)) by (destruct l; [done|cbn [length]; lia]).
  apply lookup_lt_is_Some_2. pose proof (get_part_number_range url (Z.of_nat (length l)) ltac:(done)). lia.
Qed.

(** What is hashed of an [http] URL. *)
Lemma hash_key_host host path :
  (47 ∉ host) → host ≠ [] → (length host <= 1020)%nat →
  (path = [] ∨ ∃ p, path = 47 :: p) → hash_key (bytes_of "http://" ++ host ++ path) = host.
Proof.
  intros Hh Hne Hlen Hp. unfold hash_key.
  replace (bytes_of "http://") with (bytes_of "http:" ++ 47 :: [47]) by reflexivity.
  change (head_byte _ =? 104) with true. cbn iota. rewrite <-app_assoc. cbn [app].
  rewrite strchr_first by (cbn; set_solver +). cbn [length Nat.add drop].
  change (negb (head_byte _ =? 47)) with false. cbn iota.
  destruct Hp as [->|[p ->]].
  - rewrite app_nil_r. change (strchr (drop _ _) 47) with (strchr host 47). by rewrite strchr_none.
  - change (strchr (drop _ _) 47) with (strchr (host ++ 47 :: p) 47). rewrite strchr_first by done.
    rewrite (proj2 (Nat.ltb_lt 0 (length host))) by (destruct host; [done|cbn; lia]).
    rewrite Nat.min_l by lia. change (drop _ _) with (host ++ 47 :: p). by rewrite take_app_length.
Qed.
End hash.

(** *** The program *)
Section lemmas.
Context `{Digest} {Monitor : Type}.
Variable nm : names.
Variable part_opts : bytes → option bytes.
Hypothesis opts_no_nul : ∀ n v, part_opts n = Some v → no_nul v.
Implicit Types s : part_state Monitor.

(** [s] with another log. *)
Definition logged s l := with_log l s.

Lemma unit_send_ok msg s : is_Some (pMon s) → unit_send msg s = Ret ((), logged s (mon_log s ++ [UnitSend msg])).
Proof. intros [m Hm]. unfold unit_send, mbind, M_mbind, get, deref. by rewrite Hm. Qed.

Lemma lock_ok m s : pthread_codes s = [] → (m ∉ held s) → pthread_mutex_lock m s = Ret (0, with_held (m :: held s) s).
Proof.
  intros Hc Hm. unfold pthread_mutex_lock, mbind, M_mbind, pthread_result, get. rewrite Hc. cbn [negb].
  change (0 =? 0) with true. cbn [negb]. by rewrite decide_False.
Qed.
Lemma unlock_ok m s : pthread_codes s = [] →
  pthread_mutex_unlock m s = Ret (0, with_held (filter (λ m', m' ≠ m) (held s)) s).
Proof. intros Hc. unfold pthread_mutex_unlock, mbind, M_mbind, pthread_result. by rewrite Hc. Qed.

(** Steps of the calls that take and release a mutex. *)
Ltac lock_step := cbn beta; match goal with |- context [(pthread_mutex_lock ?m ≫= ?f) ?s] =>
  let E := fresh in let E' := fresh in
  assert (E : pthread_codes s = []) by done; assert (E' : m ∉ held s) by (done || (cbn; match goal with Hx : held _ = _ |- _ => rewrite Hx; set_solver + end));
  rewrite (bind_ret _ _ _ _ _ (lock_ok m s E E')); clear E E'; change (negb (0 =? 0)) with false; cbn beta iota end.
Ltac unlock_step := cbn beta; match goal with |- context [(pthread_mutex_unlock ?m ≫= ?f) ?s] =>
  let E := fresh in assert (E : pthread_codes s = []) by done;
  rewrite (bind_ret _ _ _ _ _ (unlock_ok m s E)); clear E; change (negb (0 =? 0)) with false; cbn beta iota end.
Ltac send_step := cbn beta; match goal with |- context [(unit_send ?m ≫= ?f) ?s] =>
  let E := fresh in assert (E : is_Some (pMon s)) by done; rewrite (bind_ret _ _ _ _ _ (unit_send_ok m s E)); clear E; cbn beta end.

Lemma unlock_filter (m : mutex) h : (m ∉ h) → filter (λ m', m' ≠ m) (m :: h) = h.
Proof.
  intros Hm. rewrite filter_cons_False by tauto. induction h as [|x h IH]; [done|].
  rewrite filter_cons_True by set_solver. f_equal. apply IH. set_solver.
Qed.

Lemma add_tokens_spec toks s :
  is_Some (pMon s) → ∃ log,
  let l := omap (λ tok, a ← make_inetaddr nm (Some tok) (Some (bytes_of "3128")); Some (PartElement a 16)) toks in
  add_tokens nm toks s = Ret ((), logged (with_parts (num_partitions s + Z.of_nat (length l)) (partition_list s ++ l) s) log).
Proof.
  revert s. induction toks as [|tok toks IH]; intros s Hm; cbn [add_tokens omap list_omap].
  { exists (mon_log s). cbn. rewrite app_nil_r, Z.add_0_r. by destruct s. }
  unfold add_token. destruct (make_inetaddr nm (Some tok) (Some (bytes_of "3128"))) as [a|].
  - match goal with |- context [unit_send ?m] => set (msg := m) end.
    rewrite M_assoc, (bind_ret _ _ _ _ _ (unit_send_ok msg s Hm)). cbn beta.
    edestruct (IH (with_parts (num_partitions s + 1) (partition_list s ++ [PartElement a 16]) (logged s (mon_log s ++ [UnitSend msg])))) as (log & E); [done|].
    exists log. etransitivity; [exact E|]. cbn. rewrite <-app_assoc. unfold logged, with_log, with_parts. cbn. do 3 f_equal. lia.
  - rewrite mret_bind. destruct (IH s Hm) as (log & E). by exists log.
Qed.

Lemma match_partition opts :
  let cfg := (config_parse opts).2 in
  match opts (bytes_of "cache.Partition") with
  | Some v => get_next_matching (bytes_of "cache.partition") cfg = (Some (CfgNv (bytes_of "cache.Partition") v), cfg) ∧
              (get_next_matching (bytes_of "cache.partition") (tail cfg)).1 = None ∧ (2 <= S (length cfg))%nat
  | None => (get_next_matching (bytes_of "cache.partition") cfg).1 = None
  end.
Proof.
  cbv zeta. unfold config_parse, name_tokens. cbn [fmap list_fmap config_parse_loop snd].
  destruct (opts (bytes_of "cache.Partition")) as [v|];
    destruct (opts (bytes_of "cache.UDP_retries")), (opts (bytes_of "cache.UDP_timeout_sec")),
      (opts (bytes_of "cache.UDP_timeout_usec")), (opts (bytes_of "Monitor.listen"));
    [..|]; try (split; [vm_compute; reflexivity|split; [vm_compute; reflexivity|cbn; lia]]); vm_compute; reflexivity.
Qed.

Lemma suck_loop_spec opts s :
  is_Some (pMon s) → (∀ n v, opts n = Some v → no_nul v) → ∃ log,
  let cfg := (config_parse opts).2 in let l := configured_parts nm opts in
  suck_loop nm (S (length cfg)) cfg s =
  Ret ((), logged (with_parts (num_partitions s + Z.of_nat (length l)) (partition_list s ++ l) s) log).
Proof.
  intros Hm Hopts. cbv zeta. pose proof (match_partition opts) as Hmatch. cbv zeta in Hmatch.
  set (cfg := (config_parse opts).2) in *. clearbody cfg. unfold configured_parts. cbn [suck_loop].
  destruct (opts (bytes_of "cache.Partition")) as [v|] eqn:Ev.
  - destruct Hmatch as (-> & Htail & Hlen). cbn [value ts_strtok_init].
    assert (E : lift (strtok_all (S (length v)) (bytes_of " ") (Strtok (v ++ [0]) 0 (Z.of_nat (length v)))) s =
                Ret (tokens_spec (bytes_of " ") v, s)).
    { unfold lift. rewrite (strtok_all_spec_from (bytes_of " ") v []) by (eauto || lia). done. }
    step_with E. destruct (add_tokens_spec (tokens_spec (bytes_of " ") v) s Hm) as (log & E2). cbv zeta in E2. step_with E2.
    exists log. destruct (length cfg) as [|k]; [lia|]. cbn [suck_loop].
    destruct (get_next_matching (bytes_of "cache.partition") (tail cfg)) as [o r]. cbn in Htail. by subst o.
  - exists (mon_log s). destruct (get_next_matching (bytes_of "cache.partition") cfg) as [o r]. cbn in Hmatch. subst o.
    cbn. rewrite app_nil_r, Z.add_0_r. by destruct s.
Qed.

(** [s] with the servers [l], the mutexes [h], and any configuration list and log. *)
Definition moved s (n : Z) l (h : list mutex) (s' : part_state Monitor) : Prop :=
  num_partitions s' = n ∧ partition_list s' = l ∧ held s' = h ∧ pthread_codes s' = [] ∧ pMon s' = pMon s ∧
  attempt_to_regrow s' = attempt_to_regrow s ∧ os s' = os s.

Lemma do_suck_spec opts s :
  is_Some (pMon s) → (∀ n v, opts n = Some v → no_nul v) → pthread_codes s = [] → (config_list_mutex ∉ held s) →
  ∃ s', do_suck_from_configfile nm opts s = Ret (CLIB_OK, s') ∧
    moved s (num_partitions s + Z.of_nat (length (configured_parts nm opts)))
      (partition_list s ++ configured_parts nm opts) (held s) s'.
Proof.
  intros Hm Hopts Hc Hh. unfold do_suck_from_configfile. lock_step.
  destruct (config_parse opts) as [rv cfg] eqn:Ep. assert (rv = CLIB_OK) as -> by (by injection Ep).
  set (s1 := with_config cfg (with_held (config_list_mutex :: held s) s)).
  assert (Hm1 : is_Some (pMon s1)) by done.
  destruct (suck_loop_spec opts s1 Hm1 Hopts) as (log & E). rewrite Ep in E. cbv zeta in E. cbn [snd] in E.
  assert (Em : modify (with_config cfg) (with_held (config_list_mutex :: held s) s) = Ret ((), s1)) by done.
  step_with Em. change (negb (CLIB_OK =? CLIB_OK)) with false. cbn iota. step_with E.
  unlock_step. eexists. split; [reflexivity|]. subst s1. split_and!; try done. by apply unlock_filter.
Qed.

(** The state after [do_regrow]. *)
Definition regrown s s' : Prop :=
  part_wf s' ∧ partition_list s' = reload nm part_opts (part_view s) ∧ attempt_to_regrow s' = 0 ∧ os s' = os s.

Lemma do_regrow_spec s : part_wf s → ∃ s', do_regrow nm part_opts s = Ret ((), s') ∧ regrown s s'.
Proof.
  intros [Hn Hh Hc Hm]. unfold do_regrow, regrown, reload, part_view. rewrite (bind_ret get _ s s s eq_refl). cbn [fst snd].
  destruct (Z.eqb_spec (attempt_to_regrow s) 0) as [Ha|Ha]; cbn [negb].
  { exists s. split_and!; done. }
  send_step.
  match goal with |- context [logged s ?l] => set (s1 := with_attempt 0 (logged s l)) end.
  rewrite (bind_ret (modify (with_attempt 0)) _ _ () s1 eq_refl). lock_step.
  set (s2 := with_parts 0 [] (with_held (partition_mutex :: held s1) s1)).
  rewrite (bind_ret (modify (with_parts 0 [])) _ _ () s2 eq_refl).
  destruct (do_suck_spec part_opts s2) as (s3 & E & Hn3 & Hl3 & Hh3 & Hc3 & Hm3 & Ha3 & Ho3); [done|done|done| |].
  { cbn. rewrite Hh. set_solver +. }
  step_with E. unlock_step.
  match goal with |- context [(get ≫= _) ?s0] => set (s4 := s0); rewrite (bind_ret get _ s4 s4 s4 eq_refl) end.
  assert (Hm4 : is_Some (pMon s4)) by (cbn; by rewrite Hm3).
  rewrite unit_send_ok by done. eexists. split; [reflexivity|]. split_and!; [|exact Hl3|exact Ha3|exact Ho3].
  split; cbn -[filter]; [rewrite Hn3, Hl3; cbn; lia| |done|done].
  rewrite Hh3. cbn -[filter]. rewrite Hh. reflexivity.
Qed.

Lemma part_delete_spec a len s : part_wf s → ∃ s',
  let r := spec_delete nm part_opts (PartElement a len) (part_view s) in
  Part_Delete nm part_opts a len s = Ret (r.1, s') ∧ part_wf s' ∧ part_view s' = r.2 ∧ os s' = os s.
Proof.
  intros Hwf. destruct (do_regrow_spec s Hwf) as (s1 & E1 & [Hn Hh Hc Hm] & Hl & Ha & Ho). cbv zeta.
  unfold Part_Delete. step_with E1. lock_step. cbv zeta.
  rewrite (bind_ret get _ _ _ _ eq_refl). cbn [partition_list num_partitions with_held]. rewrite remove_part_compare.
  match goal with |- context [bytes_of "Deleted partition at " ++ ?i ++ _] => generalize i; intros ipb end.
  unfold spec_delete. rewrite <-Hl. set (e := PartElement a len). destruct (decide (e ∈ partition_list s1)) as [Hin|Hin].
  - destruct (remove_part_elem e _ Hin) as (l' & -> & -> & Hlen). rewrite M_assoc, (bind_ret _ _ _ () _ eq_refl), mret_bind.
    unlock_step. send_step. eexists. split; [reflexivity|]. split_and!; [split| |done].
    + cbn. lia.
    + cbn -[filter]. rewrite Hh. reflexivity.
    + done.
    + done.
    + unfold part_view. cbn. by rewrite Ha.
  - assert (remove_first (λ e', bool_decide (e = e')) (partition_list s1) = None) as ->.
    { destruct (remove_first _ _) as [[x l']|] eqn:E; [|done]. exfalso.
      pose proof E as E'. apply remove_first_elem in E'. apply remove_first_holds in E. apply bool_decide_eq_true in E. by subst. }
    rewrite mret_bind. unlock_step. send_step. eexists. split; [reflexivity|].
    split_and!; [split| |done]; [done| |done|done|].
    + cbn -[filter]. rewrite Hh. reflexivity.
    + unfold part_view. cbn. by rewrite Ha.
Qed.

Lemma part_step_spec getsockname malloc_usable op s :
  part_wf s →
  match spec_step nm part_opts getsockname malloc_usable op (part_view s) with
  | Ret (r, v) => ∃ s', part_step nm part_opts getsockname malloc_usable op s = Ret (r, s') ∧ part_wf s' ∧ part_view s' = v
  | Exit c => part_step nm part_opts getsockname malloc_usable op s = Exit c
  | Crash => part_step nm part_opts getsockname malloc_usable op s = Crash
  | Stuck => False
  end.
Proof.
  intros Hwf. destruct op as [|a len|a len|a len|fd]; cbn [part_step spec_step].
  - exists (with_handler (with_attempt 1 s)). destruct Hwf. by split_and!.
  - destruct (do_regrow_spec s Hwf) as (s1 & E1 & [Hn Hh Hc Hm] & Hl & Ha & _).
    assert (new_element malloc_usable a len ≠ Stuck) as Hne by (unfold new_element; repeat case_match; done).
    unfold Part_Add. destruct (new_element malloc_usable a len) as [e|code| |] eqn:Ee; [|by step_with E1|by step_with E1|done].
    cbn [mbind outcome_mbind]. step_with E1. rewrite (bind_ret (lift (Ret e)) _ s1 e s1 eq_refl). lock_step.
    rewrite (bind_ret _ _ _ () _ eq_refl). unlock_step. eexists. split; [reflexivity|]. split; [split|].
    + cbn. rewrite Hn, length_app. cbn. lia.
    + cbn -[filter]. rewrite Hh. reflexivity.
    + done.
    + done.
    + unfold part_view at 1. cbn. by rewrite Ha, Hl.
  - destruct (part_delete_spec a len s Hwf) as (s' & E & Hwf' & Hv & _). rewrite (surjective_pairing (spec_delete nm part_opts (PartElement a len) (part_view s))). by exists s'.
  - rewrite (surjective_pairing (spec_delete nm part_opts (PartElement a len) (part_view s))). unfold Part_HandleFailureS. pose proof (wf_mon _ Hwf) as Hm. send_step.
    edestruct (part_delete_spec a len) as (s' & E & Hwf' & Hv & _); [|exists s'; split; [exact E|done]].
    by destruct Hwf.
  - unfold Part_HandleFailure. pose proof (wf_mon _ Hwf) as Hm. send_step.
    destruct (getsockname fd) as [res a]. cbn [fst snd]. change (negb (0 =? 0)) with false. rewrite orb_false_r.
    destruct (res <? 0); cbn iota.
    + eexists. split; [reflexivity|]. by destruct Hwf.
    + rewrite (surjective_pairing (spec_delete nm part_opts (PartElement a 0) (part_view s))). edestruct (part_delete_spec a 0) as (s' & E & Hwf' & Hv & _); [|exists s'; split; [exact E|done]].
      by destruct Hwf.
Qed.

(** Every server in the list has the port that connections go to. *)
Definition http_ports (l : list part_element) : Prop := Forall (λ e, sin_port (addr e) = htons 3128) l.

Lemma configured_ports : http_ports (configured_parts nm part_opts).
Proof.
  apply Forall_forall. intros e. unfold configured_parts. destruct (part_opts _) as [v|]; [|set_solver +].
  intros (tok & _ & Htok)%list_elem_of_omap. unfold make_inetaddr in Htok.
  change (isdigit (head_byte (bytes_of "3128"))) with true in Htok. cbn iota in Htok.
  change (htons (u16 (atoi (bytes_of "3128")))) with (htons 3128) in Htok.
  cbn [mbind option_bind] in Htok. repeat case_match; simplify_eq/=; done.
Qed.

Lemma part_walk_ok n l s : (n <= length l)%nat → part_walk n l s = Ret (drop n l, s).
Proof. revert l. induction n as [|n IH]; intros l Hn; cbn; [done|]. destruct l; [cbn in Hn; lia|]. apply IH. cbn in Hn. lia. Qed.
Lemma part_at_ok n l e s : l !! Z.to_nat n = Some e → part_at n l s = Ret (e, s).
Proof.
  intros He. unfold part_at. pose proof (lookup_lt_Some _ _ _ He).
  rewrite (bind_ret _ _ _ _ _ (part_walk_ok (Z.to_nat n) l s ltac:(lia))). rewrite head_lookup, lookup_drop, Nat.add_0_r, He. done.
Qed.

Lemma on_net_open x e A s : answers (os s) = (x, e) :: A →
  ∃ o, on_net sys_open s = Ret ((x, e), with_os o s) ∧ answers o = A.
Proof.
  intros HA. unfold on_net, sys_open, mbind, M_mbind, outcome_mbind, sys_call. rewrite HA. cbn.
  destruct (0 <=? x); cbn; eexists; split; reflexivity.
Qed.
Lemma on_net_call x e A s : answers (os s) = (x, e) :: A →
  ∃ o, on_net sys_call s = Ret ((x, e), with_os o s) ∧ answers o = A.
Proof. intros HA. unfold on_net, sys_call, outcome_mbind. rewrite HA. cbn. eexists; split; reflexivity. Qed.

Lemma tcp_result_step url x ex b eb c ec A l e r fd l' A' :
  part_pick url l = Some e → c < 0 →
  tcp_result url A (remove_part e l) r fd l' A' → tcp_result url ((x, ex) :: (b, eb) :: (c, ec) :: A) l r fd l' A'.
Proof.
  intros He Hc (n & Hl & Hlen & Hfail & Hres). exists (S n). cbn [drop_failed]. rewrite He.
  destruct (remove_part_elem e l (part_pick_elem _ _ _ He)) as (l1 & _ & El & Hl1).
  assert (Hsh : ∀ k j, ((x, ex) :: (b, eb) :: (c, ec) :: A) !! (3 * S k + j)%nat = A !! (3 * k + j)%nat).
  { intros k j. by replace (3 * S k + j)%nat with (S (S (S (3 * k + j)))) by lia. }
  assert (Hsh0 : ∀ k, ((x, ex) :: (b, eb) :: (c, ec) :: A) !! (3 * S k)%nat = A !! (3 * k)%nat).
  { intros k. by replace (3 * S k)%nat with (S (S (S (3 * k)))) by lia. }
  split; [done|]. split; [rewrite El in Hlen; lia|]. split.
  - intros [|i] Hi; [by exists c, ec|]. rewrite Hsh. apply Hfail. lia.
  - destruct Hres as [(? & ? & H1 & H2 & H3)|[(? & H1)|?]]; [left|right; left|right; right]; try done.
    + split; [done|]. split; [done|]. rewrite Hsh, Hsh0. split; [done|]. split; [done|]. rewrite H3. by replace (3 * S n + 3)%nat with (S (S (S (3 * n + 3)))) by lia.
    + split; [done|]. destruct H1 as [[? ?]|(j & y & f & ? & ? & ?)]; [left; split; [done|lia]|right].
      exists j, y, f. by rewrite Hsh.
Qed.

Lemma tcp_loop_spec url fuel s fd :
  part_wf s → http_ports (reload nm part_opts (part_view s)) →
  (3 * length (reload nm part_opts (part_view s)) <= length (answers (os s)))%nat →
  (length (reload nm part_opts (part_view s)) < fuel)%nat →
  ∃ r fd' s', Part_GetTCPsock_loop nm part_opts fuel url fd s = Ret ((r, fd'), s') ∧ part_wf s' ∧
    attempt_to_regrow s' = 0 ∧
    tcp_result url (answers (os s)) (reload nm part_opts (part_view s)) r fd' (partition_list s') (answers (os s')).
Proof.
  revert s fd. induction fuel as [|fuel IH]; intros s fd Hwf Hports Hans Hfuel; [lia|]. cbn [Part_GetTCPsock_loop].
  destruct (do_regrow_spec s Hwf) as (s1 & E1 & [Hn Hh Hc Hm] & Hl & Ha & Ho). step_with E1. lock_step.
  rewrite (bind_ret get _ _ _ _ eq_refl). cbn [num_partitions partition_list with_held].
  rewrite <-Hl in *. rewrite <-Ho in *. clear E1 Hl Ho Hwf s. rename s1 into s. set (l := partition_list s) in *. rewrite Hn.
  destruct (part_pick url l) as [e|] eqn:Epick.
  2: { assert (get_part_number (Z.of_nat (length l)) url = -1) as ->.
    { destruct (decide (l = [])) as [->|Hne]; [done|].
      destruct (decide (get_part_number (Z.of_nat (length l)) url = -1)) as [|Hne1]; [done|].
      by destruct (part_pick_some url l Hne Hne1) as (e & ?); congruence. }
    change (-1 =? -1) with true. cbn iota. rewrite mret_bind. unlock_step. eexists _, _, _. split; [reflexivity|].
    split; [by split; cbn -[filter]; rewrite ?Hh|]. split; [done|]. exists 0%nat. split; [done|]. split; [apply Nat.add_0_r|]. split; [intros; lia|].
    right. by right. }
  pose proof (part_pick_elem _ _ _ Epick) as Hin. unfold part_pick in Epick.
  destruct (Z.eqb_spec (get_part_number (Z.of_nat (length l)) url) (-1)) as [|Hnum]; [done|].
  rewrite M_assoc, (bind_ret _ _ _ _ _ (part_at_ok _ _ _ _ Epick)). cbn beta. rewrite mret_bind. unlock_step.
  destruct (remove_part_elem e l Hin) as (l' & _ & El' & Hlen').
  match goal with |- context [(on_net sys_open ≫= _) ?s0] => set (s1 := s0) end.
  destruct (answers (os s)) as [|[x ex] [|[b eb] [|[c ec] A]]] eqn:EA; [cbn in Hans; lia..|].
  assert (Hwf1 : ∀ o, part_wf (with_os o s1)) by (intros o; subst s1; split; cbn -[filter]; rewrite ?Hh; done).
  assert (Hpick : part_pick url l = Some e) by (unfold part_pick; by rewrite (proj2 (Z.eqb_neq _ _) Hnum)).
  assert (Hpicks : is_Some (part_pick url l)) by by eexists.
  assert (Hstop : ∀ r fd' o,
    (r = CLIB_OK ∧ (∃ y ey, answers (os s) !! 0%nat = Some (y, ey) ∧ 0 <= y ∧ fd' = Some y) ∧
       (∃ d ed, answers (os s) !! 2%nat = Some (d, ed) ∧ 0 <= d) ∧ answers o = drop 3 (answers (os s))) ∨
    (r = CLIB_NO_FD ∧ ∃ j y ey, (j < 2)%nat ∧ answers (os s) !! j = Some (y, ey) ∧ y < 0) →
    ∃ r0 fd0 s', Ret ((r, fd'), with_os o s1) = Ret ((r0, fd0), s') ∧ part_wf s' ∧
      attempt_to_regrow s' = 0 ∧ tcp_result url (answers (os s)) l r0 fd0 (partition_list s') (answers (os s'))).
  { intros r fd' o Hr. eexists _, _, _. split; [reflexivity|]. split; [apply Hwf1|]. split; [done|]. exists 0%nat. split; [done|].
    split; [apply Nat.add_0_r|]. split; [intros; lia|]. destruct Hr as [(-> & H1 & H2 & H3)|[-> H1]]; [by left|].
    right. left. split; [done|]. by right. }
  rewrite EA in Hstop.
  destruct (on_net_open x ex _ s1 EA) as (o1 & E1 & HA1). step_with E1.
  destruct (Z.ltb_spec x 0) as [Hx|Hx]; [apply Hstop; right; split; [done|]; by exists 0%nat, x, ex; split; [lia|]|].
  destruct (on_net_call b eb _ (with_os o1 s1) HA1) as (o2 & E2 & HA2). step_with E2.
  destruct (Z.ltb_spec b 0) as [Hb|Hb]; [apply (Hstop _ _ o2); right; split; [done|]; by exists 1%nat, b, eb; split; [lia|]|].
  cbv zeta. destruct (on_net_call c ec _ (with_os o2 (with_os o1 s1)) HA2) as (o3 & E3 & HA3). step_with E3.
  destruct (Z.ltb_spec c 0) as [Hc0|Hc0].
  2: { apply (Hstop _ _ o3). left. split; [done|]. split; [by exists x, ex|]. split; [by exists c, ec|done]. }
  clear Hstop. change (with_os o3 (with_os o2 (with_os o1 s1))) with (with_os o3 s1).
  assert (Hae : PartElement (SockAddr (sin_addr (addr e)) (htons 3128)) (addrlen e) = e).
  { pose proof (proj1 (Forall_forall _ _) Hports e Hin) as Hp. cbn in Hp. rewrite <-Hp. by destruct e as [[??]?]. }
  unfold Part_HandleFailureS. pose proof (wf_mon _ (Hwf1 o3)) as Hm3. rewrite M_assoc. send_step.
  match goal with |- context [(Part_Delete _ _ ?a _ ≫= _) ?s0] =>
    assert (Hwf2 : part_wf s0) by (destruct (Hwf1 o3); done);
    destruct (part_delete_spec a (addrlen e) s0 Hwf2) as (s4 & E4 & Hwf4 & Hv4 & Ho4) end.
  cbv zeta in E4, Hv4. rewrite Hae in E4, Hv4. unfold spec_delete, reload, part_view in Hv4.
  cbn in Hv4. rewrite Ha in Hv4. change (negb (0 =? 0)) with false in Hv4. cbn iota in Hv4.
  rewrite decide_True in Hv4 by done. cbn [snd] in Hv4. fold l in Hv4. rewrite El' in Hv4. injection Hv4 as Hl4 Ha4.
  assert (Hre4 : reload nm part_opts (part_view s4) = l') by (unfold reload, part_view; by rewrite Ha4).
  assert (HA4 : answers (os s4) = A) by (by rewrite Ho4).
  step_with E4. rewrite (bind_ret get _ _ _ _ eq_refl). cbn beta. rewrite (wf_count _ Hwf4), Hl4.
  destruct (Z.eqb_spec (Z.of_nat (length l')) 0) as [H0|H0].
  - eexists _, _, _. split; [reflexivity|]. split; [done|]. split; [by apply negb_false_iff, Z.eqb_eq in Ha4|]. exists 1%nat. cbn [drop_failed]. rewrite Hpick, El', Hl4.
    split; [done|]. split; [lia|]. split; [intros i Hi; assert (i = 0)%nat as -> by lia; by exists c, ec|].
    destruct l'; [|cbn in H0; lia]. right. left. split; [done|]. left. split; [done|lia].
  - destruct (IH s4 (Some x) Hwf4) as (r & fd' & s' & E & Hwf' & Ha' & Hres); rewrite ?Hre4, ?HA4; [|cbn in Hans; lia|lia|].
    + apply Forall_forall. intros e' He'. rewrite <-El' in He'. apply remove_part_subset in He'.
      by apply (proj1 (Forall_forall _ _) Hports).
    + rewrite Hre4, HA4 in Hres. exists r, fd', s'. split; [done|]. split; [done|]. split; [done|].
      apply (tcp_result_step _ _ _ _ _ _ _ _ _ e); [done|done|]. by rewrite El'.
Qed.
End lemmas.

(** A server whose port is not the one of the connections is never deleted:
    as long as it refuses connections, the retry does not end. *)
Fixpoint refusals (n : nat) (fd : Z) : list (Z * errno) :=
  match n with O => [] | S n' => (fd, EOTHER 0) :: (0, EOTHER 0) :: (-1, EOTHER 111) :: refusals n' (fd + 1) end.

Section livelock.
Context `{Digest} {Monitor : Type}.
Variable nm : names.
Variable part_opts : bytes → option bytes.
Hypothesis opts_no_nul : ∀ n v, part_opts n = Some v → no_nul v.

Lemma livelock_loop n : ∀ fuel url fd fd0 (s : part_state Monitor) e,
  part_wf s → attempt_to_regrow s = 0 → partition_list s = [e] → sin_port (addr e) ≠ htons 3128 →
  answers (os s) = refusals n fd → 0 <= fd → Part_GetTCPsock_loop nm part_opts fuel url fd0 s = Stuck.
Proof.
  induction n as [|n IH]; intros fuel url fd fd0 s e Hwf Ha Hl Hport HA Hfd; destruct fuel as [|fuel]; [done| |done|];
    cbn [Part_GetTCPsock_loop]; destruct Hwf as [Hn Hh Hc Hm];
    assert (E1 : do_regrow nm part_opts s = Ret ((), s)) by
      (unfold do_regrow; rewrite (bind_ret get _ _ _ _ eq_refl); by rewrite Ha);
    step_with E1; rewrite (bind_ret _ _ _ _ _ (lock_ok partition_mutex s Hc ltac:(rewrite Hh; set_solver +)));
    change (negb (0 =? 0)) with false; cbn beta iota; rewrite (bind_ret get _ _ _ _ eq_refl);
    cbn [num_partitions partition_list with_held]; rewrite Hn, Hl;
    assert (Hnum : get_part_number (Z.of_nat (length [e])) url = 0) by
      (change (Z.of_nat (length [e])) with 1; pose proof (get_part_number_range url 1 ltac:(lia)); lia);
    rewrite Hnum; change (0 =? -1) with false; cbn iota;
    rewrite M_assoc; match goal with |- context [(part_at ?n ?l ≫= _) ?s0] =>
      rewrite (bind_ret _ _ _ _ _ (part_at_ok n l e s0 eq_refl)) end; cbn beta; rewrite mret_bind;
    match goal with |- context [(pthread_mutex_unlock ?m ≫= ?f) ?s0] =>
      rewrite (bind_ret _ _ _ _ _ (unlock_ok m s0 Hc)); cbn beta iota end; change (negb (0 =? 0)) with false; cbn iota.
  - unfold mbind at 1, M_mbind at 1, on_net at 1, sys_open. cbn. unfold outcome_mbind, mbind, M_mbind, sys_call. by rewrite HA.
  - cbn [refusals] in HA.
    match goal with |- context [(on_net sys_open ≫= _) ?s0] => set (s1 := s0) end.
    destruct (on_net_open fd (EOTHER 0) _ s1 HA) as (o1 & E2 & HA1). step_with E2. rewrite (proj2 (Z.ltb_ge _ _) Hfd).
    destruct (on_net_call 0 (EOTHER 0) _ (with_os o1 s1) HA1) as (o2 & E3 & HA2). step_with E3. change (0 <? 0) with false. cbn iota zeta.
    destruct (on_net_call (-1) (EOTHER 111) _ (with_os o2 (with_os o1 s1)) HA2) as (o3 & E4 & HA3). step_with E4.
    change (-1 <? 0) with true. cbn iota.
    assert (Hwf1 : ∀ lg, part_wf (with_log lg (with_os o3 s1))) by (intros lg; subst s1; split; [exact Hn|cbn -[filter]; rewrite Hh; reflexivity|exact Hc|exact Hm]).
    unfold Part_HandleFailureS. rewrite M_assoc.
    match goal with |- context [(unit_send ?m ≫= _) ?s0] => rewrite (bind_ret _ _ _ _ _ (unit_send_ok m s0 Hm)) end. cbn beta.
    match goal with |- context [(Part_Delete _ _ ?a ?len ≫= _) (logged ?s0 ?lg)] =>
      destruct (part_delete_spec nm part_opts opts_no_nul a len _ (Hwf1 lg)) as (s4 & E5 & Hwf4 & Hv4 & Ho4) end.
    cbv zeta in Hv4. unfold spec_delete, reload, part_view in Hv4. cbn in Hv4. rewrite Ha in Hv4. change (negb (0 =? 0)) with false in Hv4.
    cbn iota in Hv4. rewrite Hl in Hv4. rewrite decide_False in Hv4
      by (intros He%list_elem_of_singleton; apply Hport; by rewrite <-He).
    cbn in Hv4. injection Hv4 as Hl4 Ha4. unfold logged in E5 |- *. step_with E5. rewrite (bind_ret get _ _ _ _ eq_refl). cbn beta.
    rewrite (wf_count _ Hwf4), Hl4. change (Z.of_nat (length [e]) =? 0) with false. cbn iota.
    apply (IH fuel url (fd + 1) _ s4 e); try done; [|by rewrite Ho4|lia].
    by apply negb_false_iff, Z.eqb_eq in Ha4.
Qed.
End livelock.

(** *** What the clients of the partitions use *)
Section client.
Context `{Digest} {Monitor : Type}.
Variable nm : names.
Variable part_opts : bytes → option bytes.
Hypothesis opts_no_nul : ∀ n v, part_opts n = Some v → no_nul v.

(** Between reloads, with one server of the cache's port. *)
Record one_server (e : part_element) (s : part_state Monitor) : Prop := {
  one_wf : part_wf s;
  one_attempt : attempt_to_regrow s = 0;
  one_list : partition_list s = [e];
  one_port : sin_port (addr e) = htons 3128;
  one_len : addrlen e ≠ 0;
}.

Lemma tcp_accepts e s url fd ex b eb c ec A :
  one_server e s → answers (os s) = (fd, ex) :: (b, eb) :: (c, ec) :: A → 0 <= fd → 0 <= b → 0 <= c →
  ∃ s', Part_GetTCPsock nm part_opts url s = Ret ((CLIB_OK, Some fd), s') ∧ one_server e s' ∧ answers (os s') = A.
Proof.
  intros [Hwf Ha Hl Hp Hlen] HA Hfd Hb Hc.
  assert (Hre : reload nm part_opts (part_view s) = [e]) by (unfold reload, part_view; by rewrite Ha, Hl).
  destruct (tcp_loop_spec nm part_opts opts_no_nul url (S (length (answers (os s)))) s None Hwf) as (r & fd' & s' & E & Hwf' & Ha' & Hres);
    rewrite ?Hre, ?HA; [by constructor|cbn; lia|cbn; lia|]. rewrite Hre, HA in Hres.
  destruct Hres as (n & El & Elen & Hfail & Hcase).
  assert (n = 0%nat) as ->.
  { destruct n; [done|]. destruct (Hfail 0%nat ltac:(lia)) as (c' & e' & E' & ?). cbn in E'. injection E' as <- _. lia. }
  cbn [drop_failed] in El.
  assert (Hpick : part_pick url [e] = Some e).
  { unfold part_pick. assert (get_part_number (Z.of_nat (length [e])) url = 0) as ->; [|done].
    change (Z.of_nat (length [e])) with 1. pose proof (get_part_number_range url 1 ltac:(lia)). lia. }
  destruct Hcase as [(-> & _ & (x & ex' & Ex & _ & ->) & _ & HA')|[(_ & [[? _]|(j & x & ex' & Hj & Ex & Hx)])|[_ Hno]]].
  - cbn in Ex. injection Ex as <- _. exists s'. split; [exact E|]. split; [|exact HA']. by split.
  - congruence.
  - destruct j as [|[|j]]; [cbn in Ex; injection Ex as <- _; lia..|lia].
  - rewrite El in Hno. congruence.
Qed.

Lemma handle_failure_keeps getsockname e s fd :
  one_server e s → ∃ r s', Part_HandleFailure nm part_opts getsockname fd s = Ret (r, s') ∧ one_server e s' ∧ answers (os s') = answers (os s).
Proof.
  intros [Hwf Ha Hl Hp Hlen]. unfold Part_HandleFailure. pose proof (wf_mon _ Hwf) as Hm.
  match goal with |- context [unit_send ?m] => rewrite (bind_ret _ _ _ _ _ (unit_send_ok m s Hm)) end. cbn beta.
  match goal with |- context [logged s ?l] => set (s1 := logged s l) end.
  assert (Hwf1 : part_wf s1) by (by destruct Hwf).
  destruct (getsockname fd) as [res a]. change (negb (0 =? 0)) with false. rewrite orb_false_r. destruct (res <? 0); cbn iota zeta.
  - exists CLIB_SOCKETOP_FAIL, s1. split; [done|]. by split.
  - destruct (part_delete_spec nm part_opts opts_no_nul a 0 s1 Hwf1) as (s' & E & Hwf' & Hv & Ho). cbv zeta in E, Hv.
    assert (Hview : part_view s1 = ([e], false)) by (unfold part_view; cbn; by rewrite Ha, Hl).
    rewrite Hview in E, Hv. unfold spec_delete, reload in E, Hv. cbn [fst snd] in E, Hv.
    rewrite decide_False in E, Hv by (intros Hin%list_elem_of_singleton; subst e; done). cbn [fst snd] in E, Hv.
    injection Hv as Hl' Ha'. exists CLIB_NO_SUCH_PART, s'. split; [done|]. split; [|by rewrite Ho].
    split; [done| |done|done|done]. by apply negb_false_iff, Z.eqb_eq in Ha'.
Qed.
End client.

(** ** Properties *)


(** Names, options and a state for the examples. *)
Definition demo_names : names :=
  Names (λ h, if decide (h = bytes_of "cache2") then Some (AF_INET, 33554442) else None) (λ _, None)
        (λ p, if decide (p = bytes_of "tcp") then Some 6 else Some 17) (λ _, 16777226).
Definition demo_opts (n : bytes) : option bytes :=
  if decide (n = bytes_of "cache.Partition") then Some (bytes_of "10.0.0.1 cache2 nohost") else None.
Definition demo_part : part_state () :=
  PartState 0 [] 1 [] [] (Some ()) (Some 6) None true [] [] (Net [] [] ∅).

Lemma demo_opts_no_nul n v : demo_opts n = Some v → no_nul v.
Proof. unfold demo_opts. case_decide; [|done]. intros [= <-]. apply (bool_decide_unpack _). vm_compute. exact I. Qed.
Lemma demo_part_wf : part_wf demo_part.
Proof. split; [done..|]. cbn. by eexists. Qed.

Definition demo_part_ops : list part_op :=
  [OpAdd (SockAddr 7 1) 16; OpFail 3; OpDelete (SockAddr 7 1) 16; OpDelete (SockAddr 7 1) 16; OpSighup; OpFailS (SockAddr 16777226 14348) 16].


(** C30. Opening a connection for a URL fails over: when every server has the
    cache's port, [Part_GetTCPsock] returns after at most one attempt per
    server; each server that refused is removed, the next is chosen by the
    hash among those left, and the result is a connected descriptor, or the
    error that ended the search. *)
Theorem tcp_failover `{Digest} {Monitor} (nm : names) (part_opts : bytes → option bytes) (url : bytes) (s : part_state Monitor)
    (Hopts : ∀ n v, part_opts n = Some v → no_nul v) (Hwf : part_wf s)
    (Hports : http_ports (reload nm part_opts (part_view s)))
    (Hans : (3 * length (reload nm part_opts (part_view s)) <= length (answers (os s)))%nat)
    (Hpos : (0 < length (answers (os s)))%nat) :
  ∃ r fd s', Part_GetTCPsock nm part_opts url s = Ret ((r, fd), s') ∧ part_wf s' ∧
    attempt_to_regrow s' = 0 ∧
    tcp_result url (answers (os s)) (reload nm part_opts (part_view s)) r fd (partition_list s') (answers (os s')).
Proof. apply (tcp_loop_spec nm part_opts Hopts); [done|done|done|lia]. Qed.

Definition demo_tcp : part_state () :=
  with_os (Net [(3, EOTHER 0); (0, EOTHER 0); (-1, EOTHER 111); (4, EOTHER 0); (0, EOTHER 0); (0, EOTHER 0)] [] ∅) demo_part.
Lemma tcp_failover_witness :
  ∃ r fd s', Part_GetTCPsock demo_names demo_opts (bytes_of "http://h/") demo_tcp = Ret ((r, fd), s') ∧ part_wf s' ∧
    attempt_to_regrow s' = 0 ∧
    tcp_result (bytes_of "http://h/") (answers (os demo_tcp)) (reload demo_names demo_opts (part_view demo_tcp)) r fd (partition_list s') (answers (os s')).
Proof.
  apply (tcp_failover demo_names demo_opts (bytes_of "http://h/") demo_tcp demo_opts_no_nul).
  - destruct demo_part_wf. by split.
  - apply (configured_ports demo_names demo_opts).
  - vm_compute. lia.
  - vm_compute. lia.
Defined.
(** The descriptor of the refused connection stays open. *)
Example tcp_failover_leaks :
  match Part_GetTCPsock demo_names demo_opts (bytes_of "http://h/") demo_tcp with
  | Ret ((r, fd), s') => r = CLIB_OK ∧ fd = Some 4 ∧ open_fds (os s') = [4; 3] ∧ length (partition_list s') = 1%nat
  | _ => False
  end.
Proof. vm_compute. done. Qed.

(** All the traffic of a host goes to one server: two [http] URLs with
    the same host get the same number, whatever follows the host. *)
Theorem partition_affinity `{Digest} (n : Z) (host p1 p2 : bytes)
    (Hh : 47 ∉ host) (Hne : host ≠ []) (Hlen : (length host <= 1020)%nat)
    (H1 : p1 = [] ∨ ∃ p, p1 = 47 :: p) (H2 : p2 = [] ∨ ∃ p, p2 = 47 :: p) :
  get_part_number n (bytes_of "http://" ++ host ++ p1) = get_part_number n (bytes_of "http://" ++ host ++ p2).
Proof. unfold get_part_number. by rewrite !hash_key_host. Qed.
Lemma partition_affinity_witness :
  get_part_number 5 (bytes_of "http://" ++ bytes_of "www.cs" ++ []) =
  get_part_number 5 (bytes_of "http://" ++ bytes_of "www.cs" ++ bytes_of "/a/b.html").
Proof.
  apply (partition_affinity 5 (bytes_of "www.cs") [] (bytes_of "/a/b.html")).
  - apply (bool_decide_unpack _). vm_compute. exact I.
  - discriminate.
  - cbn. lia.
  - by left.
  - right. by exists (bytes_of "a/b.html").
Defined.

(** The number of a URL selects a server of a non-empty list and never
    walks past its end: it is below the number of servers, and negative only
    for a digest that begins with 80 00 00 00. *)
Theorem partition_in_range `{Digest} (url : bytes) (l : list part_element) (Hl : l ≠ []) :
  let n := get_part_number (Z.of_nat (length l)) url in
  - Z.of_nat (length l) < n < Z.of_nat (length l) ∧
  (digest_bits (digest_of (hash_key url)) ≠ - 2 ^ 31 → 0 <= n) ∧
  (n ≠ -1 → ∃ e, part_pick url l = Some e ∧ ∀ (Monitor : Type) (s : part_state Monitor), part_at n l s = Ret (e, s)).
Proof.
  assert (0 < Z.of_nat (length l)) as Hpos by (destruct l; [done|cbn [length]; lia]). cbv zeta.
  destruct (get_part_number_range url (Z.of_nat (length l)) Hpos) as [Hr Hp]. split; [done|]. split; [done|].
  intros Hne. destruct (part_pick_some url l Hl Hne) as (e & He). exists e. split; [done|]. intros Monitor s.
  apply part_at_ok. unfold part_pick in He. by rewrite (proj2 (Z.eqb_neq _ _) Hne) in He.
Qed.
Lemma partition_in_range_witness :
  let l := [PartElement (SockAddr 1 14348) 16; PartElement (SockAddr 2 14348) 16] in
  let n := get_part_number 2 (bytes_of "http://h/") in
  - 2 < n < 2 ∧ (digest_bits (digest_of (hash_key (bytes_of "http://h/"))) ≠ - 2 ^ 31 → 0 <= n) ∧
  (n ≠ -1 → ∃ e, part_pick (bytes_of "http://h/") l = Some e ∧
     ∀ (Monitor : Type) (s : part_state Monitor), part_at n l s = Ret (e, s)).
Proof. intros l. apply (partition_in_range (bytes_of "http://h/") l). discriminate. Defined.

(** A server added with another port than the cache's is never removed
    by a refused connection: however long the system refuses, the retry of
    [Part_GetTCPsock] does not return. *)
Theorem tcp_retry_livelock `{Digest} {Monitor} (nm : names) (part_opts : bytes → option bytes)
    (url : bytes) (s : part_state Monitor) (e : part_element) (n : nat)
    (Hopts : ∀ k v, part_opts k = Some v → no_nul v) (Hwf : part_wf s) (Ha : attempt_to_regrow s = 0)
    (Hl : partition_list s = [e]) (Hport : sin_port (addr e) ≠ htons 3128) (HA : answers (os s) = refusals n 3) :
  Part_GetTCPsock nm part_opts url s = Stuck.
Proof. by apply (livelock_loop nm part_opts Hopts n _ url 3 None s e). Qed.
Lemma tcp_retry_livelock_witness :
  Part_GetTCPsock demo_names demo_opts (bytes_of "http://h/")
    (PartState 1 [PartElement (SockAddr 7 80) 16] 0 [] [] (Some ()) (Some 6) None true [] [] (Net (refusals 9 3) [] ∅)) = Stuck.
Proof.
  apply (tcp_retry_livelock demo_names demo_opts (bytes_of "http://h/") _ (PartElement (SockAddr 7 80) 16) 9 demo_opts_no_nul);
    [split; [done..|cbn; by eexists]|done|done|by vm_compute|done].
Defined.

(** A failure report on a descriptor never deletes a server: the length of
    the address it looks for is 0. *)
Lemma handle_failure_never_deletes nm part_opts getsockname malloc_usable fd st :
  Forall (λ e, addrlen e ≠ 0) (reload nm part_opts st) →
  ∃ r v, spec_step nm part_opts getsockname malloc_usable (OpFail fd) st = Ret (r, v) ∧ r ≠ CLIB_OK ∧
    v.1 = (if (getsockname fd).1 <? 0 then st.1 else reload nm part_opts st).
Proof.
  intros Hlen. cbn [spec_step]. destruct ((getsockname fd).1 <? 0); [by eexists _, _|]. unfold spec_delete. rewrite decide_False; [by eexists _, _|].
  intros Hin. by apply (proj1 (Forall_forall _ _) Hlen) in Hin.
Qed.

(** Without servers, [Part_GetUDPsock] dereferences NULL. *)
Example udp_no_server_crash :
  Part_GetUDPsock demo_names (λ _, None) (bytes_of "http://h/") demo_part = Crash.
Proof. vm_compute. reflexivity. Qed.
(** With an allocator that gives exactly what is asked for, [Part_Add] writes
    past its block. *)
Example part_add_overflow : Part_Add demo_names demo_opts Some (SockAddr 7 1) 16 demo_part = Crash.
Proof. vm_compute. reflexivity. Qed.
(** The text of an address is in reverse order on a little-endian machine:
    127.0.0.1. *)
Example stream_ntoa_reversed : stream_ntoa 16777343 = bytes_of "1.0.0.127".
Proof. vm_compute. reflexivity. Qed.
(** An address of the documented form that fills the buffer. *)
Example monitor_listen_overread :
  monitor_listen (Some (CfgNv (bytes_of "Monitor.listen") (bytes_of "228.119.100.107/8884/4"))) = Crash.
Proof. vm_compute. reflexivity. Qed.
