(* ===== verification/Icp.v ===== *)
(** * The protocols spoken with the cache (client_lib/src/icp.c)

    The ICP query datagram and its reply, the HTTP request that is sent to a
    server, the growing buffer a response or a client's request is read into,
    the test for the end of a request, and the push of a document.  Integers
    are those of the 32-bit little-endian machines the library is built
    for. *)

From S2P Require Import Prelude CString SockIO.
Open Scope Z_scope.

(** ** Definitions *)

Definition ICP_OP_QUERY : Z := 1.
Definition ICP_OP_HIT : Z := 2.
Definition ICP_OP_MISS : Z := 3.
Definition ICP_VERSION_CURRENT : Z := 2.
Definition ICP_MAX_URL : nat := 4096.
Definition ICP_GET : Z := 0.
Definition ICP_POST : Z := 1.
Definition ICP_HEAD : Z := 2.

(** Memory images of integers, and the conversions to network order. *)
Definition le16 (x : Z) : bytes := [x mod 256; x / 256 mod 256].
Definition le32 (x : Z) : bytes := [x mod 256; x / 256 mod 256; x / 65536 mod 256; x / 16777216 mod 256].
Definition htonl (x : Z) : Z := of_le (rev (le32 x)).

Record icp_common := IcpCommon {
  opcode : Z; version : Z; length_ : Z; reqnum : Z; auth : bytes; shostid : Z }.
(** The union [op]; [Garbage]: not written. *)
Inductive icp_op :=
| Garbage
| Hit (h_size : Z) (h_url : option bytes)
| Miss (m_url : bytes).
Record icp_message := IcpMessage { header : icp_common; op : icp_op }.

Definition icp_common_image (h : icp_common) : bytes :=
  [opcode h; version h] ++ le16 (length_ h) ++ le32 (reqnum h) ++ auth h ++ le32 (shostid h).
Definition icp_common_read (s : bytes) : icp_common :=
  IcpCommon (of_le (take 1 s)) (of_le (take 1 (drop 1 s))) (of_le (take 2 (drop 2 s)))
    (of_le (take 4 (drop 4 s))) (take 8 (drop 8 s)) (of_le (take 4 (drop 16 s))).

Definition icp_query_packet (url : bytes) (s_addr req : Z) : bytes :=
  let len := 20 + 4 + Z.of_nat (length url) + 1 in
  let addrcopy := htonl s_addr in
  let h := IcpCommon ICP_OP_QUERY ICP_VERSION_CURRENT (htons (u16 len)) (htons (u16 req)) (replicate 8 0) addrcopy in
  icp_common_image h ++ le32 addrcopy ++ url ++ [0].

(** [send] on a connected datagram socket. *)
Definition do_icp_query (url : bytes) (source_addr req : Z) : IO Z :=
  '(resp, _) ← sys_write (icp_query_packet url source_addr req);
  mret resp.

(** [recv]: the datagram is the input; the result and [*ret_obj]. *)
Definition do_icp_udp_receive (ret_obj : icp_message) : IO (Z * icp_message) :=
  '(retlen, _, buf) ← sys_read ICP_MAX_URL;
  if retlen <=? 0 then mret (retlen, ret_obj)
  else if retlen <? 20 then mret (-2, ret_obj)
  else
    let h := icp_common_read buf in
    let h := IcpCommon (opcode h) (version h) (htons (length_ h)) (htonl (reqnum h)) (auth h) (htonl (shostid h)) in
    let p := drop 20 buf in
    let retlen := retlen - 20 in
    if opcode h =? ICP_OP_HIT then
      if retlen =? 0 then mret (-2, IcpMessage h (Hit 0 None))
      else mret (1, IcpMessage h (Hit 0 (Some (take (Z.to_nat retlen) p))))
    else if opcode h =? ICP_OP_MISS then
      if retlen =? 0 then mret (-2, IcpMessage h (op ret_obj))
      else mret (0, IcpMessage h (Miss (take (Z.to_nat retlen) p)))
    else mret (-2, IcpMessage h (op ret_obj)).

(** *** HTTP requests *)
Definition CRLF : bytes := [13; 10].

(** [memcmp(headers + strlen(headers) - 4, "\r\n\r\n", 4) == 0]. *)
Definition ends_blank (mime_headers : bytes) : outcome bool :=
  mem_eq (mime_headers ++ [0]) (Z.of_nat (length mime_headers) - 4) (CRLF ++ CRLF).

Definition extra_headers (data_len : Z) : bytes :=
  bytes_of "Accept: image/gif, image/jpeg, */*" ++ CRLF ++
  bytes_of "Content-type: application/x-www-form-urlencoded" ++ CRLF ++
  bytes_of "Content-length: " ++ dec data_len ++ CRLF ++ CRLF.

Definition method_of (request_type : Z) : bytes :=
  if request_type =? ICP_GET then bytes_of "GET "
  else if request_type =? ICP_POST then bytes_of "POST " else bytes_of "HEAD ".

(** Writes that must be complete: the result of the first that is not. *)
Definition write_all (data : bytes) (len : Z) (k : IO Z) : IO Z :=
  retval ← correct_write data len;
  if negb (retval =? len) then mret retval else k.

Definition do_http_send (url : bytes) (mime_headers : option bytes) (data : bytes)
    (data_len_ : Z) (send_http : bool) (request_type : Z) : IO Z :=
  let urllen := Z.of_nat (length url) in
  let mhlen := match mime_headers with Some h => Z.of_nat (length h) | None => 0 end in
  otherlen ← (if request_type =? ICP_GET then mret 4
              else if (request_type =? ICP_POST) || (request_type =? ICP_HEAD) then mret 5
              else exit 1);
  let otherlen := if send_http then otherlen + 11 else otherlen in
  let otherlen := otherlen + 2 in
  let totlen := otherlen + mhlen + urllen in
  let buffer := method_of request_type ++ url in
  let buffer := if send_http then buffer ++ bytes_of " HTTP/1.0" ++ CRLF else buffer in
  let send_data :=
    if negb (data_len_ =? 0) then write_all data data_len_ (mret 1) else mret 1 in
  match mime_headers with
  | Some h =>
      blank ← lift_o (ends_blank h);
      let buffer := buffer ++ h in
      let '(buffer, totlen) := if (blank : bool) then (buffer, totlen - 2) else (buffer ++ CRLF, totlen) in
      write_all buffer totlen send_data
  | None =>
      let totlen := totlen - 2 in
      write_all buffer totlen
        (if (data_len_ =? 0) || negb (request_type =? ICP_POST) then write_all CRLF 2 send_data
         else
           let extra := extra_headers data_len_ in
           write_all extra (Z.of_nat (length extra)) send_data)
  end.

(** *** Growing buffers *)
Section receive.
(** What fresh memory holds. *)
Variable junk : nat → byte.

Definition HTTP_READ_INCR : Z := 4096.
Definition CLIB_CUTTHROUGH_THRESH : Z := 1572864.
Definition realloc (ldata : bytes) (n : Z) : bytes :=
  take (Z.to_nat n) ldata ++ (junk <$> seq (length ldata) (Z.to_nat n - length ldata)).

(** The result, [*len] and the buffer [*data]. *)
Fixpoint do_http_receive_loop (fuel : nat) (ldata : bytes) (curbuff cursize : Z) : IO (Z * Z * bytes) :=
  match fuel with
  | O => stuck
  | S fuel' =>
      if CLIB_CUTTHROUGH_THRESH <? cursize then mret (-2, cursize, ldata)
      else
        let '(ldata, curbuff) :=
          if cursize mod HTTP_READ_INCR =? 0
          then (realloc ldata (u32 (curbuff + HTTP_READ_INCR)), u32 (curbuff + HTTP_READ_INCR))
          else (ldata, curbuff) in
        '(retval, errno, got) ← sys_read (Z.to_nat (u32 (curbuff - cursize)));
        ldata ← lift_o (store_at ldata (Z.to_nat cursize) got);
        if retval <=? 0 then
          if (retval <? 0) && (is_eintr errno || is_eagain errno)
          then do_http_receive_loop fuel' ldata curbuff cursize
          else mret (retval, cursize, ldata)
        else do_http_receive_loop fuel' ldata curbuff (u32 (cursize + retval))
  end.
Definition do_http_receive : IO (Z * Z * bytes) :=
  w ← get;
  do_http_receive_loop (io_fuel w) [] 0 0.

(** [strncmp(buf + i, s, length s)]: reads up to the first difference. *)
Fixpoint strncmp_at (buf : bytes) (i : Z) (s : bytes) : outcome bool :=
  match s with
  | [] => Ret true
  | c :: s' =>
      b ← rd buf i;
      if b =? c then strncmp_at buf (i + 1) s' else Ret false
  end.

(** [while (( *lf == 0x0A || *lf == 0x0D) && lf >= buf) lf--]. *)
Fixpoint skip_back (fuel : nat) (buf : bytes) (lf : Z) : outcome Z :=
  match fuel with
  | O => Stuck
  | S fuel' =>
      c ← rd buf lf;
      if ((c =? 10) || (c =? 13)) && (0 <=? lf) then skip_back fuel' buf (lf - 1) else Ret lf
  end.

(** [atoi(buf + i)]: the number must end before the buffer does. *)
Definition atoi_at (buf : bytes) (i : Z) : outcome Z :=
  let s := drop (Z.to_nat i) buf in
  let t := skip_blanks s in
  let t := match t with c :: t' => if (c =? 45) || (c =? 43) then t' else t | [] => t end in
  if (i <? 0) || bool_decide (length t <= span_in isdigit t)%nat then Crash else Ret (atoi s).

(** The first of the spellings of the header that occurs before [headlen]. *)
Fixpoint find_header (buf : bytes) (headlen : Z) (spellings : list bytes) : outcome (option Z) :=
  match spellings with
  | [] => Ret None
  | sp :: rest =>
      clen ← dumb_strnstr buf sp headlen;
      match clen with Some p => Ret (Some p) | None => find_header buf headlen rest end
  end.
Definition length_spellings : list bytes :=
  bytes_of <$> ["content-length: "; "Content-length: "; "Content-Length: "; "CONTENT-LENGTH: "]%string.

Definition test_client_read_done (buf : bytes) (blen : Z) : outcome Z :=
  match strchr (take (Z.to_nat blen) buf) 10 with
  | None => Ret 0
  | Some lf =>
      lf ← skip_back (S (S lf)) buf (Z.of_nat lf);
      http ← strncmp_at buf (lf - 8) (bytes_of " HTTP/");
      if negb http then Ret 1
      else
        lf ← dumb_strnstr buf (CRLF ++ CRLF) blen;
        lf ← match lf with
             | None =>
                 lf ← dumb_strnstr buf [10; 10] blen;
                 match lf with None => Ret None | Some lf => Ret (Some (lf + 2)) end
             | Some lf => Ret (Some (lf + 4))
             end;
        match lf with
        | None => Ret 0
        | Some headlen =>
            clen ← find_header buf headlen length_spellings;
            match clen with
            | None => Ret 1
            | Some clen =>
                contlen ← atoi_at buf (clen + 16);
                if contlen <=? blen - headlen then Ret 1 else Ret 0
            end
        end
  end.

(** [errno] keeps the code of the last call that failed. *)
Fixpoint do_http_client_receive_loop (fuel : nat) (err : errno) (ldata : bytes) (curbuff cursize : Z) :
    IO (Z * Z * bytes) :=
  match fuel with
  | O => stuck
  | S fuel' =>
      let '(ldata, curbuff) :=
        if cursize mod HTTP_READ_INCR =? 0
        then (realloc ldata (u32 (curbuff + HTTP_READ_INCR)), u32 (curbuff + HTTP_READ_INCR))
        else (ldata, curbuff) in
      '(retval, e, got) ← sys_read (Z.to_nat (u32 (curbuff - cursize)));
      let err := if retval <? 0 then e else err in
      ldata ← lift_o (store_at ldata (Z.to_nat cursize) got);
      if retval <=? 0 then
        if is_eintr err || is_eagain err
        then do_http_client_receive_loop fuel' err ldata curbuff cursize
        else mret (retval, cursize, ldata)
      else
        let cursize := u32 (cursize + retval) in
        done_ ← lift_o (test_client_read_done ldata cursize);
        if negb (done_ =? 0) then mret (0, cursize, ldata)
        else do_http_client_receive_loop fuel' err ldata curbuff cursize
  end.
Definition do_http_client_receive (err : errno) : IO (Z * Z * bytes) :=
  w ← get;
  do_http_client_receive_loop (io_fuel w) err [] 0 0.
End receive.

(** *** Push of a document *)
Definition do_http_put_verify : IO Z :=
  '(retval, _, _) ← sys_read 1024;
  if retval <=? 0 then mret retval else mret 1.

Definition do_http_put (url mime_headers : bytes) (mh_len : Z) (data : bytes) (data_len_ : Z) : IO Z :=
  let totreq := 5 + Z.of_nat (length url) + 13 + 1 in
  let req_buf := bytes_of "CPUT " ++ url ++ bytes_of " HTTP/1.0" ++ CRLF ++ CRLF ++ [0] in
  write_all req_buf totreq
    (retval ← do_http_put_verify;
     if negb (retval =? 1) then mret retval
     else write_all mime_headers mh_len
            (write_all data data_len_ (mret (totreq + mh_len + data_len_)))).

(** ** Specification *)

(** What a request should be on the wire: the headers given end with exactly
    one blank line. *)
Definition request_bytes (url : bytes) (mime_headers : option bytes) (data : bytes) (send_http : bool)
    (request_type : Z) : bytes :=
  method_of request_type ++ url ++ (if send_http then bytes_of " HTTP/1.0" ++ CRLF else []) ++
  match mime_headers with
  | Some h => if bool_decide (drop (length h - 4) h = CRLF ++ CRLF) then h else h ++ CRLF
  | None => if bool_decide (data = [] ∨ request_type ≠ ICP_POST) then CRLF
            else extra_headers (Z.of_nat (length data))
  end ++ data.

(** Answers that move bytes. *)
Fixpoint moves (xs : list xfer) : nat :=
  match xs with [] => O | Moved _ :: r => S (moves r) | Failed _ :: r => moves r end.

(** The procedure [m] sends [req] and returns [ok], or fails having sent a
    proper prefix of it; it is never stopped when there are as many answers
    that move bytes as bytes to send. *)
Definition sends (m : IO Z) (req : bytes) (ok : Z) : Prop := ∀ w,
  match m w with
  | Ret (r, w') => ∃ n, wire w' = wire w ++ take n req ∧ input w' = input w ∧
      sels w' = sels w ∧ xfers w' `suffix_of` xfers w ∧
      ((r = ok ∧ n = length req ∧ (moves (xfers w) <= moves (xfers w') + length req)%nat) ∨
       (r <= 0 ∧ (n < length req)%nat ∧ forallb live (xfers w) = false))
  | Stuck => (moves (xfers w) < length req)%nat
  | _ => False
  end.

(** The header of a packet as the other side reads it. *)
Definition to_host (h : icp_common) : icp_common :=
  IcpCommon (opcode h) (version h) (htons (length_ h)) (htonl (reqnum h)) (auth h) (htonl (shostid h)).
Record common_ok (h : icp_common) : Prop := {
  ok_opcode : 0 <= opcode h < 256;
  ok_version : 0 <= version h < 256;
  ok_length : 0 <= length_ h < 2 ^ 16;
  ok_reqnum : 0 <= reqnum h < 2 ^ 32;
  ok_shostid : 0 <= shostid h < 2 ^ 32;
  ok_auth : length (auth h) = 8%nat;
}.

(** ** Lemmas *)

Lemma of_le_le16 x : 0 <= x < 2 ^ 16 → of_le (le16 x) = x.
Proof. intros H. cbn. pose proof (Z.div_mod x 256). rewrite (Z.mod_small (x / 256)) by (split; [apply Z.div_pos; lia|apply Z.div_lt_upper_bound; lia]). lia. Qed.
Lemma of_le_le32 x : 0 <= x < 2 ^ 32 → of_le (le32 x) = x.
Proof.
  intros H. cbn. replace (x / 65536) with (x / 256 / 256) by (by rewrite Z.div_div by lia).
  replace (x / 16777216) with (x / 256 / 256 / 256) by (by rewrite !Z.div_div by lia).
  assert (0 <= x / 256 / 256 / 256 < 256) by (rewrite !Z.div_div by lia; split; [apply Z.div_pos; lia|apply Z.div_lt_upper_bound; lia]).
  rewrite (Z.mod_small (x / 256 / 256 / 256)) by done.
  pose proof (Z.div_mod x 256). pose proof (Z.div_mod (x / 256) 256). pose proof (Z.div_mod (x / 256 / 256) 256). lia.
Qed.
Lemma htons_bytes x : 0 <= x < 2 ^ 16 → htons x = 256 * (x mod 256) + x / 256.
Proof.
  intros H. unfold htons. change 255 with (Z.ones 8). rewrite !Z.land_ones by lia.
  rewrite Z.shiftr_div_pow2 by lia. change (2 ^ 8) with 256.
  rewrite (Z.mod_small (x / 256)) by (split; [apply Z.div_pos; lia|apply Z.div_lt_upper_bound; lia]).
  rewrite <-Z.add_nocarry_lor.
  - rewrite Z.shiftl_mul_pow2 by lia. lia.
  - apply land_shiftl_small; [lia|]. split; [apply Z.div_pos; lia|apply Z.div_lt_upper_bound; lia].
Qed.
Lemma htons_range x : 0 <= x < 2 ^ 16 → 0 <= htons x < 2 ^ 16.
Proof.
  intros H. rewrite htons_bytes by done. pose proof (Z.mod_pos_bound x 256 ltac:(lia)).
  assert (0 <= x / 256 < 256) by (split; [apply Z.div_pos; lia|apply Z.div_lt_upper_bound; lia]). lia.
Qed.
Lemma htons_htons x : 0 <= x < 2 ^ 16 → htons (htons x) = x.
Proof.
  intros H. rewrite (htons_bytes (htons x)) by (by apply htons_range). rewrite htons_bytes by done.
  pose proof (Z.mod_pos_bound x 256 ltac:(lia)). pose proof (Z.div_mod x 256 ltac:(lia)).
  assert (0 <= x / 256 < 256) by (split; [apply Z.div_pos; lia|apply Z.div_lt_upper_bound; lia]).
  set (q := x / 256) in *. set (r := x mod 256) in *. clearbody q r.
  replace (256 * r + q) with (q + r * 256) by lia. rewrite Z.mod_add, Z.div_add by lia.
  rewrite (Z.mod_small q), (Z.div_small q) by lia. lia.
Qed.
Lemma le32_of_le a b c d :
  0 <= a < 256 → 0 <= b < 256 → 0 <= c < 256 → 0 <= d < 256 → le32 (of_le [a; b; c; d]) = [a; b; c; d].
Proof.
  intros. cbn. rewrite Z.mul_0_r, Z.add_0_r. unfold le32.
  replace ((a + 256 * (b + 256 * (c + 256 * d))) / 65536) with ((a + 256 * (b + 256 * (c + 256 * d))) / 256 / 256) by (by rewrite Z.div_div by lia).
  replace ((a + 256 * (b + 256 * (c + 256 * d))) / 16777216) with ((a + 256 * (b + 256 * (c + 256 * d))) / 256 / 256 / 256) by (by rewrite !Z.div_div by lia).
  assert (Hstep : ∀ x y, 0 <= x < 256 → (x + 256 * y) mod 256 = x ∧ (x + 256 * y) / 256 = y).
  { intros x y Hx. rewrite (Z.mul_comm 256 y), Z.mod_add, Z.div_add by lia. rewrite Z.mod_small, Z.div_small by lia. lia. }
  rewrite !(proj1 (Hstep a _ ltac:(done))), !(proj2 (Hstep a _ ltac:(done))).
  rewrite !(proj1 (Hstep b _ ltac:(done))), !(proj2 (Hstep b _ ltac:(done))).
  rewrite !(proj1 (Hstep c _ ltac:(done))), !(proj2 (Hstep c _ ltac:(done))).
  by rewrite Z.mod_small by lia.
Qed.
Lemma htonl_htonl x : 0 <= x < 2 ^ 32 → htonl (htonl x) = x ∧ 0 <= htonl x < 2 ^ 32.
Proof.
  intros H. unfold htonl. change (rev (le32 x)) with [x / 16777216 mod 256; x / 65536 mod 256; x / 256 mod 256; x mod 256].
  assert (Hm : ∀ y, 0 <= y mod 256 < 256) by (intros y; apply Z.mod_pos_bound; lia).
  split; [rewrite le32_of_le by done; by apply (of_le_le32 x)|].
  cbn [of_le]. pose proof (Hm x); pose proof (Hm (x / 256)); pose proof (Hm (x / 65536)); pose proof (Hm (x / 16777216)). lia.
Qed.

Lemma icp_common_read_image h s : common_ok h → icp_common_read (icp_common_image h ++ s) = h.
Proof.
  intros [Ho Hv Hl Hr Hs Ha]. unfold icp_common_read, icp_common_image. destruct h as [o v l r a sh]; cbn [opcode version length_ reqnum auth shostid] in *.
  destruct a as [|a0 [|a1 [|a2 [|a3 [|a4 [|a5 [|a6 [|a7 [|]]]]]]]]]; try done.
  f_equal; [cbn; lia|cbn; lia| | |].
  - change (take 2 _) with (le16 l). by apply of_le_le16.
  - change (take 4 _) with (le32 r). by apply of_le_le32.
  - change (take 4 _) with (le32 sh). by apply of_le_le32.
Qed.
Lemma length_image h : length (auth h) = 8%nat → length (icp_common_image h) = 20%nat.
Proof. intros H. unfold icp_common_image. rewrite !length_app, H. done. Qed.

Lemma to_host_ok h : common_ok h → common_ok (to_host h) ∧ to_host (to_host h) = h.
Proof.
  intros [Ho Hv Hl Hr Hs Ha]. split.
  - split; cbn [opcode version length_ reqnum auth shostid to_host]; try done; [by apply htons_range|by apply htonl_htonl|by apply htonl_htonl].
  - unfold to_host. cbn [opcode version length_ reqnum auth shostid]. rewrite htons_htons by done.
    rewrite (proj1 (htonl_htonl _ Hr)), (proj1 (htonl_htonl _ Hs)). by destruct h.
Qed.

(** *** Sending *)
Lemma moves_budget xs : forallb live xs = true → (moves xs <= budget xs)%nat.
Proof.
  induction xs as [|[[|k]|e] r IH]; cbn; [done|done| |]; intros Hl.
  - specialize (IH Hl). lia.
  - apply andb_true_iff in Hl as [_ Hl]. by apply IH.
Qed.

Lemma write_loop_moves data len fuel : ∀ w from,
  (from <= len <= length data)%nat →
  (length (xfers w) < fuel)%nat →
  match correct_write_loop fuel data (Z.of_nat len) (Z.of_nat from) w with
  | Ret (r, w') => sels w' = sels w ∧ xfers w' `suffix_of` xfers w ∧
      (r = Z.of_nat len → (moves (xfers w) <= moves (xfers w') + (len - from))%nat)
  | Stuck => (moves (xfers w) < len - from)%nat
  | _ => True
  end.
Proof.
  induction fuel as [|fuel IH]; intros w from Hlen Hfuel; [lia|]. cbn [correct_write_loop].
  destruct (Z.eqb_spec (Z.of_nat from) (Z.of_nat len)) as [Heq|Hne].
  { split; [done|]. split; [done|]. lia. }
  replace (Z.to_nat (Z.of_nat len - Z.of_nat from)) with (len - from)%nat by lia. rewrite Nat2Z.id.
  destruct (xfers w) as [|[k|e] r] eqn:Hx.
  - unfold mbind, M_mbind, sys_write. rewrite Hx. cbn. lia.
  - destruct (sys_write_moved data from len k r w ltac:(lia) Hx) as (w' & Hr & _ & Hx' & Hs'). step_with Hr.
    cbn in Hfuel. rewrite <-Hx' in Hfuel. set (n := (k `min` (len - from))%nat) in *.
    assert (Hsuf : xfers w' `suffix_of` Moved k :: r) by (rewrite Hx'; by exists [Moved k]).
    destruct (Z.leb_spec (Z.of_nat n) 0) as [Hn0|Hn0].
    + destruct (transient (Z.of_nat n) (EOTHER 0)) eqn:Ht; [unfold transient in Ht; cbn in Ht; by rewrite andb_false_r in Ht|].
      split; [done|]. split; [done|]. lia.
    + replace (Z.of_nat from + Z.of_nat n) with (Z.of_nat (from + n)) by lia.
      specialize (IH w' (from + n)%nat ltac:(lia) ltac:(lia)). cbn [moves]. rewrite Hx' in IH.
      destruct (correct_write_loop fuel data (Z.of_nat len) (Z.of_nat (from + n)) w') as [[r' w2]| | |]; try done; [|lia].
      destruct IH as (Hs2 & Hsuf2 & Hm2). split; [congruence|]. split; [by apply suffix_cons_r|]. intros Hr'. specialize (Hm2 Hr'). lia.
  - assert (Hr : sys_write (take (len - from) (drop from data)) w = Ret ((-1, e), with_xfers r w)) by (unfold sys_write; by rewrite Hx).
    step_with Hr. change (-1 <=? 0) with true. cbn iota. cbn in Hfuel. destruct (transient (-1) e).
    2: { split; [done|]. split; [by exists [Failed e]|]. lia. }
    specialize (IH (with_xfers r w) from Hlen). cbn [xfers sels with_xfers moves] in *. specialize (IH ltac:(lia)).
    destruct (correct_write_loop fuel data (Z.of_nat len) (Z.of_nat from) (with_xfers r w)) as [[r' w2]| | |]; try done.
    destruct IH as (Hs2 & Hsuf2 & Hm2). split; [done|]. split; [by apply suffix_cons_r|done].
Qed.

Lemma sends_ret ok : sends (mret ok) [] ok.
Proof. intros w. exists 0%nat. split; [by rewrite app_nil_r|]. split; [done|]. split; [done|]. split; [done|]. left. cbn. lia. Qed.
Lemma live_suffix xs ys : ys `suffix_of` xs → forallb live ys = false → forallb live xs = false.
Proof. intros [zs ->] H. rewrite forallb_app, H. apply andb_false_r. Qed.

Lemma sends_write data k rest ok : sends k rest ok → sends (write_all data (Z.of_nat (length data)) k) (data ++ rest) ok.
Proof.
  intros Hk w. unfold write_all, correct_write.
  assert (Hdl : data_len data (Z.of_nat (length data)) = Z.of_nat (length data)).
  { unfold data_len. destruct (Z.eqb_spec (Z.of_nat (length data)) (-1)); [lia|done]. }
  assert (Hf : (length (xfers w) < io_fuel w)%nat) by (unfold io_fuel; lia).
  pose proof (correct_write_loop_spec data (length data) ltac:(lia) (io_fuel w) w 0 ltac:(lia) Hf) as Hw.
  pose proof (write_loop_moves data (length data) (io_fuel w) w 0 ltac:(lia) Hf) as Hm.
  change (Z.of_nat 0) with 0 in *. rewrite M_assoc, (bind_ret get _ _ _ _ eq_refl). rewrite Hdl. unfold mbind, M_mbind.
  destruct (correct_write_loop (io_fuel w) data (Z.of_nat (length data)) 0 w) as [[r w']| | |]; [|done..|].
  2: { rewrite length_app. lia. }
  destruct Hm as (Hsel & Hsuf & Hm).
  destruct Hw as (n & [Hwire Hin] & [[-> Hn]|(Hr & Hn & Hlive)]); rewrite drop_0 in Hwire.
  - rewrite Z.eqb_refl. cbn [negb]. specialize (Hm eq_refl). assert (n = length data) as -> by lia. rewrite firstn_all in Hwire.
    specialize (Hk w'). destruct (k w') as [[r w2]| | |]; [|done..|rewrite length_app; lia].
    destruct Hk as (n & Hw2 & Hi2 & Hsel2 & Hsuf2 & Hcase). exists (length data + n)%nat.
    split; [by rewrite Hw2, Hwire, <-app_assoc, take_app_add|]. split; [congruence|]. split; [congruence|].
    split; [by transitivity (xfers w')|]. rewrite length_app.
    destruct Hcase as [(-> & -> & ?)|(? & ? & ?)]; [left; lia|right]. split; [done|]. split; [lia|]. by eapply live_suffix.
  - destruct (Z.eqb_spec r (Z.of_nat (length data))); [exfalso; lia|]. cbn [negb]. exists n.
    split; [by rewrite Hwire, take_app_le by lia|]. split; [done|]. split; [done|]. split; [done|]. right. rewrite length_app. split; [done|]. split; [lia|done].
Qed.

Lemma ends_blank_ok h : (4 <= length h)%nat → ends_blank h = Ret (bool_decide (drop (length h - 4) h = CRLF ++ CRLF)).
Proof.
  intros Hl. unfold ends_blank. replace (Z.of_nat (length h) - 4) with (Z.of_nat (length h - 4)) by lia.
  assert (H4 : length (CRLF ++ CRLF) = 4%nat) by done.
  rewrite mem_eq_spec by (rewrite H4, length_app; cbn [length]; lia). f_equal. apply bool_decide_ext. unfold match_at. rewrite H4.
  rewrite drop_app_le by lia. rewrite take_app_le by (rewrite length_drop; lia). rewrite take_ge; [done|rewrite length_drop; lia].
Qed.

Lemma do_http_send_sends url mime_headers data send_http request_type :
  request_type ∈ [ICP_GET; ICP_POST; ICP_HEAD] →
  match mime_headers with Some h => (4 <= length h)%nat | None => True end →
  sends (do_http_send url mime_headers data (Z.of_nat (length data)) send_http request_type)
    (request_bytes url mime_headers data send_http request_type) 1.
Proof.
  intros Hty Hmh. unfold do_http_send, request_bytes.
  assert (Hdata : sends (if negb (Z.of_nat (length data) =? 0) then write_all data (Z.of_nat (length data)) (mret 1) else mret 1) data 1).
  { destruct (Z.eqb_spec (Z.of_nat (length data)) 0); cbn [negb].
    - destruct data; [apply sends_ret|cbn in *; lia].
    - rewrite <-(app_nil_r data) at 3. apply sends_write, sends_ret. }
  set (send_data := if negb (Z.of_nat (length data) =? 0) then _ else _) in *.
  set (base := method_of request_type ++ url ++ (if send_http then bytes_of " HTTP/1.0" ++ CRLF else [])).
  set (otherlen := (if send_http then Z.of_nat (length (method_of request_type)) + 11 else Z.of_nat (length (method_of request_type))) + 2).
  assert (Hbase : otherlen + Z.of_nat (length url) = Z.of_nat (length base) + 2).
  { unfold otherlen, base. rewrite !length_app. destruct send_http; cbn [length app bytes_of CRLF]; lia. }
  assert (Hbuf : (if send_http then (method_of request_type ++ url) ++ bytes_of " HTTP/1.0" ++ CRLF else method_of request_type ++ url) = base).
  { unfold base. destruct send_http; app_norm. }
  intros w.
  assert (Hty' : ∀ (m : Z → IO Z), ((if request_type =? ICP_GET then mret 4
     else if (request_type =? ICP_POST) || (request_type =? ICP_HEAD) then mret 5 else exit 1) ≫= m) w =
     m (Z.of_nat (length (method_of request_type))) w).
  { intros m. repeat (apply elem_of_cons in Hty as [->|Hty]; [reflexivity|]). set_solver. }
  rewrite Hty'. clear Hty'. cbn zeta. fold otherlen. rewrite Hbuf. clear Hbuf. revert w.
  destruct mime_headers as [h|].
  - intros w. assert (Hb : lift_o (ends_blank h) w = Ret (bool_decide (drop (length h - 4) h = CRLF ++ CRLF), w)).
    { unfold lift_o. by rewrite ends_blank_ok. }
    step_with Hb. clear Hb. revert w. case_bool_decide.
    + replace (otherlen + Z.of_nat (length h) + Z.of_nat (length url) - 2) with (Z.of_nat (length (base ++ h))) by (rewrite length_app; lia).
      replace (method_of request_type ++ url ++ (if send_http then bytes_of " HTTP/1.0" ++ CRLF else []) ++ h ++ data) with ((base ++ h) ++ data) by (unfold base; app_norm). by apply sends_write.
    + replace (otherlen + Z.of_nat (length h) + Z.of_nat (length url)) with (Z.of_nat (length ((base ++ h) ++ CRLF))) by (len_norm; cbn [length CRLF]; lia).
      replace (method_of request_type ++ url ++ (if send_http then bytes_of " HTTP/1.0" ++ CRLF else []) ++ (h ++ CRLF) ++ data) with (((base ++ h) ++ CRLF) ++ data) by (unfold base; app_norm). by apply sends_write.
  - replace (otherlen + 0 + Z.of_nat (length url) - 2) with (Z.of_nat (length base)) by lia.
    assert (Hcond : (Z.of_nat (length data) =? 0) || negb (request_type =? ICP_POST) = bool_decide (data = [] ∨ request_type ≠ ICP_POST)).
    { destruct (Z.eqb_spec request_type ICP_POST) as [->|Hne]; cbn [negb].
      - rewrite orb_false_r. destruct data as [|c data]; cbn [length].
        + rewrite bool_decide_true by (by left). done.
        + rewrite bool_decide_false by (by intros [|]). destruct (Z.eqb_spec (Z.of_nat (S (length data))) 0); [lia|done].
      - rewrite orb_true_r, bool_decide_true by (by right). done. }
    rewrite Hcond. set (mid := if bool_decide (data = [] ∨ request_type ≠ ICP_POST) then CRLF else extra_headers (Z.of_nat (length data))).
    replace (method_of request_type ++ url ++ (if send_http then bytes_of " HTTP/1.0" ++ CRLF else []) ++ mid ++ data) with (base ++ mid ++ data) by (unfold base; by rewrite <-!app_assoc).
    apply sends_write. unfold mid. case_bool_decide; [by apply (sends_write CRLF)|by apply sends_write].
Qed.

(** *** Receiving *)
Section receive_lemmas.
Variable junk : nat → byte.

Lemma realloc_grow ldata n : Z.of_nat (length ldata) <= n →
  length (realloc junk ldata n) = Z.to_nat n ∧ ∀ k, (k <= length ldata)%nat → take k (realloc junk ldata n) = take k ldata.
Proof.
  intros Hn. unfold realloc. rewrite take_ge by lia. split; [rewrite length_app, length_fmap, length_seq; lia|].
  intros k Hk. by rewrite take_app_le.
Qed.

Lemma store_at_ok ldata got sofar : (sofar + length got <= length ldata)%nat →
  ∃ ldata', store_at ldata sofar got = Ret ldata' ∧ length ldata' = length ldata ∧
    take (sofar + length got) ldata' = take sofar ldata ++ got.
Proof.
  intros Hl. unfold store_at. rewrite decide_True by done. eexists. split; [reflexivity|].
  assert (Ht : length (take sofar ldata) = sofar) by (rewrite length_take; lia). split.
  - rewrite !length_app, Ht, length_drop. lia.
  - rewrite app_assoc. rewrite take_app_length'; [done|]. rewrite length_app. lia.
Qed.

(** The state of a growing buffer that holds [got]. *)
Record buffer_ok (fuel : nat) (ldata : bytes) (curbuff : Z) (got : bytes) : Prop := {
  buf_len : Z.of_nat (length ldata) = curbuff;
  buf_mult : curbuff mod 4096 = 0;
  buf_room : (length got <= length ldata)%nat;
  buf_got : take (length got) ldata = got;
  buf_word : curbuff + 4096 * Z.of_nat fuel < 2 ^ 32;
}.

(** Growing when the bytes read fill a whole number of increments leaves
    room for at least one more. *)
Lemma buffer_grow fuel ldata curbuff got :
  buffer_ok (S fuel) ldata curbuff got →
  ∃ ldata' curbuff', (if Z.of_nat (length got) mod HTTP_READ_INCR =? 0
    then (realloc junk ldata (u32 (curbuff + HTTP_READ_INCR)), u32 (curbuff + HTTP_READ_INCR)) else (ldata, curbuff)) = (ldata', curbuff') ∧
    buffer_ok fuel ldata' curbuff' got ∧ Z.of_nat (length got) < curbuff' ∧ curbuff' < 2 ^ 32.
Proof.
  intros [Hl Hm Hr Hg Hw]. unfold HTTP_READ_INCR. destruct (Z.eqb_spec (Z.of_nat (length got) mod 4096) 0) as [H0|H0].
  - rewrite wrap_small by lia. destruct (realloc_grow ldata (curbuff + 4096) ltac:(lia)) as [Hrl Hrt].
    eexists _, _. split; [reflexivity|]. split; [split|].
    + rewrite Hrl. lia.
    + replace (curbuff + 4096) with (curbuff + 1 * 4096) by lia. by rewrite Z.mod_add by lia.
    + rewrite Hrl. lia.
    + by rewrite Hrt.
    + lia.
    + lia.
  - eexists _, _. split; [reflexivity|]. split; [split; try done; lia|]. split; [|lia].
    assert (Z.of_nat (length got) ≠ curbuff) by (intros E; rewrite E in H0; done). lia.
Qed.

Lemma buffer_store fuel ldata curbuff got1 got2 :
  buffer_ok fuel ldata curbuff got1 → Z.of_nat (length got1) + Z.of_nat (length got2) <= curbuff →
  ∃ ldata', store_at ldata (length got1) got2 = Ret ldata' ∧ buffer_ok fuel ldata' curbuff (got1 ++ got2).
Proof.
  intros [Hl Hm Hr Hg Hw] Hle. destruct (store_at_ok ldata got2 (length got1)) as (ldata' & E & Hl' & Ht); [lia|].
  exists ldata'. split; [done|]. split; rewrite ?Hl'; try done; rewrite length_app; [lia|]. by rewrite Ht, Hg.
Qed.

(** One [read] into the free space. *)
Lemma sys_read_cases n w : (0 < n)%nat →
  match xfers w with
  | [] => sys_read n w = Stuck
  | Moved k :: r => ∃ got, sys_read n w = Ret ((Z.of_nat (length got), EOTHER 0, got), with_input (drop (length got) (input w)) (with_xfers r w)) ∧
      (length got <= n)%nat ∧ input w = got ++ drop (length got) (input w) ∧
      (got = [] → k = 0%nat ∨ input w = [])
  | Failed e :: r => sys_read n w = Ret ((-1, e, []), with_xfers r w)
  end.
Proof.
  intros Hn. unfold sys_read. destruct (xfers w) as [|[k|e] r]; [done| |done]. eexists. split; [reflexivity|].
  set (got := take (k `min` n) (input w)). split; [unfold got; rewrite length_take; lia|].
  split.
  - unfold got. rewrite length_take. destruct (decide (k `min` n <= length (input w))%nat).
    + replace ((k `min` n) `min` length (input w))%nat with (k `min` n)%nat by lia. by rewrite take_drop.
    + rewrite take_ge by lia. rewrite drop_ge by lia. by rewrite app_nil_r.
  - unfold got. intros Hg. destruct (input w) as [|b i]; [by right|left]. destruct k; [done|]. destruct n; [lia|done].
Qed.

Lemma do_http_receive_loop_spec fuel : ∀ ldata curbuff got w,
  buffer_ok fuel ldata curbuff got → (length (xfers w) < fuel)%nat →
  match do_http_receive_loop junk fuel ldata curbuff (Z.of_nat (length got)) w with
  | Ret ((r, len, data), w') => ∃ more, input w = more ++ input w' ∧ wire w' = wire w ∧
      len = Z.of_nat (length (got ++ more)) ∧ take (length (got ++ more)) data = got ++ more ∧
      ((r = 0 ∧ (input w' = [] ∨ forallb live (xfers w) = false)) ∨
       (r = -1 ∧ forallb live (xfers w) = false) ∨ (r = -2 ∧ CLIB_CUTTHROUGH_THRESH < len))
  | Stuck => forallb live (xfers w) = true ∧ (moves (xfers w) <= length (input w))%nat
  | _ => False
  end.
Proof.
  induction fuel as [|fuel IH]; intros ldata curbuff got w Hbuf Hfuel; [lia|]. cbn [do_http_receive_loop].
  destruct (Z.ltb_spec CLIB_CUTTHROUGH_THRESH (Z.of_nat (length got))) as [Hcut|Hcut].
  { exists []. rewrite app_nil_r. split; [done|]. split; [done|]. split; [done|]. split; [apply Hbuf|]. right. right. by split. }
  destruct (buffer_grow fuel ldata curbuff got Hbuf) as (ld & cb & -> & Hbuf' & Hlt & Hcb).
  rewrite wrap_small by lia.
  pose proof (sys_read_cases (Z.to_nat (cb - Z.of_nat (length got))) w ltac:(lia)) as Hread. rewrite Nat2Z.id.
  destruct (xfers w) as [|[k|e] r] eqn:Hx.
  - unfold mbind, M_mbind. rewrite Hread. cbn. lia.
  - destruct Hread as (g & E & Hg & Hin & Hg0). step_with E. set (w1 := with_input _ _) in *.
    destruct (buffer_store fuel ld cb got g Hbuf' ltac:(lia)) as (ld2 & Est & Hbuf2).
    assert (Est' : lift_o (store_at ld (length got) g) w1 = Ret (ld2, w1)) by (unfold lift_o; by rewrite Est).
    step_with Est'. destruct (Z.leb_spec (Z.of_nat (length g)) 0) as [Hg1|Hg1].
    + destruct (Z.ltb_spec (Z.of_nat (length g)) 0) as [|_]; [lia|]. cbn [andb].
      assert (g = []) as -> by (destruct g; [done|cbn in Hg1; lia]). exists []. rewrite app_nil_r in *. cbn in Hin.
      split; [done|]. split; [done|]. split; [done|]. split; [apply Hbuf2|]. left. split; [done|].
      destruct (Hg0 eq_refl) as [->|Hi0]; [by right|left]. unfold w1. cbn. by rewrite Hi0.
    + assert (Hlen2 : Z.of_nat (length got) + Z.of_nat (length g) = Z.of_nat (length (got ++ g))) by (rewrite length_app; lia).
      rewrite Hlen2. rewrite wrap_small by lia.
      specialize (IH ld2 cb (got ++ g) w1 Hbuf2). unfold w1 in IH at 1. cbn [xfers with_input with_xfers] in IH. cbn in Hfuel. specialize (IH ltac:(lia)).
      destruct (do_http_receive_loop junk fuel ld2 cb (Z.of_nat (length (got ++ g))) w1) as [[[[r' l'] d'] w2]| | |]; [|done..|].
      * destruct IH as (more & Hi & Hw & Hl & Ht & Hcase). exists (g ++ more). rewrite <-app_assoc. rewrite <-app_assoc in Hl, Ht.
        split; [by rewrite Hin; unfold w1 in Hi; cbn in Hi; rewrite Hi|].
        split; [done|]. split; [done|]. split; [done|]. unfold w1 in Hcase. cbn [xfers with_input with_xfers] in Hcase. cbn [forallb].
        destruct Hcase as [[? [?|Hl2]]|[[? Hl2]|?]]; [by left; split; [|left]| | |by right; right].
        -- left. split; [done|]. right. rewrite Hl2. apply andb_false_r.
        -- right. left. split; [done|]. rewrite Hl2. apply andb_false_r.
      * unfold w1 in IH. cbn [xfers input with_input with_xfers] in IH. destruct IH as [Hl2 Hm2]. rewrite length_drop in Hm2.
        cbn [forallb moves]. assert (Hk : live (Moved k) = true).
        { destruct k; [|done]. exfalso. unfold sys_read in E. rewrite Hx in E. cbn in E. injection E as E _. destruct g; [cbn in Hg1; lia|done]. }
        rewrite Hk, Hl2. split; [done|]. apply (f_equal length) in Hin. rewrite length_app, length_drop in Hin. lia.
  - step_with Hread. destruct (buffer_store fuel ld cb got [] Hbuf' ltac:(cbn; lia)) as (ld2 & Est & Hbuf2). rewrite app_nil_r in Hbuf2.
    assert (Est' : lift_o (store_at ld (length got) []) (with_xfers r w) = Ret (ld2, with_xfers r w)) by (unfold lift_o; by rewrite Est).
    step_with Est'. change (-1 <=? 0) with true. change (-1 <? 0) with true. cbn [andb]. cbn iota. cbn [live forallb moves]. rewrite orb_comm.
    cbn in Hfuel. destruct (is_eagain e || is_eintr e).
    + apply (IH ld2 cb got (with_xfers r w) Hbuf2). cbn. lia.
    + exists []. rewrite app_nil_r. split; [done|]. split; [done|]. split; [done|]. split; [apply Hbuf2|]. right. by left.
Qed.
End receive_lemmas.

(** *** The end of a request *)
Lemma strncmp_at_app pre s post : strncmp_at (pre ++ s ++ post) (Z.of_nat (length pre)) s = Ret true.
Proof.
  revert pre. induction s as [|c s IH]; intros pre; cbn [strncmp_at app]; [done|]. rewrite rd_app. cbn [mbind outcome_mbind].
  rewrite Z.eqb_refl. replace (pre ++ c :: s ++ post) with ((pre ++ [c]) ++ s ++ post) by app_norm.
  replace (Z.of_nat (length pre) + 1) with (Z.of_nat (length (pre ++ [c]))) by len_lia. apply IH.
Qed.

Lemma skip_back_line pre c post :
  c ≠ 10 → c ≠ 13 →
  skip_back (S (S (length pre + 2))) (pre ++ c :: 13 :: 10 :: post) (Z.of_nat (length pre + 2)) = Ret (Z.of_nat (length pre)).
Proof.
  intros H10 H13. cbn [skip_back].
  replace (pre ++ c :: 13 :: 10 :: post) with ((pre ++ [c; 13]) ++ 10 :: post) by app_norm.
  replace (length pre + 2)%nat with (length (pre ++ [c; 13])) by len_lia. rewrite rd_app. cbn [mbind outcome_mbind].
  change ((10 =? 10) || (10 =? 13)) with true. rewrite (proj2 (Z.leb_le 0 _)) by lia. cbn [andb].
  replace ((pre ++ [c; 13]) ++ 10 :: post) with ((pre ++ [c]) ++ 13 :: 10 :: post) by app_norm.
  replace (Z.of_nat (length (pre ++ [c; 13])) - 1) with (Z.of_nat (length (pre ++ [c]))) by len_lia.
  cbn [skip_back]. rewrite rd_app. cbn [mbind outcome_mbind].
  change ((13 =? 10) || (13 =? 13)) with true. rewrite (proj2 (Z.leb_le 0 _)) by lia. cbn [andb].
  replace ((pre ++ [c]) ++ 13 :: 10 :: post) with (pre ++ c :: 13 :: 10 :: post) by app_norm.
  replace (Z.of_nat (length (pre ++ [c])) - 1) with (Z.of_nat (length pre)) by len_lia.
  assert (length (pre ++ [c; 13]) = S (S (length pre))) as -> by len_lia. cbn [skip_back]. rewrite rd_app. cbn [mbind outcome_mbind].
  by rewrite (proj2 (Z.eqb_neq c 10) H10), (proj2 (Z.eqb_neq c 13) H13).
Qed.

Lemma find_header_spec head rest spellings p :
  no_nul head → (∀ sp, sp ∈ spellings → sp ≠ [] ∧ ∀ j, (j + length sp <= length head)%nat → match_at head sp j → p = Some j) →
  (match p with Some j => ∃ sp, sp ∈ spellings ∧ (j + length sp <= length head)%nat ∧ match_at head sp j | None => True end) →
  find_header (head ++ rest) (Z.of_nat (length head)) spellings = Ret (Z.of_nat <$> p).
Proof.
  intros Hnn. induction spellings as [|sp spellings IH]; intros Huniq Hex; cbn [find_header].
  { destruct p; [|done]. destruct Hex as (? & ? & _). set_solver. }
  destruct (Huniq sp ltac:(set_solver +)) as [Hne Hsp]. assert (0 < length sp)%nat by (destruct sp; [done|cbn; lia]).
  assert (Hdec : (∃ j, p = Some j ∧ (j + length sp <= length head)%nat ∧ match_at head sp j) ∨
                 ¬ ∃ j, p = Some j ∧ (j + length sp <= length head)%nat ∧ match_at head sp j).
  { destruct p as [j|]; [|right; by intros (? & ? & _)].
    destruct (decide ((j + length sp <= length head)%nat ∧ match_at head sp j)); [left; by exists j|right].
    intros (j' & [= <-] & ?). done. }
  destruct Hdec as [Hmatch|Hno].
  - destruct Hmatch as (j & -> & Hj & Hm). rewrite (dumb_strnstr_first _ sp (length head) j); [done| | | |rewrite length_app; lia|lia].
    + by apply match_at_prefix.
    + intros j' Hj' Hm'. apply match_at_prefix in Hm'; [|lia]. specialize (Hsp j' ltac:(lia) Hm'). injection Hsp as ->. lia.
    + intros j' Hj' E. rewrite lookup_app_l in E by lia. by apply (proj1 (Forall_forall _ _) Hnn 0); [eapply list_elem_of_lookup_2|].
  - rewrite dumb_strnstr_none; [| |rewrite length_app; lia|lia].
    + cbn [mbind outcome_mbind]. apply IH; [intros sp' Hin; apply Huniq; set_solver + Hin|].
      destruct p as [j|]; [|done]. destruct Hex as (sp' & Hin & Hj & Hm). apply elem_of_cons in Hin as [->|Hin]; [|by exists sp'].
      exfalso. apply Hno. by exists j.
    + intros j Hj Hm. apply match_at_prefix in Hm; [|lia]. apply Hno. exists j. split; [by apply Hsp|done].
Qed.

Lemma atoi_at_dec pre n c post : 0 <= n → isdigit c = false → atoi_at (pre ++ dec n ++ c :: post) (Z.of_nat (length pre)) = Ret n.
Proof.
  intros Hn Hc. unfold atoi_at. rewrite Nat2Z.id, drop_app_length. rewrite atoi_dec by done.
  destruct (Z.ltb_spec (Z.of_nat (length pre)) 0); [lia|]. cbn [orb].
  unfold dec. rewrite (proj2 (Z.ltb_ge n 0) Hn).
  destruct (dec_loop_spec (Z.to_nat (Z.log2 n)) n []) as (d & ds & -> & Hd & _).
  { split; [lia|]. rewrite Nat2Z.inj_succ, Z2Nat.id by apply Z.log2_nonneg.
    destruct (Z.eq_dec n 0) as [->|]; [done|]. apply Z.log2_spec. lia. }
  rewrite app_nil_r. cbn [app skip_blanks]. pose proof Hd as Hd0. cbn [forallb] in Hd0. apply andb_true_iff in Hd0 as [Hd0 _].
  assert (((d =? 32) || ((9 <=? d) && (d <=? 13))) = false ∧ ((d =? 45) || (d =? 43)) = false) as (-> & ->) by (unfold isdigit in Hd0; lia).
  cbn iota. replace (d :: ds ++ c :: post) with ((d :: ds) ++ c :: post) by done. rewrite span_in_app, Hd. cbn [span_in]. rewrite Hc.
  rewrite bool_decide_false; [done|]. rewrite length_app. cbn [length]. lia.
Qed.

(** ** Properties *)

(** Whatever the kernel does with the writes, [do_http_send] puts on the
    wire the whole request and returns 1, or a proper prefix of it and
    returns an error; it never sends more, and it completes when the kernel
    answers often enough. *)
Theorem http_request_on_wire (url : bytes) (mime_headers : option bytes) (data : bytes) (send_http : bool)
    (request_type : Z) (w : io)
    (Hty : request_type ∈ [ICP_GET; ICP_POST; ICP_HEAD])
    (Hmh : match mime_headers with Some h => (4 <= length h)%nat | None => True end) :
  match do_http_send url mime_headers data (Z.of_nat (length data)) send_http request_type w with
  | Ret (r, w') => ∃ n, wire w' = wire w ++ take n (request_bytes url mime_headers data send_http request_type) ∧
      ((r = 1 ∧ n = length (request_bytes url mime_headers data send_http request_type)) ∨
       (r <= 0 ∧ (n < length (request_bytes url mime_headers data send_http request_type))%nat))
  | Stuck => (moves (xfers w) < length (request_bytes url mime_headers data send_http request_type))%nat
  | _ => False
  end.
Proof.
  pose proof (do_http_send_sends url mime_headers data send_http request_type Hty Hmh w) as H.
  destruct (do_http_send _ _ _ _ _ _ w) as [[r w']| | |]; try done.
  destruct H as (n & Hw & _ & _ & _ & Hcase). exists n. split; [done|]. destruct Hcase as [(? & ? & _)|(? & ? & ?)]; [by left|by right].
Qed.

Definition demo_url : bytes := bytes_of "http://h/".
Lemma http_request_on_wire_witness :
  request_bytes demo_url (Some (bytes_of "A: b" ++ CRLF)) [] true ICP_GET =
    bytes_of "GET http://h/ HTTP/1.0" ++ CRLF ++ bytes_of "A: b" ++ CRLF ++ CRLF ∧
  match do_http_send demo_url (Some (bytes_of "A: b" ++ CRLF)) [] 0 true ICP_GET (Io [Moved 20; Failed EINTR; Moved 90] [] [] []) with
  | Ret (r, w') => ∃ n, wire w' = [] ++ take n (request_bytes demo_url (Some (bytes_of "A: b" ++ CRLF)) [] true ICP_GET) ∧
      ((r = 1 ∧ n = length (request_bytes demo_url (Some (bytes_of "A: b" ++ CRLF)) [] true ICP_GET)) ∨
       (r <= 0 ∧ (n < length (request_bytes demo_url (Some (bytes_of "A: b" ++ CRLF)) [] true ICP_GET))%nat))
  | Stuck => (2 < length (request_bytes demo_url (Some (bytes_of "A: b" ++ CRLF)) [] true ICP_GET))%nat
  | _ => False
  end.
Proof.
  split; [reflexivity|].
  apply (http_request_on_wire demo_url (Some (bytes_of "A: b" ++ CRLF)) [] true ICP_GET (Io [Moved 20; Failed EINTR; Moved 90] [] [] []));
    [left|cbn; lia].
Defined.

(** [do_http_receive] collects what the peer sends, in order, in a
    buffer it never overruns: it returns 0 at the end of the input, -1 after
    an error and -2 once the cut-through limit is passed, with exactly the
    bytes consumed; it returns as soon as the kernel has answered more often
    than there are bytes to read. *)
Theorem http_receive_collects (junk : nat → byte) (w : io)
    (Hword : 4096 * Z.of_nat (io_fuel w) < 2 ^ 32) :
  match do_http_receive junk w with
  | Ret ((r, len, data), w') => ∃ got, input w = got ++ input w' ∧ wire w' = wire w ∧
      len = Z.of_nat (length got) ∧ take (length got) data = got ∧
      ((r = 0 ∧ (input w' = [] ∨ forallb live (xfers w) = false)) ∨
       (r = -1 ∧ forallb live (xfers w) = false) ∨ (r = -2 ∧ CLIB_CUTTHROUGH_THRESH < len))
  | Stuck => forallb live (xfers w) = true ∧ (moves (xfers w) <= length (input w))%nat
  | _ => False
  end.
Proof.
  apply (do_http_receive_loop_spec junk (io_fuel w) [] 0 [] w); [|unfold io_fuel; lia].
  by split.
Qed.
Lemma http_receive_collects_witness :
  match do_http_receive (λ _, 255) (Io [Moved 3; Failed EAGAIN; Moved 9; Moved 9] [] [] (bytes_of "HTTP")) with
  | Ret ((r, len, data), w') => ∃ got, bytes_of "HTTP" = got ++ input w' ∧ wire w' = [] ∧
      len = Z.of_nat (length got) ∧ take (length got) data = got ∧
      ((r = 0 ∧ (input w' = [] ∨ true = false)) ∨
       (r = -1 ∧ true = false) ∨ (r = -2 ∧ CLIB_CUTTHROUGH_THRESH < len))
  | Stuck => true = true ∧ (3 <= 4)%nat
  | _ => False
  end.
Proof. apply (http_receive_collects (λ _, 255) (Io [Moved 3; Failed EAGAIN; Moved 9; Moved 9] [] [] (bytes_of "HTTP"))). reflexivity. Defined.

(** A reply datagram is decoded to the header it was sent with and its
    payload: a HIT returns 1, a MISS 0, and a reply without payload or of
    another kind -2. *)
Theorem icp_reply_roundtrip (h : icp_common) (payload : bytes) (ret_obj : icp_message) (k : nat) (w : io)
    (Hh : common_ok h) (Hp : (length payload <= 4076)%nat) (Hk : (4096 <= k)%nat)
    (Hx : xfers w = [Moved k]) (Hi : input w = icp_common_image (to_host h) ++ payload) :
  ∃ w', do_icp_udp_receive ret_obj w =
    Ret (if opcode h =? ICP_OP_HIT
         then match payload with [] => (-2, IcpMessage h (Hit 0 None)) | _ => (1, IcpMessage h (Hit 0 (Some payload))) end
         else if opcode h =? ICP_OP_MISS
         then match payload with [] => (-2, IcpMessage h (op ret_obj)) | _ => (0, IcpMessage h (Miss payload)) end
         else (-2, IcpMessage h (op ret_obj)), w').
Proof.
  destruct (to_host_ok h Hh) as [Hok Hhh].
  set (d := icp_common_image (to_host h) ++ payload) in *.
  assert (Hd : length d = (20 + length payload)%nat) by (unfold d; by rewrite length_app, length_image by apply Hok).
  assert (Er : ∃ w', sys_read ICP_MAX_URL w = Ret ((Z.of_nat (length d), EOTHER 0, d), w')).
  { unfold sys_read. rewrite Hx, Hi. rewrite take_ge by (unfold ICP_MAX_URL; lia). by eexists. }
  destruct Er as (w' & Er). exists w'. unfold do_icp_udp_receive. step_with Er. rewrite Hd.
  destruct (Z.leb_spec (Z.of_nat (20 + length payload)) 0); [lia|]. destruct (Z.ltb_spec (Z.of_nat (20 + length payload)) 20); [lia|].
  cbn zeta. unfold d. rewrite (icp_common_read_image _ _ Hok).
  change (IcpCommon (opcode (to_host h)) (version (to_host h)) (htons (length_ (to_host h))) (htonl (reqnum (to_host h)))
    (auth (to_host h)) (htonl (shostid (to_host h)))) with (to_host (to_host h)). rewrite Hhh.
  rewrite drop_app_length' by (symmetry; apply length_image, Hok).
  replace (Z.of_nat (20 + length payload) - 20) with (Z.of_nat (length payload)) by lia. rewrite Nat2Z.id, firstn_all.
  assert (Hz : (Z.of_nat (length payload) =? 0) = match payload with [] => true | _ => false end) by (by destruct payload).
  rewrite Hz. by destruct (opcode h =? ICP_OP_HIT), (opcode h =? ICP_OP_MISS), payload.
Qed.
Definition demo_common : icp_common := IcpCommon 2 2 27 65537 (replicate 8 0) 167772161.
Lemma icp_reply_roundtrip_witness :
  ∃ w', do_icp_udp_receive (IcpMessage demo_common Garbage)
    (Io [Moved 5000] [] [] (icp_common_image (to_host demo_common) ++ bytes_of "http://h/")) =
    Ret ((1, IcpMessage demo_common (Hit 0 (Some (bytes_of "http://h/")))), w').
Proof.
  apply (icp_reply_roundtrip demo_common (bytes_of "http://h/") (IcpMessage demo_common Garbage) 5000
    (Io [Moved 5000] [] [] (icp_common_image (to_host demo_common) ++ bytes_of "http://h/")));
    [split; cbn; (lia || done)|cbn; lia|lia|done|done].
Defined.

(** A query datagram, read as its receiver reads it, is a version 2
    query whose length field is its length, from the address given, followed
    by that address and the URL with its NUL. *)
Theorem icp_query_layout (url : bytes) (s_addr req : Z)
    (Hlen : Z.of_nat (length url) + 25 < 2 ^ 16) (Ha : 0 <= s_addr < 2 ^ 32) (Hr : 0 <= req < 2 ^ 16) :
  let p := icp_query_packet url s_addr req in
  to_host (icp_common_read p) =
    IcpCommon ICP_OP_QUERY ICP_VERSION_CURRENT (Z.of_nat (length p)) (htonl (htons req)) (replicate 8 0) s_addr ∧
  htonl (of_le (take 4 (drop 20 p))) = s_addr ∧ drop 24 p = url ++ [0].
Proof.
  cbv zeta. unfold icp_query_packet. cbn zeta.
  replace (20 + 4 + Z.of_nat (length url) + 1) with (Z.of_nat (length url) + 25) by lia.
  rewrite (wrap_small 16 (Z.of_nat (length url) + 25)), (wrap_small 16 req) by lia.
  set (h := IcpCommon ICP_OP_QUERY ICP_VERSION_CURRENT _ _ _ _).
  pose proof (htons_range req Hr). pose proof (proj2 (htonl_htonl s_addr Ha)).
  assert (Hok : common_ok h) by (split; cbn [opcode version length_ reqnum auth shostid h]; (apply htons_range; lia) || done || (unfold ICP_OP_QUERY, ICP_VERSION_CURRENT; lia)).
  rewrite icp_common_read_image by done.
  assert (Hlp : Z.of_nat (length (icp_common_image h ++ le32 (htonl s_addr) ++ url ++ [0])) = Z.of_nat (length url) + 25).
  { rewrite length_app, length_image by apply Hok. len_norm. cbn [length le32]. lia. }
  rewrite Hlp. split_and!.
  - unfold to_host. cbn [opcode version length_ reqnum auth shostid h]. rewrite htons_htons by lia.
    by rewrite (proj1 (htonl_htonl s_addr Ha)).
  - rewrite drop_app_length' by (symmetry; apply length_image, Hok). change (take 4 (le32 (htonl s_addr) ++ url ++ [0])) with (le32 (htonl s_addr)).
    rewrite of_le_le32 by done. apply (htonl_htonl s_addr Ha).
  - rewrite app_assoc, drop_app_length'; [done|]. rewrite length_app, length_image by apply Hok. done.
Qed.
Lemma icp_query_layout_witness :
  let p := icp_query_packet (bytes_of "http://h/") 16777343 1 in
  to_host (icp_common_read p) =
    IcpCommon ICP_OP_QUERY ICP_VERSION_CURRENT (Z.of_nat (length p)) (htonl (htons 1)) (replicate 8 0) 16777343 ∧
  htonl (of_le (take 4 (drop 20 p))) = 16777343 ∧ drop 24 p = bytes_of "http://h/" ++ [0].
Proof. apply (icp_query_layout (bytes_of "http://h/") 16777343 1); cbn; lia. Defined.

(** The request number is converted with [htons] and read with [ntohl]. *)
Example icp_reqnum_mismatch : htonl (htons 1) = 65536.
Proof. reflexivity. Qed.
(** A first line shorter than eight bytes makes the test for the end of the
    request read before the buffer. *)
Example short_line_underread : test_client_read_done (bytes_of "GET /" ++ [13; 10]) 7 = Crash.
Proof. vm_compute. reflexivity. Qed.
(** A read interrupted earlier leaves [errno] set: at the end of the input
    the loop reads again without end. *)
Example stale_errno_spins :
  do_http_client_receive (λ _, 0) EINTR (Io (replicate 50 (Moved 9)) [] [] []) = Stuck.
Proof. vm_compute. reflexivity. Qed.

(** On a request whose head (the request line, the headers and the blank
    line) is complete, [test_client_read_done] says that the request is
    complete exactly when the body has the length the head announces, in any
    of the spellings of the header, or when no length is announced. *)
Theorem request_end_detected (l v hs rest : bytes) (cl : option (nat * bytes * Z)) (blen : nat)
    (head := l ++ bytes_of " HTTP/" ++ v ++ CRLF ++ hs)
    (Hv : length v = 3%nat) (Hlf : (10 ∉ l ++ v) ∧ (13 ∉ v)) (Hnn : no_nul head)
    (Hend : (4 <= length head)%nat ∧ match_at head (CRLF ++ CRLF) (length head - 4) ∧
            ∀ j, (j < length head - 4)%nat → ¬ match_at head (CRLF ++ CRLF) j)
    (Hb : (length head <= blen <= length (head ++ rest))%nat)
    (Huniq : ∀ sp j, sp ∈ length_spellings → (j + length sp <= length head)%nat → match_at head sp j → fst <$> (fst <$> cl) = Some j)
    (Hcl : match cl with
           | Some (j, sp, n) => 0 <= n ∧ sp ∈ length_spellings ∧ ∃ c b, head = take j head ++ sp ++ dec n ++ c :: b ∧
                                isdigit c = false ∧ (j <= length head)%nat
           | None => True end) :
  test_client_read_done (head ++ rest) (Z.of_nat blen) =
  Ret match cl with Some (_, _, n) => if n <=? Z.of_nat blen - Z.of_nat (length head) then 1 else 0 | None => 1 end.
Proof.
  destruct Hlf as [Hlf1 Hlf2]. destruct Hend as (H4 & Hm & Hmin). unfold test_client_read_done.
  destruct v as [|v0 [|v1 [|v2 [|]]]]; try done. clear Hv.
  set (line := l ++ bytes_of " HTTP/" ++ [v0; v1; v2; 13]).
  assert (Eh : head = line ++ 10 :: hs) by (unfold head, line; app_norm).
  assert (Hl10 : 10 ∉ line).
  { unfold line. rewrite !elem_of_app in *. intros [?|[?|?]]; [tauto| |].
    - revert H. apply (bool_decide_unpack _). vm_compute. exact I.
    - apply Hlf1. right. set_solver. }
  rewrite Nat2Z.id. rewrite take_app_ge by lia. rewrite Eh at 1. rewrite <-app_assoc. cbn [app]. rewrite strchr_first by done.
  set (pre := l ++ bytes_of " HTTP/" ++ [v0; v1]).
  assert (Hbuf : head ++ rest = pre ++ v2 :: 13 :: 10 :: hs ++ rest) by (unfold head, pre; app_norm).
  assert (Hpl : length line = (length pre + 2)%nat) by (unfold line, pre; len_lia).
  rewrite Hpl. rewrite Hbuf at 1. rewrite skip_back_line by (intros ->; set_solver). cbn [mbind outcome_mbind].
  replace (Z.of_nat (length pre) - 8) with (Z.of_nat (length l)) by (unfold pre; len_norm; cbn [length bytes_of]; lia).
  replace (head ++ rest) with (l ++ bytes_of " HTTP/" ++ ([v0; v1; v2] ++ CRLF ++ hs ++ rest)) at 1 by (unfold head; app_norm).
  rewrite strncmp_at_app. cbn [mbind outcome_mbind negb].
  rewrite (dumb_strnstr_first _ (CRLF ++ CRLF) blen (length head - 4)).
  2: { apply match_at_prefix; [cbn [length app CRLF]; lia|done]. }
  2: { intros j Hj Hmj. apply match_at_prefix in Hmj; [by apply (Hmin j)|cbn [length app CRLF]; lia]. }
  2: { intros j Hj E. rewrite lookup_app_l in E by lia. apply (proj1 (Forall_forall _ _) Hnn 0); [by eapply list_elem_of_lookup_2|done]. }
  2: { cbn [length app CRLF]. lia. }
  2: { cbn [length app CRLF]. lia. }
  cbn [mbind outcome_mbind]. replace (Z.of_nat (length head - 4) + 4) with (Z.of_nat (length head)) by lia.
  rewrite (find_header_spec head rest length_spellings (fst <$> (fst <$> cl)) Hnn).
  - destruct cl as [[[j sp] n]|]; cbn [fmap option_fmap option_map fst mbind outcome_mbind]; [|done].
    destruct Hcl as (Hn & Hsp & c & b & E & Hc & Hj).
    assert (Hsl : length sp = 16%nat) by (repeat (apply elem_of_cons in Hsp as [->|Hsp]; [done|]); set_solver).
    assert (E' : head ++ rest = (take j head ++ sp) ++ dec n ++ c :: (b ++ rest)).
    { transitivity ((take j head ++ sp ++ dec n ++ c :: b) ++ rest); [by rewrite <-E|app_norm]. }
    rewrite E'.
    replace (Z.of_nat j + 16) with (Z.of_nat (length (take j head ++ sp))) by (rewrite length_app, length_take; lia).
    rewrite atoi_at_dec by done. cbn [mbind outcome_mbind]. by destruct (n <=? _).
  - intros sp Hsp. split; [|intros j; by apply Huniq].
    repeat (apply elem_of_cons in Hsp as [->|Hsp]; [done|]). set_solver.
  - destruct cl as [[[j sp] n]|]; cbn [fmap option_fmap option_map fst]; [|done].
    destruct Hcl as (Hn & Hsp & c & b & E & Hc & Hj). exists sp. split; [done|].
    assert (Hlen : (j + length sp <= length head)%nat).
    { pose proof (f_equal length E) as El. rewrite !length_app, length_take in El. lia. }
    split; [done|]. unfold match_at. rewrite E. rewrite drop_app_length' by (rewrite length_take; lia). by rewrite take_app_length.
Qed.

Definition demo_line : bytes := bytes_of "POST /x".
Definition demo_hs : bytes := bytes_of "Content-Length: 3" ++ CRLF ++ CRLF.
Definition demo_head : bytes := demo_line ++ bytes_of " HTTP/" ++ bytes_of "1.0" ++ CRLF ++ demo_hs.
Lemma request_end_detected_witness :
  test_client_read_done (demo_head ++ bytes_of "ab") 40 = Ret 0.
Proof.
  apply (request_end_detected demo_line (bytes_of "1.0") demo_hs (bytes_of "ab") (Some (18%nat, bytes_of "Content-Length: ", 3)) 40).
  - reflexivity.
  - split; apply (bool_decide_unpack _); vm_compute; exact I.
  - apply (bool_decide_unpack _). vm_compute. exact I.
  - split; [cbn; lia|]. split; [reflexivity|]. intros j Hj.
    assert (Hall : Forall (λ j, ¬ match_at demo_head (CRLF ++ CRLF) j) (seq 0 35)) by (apply (bool_decide_unpack _); vm_compute; exact I).
    apply (proj1 (Forall_forall _ _) Hall j). apply elem_of_seq. cbn in Hj. lia.
  - cbn. lia.
  - intros sp j Hsp Hj Hmj.
    assert (Hall : Forall (λ sp, Forall (λ j, match_at demo_head sp j → j = 18%nat) (seq 0 40)) length_spellings)
      by (apply (bool_decide_unpack _); vm_compute; exact I).
    pose proof (proj1 (Forall_forall _ _) (proj1 (Forall_forall _ _) Hall sp Hsp) j) as Hj'. cbn [fmap option_fmap option_map fst].
    rewrite Hj'; [done| |done]. apply elem_of_seq. change (j + length sp <= 39)%nat in Hj. lia.
  - split; [lia|]. split; [apply (bool_decide_unpack _); vm_compute; exact I|]. exists 13, [10; 13; 10]. split_and!; [reflexivity|reflexivity|cbn; lia].
Defined.
