(* ===== verification/Clib.v ===== *)
(** * The client library (client_lib/src/clib.c, include/clib.h)

    Queries, fetches with and without redirections, posts, raw requests and
    pushes, each on a connection that the partitions choose and that is
    retried when it fails; the split of a response into canonical headers and
    content.  The connections that the system will set up are a queue of
    [io] states, one for each; the transcript of a closed one is kept. *)

From S2P Require Import Prelude LinkedList CString SockIO Md5 Config Partition Icp.
Open Scope Z_scope.

(** ** Definitions *)

Definition CLIB_CACHE_HIT : Z := 1.
Definition CLIB_CACHE_MISS : Z := 2.
Definition CLIB_BAD_URL : Z := 6.
Definition CLIB_SERVER_INTERNAL : Z := 11.
Definition CLIB_SERVER_DOWN : Z := 12.
Definition CLIB_SERVER_TIMEOUT : Z := 13.
Definition CLIB_CUTTHROUGH : Z := 18.
Definition CLIB_UDP_TIMEOUT_SEC : Z := 0.
Definition CLIB_UDP_TIMEOUT_USEC : Z := 100000.
Definition CLIB_UDP_RETRIES : Z := 5.

Definition clib_error_str : list bytes :=
  bytes_of <$> ["Everything is just fine"; "Cache hit"; "Cache miss"; "Can't find configuration file";
    "Configuration file error"; "No cache servers available"; "Bad URL"; "Cache server says: wrong version";
    "Cache server says: timeout error"; "Access denied"; "Cache server says: service unavailable";
    "Cache server says: internal error"; "Couldn't connect to cache server"; "Cache server response timed out";
    "Ran out of file descriptors"; "Part_delete says no such partition!"; "Generic pthreads failure";
    "Socket operation failed"]%string.
Definition clib_strerror (x : Z) : outcome bytes :=
  if (0 <=? x) && (x <? Z.of_nat (length clib_error_str))
  then match clib_error_str !! Z.to_nat x with Some s => Ret s | None => Crash end
  else Ret (bytes_of "(Error code out of range)").

(** What is printed after the string of the caller. *)
Definition Clib_Perror (response : Z) (err_str : bytes) : bytes :=
  err_str ++ bytes_of
    (if (response =? 0)%Z then ": everything is just fine."
     else if (response =? 1)%Z then ": cache hit"
     else if (response =? 2)%Z then ": cache miss"
     else if (response =? 3)%Z then ": couldn't find configuration file"
     else if (response =? 4)%Z then ": error while reading configuration file"
     else if (response =? 5)%Z then ": couldn't find any cache partitions"
     else if (response =? 6)%Z then ": ill-formed URL"
     else if (response =? 7)%Z then ": harvest partition version not same as clib"
     else if (response =? 8)%Z then ": harvest partition timed out talking to a web server"
     else if (response =? 9)%Z then ": harvest partition denied us access"
     else if (response =? 10)%Z then ": harvest partition doesn't support the operation"
     else if (response =? 11)%Z then ": harvest partition suffered internal error"
     else if (response =? 12)%Z then ": couldn't connect to any cache server"
     else if (response =? 13)%Z then ": we timed out talking to the harvest partition"
     else if (response =? 14)%Z then ": no more file descriptors"
     else if (response =? 15)%Z then ": no such partition (part_delete)"
     else if (response =? 16)%Z then ": pthread failure"
     else if (response =? 17)%Z then ": a socket operation failed"
     else ": (unrecognized error)")%string ++ [10].

(** *** Headers *)

(** The offset after the first CRCR or CRLFCRLF; [data] is the whole block. *)
Fixpoint cr_loop (fuel : nat) (data : bytes) (crsplit : nat) : outcome (option nat) :=
  match fuel with
  | O => Stuck
  | S fuel' =>
      if decide (crsplit < length data)%nat then
        match strchr (drop crsplit data) 13 with
        | None => Ret None
        | Some k =>
            let cr := (crsplit + k)%nat in
            let charsleft := Z.of_nat (length data) - Z.of_nat cr - 1 in
            if 0 <? charsleft then
              c1 ← rd data (Z.of_nat cr + 1);
              if c1 =? 13 then Ret (Some (cr + 2)%nat)
              else if 3 <=? charsleft then
                c2 ← rd data (Z.of_nat cr + 2);
                c3 ← rd data (Z.of_nat cr + 3);
                if (c1 =? 10) && (c2 =? 13) && (c3 =? 10) then Ret (Some (cr + 4)%nat)
                else cr_loop fuel' data (cr + 1)
              else Ret None
            else Ret None
        end
      else Ret None
  end.

(** The offset after the first LFLF. *)
Fixpoint lf_loop (fuel : nat) (data : bytes) (lfsplit : nat) : outcome (option nat) :=
  match fuel with
  | O => Stuck
  | S fuel' =>
      if decide (lfsplit < length data)%nat then
        match strchr (drop lfsplit data) 10 with
        | None => Ret None
        | Some k =>
            let lf := (lfsplit + k)%nat in
            let charsleft := Z.of_nat (length data) - Z.of_nat lf - 1 in
            if 0 <? charsleft then
              c1 ← rd data (Z.of_nat lf + 1);
              if c1 =? 10 then Ret (Some (lf + 2)%nat) else lf_loop fuel' data (lf + 1)
            else Ret None
        end
      else Ret None
  end.

(** [*bufpos = c; bufpos++], in a block of [cap] bytes. *)
Definition put (cap : nat) (buf : bytes) (c : byte) : outcome bytes :=
  if decide (length buf < cap)%nat then Ret (buf ++ [c]) else Crash.
Definition is_crlf (c : byte) : bool := (c =? 13) || (c =? 10).

Fixpoint canonicalize_loop (fuel : nat) (cap : nat) (curpos bufpos : bytes) : outcome bytes :=
  match fuel with
  | O => Stuck
  | S fuel' =>
      match curpos with
      | [] => Ret bufpos
      | c :: rest =>
          if is_crlf c then
            bufpos ← put cap bufpos 13;
            bufpos ← put cap bufpos 10;
            canonicalize_loop fuel' cap (drop (span_in is_crlf curpos) curpos) bufpos
          else
            bufpos ← put cap bufpos c;
            canonicalize_loop fuel' cap rest bufpos
      end
  end.
(** The block returned, with its NUL. *)
Definition canonicalize_headers (header_data : bytes) : outcome bytes :=
  let cap := (2 * length header_data + 1)%nat in
  buf ← canonicalize_loop (S (length header_data)) cap header_data [];
  buf ← put cap buf 13;
  buf ← put cap buf 10;
  put cap buf 0.

(** [mime_headers] (the block), [mime_size], [content], [content_size]. *)
Record split_data := SplitData {
  s_mime : option bytes; s_mime_size : Z; s_content : option bytes; s_content_size : Z }.

(** Comparison of pointers, NULL being the least. *)
Definition ptr_gt (p q : option nat) : bool :=
  match p, q with
  | Some a, Some b => (b <? a)%nat
  | Some _, None => true
  | None, _ => false
  end.

Definition get_header_content (data : bytes) : outcome split_data :=
  let dlen := length data in
  crsplit ← cr_loop (S dlen) data 0;
  lfsplit ← lf_loop (S dlen) data 0;
  let split := if ptr_gt lfsplit crsplit then (match crsplit with None => lfsplit | Some _ => crsplit end)
               else (match lfsplit with None => crsplit | Some _ => lfsplit end) in
  match split with
  | None => Ret (SplitData None 0 None 0)
  | Some split =>
      if decide (dlen < split)%nat then Ret (SplitData None 0 None 0)
      else
        mime ← canonicalize_headers (take split data);
        Ret (SplitData (Some mime) (Z.of_nat (span_in (λ c, negb (c =? 0)) mime))
                       (Some (drop split data ++ [0])) (Z.of_nat dlen - Z.of_nat split))
  end.

(** [strchr] in a buffer that may lack a NUL. *)
Fixpoint buf_strchr (s : bytes) (c : byte) (i : nat) : outcome (option nat) :=
  match s with
  | [] => Crash
  | x :: s' => if x =? c then Ret (Some i) else if x =? 0 then Ret None else buf_strchr s' c (S i)
  end.

Definition get_url_from_data (indata : bytes) : outcome (option bytes) :=
  start ← buf_strchr indata 32 0;
  match start with
  | None => Ret None
  | Some start =>
      end_ ← buf_strchr (drop (S start) indata) 32 0;
      match end_ with
      | None => Ret None
      | Some n => Ret (Some (take n (drop (S start) indata)))
      end
  end.

(** *** State *)

(** A pointer of the caller's record: NULL, a block, or a block that has been
    freed. *)
Inductive cptr := Null | Ptr (b : bytes) | Freed.
Record clib_data := ClibData { mime_headers : cptr; mime_size : Z; data : cptr; data_size : Z; fd : Z }.
Definition with_fd (f : Z) (d : clib_data) := ClibData (mime_headers d) (mime_size d) (data d) (data_size d) f.

Record clib_state (Monitor : Type) := ClibState {
  parts : part_state Monitor;
  query_tv : Z * Z;
  udp_retries : Z;
  peers : list io;      (* the connections to come, the current one first *)
  talks : list io;      (* the connections closed, the last one first *)
}.
Arguments ClibState {Monitor}.
Arguments parts {Monitor}.
Arguments query_tv {Monitor}.
Arguments udp_retries {Monitor}.
Arguments peers {Monitor}.
Arguments talks {Monitor}.

(** [sscanf] with [%u]: a negative number is stored modulo 2^32. *)
Definition scan_u (s : bytes) : option Z :=
  let '(sgn, s) := match skip_blanks s with
                   | c :: s' => if c =? 45 then (-1, s') else if c =? 43 then (1, s') else (1, c :: s')
                   | [] => (1, [])
                   end in
  '(n, _) ← scan_digits s 0 false; Some (i32 (sgn * Z.min n (2 ^ 32 - 1))).

(** An option of the configuration, or its default. *)
Definition config_number (scan : bytes → option Z) (cfg : list cfg_nv) (nm : bytes) (dflt : Z) : Z :=
  match get_next_matching nm cfg with
  | (Some cfg_el, _) => match scan (value cfg_el) with Some n => n | None => dflt end
  | (None, _) => dflt
  end.

Section clib.
Context `{Digest} {Monitor : Type}.
Variable nm : names.
Variable part_opts : bytes → option bytes.
Variable MonitorClient_Create : bytes → Z → Z → option Monitor.
Variable getsockname : Z → Z * sockaddr_in.
(** The address of the block [localaddr] points to, what [select] leaves in
    its timeout, fresh memory, and what is on the stack of [Clib_Query]. *)
Variable localaddr_ptr : Z.
Variable select_left : Z * Z → Z * Z.
Variable junk : nat → byte.
Variable stack_message : icp_message.
Abbreviation CLIB := (M (clib_state Monitor)).

Definition on_parts {A} (m : M (part_state Monitor) A) : CLIB A := λ s,
  '(a, p) ← m (parts s); Ret (a, ClibState p (query_tv s) (udp_retries s) (peers s) (talks s)).
(** On the current connection. *)
Definition on_conn {A} (m : IO A) : CLIB A := λ s,
  match peers s with
  | [] => Stuck
  | p :: ps => '(a, p) ← m p; Ret (a, ClibState (parts s) (query_tv s) (udp_retries s) (p :: ps) (talks s))
  end.
Definition lift_c {A} (o : outcome A) : CLIB A := λ s, a ← o; Ret (a, s).
Definition sys_close (fd : Z) : CLIB () := λ s,
  let p := parts s in
  let p := with_os (with_open (filter (λ f, f ≠ fd) (open_fds (os p))) (os p)) p in
  match peers s with
  | [] => Ret ((), ClibState p (query_tv s) (udp_retries s) [] (talks s))
  | c :: ps => Ret ((), ClibState p (query_tv s) (udp_retries s) ps (c :: talks s))
  end.
Definition free_c (p : cptr) : CLIB () := match p with Freed => crash | _ => mret () end.

Definition Clib_Initialize (defMon : option Monitor) : CLIB Z :=
  presp ← on_parts (Part_Initialize nm MonitorClient_Create part_opts defMon);
  if negb (presp =? CLIB_OK) then mret presp
  else
    s ← get;
    let cfg := config_list (parts s) in
    let retries := config_number (λ v, fst <$> scan_d v) cfg (bytes_of "cache.udp_retries") CLIB_UDP_RETRIES in
    let sec := config_number scan_u cfg (bytes_of "cache.udp_timeout_sec") CLIB_UDP_TIMEOUT_SEC in
    let usec := config_number scan_u cfg (bytes_of "cache.udp_timeout_usec") CLIB_UDP_TIMEOUT_USEC in
    _ ← modify (λ s, ClibState (parts s) (sec, usec) retries (peers s) (talks s));
    mret CLIB_OK.

(** What every operation does when its connection fails. *)
Definition abandon {A} (fd : Z) (down : A) (again : CLIB A) : CLIB A :=
  _ ← on_parts (Part_HandleFailure nm part_opts getsockname fd);
  _ ← sys_close fd;
  s ← get;
  if num_partitions (parts s) =? 0 then mret down else again.

(** The number of ready descriptors of the last [select], or [None] when a
    call fails. *)
Fixpoint query_tries (tries : nat) (url : bytes) (num_ready : Z) : CLIB (option Z) :=
  match tries with
  | O => mret (Some num_ready)
  | S tries' =>
      sent ← on_conn (do_icp_query url localaddr_ptr 1);
      if sent <=? 0 then mret None
      else
        '(num_ready, _) ← on_conn sys_select;
        _ ← modify (λ s, ClibState (parts s) (select_left (query_tv s)) (udp_retries s) (peers s) (talks s));
        if num_ready <? 0 then mret None
        else if 0 <? num_ready then mret (Some num_ready)
        else query_tries tries' url num_ready
  end.

Fixpoint Clib_Query_loop (fuel : nat) (url : bytes) : CLIB Z :=
  match fuel with
  | O => stuck
  | S fuel' =>
      '(presp, fd) ← on_parts (Part_GetUDPsock nm part_opts url);
      if negb (presp =? CLIB_OK) then mret presp
      else
        fd ← deref fd;
        s ← get;
        r ← query_tries (Z.to_nat (udp_retries s)) url 0;
        match r with
        | None => abandon fd CLIB_SOCKETOP_FAIL (Clib_Query_loop fuel' url)
        | Some num_ready =>
            if num_ready <=? 0 then abandon fd CLIB_SERVER_TIMEOUT (Clib_Query_loop fuel' url)
            else
              '(_, message_obj) ← on_conn (do_icp_udp_receive stack_message);
              _ ← sys_close fd;
              if opcode (header message_obj) =? ICP_OP_HIT then
                match op message_obj with Hit _ (Some _) => mret CLIB_CACHE_HIT | _ => crash end
              else if opcode (header message_obj) =? ICP_OP_MISS then
                match op message_obj with Miss _ => mret CLIB_CACHE_MISS | _ => crash end
              else if opcode (header message_obj) =? 0 then mret CLIB_BAD_URL
              else mret CLIB_SERVER_INTERNAL
        end
  end.
(** Every turn but the last closes a connection. *)
Definition Clib_Query (url : bytes) : CLIB Z := s ← get; Clib_Query_loop (S (length (peers s))) url.

(** The response is split, or the server is down. *)
Definition finish (fd : Z) (buf : bytes) (dlen : Z) : CLIB (Z * clib_data) :=
  r ← lift_c (get_header_content (take (Z.to_nat dlen) buf));
  let d := ClibData (match s_mime r with Some b => Ptr b | None => Null end) (s_mime_size r)
                    (match s_content r with Some b => Ptr b | None => Null end) (s_content_size r) (-1) in
  _ ← sys_close fd;
  match s_content r, s_mime r with
  | Some _, Some _ => mret (CLIB_OK, d)
  | _, _ => mret (CLIB_SERVER_DOWN, d)
  end.

(** [Clib_Fetch] and [Clib_Post] differ in the request they send. *)
Fixpoint transact (fuel : nat) (url : bytes) (send : IO Z) (returned_data : clib_data) : CLIB (Z * clib_data) :=
  match fuel with
  | O => stuck
  | S fuel' =>
      let returned_data := with_fd (-1) returned_data in
      '(presp, fd) ← on_parts (Part_GetTCPsock nm part_opts url);
      if negb (presp =? CLIB_OK) then mret (presp, returned_data)
      else
        fd ← deref fd;
        iresp ← on_conn send;
        if negb (iresp =? 1) then abandon fd (CLIB_SERVER_DOWN, returned_data) (transact fuel' url send returned_data)
        else
          '(iresp, dlen, buf) ← on_conn (do_http_receive junk);
          if negb (iresp =? 0) then
            if iresp =? -2 then mret (CLIB_CUTTHROUGH, ClibData Null 0 (Ptr buf) dlen fd)
            else abandon fd (CLIB_SERVER_DOWN, returned_data) (transact fuel' url send returned_data)
          else finish fd buf dlen
  end.
Definition Clib_Fetch (url : bytes) (headers : option bytes) (returned_data : clib_data) : CLIB (Z * clib_data) :=
  s ← get;
  transact (S (length (peers s))) url (do_http_send url headers [] 0 true ICP_GET) returned_data.
Definition Clib_Post (url : bytes) (headers : option bytes) (pdata : bytes) (data_len : Z)
    (returned_data : clib_data) : CLIB (Z * clib_data) :=
  s ← get;
  transact (S (length (peers s))) url (do_http_send url headers pdata data_len true ICP_POST) returned_data.

Fixpoint Clib_Async_Fetch_loop (fuel : nat) (url : bytes) (headers : option bytes) : CLIB Z :=
  match fuel with
  | O => stuck
  | S fuel' =>
      '(presp, fd) ← on_parts (Part_GetTCPsock nm part_opts url);
      if negb (presp =? CLIB_OK) then mret presp
      else
        fd ← deref fd;
        iresp ← on_conn (do_http_send url headers [] 0 true ICP_GET);
        if negb (iresp =? 1) then abandon fd CLIB_SERVER_DOWN (Clib_Async_Fetch_loop fuel' url headers)
        else _ ← sys_close fd; mret CLIB_OK
  end.
Definition Clib_Async_Fetch (url : bytes) (headers : option bytes) : CLIB Z :=
  s ← get; Clib_Async_Fetch_loop (S (length (peers s))) url headers.

(** The result, [*outdata], [*outlen] and [*fd]. *)
Fixpoint Clib_Lowlevel_Op_loop (fuel : nat) (indata : bytes) (inlen : Z) : CLIB (Z * option bytes * Z * option Z) :=
  match fuel with
  | O => stuck
  | S fuel' =>
      url ← lift_c (get_url_from_data indata);
      match url with
      | None => mret (CLIB_SERVER_DOWN, None, 0, None)
      | Some url =>
          '(presp, fud) ← on_parts (Part_GetTCPsock nm part_opts url);
          if negb (presp =? CLIB_OK) then mret (presp, None, 0, None)
          else
            fud ← deref fud;
            rv ← on_conn (correct_write indata inlen);
            if negb (rv =? inlen) then abandon fud (CLIB_SERVER_DOWN, None, 0, None) (Clib_Lowlevel_Op_loop fuel' indata inlen)
            else
              '(iresp, outlen, outdata) ← on_conn (do_http_receive junk);
              if negb (iresp =? 0) then
                if iresp =? -2 then mret (CLIB_CUTTHROUGH, Some outdata, outlen, Some fud)
                else abandon fud (CLIB_SERVER_DOWN, None, 0, None) (Clib_Lowlevel_Op_loop fuel' indata inlen)
              else _ ← sys_close fud; mret (CLIB_OK, Some outdata, outlen, None)
      end
  end.
Definition Clib_Lowlevel_Op (indata : bytes) (inlen : Z) : CLIB (Z * option bytes * Z * option Z) :=
  s ← get; Clib_Lowlevel_Op_loop (S (length (peers s))) indata inlen.

Fixpoint Clib_Push_loop (fuel : nat) (url mime : bytes) (msize : Z) (content : bytes) (csize : Z) : CLIB Z :=
  match fuel with
  | O => stuck
  | S fuel' =>
      '(presp, fd) ← on_parts (Part_GetTCPsock nm part_opts url);
      if negb (presp =? CLIB_OK) then mret presp
      else
        fd ← deref fd;
        putresp ← on_conn (do_http_put url mime msize content csize);
        if putresp <=? 0 then abandon fd CLIB_SERVER_DOWN (Clib_Push_loop fuel' url mime msize content csize)
        else _ ← sys_close fd; mret CLIB_OK
  end.
Definition Clib_Push (url mime : bytes) (msize : Z) (content : bytes) (csize : Z) : CLIB Z :=
  s ← get; Clib_Push_loop (S (length (peers s))) url mime msize content csize.

(** *** Redirections *)

(** The offset of the first NUL, blank or newline. *)
Fixpoint status_code (s : bytes) (hp : nat) : outcome (nat * byte) :=
  match s with
  | [] => Crash
  | c :: s' => if negb (c =? 0) && negb (c =? 32) && negb (c =? 10) then status_code s' (S hp) else Ret (hp, c)
  end.

(** The value of the first location header: from ten bytes after the newline
    before it, to the end of the line, within the [hl] bytes left. *)
Fixpoint line_end (s : bytes) (hl : Z) : outcome bytes :=
  match s with
  | [] => Crash
  | c :: s' =>
      if (c =? 0) || (hl =? 0) || (c =? 13) || (c =? 10) then Ret []
      else r ← line_end s' (hl - 1); Ret (c :: r)
  end.
Fixpoint find_location (s : bytes) (hl : Z) : outcome (option bytes) :=
  match s with
  | [] => Crash
  | c :: s' =>
      if (c =? 0) || (hl =? 0) then Ret None
      else if (c =? 10) && (10 <=? hl) && (strncasecmp s' (bytes_of "location: ") 10 =? 0)
      then r ← line_end (drop 10 s) (hl - 10); Ret (Some r)
      else find_location s' (hl - 1)
  end.

Fixpoint redirect_loop (fuel : nat) (ret : Z) (theurl : bytes) (headers : option bytes) (returned_data : clib_data) :
    CLIB (Z * clib_data) :=
  match fuel with
  | O => mret (ret, returned_data)
  | S fuel' =>
      _ ← free_c (mime_headers returned_data);
      _ ← free_c (data returned_data);
      let freed p := match p with Null => Null | _ => Freed end in
      let rd0 := ClibData (freed (mime_headers returned_data)) (mime_size returned_data)
                          (freed (data returned_data)) (data_size returned_data) (fd returned_data) in
      '(ret, d) ← Clib_Fetch theurl headers rd0;
      if negb (ret =? CLIB_OK) then mret (ret, d)
      else
        match mime_headers d with
        | Ptr h =>
            '(hp, c) ← lift_c (status_code h 0);
            if negb (c =? 32) then mret (ret, d)
            else
              c1 ← lift_c (rd h (Z.of_nat hp + 1));
              if negb (c1 =? 51) then mret (ret, d)
              else
                loc ← lift_c (find_location h (mime_size d));
                match loc with
                | None => mret (ret, d)
                | Some loc => redirect_loop fuel' ret loc headers d
                end
        | Null => mret (ret, d)
        | Freed => crash
        end
  end.
Definition Clib_Redir_Fetch (url : bytes) (headers : option bytes) (returned_data : clib_data) (follow_redirects : Z) :
    CLIB (Z * clib_data) :=
  if follow_redirects <=? 0 then Clib_Fetch url headers returned_data
  else
    redirect_loop (Z.to_nat follow_redirects) CLIB_SERVER_INTERNAL url headers
      (ClibData Null (mime_size returned_data) Null (data_size returned_data) (fd returned_data)).

Definition Clib_Free (dat : clib_data) : CLIB clib_data :=
  let rel p size := match p with
                    | Null => mret Null
                    | _ => if negb (size =? 0) then _ ← free_c p; mret Null else mret p
                    end in
  h ← rel (mime_headers dat) (mime_size dat);
  d ← rel (data dat) (data_size dat);
  mret (ClibData h (mime_size dat) d (data_size dat) (fd dat)).
End clib.

(** ** Specification *)

(** Each run of CR and LF as one CRLF; [in_run]: inside a run. *)
Fixpoint canon (in_run : bool) (s : bytes) : bytes :=
  match s with
  | [] => []
  | c :: s' =>
      if is_crlf c then (if in_run then canon true s' else CRLF ++ canon true s')
      else c :: canon false s'
  end.
Definition canonical (s : bytes) : bytes := canon false s ++ CRLF.

(** The end of the first occurrence of one of the separators. *)
Fixpoint first_end (seps : list bytes) (s : bytes) : option nat :=
  match list_find (λ sep, sep `prefix_of` s) seps with
  | Some (_, sep) => Some (length sep)
  | None => match s with [] => None | _ :: s' => S <$> first_end seps s' end
  end.
Definition cr_seps : list bytes := [[13; 13]; [13; 10; 13; 10]].
Definition lf_seps : list bytes := [[10; 10]].
Definition header_end (s : bytes) : option nat :=
  match first_end cr_seps s, first_end lf_seps s with
  | Some a, Some b => Some (a `min` b)%nat
  | Some a, None => Some a
  | None, b => b
  end.

(** ** Lemmas *)

Lemma strchr_inv s c :
  match strchr s c with
  | Some k => ∃ a b, s = a ++ c :: b ∧ k = length a ∧ c ∉ a
  | None => c ∉ s
  end.
Proof.
  unfold strchr. destruct (span_in_split (λ x, negb (x =? c)) s) as (a & b & E & Ha & Hall & Hb). rewrite Ha.
  assert (Hca : c ∉ a).
  { intros Hin. apply list_elem_of_In in Hin. rewrite forallb_forall in Hall. specialize (Hall c Hin). by rewrite Z.eqb_refl in Hall. }
  case_decide as Hl; rewrite E in Hl; rewrite length_app in Hl.
  - destruct b as [|x b]; [cbn in Hl; lia|]. apply negb_false_iff, Z.eqb_eq in Hb. subst x. by exists a, b.
  - destruct b; [|cbn in Hl; lia]. by rewrite E, app_nil_r.
Qed.

Lemma first_end_cons seps x s : first_end seps (x :: s) =
  match list_find (λ sep, sep `prefix_of` (x :: s)) seps with
  | Some (_, sep) => Some (length sep)
  | None => S <$> first_end seps s
  end.
Proof. done. Qed.
(** No separator begins at another byte than their common first one. *)
Lemma first_end_other seps x s c : x ≠ c → Forall (λ sep, head sep = Some c) seps →
  first_end seps (x :: s) = S <$> first_end seps s.
Proof.
  intros Hx Hs. rewrite first_end_cons. destruct (list_find _ seps) as [[i sep]|] eqn:E; [|done].
  exfalso. apply list_find_Some in E as (Hl & Hp & _).
  pose proof (proj1 (Forall_forall _ _) Hs sep (list_elem_of_lookup_2 _ _ _ Hl)) as Hh.
  destruct sep as [|y sep]; [done|]. injection Hh as ->. by apply prefix_cons_inv_1 in Hp.
Qed.
Lemma first_end_skip seps a c s : (c ∉ a) → Forall (λ sep, head sep = Some c) seps →
  first_end seps (a ++ s) = (λ k, (length a + k)%nat) <$> first_end seps s.
Proof.
  intros Ha Hs. induction a as [|x a IH]; cbn [app length].
  { by destruct (first_end seps s). }
  rewrite (first_end_other _ _ _ c) by set_solver. rewrite IH by set_solver. by destruct (first_end seps s).
Qed.
Lemma first_end_nil seps c : Forall (λ sep, head sep = Some c) seps → first_end seps [] = None.
Proof.
  intros Hs. cbn [first_end]. destruct (list_find _ seps) as [[i sep]|] eqn:E; [|done].
  exfalso. apply list_find_Some in E as (Hl & Hp & _). pose proof (proj1 (Forall_forall _ _) Hs sep (list_elem_of_lookup_2 _ _ _ Hl)) as Hh.
  destruct sep as [|y sep]; [done|]. by apply prefix_nil_inv in Hp.
Qed.
Lemma first_end_none seps s c : (c ∉ s) → Forall (λ sep, head sep = Some c) seps → first_end seps s = None.
Proof. intros Hc Hs. rewrite <-(app_nil_r s), (first_end_skip _ _ c) by done. by rewrite (first_end_nil _ c). Qed.

(** The bytes behind the position of a list. *)
Lemma rd_off a b x s i : i = Z.of_nat (length a + length b) → rd (a ++ b ++ x :: s) i = Ret x.
Proof. intros ->. rewrite app_assoc, <-length_app. apply rd_app. Qed.

Lemma cr_loop_spec fuel pre s : (length s < fuel)%nat →
  cr_loop fuel (pre ++ s) (length pre) = Ret ((λ k, (length pre + k)%nat) <$> first_end cr_seps s).
Proof.
  revert pre s. induction fuel as [|fuel IH]; intros pre s Hf; [lia|]. cbn [cr_loop]. rewrite length_app.
  assert (Hseps : Forall (λ sep, head sep = Some 13) cr_seps) by (repeat constructor).
  destruct s as [|x0 s0] eqn:Es; [rewrite decide_False by (cbn; lia); by rewrite (first_end_nil _ 13)|].
  rewrite decide_True by (cbn [length]; lia). rewrite <-Es in *. rewrite drop_app_length. clear Es x0 s0.
  pose proof (strchr_inv s 13) as Hs. destruct (strchr s 13) as [k|]; [|by rewrite (first_end_none _ _ 13)].
  destruct Hs as (a & b & -> & -> & Ha). rewrite (first_end_skip _ _ 13) by done. rewrite length_app in *. cbn [length] in *.
  replace (Z.of_nat (length pre + (length a + S (length b))) - Z.of_nat (length pre + length a) - 1) with (Z.of_nat (length b)) by lia.
  destruct b as [|c1 b]; [done|]. cbn [length].
  destruct (Z.ltb_spec 0 (Z.of_nat (S (length b)))) as [_|]; [|lia].
  replace (pre ++ a ++ 13 :: c1 :: b) with (pre ++ (a ++ [13]) ++ c1 :: b) by app_norm.
  rewrite (rd_off pre (a ++ [13]) c1 b (Z.of_nat (length pre + length a) + 1)) by (len_norm; cbn [length]; lia). cbn [mbind outcome_mbind].
  destruct (Z.eqb_spec c1 13) as [->|H13].
  { rewrite first_end_cons. unfold cr_seps. cbn [list_find]. rewrite decide_True by (by exists b). cbn. do 2 f_equal. lia. }
  assert (Hcont : first_end cr_seps (13 :: c1 :: b) =
    if decide ([10; 13; 10] `prefix_of` (c1 :: b)) then Some 4%nat else S <$> first_end cr_seps (c1 :: b)).
  { rewrite (first_end_cons _ 13). unfold cr_seps at 1. cbn [list_find].
    rewrite decide_False by (intros Hp%prefix_cons_inv_2; apply prefix_cons_inv_1 in Hp; done).
    case_decide as Hd.
    - apply prefix_cons_inv_2 in Hd. by rewrite decide_True.
    - rewrite decide_False; [done|]. intros Hp. apply Hd. by apply prefix_cons. }
  rewrite Hcont.
  destruct (Z.leb_spec 3 (Z.of_nat (S (length b)))) as [Hb3|Hb3].
  - destruct b as [|c2 [|c3 b]]; [cbn in Hb3; lia..|].
    replace (pre ++ (a ++ [13]) ++ c1 :: c2 :: c3 :: b) with (pre ++ (a ++ [13; c1]) ++ c2 :: c3 :: b) by app_norm.
    rewrite (rd_off pre (a ++ [13; c1]) c2 (c3 :: b) (Z.of_nat (length pre + length a) + 2)) by (len_norm; cbn [length]; lia). cbn [mbind outcome_mbind].
    replace (pre ++ (a ++ [13; c1]) ++ c2 :: c3 :: b) with (pre ++ (a ++ [13; c1; c2]) ++ c3 :: b) by app_norm.
    rewrite (rd_off pre (a ++ [13; c1; c2]) c3 b (Z.of_nat (length pre + length a) + 3)) by (len_norm; cbn [length]; lia). cbn [mbind outcome_mbind].
    destruct ((c1 =? 10) && (c2 =? 13) && (c3 =? 10)) eqn:E3.
    + assert (c1 = 10 ∧ c2 = 13 ∧ c3 = 10) as (-> & -> & ->) by lia.
      rewrite decide_True by (by exists b). cbn. do 2 f_equal. lia.
    + rewrite decide_False by (intros [k' Hp]; injection Hp as -> -> -> _; done).
      replace (pre ++ (a ++ [13; c1; c2]) ++ c3 :: b) with ((pre ++ a ++ [13]) ++ c1 :: c2 :: c3 :: b) by app_norm.
      replace (length pre + length a + 1)%nat with (length (pre ++ a ++ [13])) by (len_norm; cbn [length]; lia).
      rewrite IH by (cbn [length] in *; lia). f_equal. destruct (first_end cr_seps (c1 :: c2 :: c3 :: b)); cbn; [|done].
      f_equal. len_norm. cbn [length]. lia.
  - rewrite decide_False by (intros [k' Hp]; apply (f_equal length) in Hp; cbn in Hp; lia).
    assert (first_end cr_seps (c1 :: b) = None) as ->; [|done].
    destruct b as [|c2 [|]]; [| |cbn in Hb3; lia].
    + by rewrite (first_end_other _ _ _ 13), (first_end_nil _ 13).
    + rewrite (first_end_other _ _ _ 13) by done. rewrite first_end_cons. unfold cr_seps at 1. cbn [list_find].
      rewrite !decide_False by (intros [k' Hp]; apply (f_equal length) in Hp; cbn in Hp; lia). by rewrite (first_end_nil _ 13).
Qed.

Lemma lf_loop_spec fuel pre s : (length s < fuel)%nat →
  lf_loop fuel (pre ++ s) (length pre) = Ret ((λ k, (length pre + k)%nat) <$> first_end lf_seps s).
Proof.
  revert pre s. induction fuel as [|fuel IH]; intros pre s Hf; [lia|]. cbn [lf_loop]. rewrite length_app.
  assert (Hseps : Forall (λ sep, head sep = Some 10) lf_seps) by (repeat constructor).
  destruct s as [|x0 s0] eqn:Es; [rewrite decide_False by (cbn; lia); by rewrite (first_end_nil _ 10)|].
  rewrite decide_True by (cbn [length]; lia). rewrite <-Es in *. rewrite drop_app_length. clear Es x0 s0.
  pose proof (strchr_inv s 10) as Hs. destruct (strchr s 10) as [k|]; [|by rewrite (first_end_none _ _ 10)].
  destruct Hs as (a & b & -> & -> & Ha). rewrite (first_end_skip _ _ 10) by done. rewrite length_app in *. cbn [length] in *.
  replace (Z.of_nat (length pre + (length a + S (length b))) - Z.of_nat (length pre + length a) - 1) with (Z.of_nat (length b)) by lia.
  destruct b as [|c1 b]; [done|]. cbn [length].
  destruct (Z.ltb_spec 0 (Z.of_nat (S (length b)))) as [_|]; [|lia].
  replace (pre ++ a ++ 10 :: c1 :: b) with (pre ++ (a ++ [10]) ++ c1 :: b) by app_norm.
  rewrite (rd_off pre (a ++ [10]) c1 b (Z.of_nat (length pre + length a) + 1)) by (len_norm; cbn [length]; lia). cbn [mbind outcome_mbind].
  rewrite (first_end_cons _ 10). unfold lf_seps at 1. cbn [list_find]. destruct (Z.eqb_spec c1 10) as [->|H10].
  - rewrite decide_True by (by exists b). cbn. do 2 f_equal. lia.
  - rewrite decide_False by (intros Hp%prefix_cons_inv_2; apply prefix_cons_inv_1 in Hp; done).
    replace (pre ++ (a ++ [10]) ++ c1 :: b) with ((pre ++ a ++ [10]) ++ c1 :: b) by app_norm.
    replace (length pre + length a + 1)%nat with (length (pre ++ a ++ [10])) by (len_norm; cbn [length]; lia).
    rewrite IH by (cbn [length] in *; lia). f_equal. destruct (first_end lf_seps (c1 :: b)); cbn; [|done].
    f_equal. len_norm. cbn [length]. lia.
Qed.

(** *** Canonical headers *)
Lemma canon_run s : canon true s = canon false (drop (span_in is_crlf s) s).
Proof. induction s as [|c s IH]; cbn [canon span_in]; [done|]. destruct (is_crlf c) eqn:Hc; [done|]. cbn. by rewrite Hc. Qed.

Lemma put_ok cap buf c : (length buf < cap)%nat → put cap buf c = Ret (buf ++ [c]).
Proof. intros H. unfold put. by rewrite decide_True. Qed.

Lemma canonicalize_loop_spec fuel cap s buf :
  (length s < fuel)%nat → (length buf + length (canon false s) <= cap)%nat →
  canonicalize_loop fuel cap s buf = Ret (buf ++ canon false s).
Proof.
  revert s buf. induction fuel as [|fuel IH]; intros s buf Hf Hcap; [lia|]. cbn [canonicalize_loop].
  destruct s as [|c s]; [cbn [canon]; by rewrite app_nil_r|]. cbn [canon] in *. destruct (is_crlf c) eqn:Hc.
  - rewrite length_app in Hcap. cbn [length CRLF] in Hcap.
    rewrite put_ok by lia. cbn [mbind outcome_mbind]. rewrite put_ok by (rewrite length_app; cbn [length]; lia). cbn [mbind outcome_mbind].
    cbn [span_in]. rewrite Hc. cbn [drop]. rewrite canon_run in *.
    rewrite IH; [f_equal; app_norm| |rewrite !length_app; cbn [length]; lia].
    rewrite length_drop. cbn [length] in Hf. lia.
  - cbn [length] in *. rewrite put_ok by lia. cbn [mbind outcome_mbind]. rewrite IH; [f_equal; app_norm|lia|rewrite length_app; cbn [length]; lia].
Qed.

Lemma canon_length b s : (length (canon b s) <= 2 * length s)%nat.
Proof.
  revert b. induction s as [|c s IH]; intros b; cbn [canon length]; [lia|]. pose proof (IH true). pose proof (IH false).
  destruct (is_crlf c), b; cbn [length CRLF app]; lia.
Qed.
(** Two line characters in a row make room for the last line. *)
Lemma canon_length_double b p x y q : is_crlf x = true → is_crlf y = true →
  (length (canon b (p ++ x :: y :: q)) + 2 <= 2 * length (p ++ x :: y :: q))%nat.
Proof.
  intros Hx Hy. revert b. induction p as [|c p IH]; intros b; cbn [app canon length].
  - rewrite Hx, Hy. pose proof (canon_length true q). destruct b; cbn [length CRLF app]; lia.
  - pose proof (IH true). pose proof (IH false). destruct (is_crlf c), b; cbn [length CRLF app]; lia.
Qed.

Lemma canonicalize_headers_spec s :
  (length (canon false s) + 2 <= 2 * length s)%nat → canonicalize_headers s = Ret (canonical s ++ [0]).
Proof.
  intros Hl. unfold canonicalize_headers, canonical. rewrite canonicalize_loop_spec by (cbn [length] in *; lia). cbn [mbind outcome_mbind app].
  rewrite put_ok by lia. cbn [mbind outcome_mbind]. rewrite put_ok by (rewrite length_app; cbn [length]; lia). cbn [mbind outcome_mbind].
  rewrite put_ok by (rewrite !length_app; cbn [length]; lia). f_equal. app_norm.
Qed.

(** The head of a response ends with two line characters. *)
Lemma first_end_double seps s k : Forall (λ sep, ∃ p x y, sep = p ++ [x; y] ∧ is_crlf x = true ∧ is_crlf y = true) seps →
  first_end seps s = Some k → (k <= length s)%nat ∧ ∃ p x y, take k s = p ++ [x; y] ∧ is_crlf x = true ∧ is_crlf y = true.
Proof.
  intros Hseps. revert k. induction s as [|c s IH]; intros k; cbn [first_end]; destruct (list_find _ seps) as [[i sep]|] eqn:E; try done.
  1, 2: apply list_find_Some in E as (Hl & [q Hq] & _);
    destruct (proj1 (Forall_forall _ _) Hseps sep (list_elem_of_lookup_2 _ _ _ Hl)) as (p & x & y & Esep & Hx & Hy).
  { exfalso. apply (f_equal length) in Hq. rewrite Esep, !length_app in Hq. cbn in Hq. lia. }
  { intros [= <-]. pose proof (f_equal length Hq) as Hql. rewrite length_app in Hql. split; [lia|].
    exists p, x, y. split; [|done]. rewrite Hq, <-Esep. apply take_app_length. }
  destruct (first_end seps s) as [k'|]; [|done]. intros [= <-]. destruct (IH k' eq_refl) as (Hle & p & x & y & Et & Hx & Hy).
  cbn [length take]. split; [lia|]. exists (c :: p), x, y. by rewrite Et.
Qed.
Lemma header_end_double s k : header_end s = Some k → (k <= length s)%nat ∧
  canonicalize_headers (take k s) = Ret (canonical (take k s) ++ [0]).
Proof.
  assert (Hcr : Forall (λ sep, ∃ p x y, sep = p ++ [x; y] ∧ is_crlf x = true ∧ is_crlf y = true) cr_seps).
  { constructor; [by exists [], 13, 13|constructor; [by exists [13; 10], 13, 10|constructor]]. }
  assert (Hlf : Forall (λ sep, ∃ p x y, sep = p ++ [x; y] ∧ is_crlf x = true ∧ is_crlf y = true) lf_seps).
  { constructor; [by exists [], 10, 10|constructor]. }
  intros Hk. assert (first_end cr_seps s = Some k ∨ first_end lf_seps s = Some k) as Hor.
  { unfold header_end in Hk. destruct (first_end cr_seps s) as [a|], (first_end lf_seps s) as [b|]; try by (left + right).
    injection Hk as <-. destruct (Nat.min_spec a b) as [[_ ->]|[_ ->]]; by (left + right). }
  assert ((k <= length s)%nat ∧ ∃ p x y, take k s = p ++ [x; y] ∧ is_crlf x = true ∧ is_crlf y = true) as (Hle & p & x & y & Et & Hx & Hy).
  { destruct Hor as [Ho|Ho]; by apply first_end_double in Ho. }
  split; [done|]. apply canonicalize_headers_spec. rewrite Et. by apply canon_length_double.
Qed.

(** Inside a run after [s]. *)
Fixpoint end_run (b : bool) (s : bytes) : bool :=
  match s with [] => b | c :: s' => end_run (is_crlf c) s' end.
Lemma canon_app b s t : canon b (s ++ t) = canon b s ++ canon (end_run b s) t.
Proof.
  revert b. induction s as [|c s IH]; intros b; cbn [app canon end_run]; [done|]. rewrite !IH.
  destruct (is_crlf c), b; cbn [app CRLF]; done.
Qed.
Lemma canon_canon b s : canon b (canon b s) = canon b s ∧ end_run b (canon b s) = end_run b s.
Proof.
  revert b. induction s as [|c s IH]; intros b; cbn [canon end_run]; [done|]. destruct (is_crlf c) eqn:Hc.
  - destruct (IH true) as [E1 E2]. destruct b; [done|]. cbn [CRLF app canon end_run].
    change (is_crlf 13) with true. change (is_crlf 10) with true. cbn iota. by rewrite E1, E2.
  - destruct (IH false) as [E1 E2]. cbn [canon end_run]. rewrite Hc. by rewrite E1, E2.
Qed.
Lemma end_run_snoc b p c : end_run b (p ++ [c]) = is_crlf c.
Proof. revert b. induction p as [|d p IH]; intros b; cbn [app end_run]; [done|apply IH]. Qed.
Lemma canon_ends b s : end_run b s = true → (b = true ∧ canon b s = []) ∨ ∃ t, canon b s = t ++ CRLF.
Proof.
  revert b. induction s as [|c s IH]; intros b; cbn [end_run canon]; [by left|]. intros Hend.
  destruct (IH _ Hend) as [[Hc E]|[t E]]; destruct (is_crlf c); try done.
  - rewrite E. destruct b; [by left|right; by exists []].
  - rewrite E. right. destruct b; [by exists t|by exists (CRLF ++ t)].
  - rewrite E. right. by exists (c :: t).
Qed.

(** *** Requests read back *)
Lemma buf_strchr_app a c s i : c ≠ 0 → (c ∉ a) → no_nul a → buf_strchr (a ++ c :: s) c i = Ret (Some (i + length a)%nat).
Proof.
  intros Hc Ha Hn. revert i. induction a as [|x a IH]; intros i; cbn [app buf_strchr length].
  - rewrite Z.eqb_refl. do 2 f_equal. lia.
  - inversion Hn; subst. rewrite (proj2 (Z.eqb_neq x c)) by set_solver. rewrite (proj2 (Z.eqb_neq x 0)) by done.
    rewrite IH by (done || set_solver). do 2 f_equal. lia.
Qed.

Lemma get_header_content_spec (data : bytes) :
  get_header_content data =
  Ret match header_end data with
      | None => SplitData None 0 None 0
      | Some k =>
          SplitData (Some (canonical (take k data) ++ [0])) (Z.of_nat (span_in (λ c, negb (c =? 0)) (canonical (take k data) ++ [0])))
                    (Some (drop k data ++ [0])) (Z.of_nat (length data) - Z.of_nat k)
      end.
Proof.
  unfold get_header_content. cbn zeta.
  assert (Ecr : cr_loop (S (length data)) data 0 = Ret (first_end cr_seps data)).
  { pose proof (cr_loop_spec (S (length data)) [] data ltac:(lia)) as E. cbn [app length] in E. rewrite E. by destruct (first_end cr_seps data). }
  assert (Elf : lf_loop (S (length data)) data 0 = Ret (first_end lf_seps data)).
  { pose proof (lf_loop_spec (S (length data)) [] data ltac:(lia)) as E. cbn [app length] in E. rewrite E. by destruct (first_end lf_seps data). }
  rewrite Ecr, Elf. cbn [mbind outcome_mbind]. pose proof (header_end_double data) as Hd. unfold header_end in *.
  destruct (first_end cr_seps data) as [a|], (first_end lf_seps data) as [b|]; cbn [ptr_gt]; [|..|done].
  - destruct (Nat.ltb_spec a b) as [Hab|Hab].
    + rewrite (Nat.min_l a b) in * by lia. destruct (Hd _ eq_refl) as [Hle E]. rewrite decide_False by lia. by rewrite E.
    + rewrite (Nat.min_r a b) in * by lia. destruct (Hd _ eq_refl) as [Hle E]. rewrite decide_False by lia. by rewrite E.
  - destruct (Hd _ eq_refl) as [Hle E]. rewrite decide_False by lia. by rewrite E.
  - destruct (Hd _ eq_refl) as [Hle E]. rewrite decide_False by lia. by rewrite E.
Qed.

(** *** Operations on a connection *)
Section ops_lemmas.
Context `{Digest} {Monitor : Type}.
Implicit Types s : clib_state Monitor.

Lemma on_parts_ret {A} (m : M (part_state Monitor) A) s a p :
  m (parts s) = Ret (a, p) → on_parts m s = Ret (a, ClibState p (query_tv s) (udp_retries s) (peers s) (talks s)).
Proof. intros E. unfold on_parts, mbind, outcome_mbind. by rewrite E. Qed.
Lemma on_conn_ret {A} (m : IO A) s c ps a c' :
  peers s = c :: ps → m c = Ret (a, c') →
  on_conn m s = Ret (a, ClibState (parts s) (query_tv s) (udp_retries s) (c' :: ps) (talks s)).
Proof. intros Ep E. unfold on_conn, mbind, outcome_mbind. rewrite Ep. by rewrite E. Qed.

(** A request sent over a connection whose kernel makes progress. *)
Lemma sends_live m req ok c : sends m req ok → forallb live (xfers c) = true → (length req <= moves (xfers c))%nat →
  ∃ c', m c = Ret (ok, c') ∧ wire c' = wire c ++ req ∧ input c' = input c ∧ sels c' = sels c ∧
    forallb live (xfers c') = true ∧ (length (xfers c') <= length (xfers c))%nat ∧ (moves (xfers c) <= moves (xfers c') + length req)%nat.
Proof.
  intros Hs Hl Hm. specialize (Hs c). destruct (m c) as [[r c']| | |]; [|done..|lia].
  destruct Hs as (n & Hw & Hi & Hsel & Hsuf & [(-> & -> & Hmv)|(_ & _ & Hl')]); [|congruence].
  exists c'. rewrite firstn_all in Hw. split_and!; try done.
  - destruct (forallb live (xfers c')) eqn:E; [done|]. pose proof (live_suffix _ _ Hsuf E). congruence.
  - by apply suffix_length.
Qed.

(** The whole of a response below the cut-through limit. *)
Lemma receive_all junk c : forallb live (xfers c) = true → (length (input c) < moves (xfers c))%nat →
  Z.of_nat (length (input c)) <= CLIB_CUTTHROUGH_THRESH → 4096 * Z.of_nat (io_fuel c) < 2 ^ 32 →
  ∃ buf c', do_http_receive junk c = Ret ((0, Z.of_nat (length (input c)), buf), c') ∧
    take (length (input c)) buf = input c ∧ wire c' = wire c ∧ input c' = [].
Proof.
  intros Hl Hm Hcut Hw.
  pose proof (do_http_receive_loop_spec junk (io_fuel c) [] 0 [] c ltac:(by split) ltac:(unfold io_fuel; lia)) as Hr.
  unfold do_http_receive. rewrite (bind_ret get _ _ _ _ eq_refl). change (Z.of_nat (length [])) with 0 in Hr.
  destruct (do_http_receive_loop junk (io_fuel c) [] 0 0 c) as [[[[r len] buf] c']| | |]; [|done..|lia].
  destruct Hr as (got & Hin & Hwire & -> & Ht & Hcase). cbn [app] in *. exists buf, c'.
  destruct Hcase as [[-> [Hi|Hi]]|[[-> Hi]|[-> Hi]]]; [|congruence|congruence|].
  - rewrite Hi, app_nil_r in Hin. rewrite Hin. done.
  - exfalso. rewrite Hin, length_app in Hcut. lia.
Qed.

(** A connection that fails at once. *)
Definition broken (c : io) : Prop := ∃ e r, xfers c = Failed e :: r ∧ transient (-1) e = false.
Lemma send_broken url c : broken c → ∃ c', do_http_send url None [] 0 true ICP_GET c = Ret (-1, c').
Proof.
  intros (e & r & Hx & Ht). unfold do_http_send. change (ICP_GET =? ICP_GET) with true. cbn iota. rewrite mret_bind. cbn zeta.
  set (buf := (method_of ICP_GET ++ url) ++ bytes_of " HTTP/1.0" ++ CRLF).
  replace (4 + 11 + 2 + 0 + Z.of_nat (length url) - 2) with (Z.of_nat (length buf)).
  2: { unfold buf. rewrite !length_app. cbn [length method_of bytes_of CRLF]. change (length (method_of ICP_GET)) with 4%nat. lia. }
  assert (Hb : 0 < Z.of_nat (length buf)) by (unfold buf; rewrite !length_app; change (length (method_of ICP_GET)) with 4%nat; lia).
  generalize dependent buf. intros buf Hb. unfold write_all, correct_write. rewrite M_assoc, (bind_ret get _ _ _ _ eq_refl).
  unfold data_len. destruct (Z.eqb_spec (Z.of_nat (length buf)) (-1)); [lia|].
  unfold io_fuel. cbn [Nat.add correct_write_loop]. destruct (Z.eqb_spec 0 (Z.of_nat (length buf))); [lia|].
  assert (E : ∀ d, sys_write d c = Ret ((-1, e), with_xfers r c)) by (intros d; unfold sys_write; by rewrite Hx).
  rewrite M_assoc, (bind_ret _ _ _ _ _ (E _)). cbn beta iota. change (-1 <=? 0) with true. cbn iota. rewrite Ht. rewrite mret_bind.
  destruct (Z.eqb_spec (-1) (Z.of_nat (length buf))); [lia|]. cbn [negb]. by exists (with_xfers r c).
Qed.

(** A request over a connection that works: it is written, the response is
    read to its end, split, and returned; the connection is closed. *)
Definition response_data (resp : bytes) (k : nat) : clib_data :=
  ClibData (Ptr (canonical (take k resp) ++ [0])) (Z.of_nat (span_in (λ c, negb (c =? 0)) (canonical (take k resp) ++ [0])))
    (Ptr (drop k resp ++ [0])) (Z.of_nat (length resp) - Z.of_nat k) (-1).
Lemma transact_ok nm part_opts getsockname junk url send req rd0 s p1 f c ps k fuel : sends send req 1 →
  Part_GetTCPsock nm part_opts url (parts s) = Ret ((CLIB_OK, Some f), p1) → peers s = c :: ps →
  forallb live (xfers c) = true → (length req + length (input c) < moves (xfers c))%nat →
  Z.of_nat (length (input c)) <= CLIB_CUTTHROUGH_THRESH → 4096 * Z.of_nat (io_fuel c) < 2 ^ 32 → header_end (input c) = Some k →
  ∃ s' c', transact nm part_opts getsockname junk (S fuel) url send rd0 s = Ret ((CLIB_OK, response_data (input c) k), s') ∧
    peers s' = ps ∧ talks s' = c' :: talks s ∧ wire c' = wire c ++ req ∧ (f ∉ open_fds (os (parts s'))).
Proof.
  intros Hs Hsock Hpeers Hlive Hmoves Hcut Hword Hk. cbn [transact].
  rewrite (bind_ret _ _ _ _ _ (on_parts_ret _ _ _ _ Hsock)). change (negb (CLIB_OK =? CLIB_OK)) with false. cbn iota.
  change (deref (Some f)) with (@mret (M (clib_state Monitor)) _ _ f). rewrite mret_bind.
  destruct (sends_live _ _ _ c Hs Hlive ltac:(lia)) as (c1 & E1 & Hw1 & Hi1 & Hsel1 & Hl1 & Hx1 & Hm1).
  match goal with |- context [(on_conn ?m ≫= _) ?s0] => rewrite (bind_ret _ _ _ _ _ (on_conn_ret m s0 c ps _ _ Hpeers E1)) end.
  change (negb (1 =? 1)) with false. cbn iota.
  destruct (receive_all junk c1 Hl1 ltac:(rewrite Hi1; lia) ltac:(by rewrite Hi1)) as (buf & c2 & E2 & Ht & Hw2 & Hi2).
  { unfold io_fuel in *. rewrite Hsel1. lia. }
  match goal with |- context [(on_conn ?m ≫= _) ?s0] => rewrite (bind_ret _ _ _ _ _ (on_conn_ret m s0 c1 ps _ _ eq_refl E2)) end.
  cbn beta iota. change (negb (0 =? 0)) with false. cbn iota. unfold finish. rewrite Nat2Z.id, Ht, Hi1.
  match goal with |- context [(lift_c (get_header_content ?d) ≫= _) ?s0] =>
    assert (E3 : lift_c (get_header_content d) s0 = Ret (SplitData (Some (canonical (take k (input c)) ++ [0]))
      (Z.of_nat (span_in (λ c, negb (c =? 0)) (canonical (take k (input c)) ++ [0])))
      (Some (drop k (input c) ++ [0])) (Z.of_nat (length (input c)) - Z.of_nat k), s0)) by
      (unfold lift_c; rewrite get_header_content_spec, Hk; reflexivity) end.
  step_with E3. cbn [s_mime s_content s_mime_size s_content_size].
  unfold sys_close. unfold mbind, M_mbind. cbn [peers parts]. eexists _, c2. split; [reflexivity|]. cbn [peers talks parts os with_os open_fds with_open].
  split; [done|]. split; [done|]. split; [congruence|]. rewrite list_elem_of_filter. tauto.
Qed.

(** [n] connections that the server accepts. *)
Fixpoint accepts (n : nat) (fd : Z) : list (Z * errno) :=
  match n with O => [] | S n' => (fd, EOTHER 0) :: (0, EOTHER 0) :: (0, EOTHER 0) :: accepts n' (fd + 1) end.

Lemma transact_broken nm part_opts getsockname junk url e (Hopts : ∀ n v, part_opts n = Some v → no_nul v) fuel :
  ∀ s rd0 fd, one_server e (parts s) → Forall broken (peers s) →
  answers (os (parts s)) = accepts (S (length (peers s))) fd → 0 <= fd →
  transact nm part_opts getsockname junk fuel url (do_http_send url None [] 0 true ICP_GET) rd0 s = Stuck.
Proof.
  induction fuel as [|fuel IH]; intros s rd0 fd Hone Hbr HA Hfd; [done|]. cbn [transact].
  cbn [accepts] in HA.
  destruct (tcp_accepts nm part_opts Hopts e (parts s) url fd _ 0 _ 0 _ _ Hone HA Hfd) as (p1 & E1 & Hone1 & HA1); [lia|lia|].
  rewrite (bind_ret _ _ _ _ _ (on_parts_ret _ _ _ _ E1)). change (negb (CLIB_OK =? CLIB_OK)) with false. cbn iota.
  change (deref (Some fd)) with (@mret (M (clib_state Monitor)) _ _ fd). rewrite mret_bind.
  destruct (peers s) as [|c ps] eqn:Ep; [done|]. inversion Hbr as [|?? Hc Hps]; subst.
  destruct (send_broken url c Hc) as (c' & E2).
  match goal with |- context [(on_conn ?m ≫= _) ?s0] => rewrite (bind_ret _ _ _ _ _ (on_conn_ret m s0 c ps _ _ eq_refl E2)) end.
  change (negb (-1 =? 1)) with true. cbn iota. unfold abandon.
  destruct (handle_failure_keeps nm part_opts Hopts getsockname e p1 fd Hone1) as (r & p2 & E3 & Hone2 & HA2).
  match goal with |- context [(on_parts ?m ≫= _) ?s0] => rewrite (bind_ret _ _ _ _ _ (on_parts_ret m s0 _ _ E3)) end. cbn beta.
  unfold sys_close. unfold mbind at 1, M_mbind at 1. cbn [peers parts query_tv udp_retries talks].
  rewrite (bind_ret get _ _ _ _ eq_refl). cbn [parts num_partitions with_os].
  destruct Hone2 as [[Hn Hh Hcd Hm] Ha Hl Hport Hlen]. rewrite Hn, Hl. change (Z.of_nat (length [e]) =? 0) with false. cbn iota.
  apply (IH _ _ (fd + 1)); cbn [parts peers]; [by split; [split|..]|done| |lia].
  cbn [os with_os answers with_open]. rewrite HA2, HA1. done.
Qed.
End ops_lemmas.

(** ** Properties *)

(** The split of a response finds, whatever the mixture of line ends, the
    first CRCR, CRLFCRLF or LFLF to end; the headers are everything up to
    it, made canonical, the content everything behind it, and without such a
    separator there are neither; no access is out of bounds, the block for
    the canonical headers being large enough for every head found. *)
Theorem header_split (data : bytes) :
  get_header_content data =
  Ret match header_end data with
      | None => SplitData None 0 None 0
      | Some k =>
          SplitData (Some (canonical (take k data) ++ [0])) (Z.of_nat (span_in (λ c, negb (c =? 0)) (canonical (take k data) ++ [0])))
                    (Some (drop k data ++ [0])) (Z.of_nat (length data) - Z.of_nat k)
      end.
Proof. apply get_header_content_spec. Qed.

(** Canonical headers are canonical: a head that ends with two line
    characters is made canonical within the block allocated for it, and
    canonicalizing the result again changes nothing. *)
Theorem canonicalize_idempotent (p : bytes) (x y : byte) (Hx : is_crlf x = true) (Hy : is_crlf y = true) :
  ∃ h, canonicalize_headers (p ++ [x; y]) = Ret (h ++ [0]) ∧ canonicalize_headers h = Ret (h ++ [0]) ∧
       drop (length h - 4) h = CRLF ++ CRLF.
Proof.
  set (s := p ++ [x; y]). exists (canonical s).
  assert (Hl : (length (canon false s) + 2 <= 2 * length s)%nat) by (by apply canon_length_double).
  assert (Hend : end_run false s = true).
  { unfold s. change [x; y] with ([x] ++ [y]). by rewrite app_assoc, end_run_snoc. }
  assert (Hc : canon false (canonical s) = canon false s).
  { unfold canonical. rewrite canon_app. destruct (canon_canon false s) as [-> ->]. rewrite Hend. cbn. by rewrite app_nil_r. }
  split; [by apply canonicalize_headers_spec|]. split.
  - rewrite canonicalize_headers_spec.
    + unfold canonical at 1. rewrite Hc. done.
    + rewrite Hc. unfold canonical. rewrite length_app. cbn [length CRLF]. lia.
  - destruct (canon_ends false s Hend) as [[? _]|[t E]]; [done|]. unfold canonical. rewrite E, <-app_assoc.
    rewrite drop_app_length'; [done|]. rewrite length_app. cbn [length app CRLF]. lia.
Qed.
Lemma canonicalize_idempotent_witness :
  ∃ h, canonicalize_headers (bytes_of "HTTP/1.0 200 OK" ++ [10] ++ bytes_of "A: b" ++ [10; 10]) = Ret (h ++ [0]) ∧
       canonicalize_headers h = Ret (h ++ [0]) ∧ drop (length h - 4) h = CRLF ++ CRLF.
Proof. apply (canonicalize_idempotent (bytes_of "HTTP/1.0 200 OK" ++ [10] ++ bytes_of "A: b") 10 10); reflexivity. Defined.

(** The URL that decides the server of a raw request is the URL of the
    request: [get_url_from_data] reads it back from what [do_http_send]
    writes. *)
Theorem url_roundtrip (url : bytes) (headers : option bytes) (content : bytes) (request_type : Z)
    (Hty : request_type ∈ [ICP_GET; ICP_POST; ICP_HEAD]) (Hb : 32 ∉ url) (Hn : no_nul url) :
  get_url_from_data (request_bytes url headers content true request_type) = Ret (Some url).
Proof.
  unfold get_url_from_data, request_bytes.
  assert (∃ m, method_of request_type = m ++ [32] ∧ (32 ∉ m) ∧ no_nul m) as (m & -> & Hm & Hmn).
  { repeat (apply elem_of_cons in Hty as [->|Hty]); [exists (bytes_of "GET")|exists (bytes_of "POST")|exists (bytes_of "HEAD")|set_solver];
      (split; [reflexivity|split; apply (bool_decide_unpack _); vm_compute; exact I]). }
  set (rest := match headers with Some h => _ | None => _ end ++ content).
  replace ((m ++ [32]) ++ url ++ (bytes_of " HTTP/1.0" ++ CRLF) ++ rest) with (m ++ 32 :: url ++ 32 :: (bytes_of "HTTP/1.0" ++ CRLF) ++ rest) by app_norm.
  rewrite buf_strchr_app by done. cbn [mbind outcome_mbind Nat.add].
  assert (Hd : drop (S (length m)) (m ++ 32 :: url ++ 32 :: (bytes_of "HTTP/1.0" ++ CRLF) ++ rest) = url ++ 32 :: (bytes_of "HTTP/1.0" ++ CRLF) ++ rest).
  { rewrite drop_app_ge by lia. by replace (S (length m) - length m)%nat with 1%nat by lia. }
  rewrite Hd. rewrite buf_strchr_app by done. cbn [mbind outcome_mbind Nat.add]. by rewrite take_app_length.
Qed.
Lemma url_roundtrip_witness :
  get_url_from_data (request_bytes (bytes_of "http://h/x?y=1") None (bytes_of "a=1") true ICP_POST) = Ret (Some (bytes_of "http://h/x?y=1")).
Proof. apply url_roundtrip; apply (bool_decide_unpack _); vm_compute; exact I. Defined.

(** A fetch over a connection that works: the request is written, the
    response is read to its end, split, and returned; the connection is
    closed. *)
Theorem fetch_ok `{Digest} {Monitor} (nm : names) (part_opts : bytes → option bytes) (getsockname : Z → Z * sockaddr_in)
    (junk : nat → byte) (url : bytes) (headers : option bytes) (rd0 : clib_data) (s : clib_state Monitor)
    (p1 : part_state Monitor) (f : Z) (c : io) (ps : list io) (k : nat)
    (req := request_bytes url headers [] true ICP_GET)
    (Hsock : Part_GetTCPsock nm part_opts url (parts s) = Ret ((CLIB_OK, Some f), p1))
    (Hpeers : peers s = c :: ps)
    (Hmh : match headers with Some h => (4 <= length h)%nat | None => True end)
    (Hlive : forallb live (xfers c) = true)
    (Hmoves : (length req + length (input c) < moves (xfers c))%nat)
    (Hcut : Z.of_nat (length (input c)) <= CLIB_CUTTHROUGH_THRESH)
    (Hword : 4096 * Z.of_nat (io_fuel c) < 2 ^ 32)
    (Hk : header_end (input c) = Some k) :
  ∃ s' c' mime_size, Clib_Fetch nm part_opts getsockname junk url headers rd0 s =
      Ret ((CLIB_OK, ClibData (Ptr (canonical (take k (input c)) ++ [0])) mime_size
                              (Ptr (drop k (input c) ++ [0])) (Z.of_nat (length (input c)) - Z.of_nat k) (-1)), s') ∧
    peers s' = ps ∧ talks s' = c' :: talks s ∧ wire c' = wire c ++ req ∧ (f ∉ open_fds (os (parts s'))).
Proof.
  pose proof (do_http_send_sends url headers [] true ICP_GET ltac:(set_solver +) Hmh) as Hs.
  destruct (transact_ok nm part_opts getsockname junk url _ _ rd0 s p1 f c ps k (length (peers s)) Hs Hsock Hpeers Hlive Hmoves Hcut Hword Hk)
    as (s' & c' & E & H'). exists s', c'. eexists. split; [|exact H'].
  unfold Clib_Fetch. rewrite (bind_ret get _ _ _ _ eq_refl). exact E.
Qed.

Definition demo_response : bytes := bytes_of "HTTP/1.0 200 OK" ++ [10; 10] ++ bytes_of "hi".
Definition demo_conn : io := Io (Moved 99 :: replicate 80 (Moved 1)) [] [] demo_response.
Definition demo_clib : clib_state () :=
  ClibState (PartState 1 [PartElement (SockAddr 16777226 14348) 16] 0 [] [] (Some ()) (Some 6) None true [] []
               (Net [(3, EOTHER 0); (0, EOTHER 0); (0, EOTHER 0)] [] ∅)) (0, 100000) 5 [demo_conn] [].
Lemma fetch_ok_witness :
  ∃ s' c' mime_size, Clib_Fetch demo_names demo_opts (λ _, (0, SockAddr 0 0)) (λ _, 0) demo_url None (ClibData Null 0 Null 0 0) demo_clib =
      Ret ((CLIB_OK, ClibData (Ptr (bytes_of "HTTP/1.0 200 OK" ++ [13; 10; 13; 10; 0])) mime_size (Ptr (bytes_of "hi" ++ [0])) 2 (-1)), s') ∧
    peers s' = [] ∧ talks s' = [c'] ∧ wire c' = request_bytes demo_url None [] true ICP_GET ∧ (3 ∉ open_fds (os (parts s'))).
Proof.
  eapply (fetch_ok demo_names demo_opts (λ _, (0, SockAddr 0 0)) (λ _, 0) demo_url None (ClibData Null 0 Null 0 0) demo_clib _ 3 demo_conn [] 17);
    [vm_compute; reflexivity|reflexivity|exact I|reflexivity|apply Nat.ltb_lt; vm_compute; reflexivity|apply Z.leb_le; vm_compute; reflexivity
    |apply Z.ltb_lt; vm_compute; reflexivity|vm_compute; reflexivity].
Defined.

(** As long as the server accepts connections and they fail, a fetch is
    retried without end: the failures reported on the descriptors remove no
    server, so that the call has not returned after any number of
    connections. *)
Theorem fetch_retry_livelock `{Digest} {Monitor} (nm : names) (part_opts : bytes → option bytes) (getsockname : Z → Z * sockaddr_in)
    (junk : nat → byte) (url : bytes) (rd0 : clib_data) (s : clib_state Monitor) (e : part_element) (fd : Z)
    (Hopts : ∀ n v, part_opts n = Some v → no_nul v) (Hone : one_server e (parts s))
    (Hbroken : Forall broken (peers s)) (HA : answers (os (parts s)) = accepts (S (length (peers s))) fd) (Hfd : 0 <= fd) :
  Clib_Fetch nm part_opts getsockname junk url None rd0 s = Stuck.
Proof.
  unfold Clib_Fetch. rewrite (bind_ret get _ _ _ _ eq_refl). by apply (transact_broken nm part_opts getsockname junk url e Hopts _ s rd0 fd).
Qed.
Lemma fetch_retry_livelock_witness :
  Clib_Fetch demo_names demo_opts (λ _, (0, SockAddr 0 0)) (λ _, 0) demo_url None (ClibData Null 0 Null 0 0)
    (ClibState (PartState 1 [PartElement (SockAddr 16777226 14348) 16] 0 [] [] (Some ()) (Some 6) None true [] []
       (Net (accepts 8 3) [] ∅)) (0, 100000) 5 (replicate 7 (Io [Failed (EOTHER 32)] [] [] [])) []) = Stuck.
Proof.
  apply (fetch_retry_livelock demo_names demo_opts (λ _, (0, SockAddr 0 0)) (λ _, 0) demo_url _ _
    (PartElement (SockAddr 16777226 14348) 16) 3 demo_opts_no_nul).
  - split; [split; [done..|by eexists]|done..].
  - apply Forall_replicate. by eexists _, _.
  - reflexivity.
  - lia.
Defined.

(** The value of a location header keeps the blank before it. *)
Example location_blank :
  find_location (bytes_of "HTTP/1.0 302" ++ CRLF ++ bytes_of "Location: http://h/" ++ CRLF ++ CRLF ++ [0]) 37 =
  Ret (Some (bytes_of " http://h/")).
Proof. vm_compute. reflexivity. Qed.
(** A head of one line end does not fit in the block allocated for it. *)
Example canonicalize_overflow : canonicalize_headers [10] = Crash.
Proof. reflexivity. Qed.
(** A redirection whose target cannot be reached leaves freed pointers in the
    caller's record. *)
Definition demo_redirect : clib_state () :=
  ClibState (parts demo_clib) (0, 0) 5
    [Io (Moved 99 :: replicate 90 (Moved 1)) [] [] (bytes_of "HTTP/1.0 302" ++ [10] ++ bytes_of "Location: http://h/" ++ [10; 10])] [].
Example redirect_double_free :
  (r ← Clib_Redir_Fetch demo_names demo_opts (λ _, (0, SockAddr 0 0)) (λ _, 0) demo_url None (ClibData Null 0 Null 0 0) 2;
   Clib_Free r.2)
    (ClibState (with_os (Net [(3, EOTHER 0); (0, EOTHER 0); (0, EOTHER 0); (-1, EOTHER 24)] [] ∅) (parts demo_clib)) (0, 0) 5 (peers demo_redirect) []) = Crash.
Proof. vm_compute. reflexivity. Qed.
(** A query whose answer cannot be received looks at a message that was never
    written. *)
Example query_uninitialised :
  Clib_Query demo_names demo_opts (λ _, (0, SockAddr 0 0)) 0 id (IcpMessage demo_common Garbage) demo_url
    (ClibState (parts demo_clib) (0, 0) 5 [Io [Moved 99; Failed (EOTHER 111)] [Ready] [] []] []) = Crash.
Proof. vm_compute. reflexivity. Qed.

(** The error text of every response is found in the table, whatever
    the number. *)
Theorem strerror_total (x : Z) :
  ∃ s, clib_strerror x = Ret s ∧ (0 <= x < 18 → clib_error_str !! Z.to_nat x = Some s) ∧
       (x < 0 ∨ 18 <= x → s = bytes_of "(Error code out of range)").
Proof.
  unfold clib_strerror. change (Z.of_nat (length clib_error_str)) with 18.
  destruct (Z.leb_spec 0 x), (Z.ltb_spec x 18); cbn [andb]; try (eexists; split; [done|split; [lia|done]]).
  destruct (lookup_lt_is_Some_2 clib_error_str (Z.to_nat x)) as [s Hs]; [cbn; lia|]. rewrite Hs. exists s.
  split; [done|]. split; [done|lia].
Qed.
