(* ===== verification/ThreadQueue.v ===== *)
(** * The worker pool of the front end (src/tcsproxy/frontend/src/thr_queue.c)

    [make_threads] starts [nthreads] workers that take tasks out of a circular
    array and run them; [dispatch] puts a task in.  Both sides share one mutex
    and one condition variable.  A thread is a program counter, one
    constructor per point where another thread can interfere; [exec] runs one
    thread from such a point to the next, and [steps] interleaves the threads
    in every possible way, spurious wakeups included.  The instrumentation of
    src/tcsproxy/frontend/src/thr_mon.c that the workers update is here too. *)

From S2P Require Import Prelude.

Open Scope Z_scope.

(** ** Data *)

(** [thread_state_t] of thr_cntl.h. *)
Inductive thread_state_t : Type :=
| THR_IDLE | THR_ACCEPTED | THR_CACHE | THR_DISTILLER | THR_WRITEBACK
| THR_DISTILLERSEND | THR_DISTILLERWAIT | THREAD_STATE_MAX.

#[export] Instance thread_state_eq_dec : EqDecision thread_state_t.
Proof. solve_decision. Defined.

(** A [task_t *]: an address, 0 for NULL. *)
Abbreviation task := Z (only parsing).

(** The variables of thr_queue.c.  [mtx_queue] holds the thread that owns the
    mutex; the threads blocked on [cond_queue] are those whose program
    counter says so; [thrindex_of] is the field [thrindex] of the tasks. *)
Record shared := Shared {
  nthreads : Z;
  task_queue : list task;
  qhead : Z;
  qtail : Z;
  tasks_done : Z;
  mtx_queue : option nat;
  thread_inst : list thread_state_t;
  thrindex_of : gmap task Z;
}.

Definition set_mtx (m : option nat) (s : shared) : shared :=
  Shared (nthreads s) (task_queue s) (qhead s) (qtail s) (tasks_done s) m
    (thread_inst s) (thrindex_of s).
Definition set_done (d : Z) (s : shared) : shared :=
  Shared (nthreads s) (task_queue s) (qhead s) (qtail s) d (mtx_queue s)
    (thread_inst s) (thrindex_of s).
Definition set_head (h : Z) (s : shared) : shared :=
  Shared (nthreads s) (task_queue s) h (qtail s) (tasks_done s) (mtx_queue s)
    (thread_inst s) (thrindex_of s).
Definition set_tail (q : list task) (h : Z) (s : shared) : shared :=
  Shared (nthreads s) q (qhead s) h (tasks_done s) (mtx_queue s)
    (thread_inst s) (thrindex_of s).
Definition set_inst (i : list thread_state_t) (s : shared) : shared :=
  Shared (nthreads s) (task_queue s) (qhead s) (qtail s) (tasks_done s) (mtx_queue s)
    i (thrindex_of s).
Definition set_thrindex (task i : Z) (s : shared) : shared :=
  Shared (nthreads s) (task_queue s) (qhead s) (qtail s) (tasks_done s) (mtx_queue s)
    (thread_inst s) (<[task := i]> (thrindex_of s)).

(** Where a thread is.  [G...] are the points of [get_task], [D...] those of
    [dispatch] with the tasks still to be dispatched, the current one first. *)
Inductive pc : Type :=
| GStart                       (** top of the loop of [thread_go_proc] *)
| GLock                        (** [pthread_mutex_lock] of [get_task] *)
| GTest                        (** [while (QUEUE_EMPTY())] *)
| GWait                        (** blocked in [pthread_cond_wait] *)
| GWoken                       (** woken, takes the mutex again *)
| GSignal (t : task)           (** [pthread_cond_signal] *)
| GUnlock (t : task)           (** [pthread_mutex_unlock] *)
| Run (t : task)               (** [CALL_TASK_GO_PROC] *)
| DLock (ts : list task)
| DTest (ts : list task)       (** [while (QUEUE_FULL())] *)
| DWait (ts : list task)
| DWoken (ts : list task)
| DSignal (ts : list task)
| DUnlock (ts : list task)
| Done.                        (** an accept loop with no more connections *)

#[export] Instance pc_eq_dec : EqDecision pc.
Proof. solve_decision. Defined.

Record system := System { sh : shared; pcs : list pc }.

(** What an observer of the queue sees. *)
Inductive event : Type :=
| Put (t : task)
| Take (t : task).

(** ** Operations *)

Definition QUEUE_EMPTY (s : shared) : bool := qhead s =? qtail s.
Definition QUEUE_FULL (s : shared) : bool := (qtail s + 1) mod nthreads s =? qhead s.

Definition is_wait (p : pc) : bool :=
  match p with GWait | DWait _ => true | _ => false end.
Definition woken (p : pc) : pc :=
  match p with GWait => GWoken | DWait ts => DWoken ts | _ => p end.

(** [pthread_cond_signal]: wakes the waiter [c] the system chooses, and does
    nothing when nobody waits. *)
Definition pthread_cond_signal (c : nat) (l : list pc) : option (list pc) :=
  if existsb is_wait l then
    p ← l !! c; if is_wait p then Some (<[c := woken p]> l) else None
  else Some l.

(** [INST_set_thread_state] of thr_mon.c. *)
Definition INST_set_thread_state (thrindex : Z) (st : thread_state_t) (s : shared) : outcome shared :=
  if (0 <=? thrindex) && (thrindex <? nthreads s)
  then Ret (set_inst (<[Z.to_nat thrindex := st]> (thread_inst s)) s)
  else Crash.

(** [make_threads]: the shared state the workers start in.  [threads_max] is
    [PTHREAD_THREADS_MAX] where the system defines it, [garbage] what
    [malloc] returns for the queue. *)
Definition make_threads (threads_max : option Z) (garbage : list task) (nth : Z) : shared :=
  let n := match threads_max with
           | Some m => if m <? nth then m else nth
           | None => nth
           end in
  Shared n garbage 0 0 nth None (replicate (Z.to_nat n) THR_IDLE) ∅.

(** What a thread blocked on the mutex, or on a condition, does: nothing. *)
Abbreviation blocked := (None) (only parsing).

Section threads.
Context (go_proc : task → list task).

(** The tasks the go procedure of a task dispatches are given by [go_proc];
    a worker that has dispatched them goes round its loop, an accept loop
    that has dispatched all its connections is [Done]. *)
Definition next_pc (worker : bool) (ts : list task) : pc :=
  match ts with
  | [] => if worker then GStart else Done
  | _ => DLock ts
  end.

(** [pthread_mutex_lock]. *)
Definition pthread_mutex_lock (t : nat) (s : shared) : option shared :=
  match mtx_queue s with None => Some (set_mtx (Some t) s) | Some _ => blocked end.

(** The body of [get_task] after its loop: asserts that there is a task,
    counts the thread as busy and removes the task. *)
Definition dequeue (s : shared) : outcome (task * shared) :=
  if QUEUE_EMPTY s then Crash
  else match task_queue s !! Z.to_nat (qhead s) with
       | Some x => Ret (x, set_head ((qhead s + 1) mod nthreads s) (set_done (tasks_done s + 1) s))
       | None => Crash
       end.

(** The body of [dispatch] after its loop. *)
Definition enqueue (x : task) (s : shared) : outcome shared :=
  if QUEUE_FULL s then Crash
  else if x =? 0 then Crash
  else if (0 <=? qtail s) && (qtail s <? Z.of_nat (length (task_queue s)))
  then Ret (set_tail (<[Z.to_nat (qtail s) := x]> (task_queue s)) ((qtail s + 1) mod nthreads s) s)
  else Crash.

(** A step of thread [t] at [p] is one piece of the code below; [c] is the
    waiter a signal wakes. *)
Definition goes (t : nat) (sh' : shared) (q : pc) (s : system) : outcome (option event * system) :=
  Ret (None, System sh' (<[t := q]> (pcs s))).

(** [get_task]. *)
Definition get_task (t c : nat) (p : pc) (s : system) : option (outcome (option event * system)) :=
  match p with
  | GLock =>
      sh' ← pthread_mutex_lock t (sh s);
      Some (goes t (set_done (tasks_done sh' - 1) sh') GTest s)
  | GTest =>
      if QUEUE_EMPTY (sh s) then Some (goes t (set_mtx None (sh s)) GWait s)
      else Some ('(x, sh') ← dequeue (sh s);
                 Ret (Some (Take x), System sh' (<[t := GSignal x]> (pcs s))))
  | GWoken => sh' ← pthread_mutex_lock t (sh s); Some (goes t sh' GTest s)
  | GSignal x =>
      l ← pthread_cond_signal c (pcs s);
      Some (Ret (None, System (sh s) (<[t := GUnlock x]> l)))
  | GUnlock x =>
      Some (if x =? 0 then Crash
            else goes t (set_thrindex x (Z.of_nat t) (set_mtx None (sh s))) (Run x) s)
  | _ => blocked
  end.

(** [dispatch], for the first of the tasks a thread has to dispatch. *)
Definition dispatch (t c : nat) (p : pc) (s : system) : option (outcome (option event * system)) :=
  match p with
  | DLock ts => sh' ← pthread_mutex_lock t (sh s); Some (goes t sh' (DTest ts) s)
  | DTest ts =>
      if QUEUE_FULL (sh s) then Some (goes t (set_mtx None (sh s)) (DWait ts) s)
      else match ts with
           | [] => Some Crash
           | x :: ts' =>
               Some (sh' ← enqueue x (sh s);
                     Ret (Some (Put x), System sh' (<[t := DSignal ts]> (pcs s))))
           end
  | DWoken ts => sh' ← pthread_mutex_lock t (sh s); Some (goes t sh' (DTest ts) s)
  | DSignal ts =>
      l ← pthread_cond_signal c (pcs s);
      Some (Ret (None, System (sh s) (<[t := DUnlock ts]> l)))
  | DUnlock ts =>
      Some (goes t (set_mtx None (sh s)) (next_pc (Z.of_nat t <? nthreads (sh s)) (tail ts)) s)
  | _ => blocked
  end.

(** The loop of [thread_go_proc] around [get_task].  [CALL_TASK_GO_PROC] asserts
    that the task has a go procedure: here each task has the one given by
    [go_proc].  [release_task], which frees the structure of the task, has no
    counterpart: tasks are addresses, and no thread looks at one again. *)
Definition thread_go_proc (t : nat) (p : pc) (s : system) : option (outcome (option event * system)) :=
  match p with
  | GStart => Some (sh' ← INST_set_thread_state (Z.of_nat t) THR_IDLE (sh s); goes t sh' GLock s)
  | Run x =>
      Some (sh' ← INST_set_thread_state (Z.of_nat t) THR_ACCEPTED (sh s);
            goes t sh' (next_pc (Z.of_nat t <? nthreads (sh s)) (go_proc x)) s)
  | _ => blocked
  end.

Definition exec_at (t c : nat) (p : pc) (s : system) : option (outcome (option event * system)) :=
  match p with
  | GStart | Run _ => thread_go_proc t p s
  | GLock | GTest | GWait | GWoken | GSignal _ | GUnlock _ => get_task t c p s
  | _ => dispatch t c p s
  end.

Definition exec (t c : nat) (s : system) : option (outcome (option event * system)) :=
  p ← pcs s !! t; exec_at t c p s.

(** Every interleaving, with the spurious wakeups POSIX allows. *)
Inductive step (s : system) : option event → system → Prop :=
| step_thread t c e s' : exec t c s = Some (Ret (e, s')) → step s e s'
| step_spurious t p :
    pcs s !! t = Some p → is_wait p = true →
    step s None (System (sh s) (<[t := woken p]> (pcs s))).

Inductive steps (s : system) : list event → system → Prop :=
| steps_nil : steps s [] s
| steps_snoc tr s1 e s2 :
    steps s tr s1 → step s1 e s2 → steps s (tr ++ option_list e) s2.

(** The system after [make_threads], with the accept loops given by the
    connections each will dispatch. *)
Definition start (threads_max : option Z) (garbage : list task) (nth : Z) (loops : list (list task)) : system :=
  let s := make_threads threads_max garbage nth in
  System s (replicate (Z.to_nat (nthreads s)) GStart ++ (next_pc false <$> loops)).

(** Runs the threads in a given order. *)
Fixpoint run_schedule (sched : list (nat * nat)) (s : system) : option (list event * system) :=
  match sched with
  | [] => Some ([], s)
  | (t, c) :: sched' =>
      match exec t c s with
      | Some (Ret (e, s1)) => '(tr, s2) ← run_schedule sched' s1; Some (option_list e ++ tr, s2)
      | _ => None
      end
  end.
End threads.

#[local] Arguments goes / t sh' q s.

(** ** What the definitions are to satisfy *)

(** The tasks in the queue, oldest first. *)
Definition queued (s : shared) : Z := (qtail s - qhead s) mod nthreads s.
Definition contents (s : shared) : list task :=
  (λ i, task_queue s !!! Z.to_nat ((qhead s + i) mod nthreads s)) <$> seqZ 0 (queued s).

Definition puts (tr : list event) : list task :=
  omap (λ e, match e with Put x => Some x | Take _ => None end) tr.
Definition takes (tr : list event) : list task :=
  omap (λ e, match e with Take x => Some x | Put _ => None end) tr.

Fixpoint total (f : pc → nat) (l : list pc) : nat :=
  match l with
  | [] => 0
  | p :: l' => f p + total f l'
  end.
Definition count (P : pc → bool) : list pc → nat := total (λ p, Nat.b2n (P p)).

(** The threads inside the critical section, those that are counted out of
    [tasks_done], and the tasks a thread holds. *)
Definition critical (p : pc) : bool :=
  match p with GTest | GSignal _ | GUnlock _ | DTest _ | DSignal _ | DUnlock _ => true | _ => false end.
Definition wants_task (p : pc) : bool :=
  match p with GTest | GWait | GWoken => true | _ => false end.
Definition tasks_at (p : pc) : list task :=
  match p with
  | GSignal x | GUnlock x | Run x => [x]
  | DLock ts | DTest ts | DWait ts | DWoken ts | DSignal ts | DUnlock ts => ts
  | _ => []
  end.
Definition dispatching (p : pc) : bool :=
  match p with DLock _ | DTest _ | DWait _ | DWoken _ | DSignal _ | DUnlock _ | Done => true | _ => false end.

(** No thread can go on. *)
Definition at_rest (go_proc : task → list task) (s : system) : Prop :=
  ∀ t c, exec go_proc t c s = None.

(** The shared state is well formed. *)
Record queue_ok (s : shared) : Prop := {
  ok_nthreads : 0 < nthreads s;
  ok_length : Z.of_nat (length (task_queue s)) = nthreads s;
  ok_inst : Z.of_nat (length (thread_inst s)) = nthreads s;
  ok_head : 0 <= qhead s < nthreads s;
  ok_tail : 0 <= qtail s < nthreads s;
  ok_tasks : Forall (λ x, x ≠ 0) (contents s);
}.

(** The invariant of the pool: the queue is well formed, the owner of the
    mutex is the one thread in its critical section, [tasks_done] is the
    number of threads that do not look for a task, and no task is NULL. *)
Record pool_inv (nth : Z) (s : system) : Prop := {
  inv_queue : queue_ok (sh s);
  inv_mutex : ∀ t p, pcs s !! t = Some p → critical p = true ↔ mtx_queue (sh s) = Some t;
  inv_owner : ∀ t, mtx_queue (sh s) = Some t → (t < length (pcs s))%nat;
  inv_done : tasks_done (sh s) = nth - Z.of_nat (count wants_task (pcs s));
  inv_tasks : ∀ t p, pcs s !! t = Some p → Forall (λ x, x ≠ 0) (tasks_at p);
  inv_worker : ∀ t p, pcs s !! t = Some p →
    dispatching p = true ∧ (tasks_at p = [] → p = Done) ∨
    dispatching p = false ∧ Z.of_nat t < nthreads (sh s);
}.

(** ** The circular array *)

Lemma mod_near n z : 0 < n → - n <= z < 2 * n →
  z mod n = if z <? 0 then z + n else if z <? n then z else z - n.
Proof.
  intros Hn Hz. destruct (Z.ltb_spec z 0); [|destruct (Z.ltb_spec z n)].
  - symmetry. apply (Z.mod_unique_pos _ _ (-1)); lia.
  - by apply Z.mod_small.
  - symmetry. apply (Z.mod_unique_pos _ _ 1); lia.
Qed.

(** Replaces the [mod] of the queue's indices by comparisons. *)
Ltac ring_lia :=
  unfold QUEUE_EMPTY, QUEUE_FULL, queued in *; cbn in *;
  repeat match goal with
  | |- context [if ?b then _ else _] => destruct b eqn:?
  | H : context [if ?b then _ else _] |- _ => destruct b eqn:?
  | |- context [?z mod ?n] => rewrite (mod_near n z) by lia
  | H : context [?z mod ?n] |- _ => rewrite (mod_near n z) in H by lia
  end; lia.

Lemma ring_index n h t j : 0 <= h < n → 0 <= t < n → 0 <= j < (t - h) mod n → (h + j) mod n ≠ t.
Proof. intros ???. ring_lia. Qed.

Lemma ring_last n h t : 0 <= h < n → 0 <= t < n → (h + (t - h) mod n) mod n = t.
Proof. intros ??. ring_lia. Qed.

Section ring.
Context (s : shared).
Context (Hs : queue_ok s).

#[local] Abbreviation n := (nthreads s).

Lemma queued_range : 0 <= queued s < n.
Proof. destruct Hs. ring_lia. Qed.

Lemma not_full_queued : QUEUE_FULL s = false → queued s + 1 < n.
Proof. destruct Hs. intros. ring_lia. Qed.

Lemma full_queued : QUEUE_FULL s = true → queued s = n - 1.
Proof. destruct Hs. intros. ring_lia. Qed.

Lemma not_empty_queued : QUEUE_EMPTY s = false → 0 < queued s.
Proof. destruct Hs. intros. ring_lia. Qed.

Lemma empty_queued : QUEUE_EMPTY s = true → queued s = 0.
Proof. destruct Hs. intros. ring_lia. Qed.

Lemma length_contents : Z.of_nat (length (contents s)) = queued s.
Proof. unfold contents. rewrite length_fmap, length_seqZ. pose proof queued_range. lia. Qed.

Lemma dequeue_ok : QUEUE_EMPTY s = false →
  ∃ x s', dequeue s = Ret (x, s') ∧ contents s = x :: contents s' ∧ queued s' = queued s - 1 ∧
    s' = set_head ((qhead s + 1) mod n) (set_done (tasks_done s + 1) s) ∧ queue_ok s'.
Proof.
  intros He. pose proof (not_empty_queued He) as Hq. destruct Hs as [? ? ? ? ? Ht].
  destruct (lookup_lt_is_Some_2 (task_queue s) (Z.to_nat (qhead s))) as [x Hx]; [lia|].
  set (s' := set_head ((qhead s + 1) mod n) (set_done (tasks_done s + 1) s)).
  assert (Hq' : queued s' = queued s - 1) by (unfold s'; ring_lia).
  assert (Hc : contents s = x :: contents s').
  { unfold contents. rewrite Hq', seqZ_cons, fmap_cons by lia. f_equal.
    - rewrite Z.add_0_r, Z.mod_small by lia. by apply list_lookup_total_correct.
    - rewrite Z.sub_1_r, <-(fmap_add_seqZ 1 0), <-list_fmap_compose.
      apply list_fmap_ext. intros j i _. unfold compose. cbn.
      f_equal. f_equal. rewrite Zplus_mod_idemp_l. f_equal. lia. }
  exists x, s'. unfold dequeue. rewrite He, Hx. do 4 (split; [done|]).
  rewrite Hc in Ht. split; try done.
  - cbn. apply Z.mod_pos_bound. lia.
  - by apply Forall_cons in Ht as [_ ?].
Qed.

Lemma enqueue_ok x : QUEUE_FULL s = false → x ≠ 0 →
  ∃ s', enqueue x s = Ret s' ∧ contents s' = contents s ++ [x] ∧ queued s' = queued s + 1 ∧
    s' = set_tail (<[Z.to_nat (qtail s) := x]> (task_queue s)) ((qtail s + 1) mod n) s ∧ queue_ok s'.
Proof.
  intros Hf Hx. pose proof (not_full_queued Hf) as Hq. pose proof queued_range as Hr.
  destruct Hs as [? ? ? ? ? Ht].
  set (s' := set_tail (<[Z.to_nat (qtail s) := x]> (task_queue s)) ((qtail s + 1) mod n) s).
  assert (Hq' : queued s' = queued s + 1) by (unfold s'; ring_lia).
  assert (Hc : contents s' = contents s ++ [x]).
  { unfold contents. rewrite Hq', seqZ_app, fmap_app by lia. f_equal.
    - apply list_fmap_ext. intros j i [-> Hi]%lookup_seqZ. cbn.
      rewrite list_lookup_total_insert_ne; [done|]. intros Hij.
      pose proof (Z.mod_pos_bound (qhead s + (0 + Z.of_nat j)) n ltac:(lia)).
      apply (ring_index n (qhead s) (qtail s) (0 + Z.of_nat j)); try done; unfold queued in *; lia.
    - assert (Hl : (qhead s + (0 + queued s)) mod n = qtail s) by (by apply ring_last).
      rewrite seqZ_cons, seqZ_nil, fmap_cons, fmap_nil by lia.
      f_equal. change (task_queue s' !!! Z.to_nat ((qhead s + (0 + queued s)) mod n) = x).
      rewrite Hl. apply list_lookup_total_insert_eq. lia. }
  exists s'. unfold enqueue. rewrite Hf, (proj2 (Z.eqb_neq x 0) Hx).
  rewrite (proj2 (Z.leb_le _ _)), (proj2 (Z.ltb_lt _ _)) by lia.
  do 4 (split; [done|]). split; try done.
  - cbn. rewrite length_insert. lia.
  - cbn. apply Z.mod_pos_bound. lia.
  - rewrite Hc. by apply Forall_app_2, Forall_singleton.
Qed.
End ring.

(** ** Counting threads *)

Lemma total_insert f l i p q : l !! i = Some p →
  (total f (<[i := q]> l) + f p = total f l + f q)%nat.
Proof.
  revert i. induction l as [|a l IH]; intros [|i] Hi; simplify_eq/=; [lia|].
  specialize (IH i Hi). lia.
Qed.

Lemma total_app f l k : total f (l ++ k) = (total f l + total f k)%nat.
Proof. induction l; cbn; lia. Qed.

Lemma total_replicate f n p : total f (replicate n p) = (n * f p)%nat.
Proof. induction n; cbn; lia. Qed.

Lemma total_lookup f l i p : l !! i = Some p → (f p <= total f l)%nat.
Proof.
  revert i. induction l as [|a l IH]; intros [|i] Hi; simplify_eq/=; [lia|].
  specialize (IH i Hi). lia.
Qed.

(** A predicate only the thread [t] can satisfy. *)
Lemma count_only P l t p : l !! t = Some p →
  (∀ i q, l !! i = Some q → P q = true → i = t) → count P l = Nat.b2n (P p).
Proof.
  revert t. unfold count. induction l as [|a l IH]; intros [|t] Hp H; simplify_eq/=.
  - assert (Hz : ∀ k, (∀ i q, k !! i = Some q → P q = false) → total (λ p, Nat.b2n (P p)) k = 0%nat).
    { induction k as [|b k IHk]; intros Hk; cbn; [done|].
      rewrite (Hk 0%nat b eq_refl), IHk; [done|]. intros i. apply (Hk (S i)). }
    rewrite Hz; [lia|]. intros i q Hq. destruct (P q) eqn:E; [|done]. by specialize (H (S i) q Hq E).
  - rewrite (IH t Hp); [|intros i q Hq E; by specialize (H (S i) q Hq E) as [= ->]].
    destruct (P a) eqn:E; [|done]. by specialize (H 0%nat a eq_refl E).
Qed.

(** ** The invariant *)

Lemma queue_ok_mtx m s : queue_ok s → queue_ok (set_mtx m s).
Proof. by intros [?????]. Qed.
Lemma queue_ok_done d s : queue_ok s → queue_ok (set_done d s).
Proof. by intros [?????]. Qed.
Lemma queue_ok_thrindex x i s : queue_ok s → queue_ok (set_thrindex x i s).
Proof. by intros [?????]. Qed.
Lemma queue_ok_inst l s : length l = length (thread_inst s) → queue_ok s → queue_ok (set_inst l s).
Proof. intros Hl [?????]. split; cbn; try done. by rewrite Hl. Qed.
#[export] Hint Resolve queue_ok_mtx queue_ok_done queue_ok_thrindex queue_ok_inst : glomop.

Lemma INST_set_thread_state_ok t st s : queue_ok s → Z.of_nat t < nthreads s →
  ∃ l, INST_set_thread_state (Z.of_nat t) st s = Ret (set_inst l s) ∧ length l = length (thread_inst s).
Proof.
  intros Hs Ht. unfold INST_set_thread_state.
  rewrite (proj2 (Z.leb_le _ _)), (proj2 (Z.ltb_lt _ _)) by lia. cbn [andb].
  eexists. split; [done|]. by rewrite length_insert.
Qed.

Lemma signal_cases c l l' : pthread_cond_signal c l = Some l' →
  (l' = l ∧ existsb is_wait l = false) ∨
  ∃ p, l !! c = Some p ∧ is_wait p = true ∧ l' = <[c := woken p]> l.
Proof.
  unfold pthread_cond_signal. destruct (existsb is_wait l); [|intros [=->]; by left].
  destruct (l !! c) as [p|]; [|done]. cbn. destruct (is_wait p) eqn:E; [|done].
  intros [=<-]. right. by exists p.
Qed.

(** How a step of thread [t] from [p] to [q] uses the mutex. *)
Definition mutex_use (t : nat) (p q : pc) (m m' : option nat) : Prop :=
  (m' = m ∧ critical q = critical p) ∨
  (m = None ∧ m' = Some t ∧ critical q = true) ∨
  (critical p = true ∧ m' = None ∧ critical q = false).

Definition worker_pc (n : Z) (t : nat) (p : pc) : Prop :=
  dispatching p = true ∧ (tasks_at p = [] → p = Done) ∨ dispatching p = false ∧ Z.of_nat t < n.

Lemma inv_set nth s t p q sh' : pool_inv nth s → pcs s !! t = Some p →
  queue_ok sh' → nthreads sh' = nthreads (sh s) →
  mutex_use t p q (mtx_queue (sh s)) (mtx_queue sh') →
  tasks_done sh' + Z.of_nat (Nat.b2n (wants_task q)) = tasks_done (sh s) + Z.of_nat (Nat.b2n (wants_task p)) →
  Forall (λ x, x ≠ 0) (tasks_at q) → worker_pc (nthreads sh') t q →
  pool_inv nth (System sh' (<[t := q]> (pcs s))).
Proof.
  intros [Hq Hm Ho Hd Ht Hw] Hp Hq' Hn Hmu Hd' Ht' Hw'.
  pose proof (lookup_lt_Some _ _ _ Hp) as Hlen.
  split; cbn [sh pcs]; [done|..].
  - intros t' p'. destruct (decide (t' = t)) as [->|Hne].
    + rewrite list_lookup_insert_eq by done. intros [= <-].
      pose proof (Hm _ _ Hp). destruct Hmu as [[-> ->]|[(?&->&->)|(?&->&->)]]; naive_solver.
    + rewrite list_lookup_insert_ne by done. intros Hp'. rewrite (Hm _ _ Hp').
      pose proof (Hm _ _ Hp). destruct Hmu as [[-> ?]|[(?&->&?)|(?&->&?)]]; naive_solver.
  - intros t'. rewrite length_insert.
    destruct Hmu as [[-> ?]|[(?&->&?)|(?&->&?)]]; naive_solver.
  - pose proof (total_insert (λ p, Nat.b2n (wants_task p)) _ _ _ q Hp). unfold count in *. lia.
  - intros t' p'. rewrite list_lookup_insert_Some. naive_solver.
  - intros t' p'. rewrite list_lookup_insert_Some. rewrite Hn in *. naive_solver.
Qed.

Lemma inv_wake nth s c p : pool_inv nth s → pcs s !! c = Some p → is_wait p = true →
  pool_inv nth (System (sh s) (<[c := woken p]> (pcs s))).
Proof.
  intros Hs Hp Hw. pose proof (inv_tasks _ _ Hs _ _ Hp) as Ht. pose proof (inv_worker _ _ Hs _ _ Hp) as Hk.
  eapply inv_set; try done; [apply Hs|..]; destruct p; try done; try (by left).
  all: unfold worker_pc; cbn in *; naive_solver.
Qed.

Lemma inv_signal nth s t c p q l : pool_inv nth s → pcs s !! t = Some p →
  is_wait p = false → critical p = true → critical q = true →
  wants_task q = wants_task p → tasks_at q = tasks_at p → worker_pc (nthreads (sh s)) t q →
  pthread_cond_signal c (pcs s) = Some l → pool_inv nth (System (sh s) (<[t := q]> l)).
Proof.
  intros Hs Hp Hnw Hcp Hcq Hwt Hta Hwp Hl.
  assert (pool_inv nth (System (sh s) l) ∧ l !! t = Some p) as [Hs' Hp'].
  { destruct (signal_cases _ _ _ Hl) as [[-> ?]|(p'&Hp'&Hw&->)]; [by destruct s|].
    split; [by apply inv_wake|]. rewrite list_lookup_insert_ne; [done|]. intros ->. congruence. }
  apply (inv_set nth (System (sh s) l) t p q (sh s)); try done; [apply Hs'|left; split; [done|congruence]|by rewrite Hwt|].
  rewrite Hta. by apply (inv_tasks _ _ Hs' _ _ Hp').
Qed.

(** What a step does to the queue. *)
Definition queue_change (e : option event) (s s' : shared) : Prop :=
  match e with
  | None => contents s' = contents s
  | Some (Put x) => contents s' = contents s ++ [x]
  | Some (Take x) => contents s = x :: contents s'
  end.

Section invariant.
Context (go_proc : task → list task) (nth : Z).
(** The tasks the front end dispatches come out of [new_task], which exits
    when there is no memory. *)
Context (go_proc_tasks : ∀ x, Forall (λ y, y ≠ 0) (go_proc x)).

#[local] Abbreviation exec_pc := (exec_at go_proc).

Lemma next_pc_ok n t ts : 0 < n → Forall (λ y, y ≠ 0) ts →
  let q := next_pc (Z.of_nat t <? n) ts in
  Forall (λ y, y ≠ 0) (tasks_at q) ∧ worker_pc n t q ∧ critical q = false ∧ wants_task q = false.
Proof.
  intros Hn Hts. unfold worker_pc. destruct ts as [|x ts]; cbn; [|naive_solver].
  destruct (Z.ltb_spec (Z.of_nat t) n); cbn; naive_solver.
Qed.

(** The steps of [get_task] and of [thread_go_proc]. *)
Lemma exec_get s t c p r : pool_inv nth s → pcs s !! t = Some p → dispatching p = false →
  exec_pc t c p s = Some r →
  ∃ e s', r = Ret (e, s') ∧ pool_inv nth s' ∧ queue_change e (sh s) (sh s') ∧ nthreads (sh s') = nthreads (sh s).
Proof.
  intros Hs Hp Hd He. pose proof (inv_queue _ _ Hs) as Hq. pose proof (ok_nthreads _ Hq) as Hn.
  destruct (inv_worker _ _ Hs _ _ Hp) as [[Hd' _]|[_ Ht]]; [congruence|].
  pose proof (inv_tasks _ _ Hs _ _ Hp) as Htk.
  assert (Hwp : ∀ q, dispatching q = false → worker_pc (nthreads (sh s)) t q) by (by right).
  destruct p; try done; cbn -[dequeue QUEUE_EMPTY pthread_mutex_lock pthread_cond_signal INST_set_thread_state] in He.
  - destruct (INST_set_thread_state_ok t THR_IDLE _ Hq Ht) as (l&Hl&Hlen). rewrite Hl in He. simplify_eq/=.
    do 2 eexists. split; [done|]. split; [|done].
    eapply inv_set; eauto using queue_ok_inst; by left.
  - unfold pthread_mutex_lock in He. destruct (mtx_queue (sh s)) eqn:Hm; simplify_eq/=.
    do 2 eexists. split; [done|]. split; [|done].
    eapply inv_set; eauto using queue_ok_mtx, queue_ok_done; cbn; [right; left; done|lia].
  - destruct (QUEUE_EMPTY (sh s)) eqn:Hem; simplify_eq/=.
    + do 2 eexists. split; [done|]. split; [|done].
      eapply inv_set; eauto using queue_ok_mtx. by right; right.
    + destruct (dequeue_ok _ Hq Hem) as (x&s'&Hde&Hc&_&->&Hok). rewrite Hde. cbn.
      pose proof (ok_tasks _ Hq) as Hx. rewrite Hc in Hx. apply Forall_cons in Hx as [Hx _].
      do 2 eexists. split; [done|]. split; [|done].
      eapply inv_set; eauto; cbn; [by left|lia|by apply Forall_singleton].
  - unfold pthread_mutex_lock in He. destruct (mtx_queue (sh s)) eqn:Hm; simplify_eq/=.
    do 2 eexists. split; [done|]. split; [|done].
    eapply inv_set; eauto using queue_ok_mtx; cbn; right; left; done.
  - destruct (pthread_cond_signal c (pcs s)) as [l|] eqn:Hl; simplify_eq/=.
    do 2 eexists. split; [done|]. split; [|done]. by eapply inv_signal; eauto.
  - apply Forall_cons in Htk as [Htk _]. rewrite (proj2 (Z.eqb_neq t0 0) Htk) in He. simplify_eq/=.
    do 2 eexists. split; [done|]. split; [|done].
    eapply inv_set; eauto using queue_ok_mtx, queue_ok_thrindex; cbn; [by right; right|by apply Forall_singleton].
  - destruct (INST_set_thread_state_ok t THR_ACCEPTED _ Hq Ht) as (l&Hl&Hlen). rewrite Hl in He. simplify_eq/=.
    destruct (next_pc_ok (nthreads (sh s)) t (go_proc t0) Hn (go_proc_tasks t0)) as (?&?&Hcr&Hwt).
    do 2 eexists. split; [done|]. split; [|done].
    eapply inv_set; eauto using queue_ok_inst; [left; by rewrite Hcr|by rewrite Hwt].
Qed.

(** The steps of [dispatch]. *)
Lemma exec_dispatch s t c p r : pool_inv nth s → pcs s !! t = Some p → dispatching p = true →
  exec_pc t c p s = Some r →
  ∃ e s', r = Ret (e, s') ∧ pool_inv nth s' ∧ queue_change e (sh s) (sh s') ∧ nthreads (sh s') = nthreads (sh s).
Proof.
  intros Hs Hp Hd He. pose proof (inv_queue _ _ Hs) as Hq. pose proof (ok_nthreads _ Hq) as Hn.
  destruct (inv_worker _ _ Hs _ _ Hp) as [[_ Hts]|[Hd' _]]; [|congruence].
  pose proof (inv_tasks _ _ Hs _ _ Hp) as Htk.
  assert (Hwp : ∀ q, dispatching q = true → tasks_at q = tasks_at p → q ≠ Done → p ≠ Done →
    worker_pc (nthreads (sh s)) t q).
  { intros q ? Hqt ? Hpd. left. split; [done|]. rewrite Hqt. intros Hnil. by destruct (Hpd (Hts Hnil)). }
  destruct p; try done; cbn -[enqueue QUEUE_FULL pthread_mutex_lock pthread_cond_signal next_pc] in *.
  - unfold pthread_mutex_lock in He. destruct (mtx_queue (sh s)) eqn:Hm; simplify_eq/=.
    do 2 eexists. split; [done|]. split; [|done].
    eapply inv_set; eauto using queue_ok_mtx; cbn; by right; left.
  - destruct (QUEUE_FULL (sh s)) eqn:Hf; [|destruct ts as [|x ts]; [naive_solver|]]; simplify_eq/=.
    + do 2 eexists. split; [done|]. split; [|done].
      eapply inv_set; eauto using queue_ok_mtx. by right; right.
    + pose proof Htk as Htk'. apply Forall_cons in Htk' as [Hx _].
      destruct (enqueue_ok _ Hq x Hf Hx) as (s'&Hde&Hc&_&->&Hok). rewrite Hde. cbn.
      do 2 eexists. split; [done|]. split; [|done].
      eapply inv_set; eauto; by left.
  - unfold pthread_mutex_lock in He. destruct (mtx_queue (sh s)) eqn:Hm; simplify_eq/=.
    do 2 eexists. split; [done|]. split; [|done].
    eapply inv_set; eauto using queue_ok_mtx; cbn; by right; left.
  - destruct (pthread_cond_signal c (pcs s)) as [l|] eqn:Hl; simplify_eq/=.
    do 2 eexists. split; [done|]. split; [|done]. by eapply inv_signal; eauto.
  - simplify_eq.
    destruct (next_pc_ok (nthreads (sh s)) t (tail ts) Hn) as (?&?&Hcr&Hwt).
    { destruct ts; [done|]. by apply Forall_cons in Htk as [_ ?]. }
    do 2 eexists. split; [done|]. split; [|done].
    eapply inv_set; eauto using queue_ok_mtx; [by right; right|by rewrite Hwt].
Qed.

Lemma exec_ok s t c r : pool_inv nth s → exec go_proc t c s = Some r →
  ∃ e s', r = Ret (e, s') ∧ pool_inv nth s' ∧ queue_change e (sh s) (sh s') ∧ nthreads (sh s') = nthreads (sh s).
Proof.
  unfold exec. intros Hs He. destruct (pcs s !! t) as [p|] eqn:Hp; [|done]. cbn in He.
  destruct (dispatching p) eqn:Hd; [by eapply exec_dispatch|by eapply exec_get].
Qed.

Lemma step_ok s e s' : pool_inv nth s → step go_proc s e s' →
  pool_inv nth s' ∧ queue_change e (sh s) (sh s') ∧ nthreads (sh s') = nthreads (sh s).
Proof.
  intros Hs [t c e' s1 He|t p Hp Hw].
  - destruct (exec_ok _ _ _ _ Hs He) as (?&?&?&?&?&?). by simplify_eq.
  - split; [by apply inv_wake|done].
Qed.

Lemma puts_app tr tr' : puts (tr ++ tr') = puts tr ++ puts tr'.
Proof. apply omap_app. Qed.
Lemma takes_app tr tr' : takes (tr ++ tr') = takes tr ++ takes tr'.
Proof. apply omap_app. Qed.

Lemma steps_ok s tr s' : pool_inv nth s → steps go_proc s tr s' →
  pool_inv nth s' ∧ contents (sh s) ++ puts tr = takes tr ++ contents (sh s') ∧
  nthreads (sh s') = nthreads (sh s).
Proof.
  intros Hs. induction 1 as [|tr s1 e s2 Hst IH Hst1]; [by rewrite app_nil_r|].
  destruct IH as (Hs1&Hc&Hn). destruct (step_ok _ _ _ Hs1 Hst1) as (Hs2&He&Hn2).
  split; [done|]. rewrite Hn2. split; [|done].
  rewrite puts_app, takes_app, app_assoc, Hc.
  destruct e as [[x|x]|]; cbn in *; rewrite He, ?app_nil_r, <-?app_assoc; done.
Qed.
End invariant.

(** ** The pool after [make_threads] *)

(** The number of threads [make_threads] starts. *)
Definition pool_size (threads_max : option Z) (nth : Z) : Z := nthreads (make_threads threads_max [] nth).

Definition no_null (ts : list task) : Prop := Forall (λ x, x ≠ 0) ts.

Lemma total_loops f l : (∀ ts, f (next_pc false ts) = 0%nat) → total f (next_pc false <$> l) = 0%nat.
Proof. intros Hf. induction l as [|ts l IH]; cbn; [done|]. by rewrite Hf, IH. Qed.

Section started.
Context (threads_max : option Z) (garbage : list task) (nth : Z) (loops : list (list task)).
Context (Hnth : 0 < pool_size threads_max nth).
Context (Hgarbage : Z.of_nat (length garbage) = pool_size threads_max nth).
Context (Hloops : Forall no_null loops).

Lemma start_lookup t p : pcs (start threads_max garbage nth loops) !! t = Some p →
  p = GStart ∧ Z.of_nat t < pool_size threads_max nth ∨ ∃ ts, ts ∈ loops ∧ p = next_pc false ts.
Proof.
  unfold start. cbn. rewrite lookup_app_Some. intros [[-> Ht]%lookup_replicate|[_ Hp]].
  - left. split; [done|]. unfold pool_size. cbn. lia.
  - right. rewrite list_lookup_fmap_Some in Hp. destruct Hp as (ts&->&Hts).
    exists ts. by split; [eapply list_elem_of_lookup_2|].
Qed.

Lemma start_calm P : (∀ ts, P (next_pc false ts) = false) → P GStart = false →
  ∀ t p, pcs (start threads_max garbage nth loops) !! t = Some p → P p = false.
Proof. intros ?? t p [[-> _]|(ts&_&->)]%start_lookup; done. Qed.

Lemma start_contents : contents (sh (start threads_max garbage nth loops)) = [].
Proof. unfold contents, queued. cbn. by rewrite Z.mod_0_l by (unfold pool_size in *; cbn in *; lia). Qed.

Lemma start_inv : pool_inv nth (start threads_max garbage nth loops).
Proof.
  assert (Hcr : ∀ t p, pcs (start threads_max garbage nth loops) !! t = Some p → critical p = false).
  { apply start_calm; [by intros []|done]. }
  split.
  - split; [..|by rewrite start_contents]; cbn; unfold pool_size in *; cbn in *; try lia.
    rewrite length_replicate. lia.
  - intros t p Hp. rewrite (Hcr _ _ Hp). done.
  - done.
  - cbn. unfold count. rewrite total_app, total_replicate, Nat.mul_0_r. cbn.
    rewrite total_loops; [lia|by intros []].
  - intros t p [[-> _]|(ts&Hts&->)]%start_lookup; [done|].
    pose proof (proj1 (Forall_forall _ _) Hloops _ Hts). by destruct ts.
  - intros t p [[-> ?]|(ts&Hts&->)]%start_lookup; [by right|]. left. by destruct ts.
Qed.
End started.

(** ** One accept loop

    [httpreq.c] starts one accept loop, and without dataflow the go
    procedures dispatch nothing.  Then only the thread [a] dispatches. *)

Definition no_dispatch (x : task) : list task := [].

Definition is_gwait (p : pc) : bool := match p with GWait => true | _ => false end.
Definition is_gsignal (p : pc) : bool := match p with GSignal _ => true | _ => false end.
Definition is_dsignal (p : pc) : bool := match p with DSignal _ => true | _ => false end.
Definition is_dwait (p : pc) : bool := match p with DWait _ => true | _ => false end.

(** What is left to dispatch at a program counter. *)
Definition to_put (p : pc) : list task :=
  match p with
  | DLock ts | DTest ts | DWait ts | DWoken ts => ts
  | DSignal ts | DUnlock ts => tail ts
  | _ => []
  end.

(** A non-empty queue has kept a worker awake for every task but the one
    whose signal is still to come, and while the accept loop waits for a slot
    the signals to come are enough for one to reach it. *)
Definition awake_enough (s : shared) (l : list pc) (d : pc) : Prop :=
  0 < queued s →
    Z.of_nat (count is_gwait l) + queued s <= nthreads s + Z.of_nat (Nat.b2n (is_dsignal d)).
Definition slot_coming (s : shared) (l : list pc) (d : pc) : Prop :=
  is_dwait d = true →
    let coming := queued s + Z.of_nat (count is_gsignal l) in
    count is_gwait l = 0%nat ∧ 1 <= coming ∨ (count is_gwait l <= 1)%nat ∧ 2 <= coming.

Record one_loop (tasks tr : list task) (s : system) (d : pc) : Prop := {
  one_len : Z.of_nat (length (pcs s)) = nthreads (sh s) + 1;
  one_loop_pc : pcs s !! Z.to_nat (nthreads (sh s)) = Some d;
  one_dispatching : ∀ t p, pcs s !! t = Some p → dispatching p = true → t = Z.to_nat (nthreads (sh s));
  one_is_loop : dispatching d = true;
  one_tasks : tasks = tr ++ to_put d;
  one_awake : awake_enough (sh s) (pcs s) d;
  one_slot : slot_coming (sh s) (pcs s) d;
}.

Section progress.
Context (nth : Z) (tasks : list task).

#[local] Abbreviation exec_pc := (exec_at no_dispatch).

Lemma no_dispatch_tasks x : Forall (λ y, y ≠ 0) (no_dispatch x).
Proof. constructor. Qed.

Lemma queued_same s s' : qhead s' = qhead s → qtail s' = qtail s → nthreads s' = nthreads s →
  queued s' = queued s.
Proof. unfold queued. by intros -> -> ->. Qed.

(** The thread in its critical section is the only one about to signal. *)
Lemma signals_to_come s t p : pool_inv nth s → pcs s !! t = Some p → critical p = true →
  count is_gsignal (pcs s) = Nat.b2n (is_gsignal p).
Proof.
  intros Hs Hp Hc. eapply count_only; [done|]. intros i q Hq Hg.
  assert (Hqc : critical q = true) by (by destruct q).
  apply (inv_mutex _ _ Hs _ _ Hq) in Hqc. apply (inv_mutex _ _ Hs _ _ Hp) in Hc. congruence.
Qed.

(** Some waiting workers at most: they are not the accept loop. *)
Lemma waiting_workers tr s d : one_loop tasks tr s d → Z.of_nat (count is_gwait (pcs s)) <= nthreads (sh s).
Proof.
  intros [Hl Hd _ Hd' _ _ _].
  assert (Hle : ∀ l : list pc, (total (λ p, Nat.b2n (is_gwait p) + Nat.b2n (dispatching p)) l <= length l)%nat).
  { induction l as [|p l IH]; cbn; [lia|]. destruct p; cbn; lia. }
  assert (Hsum : ∀ l, total (λ p, Nat.b2n (is_gwait p) + Nat.b2n (dispatching p))%nat l =
    (count is_gwait l + count dispatching l)%nat).
  { unfold count. induction l as [|p l IH]; cbn; lia. }
  specialize (Hle (pcs s)). rewrite Hsum in Hle.
  assert (Nat.b2n (dispatching d) <= count dispatching (pcs s))%nat.
  { apply (total_lookup (λ p, Nat.b2n (dispatching p)) _ _ _ Hd). }
  rewrite Hd' in *. cbn in *. lia.
Qed.

(** A worker's step, and the wakeup of one, leave the accept loop alone. *)
Lemma one_loop_worker tr s d t p q sh' : one_loop tasks tr s d → pcs s !! t = Some p →
  dispatching p = false → dispatching q = false → nthreads sh' = nthreads (sh s) →
  let l := <[t := q]> (pcs s) in
  awake_enough sh' l d → slot_coming sh' l d → one_loop tasks tr (System sh' l) d.
Proof.
  intros [Hl Hd Hdt Hd' Ht _ _] Hp Hnp Hnq Hn l Ha Hb.
  assert (t ≠ Z.to_nat (nthreads (sh s))) by (intros ->; congruence).
  split; cbn; rewrite ?Hn; try done.
  - unfold l. by rewrite length_insert.
  - unfold l. by rewrite list_lookup_insert_ne.
  - intros t' p'. unfold l. rewrite list_lookup_insert_Some. naive_solver.
Qed.

(** A step of the accept loop leaves the workers alone. *)
Lemma one_loop_dispatch tr tr' s d q sh' : one_loop tasks tr s d → dispatching q = true →
  nthreads sh' = nthreads (sh s) → tr' ++ to_put q = tr ++ to_put d →
  let l := <[Z.to_nat (nthreads (sh s)) := q]> (pcs s) in
  awake_enough sh' l q → slot_coming sh' l q → one_loop tasks tr' (System sh' l) q.
Proof.
  intros [Hl Hd Hdt Hd' Ht _ _] Hq Hn Htr l Ha Hb.
  pose proof (lookup_lt_Some _ _ _ Hd).
  split; cbn; rewrite ?Hn; try done.
  - unfold l. by rewrite length_insert.
  - unfold l. by rewrite list_lookup_insert_eq.
  - intros t' p'. unfold l. rewrite list_lookup_insert_Some. naive_solver.
  - by rewrite Htr.
Qed.

(** Counts after a step of one thread. *)
Lemma count_step P l t p q : l !! t = Some p →
  (count P (<[t := q]> l) + Nat.b2n (P p) = count P l + Nat.b2n (P q))%nat.
Proof. apply (total_insert (λ p, Nat.b2n (P p))). Qed.

Lemma one_loop_wake tr s d c p : 0 < nthreads (sh s) → one_loop tasks tr s d →
  pcs s !! c = Some p → is_wait p = true →
  ∃ d', one_loop tasks tr (System (sh s) (<[c := woken p]> (pcs s))) d' ∧
    is_dsignal d' = is_dsignal d ∧ (p = GWait → d' = d) ∧ (p ≠ GWait → is_dwait d' = false).
Proof.
  intros Hn Hs Hp Hw.
  pose proof (count_step is_gwait _ _ _ (woken p) Hp) as H1.
  pose proof (count_step is_gsignal _ _ _ (woken p) Hp) as H2.
  pose proof (one_awake _ _ _ _ Hs) as Ha. pose proof (one_slot _ _ _ _ Hs) as Hb.
  destruct p; try done; cbn [woken is_gwait is_gsignal Nat.b2n] in *.
  - exists d. split; [|done]. eapply one_loop_worker; [done..| |].
    + intros Hq. specialize (Ha Hq). lia.
    + intros Hd. specialize (Hb Hd). cbn in *. lia.
  - pose proof (one_dispatching _ _ _ _ Hs _ _ Hp eq_refl) as ->.
    pose proof (one_loop_pc _ _ _ _ Hs) as Hd. rewrite Hp in Hd. injection Hd as <-.
    exists (DWoken ts). split; [|by cbn]. eapply one_loop_dispatch; [done..| |].
    + intros Hq. specialize (Ha Hq). cbn in *. lia.
    + done.
Qed.

(** What [existsb is_wait] says of the counts. *)
Lemma nobody_waits tr s d : one_loop tasks tr s d → existsb is_wait (pcs s) = false →
  count is_gwait (pcs s) = 0%nat ∧ is_dwait d = false.
Proof.
  intros Hs Hw. split.
  - revert Hw. generalize (pcs s). unfold count. induction l as [|p l IH]; cbn; [done|].
    intros [Hp Hl]%orb_false_iff. rewrite IH by done. by destruct p.
  - pose proof (one_loop_pc _ _ _ _ Hs) as Hd. apply list_elem_of_lookup_2 in Hd.
    destruct (is_dwait d) eqn:E; [|done].
    assert (existsb is_wait (pcs s) = true); [|congruence].
    apply existsb_exists. exists d. split; [by apply list_elem_of_In|by destruct d].
Qed.

(** A worker's step that neither changes the queue nor waits nor signals. *)
Lemma one_loop_quiet tr s d t p q sh' : one_loop tasks tr s d → pcs s !! t = Some p →
  dispatching p = false → dispatching q = false → nthreads sh' = nthreads (sh s) →
  queued sh' = queued (sh s) → is_gwait q = is_gwait p → is_gsignal q = is_gsignal p →
  one_loop tasks tr (System sh' (<[t := q]> (pcs s))) d.
Proof.
  intros Hs Hp Hnp Hnq Hn Hqd Hw Hg.
  pose proof (count_step is_gwait _ _ _ q Hp) as H1. rewrite Hw in H1.
  pose proof (count_step is_gsignal _ _ _ q Hp) as H2. rewrite Hg in H2.
  assert (count is_gwait (<[t := q]> (pcs s)) = count is_gwait (pcs s)) as E1 by lia.
  assert (count is_gsignal (<[t := q]> (pcs s)) = count is_gsignal (pcs s)) as E2 by lia.
  eapply one_loop_worker; [done..| |].
  - unfold awake_enough. rewrite Hqd, Hn, E1. apply (one_awake _ _ _ _ Hs).
  - unfold slot_coming. rewrite Hqd, E1, E2. apply (one_slot _ _ _ _ Hs).
Qed.

(** A worker's signal reaches the accept loop or leaves it another chance. *)
Lemma worker_signals tr s d t c x l : pool_inv nth s → one_loop tasks tr s d →
  pcs s !! t = Some (GSignal x) → pthread_cond_signal c (pcs s) = Some l →
  ∃ d', one_loop tasks tr (System (sh s) (<[t := GUnlock x]> l)) d'.
Proof.
  intros Hi Hs Hp Hl. pose proof (ok_nthreads _ (inv_queue _ _ Hi)) as Hn.
  pose proof (signals_to_come _ _ _ Hi Hp eq_refl) as Hsig.
  pose proof (one_awake _ _ _ _ Hs) as Ha. pose proof (one_slot _ _ _ _ Hs) as Hb.
  unfold awake_enough, slot_coming in *.
  destruct (signal_cases _ _ _ Hl) as [[-> Hnw]|(p'&Hp'&Hw&->)].
  - destruct (nobody_waits _ _ _ Hs Hnw) as [Hz Hdw].
    pose proof (count_step is_gwait _ _ _ (GUnlock x) Hp) as H1. cbn in H1.
    exists d. eapply one_loop_worker; [done..| |]; intros Hx; [specialize (Ha Hx); lia|congruence].
  - assert (c ≠ t) by (intros ->; by simplify_eq).
    destruct (one_loop_wake _ _ _ _ _ Hn Hs Hp' Hw) as (d'&Hs'&Hds&Hg&Hng).
    set (l := <[c := woken p']> (pcs s)) in *.
    assert (Hp2 : l !! t = Some (GSignal x)) by (unfold l; by rewrite list_lookup_insert_ne).
    pose proof (count_step is_gwait _ _ _ (GUnlock x) Hp2) as H3.
    pose proof (count_step is_gsignal _ _ _ (GUnlock x) Hp2) as H4.
    pose proof (count_step is_gwait _ _ _ (woken p') Hp') as H5. fold l in H5.
    pose proof (count_step is_gsignal _ _ _ (woken p') Hp') as H6. fold l in H6.
    pose proof (one_awake _ _ _ _ Hs') as Ha'. unfold awake_enough in Ha'.
    exists d'. apply (one_loop_worker tr (System (sh s) l) d' t (GSignal x)); try done; cbn in *.
    + intros Hx. specialize (Ha' Hx). lia.
    + intros Hx. destruct p'; try done; cbn in *; [|by rewrite Hng in Hx].
      rewrite Hg in Hx by done. specialize (Hb Hx). lia.
Qed.

(** The steps of the workers keep the accept loop supplied. *)
Lemma worker_one_loop tr s d t c p e s' : pool_inv nth s → one_loop tasks tr s d →
  pcs s !! t = Some p → dispatching p = false → exec_pc t c p s = Some (Ret (e, s')) →
  ∃ d', one_loop tasks tr s' d' ∧ (∀ x, e ≠ Some (Put x)).
Proof.
  intros Hi Hs Hp Hnd He. pose proof (inv_queue _ _ Hi) as Hq. pose proof (ok_nthreads _ Hq) as Hn.
  destruct (inv_worker _ _ Hi _ _ Hp) as [[Hd' _]|[_ Ht]]; [congruence|].
  pose proof (one_awake _ _ _ _ Hs) as Ha. pose proof (one_slot _ _ _ _ Hs) as Hb.
  pose proof (λ q, count_step is_gwait _ _ _ q Hp) as H1.
  pose proof (λ q, count_step is_gsignal _ _ _ q Hp) as H2.
  pose proof (signals_to_come _ _ _ Hi Hp) as Hsig.
  unfold awake_enough, slot_coming in *.
  destruct p; try done;
    cbn -[dequeue QUEUE_EMPTY pthread_mutex_lock pthread_cond_signal INST_set_thread_state] in *.
  - destruct (INST_set_thread_state_ok t THR_IDLE _ Hq Ht) as (l&Hl&_). rewrite Hl in He. simplify_eq/=.
    exists d. split; [|done]. by eapply one_loop_quiet.
  - unfold pthread_mutex_lock in He. destruct (mtx_queue (sh s)) eqn:Hm; simplify_eq/=.
    exists d. split; [|done]. by eapply one_loop_quiet.
  - destruct (QUEUE_EMPTY (sh s)) eqn:Hem.
    + pose proof (empty_queued _ Hq Hem) as H0. simplify_eq/=. specialize (Hsig eq_refl).
      exists d. split; [|done].
      eapply one_loop_worker; [done..| |]; intros Hx; [cbn in *; unfold queued in *; cbn in *; lia|].
      specialize (Hb Hx). lia.
    + destruct (dequeue_ok _ Hq Hem) as (x&s1&Hde&_&Hq1&Hs1&Hok). rewrite Hde in He.
      assert (Hn1 : nthreads s1 = nthreads (sh s)) by (by rewrite Hs1). clear Hs1. simplify_eq/=.
      specialize (Hsig eq_refl). specialize (H1 (GSignal x)). specialize (H2 (GSignal x)). cbn in H1, H2.
      exists d. split; [|done].
      eapply one_loop_worker; [done..| |]; intros Hx; [|specialize (Hb Hx)]; rewrite ?Hn1; lia.
  - unfold pthread_mutex_lock in He. destruct (mtx_queue (sh s)) eqn:Hm; simplify_eq/=.
    exists d. split; [|done]. by eapply one_loop_quiet.
  - destruct (pthread_cond_signal c (pcs s)) as [l|] eqn:Hl; simplify_eq/=.
    destruct (worker_signals _ _ _ _ _ _ _ Hi Hs Hp Hl) as [d' Hs']. by exists d'.
  - destruct (t0 =? 0); simplify_eq/=.
    exists d. split; [|done]. by eapply one_loop_quiet.
  - destruct (INST_set_thread_state_ok t THR_ACCEPTED _ Hq Ht) as (l&Hl&_). rewrite Hl in He. simplify_eq/=.
    rewrite (proj2 (Z.ltb_lt _ _) Ht).
    exists d. split; [|done]. by eapply one_loop_quiet.
Qed.

Lemma one_loop_dispatch_quiet tr s d q sh' : one_loop tasks tr s d → dispatching q = true →
  nthreads sh' = nthreads (sh s) → queued sh' = queued (sh s) → to_put q = to_put d →
  is_gwait q = false → is_gsignal q = false → is_dsignal q = is_dsignal d → is_dwait q = false →
  one_loop tasks tr (System sh' (<[Z.to_nat (nthreads (sh s)) := q]> (pcs s))) q.
Proof.
  intros Hs Hq Hn Hqd Htp Hw Hg Hds Hdw.
  pose proof (count_step is_gwait _ _ _ q (one_loop_pc _ _ _ _ Hs)) as H1. rewrite Hw in H1. cbn in H1.
  eapply one_loop_dispatch; [done..|by rewrite Htp| |by unfold slot_coming; rewrite Hdw].
  unfold awake_enough. rewrite Hqd, Hn, Hds. intros Hx.
  pose proof (one_awake _ _ _ _ Hs Hx). lia.
Qed.

(** The steps of the accept loop. *)
Lemma loop_one_loop tr s d c e s' : 3 <= nthreads (sh s) → pool_inv nth s → one_loop tasks tr s d →
  exec_pc (Z.to_nat (nthreads (sh s))) c d s = Some (Ret (e, s')) →
  ∃ d', one_loop tasks (tr ++ puts (option_list e)) s' d'.
Proof.
  intros H3 Hi Hs He. pose proof (inv_queue _ _ Hi) as Hq.
  pose proof (one_is_loop _ _ _ _ Hs) as Hd. pose proof (one_loop_pc _ _ _ _ Hs) as Hp.
  pose proof (one_awake _ _ _ _ Hs) as Ha.
  pose proof (λ q, count_step is_gwait _ _ _ q Hp) as H1.
  pose proof (signals_to_come _ _ _ Hi Hp) as Hsig.
  pose proof (waiting_workers _ _ _ Hs) as Hw. unfold awake_enough in *.
  destruct d; try done;
    cbn -[enqueue QUEUE_FULL pthread_mutex_lock pthread_cond_signal next_pc Z.ltb] in *.
  - unfold pthread_mutex_lock in He. destruct (mtx_queue (sh s)); simplify_eq/=. rewrite app_nil_r.
    eexists. by eapply one_loop_dispatch_quiet.
  - destruct (QUEUE_FULL (sh s)) eqn:Hf; [|destruct ts as [|x ts]]; simplify_eq/=.
    + pose proof (full_queued _ Hq Hf) as Hfull. specialize (H1 (DWait ts)).
      pose proof (count_step is_gsignal _ _ _ (DWait ts) Hp) as H2. cbn in H1, H2.
      rewrite app_nil_r. eexists. eapply one_loop_dispatch; [done..| |]; intros Hx; cbn in *.
      * change (queued (set_mtx None (sh s))) with (queued (sh s)) in *. specialize (Ha Hx). lia.
      * change (queued (set_mtx None (sh s))) with (queued (sh s)).
        specialize (Ha ltac:(lia)). right. lia.
    + destruct (decide (x = 0)) as [->|Hx]; [unfold enqueue in He; by rewrite Hf in He|].
      destruct (enqueue_ok _ Hq x Hf Hx) as (s1&Hde&_&Hq1&Hs1&Hok). rewrite Hde in He.
      assert (Hn1 : nthreads s1 = nthreads (sh s)) by (by rewrite Hs1). clear Hs1. simplify_eq/=.
      specialize (H1 (DSignal (x :: ts))). cbn in H1.
      pose proof (queued_range _ Hq) as Hr.
      eexists. eapply one_loop_dispatch; [done..|by app_norm| |done]. intros _. cbn. rewrite Hn1, Hq1.
      destruct (decide (0 < queued (sh s))) as [Hpos|Hz]; [specialize (Ha Hpos)|]; lia.
  - unfold pthread_mutex_lock in He. destruct (mtx_queue (sh s)); simplify_eq/=. rewrite app_nil_r.
    eexists. by eapply one_loop_dispatch_quiet.
  - destruct (pthread_cond_signal c (pcs s)) as [l|] eqn:Hl; simplify_eq/=. rewrite app_nil_r.
    exists (DUnlock ts). pose proof (queued_range _ Hq) as Hr.
    destruct (signal_cases _ _ _ Hl) as [[-> Hnw]|(p'&Hp'&Hwt&->)].
    + destruct (nobody_waits _ _ _ Hs Hnw) as [Hz _]. specialize (H1 (DUnlock ts)). cbn in H1.
      eapply one_loop_dispatch; [done..| |done]. intros Hx. cbn. lia.
    + destruct (one_loop_wake tr s (DSignal ts) c p' ltac:(lia) Hs Hp' Hwt) as (d'&Hs'&Hds&Hg&_).
      assert (p' = GWait) as ->.
      { destruct p'; try done. pose proof (one_dispatching _ _ _ _ Hs _ _ Hp' eq_refl) as ->. by simplify_eq. }
      rewrite Hg in Hs' by done. set (l := <[c := woken GWait]> (pcs s)) in *.
      pose proof (count_step is_gwait _ _ _ (woken GWait) Hp') as H4. fold l in H4.
      pose proof (count_step is_gwait _ _ _ (DUnlock ts) (one_loop_pc _ _ _ _ Hs')) as H5. cbn in H4, H5.
      apply (one_loop_dispatch tr tr (System (sh s) l) (DSignal ts)); [done..| |done].
      intros Hx. cbn in *. specialize (Ha Hx). lia.
  - injection He as <- <-. cbn. rewrite app_nil_r, (proj2 (Z.ltb_ge _ _)) by lia.
    eexists. eapply one_loop_dispatch_quiet; [done|..]; destruct ts as [|x [|y ts]]; done.
Qed.

Lemma exec_one_loop tr s d t c e s' : 3 <= nthreads (sh s) → pool_inv nth s → one_loop tasks tr s d →
  exec no_dispatch t c s = Some (Ret (e, s')) → ∃ d', one_loop tasks (tr ++ puts (option_list e)) s' d'.
Proof.
  unfold exec. intros Hn Hi Hs He. destruct (pcs s !! t) as [p|] eqn:Hp; [|done]. cbn in He.
  destruct (dispatching p) eqn:Hd.
  - pose proof (one_dispatching _ _ _ _ Hs _ _ Hp Hd) as ->.
    pose proof (one_loop_pc _ _ _ _ Hs) as Hp'. rewrite Hp in Hp'. injection Hp' as ->.
    by eapply loop_one_loop.
  - destruct (worker_one_loop _ _ _ _ _ _ _ _ Hi Hs Hp Hd He) as (d'&Hs'&Hput).
    exists d'. destruct e as [[x|x]|]; cbn; [by destruct (Hput x)|by rewrite app_nil_r..].
Qed.

Lemma steps_one_loop s tr s' d : 3 <= nthreads (sh s) → pool_inv nth s → one_loop tasks [] s d →
  steps no_dispatch s tr s' → pool_inv nth s' ∧ ∃ d', one_loop tasks (puts tr) s' d'.
Proof.
  intros Hn Hi Hs. induction 1 as [|tr s1 e s2 Hst IH Hst1]; [eauto|].
  destruct IH as (Hi1&d1&Hs1).
  destruct (steps_ok _ _ no_dispatch_tasks _ _ _ Hi Hst) as (_&_&Hn1).
  destruct (step_ok _ _ no_dispatch_tasks _ _ _ Hi1 Hst1) as (Hi2&_&_).
  split; [done|]. rewrite puts_app. destruct Hst1 as [t c e s2 He|t p Hp Hw].
  - eapply exec_one_loop; [by rewrite Hn1|done..].
  - cbn. rewrite app_nil_r. assert (Hpos : 0 < nthreads (sh s1)) by lia.
    destruct (one_loop_wake _ _ _ _ _ Hpos Hs1 Hp Hw) as (d'&?&_). by exists d'.
Qed.


(** Only waiting threads and finished accept loops cannot go on when the
    mutex is free. *)
Lemma can_go_on s t p : pool_inv nth s → pcs s !! t = Some p →
  critical p = true ∨ mtx_queue (sh s) = None ∧ is_wait p = false ∧ p ≠ Done →
  ∃ c, exec no_dispatch t c s ≠ None.
Proof.
  intros Hi Hp Hc. unfold exec. rewrite Hp. cbn.
  assert (Hsg : ∃ c, pthread_cond_signal c (pcs s) ≠ None).
  { unfold pthread_cond_signal. destruct (existsb is_wait (pcs s)) eqn:E; [|by exists 0%nat].
    apply existsb_exists in E as (q&Hin&Hq). apply list_elem_of_In, list_elem_of_lookup in Hin as [i Hi'].
    exists i. rewrite Hi'. cbn. by rewrite Hq. }
  destruct Hsg as [c Hsg]. exists c.
  destruct p; try (destruct Hc as [?|(?&?&?)]; done);
    cbn -[dequeue enqueue QUEUE_EMPTY QUEUE_FULL]; try done;
    try (destruct Hc as [?|(Hm&_&_)]; [done|]; unfold pthread_mutex_lock; by rewrite Hm).
  - by destruct (QUEUE_EMPTY (sh s)).
  - by destruct (pthread_cond_signal c (pcs s)).
  - destruct (QUEUE_FULL (sh s)); [done|]. by destruct ts.
  - by destruct (pthread_cond_signal c (pcs s)).
Qed.

Lemma rest_is_done tr s d : 3 <= nthreads (sh s) → pool_inv nth s → one_loop tasks tr s d →
  at_rest no_dispatch s → queued (sh s) = 0 ∧ tr = tasks.
Proof.
  intros Hn Hi Hs Hr.
  assert (Hmtx : mtx_queue (sh s) = None).
  { destruct (mtx_queue (sh s)) as [t|] eqn:Hm; [|done].
    destruct (lookup_lt_is_Some_2 (pcs s) t (inv_owner _ _ Hi _ Hm)) as [p Hp].
    pose proof (proj2 (inv_mutex _ _ Hi _ _ Hp) Hm) as Hc.
    destruct (can_go_on _ _ _ Hi Hp (or_introl Hc)) as [c He]. by destruct (He (Hr t c)). }
  assert (Hwait : ∀ t p, pcs s !! t = Some p → is_wait p = true ∨ p = Done).
  { intros t p Hp. destruct (is_wait p) eqn:Hw; [by left|]. right.
    destruct (decide (p = Done)) as [->|Hne]; [done|].
    destruct (can_go_on _ _ _ Hi Hp) as [c He]; [by right|]. by destruct (He (Hr t c)). }
  pose proof (one_loop_pc _ _ _ _ Hs) as Hd. pose proof (one_is_loop _ _ _ _ Hs) as Hdd.
  assert (Hall : Z.of_nat (count is_gwait (pcs s)) = nthreads (sh s)).
  { pose proof (one_len _ _ _ _ Hs) as Hlen. pose proof (one_dispatching _ _ _ _ Hs) as Hone.
    assert (Hsum : ∀ l : list pc, (∀ i p, l !! i = Some p → is_wait p = true ∨ p = Done) →
      (count is_gwait l + count dispatching l = length l)%nat).
    { unfold count. induction l as [|p l IH]; cbn; intros Hl; [done|].
      specialize (IH (λ i, Hl (S i))). destruct (Hl 0%nat p eq_refl) as [Hp| ->]; [|cbn; lia].
      destruct p; try done; cbn; lia. }
    specialize (Hsum _ Hwait).
    rewrite (count_only dispatching _ _ _ Hd), Hdd in Hsum by eauto. cbn in Hsum. lia. }
  pose proof (queued_range _ (inv_queue _ _ Hi)) as Hqr.
  pose proof (one_awake _ _ _ _ Hs) as Ha. pose proof (one_slot _ _ _ _ Hs) as Hb.
  assert (d = Done) as ->.
  { destruct (Hwait _ _ Hd) as [Hw|]; [|done]. destruct d; try done. specialize (Hb eq_refl). cbn in Hb. lia. }
  split; [|by rewrite (one_tasks _ _ _ _ Hs); cbn; rewrite app_nil_r].
  destruct (decide (0 < queued (sh s))) as [Hpos|]; [|lia]. specialize (Ha Hpos). cbn in Ha. lia.
Qed.

(** ** Termination

    What a thread can still do before it blocks for good, when its go
    procedures dispatch nothing; every task in the queue is worth a worker's
    turn. *)

Definition weight (p : pc) : nat :=
  match p with
  | GWait | Done => 0
  | GTest => 2
  | GWoken | GLock => 3
  | GStart => 4
  | Run _ => 5
  | GUnlock _ => 6
  | GSignal _ => 10
  | DWait ts => 20 * length ts
  | DTest ts => 20 * length ts + 1
  | DLock ts | DWoken ts => 20 * length ts + 2
  | DUnlock ts => 20 * length (tail ts) + 5
  | DSignal ts => 20 * length (tail ts) + 9
  end.
Definition work_left (s : system) : nat := total weight (pcs s) + 9 * Z.to_nat (queued (sh s)).

Lemma work_left_quiet s t p q sh' : pcs s !! t = Some p → queued sh' = queued (sh s) →
  (weight q < weight p)%nat → (work_left (System sh' (<[t := q]> (pcs s))) < work_left s)%nat.
Proof.
  intros Hp Hq Hw. unfold work_left. cbn [sh pcs]. rewrite Hq.
  pose proof (total_insert weight _ _ _ q Hp). lia.
Qed.

Lemma work_left_signal s t c p q l : pcs s !! t = Some p → is_wait p = false →
  pthread_cond_signal c (pcs s) = Some l → (weight q + 3 < weight p)%nat →
  (work_left (System (sh s) (<[t := q]> l)) < work_left s)%nat.
Proof.
  intros Hp Hnw Hl Hw. unfold work_left. cbn [sh pcs].
  destruct (signal_cases _ _ _ Hl) as [[-> _]|(p'&Hp'&Hwt&->)].
  - pose proof (total_insert weight _ _ _ q Hp). lia.
  - pose proof (total_insert weight _ _ _ (woken p') Hp') as H1.
    assert (Hp2 : <[c := woken p']> (pcs s) !! t = Some p).
    { rewrite list_lookup_insert_ne; [done|]. intros ->. congruence. }
    pose proof (total_insert weight _ _ _ q Hp2) as H2.
    assert (weight (woken p') <= weight p' + 3)%nat by (destruct p'; try done; cbn; lia). lia.
Qed.

Lemma weight_next w ts : (weight (next_pc w ts) <= 20 * length ts + (if w then 4 else 2))%nat.
Proof. destruct w, ts; cbn; lia. Qed.

Lemma exec_decreases s t c e s' : pool_inv nth s → exec no_dispatch t c s = Some (Ret (e, s')) →
  (work_left s' < work_left s)%nat.
Proof.
  unfold exec. intros Hi He. destruct (pcs s !! t) as [p|] eqn:Hp; [|done]. cbn in He.
  pose proof (inv_queue _ _ Hi) as Hq. pose proof (queued_range _ Hq) as Hr.
  destruct p; try done;
    cbn -[dequeue enqueue QUEUE_EMPTY QUEUE_FULL pthread_mutex_lock pthread_cond_signal next_pc] in He;
    unfold INST_set_thread_state in He; repeat case_match; try done; simplify_eq/=;
    try (eapply work_left_quiet; [done..|cbn; lia]).
  all: try (unfold pthread_mutex_lock in He; destruct (mtx_queue (sh s)); [done|]; simplify_eq/=;
    eapply work_left_quiet; [done..|cbn; lia]).
  - match goal with H : QUEUE_EMPTY _ = false |- _ => destruct (dequeue_ok _ Hq H) as (x&s1&Hde&_&Hq1&_&_) end.
    pose proof (not_empty_queued _ Hq ltac:(done)). rewrite Hde in He. simplify_eq/=.
    pose proof (total_insert weight _ _ _ (GSignal x) Hp) as H1. cbn in H1.
    unfold work_left. cbn [sh pcs]. rewrite Hq1. lia.
  - destruct (pthread_cond_signal c (pcs s)) as [l|] eqn:Hl; simplify_eq/=.
    eapply work_left_signal; [done..|cbn; lia].
  - eapply work_left_quiet; [done..|].
    pose proof (weight_next (Z.of_nat t <? nthreads (sh s)) []). cbn in *. destruct (_ <? _); lia.
  - match goal with H : QUEUE_FULL _ = false |- _ => pose proof H as Hf end.
    match goal with |- context [DSignal (?x :: ?ts)] => idtac | _ : context [enqueue ?x _] |- _ =>
      destruct (decide (x = 0)) as [->|Hx]; [unfold enqueue in He; by rewrite Hf in He|];
      destruct (enqueue_ok _ Hq x Hf Hx) as (s1&Hde&_&Hq1&_&_) end.
    rewrite Hde in He. simplify_eq/=.
    match goal with |- context [DSignal ?ts] =>
      pose proof (total_insert weight _ _ _ (DSignal ts) Hp) as H1; cbn in H1 end.
    unfold work_left. cbn [sh pcs]. rewrite Hq1. lia.
  - destruct (pthread_cond_signal c (pcs s)) as [l|] eqn:Hl; simplify_eq/=.
    eapply work_left_signal; [done..|cbn; lia].
  - eapply work_left_quiet; [done..|].
    pose proof (weight_next (Z.of_nat t <? nthreads (sh s)) (tail ts)) as Hwn. cbn in *. destruct (_ <? _); lia.
Qed.
End progress.

Lemma steps_cons go_proc s e s1 tr s2 : step go_proc s e s1 → steps go_proc s1 tr s2 →
  steps go_proc s (option_list e ++ tr) s2.
Proof.
  intros H1. induction 1 as [|tr s2 e' s3 _ IH H2].
  - rewrite app_nil_r. by apply (steps_snoc _ s [] s e s1); [constructor|].
  - rewrite app_assoc. by eapply steps_snoc.
Qed.

Lemma run_schedule_steps go_proc sched s tr s' : run_schedule go_proc sched s = Some (tr, s') →
  steps go_proc s tr s'.
Proof.
  revert s tr. induction sched as [|[t c] sched IH]; intros s tr Hr; simplify_eq/=; [constructor|].
  destruct (exec go_proc t c s) as [[[e s1]|?| |]|] eqn:He; try done.
  destruct (run_schedule go_proc sched s1) as [[tr1 s2]|] eqn:Hr1; simplify_eq/=.
  eapply steps_cons; [by econstructor|by apply IH].
Qed.

Lemma schedule_length nth sched s tr s' : pool_inv nth s →
  run_schedule no_dispatch sched s = Some (tr, s') → (length sched <= work_left s)%nat.
Proof.
  revert s tr. induction sched as [|[t c] sched IH]; intros s tr Hi Hr; simplify_eq/=; [lia|].
  destruct (exec no_dispatch t c s) as [[[e s1]|?| |]|] eqn:He; try done.
  destruct (run_schedule no_dispatch sched s1) as [[tr1 s2]|] eqn:Hr1; simplify_eq/=.
  pose proof (exec_decreases _ _ _ _ _ _ Hi He) as Hlt.
  destruct (exec_ok _ _ no_dispatch_tasks _ _ _ _ Hi He) as (?&?&?&Hi1&_). simplify_eq.
  specialize (IH _ _ Hi1 Hr1). lia.
Qed.

Lemma start_one_loop threads_max garbage nth tasks : 0 < pool_size threads_max nth →
  one_loop tasks [] (start threads_max garbage nth [tasks]) (next_pc false tasks).
Proof.
  unfold pool_size. intros Hn. set (s := start threads_max garbage nth [tasks]).
  assert (Hpcs : pcs s = replicate (Z.to_nat (nthreads (sh s))) GStart ++ [next_pc false tasks]) by done.
  change (0 < nthreads (sh s)) in Hn.
  split; rewrite ?Hpcs.
  - rewrite length_app, length_replicate. cbn [length]. lia.
  - rewrite lookup_app_r by (rewrite length_replicate; lia). by rewrite length_replicate, Nat.sub_diag.
  - intros t p [[-> _]%lookup_replicate|[Ht Hp]]%lookup_app_Some; [done|].
    rewrite length_replicate in Ht, Hp. destruct (t - _)%nat eqn:E; [lia|done].
  - by destruct tasks.
  - by destruct tasks.
  - intros Hq. unfold s, queued in Hq. cbn in Hq. rewrite Z.mod_0_l in Hq; [lia|]. unfold s in Hn. cbn in Hn. lia.
  - by destruct tasks.
Qed.

Lemma start_work threads_max garbage nth tasks : 0 < pool_size threads_max nth →
  Z.of_nat (work_left (start threads_max garbage nth [tasks])) <=
    4 * pool_size threads_max nth + 20 * Z.of_nat (length tasks) + 2.
Proof.
  intros Hn. unfold work_left, queued, start.
  cbn [pcs sh make_threads qtail qhead]. rewrite Z.mod_0_l, total_app, total_replicate
    by (unfold pool_size in Hn; cbn in *; lia).
  unfold pool_size in *. cbn -[next_pc Z.mul weight] in *.
  pose proof (weight_next false tasks). cbn [fmap list_fmap total weight] in *. lia.
Qed.

Section claims.
Context (go_proc : task → list task) (threads_max : option Z) (garbage : list task) (nth : Z).
Context (loops : list (list task)).
Context (Hgo : ∀ x, no_null (go_proc x)).
Context (Hsize : 0 < pool_size threads_max nth).
Context (Hgarbage : Z.of_nat (length garbage) = pool_size threads_max nth).
Context (Hloops : Forall no_null loops).

#[local] Abbreviation start := (start threads_max garbage nth loops).

(** C27. In every state the pool can reach, however the threads are
    interleaved, the indices and the array are well formed, exactly the owner
    of the mutex is in a critical section, [tasks_done] is [nth] less the
    threads looking for work, and no thread's next step fails: no assertion
    of [get_task], [dispatch] or [INST_set_thread_state] is violated, nothing
    outside the array is touched. *)
Theorem pool_invariant tr s : steps go_proc start tr s →
  pool_inv nth s ∧
  ∀ t c r, exec go_proc t c s = Some r → ∃ e s', r = Ret (e, s') ∧ pool_inv nth s'.
Proof.
  intros Hs. pose proof (start_inv threads_max garbage nth loops Hsize Hgarbage Hloops) as Hi.
  destruct (steps_ok _ _ Hgo _ _ _ Hi Hs) as (Hi'&_&_). split; [done|].
  intros t c r He. destruct (exec_ok _ _ Hgo _ _ _ _ Hi' He) as (e&s'&?&?&_). by exists e, s'.
Qed.

(** C8. The circular array is a bounded first-in first-out queue for any
    number of workers and dispatchers: the tasks put are the tasks taken, in
    the same order and each once, followed by those still in the array, of
    which there are fewer than threads. *)
Theorem dispatch_fifo tr s : steps go_proc start tr s →
  puts tr = takes tr ++ contents (sh s) ∧
  Z.of_nat (length (contents (sh s))) < pool_size threads_max nth.
Proof.
  intros Hs. pose proof (start_inv threads_max garbage nth loops Hsize Hgarbage Hloops) as Hi.
  destruct (steps_ok _ _ Hgo _ _ _ Hi Hs) as (Hi'&Hc&Hn).
  rewrite (start_contents threads_max garbage nth loops Hsize) in Hc. split; [done|].
  pose proof (inv_queue _ _ Hi') as Hq. rewrite (length_contents _ Hq).
  pose proof (queued_range _ Hq). change (pool_size threads_max nth) with (nthreads (sh start)). lia.
Qed.

(** A pool of one thread does nothing: its array has no free slot, so no
    task is ever dispatched. *)
Theorem single_thread_stalls tr s : pool_size threads_max nth = 1 → steps go_proc start tr s → tr = [].
Proof.
  intros H1 Hs. pose proof (start_inv threads_max garbage nth loops Hsize Hgarbage Hloops) as Hi.
  assert (Hempty : ∀ tr s, steps go_proc start tr s → contents (sh s) = [] ∧ pool_inv nth s).
  { intros tr' s' Hs'. destruct (steps_ok _ _ Hgo _ _ _ Hi Hs') as (Hi'&_&Hn). split; [|done].
    apply length_zero_iff_nil. pose proof (inv_queue _ _ Hi') as Hq.
    pose proof (length_contents _ Hq). pose proof (queued_range _ Hq).
    change (nthreads (sh start)) with (pool_size threads_max nth) in Hn. lia. }
  induction Hs as [|tr s1 e s2 Hs1 IH Hst]; [done|]. rewrite IH. cbn.
  destruct (Hempty _ _ Hs1) as [Hc1 Hi1].
  destruct (Hempty _ _ (steps_snoc _ _ _ _ _ _ Hs1 Hst)) as [Hc2 _].
  destruct (step_ok _ _ Hgo _ _ _ Hi1 Hst) as (_&He&_).
  destruct e as [[x|x]|]; cbn in He; [|congruence|done].
  rewrite Hc2 in He. by apply (f_equal length) in He; rewrite length_app, Nat.add_comm in He.
Qed.
End claims.

(** C1. With one accept loop and at least three threads, and with tasks whose
    procedures do not themselves call [dispatch], every task is run. Each
    execution without spurious wakeups is finite: it has at most [4 n + 20 k +
    2] steps for [n] threads and [k] tasks; and an execution, spurious wakeups
    included, can only come to rest when every task has been taken, in order,
    and the queue is empty: no wakeup that matters is lost though all threads
    wait on one condition variable that [pthread_cond_signal] signals once.
    (Two threads can deadlock: [pool_deadlocks].) *)
Theorem pool_completes threads_max garbage nth tasks :
  3 <= pool_size threads_max nth → Z.of_nat (length garbage) = pool_size threads_max nth →
  no_null tasks →
  let s0 := start threads_max garbage nth [tasks] in
  (∀ sched tr s, run_schedule no_dispatch sched s0 = Some (tr, s) →
     Z.of_nat (length sched) <= 4 * pool_size threads_max nth + 20 * Z.of_nat (length tasks) + 2) ∧
  (∀ tr s, steps no_dispatch s0 tr s → at_rest no_dispatch s →
     takes tr = tasks ∧ contents (sh s) = []).
Proof.
  intros Hn Hg Ht s0.
  assert (Hi : pool_inv nth s0) by (apply start_inv; [lia|done|by apply Forall_singleton]).
  pose proof (start_one_loop threads_max garbage nth tasks ltac:(lia)) as Hone. split.
  - intros sched tr s Hr. pose proof (schedule_length _ _ _ _ _ Hi Hr) as Hle.
    pose proof (start_work threads_max garbage nth tasks ltac:(lia)). unfold s0 in *. lia.
  - intros tr s Hs Hr. change (pool_size threads_max nth) with (nthreads (sh s0)) in Hn.
    destruct (steps_one_loop _ _ _ _ _ _ Hn Hi Hone Hs) as (Hi'&d&Hd).
    destruct (steps_ok _ _ no_dispatch_tasks _ _ _ Hi Hs) as (_&Hc&Hns).
    rewrite <-Hns in Hn. destruct (rest_is_done _ _ _ _ _ Hn Hi' Hd Hr) as [Hq Hp].
    assert (Hc0 : contents (sh s) = []) by (by unfold contents; rewrite Hq).
    unfold s0 in Hc. rewrite (start_contents threads_max garbage nth [tasks]), Hc0, app_nil_r in Hc by (unfold s0 in Hns; rewrite Hns in Hn; cbn in Hn; unfold pool_size; cbn; lia).
    by rewrite <-Hc, <-Hp.
Qed.

(** ** Concrete pools *)

(** Three workers; the accept loop dispatches two tasks and both are run. *)
Definition demo_start : system := start None [0; 0; 0] 3 [[71; 72]].
Definition demo_schedule : list (nat * nat) :=
  [(0, 0); (0, 0); (0, 0); (3, 0); (3, 0); (3, 0); (3, 0); (3, 0); (3, 0); (3, 0); (3, 0);
   (0, 0); (0, 0); (0, 0); (0, 0); (0, 0); (1, 0); (1, 0); (1, 0); (1, 0); (1, 0); (1, 0)]%nat.

Example demo_runs : ∃ s, run_schedule no_dispatch demo_schedule demo_start =
  Some ([Put 71; Put 72; Take 71; Take 72], s).
Proof. eexists. vm_compute. reflexivity. Qed.

Definition demo_end : system :=
  match run_schedule no_dispatch demo_schedule demo_start with Some (_, s) => s | None => demo_start end.
Definition demo_trace : list event := [Put 71; Put 72; Take 71; Take 72].

Lemma demo_steps : steps no_dispatch demo_start demo_trace demo_end.
Proof. apply (run_schedule_steps _ demo_schedule). vm_compute. reflexivity. Qed.

Lemma pool_invariant_witness : pool_inv 3 demo_end ∧
  ∀ t c r, exec no_dispatch t c demo_end = Some r → ∃ e s', r = Ret (e, s') ∧ pool_inv 3 s'.
Proof.
  apply (pool_invariant no_dispatch None [0; 0; 0] 3 [[71; 72]]) with (tr := demo_trace);
    [constructor|by vm_compute|by vm_compute|by repeat constructor|apply demo_steps].
Defined.

Lemma dispatch_fifo_witness : puts demo_trace = takes demo_trace ++ contents (sh demo_end) ∧
  Z.of_nat (length (contents (sh demo_end))) < 3.
Proof.
  apply (dispatch_fifo no_dispatch None [0; 0; 0] 3 [[71; 72]]);
    [constructor|by vm_compute|by vm_compute|by repeat constructor|apply demo_steps].
Defined.

Definition one_worker : system := start None [0] 1 [[71]].
Definition one_worker_schedule : list (nat * nat) := [(1, 0); (1, 0); (0, 0); (0, 0); (0, 0)]%nat.
Definition one_worker_end : system :=
  match run_schedule no_dispatch one_worker_schedule one_worker with Some (_, s) => s | None => one_worker end.

Lemma single_thread_stalls_witness : ∃ tr, steps no_dispatch one_worker tr one_worker_end ∧ tr = [] ∧
  pcs one_worker_end = [GWait; DWait [71]].
Proof.
  assert (Hs : steps no_dispatch one_worker [] one_worker_end).
  { apply (run_schedule_steps _ one_worker_schedule). vm_compute. reflexivity. }
  exists []. split; [done|]. split; [|by vm_compute].
  apply (single_thread_stalls no_dispatch None [0] 1 [[71]]) with (s := one_worker_end);
    [constructor|by vm_compute|by vm_compute|by repeat constructor|by vm_compute|done].
Defined.

(** A run of the three workers that has come to rest. *)
Definition rest_schedule : list (nat * nat) :=
  (demo_schedule ++
   [(0, 0); (0, 0); (0, 0); (1, 0); (1, 0); (1, 0); (2, 0); (2, 0); (2, 0)])%nat.
Definition rest_end : system :=
  match run_schedule no_dispatch rest_schedule demo_start with Some (_, s) => s | None => demo_start end.

Lemma three_at_rest : at_rest no_dispatch rest_end.
Proof. intros [|[|[|[|t]]]] c; reflexivity. Qed.

Lemma pool_completes_witness : Z.of_nat (length rest_schedule) <= 54 ∧
  takes demo_trace = [71; 72] ∧ contents (sh rest_end) = [].
Proof.
  assert (Hr : run_schedule no_dispatch rest_schedule demo_start = Some (demo_trace, rest_end)).
  { vm_compute. reflexivity. }
  destruct (pool_completes None [0; 0; 0] 3 [71; 72]) as [Hlen Hdone];
    [by vm_compute|by vm_compute|by repeat constructor|].
  split; [by apply (Hlen rest_schedule _ _ Hr)|].
  apply Hdone; [by apply (run_schedule_steps _ rest_schedule)|apply three_at_rest].
Defined.

(** ** Deadlocks

    Both sides wait on the one condition variable and are signalled one at a
    time.  With two threads the signal of a worker can wake the other worker,
    which finds the queue empty, instead of the accept loop, which waits for
    the slot that has become free: every thread waits, with a task not
    dispatched. *)
Definition lost_wakeup_schedule : list (nat * nat) :=
  [(0, 0); (0, 0); (0, 0); (1, 0); (1, 0); (1, 0);
   (2, 0); (2, 0); (2, 0); (2, 0); (2, 0); (2, 0);
   (0, 0); (0, 0); (0, 1); (0, 0); (0, 0); (0, 0); (0, 0); (0, 0); (1, 0); (1, 0)]%nat.

(** With dataflow the go procedures dispatch tasks themselves
    (src/tcsproxy/frontend/src/dataflow.c).  When the queue is full and every
    worker dispatches, nobody is left to take a task. *)
Definition dataflow_go (x : task) : list task := if x <? 100 then [x + 100] else [].
Definition dataflow_schedule : list (nat * nat) :=
  concat ((λ t, replicate 4 (3, 0) ++ replicate 5 (t, 0)) <$> [0; 1; 2])%nat ++
  replicate 10 (3, 0)%nat ++
  concat ((λ t, replicate 3 (t, 0)) <$> [0; 1; 2])%nat.

(** The pool can deadlock with tasks left: with two threads one wakeup
    sent to the wrong waiter is enough, and when go procedures dispatch
    tasks the workers can all wait for a slot at once. *)
Theorem pool_deadlocks :
  (∃ tr s, steps no_dispatch (start None [0; 0] 2 [[71; 72]]) tr s ∧ at_rest no_dispatch s ∧
     takes tr = [71] ∧ contents (sh s) = [] ∧ pcs s = [GWait; GWait; DWait [72]]) ∧
  (∃ tr s, steps dataflow_go (start None [0; 0; 0] 3 [[1; 2; 3; 4; 5; 6]]) tr s ∧ at_rest dataflow_go s ∧
     takes tr = [1; 2; 3] ∧ contents (sh s) = [4; 5] ∧
     pcs s = [DWait [101]; DWait [102]; DWait [103]; DWait [6]]).
Proof.
  split; do 2 eexists; (split; [|split; [|split; [|split]]]).
  1: apply (run_schedule_steps _ lost_wakeup_schedule); vm_compute; reflexivity.
  5: apply (run_schedule_steps _ dataflow_schedule); vm_compute; reflexivity.
  1: intros [|[|[|t]]] c; reflexivity.
  4: intros [|[|[|[|t]]]] c; reflexivity.
  all: vm_compute; reflexivity.
Qed.
