(* ===== verification/Idea.v ===== *)
(** * The IDEA cipher of the trace tools (src/tcsproxy/playback/logparse)

    idea.c, and the chaining [do_idea_encrypt] / [do_idea_decrypt] that
    httpde_univ.c wraps around it to hide and recover the addresses and URLs
    of a trace.  A [uint16] is a [Z] in [0, 65536) and the conversions of C
    are written out; an array is a list and an access outside it is [Crash];
    the machine is little-endian and stores a [uint16] in two bytes. *)

From S2P Require Import Prelude.

Open Scope Z_scope.

(** ** Definitions: idea.c *)

Definition IDEABLOCKSIZE : Z := 8.
Definition ROUNDS : nat := 8.
Definition IDEAKEYLEN : nat := 52.

Definition low16 (x : Z) : Z := Z.land x 65535.

(** A product of two [uint16], computed in [int]: overflow is undefined. *)
Definition int_mul (a b : Z) : outcome Z := if a * b <? 2 ^ 31 then Ret (a * b) else Crash.
(** [/] and [%] of [int]. *)
Definition int_div (a b : Z) : outcome Z := if b =? 0 then Crash else Ret (Z.quot a b).
Definition int_rem (a b : Z) : outcome Z := if b =? 0 then Crash else Ret (Z.rem a b).

(** The [do]-[while] of [inv]: the extended Euclidean algorithm. *)
Fixpoint inv_loop (fuel : nat) (x y t0 t1 : Z) : outcome Z :=
  match fuel with
  | O => Stuck
  | S fuel' =>
      q ← int_div x y;
      x ← int_rem x y;
      p ← int_mul q t1;
      let t0 := u16 (t0 + p) in
      if x =? 1 then Ret t0
      else
        q ← int_div y x;
        y ← int_rem y x;
        p ← int_mul q t0;
        let t1 := u16 (t1 + p) in
        if negb (y =? 1) then inv_loop fuel' x y t0 t1 else Ret (low16 (1 - t1))
  end.

(** Each turn at least halves both numbers, so sixteen are enough. *)
Definition inv (x : Z) : outcome Z :=
  if x <=? 1 then Ret x
  else
    let t1 := u16 (Z.quot 65537 x) in
    let y := u16 (Z.rem 65537 x) in
    if y =? 1 then Ret (low16 (1 - t1))
    else inv_loop 16 x y 1 t1.

Definition mul (a b : Z) : Z :=
  if negb (a =? 0) then
    if negb (b =? 0) then
      let p := a * b in
      let b := u16 (low16 p) in
      let a := u16 (Z.shiftr p 16) in
      u16 (b - a + Z.b2z (b <? a))
    else u16 (1 - a)
  else u16 (1 - b).

(** An array element. *)
Definition rd16 (Z_ : list Z) (i : Z) : outcome Z :=
  if 0 <=? i then match Z_ !! Z.to_nat i with Some x => Ret x | None => Crash end else Crash.
Definition wr16 (Z_ : list Z) (i x : Z) : outcome (list Z) :=
  if (0 <=? i) && (i <? Z.of_nat (length Z_)) then Ret (<[Z.to_nat i := x]> Z_) else Crash.

(** The second loop of [en_key_idea]; [base] is how far the code has moved
    its parameter [Z] and [n] the number of turns left. *)
Fixpoint en_key_loop (n : nat) (i base : Z) (Z_ : list Z) : outcome (list Z) :=
  match n with
  | O => Ret Z_
  | S n' =>
      let i := i + 1 in
      a ← rd16 Z_ (base + Z.land i 7);
      b ← rd16 Z_ (base + Z.land (i + 1) 7);
      Z_ ← wr16 Z_ (base + (i + 7)) (u16 (Z.lor (Z.shiftl a 9) (Z.shiftr b 7)));
      en_key_loop n' (Z.land i 7) (base + Z.land i 8) Z_
  end.

Fixpoint copy_key (n : nat) (j : Z) (userkey Z_ : list Z) : outcome (list Z) :=
  match n with
  | O => Ret Z_
  | S n' =>
      x ← rd16 userkey j;
      Z_ ← wr16 Z_ j x;
      copy_key n' (j + 1) userkey Z_
  end.

(** [en_key_idea]: fills the array [Z]. *)
Definition en_key_idea (userkey Z_ : list Z) : outcome (list Z) :=
  Z_ ← copy_key 8 0 userkey Z_;
  en_key_loop (IDEAKEYLEN - 8) 0 0 Z_.

(** [de_key_idea] reads [Z] upwards and fills [T] from its end downwards. *)
Record keys := Keys { rest : list Z; temp : list Z }.
Definition next : M keys Z := λ s,
  match rest s with x :: r => Ret (x, Keys r (temp s)) | [] => Crash end.
Definition push (x : Z) : M keys () := λ s,
  if (length (temp s) <? IDEAKEYLEN)%nat then Ret ((), Keys (rest s) (x :: temp s)) else Crash.
Definition lift {S A} (o : outcome A) : M S A := λ s, a ← o; Ret (a, s).
Definition neg16 (x : Z) : Z := u16 (- x).

(** The four keys of a key mixing layer; the middle two change places except
    in the first and the last layer. *)
Definition de_mix (swap : bool) : M keys () :=
  z ← next; t1 ← lift (inv z);
  z ← next; let t2 := neg16 z in
  z ← next; let t3 := neg16 z in
  z ← next; t4 ← lift (inv z);
  push t4 ;;
  (if swap then push t2 ;; push t3 else push t3 ;; push t2) ;;
  push t1.
Definition de_ma : M keys () :=
  t1 ← next; z ← next; push z ;; push t1.
Fixpoint de_loop (n : nat) : M keys () :=
  match n with
  | O => mret ()
  | S n' => de_ma ;; de_mix true ;; de_loop n'
  end.
Definition de_key_idea (Z_ : list Z) : outcome (list Z) :=
  '(_, s) ← (de_mix false ;; de_loop (ROUNDS - 1) ;; de_ma ;; de_mix false) (Keys Z_ []);
  Ret (temp s).

(** The state of [cipher_idea]: [x1] to [x4]. *)
Record quad := Quad { x1 : Z; x2 : Z; x3 : Z; x4 : Z }.

(** One turn of the loop with its six keys. *)
Definition cipher_round (z1 z2 z3 z4 z5 z6 : Z) (x : quad) : quad :=
  let a := mul (low16 (x1 x)) z1 in
  let b := u16 (x2 x + z2) in
  let c := u16 (x3 x + z3) in
  let d := mul (low16 (x4 x)) z4 in
  let t2 := Z.lxor a c in
  let t2 := mul (low16 t2) z5 in
  let t1 := u16 (t2 + Z.lxor b d) in
  let t1 := mul (low16 t1) z6 in
  let t2 := u16 (t1 + t2) in
  let a := Z.lxor a t1 in
  let d := Z.lxor d t2 in
  let t2 := Z.lxor t2 b in
  Quad a (Z.lxor c t1) t2 d.
Definition cipher_out (z1 z2 z3 z4 : Z) (x : quad) : quad :=
  Quad (mul (low16 (x1 x)) z1) (u16 (x3 x + z2)) (u16 (x2 x + z3)) (mul (low16 (x4 x)) z4).

Fixpoint cipher_rounds (r : nat) (Z_ : list Z) (x : quad) : outcome (list Z * quad) :=
  match r with
  | O => Ret (Z_, x)
  | S r' =>
      match Z_ with
      | z1 :: z2 :: z3 :: z4 :: z5 :: z6 :: Z' => cipher_rounds r' Z' (cipher_round z1 z2 z3 z4 z5 z6 x)
      | _ => Crash
      end
  end.
Definition cipher_idea (x : quad) (Z_ : list Z) : outcome quad :=
  '(Z_, x) ← cipher_rounds ROUNDS Z_ x;
  match Z_ with
  | z1 :: z2 :: z3 :: z4 :: _ => Ret (cipher_out z1 z2 z3 z4 x)
  | _ => Crash
  end.

(** A block in memory. *)
Definition quad_of (s : bytes) : quad :=
  let w i := of_le (take 2 (drop i s)) in Quad (w 0%nat) (w 2%nat) (w 4%nat) (w 6%nat).
Definition quad_bytes (x : quad) : bytes :=
  to_le 2 (x1 x) ++ to_le 2 (x2 x) ++ to_le 2 (x3 x) ++ to_le 2 (x4 x).

(** The inversion of a short tail: the loop counts bytes but indexes the
    [uint16] arrays [input] and [output], of four elements. *)
Fixpoint invert_tail (n : nat) (k : nat) (input output : list Z) : outcome (list Z) :=
  match n with
  | O => Ret output
  | S n' =>
      match input !! k with
      | Some x =>
          if (k <? length output)%nat
          then invert_tail n' (S k) input (<[k := u16 (Z.lnot x)]> output)
          else Crash
      | None => Crash
      end
  end.

Definition words16 (s : bytes) : list Z := let q := quad_of s in [x1 q; x2 q; x3 q; x4 q].

(** [idea_encrypt_block(K, in, out, size)]: [stack] is what the
    uninitialised [input] and [output] hold, 8 bytes each; the result is what
    has been stored at [out]. *)
Fixpoint idea_encrypt_loop (fuel : nat) (K : list Z) (input output : bytes) (inp : bytes) (j size : Z) : outcome bytes :=
  if j <? size then
    match fuel with
    | O => Stuck
    | S fuel' =>
        let i := u32 (size - j) in
        let i := if IDEABLOCKSIZE <? i then IDEABLOCKSIZE else i in
        if (Z.of_nat (length inp) <? i) then Crash
        else
          let input := take (Z.to_nat i) inp ++ drop (Z.to_nat i) input in
          output ←
            (if i =? 8 then
               q ← cipher_idea (quad_of input) K; Ret (quad_bytes q)
             else
               w ← invert_tail (Z.to_nat i) 0 (words16 input) (words16 output);
               Ret (w ≫= to_le 2));
          out ← idea_encrypt_loop fuel' K input output (drop (Z.to_nat i) inp) (u32 (j + i)) size;
          Ret (take (Z.to_nat i) output ++ out)
    end
  else Ret [].
Definition idea_encrypt_block (stack_in stack_out : bytes) (K : list Z) (inp : bytes) (size : Z) : outcome bytes :=
  idea_encrypt_loop (S (length inp)) K stack_in stack_out inp 0 (u32 size).

(** ** Definitions: the chaining of httpde_univ.c *)

(** The global variables. *)
Record globals := Globals { iv : Z; en_key : list Z; de_key : list Z }.
Definition ideakey : list Z := [17702; 34627; 13121; 39218; 30821; 8339; 6550; 8993].

(** [*(u64 * )tmpo ^= v]. *)
Definition xor_block (s : bytes) (v : Z) : bytes := to_le 8 (Z.lxor (of_le s) v).

Section chaining.
Context (stack_in stack_out : bytes).

(** Both functions start by setting the keys. *)
Definition set_keys (g : globals) : outcome globals :=
  e ← en_key_idea ideakey (en_key g);
  d ← de_key_idea e;
  Ret (Globals 305419896 e d).

(** The loops over [size] blocks; the list is what [tmpo] points at. *)
Fixpoint encrypt_blocks (size : nat) (buf : bytes) (g : globals) : outcome (bytes * globals) :=
  match size with
  | O => Ret (buf, g)
  | S size' =>
      if (length buf <? 8)%nat then Crash
      else
        b ← idea_encrypt_block stack_in stack_out (en_key g) (xor_block (take 8 buf) (iv g)) 8;
        '(rest, g) ← encrypt_blocks size' (drop 8 buf) (Globals (of_le b) (en_key g) (de_key g));
        Ret (b ++ rest, g)
  end.
Fixpoint decrypt_blocks (size : nat) (buf : bytes) (g : globals) : outcome (bytes * globals) :=
  match size with
  | O => Ret (buf, g)
  | S size' =>
      if (length buf <? 8)%nat then Crash
      else
        let tmp := of_le (take 8 buf) in
        b ← idea_encrypt_block stack_in stack_out (de_key g) (take 8 buf) 8;
        '(rest, g') ← decrypt_blocks size' (drop 8 buf) (Globals tmp (en_key g) (de_key g));
        Ret (xor_block b (iv g) ++ rest, g')
  end.

(** [memcpy(buf, text, inlen)]. *)
Definition copy_in (text buf : bytes) (inlen : Z) : outcome bytes :=
  if (inlen <? 0) || (Z.of_nat (length text) <? inlen) || (Z.of_nat (length buf) <? inlen) then Crash
  else Ret (take (Z.to_nat inlen) text ++ drop (Z.to_nat inlen) buf).

(** [do_idea_encrypt(text, buf, inlen)]: [buf] is the memory at [buf]; returns
    it with the padded length. *)
Definition do_idea_encrypt (text buf : bytes) (inlen : Z) (g : globals) : outcome (Z * bytes * globals) :=
  g ← set_keys g;
  buf ← copy_in text buf inlen;
  '(padded_url_len, buf) ←
    (if negb (Z.rem inlen 8 =? 0) then
       let pad := 8 - Z.rem inlen 8 in
       if Z.of_nat (length buf) <? inlen + pad then Crash
       else Ret (inlen + pad,
                 take (Z.to_nat inlen) buf ++ replicate (Z.to_nat pad) 0 ++ drop (Z.to_nat (inlen + pad)) buf)
     else Ret (inlen, buf));
  '(buf, g) ← encrypt_blocks (Z.to_nat (Z.quot padded_url_len 8)) buf g;
  Ret (padded_url_len, buf, g).

Definition do_idea_decrypt (text buf : bytes) (inlen : Z) (g : globals) : outcome (bytes * globals) :=
  g ← set_keys g;
  buf ← copy_in text buf inlen;
  decrypt_blocks (Z.to_nat (Z.quot inlen 8)) buf g.
End chaining.

(** ** Multiplication modulo 65537

    [mul] is multiplication in the integers modulo the prime 65537, with 0
    standing for 65536. *)

Definition is_u16 (x : Z) : Prop := 0 <= x < 65536.
Definition rep (x : Z) : Z := if x =? 0 then 65536 else x.

Lemma low16_mod x : low16 x = x mod 65536.
Proof. unfold low16. change 65535 with (Z.ones 16). by rewrite Z.land_ones. Qed.

Lemma one_minus b : 1 <= b < 65536 →
  (if (1 - b) mod 65536 =? 0 then 65536 else (1 - b) mod 65536) = 65537 - b.
Proof.
  intros Hb. destruct (decide (b = 1)) as [->|]; [done|].
  rewrite <-(Z.mod_unique_pos (1 - b) 65536 (-1) (65537 - b)) by lia.
  destruct (Z.eqb_spec (65537 - b) 0); lia.
Qed.

(** 65537 has no divisor but 1 below it. *)
Lemma coprime_65537 x : 0 < x < 65537 → Z.gcd x 65537 = 1.
Proof.
  intros Hx. set (g := Z.gcd x 65537).
  assert (Hg : 0 < g) by (unfold g; pose proof (Z.gcd_nonneg x 65537); pose proof (Z.gcd_eq_0 x 65537); lia).
  assert (Hgx : g <= x) by (apply Z.divide_pos_le; [lia|apply Z.gcd_divide_l]).
  destruct (Z.gcd_divide_r x 65537) as [h Hh]. fold g in Hh.
  assert (Hd : ∀ d, 2 <= d <= 256 → 65537 mod d ≠ 0).
  { intros d Hd Hm. assert (H : Forall (λ d, 65537 mod d ≠ 0) (seqZ 2 255)).
    { apply (bool_decide_unpack _). vm_compute. exact I. }
    rewrite Forall_forall in H. apply (H d); [|done]. apply elem_of_seqZ. lia. }
  destruct (Z.lt_trichotomy g 1) as [?|[?|?]]; [lia|done|exfalso].
  destruct (Z.le_gt_cases g 256).
  - apply (Hd g); [lia|]. rewrite Hh. apply Z_mod_mult.
  - apply (Hd h); [nia|]. rewrite Hh, Z.mul_comm. apply Z_mod_mult.
Qed.

Lemma gcd_step x y : 1 < y → Z.gcd x y = 1 → 0 < x mod y ∧ Z.gcd (x mod y) y = 1.
Proof.
  intros Hy Hg. assert (Hg' : Z.gcd (x mod y) y = 1) by (rewrite Z.gcd_mod, Z.gcd_comm by lia; done).
  split; [|done]. pose proof (Z.mod_pos_bound x y).
  destruct (Z.eq_dec (x mod y) 0) as [H0|]; [|lia]. rewrite H0, Z.gcd_0_l in Hg'. lia.
Qed.

Lemma mod_halves y x : 0 < x < y → 2 * (y mod x) < y.
Proof. intros H. pose proof (Z.div_mod y x). pose proof (Z.mod_pos_bound y x). assert (1 <= y / x) by (apply Z.div_le_lower_bound; lia). nia. Qed.

(** One half of the loop body, for one of the two numbers: the counter [t]
    stays below 2{^16} and nothing overflows. *)
Lemma euclid_step x y t0 t1 : 0 < x → 1 < y → Z.gcd x y = 1 → 1 <= t0 → 1 <= t1 → t0 * y + t1 * x = 65537 →
  int_div x y = Ret (x / y) ∧ int_rem x y = Ret (x mod y) ∧
  int_mul (x / y) t1 = Ret (x / y * t1) ∧
  u16 (t0 + x / y * t1) = t0 + x / y * t1 ∧
  1 <= t0 + x / y * t1 <= 32768 ∧
  (t0 + x / y * t1) * y + t1 * (x mod y) = 65537 ∧ 0 < x mod y < y ∧ Z.gcd (x mod y) y = 1.
Proof.
  intros Hx Hy Hg H0 H1 Hdet.
  destruct (gcd_step x y Hy Hg) as [Hr Hg'].
  pose proof (Z.div_mod x y ltac:(lia)) as Hdm. pose proof (Z.mod_pos_bound x y ltac:(lia)) as Hb.
  assert (Hq : 0 <= x / y) by (apply Z.div_pos; lia).
  assert (Hdet' : (t0 + x / y * t1) * y + t1 * (x mod y) = 65537) by nia.
  assert (Ht : 1 <= t0 + x / y * t1 <= 32768) by nia.
  unfold int_div, int_rem, int_mul. rewrite (proj2 (Z.eqb_neq y 0)) by lia.
  rewrite Z.quot_div_nonneg, Z.rem_mod_nonneg by lia.
  rewrite (proj2 (Z.ltb_lt _ _)) by nia.
  repeat (split; [done|]). split; [apply wrap_small; lia|]. repeat split; try done; lia.
Qed.

(** Congruence modulo 65537. *)
Definition cong (a b : Z) : Prop := (65537 | a - b).

Lemma cong_1 a : cong a 1 → a mod 65537 = 1.
Proof.
  intros [k Hk]. replace a with (1 + k * 65537) by lia. by rewrite Z_mod_plus_full.
Qed.

Lemma minus_result t1 x0 : 1 <= t1 <= 32768 → cong (t1 * x0 + 1) 0 →
  is_u16 (low16 (1 - t1)) ∧ cong (rep (low16 (1 - t1)) * x0) 1.
Proof.
  intros Ht [k Hk]. unfold rep. rewrite low16_mod, one_minus by lia.
  split; [apply Z.mod_pos_bound; lia|]. exists (x0 - k). lia.
Qed.

Lemma inv_loop_spec x0 n x y t0 t1 : 0 < x → 1 < y < 2 ^ Z.of_nat n → Z.gcd x y = 1 →
  1 <= t0 → 1 <= t1 → t0 * y + t1 * x = 65537 → cong (t0 * x0) x → cong (t1 * x0 + y) 0 →
  ∃ r, inv_loop n x y t0 t1 = Ret r ∧ is_u16 r ∧ cong (rep r * x0) 1.
Proof.
  revert x y t0 t1. induction n as [|n IH]; intros x y t0 t1 Hx Hy Hg H0 H1 Hdet [k0 Hk0] [k1 Hk1]; [cbn in Hy; lia|].
  destruct (euclid_step x y t0 t1) as (E1&E2&E3&E4&Ht&Hdet'&Hx'&Hg'); try done; [lia|].
  pose proof (Z.div_mod x y ltac:(lia)) as Hdm.
  cbn [inv_loop]. rewrite E1, E2. cbn [mbind outcome_mbind]. rewrite E3. cbn [mbind outcome_mbind]. rewrite E4.
  set (t0' := t0 + x / y * t1) in *. set (x' := x mod y) in *.
  assert (Hc0 : t0' * x0 - x' = (k0 + x / y * k1) * 65537) by (unfold t0', x'; nia).
  destruct (Z.eqb_spec x' 1) as [Hone|Hne].
  { exists t0'. split; [done|]. split; [unfold is_u16; lia|]. exists (k0 + x / y * k1).
    unfold rep. rewrite (proj2 (Z.eqb_neq t0' 0)) by lia. lia. }
  destruct (euclid_step y x' t1 t0') as (E5&E6&E7&E8&Ht1&Hdet2&Hy'&Hg2); try lia; [by rewrite Z.gcd_comm|].
  pose proof (Z.div_mod y x' ltac:(lia)) as Hdm2.
  rewrite E5, E6. cbn [mbind outcome_mbind]. rewrite E7. cbn [mbind outcome_mbind]. rewrite E8.
  set (t1' := t1 + y / x' * t0') in *. set (y' := y mod x') in *.
  assert (Hc1 : t1' * x0 + y' = (k1 + y / x' * (k0 + x / y * k1)) * 65537) by (unfold t1', y'; nia).
  destruct (Z.eqb_spec y' 1) as [Hone|Hne1]; cbn [negb].
  { eexists. split; [done|]. apply minus_result; [lia|]. eexists. rewrite Z.sub_0_r, <-Hone. exact Hc1. }
  apply IH; try done; try lia.
  - split; [lia|]. pose proof (mod_halves y x' ltac:(lia)).
    rewrite Nat2Z.inj_succ, Z.pow_succ_r in Hy by lia. unfold y'. lia.
  - rewrite Z.gcd_comm. exact Hg2.
  - by eexists.
  - eexists. rewrite Z.sub_0_r. exact Hc1.
Qed.

(** [inv] returns for every argument, no division by zero, no overflow, and
    its loop ends within its fuel, with the inverse. *)
Lemma inv_total x : is_u16 x → ∃ y, inv x = Ret y ∧ (rep x * rep y) mod 65537 = 1 ∧ is_u16 y.
Proof.
  intros Hx. unfold is_u16, inv in *. destruct (Z.leb_spec x 1).
  { exists x. split; [done|]. split; [|lia]. assert (x = 0 ∨ x = 1) as [->| ->] by lia; done. }
  assert (Hr : rep x = x) by (unfold rep; by rewrite (proj2 (Z.eqb_neq x 0)) by lia).
  assert (Hg : Z.gcd 65537 x = 1) by (rewrite Z.gcd_comm; apply coprime_65537; lia).
  destruct (gcd_step 65537 x) as [Hy Hg']; try lia.
  rewrite Z.quot_div_nonneg, Z.rem_mod_nonneg by lia.
  pose proof (Z.div_mod 65537 x ltac:(lia)) as Hdm. pose proof (Z.mod_pos_bound 65537 x ltac:(lia)) as Hb.
  assert (Hq : 1 <= 65537 / x <= 32768) by nia.
  rewrite (wrap_small 16 (65537 / x)), (wrap_small 16 (65537 mod x)) by lia.
  assert (Hc : cong (65537 / x * x + 65537 mod x) 0) by (exists 1; lia).
  enough (∃ y, (if 65537 mod x =? 1 then Ret (low16 (1 - 65537 / x))
    else inv_loop 16 x (65537 mod x) 1 (65537 / x)) = Ret y ∧ is_u16 y ∧ cong (rep y * x) 1) as (y&?&?&Hc1).
  { exists y. split; [done|]. split; [|done]. rewrite Hr, Z.mul_comm. by apply cong_1. }
  destruct (Z.eqb_spec (65537 mod x) 1) as [E|E].
  - eexists. split; [done|]. apply minus_result; [lia|]. by rewrite E in Hc.
  - apply inv_loop_spec; try done; try lia; [by rewrite Z.gcd_comm|]. exists 0. lia.
Qed.

Lemma rep_range x : is_u16 x → 1 <= rep x <= 65536.
Proof. unfold is_u16, rep. intros. destruct (Z.eqb_spec x 0); lia. Qed.

Lemma rep_inj x y : is_u16 x → is_u16 y → rep x = rep y → x = y.
Proof. unfold is_u16, rep. intros ??. destruct (Z.eqb_spec x 0), (Z.eqb_spec y 0); lia. Qed.

Lemma low16_small x : is_u16 x → low16 x = x.
Proof. intros Hx. rewrite low16_mod. by apply Z.mod_small. Qed.

Lemma mul_u16 a b : is_u16 (mul a b).
Proof.
  unfold mul, is_u16, wrap. change (2 ^ 16) with 65536.
  destruct (negb _); [destruct (negb _)|]; apply Z.mod_pos_bound; lia.
Qed.

(** A product of two units is not a multiple of 65537. *)
Lemma product_unit a b : is_u16 a → is_u16 b → (rep a * rep b) mod 65537 ≠ 0.
Proof.
  intros Ha Hb H0. destruct (inv_total a Ha) as (y&_&Hy&_).
  assert (H1 : (rep b * ((rep a * rep y) mod 65537)) mod 65537 = 0).
  { rewrite Z.mul_mod_idemp_r by lia.
    replace (rep b * (rep a * rep y)) with (rep a * rep b * rep y) by lia.
    by rewrite <-Z.mul_mod_idemp_l, H0 by lia. }
  pose proof (rep_range b Hb). rewrite Hy, Z.mul_1_r, Z.mod_small in H1; lia.
Qed.

Lemma mul_rep a b : is_u16 a → is_u16 b → rep (mul a b) = (rep a * rep b) mod 65537.
Proof.
  intros Ha Hb. pose proof (product_unit a b Ha Hb) as Hu.
  unfold is_u16, rep, mul, wrap in *. change (2 ^ 16) with 65536.
  destruct (Z.eqb_spec a 0) as [->|Ha0]; destruct (Z.eqb_spec b 0) as [->|Hb0]; cbn [negb].
  - done.
  - rewrite <-(Z.mod_unique_pos (65536 * b) 65537 (b - 1) (65537 - b)) by lia.
    apply one_minus. lia.
  - rewrite <-(Z.mod_unique_pos (a * 65536) 65537 (a - 1) (65537 - a)) by lia.
    apply one_minus. lia.
  - rewrite low16_mod, Z.shiftr_div_pow2 by lia. change (2 ^ 16) with 65536.
    assert (Hp : 0 <= a * b < 65536 * 65536) by nia.
    pose proof (Z.div_mod (a * b) 65536 ltac:(lia)) as Hd.
    pose proof (Z.mod_pos_bound (a * b) 65536 ltac:(lia)) as Hlo.
    assert (Hhi : 0 <= a * b / 65536 < 65536) by (split; [apply Z.div_pos|apply Z.div_lt_upper_bound]; lia).
    rewrite Z.mod_mod, (Z.mod_small (a * b / 65536) 65536) by lia.
    set (hi := a * b / 65536) in *. set (lo := (a * b) mod 65536) in *.
    destruct (Z.ltb_spec lo hi); cbn [Z.b2z].
    + rewrite <-(Z.mod_unique_pos (a * b) 65537 (hi - 1) (lo - hi + 65537)) by lia.
      replace (lo - hi + 1) with (1 - (hi - lo)) by lia. rewrite one_minus by lia. lia.
    + assert (lo ≠ hi).
      { intros E. apply Hu. rewrite Hd, E. replace (65536 * hi + hi) with (hi * 65537) by lia. apply Z_mod_mult. }
      rewrite <-(Z.mod_unique_pos (a * b) 65537 hi (lo - hi)) by lia.
      rewrite Z.add_0_r, Z.mod_small by lia. destruct (Z.eqb_spec (lo - hi) 0); lia.
Qed.

Lemma mul_comm a b : is_u16 a → is_u16 b → mul a b = mul b a.
Proof.
  intros Ha Hb. apply rep_inj; [apply mul_u16..|]. rewrite !mul_rep by done. by rewrite Z.mul_comm.
Qed.

Lemma mul_assoc a b c : is_u16 a → is_u16 b → is_u16 c → mul (mul a b) c = mul a (mul b c).
Proof.
  intros Ha Hb Hc. apply rep_inj; [apply mul_u16..|].
  rewrite (mul_rep (mul a b)), (mul_rep a (mul b c)), !mul_rep by (done || apply mul_u16).
  rewrite Z.mul_mod_idemp_l, Z.mul_mod_idemp_r by lia. by rewrite Z.mul_assoc.
Qed.

Lemma mul_1_r a : is_u16 a → mul a 1 = a.
Proof.
  intros Ha. apply rep_inj; [apply mul_u16|done|]. rewrite mul_rep by done. unfold rep at 2. cbn.
  rewrite Z.mul_1_r. apply Z.mod_small. pose proof (rep_range a Ha). lia.
Qed.

Lemma inv_spec x : is_u16 x → ∃ y, inv x = Ret y ∧ mul x y = 1 ∧ is_u16 y.
Proof.
  intros Hx. destruct (inv_total x Hx) as (y&Hi&Hy&Hu). exists y. split; [done|]. split; [|done].
  apply rep_inj; [apply mul_u16|done|]. by rewrite mul_rep.
Qed.

(** Undoing a multiplication. *)
Lemma mul_cancel a k y : is_u16 a → is_u16 k → is_u16 y → mul k y = 1 → mul (mul a k) y = a.
Proof. intros Ha Hk Hy H. rewrite mul_assoc, H by done. by apply mul_1_r. Qed.

Lemma add_cancel a k : is_u16 a → u16 (u16 (a + k) + neg16 k) = a.
Proof.
  intros Ha. unfold neg16, wrap. rewrite Z.add_mod_idemp_l, Z.add_mod_idemp_r by done.
  replace (a + k + - k) with a by lia. by apply Z.mod_small.
Qed.

(** ** One round and its inverse *)

Definition quad_ok (x : quad) : Prop := is_u16 (x1 x) ∧ is_u16 (x2 x) ∧ is_u16 (x3 x) ∧ is_u16 (x4 x).

(** The key mixing layer, the multiplication-addition layer and the exchange
    of the two words in the middle. *)
Definition mix (z1 z2 z3 z4 : Z) (x : quad) : quad :=
  Quad (mul (x1 x) z1) (u16 (x2 x + z2)) (u16 (x3 x + z3)) (mul (x4 x) z4).
Definition ma (z5 z6 : Z) (x : quad) : quad :=
  let s := mul (Z.lxor (x1 x) (x3 x)) z5 in
  let t1 := mul (u16 (s + Z.lxor (x2 x) (x4 x))) z6 in
  let t2 := u16 (t1 + s) in
  Quad (Z.lxor (x1 x) t1) (Z.lxor (x2 x) t2) (Z.lxor (x3 x) t1) (Z.lxor (x4 x) t2).
Definition exchange (x : quad) : quad := Quad (x1 x) (x3 x) (x2 x) (x4 x).

Lemma u16_range x : is_u16 (u16 x).
Proof. apply (wrap_range 16 x). lia. Qed.

Lemma lxor_range w a b : 0 < w → 0 <= a < 2 ^ w → 0 <= b < 2 ^ w → 0 <= Z.lxor a b < 2 ^ w.
Proof.
  intros Hw Ha Hb. assert (0 <= Z.lxor a b) by (apply Z.lxor_nonneg; lia). split; [done|].
  destruct (Z.eq_dec (Z.lxor a b) 0) as [->|]; [lia|]. apply Z.log2_lt_pow2; [lia|].
  pose proof (Z.log2_lxor a b ltac:(lia) ltac:(lia)).
  assert (Hlog : ∀ c, 0 <= c < 2 ^ w → Z.log2 c < w).
  { intros c Hc. destruct (Z.eq_dec c 0) as [->|]; [by cbn|]. apply Z.log2_lt_pow2; lia. }
  pose proof (Hlog a Ha). pose proof (Hlog b Hb). lia.
Qed.

Lemma lxor_u16 a b : is_u16 a → is_u16 b → is_u16 (Z.lxor a b).
Proof. intros Ha Hb. by apply (lxor_range 16). Qed.

Lemma mix_ok z1 z2 z3 z4 x : quad_ok (mix z1 z2 z3 z4 x).
Proof. unfold quad_ok, mix. cbn. split_and!; first [apply mul_u16|apply u16_range]. Qed.

Lemma exchange_ok x : quad_ok x → quad_ok (exchange x).
Proof. intros (?&?&?&?). unfold quad_ok. cbn. by split_and!. Qed.

Lemma exchange_exchange x : exchange (exchange x) = x.
Proof. by destruct x. Qed.

Lemma ma_ok z5 z6 x : quad_ok x → quad_ok (ma z5 z6 x).
Proof.
  intros (?&?&?&?). unfold quad_ok, ma. cbn. split_and!; apply lxor_u16; try done;
    first [apply mul_u16|apply u16_range].
Qed.

(** The layer is its own inverse: it adds the same [t1] and [t2] twice. *)
Lemma ma_ma z5 z6 x : ma z5 z6 (ma z5 z6 x) = x.
Proof.
  assert (Hx : ∀ a b t, Z.lxor (Z.lxor a t) (Z.lxor b t) = Z.lxor a b).
  { intros a b t. rewrite (Z.lxor_comm b t), Z.lxor_assoc, <-(Z.lxor_assoc t t b), Z.lxor_nilpotent.
    by rewrite Z.lxor_0_l. }
  assert (Ht : ∀ a t, Z.lxor (Z.lxor a t) t = a).
  { intros a t. by rewrite Z.lxor_assoc, Z.lxor_nilpotent, Z.lxor_0_r. }
  destruct x as [a b c d]. unfold ma. cbn [x1 x2 x3 x4]. rewrite !Hx, !Ht. done.
Qed.

Lemma round_layers z1 z2 z3 z4 z5 z6 x : quad_ok x →
  cipher_round z1 z2 z3 z4 z5 z6 x = exchange (ma z5 z6 (mix z1 z2 z3 z4 x)).
Proof.
  intros (H1&H2&H3&H4). unfold cipher_round, exchange, ma, mix. cbn [x1 x2 x3 x4].
  rewrite !low16_small by (first [done|apply u16_range|apply lxor_u16; [apply mul_u16|apply u16_range]]).
  f_equal. apply Z.lxor_comm.
Qed.

Lemma out_layers z1 z2 z3 z4 x : quad_ok x → cipher_out z1 z2 z3 z4 x = mix z1 z2 z3 z4 (exchange x).
Proof. intros (H1&H2&H3&H4). unfold cipher_out, mix, exchange. cbn. by rewrite !low16_small. Qed.

Lemma round_ok z1 z2 z3 z4 z5 z6 x : quad_ok x → quad_ok (cipher_round z1 z2 z3 z4 z5 z6 x).
Proof. intros Hx. rewrite round_layers by done. apply exchange_ok, ma_ok, mix_ok. Qed.

Lemma out_ok z1 z2 z3 z4 x : quad_ok x → quad_ok (cipher_out z1 z2 z3 z4 x).
Proof. intros Hx. rewrite out_layers by done. apply mix_ok. Qed.

(** The keys of a mixing layer and those that undo it. *)
Definition inverse_keys (k k' : quad) : Prop :=
  quad_ok k ∧ inv (x1 k) = Ret (x1 k') ∧ x2 k' = neg16 (x2 k) ∧ x3 k' = neg16 (x3 k) ∧ inv (x4 k) = Ret (x4 k').

Lemma inv_undoes k y : is_u16 k → inv k = Ret y → mul k y = 1 ∧ is_u16 y.
Proof. intros Hk Hi. destruct (inv_spec k Hk) as (y'&Hi'&?&?). rewrite Hi in Hi'. by injection Hi' as ->. Qed.

Lemma mix_undo k k' x : inverse_keys k k' → quad_ok x →
  mix (x1 k') (x2 k') (x3 k') (x4 k') (mix (x1 k) (x2 k) (x3 k) (x4 k) x) = x.
Proof.
  intros ((Hk1&_&_&Hk4)&H1&H2&H3&H4) (?&?&?&?).
  destruct (inv_undoes _ _ Hk1 H1) as [? ?], (inv_undoes _ _ Hk4 H4) as [? ?].
  destruct x as [a b c d]. unfold mix. cbn [x1 x2 x3 x4] in *.
  by rewrite H2, H3, !mul_cancel, !add_cancel.
Qed.

Lemma mix_exchange_undo k k' x : inverse_keys k k' → quad_ok x →
  mix (x1 k') (x3 k') (x2 k') (x4 k') (exchange (mix (x1 k) (x2 k) (x3 k) (x4 k) x)) = exchange x.
Proof.
  intros Hk Hx. pose proof (mix_undo k k' x Hk Hx) as H. exact (f_equal exchange H).
Qed.

(** Undoing the last layer, a round in the middle, and the first layer. *)
Section undo.
Context (j5 j6 : Z) (j k k' : quad).
Context (Hk : inverse_keys k k').

#[local] Abbreviation round j := (cipher_round (x1 j) (x2 j) (x3 j) (x4 j)).

Lemma undo_out x : quad_ok x →
  round k' j5 j6 (cipher_out (x1 k) (x2 k) (x3 k) (x4 k) (round j j5 j6 x)) =
  exchange (mix (x1 j) (x2 j) (x3 j) (x4 j) x).
Proof.
  intros Hx. rewrite (round_layers _ _ _ _ _ _ x), out_layers by (done || apply exchange_ok, ma_ok, mix_ok).
  rewrite exchange_exchange, round_layers by apply mix_ok.
  rewrite mix_undo, ma_ma by (done || apply ma_ok, mix_ok). done.
Qed.

Lemma undo_round x : quad_ok x →
  cipher_round (x1 k') (x3 k') (x2 k') (x4 k') j5 j6
    (exchange (mix (x1 k) (x2 k) (x3 k) (x4 k) (round j j5 j6 x))) =
  exchange (mix (x1 j) (x2 j) (x3 j) (x4 j) x).
Proof.
  intros Hx. rewrite (round_layers (x1 j)) by done.
  rewrite round_layers by apply exchange_ok, mix_ok.
  rewrite mix_exchange_undo by (done || apply exchange_ok, ma_ok, mix_ok).
  by rewrite exchange_exchange, ma_ma.
Qed.

Lemma undo_in x : quad_ok x →
  cipher_out (x1 k') (x2 k') (x3 k') (x4 k') (exchange (mix (x1 k) (x2 k) (x3 k) (x4 k) x)) = x.
Proof.
  intros Hx. rewrite out_layers, exchange_exchange by apply exchange_ok, mix_ok. by apply mix_undo.
Qed.
End undo.

(** ** The key schedules *)

(** The reference: a user key is a number of 128 bits, its most significant
    word first; the encryption keys are the words of the key, of the key
    rotated left by 25 bits, and so on. *)
Definition key_value (g : list Z) : Z := foldl (λ v w, v * 65536 + w) 0 g.
Fixpoint key_words (n : nat) (v : Z) : list Z :=
  match n with O => [] | S n' => key_words n' (v / 65536) ++ [v mod 65536] end.
Definition rotate25 (v : Z) : Z := v * 2 ^ 25 mod 2 ^ 128 + v / 2 ^ 103.
Fixpoint key_groups (n : nat) (v : Z) : list Z :=
  match n with O => [] | S n' => key_words 8 v ++ key_groups n' (rotate25 v) end.

(** The same rotation on words. *)
Definition next_word (a b : Z) : Z := u16 (Z.lor (Z.shiftl a 9) (Z.shiftr b 7)).
Definition next_group (g : list Z) : list Z :=
  let w i := g !!! i in
  [next_word (w 1%nat) (w 2%nat); next_word (w 2%nat) (w 3%nat); next_word (w 3%nat) (w 4%nat);
   next_word (w 4%nat) (w 5%nat); next_word (w 5%nat) (w 6%nat); next_word (w 6%nat) (w 7%nat);
   next_word (w 7%nat) (w 0%nat); next_word (w 0%nat) (w 1%nat)].
Fixpoint word_groups (n : nat) (g : list Z) : list Z :=
  match n with O => [] | S n' => g ++ word_groups n' (next_group g) end.

Ltac list_cases H :=
  repeat match type of H with
  | length ?l = S _ => destruct l as [|? l]; [discriminate H|cbn [length] in H; apply eq_add_S in H]
  | length ?l = O => destruct l; [clear H|discriminate H]
  end.

Lemma en_key_words userkey Z_ : length userkey = 8%nat → length Z_ = 52%nat →
  en_key_idea userkey Z_ = Ret (take 52 (word_groups 7 userkey)).
Proof.
  intros Hu HZ. list_cases Hu. list_cases HZ.
  unfold en_key_idea. cbv -[Z.lor Z.shiftl Z.shiftr wrap]. reflexivity.
Qed.

Lemma next_word_eq a b : is_u16 a → is_u16 b → next_word a b = a mod 128 * 512 + b / 128.
Proof.
  unfold is_u16, next_word. intros Ha Hb.
  assert (Hb7 : 0 <= b / 128 < 512) by (split; [apply Z.div_pos|apply Z.div_lt_upper_bound]; lia).
  rewrite Z.shiftr_div_pow2 by lia. change (2 ^ 7) with 128.
  rewrite <-Z.lxor_lor, <-Z.add_nocarry_lxor by (apply land_shiftl_small; [lia|exact Hb7]).
  rewrite Z.shiftl_mul_pow2 by lia. unfold wrap. change (2 ^ 16) with (128 * 512). change (2 ^ 9) with 512.
  pose proof (Z.div_mod a 128 ltac:(lia)). pose proof (Z.mod_pos_bound a 128 ltac:(lia)).
  symmetry. apply (Z.mod_unique_pos _ _ (a / 128)); lia.
Qed.

Definition group_ok (g : list Z) : Prop := length g = 8%nat ∧ Forall is_u16 g.

Lemma key_words_value g : Forall is_u16 g → key_words (length g) (key_value g) = g.
Proof.
  unfold key_value. induction g as [|w g IH] using rev_ind; [done|].
  intros [Hg Hw]%Forall_app. apply Forall_cons in Hw as [Hw _]. unfold is_u16 in Hw.
  rewrite length_app, Nat.add_comm, foldl_app. cbn [length Nat.add key_words foldl].
  rewrite Z.div_add_l by lia. rewrite (Z.div_small w) by lia. rewrite Z.add_0_r, IH by exact Hg.
  by rewrite Z.add_comm, Z_mod_plus_full, Z.mod_small.
Qed.

Lemma next_group_value g : group_ok g → key_value (next_group g) = rotate25 (key_value g).
Proof.
  intros [Hl Hg]. list_cases Hl. rewrite !Forall_cons in Hg. destruct_all.
  unfold next_group. cbn [lookup_total list_lookup_total]. rewrite !next_word_eq by done.
  unfold is_u16 in *.
  repeat match goal with
  | H : 0 <= ?w < 65536 |- _ =>
      lazymatch goal with
      | _ : w = 128 * (w / 128) + w mod 128 |- _ => fail
      | _ => pose proof (Z.div_mod w 128 ltac:(lia)); pose proof (Z.mod_pos_bound w 128 ltac:(lia))
      end
  end.
  unfold rotate25, key_value. cbn [foldl].
  set (low := z0 mod 128 * 2 ^ 96 + z1 * 2 ^ 80 + z2 * 2 ^ 64 + z3 * 2 ^ 48 + z4 * 2 ^ 32 + z5 * 2 ^ 16 + z6).
  set (top := z * 512 + z0 / 128).
  match goal with |- _ = ?v * 2 ^ 25 mod _ + _ => replace v with (top * 2 ^ 103 + low) by (unfold top, low; lia) end.
  replace ((top * 2 ^ 103 + low) * 2 ^ 25) with (low * 2 ^ 25 + top * 2 ^ 128) by lia.
  assert (Hlow : 0 <= low < 2 ^ 103) by (unfold low; lia).
  rewrite Z_mod_plus_full, (Z.mod_small (low * 2 ^ 25)), Z.div_add_l, (Z.div_small low), Z.add_0_r by lia.
  unfold top, low. lia.
Qed.

Lemma next_group_ok g : group_ok (next_group g).
Proof. split; [done|]. repeat constructor; apply u16_range. Qed.

Lemma key_groups_words n g : group_ok g → key_groups n (key_value g) = word_groups n g.
Proof.
  revert g. induction n as [|n IH]; intros g Hg; cbn [key_groups word_groups]; [done|].
  rewrite <-next_group_value, IH by (done || apply next_group_ok).
  f_equal. destruct Hg as [Hl Hg]. pose proof (key_words_value g Hg) as H. by rewrite Hl in H.
Qed.

Lemma word_groups_ok n g : group_ok g →
  length (word_groups n g) = (8 * n)%nat ∧ Forall is_u16 (word_groups n g).
Proof.
  revert g. induction n as [|n IH]; intros g [Hl Hg]; cbn [word_groups]; [done|].
  destruct (IH (next_group g) (next_group_ok g)) as [Hl' Hg'].
  rewrite length_app, Hl, Hl'. split; [lia|by apply Forall_app].
Qed.

(** C28. [en_key_idea] computes the key schedule of the cipher: the 52
    encryption keys are the 16-bit words of the 128-bit user key, then of the
    key rotated left by 25 bits, by 50 bits and so on, whatever the array
    held; no access leaves it. *)
Theorem en_key_rotates userkey Z_ :
  length userkey = 8%nat → Forall is_u16 userkey → length Z_ = IDEAKEYLEN →
  en_key_idea userkey Z_ = Ret (take IDEAKEYLEN (key_groups 7 (key_value userkey))).
Proof.
  intros Hl Hu HZ. rewrite key_groups_words by done. by apply en_key_words.
Qed.

(** *** The decryption keys *)

Definition sched_ok (z : list Z) : Prop := length z = IDEAKEYLEN ∧ Forall is_u16 z.
Definition quad_list (k : quad) : list Z := [x1 k; x2 k; x3 k; x4 k].

(** The cipher with [n] rounds. *)
Definition cipher (n : nat) (x : quad) (Z_ : list Z) : outcome quad :=
  '(Z_, x) ← cipher_rounds n Z_ x;
  match Z_ with
  | z1 :: z2 :: z3 :: z4 :: _ => Ret (cipher_out z1 z2 z3 z4 x)
  | _ => Crash
  end.

Lemma neg16_u16 x : is_u16 (neg16 x).
Proof. apply u16_range. Qed.

Lemma inverse_keys_ex k : quad_ok k → ∃ k', inverse_keys k k' ∧ quad_ok k'.
Proof.
  intros Hk. pose proof Hk as (H1&H2&H3&H4).
  destruct (inv_spec _ H1) as (y1&E1&_&?), (inv_spec _ H4) as (y4&E4&_&?).
  exists (Quad y1 (neg16 (x2 k)) (neg16 (x3 k)) y4). split; [done|].
  unfold quad_ok. cbn. split_and!; try done; apply neg16_u16.
Qed.

Lemma quad_list_ok k : Forall is_u16 (quad_list k) ↔ quad_ok k.
Proof. unfold quad_list, quad_ok. rewrite !Forall_cons. split; [by intros (?&?&?&?&?)|]. by intros (?&?&?&?). Qed.

(** Four words read at once. *)
Lemma take_quad z n : length z = (4 + n)%nat → Forall is_u16 z →
  ∃ k z', z = quad_list k ++ z' ∧ quad_ok k ∧ length z' = n ∧ Forall is_u16 z'.
Proof.
  intros Hl Hz. destruct z as [|a [|b [|c [|d z']]]]; try discriminate Hl.
  exists (Quad a b c d), z'. split; [done|]. rewrite <-quad_list_ok.
  change (a :: b :: c :: d :: z') with (quad_list (Quad a b c d) ++ z') in Hz.
  apply Forall_app in Hz as [? ?]. cbn in Hl. by split_and!; [|lia|].
Qed.

Lemma next_run x r t : next (Keys (x :: r) t) = Ret (x, Keys r t).
Proof. done. Qed.

Lemma push_run x r t : (length t < 52)%nat → push x (Keys r t) = Ret ((), Keys r (x :: t)).
Proof. intros Ht. unfold push, IDEAKEYLEN. cbn [temp]. by destruct (Nat.ltb_spec (length t) 52); [|lia]. Qed.

Lemma de_ma_run a b r t : (length t + 2 <= 52)%nat →
  de_ma (Keys (a :: b :: r) t) = Ret ((), Keys r (a :: b :: t)).
Proof.
  intros Ht. unfold de_ma.
  rewrite (bind_ret _ _ _ _ _ (next_run _ _ _)), (bind_ret _ _ _ _ _ (next_run _ _ _)).
  rewrite (bind_ret _ _ _ _ _ (push_run b r t ltac:(lia))). apply push_run. cbn. lia.
Qed.

Definition de_words (swap : bool) (k : quad) : list Z :=
  [x1 k; if swap then x3 k else x2 k; if swap then x2 k else x3 k; x4 k].

Lemma de_mix_run swap k k' r t : inverse_keys k k' → (length t + 4 <= 52)%nat →
  de_mix swap (Keys (quad_list k ++ r) t) = Ret ((), Keys r (de_words swap k' ++ t)).
Proof.
  intros (_&H1&H2&H3&H4) Ht. unfold de_mix, quad_list. cbn [app].
  assert (Hlift : ∀ (o : outcome Z) y s, o = Ret y → lift (S := keys) o s = Ret (y, s)) by (by intros ? ? ? ->).
  rewrite (bind_ret _ _ _ _ _ (next_run _ _ _)), (bind_ret _ _ _ _ _ (Hlift _ _ _ H1)).
  rewrite 3!(bind_ret _ _ _ _ _ (next_run _ _ _)), (bind_ret _ _ _ _ _ (Hlift _ _ _ H4)).
  rewrite (bind_ret _ _ _ _ _ (push_run _ _ t ltac:(lia))).
  destruct swap.
  - rewrite M_assoc, (bind_ret _ _ _ _ _ (push_run _ _ (_ :: t) ltac:(cbn; lia))).
    rewrite (bind_ret _ _ _ _ _ (push_run _ _ (_ :: _ :: t) ltac:(cbn; lia))).
    rewrite push_run by (cbn; lia). unfold de_words. by rewrite H2, H3.
  - rewrite M_assoc, (bind_ret _ _ _ _ _ (push_run _ _ (_ :: t) ltac:(cbn; lia))).
    rewrite (bind_ret _ _ _ _ _ (push_run _ _ (_ :: _ :: t) ltac:(cbn; lia))).
    rewrite push_run by (cbn; lia). unfold de_words. by rewrite H2, H3.
Qed.

(** The keys [t], [n] rounds of them, undo [f] followed by the key mixing
    layer [k]. *)
Definition decrypts (n : nat) (t : list Z) (f : quad → quad) (k : quad) : Prop :=
  length t = (6 * n + 4)%nat ∧ Forall is_u16 t ∧
  ∀ x, quad_ok x → quad_ok (f x) ∧
    cipher n (exchange (mix (x1 k) (x2 k) (x3 k) (x4 k) (f x))) t = Ret x.

Lemma de_words_ok swap k : quad_ok k → Forall is_u16 (de_words swap k).
Proof. intros (?&?&?&?). unfold de_words. destruct swap; by repeat (apply Forall_cons; split). Qed.

Lemma decrypts_first k k' : inverse_keys k k' → quad_ok k' → decrypts 0 (de_words false k') id k.
Proof.
  intros Hk Hk'. split; [done|]. split; [by apply de_words_ok|]. intros x Hx. split; [done|].
  cbn. f_equal. by apply undo_in.
Qed.

#[local] Abbreviation round_of k a b := (cipher_round (x1 k) (x2 k) (x3 k) (x4 k) a b).

Lemma decrypts_next n t f k k2 k2' a b : decrypts n t f k → inverse_keys k2 k2' → quad_ok k2' →
  is_u16 a → is_u16 b →
  decrypts (S n) (de_words true k2' ++ a :: b :: t) (λ x, round_of k a b (f x)) k2.
Proof.
  intros (Hl&Ht&Hd) Hk Hk' Ha Hb. split; [|split].
  - cbn. lia.
  - apply Forall_app. split; [by apply de_words_ok|by repeat (apply Forall_cons; split)].
  - intros x Hx. destruct (Hd x Hx) as [Hf Hc]. split; [by apply round_ok|].
    rewrite <-Hc. cbn. by rewrite undo_round.
Qed.

(** The loop of [de_key_idea] builds keys that undo the rounds whose keys it
    reads. *)
Lemma de_loop_spec n m z r t f k : decrypts m t f k → quad_ok k → Forall is_u16 z →
  length z = (6 * n + r)%nat → (6 * (m + n) + 4 <= 52)%nat →
  ∃ t' z' f' k', de_loop n (Keys z t) = Ret ((), Keys z' t') ∧ length z' = r ∧ Forall is_u16 z' ∧
    decrypts (m + n) t' f' k' ∧ quad_ok k' ∧
    ∀ x, cipher_rounds n (quad_list k ++ z) (f x) = Ret (quad_list k' ++ z', f' x).
Proof.
  revert m z t f k. induction n as [|n IH]; intros m z t f k Hd Hk Hz Hl Hle.
  - exists t, z, f, k. rewrite Nat.add_0_r. done.
  - destruct z as [|a [|b z]]; try (cbn in Hl; lia). apply Forall_cons in Hz as [Ha [Hb Hz]%Forall_cons].
    destruct (take_quad z (6 * n + r)) as (k2&z1&->&Hk2&Hl1&Hz1); [cbn in Hl; lia|done|].
    destruct (inverse_keys_ex k2 Hk2) as (k2'&Hinv&Hk2').
    pose proof (decrypts_next _ _ _ _ _ _ a b Hd Hinv Hk2' Ha Hb) as Hd2.
    destruct (IH (S m) z1 _ _ _ Hd2 Hk2 Hz1 Hl1) as (t'&z'&f'&k'&Hr&?&?&?&?&Hc); [lia|].
    exists t', z', f', k'. rewrite <-Nat.add_succ_comm. split; [|done].
    destruct Hd as (Hlt&_). cbn [de_loop].
    rewrite (bind_ret _ _ _ _ _ (de_ma_run a b _ t ltac:(lia))).
    rewrite (bind_ret _ _ _ _ _ (de_mix_run true _ _ z1 (a :: b :: t) Hinv ltac:(cbn; lia))). exact Hr.
Qed.

Lemma cipher_rounds_add n m z x : cipher_rounds (n + m) z x =
  '(z, x) ← cipher_rounds n z x; cipher_rounds m z x.
Proof.
  revert z x. induction n as [|n IH]; intros z x; [done|]. cbn.
  destruct z as [|? [|? [|? [|? [|? [|? z]]]]]]; try done.
Qed.

(** [de_key_idea] turns a key schedule into one that undoes the cipher. *)
Lemma de_key_undoes z : sched_ok z → ∃ d, de_key_idea z = Ret d ∧ sched_ok d ∧
  ∀ x, quad_ok x → ∃ y, cipher_idea x z = Ret y ∧ quad_ok y ∧ cipher_idea y d = Ret x.
Proof.
  intros [Hl Hz]. destruct (take_quad z 48 Hl Hz) as (k&z1&->&Hk&Hl1&Hz1).
  destruct (inverse_keys_ex k Hk) as (k'&Hinv&Hk').
  pose proof (decrypts_first k k' Hinv Hk') as Hd.
  destruct (de_loop_spec 7 0 z1 6 _ _ _ Hd Hk Hz1 Hl1) as (t&z2&f&k8&Hloop&Hl2&Hz2&Hd8&Hk8&Hc); [lia|].
  destruct z2 as [|a [|b z2]]; try discriminate Hl2. apply Forall_cons in Hz2 as [Ha [Hb Hz2]%Forall_cons].
  destruct (take_quad z2 0) as (k9&z3&->&Hk9&Hl3&_); [cbn in Hl2; lia|done|].
  destruct z3; [|discriminate Hl3]. rewrite app_nil_r in *.
  destruct (inverse_keys_ex k9 Hk9) as (k9'&Hinv9&Hk9').
  destruct Hd8 as (Hlt&Ht&Hd8). cbn in Hlt.
  exists (de_words false k9' ++ a :: b :: t). split; [|split].
  - unfold de_key_idea, mbind at 1, outcome_mbind.
    rewrite (bind_ret _ _ _ _ _ (de_mix_run false _ _ z1 [] Hinv ltac:(cbn; lia))), app_nil_r.
    rewrite (bind_ret _ _ _ _ _ Hloop), (bind_ret _ _ _ _ _ (de_ma_run a b _ t ltac:(lia))).
    pose proof (de_mix_run false _ _ [] (a :: b :: t) Hinv9 ltac:(cbn; lia)) as Hm.
    rewrite app_nil_r in Hm. by rewrite Hm.
  - split; [unfold IDEAKEYLEN; cbn; lia|]. apply Forall_app. split; [by apply de_words_ok|by repeat (apply Forall_cons; split)].
  - intros x Hx. destruct (Hd8 x Hx) as [Hf Hcd]. specialize (Hc x).
    assert (Hrounds : cipher_rounds 8 (quad_list k ++ z1) x = Ret (quad_list k9, round_of k8 a b (f x))).
    { change (cipher_rounds (7 + 1) (quad_list k ++ z1) (id x) = Ret (quad_list k9, round_of k8 a b (f x))).
      rewrite cipher_rounds_add, Hc. cbn. done. }
    eexists. split; [unfold cipher_idea; change ROUNDS with 8%nat; by rewrite Hrounds|].
    split; [apply out_ok; by apply round_ok|]. rewrite <-Hcd. cbn. by rewrite undo_out.
Qed.

(** ** Blocks *)

Definition block (s : bytes) : Prop := length s = 8%nat ∧ Forall is_byte s.

Lemma quad_of_block s : block s → quad_ok (quad_of s) ∧ quad_bytes (quad_of s) = s.
Proof.
  intros [Hl Hs]. list_cases Hl. rewrite !Forall_cons in Hs. destruct_all.
  unfold quad_of, quad_bytes, quad_ok. cbn [take drop x1 x2 x3 x4].
  assert (Hw : ∀ a b, is_byte a → is_byte b → is_u16 (of_le [a; b]) ∧ to_le 2 (of_le [a; b]) = [a; b]).
  { intros a b Ha Hb. split; [|apply (to_le_of_le [a; b]); by repeat (apply Forall_cons; split)].
    apply (of_le_range [a; b]). by repeat (apply Forall_cons; split). }
  split; [split_and!; by apply Hw|]. by rewrite !(λ a b Ha Hb, proj2 (Hw a b Ha Hb)).
Qed.

Lemma quad_bytes_ok q : quad_ok q → block (quad_bytes q) ∧ quad_of (quad_bytes q) = q.
Proof.
  intros (H1&H2&H3&H4). split.
  - split; [done|]. unfold quad_bytes. rewrite !Forall_app. split_and!; apply to_le_bytes.
  - assert (Hw : ∀ x, is_u16 x → of_le (to_le 2 x) = x) by (intros x Hx; by apply of_le_to_le).
    destruct q as [a b c d]. unfold quad_of, quad_bytes. cbn [x1 x2 x3 x4] in *.
    change (Quad (of_le (to_le 2 a)) (of_le (to_le 2 b)) (of_le (to_le 2 c)) (of_le (to_le 2 d)) = Quad a b c d).
    by rewrite !Hw.
Qed.

(** Two key schedules, the second of which undoes the first. *)
Definition key_pair (z d : list Z) : Prop :=
  ∀ x, quad_ok x → ∃ y, cipher_idea x z = Ret y ∧ quad_ok y ∧ cipher_idea y d = Ret x.

(** The inversion of a short tail. *)
Definition flip (b : Z) : Z := 255 - b.

Lemma flip_word a b : is_byte a → is_byte b → to_le 2 (u16 (Z.lnot (of_le [a; b]))) = [flip a; flip b].
Proof.
  unfold is_byte, flip. intros Ha Hb. unfold Z.lnot, wrap. change (2 ^ 16) with 65536. cbn [of_le to_le].
  rewrite <-(Z.mod_unique_pos (Z.pred (- (a + 256 * (b + 256 * 0)))) 65536 (-1) ((255 - a) + 256 * (255 - b))) by lia.
  rewrite <-(Z.div_unique_pos (255 - a + 256 * (255 - b)) 256 (255 - b) (255 - a)) by lia.
  rewrite <-(Z.mod_unique_pos (255 - a + 256 * (255 - b)) 256 (255 - b) (255 - a)) by lia.
  by rewrite Z.mod_small by lia.
Qed.

Lemma flip_flip (s : list Z) : flip <$> (flip <$> s) = s.
Proof. induction s as [|b s IH]; cbn; [done|]. rewrite IH. f_equal. unfold flip. lia. Qed.

Lemma flip_bytes (s : list Z) : Forall is_byte s → Forall is_byte (flip <$> s).
Proof. intros Hs. apply Forall_fmap. eapply Forall_impl; [done|]. unfold is_byte, flip. cbn. lia. Qed.

Lemma invert_tail_ok s stack_in stack_out : (length s <= 4)%nat → Forall is_byte s →
  block stack_in → block stack_out →
  ∃ w, invert_tail (length s) 0 (words16 (s ++ drop (length s) stack_in)) (words16 stack_out) = Ret w ∧
    take (length s) (w ≫= to_le 2) = flip <$> s.
Proof.
  intros Hl Hs [Hli Hi] [Hlo _]. list_cases Hli. list_cases Hlo.
  rewrite !Forall_cons in Hi. destruct_all.
  destruct s as [|a [|b [|c [|d [|e s]]]]]; [..|cbn in Hl; lia];
    rewrite ?Forall_cons in Hs; destruct_all; (eexists; split; [reflexivity|]);
    unfold words16, quad_of; cbn [app drop length take x1 x2 x3 x4 insert list_insert mbind list_bind fmap list_fmap];
    rewrite ?flip_word by done; done.
Qed.

(** One turn of the loop of [idea_encrypt_block]. *)
Lemma loop_end fuel K si so s j : idea_encrypt_loop fuel K si so s j j = Ret [].
Proof. destruct fuel; cbn [idea_encrypt_loop]; by rewrite Z.ltb_irrefl. Qed.

Lemma loop_block fuel K si so b s j size x y : block b → block si →
  0 <= j → size = j + Z.of_nat (length (b ++ s)) → size < 2 ^ 31 → quad_bytes x = b → quad_ok x →
  cipher_idea x K = Ret y →
  idea_encrypt_loop (S fuel) K si so (b ++ s) j size =
    (out ← idea_encrypt_loop fuel K b (quad_bytes y) s (j + 8) size; Ret (quad_bytes y ++ out)).
Proof.
  intros [Hb Hbb] [Hsi _] Hj Hsz Hmax Hx Hxo Hy. rewrite length_app, Hb in Hsz. cbn [idea_encrypt_loop].
  rewrite (proj2 (Z.ltb_lt j size)) by lia.
  rewrite (wrap_small 32 (size - j)) by lia.
  replace (if IDEABLOCKSIZE <? size - j then IDEABLOCKSIZE else size - j) with 8
    by (unfold IDEABLOCKSIZE; destruct (Z.ltb_spec 8 (size - j)); lia).
  rewrite (wrap_small 32 (j + 8)), (proj2 (Z.ltb_ge _ _)) by (rewrite ?length_app; lia).
  change (Z.to_nat 8) with 8%nat. change (8 =? 8) with true. cbn iota.
  rewrite take_app_length', drop_app_length', (drop_ge si), app_nil_r by lia.
  subst b. destruct (quad_bytes_ok x Hxo) as [_ ->]. rewrite Hy. cbn [mbind outcome_mbind].
  by rewrite take_ge.
Qed.

Lemma loop_tail fuel K si so s j size : (0 < length s <= 4)%nat → Forall is_byte s → block si → block so →
  0 <= j → size = j + Z.of_nat (length s) → size < 2 ^ 31 →
  idea_encrypt_loop (S fuel) K si so s j size = Ret (flip <$> s).
Proof.
  intros Hl Hs Hsi Hso Hj Hsz Hmax. cbn [idea_encrypt_loop].
  rewrite (proj2 (Z.ltb_lt j size)) by lia.
  rewrite (wrap_small 32 (size - j)) by lia.
  replace (if IDEABLOCKSIZE <? size - j then IDEABLOCKSIZE else size - j) with (Z.of_nat (length s))
    by (unfold IDEABLOCKSIZE; destruct (Z.ltb_spec 8 (size - j)); lia).
  rewrite (wrap_small 32 (j + _)) by lia. rewrite Z.ltb_irrefl, Nat2Z.id, (proj2 (Z.eqb_neq _ 8)), (take_ge s), (drop_ge s), <-Hsz by lia.
  destruct (invert_tail_ok s si so ltac:(lia) Hs Hsi Hso) as (w&->&Hw). cbn [mbind outcome_mbind].
  rewrite loop_end. cbn [mbind outcome_mbind]. by rewrite Hw, app_nil_r.
Qed.

Lemma loop_roundtrip z d : key_pair z d → ∀ fuel s j size si so,
  Forall is_byte s → block si → block so → 0 <= j → size = j + Z.of_nat (length s) → size < 2 ^ 31 →
  (length s mod 8 <= 4)%nat → (length s < fuel)%nat →
  ∃ out, idea_encrypt_loop fuel z si so s j size = Ret out ∧ length out = length s ∧ Forall is_byte out ∧
    ∀ fuel' si' so', block si' → block so' → (length s < fuel')%nat →
      idea_encrypt_loop fuel' d si' so' out j size = Ret s.
Proof.
  intros Hkp. induction fuel as [|fuel IH]; intros s j size si so Hs Hsi Hso Hj Hsz Hmax Hmod Hfuel; [lia|].
  destruct (decide (length s < 8)%nat) as [Hshort|Hlong].
  - rewrite Nat.mod_small in Hmod by done. destruct (decide (s = [])) as [->|Hne].
    { exists []. replace size with j by (cbn in Hsz; lia). rewrite loop_end. split_and!; try done. intros. apply loop_end. }
    assert (0 < length s)%nat by (destruct s; [done|cbn; lia]).
    exists (flip <$> s). rewrite loop_tail by (done || lia). split_and!; try done.
    + apply length_fmap.
    + by apply flip_bytes.
    + intros [|fuel'] si' so' ?? Hf; [lia|].
      rewrite loop_tail; rewrite ?length_fmap; try done; try lia; [by rewrite flip_flip|by apply flip_bytes].
  - rewrite <-(take_drop 8 s) in Hs, Hsz |- *. apply Forall_app in Hs as [Hb Hs].
    assert (Hbl : block (take 8 s)) by (split; [rewrite length_take; lia|done]).
    destruct (quad_of_block _ Hbl) as [Hq Hqb].
    destruct (Hkp _ Hq) as (y&Hy&Hyo&Hback). destruct (quad_bytes_ok y Hyo) as [Hyb Hyq].
    assert (Hlen : length (drop 8 s) = (length s - 8)%nat) by apply length_drop.
    rewrite length_app, (proj1 Hbl) in Hsz.
    destruct (IH (drop 8 s) (j + 8) size (take 8 s) (quad_bytes y)) as (out&Hout&Hol&Hob&Hinv); try done; try lia.
    { rewrite Hlen. replace (length s) with ((length s - 8) + 1 * 8)%nat in Hmod by lia. by rewrite Nat.Div0.mod_add in Hmod. }
    exists (quad_bytes y ++ out).
    rewrite (loop_block fuel z si so _ _ j size _ y Hbl Hsi Hj) by (done || rewrite length_app, (proj1 Hbl); lia).
    rewrite Hout. split; [done|]. rewrite !length_app, Hol, (proj1 Hyb), (proj1 Hbl). split; [done|].
    split; [by apply Forall_app; split; [apply Hyb|]|].
    intros [|fuel'] si' so' Hsi' Hso' Hf; [lia|].
    rewrite (loop_block fuel' d si' so' _ _ j size y _ Hyb Hsi' Hj)
      by (done || rewrite length_app, (proj1 Hyb), Hol; lia).
    by rewrite Hqb, Hinv by (done || lia).
Qed.

(** A tail of five to seven bytes overruns the four-word arrays of the
    tail loop, whatever number of whole blocks comes before it. *)
Lemma loop_overruns z d : key_pair z d → ∀ fuel s j size si so,
  Forall is_byte s → block si → block so → 0 <= j → size = j + Z.of_nat (length s) → size < 2 ^ 31 →
  (4 < length s mod 8)%nat → (length s < fuel)%nat → idea_encrypt_loop fuel z si so s j size = Crash.
Proof.
  intros Hkp. induction fuel as [|fuel IH]; intros s j size si so Hs Hsi Hso Hj Hsz Hmax Hmod Hfuel; [lia|].
  destruct (decide (length s < 8)%nat) as [Hshort|Hlong].
  - rewrite Nat.mod_small in Hmod by done. cbn [idea_encrypt_loop].
    rewrite (proj2 (Z.ltb_lt j size)), (wrap_small 32 (size - j)) by lia. unfold IDEABLOCKSIZE.
    rewrite (proj2 (Z.ltb_ge 8 (size - j))), (wrap_small 32 (j + _)), (proj2 (Z.ltb_ge (Z.of_nat _) _)), (proj2 (Z.eqb_neq _ 8)) by lia.
    replace (Z.to_nat (size - j)) with (length s) by lia. rewrite take_ge by lia.
    by destruct s as [|? [|? [|? [|? [|? [|? [|? [|? s]]]]]]]]; try (cbn in Hmod, Hshort; lia).
  - rewrite <-(take_drop 8 s) in Hs, Hsz |- *. apply Forall_app in Hs as [Hb Hs].
    assert (Hbl : block (take 8 s)) by (split; [rewrite length_take; lia|done]).
    destruct (quad_of_block _ Hbl) as [Hq Hqb]. destruct (Hkp _ Hq) as (y&Hy&Hyo&_). destruct (quad_bytes_ok y Hyo) as [Hyb _].
    assert (Hlen : length (drop 8 s) = (length s - 8)%nat) by apply length_drop.
    rewrite length_app, (proj1 Hbl) in Hsz.
    rewrite (loop_block fuel z si so _ _ j size _ y Hbl Hsi Hj) by (done || rewrite length_app, (proj1 Hbl); lia).
    rewrite (IH (drop 8 s) (j + 8) size (take 8 s) (quad_bytes y)); try done; try lia.
    rewrite Hlen. replace (length s) with ((length s - 8) + 1 * 8)%nat in Hmod by lia. by rewrite Nat.Div0.mod_add in Hmod.
Qed.

(** C3. Decryption undoes encryption: for every key schedule of 52 words,
    [de_key_idea] returns a schedule with which [idea_encrypt_block] maps the
    output of [idea_encrypt_block] under the first schedule back to its
    input, for every number of whole blocks and a tail of at most four bytes;
    both calls return, within their buffers.  With a tail of five to seven
    bytes, which the comment in front of the cipher says is inverted too, the
    encryption overruns its arrays instead. *)
Theorem idea_roundtrip z s stack_in stack_out stack_in' stack_out' :
  sched_ok z → Forall is_byte s → Z.of_nat (length s) < 2 ^ 31 →
  block stack_in → block stack_out → block stack_in' → block stack_out' →
  if decide (length s mod 8 <= 4)%nat then
    ∃ d out, de_key_idea z = Ret d ∧
      idea_encrypt_block stack_in stack_out z s (Z.of_nat (length s)) = Ret out ∧ length out = length s ∧
      idea_encrypt_block stack_in' stack_out' d out (Z.of_nat (length s)) = Ret s
  else idea_encrypt_block stack_in stack_out z s (Z.of_nat (length s)) = Crash.
Proof.
  intros Hz Hs Hmax Hi Ho Hi' Ho'. destruct (de_key_undoes z Hz) as (d&Hd&_&Hkp).
  unfold idea_encrypt_block. rewrite (wrap_small 32) by lia. case_decide as Hmod.
  - destruct (loop_roundtrip z d Hkp (S (length s)) s 0 (Z.of_nat (length s)) stack_in stack_out)
      as (out&Hout&Hl&_&Hback); try done; try lia.
    exists d, out. rewrite Hl. split_and!; try done. apply Hback; [done..|lia].
  - apply (loop_overruns z d Hkp); done || lia.
Qed.

(** ** Chaining *)

Lemma block_call z d b si so : key_pair z d → block b → block si → block so →
  ∃ c, block c ∧ idea_encrypt_block si so z b 8 = Ret c ∧
    ∀ si' so', block si' → block so' → idea_encrypt_block si' so' d c 8 = Ret b.
Proof.
  intros Hkp [Hl Hb] Hi Ho. unfold idea_encrypt_block. rewrite Hl.
  destruct (loop_roundtrip z d Hkp 9 b 0 8 si so Hb Hi Ho) as (c&Hc&Hlc&Hbc&Hback);
    [lia|rewrite Hl; lia|lia|rewrite Hl; cbn; lia|rewrite Hl; lia|].
  exists c. split; [split; [congruence|done]|]. split; [exact Hc|]. intros si' so' ??.
  rewrite Hlc, Hl. apply Hback; [done..|lia].
Qed.

Lemma block_value b : block b → 0 <= of_le b < 2 ^ 64.
Proof. intros [Hl Hb]. pose proof (of_le_range b Hb) as H. rewrite Hl in H. exact H. Qed.

Lemma xor_block_ok b v : block b → 0 <= v < 2 ^ 64 →
  block (xor_block b v) ∧ xor_block (xor_block b v) v = b.
Proof.
  intros Hb Hv. pose proof (block_value b Hb) as Hr. unfold xor_block.
  split; [split; [apply length_to_le|apply to_le_bytes]|].
  rewrite of_le_to_le by (apply (lxor_range 64); lia).
  rewrite Z.lxor_assoc, Z.lxor_nilpotent, Z.lxor_0_r. destruct Hb as [Hl Hb]. rewrite <-Hl. by apply to_le_of_le.
Qed.

Lemma chain_roundtrip e d si so : key_pair e d → block si → block so → ∀ n buf v, Forall is_byte (take (8 * n) buf) →
  (8 * n <= length buf)%nat → 0 <= v < 2 ^ 64 →
  ∃ out g', encrypt_blocks si so n buf (Globals v e d) = Ret (out ++ drop (8 * n) buf, g') ∧
    length out = (8 * n)%nat ∧
    ∀ si' so' buf2, block si' → block so' → ∃ g2, decrypt_blocks si' so' n (out ++ buf2) (Globals v e d) =
      Ret (take (8 * n) buf ++ buf2, g2).
Proof.
  intros Hkp Hi Ho. induction n as [|n IH]; intros buf v Hbuf Hl Hv; [by exists [], (Globals v e d); eauto|].
  replace (8 * S n)%nat with (8 + 8 * n)%nat in * by lia.
  rewrite <-(take_drop 8 (take _ buf)), take_take, skipn_firstn_comm in Hbuf.
  replace (8 `min` (8 + 8 * n))%nat with 8%nat in Hbuf by lia.
  replace (8 + 8 * n - 8)%nat with (8 * n)%nat in Hbuf by lia. apply Forall_app in Hbuf as [Hb1 Hb2].
  assert (Hbl : block (take 8 buf)) by (split; [rewrite length_take; lia|done]).
  destruct (xor_block_ok _ v Hbl Hv) as [Hx Hxx].
  destruct (block_call e d _ si so Hkp Hx Hi Ho) as (c&Hc&Hcall&Hback).
  destruct (IH (drop 8 buf) (of_le c) Hb2) as (out&g'&He&Hlo&Hd);
    [rewrite length_drop; lia|by apply block_value|].
  exists (c ++ out), g'. cbn [encrypt_blocks iv en_key de_key].
  rewrite (proj2 (Nat.ltb_ge _ _)) by lia. rewrite Hcall. cbn [mbind outcome_mbind]. rewrite He. cbn [mbind outcome_mbind].
  rewrite drop_drop, app_assoc, length_app, (proj1 Hc), Hlo. split; [done|]. split; [done|].
  intros si' so' buf2 Hi' Ho'. destruct (Hd si' so' buf2 Hi' Ho') as [g2 Hd2]. exists g2. cbn [decrypt_blocks iv en_key de_key].
  rewrite <-app_assoc, length_app, (proj1 Hc), (proj2 (Nat.ltb_ge _ _)) by lia.
  rewrite take_app_length', drop_app_length' by (symmetry; apply Hc).
  rewrite Hback by done. cbn [mbind outcome_mbind]. rewrite Hd2. cbn [mbind outcome_mbind]. rewrite Hxx.
  rewrite app_assoc. do 3 f_equal. rewrite <-(take_drop 8 (take (8 + 8 * n) buf)), take_take, skipn_firstn_comm.
  replace (8 `min` (8 + 8 * n))%nat with 8%nat by lia. by replace (8 + 8 * n - 8)%nat with (8 * n)%nat by lia.
Qed.

Lemma set_keys_ok : ∃ e d, key_pair e d ∧
  ∀ g, length (en_key g) = IDEAKEYLEN → set_keys g = Ret (Globals 305419896 e d).
Proof.
  assert (Hk : group_ok ideakey).
  { split; [done|]. apply (bool_decide_unpack _). vm_compute. exact I. }
  set (e := take IDEAKEYLEN (word_groups 7 ideakey)).
  destruct (word_groups_ok 7 ideakey Hk) as [Hl Hw].
  assert (He : sched_ok e).
  { split; [unfold e; rewrite length_take, Hl; done|by apply Forall_take]. }
  destruct (de_key_undoes e He) as (d&Hd&_&Hkp).
  exists e, d. split; [done|]. intros g Hg. unfold set_keys.
  rewrite (en_key_words ideakey (en_key g) eq_refl Hg). cbn [mbind outcome_mbind].
  change (take 52 (word_groups 7 ideakey)) with e. by rewrite Hd.
Qed.
(** The zeros [do_idea_encrypt] pads a text with. *)
Definition padding (n : nat) : nat := if decide (n mod 8 = 0)%nat then 0 else 8 - n mod 8.

Lemma padded_blocks n : ∃ m, (n + padding n = 8 * m)%nat.
Proof.
  unfold padding. pose proof (Nat.div_mod_eq n 8). pose proof (Nat.mod_upper_bound n 8 ltac:(lia)).
  destruct (decide _); [exists (n / 8)%nat|exists (S (n / 8))]; lia.
Qed.

Lemma copy_in_ok text buf n : (n <= length text)%nat → (n <= length buf)%nat →
  copy_in text buf (Z.of_nat n) = Ret (take n text ++ drop n buf).
Proof.
  intros Ht Hb. unfold copy_in. rewrite Nat2Z.id.
  by rewrite !(proj2 (Z.ltb_ge _ _)) by lia.
Qed.

(** The buffer after the padding. *)
Lemma pad_ok text buf : let len := length text in let pad := padding len in
  (len + pad <= length buf)%nat →
  (if negb (Z.rem (Z.of_nat len) 8 =? 0) then
     let pad := 8 - Z.rem (Z.of_nat len) 8 in
     if Z.of_nat (length (text ++ drop len buf)) <? Z.of_nat len + pad then Crash
     else Ret (Z.of_nat len + pad,
               take (Z.to_nat (Z.of_nat len)) (text ++ drop len buf) ++ replicate (Z.to_nat pad) 0 ++
               drop (Z.to_nat (Z.of_nat len + pad)) (text ++ drop len buf))
   else Ret (Z.of_nat len, text ++ drop len buf)) =
  Ret (Z.of_nat (len + pad), (text ++ replicate pad 0) ++ drop (len + pad) buf).
Proof.
  intros len pad Hb. unfold pad, padding in *. rewrite Z.rem_mod_nonneg by lia.
  pose proof (Nat.mod_upper_bound len 8 ltac:(lia)) as Hr.
  replace (Z.of_nat len mod 8) with (Z.of_nat (len mod 8)) by (rewrite Nat2Z.inj_mod; done).
  destruct (decide (len mod 8 = 0)%nat) as [E|E].
  - rewrite E. cbn. by rewrite Nat.add_0_r, app_nil_r.
  - rewrite (proj2 (Z.eqb_neq (Z.of_nat (len mod 8)) 0)) by lia. cbn [negb].
    replace (8 - Z.of_nat (len mod 8)) with (Z.of_nat (8 - len mod 8)) by lia.
    rewrite <-Nat2Z.inj_add, !Nat2Z.id, length_app, length_drop. fold len.
    rewrite (proj2 (Z.ltb_ge _ _)) by lia.
    rewrite take_app_length' by done. rewrite drop_app_ge by (fold len; lia). fold len.
    rewrite drop_drop, <-app_assoc. do 5 f_equal. lia.
Qed.

(** What [do_idea_encrypt] writes [do_idea_decrypt] reads back: for every
    text of less than 2{^31} bytes and every buffer that has room for the
    text padded with zeros to whole blocks, encryption returns the padded
    length, and decrypting as many bytes of its buffer returns the padded
    text; what lies beyond it in either buffer is untouched, and the keys left
    in the global variables by earlier calls do not matter. *)
Theorem idea_chaining_roundtrip si so si' so' text buf buf' g h :
  let n := (length text + padding (length text))%nat in
  block si → block so → block si' → block so' → Forall is_byte text → Z.of_nat n < 2 ^ 31 →
  (n <= length buf)%nat → (n <= length buf')%nat →
  length (en_key g) = IDEAKEYLEN → length (en_key h) = IDEAKEYLEN →
  ∃ out g' h',
    do_idea_encrypt si so text buf (Z.of_nat (length text)) g = Ret (Z.of_nat n, out ++ drop n buf, g') ∧
    length out = n ∧
    do_idea_decrypt si' so' (out ++ drop n buf) buf' (Z.of_nat n) h =
      Ret ((text ++ replicate (padding (length text)) 0) ++ drop n buf', h').
Proof.
  intros n Hi Ho Hi' Ho' Ht Hn Hb Hb' Hg Hh.
  destruct set_keys_ok as (e&d&Hkp&Hset).
  destruct (padded_blocks (length text)) as [m Hm]. fold n in Hm.
  set (padded := text ++ replicate (padding (length text)) 0).
  assert (Hpl : length padded = (8 * m)%nat) by (unfold padded; rewrite length_app, length_replicate; lia).
  assert (Hpb : Forall is_byte (take (8 * m) (padded ++ drop n buf))).
  { rewrite take_app_length' by lia. apply Forall_app. split; [done|]. by apply Forall_replicate. }
  destruct (chain_roundtrip e d si so Hkp Hi Ho m (padded ++ drop n buf) 305419896 Hpb)
    as (out&g'&He&Hlo&Hdec); [rewrite length_app; lia|lia|].
  destruct (Hdec si' so' (drop n buf') Hi' Ho') as [h' Hd].
  rewrite drop_app_length' in He by lia. rewrite take_app_length' in Hd by lia.
  assert (Hm8 : Z.to_nat (Z.quot (Z.of_nat n) 8) = m).
  { rewrite Hm, Z.quot_div_nonneg, Nat2Z.inj_mul, Z.mul_comm, Z.div_mul by lia. lia. }
  exists out, g', h'. split; [|split; [lia|]].
  - unfold do_idea_encrypt. rewrite Hset by done. cbn [mbind outcome_mbind].
    rewrite copy_in_ok by lia. rewrite take_ge by lia. cbn [mbind outcome_mbind].
    rewrite pad_ok by exact Hb. fold n. cbn [mbind outcome_mbind]. fold padded. rewrite Hm8, He. done.
  - unfold do_idea_decrypt. rewrite Hset by done. cbn [mbind outcome_mbind].
    rewrite copy_in_ok by (rewrite ?length_app; lia). cbn [mbind outcome_mbind].
    rewrite take_app_length' by lia. rewrite Hm8. exact Hd.
Qed.

(** ** Concrete keys and texts *)

(** The test vector of the cipher's authors. *)
Example idea_vector :
  (z ← en_key_idea [1; 2; 3; 4; 5; 6; 7; 8] (replicate 52 0); cipher_idea (Quad 0 1 2 3) z) =
  Ret (Quad 4603 60715 408 28133).
Proof. vm_compute. reflexivity. Qed.

Lemma en_key_rotates_witness :
  en_key_idea ideakey (replicate 52 0) = Ret (take IDEAKEYLEN (key_groups 7 (key_value ideakey))).
Proof.
  apply en_key_rotates; [done| |done]. apply (bool_decide_unpack _). vm_compute. exact I.
Defined.

Definition demo_keys : list Z := take 52 (word_groups 7 ideakey).
Definition demo_stack : bytes := replicate 8 170.

Lemma demo_stack_block : block demo_stack.
Proof. split; [done|]. apply (bool_decide_unpack _). vm_compute. exact I. Qed.

Lemma demo_keys_ok : sched_ok demo_keys.
Proof. split; [done|]. apply (bool_decide_unpack _). vm_compute. exact I. Qed.

Lemma idea_roundtrip_witness : ∃ d out,
  de_key_idea demo_keys = Ret d ∧
  idea_encrypt_block demo_stack demo_stack demo_keys (bytes_of "client.dyn.") 11 = Ret out ∧ length out = 11%nat ∧
  idea_encrypt_block demo_stack demo_stack d out 11 = Ret (bytes_of "client.dyn.").
Proof.
  apply (idea_roundtrip demo_keys (bytes_of "client.dyn.") demo_stack demo_stack demo_stack demo_stack);
    try apply demo_stack_block; [apply demo_keys_ok| |by vm_compute].
  apply (bool_decide_unpack _). vm_compute. exact I.
Defined.

(** One byte more of the tail, and the arrays are overrun. *)
Example idea_tail_overruns :
  idea_encrypt_block demo_stack demo_stack demo_keys (bytes_of "12345") 5 = Crash.
Proof. vm_compute. reflexivity. Qed.

Definition demo_globals : globals := Globals 0 (replicate 52 0) (replicate 52 0).

Lemma idea_chaining_roundtrip_witness : ∃ out g' h',
  do_idea_encrypt demo_stack demo_stack (bytes_of "http://a/b.gif") (replicate 20 1) 14 demo_globals =
    Ret (16, out ++ [1; 1; 1; 1], g') ∧
  length out = 16%nat ∧
  do_idea_decrypt demo_stack demo_stack (out ++ [1; 1; 1; 1]) (replicate 16 7) 16 demo_globals =
    Ret ((bytes_of "http://a/b.gif" ++ [0; 0]) ++ [], h').
Proof.
  apply (idea_chaining_roundtrip demo_stack demo_stack demo_stack demo_stack (bytes_of "http://a/b.gif")
    (replicate 20 1) (replicate 16 7) demo_globals demo_globals);
    try apply demo_stack_block; try done; try (vm_compute; lia).
  apply (bool_decide_unpack _). vm_compute. exact I.
Defined.
