(* ===== verification/TextDoc.v ===== *)
(** * The text-to-Doc distiller (src/tcsproxy/text2doc/src/text2doc.c)

    Plain text is cut into records of 4096 bytes, each record is compressed
    with back references and packed spaces, and the records are put into a
    Pilot database (PalmDoc.v).  This file holds the compressor, which walks over its input with indices where
    the code walks with pointers; its output buffer of 6000 bytes is a list
    that may not grow beyond them.  The theorems compare it with a reader of
    the format. *)

From S2P Require Import Prelude Md5.

Open Scope Z_scope.

(** ** Definitions: the compressor *)

Definition DISP_BITS : Z := 11.
Definition COUNT_BITS : Z := 3.
(** [DistillerMalloc(6000)]. *)
Definition OUT_SIZE : Z := 6000.
Definition SPACE : byte := 32.

(** [memcmp(t, m, m_len) == 0]. *)
Definition same_bytes (t m : bytes) (m_len : nat) : bool := bool_decide (take m_len t = take m_len m).

(** [memfind(t, t_len, m, m_len)]: the offset of the hit, [i] tests left. *)
Fixpoint memfind_loop (i : nat) (t m : bytes) (m_len : nat) (off : nat) : option nat :=
  match i with
  | O => None
  | S i' =>
      if bool_decide (head t = head m) && same_bytes t m m_len then Some off
      else memfind_loop i' (tail t) m m_len (S off)
  end.
Definition memfind (t : bytes) (t_len : Z) (m : bytes) (m_len : Z) : option nat :=
  memfind_loop (Z.to_nat (t_len - m_len + 1)) t m (Z.to_nat m_len) 0.

(** [buf[len++] = c]. *)
Definition emit (buf : bytes) (c : byte) : outcome bytes :=
  if Z.of_nat (length buf) <? OUT_SIZE then Ret (buf ++ [c]) else Crash.

(** A character outside of 1 to 8 and of 128 to 255 goes out as it is. *)
Definition plain (src : byte) : bool := (src <? 128) && ((src =? 0) || (8 <? src)).

(** [Issue(buf, &len, src, &bSpace)]. *)
Definition Issue (buf : bytes) (src : byte) (bSpace : bool) : outcome (bytes * bool) :=
  let out buf := if plain src then emit buf src else (buf ← emit buf 1; emit buf src) in
  if bSpace then
    if (64 <=? src) && (src <=? 127) then
      buf ← emit buf (Z.lxor src 128); Ret (buf, false)
    else
      buf ← emit buf SPACE;
      buf ← out buf;
      Ret (buf, false)
  else if src =? SPACE then Ret (buf, true)
  else buf ← out buf; Ret (buf, false).

(** The pointers of [compressbuf], as offsets in its input. *)
Record walk := Walk { pPrevHit : nat; pTestHead : nat; pTestTail : nat; wbuf : bytes; bSpace : bool }.

(** The codes of one turn: an issued character, or a run. *)
Definition issue_codes (src : bytes) (w : walk) : outcome walk :=
  let len := (pTestTail w - pTestHead w)%nat in
  if (len <? 4)%nat then
    match src !! pTestHead w with
    | Some c =>
        '(buf, sp) ← Issue (wbuf w) c (bSpace w);
        Ret (Walk (pPrevHit w) (S (pTestHead w)) (pTestTail w) buf sp)
    | None => Crash
    end
  else
    buf ← (if bSpace w then emit (wbuf w) SPACE else Ret (wbuf w));
    let dist := Z.of_nat (pTestHead w) - Z.of_nat (pPrevHit w) in
    let compound := Z.shiftl dist COUNT_BITS + Z.of_nat len - 4 in
    if negb (dist <? Z.shiftl 1 DISP_BITS) then Crash
    else if negb (Z.of_nat len - 4 <=? 7) then Crash
    else
      buf ← emit buf (128 + Z.shiftr compound 8);
      buf ← emit buf (Z.land compound 255);
      Ret (Walk (pPrevHit w) (pTestTail w - 1) (pTestTail w) buf false).

(** One turn of the loop of [compressbuf], the increment of [pTestTail]
    included. *)
Definition compress_step (src : bytes) (w : walk) : outcome walk :=
  let pEnd := length src in
  let window := Z.shiftl 1 DISP_BITS - 1 in
  let prev := if window <? Z.of_nat (pTestHead w) - Z.of_nat (pPrevHit w)
              then Z.to_nat (Z.of_nat (pTestHead w) - window) else pPrevHit w in
  let w := Walk prev (pTestHead w) (pTestTail w) (wbuf w) (bSpace w) in
  let pHit := (λ off, prev + off)%nat <$>
    memfind (drop prev src) (Z.of_nat (pTestTail w) - Z.of_nat prev)
            (drop (pTestHead w) src) (Z.of_nat (pTestTail w) - Z.of_nat (pTestHead w)) in
  w ← (if bool_decide (pHit = None) || bool_decide (pHit = Some (pTestHead w))
          || (Z.shiftl 1 COUNT_BITS + 2 <? Z.of_nat (pTestTail w) - Z.of_nat (pTestHead w))
          || bool_decide (pTestTail w = pEnd)
       then
         w ← issue_codes src w;
         Ret (Walk 0 (pTestHead w) (pTestTail w) (wbuf w) (bSpace w))
       else Ret (Walk (default 0%nat pHit) (pTestHead w) (pTestTail w) (wbuf w) (bSpace w)));
  let tl := if bool_decide (pTestTail w = pEnd) then (pTestTail w - 1)%nat else pTestTail w in
  Ret (Walk (pPrevHit w) (pTestHead w) (S tl) (wbuf w) (bSpace w)).

Fixpoint compress_loop (fuel : nat) (src : bytes) (w : walk) : outcome walk :=
  if bool_decide (pTestHead w = length src) then Ret w
  else match fuel with
       | O => Stuck
       | S fuel' => w ← compress_step src w; compress_loop fuel' src w
       end.

(** Reading and writing the output buffer, [len] bytes of which are valid. *)
Definition bget (buf : bytes) (i : nat) : outcome byte :=
  match buf !! i with Some c => Ret c | None => Crash end.
Definition bset (buf : bytes) (i : nat) (c : byte) : outcome bytes :=
  if (i <? length buf)%nat then Ret (<[i := c]> buf) else Crash.

(** The inner [while] of the final scan; [i] is where the marker was read. *)
Fixpoint merge_markers (fuel : nat) (buf : bytes) (i k len : nat) : outcome (bytes * nat) :=
  match fuel with
  | O => Stuck
  | S fuel' =>
      c ← bget buf k;
      if (i + 2 <? len)%nat then
        m ← bget buf (i + 2);
        if (m =? 1) && (c <? 8) then
          buf ← bset buf k (c + 1);
          x ← bget buf (i + 3);
          buf ← bset buf (k + Z.to_nat (c + 1)) x;
          merge_markers fuel' buf (i + 2) k len
        else Ret (buf, i)
      else Ret (buf, i)
  end.

(** The final scan of [compressbuf]; returns the buffer and the new length. *)
Fixpoint merge_loop (fuel : nat) (buf : bytes) (i k len : nat) : outcome (bytes * nat) :=
  if (i <? len)%nat then
    match fuel with
    | O => Stuck
    | S fuel' =>
        c ← bget buf i;
        buf ← bset buf k c;
        if (128 <=? c) && (c <? 192) then
          x ← bget buf (i + 1);
          buf ← bset buf (k + 1) x;
          merge_loop fuel' buf (i + 2) (k + 2) len
        else if c =? 1 then
          x ← bget buf (i + 1);
          buf ← bset buf (k + 1) x;
          '(buf, i) ← merge_markers 8 buf i k len;
          c ← bget buf k;
          merge_loop fuel' buf (i + 2) (k + Z.to_nat c + 1) len
        else merge_loop fuel' buf (i + 1) (k + 1) len
    end
  else Ret (buf, k).

Definition compressbuf (src : bytes) : outcome bytes :=
  w ← compress_loop (2 * length src) src (Walk 0 0 1 [] false);
  buf ← (if bSpace w then emit (wbuf w) SPACE else Ret (wbuf w));
  '(buf, k) ← merge_loop (length buf) buf 0 0 (length buf);
  Ret (take k buf).

(** ** The format *)

(** Copies [n] bytes from [dist] bytes back, one after the other. *)
Fixpoint copy_back (dist n : nat) (out : bytes) : option bytes :=
  match n with
  | O => Some out
  | S n' => x ← out !! (length out - dist)%nat; copy_back dist n' (out ++ [x])
  end.

(** The reader of compressed records: bytes 1 to 8 announce so many bytes to
    be taken as they are, 128 to 191 start a back reference of 11 bits of
    distance and 3 bits of length less 3, and 192 to 255 stand for a space and
    a character; [pending] bytes are still to be taken as they are. *)
Fixpoint expand (pending : nat) (out s : bytes) : option bytes :=
  match s with
  | [] => match pending with O => Some out | S _ => None end
  | c :: s' =>
      match pending with
      | S p => expand p (out ++ [c]) s'
      | O =>
          if plain c then expand 0 (out ++ [c]) s'
          else if c <=? 8 then expand (Z.to_nat c) out s'
          else if 192 <=? c then expand 0 (out ++ [SPACE; Z.lxor c 128]) s'
          else match s' with
               | d :: s'' =>
                   let compound := (c - 128) * 256 + d in
                   let dist := Z.to_nat (compound / 8) in
                   if bool_decide (0 < dist <= length out)%nat then
                     out' ← copy_back dist (Z.to_nat (compound mod 8 + 3)) out;
                     expand 0 out' s''
                   else None
               | [] => None
               end
      end
  end.
Definition decompress (s : bytes) : option bytes := expand 0 [] s.

Example compress_small :
  (s ← compressbuf (bytes_of "the cat and the cat and the hat"); Ret (decompress s)) =
  Ret (Some (bytes_of "the cat and the cat and the hat")).
Proof. vm_compute. reflexivity. Qed.

(** ** Tokens

    What the compressor has written before its final scan is a sequence of
    tokens. *)

Inductive token :=
| Lit (c : byte)          (** a plain character *)
| Esc (c : byte)          (** marker 1 and a character *)
| Spc (c : byte)          (** a space and a character in one byte *)
| Back (b1 b2 : byte).    (** a back reference *)

Definition tok_bytes (t : token) : bytes :=
  match t with
  | Lit c => [c]
  | Esc c => [1; c]
  | Spc c => [Z.lxor c 128]
  | Back b1 b2 => [b1; b2]
  end.
Definition flat (ts : list token) : bytes := ts ≫= tok_bytes.

Definition tok_ok (t : token) : Prop :=
  match t with
  | Lit c => is_byte c ∧ plain c = true
  | Esc c => is_byte c
  | Spc c => 64 <= c <= 127
  | Back b1 b2 => 128 <= b1 < 192 ∧ is_byte b2
  end.

(** What a reader makes of a token. *)
Definition back (b1 b2 : byte) (out : bytes) : option bytes :=
  let compound := (b1 - 128) * 256 + b2 in
  let dist := Z.to_nat (compound / 8) in
  if bool_decide (0 < dist <= length out)%nat then copy_back dist (Z.to_nat (compound mod 8 + 3)) out else None.
Definition tok_expand (t : token) (out : bytes) : option bytes :=
  match t with
  | Lit c | Esc c => Some (out ++ [c])
  | Spc c => Some (out ++ [SPACE; c])
  | Back b1 b2 => back b1 b2 out
  end.
Fixpoint toks_expand (ts : list token) (out : bytes) : option bytes :=
  match ts with [] => Some out | t :: ts' => out' ← tok_expand t out; toks_expand ts' out' end.

Lemma toks_expand_app ts ts' out :
  toks_expand (ts ++ ts') out = out' ← toks_expand ts out; toks_expand ts' out'.
Proof.
  revert out. induction ts as [|t ts IH]; intros out; cbn; [done|].
  destruct (tok_expand t out); cbn; [apply IH|done].
Qed.

Lemma flat_app ts ts' : flat (ts ++ ts') = flat ts ++ flat ts'.
Proof. apply bind_app. Qed.

Lemma plain_range c : is_byte c → plain c = true → c = 0 ∨ 8 < c < 128.
Proof. unfold is_byte, plain. intros Hc [H1 [H2|H2]%orb_true_iff]%andb_true_iff; lia. Qed.

Lemma plain_high c : 128 <= c → plain c = false.
Proof. intros Hc. unfold plain. by rewrite (proj2 (Z.ltb_ge _ _)) by lia. Qed.

Lemma spc_range c : 64 <= c <= 127 → Z.lxor c 128 = c + 128 ∧ Z.lxor (Z.lxor c 128) 128 = c.
Proof.
  intros Hc. split; [|by rewrite Z.lxor_assoc, Z.lxor_nilpotent, Z.lxor_0_r].
  rewrite Z.lxor_comm, <-Z.add_nocarry_lxor; [lia|].
  change 128 with (Z.shiftl 1 7). apply land_shiftl_small; [lia|]. change (2 ^ 7) with 128. lia.
Qed.

(** Reading the bytes of a token. *)
Lemma expand_tok t s out : tok_ok t →
  expand 0 out (tok_bytes t ++ s) = out' ← tok_expand t out; expand 0 out' s.
Proof.
  destruct t as [c|c|c|b1 b2]; cbn [tok_ok tok_bytes app]; intros Ht.
  - destruct Ht as [_ Ht]. cbn [expand]. by rewrite Ht.
  - done.
  - destruct (spc_range c Ht) as [Hx Hxx]. cbn [expand]. rewrite Hxx, plain_high by lia.
    rewrite (proj2 (Z.leb_gt _ 8)), (proj2 (Z.leb_le 192 _)) by lia. done.
  - destruct Ht as [Ht _]. cbn [expand]. rewrite plain_high by lia.
    rewrite (proj2 (Z.leb_gt _ 8)), (proj2 (Z.leb_gt 192 _)) by lia.
    cbn [tok_expand]. unfold back. by case_bool_decide.
Qed.

Lemma expand_flat ts s out : Forall tok_ok ts →
  expand 0 out (flat ts ++ s) = out' ← toks_expand ts out; expand 0 out' s.
Proof.
  revert out. induction ts as [|t ts IH]; intros out Hts; [done|]. apply Forall_cons in Hts as [Ht Hts].
  change (flat (t :: ts)) with (tok_bytes t ++ flat ts). rewrite <-app_assoc, expand_tok by done.
  cbn [toks_expand]. destruct (tok_expand t out); cbn; [by apply IH|done].
Qed.

(** ** The walk over the input *)

Definition cost (c : byte) : nat := if plain c then 1 else 2.
Fixpoint costs (s : bytes) : nat := match s with [] => 0 | c :: s' => cost c + costs s' end.
Definition space_if (b : bool) : bytes := if b then [SPACE] else [].

Lemma costs_app s s' : costs (s ++ s') = (costs s + costs s')%nat.
Proof. induction s; cbn [app costs]; lia. Qed.

Lemma costs_length s : (length s <= costs s)%nat.
Proof. induction s as [|c s IH]; cbn [length costs]; [lia|]. unfold cost. destruct (plain c); lia. Qed.

(** The result of a computation satisfies [P]; it crashes only if [F]. *)
Definition unless {A} (F : Prop) (o : outcome A) (P : A → Prop) : Prop :=
  match o with Ret a => P a | Crash => F | _ => False end.

Lemma unless_bind {A B} F (o : outcome A) (f : A → outcome B) P Q :
  unless F o P → (∀ a, P a → unless F (f a) Q) → unless F (o ≫= f) Q.
Proof. intros Ho Hf. destruct o; try done. by apply Hf. Qed.
Lemma unless_weaken {A} F (o : outcome A) (P Q : A → Prop) : unless F o P → (∀ a, P a → Q a) → unless F o Q.
Proof. intros Ho Hp. destruct o; try done. by apply Hp. Qed.

Lemma emit_ok (F : Prop) buf c : (OUT_SIZE <= Z.of_nat (length buf) → F) → unless F (emit buf c) (λ b, b = buf ++ [c]).
Proof. intros H. unfold emit. destruct (Z.ltb_spec (Z.of_nat (length buf)) OUT_SIZE); [done|by apply H]. Qed.

(** A plain or marked character. *)
Definition char_tok (c : byte) : token := if plain c then Lit c else Esc c.

Lemma char_tok_ok c : is_byte c → tok_ok (char_tok c).
Proof. intros Hc. unfold char_tok. by destruct (plain c) eqn:E. Qed.

Lemma char_tok_length c : length (tok_bytes (char_tok c)) = cost c.
Proof. unfold char_tok, cost. by destruct (plain c). Qed.

Lemma issue_emit_ok (F : Prop) buf c : (OUT_SIZE < Z.of_nat (length buf + cost c) → F) →
  unless F (if plain c then emit buf c else (buf ← emit buf 1; emit buf c)) (λ b, b = buf ++ tok_bytes (char_tok c)).
Proof.
  unfold cost, char_tok. intros H. destruct (plain c); [by apply emit_ok; intros; apply H; lia|].
  eapply unless_bind; [apply emit_ok; intros; apply H; lia|]. intros b ->.
  eapply unless_weaken; [apply emit_ok; rewrite length_app; cbn [length]; intros; apply H; lia|]. intros b ->. by rewrite <-app_assoc.
Qed.

Lemma Issue_ok (F : Prop) buf c sp : is_byte c →
  (OUT_SIZE < Z.of_nat (length buf + Nat.b2n sp + cost c) → F) →
  unless F (Issue buf c sp) (λ r, ∃ ts sp', r = (buf ++ flat ts, sp') ∧ Forall tok_ok ts ∧
    (length (flat ts) + Nat.b2n sp' <= Nat.b2n sp + cost c)%nat ∧
    ∀ out, ∃ out', toks_expand ts out = Some out' ∧ out' ++ space_if sp' = out ++ space_if sp ++ [c]).
Proof.
  intros Hc Hlen. unfold Issue. pose proof (char_tok_ok c Hc) as Hct. assert (1 <= cost c)%nat as Hc1 by (unfold cost; destruct (plain c); lia).
  assert (Hex : ∀ out, tok_expand (char_tok c) out = Some (out ++ [c])).
  { intros out. unfold char_tok. by destruct (plain c). }
  destruct sp; [destruct ((64 <=? c) && (c <=? 127)) eqn:E|destruct (Z.eqb_spec c SPACE) as [->|Hne]]; cbn [Nat.b2n] in *.
  - apply andb_true_iff in E as [E1 E2]. eapply unless_bind; [apply emit_ok; intros; apply Hlen; lia|]. intros b ->.
    exists [Spc c], false. split_and!; try done.
    + apply Forall_singleton. cbn. lia.
    + cbn. lia.
    + intros out. eexists. split; [done|]. by rewrite app_nil_r.
  - eapply unless_bind; [apply emit_ok; intros; apply Hlen; lia|]. intros b ->.
    eapply unless_bind; [apply issue_emit_ok; rewrite length_app; cbn [length]; intros; apply Hlen; lia|]. intros b ->.
    exists [Lit SPACE; char_tok c], false.
    change (flat [Lit SPACE; char_tok c]) with ([SPACE] ++ (tok_bytes (char_tok c) ++ [])).
    rewrite app_nil_r, app_assoc. split_and!; try done.
    + by repeat (apply Forall_cons; split).
    + rewrite length_app, char_tok_length. cbn. lia.
    + intros out. eexists. cbn [toks_expand tok_expand mbind option_bind]. rewrite Hex.
      split; [done|]. cbn. by rewrite app_nil_r, <-app_assoc.
  - exists [], true. split_and!; try done; [by rewrite app_nil_r|].
    intros out. by exists out.
  - eapply unless_bind; [apply issue_emit_ok; intros; apply Hlen; lia|]. intros b ->. exists [char_tok c], false.
    change (flat [char_tok c]) with (tok_bytes (char_tok c) ++ []). rewrite app_nil_r. split_and!; try done.
    + by apply Forall_singleton.
    + rewrite char_tok_length. cbn. lia.
    + intros out. eexists. cbn [toks_expand]. rewrite Hex. split; [done|]. by rewrite app_nil_r.
Qed.

(** A hit of [memfind] is an occurrence. *)
Lemma memfind_loop_hit i t m n k off : memfind_loop i t m n k = Some off →
  (k <= off < k + i)%nat ∧ take n (drop (off - k) t) = take n m.
Proof.
  revert t k. induction i as [|i IH]; intros t k; cbn [memfind_loop]; [done|].
  destruct (bool_decide (head t = head m) && same_bytes t m n) eqn:E.
  - intros [= <-]. apply andb_true_iff in E as [_ E]. unfold same_bytes in E. apply bool_decide_eq_true in E.
    rewrite Nat.sub_diag. split; [lia|done].
  - intros H. destruct (IH _ _ H) as [Hr Ht]. split; [lia|].
    rewrite <-Ht. replace (off - k)%nat with (S (off - S k)) by lia. destruct t; [|done].
    cbn [tail]. by rewrite !drop_nil.
Qed.

(** The occurrence found from [prev] on for the text from [h] to [t]. *)
Lemma memfind_hit src prev h t off : (prev <= h < t)%nat →
  memfind (drop prev src) (Z.of_nat t - Z.of_nat prev) (drop h src) (Z.of_nat t - Z.of_nat h) = Some off →
  (prev + off <= h)%nat ∧ take (t - h) (drop (prev + off) src) = take (t - h) (drop h src).
Proof.
  unfold memfind. intros Hp H. apply memfind_loop_hit in H as [Hr Ht].
  rewrite Nat.sub_0_r, drop_drop in Ht. replace (Z.to_nat (Z.of_nat t - Z.of_nat h)) with (t - h)%nat in Ht by lia.
  split; [lia|done].
Qed.

(** Copying a run that occurs earlier, even one that overlaps itself. *)
Lemma copy_back_ok src p h n : (p < h)%nat → (h + n <= length src)%nat →
  take n (drop p src) = take n (drop h src) →
  copy_back (h - p) n (take h src) = Some (take (h + n) src).
Proof.
  revert p h. induction n as [|n IH]; intros p h Hp Hl Hm; cbn [copy_back]; [by rewrite Nat.add_0_r|].
  rewrite length_take. replace (h `min` length src - (h - p))%nat with p by lia.
  rewrite lookup_take_lt by lia.
  destruct (lookup_lt_is_Some_2 src p) as [x Hx]; [lia|]. destruct (lookup_lt_is_Some_2 src h) as [y Hy]; [lia|].
  rewrite (drop_S _ _ _ Hx), (drop_S _ _ _ Hy) in Hm. cbn [take] in Hm. injection Hm as -> Hm.
  rewrite Hx. cbn [mbind option_bind]. rewrite <-(take_S_r _ _ _ Hy).
  replace (h + S n)%nat with (S h + n)%nat by lia. apply (IH (S p) (S h)); [lia|lia|exact Hm].
Qed.

Record walk_inv (src : bytes) (w : walk) : Prop := {
  wi_head : (pTestHead w <= length src)%nat;
  wi_tail : (pTestHead w < length src → pTestHead w < pTestTail w <= length src)%nat;
  wi_run : (pTestTail w <= pTestHead w + 11)%nat;
  wi_prev : (pPrevHit w <= pTestHead w)%nat;
  wi_match : (4 <= pTestTail w - pTestHead w)%nat →
    (pPrevHit w < pTestHead w <= pPrevHit w + 2047)%nat ∧
    take (pTestTail w - pTestHead w - 1) (drop (pPrevHit w) src) =
    take (pTestTail w - pTestHead w - 1) (drop (pTestHead w) src);
  wi_out : ∃ ts out, wbuf w = flat ts ∧ Forall tok_ok ts ∧ toks_expand ts [] = Some out ∧
    out ++ space_if (bSpace w) = take (pTestHead w) src;
  wi_len : (length (wbuf w) + Nat.b2n (bSpace w) <= costs (take (pTestHead w) src))%nat;
}.

Section walking.
Context (src : bytes) (Hsrc : Forall is_byte src).
(** The characters cost more than the buffer holds. *)
Definition too_dear : Prop := OUT_SIZE < Z.of_nat (costs src).

Lemma costs_take n : (costs (take n src) <= costs src)%nat.
Proof. rewrite <-(take_drop n src) at 2. rewrite costs_app. lia. Qed.

Lemma costs_take_more n k : (n + k <= length src)%nat → (costs (take n src) + k <= costs (take (n + k) src))%nat.
Proof.
  intros H. rewrite <-take_take_drop, costs_app.
  pose proof (costs_length (take k (drop n src))) as Hl. rewrite length_take, length_drop in Hl. lia.
Qed.

(** A back reference of [n] characters, [d] back. *)
Lemma back_code d n : (1 <= d <= 2047)%nat → (3 <= n <= 10)%nat →
  let compound := Z.shiftl (Z.of_nat d) COUNT_BITS + Z.of_nat (S n) - 4 in
  tok_ok (Back (128 + Z.shiftr compound 8) (Z.land compound 255)) ∧
  ∀ out, (d <= length out)%nat →
    tok_expand (Back (128 + Z.shiftr compound 8) (Z.land compound 255)) out = copy_back d n out.
Proof.
  intros Hd Hn compound.
  assert (Hc : compound = Z.of_nat d * 8 + (Z.of_nat n - 3)).
  { unfold compound, COUNT_BITS. rewrite Z.shiftl_mul_pow2 by lia. lia. }
  rewrite Z.shiftr_div_pow2 by lia. change 255 with (Z.ones 8). rewrite Z.land_ones by lia. change (2 ^ 8) with 256.
  pose proof (Z.div_mod compound 256 ltac:(lia)) as Hdm. pose proof (Z.mod_pos_bound compound 256 ltac:(lia)) as Hb.
  split.
  - cbn. unfold is_byte. split; [|lia]. assert (0 <= compound / 256 < 64); [|lia].
    split; [apply Z.div_pos; lia|apply Z.div_lt_upper_bound; lia].
  - intros out Ho. cbn [tok_expand]. unfold back.
    replace ((128 + compound / 256 - 128) * 256 + compound mod 256) with compound by lia.
    rewrite <-(Z.div_unique_pos compound 8 (Z.of_nat d) (Z.of_nat n - 3)) by lia.
    rewrite <-(Z.mod_unique_pos compound 8 (Z.of_nat d) (Z.of_nat n - 3)) by lia.
    rewrite Nat2Z.id, bool_decide_eq_true_2 by lia. f_equal. lia.
Qed.

(** The codes of a turn bring the output up to the new head. *)
Lemma issue_codes_ok w : walk_inv src w → (pTestHead w < length src)%nat →
  unless too_dear (issue_codes src w) (λ w', pTestTail w' = pTestTail w ∧
    (pTestHead w < pTestHead w' < pTestTail w + 1)%nat ∧ (pTestTail w <= pTestHead w' + 2)%nat ∧
    (4 <= pTestTail w - pTestHead w → pTestTail w = S (pTestHead w'))%nat ∧
    (∃ ts out, wbuf w' = flat ts ∧ Forall tok_ok ts ∧ toks_expand ts [] = Some out ∧
      out ++ space_if (bSpace w') = take (pTestHead w') src) ∧
    (length (wbuf w') + Nat.b2n (bSpace w') <= costs (take (pTestHead w') src))%nat).
Proof.
  intros [Hh Ht Hr Hp Hm (ts&out&Hb&Hok&Hex&Ho) Hl] Hlt. specialize (Ht Hlt). unfold issue_codes. set (F := too_dear).
  destruct (Nat.ltb_spec (pTestTail w - pTestHead w) 4).
  - destruct (lookup_lt_is_Some_2 src _ Hlt) as [c Hc]. rewrite Hc.
    assert (Htk : take (S (pTestHead w)) src = take (pTestHead w) src ++ [c]) by (by apply take_S_r).
    assert (Hcs : costs (take (S (pTestHead w)) src) = (costs (take (pTestHead w) src) + cost c)%nat).
    { rewrite Htk, costs_app. cbn. lia. }
    pose proof (costs_take (S (pTestHead w))) as Hle.
    eapply unless_bind; [apply (Issue_ok F (wbuf w) c (bSpace w))|].
    { by eapply Forall_lookup_1 in Hc. }
    { unfold F, too_dear. lia. }
    intros ? (ts'&sp'&->&Hok'&Hlen&Hsem). cbn.
    split; [done|]. split; [lia|]. split; [lia|]. split; [lia|]. split.
    + destruct (Hsem out) as (out'&Hex'&Ho'). exists (ts ++ ts'), out'.
      rewrite flat_app, toks_expand_app, Hex. rewrite Hb. split_and!; try done.
      * by apply Forall_app.
      * by rewrite Ho', app_assoc, Ho, Htk.
    + rewrite length_app, Hcs. lia.
  - destruct (Hm ltac:(lia)) as [Hd Hmt]. set (n := (pTestTail w - pTestHead w - 1)%nat) in *.
    set (d := (pTestHead w - pPrevHit w)%nat).
    destruct (back_code d n ltac:(unfold d; lia) ltac:(unfold n; lia)) as [Hbt Hbe].
    pose proof (costs_take_more (pTestHead w) n ltac:(unfold n; lia)) as Hmore.
    pose proof (costs_take (pTestHead w + n)) as Hle.
    replace (Z.of_nat (pTestHead w) - Z.of_nat (pPrevHit w)) with (Z.of_nat d) by (unfold d; lia).
    replace (pTestTail w - pTestHead w)%nat with (S n) in * by (unfold n; lia).
    set (compound := Z.shiftl (Z.of_nat d) COUNT_BITS + Z.of_nat (S n) - 4) in *.
    assert (Hsp : unless F (if bSpace w then emit (wbuf w) SPACE else Ret (wbuf w))
      (λ b, b = flat (ts ++ if bSpace w then [Lit SPACE] else []))).
    { rewrite flat_app, Hb. destruct (bSpace w); cbn in *; [|by rewrite app_nil_r].
      apply emit_ok. rewrite <-Hb. unfold F, too_dear. lia. }
    assert (Hl' : (length (flat (ts ++ if bSpace w then [Lit SPACE] else [])) <= costs (take (pTestHead w) src))%nat).
    { rewrite flat_app, length_app, <-Hb. destruct (bSpace w); cbn in *; lia. }
    assert (Hex' : toks_expand (ts ++ if bSpace w then [Lit SPACE] else []) [] = Some (take (pTestHead w) src)).
    { rewrite toks_expand_app, Hex, <-Ho. cbn. destruct (bSpace w); cbn; [done|by rewrite app_nil_r]. }
    eapply unless_bind; [exact Hsp|]. intros b ->.
    change (Z.shiftl 1 DISP_BITS) with 2048. rewrite (proj2 (Z.ltb_lt _ _)) by (unfold d; lia). cbn [negb].
    rewrite (proj2 (Z.leb_le _ _)) by (unfold n; lia). cbn [negb].
    eapply unless_bind; [apply emit_ok; unfold F, too_dear, n in *; lia|]. intros b ->.
    eapply unless_bind; [apply emit_ok; rewrite length_app; cbn [length]; unfold F, too_dear, n in *; lia|]. intros b ->.
    cbn. split; [done|]. split; [lia|]. split; [lia|]. split; [lia|].
    replace (pTestTail w - 1)%nat with (pTestHead w + n)%nat by (unfold n; lia). split.
    + exists ((ts ++ if bSpace w then [Lit SPACE] else []) ++ [Back (128 + Z.shiftr compound 8) (Z.land compound 255)]),
        (take (pTestHead w + n) src).
      rewrite (flat_app (ts ++ _)), toks_expand_app, Hex'. cbn [toks_expand mbind option_bind].
      rewrite Hbe by (rewrite length_take; unfold d; lia). unfold d. rewrite copy_back_ok by (done || unfold n; lia).
      cbn [mbind option_bind space_if]. rewrite app_nil_r. split_and!; try done.
      * by rewrite <-app_assoc.
      * apply Forall_app. split; [apply Forall_app; split; [done|]|by apply Forall_singleton].
        destruct (bSpace w); [|done]. by apply Forall_singleton.
    + rewrite !length_app. cbn [length]. unfold n in *. lia.
Qed.

(** One turn goes on with the walk. *)
Definition steps_left (w : walk) : nat := (2 * length src - pTestTail w - pTestHead w)%nat.

Lemma compress_step_ok w : walk_inv src w → (pTestHead w < length src)%nat →
  unless too_dear (compress_step src w) (λ w', walk_inv src w' ∧ (steps_left w' < steps_left w)%nat).
Proof.
  intros Hw Hlt. unfold compress_step. change (Z.shiftl 1 DISP_BITS - 1) with 2047.
  set (prev := if 2047 <? _ then _ else _).
  set (w1 := Walk prev (pTestHead w) (pTestTail w) (wbuf w) (bSpace w)).
  assert (Hprev : (pPrevHit w <= prev <= pTestHead w)%nat ∧ (pTestHead w <= prev + 2047)%nat ∧
    ((pTestHead w <= pPrevHit w + 2047)%nat → prev = pPrevHit w)).
  { pose proof (wi_prev _ _ Hw). unfold prev. destruct (Z.ltb_spec 2047 (Z.of_nat (pTestHead w) - Z.of_nat (pPrevHit w))); lia. }
  assert (Hw1 : walk_inv src w1).
  { destruct Hw as [? ? ? ? Hm ? ?]. split; cbn; try done; [lia|]. intros H4. destruct (Hm H4) as [Hd Ht].
    destruct Hprev as (_&_&Hsame). rewrite (Hsame ltac:(lia)). done. }
  pose proof (wi_tail _ _ Hw1 Hlt) as Ht. cbn in Ht. pose proof (wi_run _ _ Hw1) as Hr. cbn in Hr.
  change (pTestHead w1) with (pTestHead w). change (pTestTail w1) with (pTestTail w).
  change (pPrevHit w1) with prev.
  set (hit := memfind _ _ _ _).
  destruct (bool_decide ((λ off, (prev + off)%nat) <$> hit = None) || _ || _ || _) eqn:E.
  - pose proof (issue_codes_ok w1 Hw1 Hlt) as Hi. destruct (issue_codes src w1) as [w2|?| |]; try done. cbn [unless mbind outcome_mbind] in *.
    destruct Hi as (Ht2&Hh2&Hr2&H4&Hout&Hlen). cbn in Ht2, Hh2, Hr2, H4. unfold steps_left. cbn [pTestTail pTestHead pPrevHit wbuf bSpace]. rewrite Ht2.
    clear E. case_bool_decide as Hend; (split; [|lia]); split; cbn [pTestTail pTestHead pPrevHit wbuf bSpace]; try done; lia.
  - apply orb_false_iff in E as [[[E1 E2]%orb_false_iff E3]%orb_false_iff E4].
    apply bool_decide_eq_false in E1, E2, E4. apply Z.ltb_ge in E3. change (Z.shiftl 1 COUNT_BITS + 2) with 10 in E3.
    destruct hit as [off|] eqn:Eh; [|done]. cbn [fmap option_fmap option_map default] in *.
    destruct (memfind_hit src prev (pTestHead w) (pTestTail w) off) as [Hoff Hocc]; [lia|exact Eh|].
    assert (prev + off ≠ pTestHead w)%nat by congruence.
    cbn [mbind outcome_mbind unless]. unfold steps_left.
    cbn [pTestTail pTestHead pPrevHit wbuf bSpace w1]. rewrite bool_decide_eq_false_2 by done.
    split; [|lia].
    destruct Hw1 as [? ? ? ? _ ? ?]. cbn in *. split; cbn [pTestTail pTestHead pPrevHit wbuf bSpace]; try done; try lia.
    intros _. split; [lia|]. by replace (S (pTestTail w) - pTestHead w - 1)%nat with (pTestTail w - pTestHead w)%nat by lia.
Qed.

Lemma compress_loop_ok fuel w : walk_inv src w → (steps_left w < fuel)%nat ∨ pTestHead w = length src →
  unless too_dear (compress_loop fuel src w) (λ w', walk_inv src w' ∧ pTestHead w' = length src).
Proof.
  revert w. induction fuel as [|fuel IH]; intros w Hw Hf; cbn [compress_loop]; (case_bool_decide as Hend; [done|]).
  - destruct Hf; [lia|done].
  - pose proof (wi_head _ _ Hw). eapply unless_bind; [apply (compress_step_ok w Hw); lia|]. intros w1 [Hw1 Hlt].
    apply IH; [done|]. left. destruct Hf as [|]; [lia|done].
Qed.

Lemma walk_start : walk_inv src (Walk 0 0 1 [] false).
Proof.
  split; cbn; try lia. exists [], []. done.
Qed.
End walking.

(** ** The final scan

    The scan runs in place: behind [k] lies its output, from [i] on what is
    still to be read, with a gap between them that only grows. *)

Lemma bget_app a c r : bget (a ++ c :: r) (length a) = Ret c.
Proof. unfold bget. by rewrite list_lookup_middle. Qed.

Lemma bset_gap out gap x y r : ∃ gap', length gap' = length gap ∧
  bset (out ++ gap ++ y :: r) (length out) x = Ret ((out ++ [x]) ++ gap' ++ r).
Proof.
  unfold bset. rewrite (proj2 (Nat.ltb_lt _ _)) by (rewrite !length_app; cbn; lia).
  rewrite insert_app_r_alt, Nat.sub_diag by lia. destruct gap as [|g gap].
  - exists []. split; [done|]. cbn. by rewrite <-app_assoc.
  - exists (gap ++ [y]). split; [rewrite length_app; cbn; lia|]. cbn. by rewrite <-!app_assoc.
Qed.

Lemma bset_here out x y r : bset (out ++ y :: r) (length out) x = Ret (out ++ x :: r).
Proof.
  unfold bset. rewrite (proj2 (Nat.ltb_lt _ _)) by (rewrite length_app; cbn; lia).
  by rewrite insert_app_r_alt, Nat.sub_diag by lia.
Qed.

Lemma expand_pending l acc s : expand (length l) acc (l ++ s) = expand 0 (acc ++ l) s.
Proof.
  revert acc. induction l as [|c l IH]; intros acc; cbn [length app expand]; [by rewrite app_nil_r|].
  rewrite IH. by rewrite <-app_assoc.
Qed.

(** A marker with its characters. *)
Lemma expand_group l acc s : (1 <= length l <= 8)%nat →
  expand 0 acc (Z.of_nat (length l) :: l ++ s) = expand 0 (acc ++ l) s.
Proof.
  intros Hl. cbn [expand]. unfold plain. rewrite (proj2 (Z.ltb_lt _ _)), (proj2 (Z.eqb_neq _ 0)) by lia.
  rewrite (proj2 (Z.ltb_ge 8 _)), (proj2 (Z.leb_le _ 8)) by lia. cbn [andb orb].
  rewrite Nat2Z.id. apply expand_pending.
Qed.

Lemma toks_expand_esc l ts acc : toks_expand ((Esc <$> l) ++ ts) acc = toks_expand ts (acc ++ l).
Proof.
  revert acc. induction l as [|c l IH]; intros acc; cbn; [by rewrite app_nil_r|]. rewrite IH. by rewrite <-app_assoc.
Qed.

(** Only marked characters start with a 1. *)
Lemma flat_head ts c r : Forall tok_ok ts → flat ts = c :: r →
  c = 1 → ∃ x ts', ts = Esc x :: ts' ∧ r = x :: flat ts'.
Proof.
  intros Hts Hf ->. destruct ts as [|t ts]; [done|]. apply Forall_cons in Hts as [Ht _].
  change (flat (t :: ts)) with (tok_bytes t ++ flat ts) in Hf.
  destruct t as [c|c|c|b1 b2]; cbn in Ht, Hf.
  - injection Hf as Hc _. subst c. by destruct Ht.
  - injection Hf as <-. by exists c, ts.
  - injection Hf as Hc _. destruct (spc_range c Ht). lia.
  - injection Hf as Hc _. lia.
Qed.

Lemma merge_markers_ok fuel : ∀ out l gap ts i, Forall tok_ok ts →
  (1 <= length l <= 8)%nat → (9 <= fuel + length l)%nat →
  (i + 2 = length out + 1 + length l + length gap)%nat →
  let b := (out ++ Z.of_nat (length l) :: l) ++ gap ++ flat ts in
  ∃ l' gap' ts' i', merge_markers fuel b i (length out) (length b) =
      Ret ((out ++ Z.of_nat (length (l ++ l')) :: l ++ l') ++ gap' ++ flat ts', i') ∧
    ts = (Esc <$> l') ++ ts' ∧ (length (l ++ l') <= 8)%nat ∧
    (i' + 2 = length out + 1 + length (l ++ l') + length gap')%nat ∧
    length ((out ++ Z.of_nat (length (l ++ l')) :: l ++ l') ++ gap' ++ flat ts') = length b.
Proof.
  induction fuel as [|fuel IH]; intros out l gap ts i Hts Hl Hf Hi b; [lia|].
  assert (Hk : bget b (length out) = Ret (Z.of_nat (length l))).
  { unfold b. rewrite <-app_assoc. apply bget_app. }
  assert (Hstop : ∃ l' gap' ts' i',
    Ret (b, i) = Ret ((out ++ Z.of_nat (length (l ++ l')) :: l ++ l') ++ gap' ++ flat ts', i') ∧
    ts = (Esc <$> l') ++ ts' ∧ (length (l ++ l') <= 8)%nat ∧
    (i' + 2 = length out + 1 + length (l ++ l') + length gap')%nat ∧
    length ((out ++ Z.of_nat (length (l ++ l')) :: l ++ l') ++ gap' ++ flat ts') = length b).
  { exists [], gap, ts, i. rewrite app_nil_r. split_and!; try done; lia. }
  cbn [merge_markers]. rewrite Hk. cbn [mbind outcome_mbind].
  assert (Hlen : length b = (i + 2 + length (flat ts))%nat) by (unfold b; rewrite !length_app; cbn; lia).
  destruct (Nat.ltb_spec (i + 2) (length b)) as [Hlt|]; [|exact Hstop].
  destruct (flat ts) as [|m r] eqn:Hfl; [cbn in Hlen; lia|].
  assert (Hpre : length ((out ++ Z.of_nat (length l) :: l) ++ gap) = (i + 2)%nat) by (rewrite !length_app; cbn; lia).
  assert (Hm : bget b (i + 2) = Ret m).
  { unfold b. rewrite app_assoc, <-Hpre. apply bget_app. }
  rewrite Hm. cbn [mbind outcome_mbind].
  destruct (Z.eqb_spec m 1) as [Hm1|]; [|exact Hstop]. destruct (Z.ltb_spec (Z.of_nat (length l)) 8) as [H8|]; [|exact Hstop].
  cbn [andb]. destruct (flat_head ts m r Hts Hfl Hm1) as (x&ts1&->&->). subst m.
  apply Forall_cons in Hts as [_ Hts].
  set (b1 := (out ++ Z.of_nat (length l) + 1 :: l) ++ (gap ++ [1]) ++ x :: flat ts1).
  assert (Hb1 : bset b (length out) (Z.of_nat (length l) + 1) = Ret b1).
  { unfold b, b1. rewrite <-!app_assoc. apply bset_here. }
  rewrite Hb1. cbn [mbind outcome_mbind].
  assert (Hx : bget b1 (i + 3) = Ret x).
  { unfold b1. rewrite app_assoc. replace (i + 3)%nat with (length ((out ++ Z.of_nat (length l) + 1 :: l) ++ gap ++ [1]));
      [apply bget_app|rewrite !length_app; cbn; lia]. }
  rewrite Hx. cbn [mbind outcome_mbind].
  destruct (bset_gap (out ++ Z.of_nat (length l) + 1 :: l) (gap ++ [1]) x x (flat ts1)) as (gap1&Hg1&Hset).
  replace (length out + Z.to_nat (Z.of_nat (length l) + 1))%nat with (length (out ++ Z.of_nat (length l) + 1 :: l))
    by (rewrite length_app; cbn; lia).
  unfold b1. rewrite Hset. cbn [mbind outcome_mbind].
  assert (Hll : Z.of_nat (length l) + 1 = Z.of_nat (length (l ++ [x]))) by (rewrite length_app; cbn; lia).
  destruct (IH out (l ++ [x]) gap1 ts1 (i + 2)%nat Hts) as (l'&gap'&ts'&i'&Hr&Hts1&Hl8&Hi'&Hlb).
  { rewrite length_app. cbn. lia. }
  { rewrite length_app. cbn. lia. }
  { rewrite length_app in *. cbn in *. lia. }
  exists (x :: l'), gap', ts', i'.
  assert (Hcat : l ++ x :: l' = (l ++ [x]) ++ l') by (by rewrite <-app_assoc). rewrite Hcat.
  assert (Hbeq : ((out ++ Z.of_nat (length l) + 1 :: l) ++ [x]) ++ gap1 ++ flat ts1 =
    (out ++ Z.of_nat (length (l ++ [x])) :: l ++ [x]) ++ gap1 ++ flat ts1).
  { rewrite Hll. app_norm. }
  assert (Hbl : length ((out ++ Z.of_nat (length (l ++ [x])) :: l ++ [x]) ++ gap1 ++ flat ts1) = length b).
  { unfold b. rewrite length_app in Hg1. cbn in Hg1. rewrite !length_app. cbn [length].
    rewrite ?length_app. cbn [length]. lia. }
  rewrite Hbeq. cbn zeta in Hr, Hlb. rewrite Hbl in Hr, Hlb. rewrite Hr. split_and!; try done.
  by rewrite Hts1.
Qed.

(** One byte kept. *)
Lemma merge_loop_byte fuel out gap c s len : len = length (out ++ gap ++ c :: s) →
  (c < 128 ∨ 192 <= c) → c ≠ 1 →
  ∃ gap', length gap' = length gap ∧
    merge_loop (S fuel) (out ++ gap ++ c :: s) (length out + length gap) (length out) len =
    merge_loop fuel ((out ++ [c]) ++ gap' ++ s) (length (out ++ [c]) + length gap') (length (out ++ [c])) len.
Proof.
  intros Hl Hc Hne. destruct (bset_gap out gap c c s) as (gap'&Hg&Hset). exists gap'. split; [done|].
  cbn [merge_loop]. rewrite (proj2 (Nat.ltb_lt _ _)) by (rewrite Hl, !length_app; cbn; lia).
  rewrite app_assoc, <-(length_app out gap), bget_app, <-app_assoc. cbn [mbind outcome_mbind].
  rewrite Hset. cbn [mbind outcome_mbind].
  replace ((128 <=? c) && (c <? 192)) with false
    by (symmetry; apply andb_false_iff; destruct Hc; [left; by apply Z.leb_gt|right; by apply Z.ltb_ge]).
  rewrite (proj2 (Z.eqb_neq c 1)) by done. rewrite !length_app, Hg. cbn [length]. f_equal; lia.
Qed.

(** A back reference kept. *)
Lemma merge_loop_back fuel out gap c d s len : len = length (out ++ gap ++ c :: d :: s) → 128 <= c < 192 →
  ∃ gap', length gap' = length gap ∧
    merge_loop (S fuel) (out ++ gap ++ c :: d :: s) (length out + length gap) (length out) len =
    merge_loop fuel ((out ++ [c; d]) ++ gap' ++ s) (length (out ++ [c; d]) + length gap') (length (out ++ [c; d])) len.
Proof.
  intros Hl Hc. destruct (bset_gap out gap c c (d :: s)) as (gap1&Hg1&Hset1).
  destruct (bset_gap (out ++ [c]) gap1 d d s) as (gap2&Hg2&Hset2). exists gap2. split; [lia|].
  cbn [merge_loop]. rewrite (proj2 (Nat.ltb_lt _ _)) by (rewrite Hl, !length_app; cbn; lia).
  rewrite app_assoc, <-(length_app out gap), bget_app, <-app_assoc. cbn [mbind outcome_mbind].
  rewrite Hset1. cbn [mbind outcome_mbind].
  rewrite (proj2 (Z.leb_le 128 c)), (proj2 (Z.ltb_lt c 192)) by lia. cbn [andb].
  replace (length (out ++ gap) + 1)%nat with (length ((out ++ [c]) ++ gap1)) by (rewrite !length_app; cbn; lia).
  rewrite (app_assoc (out ++ [c])), bget_app, <-app_assoc. cbn [mbind outcome_mbind].
  replace (length out + 1)%nat with (length (out ++ [c])) by (rewrite length_app; cbn; lia).
  rewrite Hset2. cbn [mbind outcome_mbind]. rewrite <-(app_assoc out [c] [d]). cbn [app].
  rewrite !length_app, Hg2, Hg1. cbn [length]. f_equal; lia.
Qed.

(** The scan ends, and what it leaves expands to the same text. *)
Lemma merge_loop_ok fuel : ∀ ts out gap len, Forall tok_ok ts → (length ts <= fuel)%nat →
  len = length (out ++ gap ++ flat ts) →
  ∃ b k out', merge_loop fuel (out ++ gap ++ flat ts) (length out + length gap) (length out) len = Ret (b, k) ∧
    take k b = out ++ out' ∧ ∀ acc, expand 0 acc out' = toks_expand ts acc.
Proof.
  induction fuel as [|fuel IH]; intros ts out gap len Hts Hf Hl; destruct ts as [|t ts];
    try (cbn in Hf; lia);
    try (exists (out ++ gap ++ flat []), (length out), []; cbn [merge_loop];
      rewrite (proj2 (Nat.ltb_ge _ _)) by (rewrite Hl, !length_app; cbn; lia);
      split; [done|split; [by rewrite take_app_length', app_nil_r by done|done]]).
  apply Forall_cons in Hts as [Ht Hts]. cbn in Hf.
  assert (Hone : ∀ c, tok_bytes t = [c] → (c < 128 ∨ 192 <= c) → c ≠ 1 →
    ∃ b k out', merge_loop (S fuel) (out ++ gap ++ flat (t :: ts)) (length out + length gap) (length out) len = Ret (b, k) ∧
      take k b = out ++ out' ∧ ∀ acc, expand 0 acc out' = toks_expand (t :: ts) acc).
  { intros c Htb Hc Hne. change (flat (t :: ts)) with (tok_bytes t ++ flat ts) in *. rewrite Htb in *. cbn [app] in *.
    destruct (merge_loop_byte fuel out gap c (flat ts) len Hl Hc Hne) as (gap'&Hg&->).
    destruct (IH ts (out ++ [c]) gap' len Hts ltac:(lia)) as (b&k&out'&Hm&Htk&Hex).
    { rewrite Hl, !length_app. cbn. rewrite Hg. lia. }
    exists b, k, (c :: out'). split; [done|]. split; [rewrite Htk; by rewrite <-app_assoc|].
    intros acc. change (c :: out') with ([c] ++ out'). rewrite <-Htb, expand_tok by done. cbn [toks_expand].
    destruct (tok_expand t acc); cbn; [by apply Hex|done]. }
  destruct t as [c|c|c|b1 b2]; cbn [tok_ok] in Ht.
  - destruct Ht as [Hc Hp]. destruct (plain_range c Hc Hp) as [->|?]; eapply Hone; try done; lia.
  - change (flat (Esc c :: ts)) with (1 :: c :: flat ts) in *.
    destruct (bset_gap out gap 1 1 (c :: flat ts)) as (gap1&Hg1&Hset1).
    destruct (bset_gap (out ++ [1]) gap1 c c (flat ts)) as (gap2&Hg2&Hset2).
    cbn [merge_loop]. rewrite (proj2 (Nat.ltb_lt _ _)) by (rewrite Hl, !length_app; cbn; lia).
    rewrite app_assoc, <-(length_app out gap), bget_app, <-app_assoc. cbn [mbind outcome_mbind].
    rewrite Hset1. cbn [mbind outcome_mbind]. change ((128 <=? 1) && (1 <? 192)) with false. change (1 =? 1) with true. cbn iota.
    replace (length (out ++ gap) + 1)%nat with (length ((out ++ [1]) ++ gap1)) by (rewrite !length_app; cbn; lia).
    rewrite (app_assoc (out ++ [1])), bget_app, <-app_assoc. cbn [mbind outcome_mbind].
    replace (length out + 1)%nat with (length (out ++ [1])) by (rewrite length_app; cbn; lia).
    rewrite Hset2. cbn [mbind outcome_mbind].
    assert (Hb : ((out ++ [1]) ++ [c]) ++ gap2 ++ flat ts = (out ++ Z.of_nat (length [c]) :: [c]) ++ gap2 ++ flat ts).
    { by rewrite <-!app_assoc. }
    rewrite Hb.
    assert (Hlen : len = length ((out ++ Z.of_nat (length [c]) :: [c]) ++ gap2 ++ flat ts)).
    { rewrite Hl, !length_app. cbn. rewrite Hg2, Hg1. lia. }
    destruct (merge_markers_ok 8 out [c] gap2 ts (length (out ++ gap)) Hts) as (l'&gap'&ts'&i'&Hm&->&Hl8&Hi'&Hlb).
    { cbn. lia. }
    { cbn. lia. }
    { rewrite length_app. cbn. lia. }
    cbn zeta in Hm, Hlb. rewrite <-Hlen in Hm, Hlb. rewrite Hm. cbn [mbind outcome_mbind].
    rewrite <-app_assoc. cbn [app]. rewrite bget_app. cbn [mbind outcome_mbind].
    set (grp := Z.of_nat (length (c :: l')) :: c :: l').
    replace (length out + Z.to_nat (Z.of_nat (length (c :: l'))) + 1)%nat with (length (out ++ grp))
      by (unfold grp; rewrite length_app; cbn [length]; lia).
    replace (i' + 2)%nat with (length (out ++ grp) + length gap')%nat
      by (unfold grp; rewrite Hi', !length_app; cbn [length]; lia).
    change (Z.of_nat (length (c :: l')) :: c :: l' ++ gap' ++ flat ts') with (grp ++ gap' ++ flat ts').
    rewrite app_assoc. apply Forall_app in Hts as [_ Hts].
    destruct (IH ts' (out ++ grp) gap' len Hts) as (b&k&out'&Hm'&Htk&Hex).
    { rewrite length_app in Hf. lia. }
    { rewrite <-Hlb. unfold grp. rewrite <-!app_assoc. done. }
    exists b, k, (grp ++ out'). split; [done|]. split; [by rewrite Htk, <-app_assoc|].
    intros acc. unfold grp. cbn [app]. change (c :: l' ++ out') with ((c :: l') ++ out').
    rewrite expand_group by (cbn [app length] in Hl8 |- *; lia). rewrite Hex.
    change (Esc c :: (Esc <$> l') ++ ts') with ((Esc <$> (c :: l')) ++ ts'). by rewrite toks_expand_esc.
  - destruct (spc_range c Ht). eapply Hone; [done|lia|lia].
  - destruct Ht as [H1 H2]. change (flat (Back b1 b2 :: ts)) with (b1 :: b2 :: flat ts) in *.
    destruct (merge_loop_back fuel out gap b1 b2 (flat ts) len Hl H1) as (gap'&Hg&->).
    destruct (IH ts (out ++ [b1; b2]) gap' len Hts ltac:(lia)) as (b&k&out'&Hm&Htk&Hex).
    { rewrite Hl, !length_app. cbn. rewrite Hg. lia. }
    exists b, k, (b1 :: b2 :: out'). split; [done|]. split; [rewrite Htk; by rewrite <-app_assoc|].
    intros acc. change (b1 :: b2 :: out') with (tok_bytes (Back b1 b2) ++ out'). rewrite expand_tok by done.
    cbn [toks_expand]. destruct (tok_expand (Back b1 b2) acc); cbn; [by apply Hex|done].
Qed.

Lemma length_flat ts : (length ts <= length (flat ts))%nat.
Proof.
  induction ts as [|t ts IH]; [done|]. change (flat (t :: ts)) with (tok_bytes t ++ flat ts).
  rewrite length_app. destruct t; cbn in *; lia.
Qed.

(** The buffer keeps its size. *)
Lemma bset_length b i c b' : bset b i c = Ret b' → length b' = length b.
Proof. unfold bset. destruct (i <? length b)%nat; intros [= <-]. by rewrite length_insert. Qed.

Lemma merge_markers_length fuel : ∀ b i k len b' i', merge_markers fuel b i k len = Ret (b', i') → length b' = length b.
Proof.
  induction fuel as [|fuel IH]; intros b i k len b' i'; cbn [merge_markers]; [done|].
  destruct (bget b k) as [c|?| |]; try done. cbn [mbind outcome_mbind].
  destruct (i + 2 <? len)%nat; [|by intros [= <- _]].
  destruct (bget b (i + 2)) as [m|?| |]; try done. cbn [mbind outcome_mbind].
  destruct ((m =? 1) && (c <? 8)); [|by intros [= <- _]].
  destruct (bset b k (c + 1)) as [b1|?| |] eqn:E1; try done. cbn [mbind outcome_mbind].
  destruct (bget b1 (i + 3)) as [x|?| |]; try done. cbn [mbind outcome_mbind].
  destruct (bset b1 _ x) as [b2|?| |] eqn:E2; try done. cbn [mbind outcome_mbind].
  intros H. rewrite (IH _ _ _ _ _ _ H), (bset_length _ _ _ _ E2). by apply bset_length in E1.
Qed.

Lemma merge_loop_length fuel : ∀ b i k len b' k', merge_loop fuel b i k len = Ret (b', k') → length b' = length b.
Proof.
  induction fuel as [|fuel IH]; intros b i k len b' k'; cbn [merge_loop];
    (destruct (i <? len)%nat; [|by intros [= <- _]]); [done|].
  destruct (bget b i) as [c|?| |]; try done. cbn [mbind outcome_mbind].
  destruct (bset b k c) as [b1|?| |] eqn:E1; try done. cbn [mbind outcome_mbind]. apply bset_length in E1.
  destruct ((128 <=? c) && (c <? 192)); [|destruct (c =? 1)].
  - destruct (bget b1 (i + 1)) as [x|?| |]; try done. cbn [mbind outcome_mbind].
    destruct (bset b1 (k + 1) x) as [b2|?| |] eqn:E2; try done. cbn [mbind outcome_mbind]. apply bset_length in E2.
    intros H. apply IH in H. congruence.
  - destruct (bget b1 (i + 1)) as [x|?| |]; try done. cbn [mbind outcome_mbind].
    destruct (bset b1 (k + 1) x) as [b2|?| |] eqn:E2; try done. cbn [mbind outcome_mbind]. apply bset_length in E2.
    destruct (merge_markers 8 b2 i k len) as [[b3 i3]|?| |] eqn:E3; try done. cbn [mbind outcome_mbind].
    apply merge_markers_length in E3. destruct (bget b3 k) as [y|?| |]; try done. cbn [mbind outcome_mbind].
    intros H. apply IH in H. congruence.
  - intros H. apply IH in H. congruence.
Qed.

(** The compressor is undone by the reader. *)
Lemma compressbuf_spec src : Forall is_byte src →
  unless (too_dear src) (compressbuf src) (λ out, decompress out = Some src ∧ (length out <= costs src)%nat).
Proof.
  intros Hsrc. unfold compressbuf. eapply unless_bind.
  { apply (compress_loop_ok src Hsrc (2 * length src) (Walk 0 0 1 [] false)); [apply walk_start|].
    unfold steps_left. cbn. destruct src; [by right|left; cbn; lia]. }
  intros w [[_ _ _ _ _ (ts&out&Hb&Hok&Hex&Hout) Hlen] Hend]. rewrite Hend, take_ge in Hout, Hlen by done.
  set (ts' := ts ++ if bSpace w then [Lit SPACE] else []).
  assert (Hok' : Forall tok_ok ts').
  { apply Forall_app. split; [done|]. destruct (bSpace w); [|done]. by apply Forall_singleton. }
  assert (Hex' : toks_expand ts' [] = Some src).
  { unfold ts'. rewrite toks_expand_app, Hex, <-Hout. cbn. destruct (bSpace w); cbn; [done|by rewrite app_nil_r]. }
  eapply (unless_bind _ _ _ (λ b, b = flat ts')).
  { unfold ts'. rewrite flat_app, Hb. destruct (bSpace w); cbn in *; [|by rewrite app_nil_r].
    apply emit_ok. rewrite <-Hb. unfold too_dear. lia. }
  intros ? ->. destruct (merge_loop_ok (length (flat ts')) ts' [] [] (length (flat ts')) Hok' (length_flat ts') eq_refl)
    as (b&k&out'&Hm&Htk&Hsem).
  cbn [app length Nat.add] in Hm, Htk. rewrite Hm. cbn [mbind outcome_mbind unless].
  apply merge_loop_length in Hm. split; [unfold decompress; by rewrite Htk, Hsem|].
  rewrite length_take, Hm. unfold ts'. rewrite flat_app, length_app, <-Hb. destruct (bSpace w); cbn in *; lia.
Qed.

Lemma compressbuf_ok src : Forall is_byte src → Z.of_nat (costs src) <= OUT_SIZE →
  ∃ out, compressbuf src = Ret out ∧ decompress out = Some src ∧ Z.of_nat (length out) <= OUT_SIZE.
Proof.
  intros Hsrc Hcost. pose proof (compressbuf_spec src Hsrc) as H. unfold too_dear in H.
  destruct (compressbuf src) as [out|?| |]; cbn [unless] in H; try done; [|lia].
  destruct H as [Hd Hl]. exists out. split_and!; [done|done|lia].
Qed.

(** C25. A compressed record expands to its text: whenever [compressbuf]
    returns, reading back references, packed spaces and marked characters gives
    the text again.  It returns for every text whose characters cost at most
    6000 bytes, one for an ordinary character and two for one that needs a
    marker; with other texts, which the code does not exclude, it may write
    past its buffer, but nothing else goes wrong. *)
Theorem compress_roundtrip src : Forall is_byte src →
  match compressbuf src with
  | Ret out => decompress out = Some src
  | Crash => OUT_SIZE < Z.of_nat (costs src)
  | _ => False
  end.
Proof. intros H. pose proof (compressbuf_spec src H) as Hs. destruct (compressbuf src); try done. by destruct Hs. Qed.

Lemma compress_roundtrip_witness :
  ∃ out, compressbuf (bytes_of "the cat, the other cat, and the cat") = Ret out ∧
    decompress out = Some (bytes_of "the cat, the other cat, and the cat").
Proof.
  pose proof (compress_roundtrip (bytes_of "the cat, the other cat, and the cat") ltac:(apply (bool_decide_unpack _); vm_compute; exact I)) as H.
  assert ((λ _, ()) <$> compressbuf (bytes_of "the cat, the other cat, and the cat") = Ret ()) as E by (vm_compute; reflexivity).
  destruct (compressbuf _) as [out|?| |]; [|discriminate..]. exists out. split; [reflexivity|exact H].
Defined.
