(* ===== verification/PalmDoc.v ===== *)
(** * The Pilot database of the text-to-Doc distiller (src/tcsproxy/text2doc/src/text2doc.c)

    The second half of the distiller: growing memory buffers, the database
    with its header, its table of offsets that is filled in while the records
    are written, the title made from a digest, and [DistillerMain].  Words are
    those of the 32-bit machine the structures are laid out for ([DWORD] is
    [unsigned long]).  The theorems read the database back. *)

From S2P Require Import Prelude CString Md5 TextDoc.

Open Scope Z_scope.

(** ** Definitions: the database *)

(** Integers in network order. *)
Definition be (n : nat) (x : Z) : bytes := rev (to_le n x).
Definition DOCHEADSZ : nat := 78.
Definition recSize : Z := 4096.

(** A [MemBuf]: the memory behind [buf], whose size is [len], and [pos]. *)
Record MemBuf := Buf { mem : bytes; pos : nat }.

(** [bufread(b, data, amt)]: the bytes read. *)
Definition bufread (b : MemBuf) (amt : nat) : bytes * MemBuf :=
  let amt := Nat.min amt (length (mem b) - pos b) in
  (take amt (drop (pos b) (mem b)), Buf (mem b) (pos b + amt)).

Section database.
(** [DistillerRealloc] succeeds for a size or not; what new memory holds. *)
Context (alloc_ok : nat → bool) (junk : byte).

Fixpoint bufgrow (fuel : nat) (b : MemBuf) (amt : nat) : outcome MemBuf :=
  if (length (mem b) - pos b <? amt)%nat then
    match fuel with
    | O => Stuck
    | S fuel' =>
        let len := (2 * (length (mem b) + 1))%nat in
        if alloc_ok len
        then bufgrow fuel' (Buf (mem b ++ replicate (len - length (mem b)) junk) (pos b)) amt
        else Crash
    end
  else Ret b.
(** [bufwrite(b, data, amt)]. *)
Definition bufwrite (b : MemBuf) (data : bytes) : outcome MemBuf :=
  b ← bufgrow (length data) b (length data);
  Ret (Buf (take (pos b) (mem b) ++ data ++ drop (pos b + length data) (mem b)) (pos b + length data)).
Definition out_long (d : Z) (b : MemBuf) : outcome MemBuf := bufwrite b (be 4 (u32 d)).

(** The image of [struct tDocHeader]; [stack] is what [head1.sName] held. *)
Definition sName (title stack : bytes) : bytes :=
  let t := take 31 title in <[31%nat := 0]> (t ++ [0] ++ drop (S (length t)) stack).
Definition doc_header (title stack : bytes) (now z : Z) : bytes :=
  let pilot_now := now + 2082844800 in
  sName title stack ++ be 4 0 ++ be 4 (u32 pilot_now) ++ be 4 (u32 pilot_now) ++ be 4 0 ++ be 4 0 ++ be 4 0 ++
  be 4 0 ++ bytes_of "TEXt" ++ bytes_of "REAd" ++ be 4 0 ++ be 4 0 ++ be 2 (u16 z).
Definition doc_record0 (storySize numRecs : Z) : bytes :=
  be 2 2 ++ be 2 0 ++ be 4 (u32 storySize) ++ be 2 (u16 numRecs) ++ be 2 recSize ++ be 4 0.

(** [while(z--)]: the record offsets. *)
Fixpoint write_offsets (z : nat) (x index : Z) (outbuf : MemBuf) : outcome MemBuf :=
  match z with
  | O => Ret outbuf
  | S z' =>
      outbuf ← out_long x outbuf;
      outbuf ← out_long index outbuf;
      write_offsets z' (x + recSize) (index + 1) outbuf
  end.

(** The loop over the records, [n] to go. *)
Fixpoint write_records (n recNum : nat) (inbuf outbuf : MemBuf) : outcome MemBuf :=
  match n with
  | O => Ret outbuf
  | S n' =>
      let p := pos outbuf in
      outbuf ← out_long (Z.of_nat p) (Buf (mem outbuf) (86 + 8 * recNum));
      let outbuf := Buf (mem outbuf) p in
      let '(buf, inbuf) := bufread inbuf (Z.to_nat recSize) in
      match buf with
      | [] => Ret outbuf
      | _ =>
          cbuf ← compressbuf buf;
          outbuf ← bufwrite outbuf cbuf;
          write_records n' (S recNum) inbuf outbuf
      end
  end.

(** [makedoc]; [out0] is the memory of [DistillerMalloc(8000)]. *)
Definition makedoc (stack out0 : bytes) (now : Z) (text title : bytes) : outcome bytes :=
  let storySize := Z.of_nat (length text) in
  let z := storySize / recSize in
  let numRecs := if z * recSize <? storySize then z + 1 else z in
  let z := numRecs + 1 in
  outbuf ← bufwrite (Buf out0 0) (doc_header title stack now z);
  let x := 80 + z * 8 in
  let index := 1081049088 in
  outbuf ← out_long x outbuf;
  outbuf ← out_long index outbuf;
  outbuf ← write_offsets (Z.to_nat numRecs) (x + 16) (index + 1) outbuf;
  outbuf ← bufwrite outbuf [0; 0];
  outbuf ← bufwrite outbuf (doc_record0 storySize numRecs);
  outbuf ← write_records (Z.to_nat numRecs) 0 (Buf text 0) outbuf;
  Ret (take (pos outbuf) (mem outbuf)).
End database.

(** [uuenc16(out, in)], the terminating NUL left off. *)
Definition uuarray : bytes := bytes_of "ABCDEFGHIJKLMNOPQRSTUVWXYZabcdefghijklmnopqrstuvwxyz0123456789+-".
Definition uuchar (c : Z) : byte := uuarray !!! Z.to_nat c.
Definition uu_group (inp : bytes) (i : nat) : bytes :=
  let a := inp !!! i in let b := inp !!! (i + 1)%nat in let c := inp !!! (i + 2)%nat in
  [uuchar (Z.shiftr a 2); uuchar (Z.lor (Z.shiftl (Z.land a 3) 4) (Z.shiftr b 4));
   uuchar (Z.lor (Z.shiftl (Z.land b 15) 2) (Z.shiftr c 6)); uuchar (Z.land c 63)].
Definition uuenc16 (inp : bytes) : bytes :=
  ([0; 3; 6; 9; 12]%nat ≫= uu_group inp) ++
  [uuchar (Z.shiftr (inp !!! 15%nat) 2); uuchar (Z.shiftl (Z.land (inp !!! 15%nat) 3) 4)].

(** [DistillerMain]: the title is formed from the digest of the content. *)
Inductive DistillerStatus := distOk | distBadInput.
Record DistillerOutput := Output { out_mime : bytes; out_data : bytes; out_metadata : bytes }.
Definition HEADERS : bytes :=
  bytes_of "200 HTTP/1.0 OK" ++ [13; 10] ++ bytes_of "Content-Type: application/x-palmosdb" ++ [13; 10; 13; 10].

Definition DistillerMain (alloc_ok : nat → bool) (junk : byte) (stack out0 : bytes) (now : Z) (md5 : MD5.MD5_CTX)
    (mime data : bytes) : outcome (DistillerStatus * option DistillerOutput) :=
  if negb (strcasecmp mime (bytes_of "text/html") =? 0) && negb (strcasecmp mime (bytes_of "text/plain") =? 0)
  then Ret (distBadInput, None)
  else
    let md5 := MD5.MD5Init md5 in
    let md5 := MD5.MD5Update md5 data in
    let md5 := MD5.MD5Final md5 in
    let title := bytes_of "Doc id " ++ uuenc16 (MD5.digest md5) in
    docptr ← makedoc alloc_ok junk stack out0 now data title;
    Ret (distOk, Some (Output (bytes_of "application/x-palmosdb") docptr HEADERS)).

(** ** The format

    A reader of the database: the number of records and their offsets from
    the header, the length of the text from the first record, and the text
    from the others. *)
Definition of_be (s : bytes) : Z := of_le (rev s).
Definition doc_count (doc : bytes) : nat := Z.to_nat (of_be (take 2 (drop 76 doc))).
Definition doc_entry (doc : bytes) (i : nat) : nat := Z.to_nat (of_be (take 4 (drop (78 + 8 * i) doc))).
Definition doc_record (doc : bytes) (i : nat) : bytes :=
  let start := doc_entry doc i in
  let stop := if (S i <? doc_count doc)%nat then doc_entry doc (S i) else length doc in
  take (stop - start) (drop start doc).
Definition doc_text (doc : bytes) : option bytes :=
  mjoin <$> mapM (λ i, decompress (doc_record doc i)) (seq 1 (doc_count doc - 1)).
Definition doc_length (doc : bytes) : Z := of_be (take 4 (drop 4 (doc_record doc 0))).
(** The title, up to its NUL. *)
Definition doc_name (doc : bytes) : bytes := c_str (take 32 doc).

(** ** Buffers *)

(** What has been written. *)
Definition holds (s : bytes) (b : MemBuf) : Prop := ∃ rest, mem b = s ++ rest ∧ pos b = length s.

Lemma length_be n x : length (be n x) = n.
Proof. unfold be. by rewrite length_rev, length_to_le. Qed.

Lemma of_be_be n x : 0 <= x < 256 ^ Z.of_nat n → of_be (be n x) = x.
Proof. intros. unfold of_be, be. by rewrite rev_involutive, of_le_to_le. Qed.

Section buffers.
Context (alloc_ok : nat → bool) (junk : byte) (Halloc : ∀ n, alloc_ok n = true).

Lemma bufgrow_ok fuel b amt : (amt <= fuel + (length (mem b) - pos b))%nat → (pos b <= length (mem b))%nat →
  ∃ more, bufgrow alloc_ok junk fuel b amt = Ret (Buf (mem b ++ more) (pos b)) ∧
    (amt <= length (mem b ++ more) - pos b)%nat.
Proof.
  revert b. induction fuel as [|fuel IH]; intros b Hf Hp; cbn [bufgrow];
    destruct (Nat.ltb_spec (length (mem b) - pos b) amt); try lia;
    try (exists []; rewrite app_nil_r; by destruct b).
  rewrite Halloc.
  set (more := replicate (2 * (length (mem b) + 1) - length (mem b)) junk).
  assert (Hm : length (mem b ++ more) = (2 * length (mem b) + 2)%nat).
  { unfold more. rewrite length_app, length_replicate. lia. }
  destruct (IH (Buf (mem b ++ more) (pos b))) as (more'&Hr&Hl); cbn [mem pos]; [lia|lia|].
  exists (more ++ more'). cbn [mem pos] in Hr, Hl. by rewrite app_assoc.
Qed.

Lemma bufwrite_ok s b d : holds s b →
  ∃ b', bufwrite alloc_ok junk b d = Ret b' ∧ holds (s ++ d) b'.
Proof.
  intros (rest&Hm&Hp). unfold bufwrite.
  destruct (bufgrow_ok (length d) b (length d)) as (more&->&Hl); [lia|rewrite Hm, Hp; len_lia|].
  cbn [mbind outcome_mbind mem pos]. eexists. split; [done|].
  rewrite Hm, Hp, <-app_assoc in *. exists (drop (length d) (rest ++ more)). cbn [mem pos].
  rewrite take_app_length, drop_app_add, <-app_assoc. split; [done|]. by rewrite length_app.
Qed.

Lemma out_long_ok s b x : holds s b → ∃ b', out_long alloc_ok junk x b = Ret b' ∧ holds (s ++ be 4 (u32 x)) b'.
Proof. apply bufwrite_ok. Qed.

(** Overwriting four bytes in the middle. *)
Lemma out_long_at a old c rest p x : length old = 4%nat → p = length a →
  out_long alloc_ok junk x (Buf ((a ++ old ++ c) ++ rest) p) =
  Ret (Buf ((a ++ be 4 (u32 x) ++ c) ++ rest) (p + 4)).
Proof.
  intros Ho ->. unfold out_long, bufwrite. rewrite length_be. cbn [bufgrow mem pos].
  rewrite (proj2 (Nat.ltb_ge _ _)) by len_lia.
  cbn [mbind outcome_mbind mem pos]. rewrite <-!app_assoc, take_app_length.
  by rewrite drop_app_add, <-Ho, drop_app_length.
Qed.

(** ** The table of offsets *)

Definition index0 : Z := 1081049088.
Definition entry (k : nat) (x : Z) : bytes := be 4 (u32 x) ++ be 4 (u32 (index0 + Z.of_nat k)).
Fixpoint entries (k : nat) (xs : list Z) : bytes :=
  match xs with [] => [] | x :: xs' => entry k x ++ entries (S k) xs' end.

Lemma length_entries k xs : length (entries k xs) = (8 * length xs)%nat.
Proof. revert k. induction xs as [|x xs IH]; intros k; cbn [entries]; [done|]. unfold entry. rewrite !length_app, !length_be, IH. cbn. lia. Qed.

Lemma entries_app k xs ys : entries k (xs ++ ys) = entries k xs ++ entries (k + length xs) ys.
Proof.
  revert k. induction xs as [|x xs IH]; intros k; cbn [entries app length]; [by rewrite Nat.add_0_r|].
  rewrite IH, <-app_assoc. by replace (S k + length xs)%nat with (k + S (length xs))%nat by lia.
Qed.

(** The first pass writes guesses. *)
Fixpoint guesses (n : nat) (x : Z) : list Z := match n with O => [] | S n' => x :: guesses n' (x + recSize) end.

Lemma length_guesses n x : length (guesses n x) = n.
Proof. revert x. induction n; intros; cbn; by f_equal. Qed.

Lemma write_offsets_ok n : ∀ k x s b, holds s b →
  ∃ b', write_offsets alloc_ok junk n x (index0 + Z.of_nat k) b = Ret b' ∧ holds (s ++ entries k (guesses n x)) b'.
Proof.
  induction n as [|n IH]; intros k x s b Hb; cbn [write_offsets guesses entries].
  { exists b. by rewrite app_nil_r. }
  destruct (out_long_ok _ _ x Hb) as (b1&->&Hb1). cbn [mbind outcome_mbind].
  destruct (out_long_ok _ _ (index0 + Z.of_nat k) Hb1) as (b2&->&Hb2). cbn [mbind outcome_mbind].
  destruct (IH (S k) (x + recSize) _ _ Hb2) as (b3&Hr&Hb3).
  replace (index0 + Z.of_nat k + 1) with (index0 + Z.of_nat (S k)) by lia. exists b3. split; [exact Hr|].
  unfold entry. by rewrite <-!app_assoc in *.
Qed.

(** ** The records *)

Fixpoint chunks (n : nat) (text : bytes) : list bytes :=
  match n with O => [] | S n' => take 4096 text :: chunks n' (drop 4096 text) end.
Fixpoint offsets (o : nat) (cs : list bytes) : list Z :=
  match cs with [] => [] | c :: cs' => Z.of_nat o :: offsets (o + length c) cs' end.

Lemma chunks_join n text : (length text <= 4096 * n)%nat → mjoin (chunks n text) = text.
Proof.
  revert text. induction n as [|n IH]; intros text Hl; cbn [chunks mjoin list_join].
  { destruct text; [done|cbn in Hl; lia]. }
  rewrite IH by (rewrite length_drop; lia). apply take_drop.
Qed.

Lemma length_chunks n text : length (chunks n text) = n.
Proof. revert text. induction n; intros; cbn; by f_equal. Qed.

Lemma length_offsets o cs : length (offsets o cs) = length cs.
Proof. revert o. induction cs; intros; cbn; by f_equal. Qed.

(** A record as the compressor and the reader see it. *)
Definition packs (c ch : bytes) : Prop := decompress c = Some ch ∧ Z.of_nat (length c) <= OUT_SIZE.

Lemma bufread_ok text p n : (p <= length text)%nat →
  bufread (Buf text p) n = (take n (drop p text), Buf text (p + Nat.min n (length text - p))).
Proof. intros Hp. unfold bufread. cbn [mem pos]. f_equal. by rewrite <-length_drop, <-take_take, firstn_all. Qed.

Definition fits (text : bytes) : Prop := ∀ q, Z.of_nat (costs (take 4096 (drop (4096 * q) text))) <= OUT_SIZE.

(** One more offset becomes known. *)
Lemma set_entry hdr pre y post tl rest x p : length hdr = 78%nat → p = (78 + 8 * length pre)%nat →
  out_long alloc_ok junk x (Buf ((hdr ++ entries 0 (pre ++ y :: post) ++ tl) ++ rest) p) =
  Ret (Buf ((hdr ++ entries 0 ((pre ++ [x]) ++ post) ++ tl) ++ rest) (p + 4)).
Proof.
  intros Hh Hp. rewrite <-(app_assoc pre). cbn [app]. rewrite !entries_app. cbn [entries Nat.add].
  set (old := be 4 (u32 y)). set (tag := be 4 (u32 (index0 + Z.of_nat (length pre)))).
  unfold entry. fold old tag.
  pose proof (out_long_at (hdr ++ entries 0 pre) old (tag ++ entries (S (length pre)) post ++ tl) rest p x) as H.
  rewrite <-!app_assoc in *. apply H; [apply length_be|]. rewrite length_app, length_entries. lia.
Qed.

(** The bytes of the text that are left are written as records, and the
    offsets of the records replace the guesses of the table. *)
Lemma write_records_ok text hdr : Forall is_byte text → length hdr = 78%nat → ∀ n r p pre post tl outb,
  length post = n → length pre = S r → p = Nat.min (4096 * r) (length text) →
  (n = O ∨ 4096 * (r + n - 1) < length text)%nat → fits text →
  holds (hdr ++ entries 0 (pre ++ post) ++ tl) outb →
  ∃ cs b, write_records alloc_ok junk n r (Buf text p) outb = Ret b ∧
    Forall2 packs cs (chunks n (drop p text)) ∧
    holds (hdr ++ entries 0 (pre ++ offsets (78 + 8 * (S r + n) + length tl) cs) ++ tl ++ mjoin cs) b.
Proof.
  intros Htext Hh. induction n as [|n IH]; intros r p pre post tl outb Hpost Hpre Hp Hn Hfit Hout.
  { exists [], outb. destruct post; [|done]. cbn [offsets mjoin list_join]. rewrite !app_nil_r in *. split; [done|]. by split; [constructor|]. }
  destruct Hn as [|Hn]; [done|]. destruct post as [|y post]; [done|]. injection Hpost as Hpost.
  assert (Hp' : p = (4096 * r)%nat) by lia. cbn [write_records].
  destruct Hout as (rest&Hm&Hpos). destruct outb as [om op]. cbn [mem pos] in *. subst om.
  rewrite (set_entry hdr pre y post tl rest) by (done || rewrite Hpre; lia). cbn [mbind outcome_mbind mem pos].
  rewrite bufread_ok by lia. change (Z.to_nat recSize) with 4096%nat.
  remember (take 4096 (drop p text)) as ch eqn:Ech.
  assert (Hch : length ch = Nat.min 4096 (length text - p)) by (by rewrite Ech, length_take, length_drop).
  destruct (compressbuf_ok ch) as (c&Hc&Hdec&Hlen).
  { rewrite Ech. by apply Forall_take, Forall_drop. }
  { rewrite Ech, Hp'. apply Hfit. }
  destruct ch as [|c0 ch']; [cbn [length] in Hch; lia|].
  rewrite Hc. cbn [mbind outcome_mbind].
  destruct (bufwrite_ok (hdr ++ entries 0 ((pre ++ [Z.of_nat op]) ++ post) ++ tl)
    (Buf ((hdr ++ entries 0 ((pre ++ [Z.of_nat op]) ++ post) ++ tl) ++ rest) op) c) as (b1&Hw&Hb1).
  { exists rest. split; [done|]. cbn [pos]. rewrite Hpos. rewrite !length_app, !length_entries, !length_app. cbn [length]. lia. }
  rewrite Hw. cbn [mbind outcome_mbind].
  destruct (IH (S r) (p + Nat.min 4096 (length text - p))%nat (pre ++ [Z.of_nat op]) post (tl ++ c) b1) as (cs&b&Hr&Hf&Hb); try done.
  { rewrite length_app, Hpre. cbn. lia. }
  { lia. }
  { destruct n; [by left|right; lia]. }
  { rewrite <-(app_assoc hdr), <-(app_assoc (entries _ _)) in Hb1. exact Hb1. }
  exists (c :: cs), b. split; [exact Hr|]. split.
  - cbn [chunks]. rewrite <-Ech. apply Forall2_cons. split; [by split|]. rewrite drop_drop.
    destruct (Nat.le_gt_cases 4096 (length text - p)).
    + by replace (p + 4096)%nat with (p + Nat.min 4096 (length text - p))%nat by lia.
    + rewrite drop_ge in Hf by lia. by rewrite (drop_ge text (p + 4096)) by lia.
  - cbn [offsets mjoin list_join]. destruct Hb as (rest'&Hm'&Hp''). exists rest'. rewrite Hm', Hp''.
    assert (Hop : op = (78 + 8 * (S r + S n) + length tl)%nat).
    { rewrite Hpos, !length_app, length_entries, length_app, Hpre. cbn [length]. lia. }
    assert (Heq : hdr ++ entries 0 ((pre ++ [Z.of_nat op]) ++ offsets (78 + 8 * (S (S r) + n) + length (tl ++ c)) cs) ++ (tl ++ c) ++ mjoin cs
      = hdr ++ entries 0 (pre ++ Z.of_nat (78 + 8 * (S r + S n) + length tl) :: offsets (78 + 8 * (S r + S n) + length tl + length c) cs) ++ tl ++ c ++ mjoin cs).
    { replace (78 + 8 * (S (S r) + n) + length (tl ++ c))%nat with (78 + 8 * (S r + S n) + length tl + length c)%nat
        by (rewrite length_app; lia).
      rewrite <-Hop. app_norm. }
    by rewrite Heq.
Qed.

(** ** The whole database *)

Definition num_recs (text : bytes) : nat := ((length text + 4095) / 4096)%nat.

Lemma num_recs_spec text : (length text <= 4096 * num_recs text)%nat ∧
  (num_recs text = O ∨ 4096 * (num_recs text - 1) < length text)%nat.
Proof.
  unfold num_recs. pose proof (Nat.div_mod_eq (length text + 4095) 4096).
  pose proof (Nat.mod_upper_bound (length text + 4095) 4096). lia.
Qed.

Lemma num_recs_code text : let storySize := Z.of_nat (length text) in let z := storySize / recSize in
  (if z * recSize <? storySize then z + 1 else z) = Z.of_nat (num_recs text).
Proof.
  intros storySize z. subst storySize. unfold recSize in *. pose proof (num_recs_spec text).
  pose proof (Z.div_mod (Z.of_nat (length text)) 4096 ltac:(lia)).
  pose proof (Z.mod_pos_bound (Z.of_nat (length text)) 4096 ltac:(lia)). fold z in H0.
  destruct (Z.ltb_spec (z * 4096) (Z.of_nat (length text))); lia.
Qed.

Definition image (hdr : bytes) (n : nat) (tl : bytes) (cs : list bytes) : bytes :=
  hdr ++ entries 0 (Z.of_nat (88 + 8 * n) :: offsets (104 + 8 * n) cs) ++ ([0; 0] ++ tl) ++ mjoin cs.

Lemma length_header title stack now z : length stack = 32%nat → length (doc_header title stack now z) = 78%nat.
Proof.
  intros Hs. unfold doc_header, sName. rewrite !length_app, length_insert, !length_app, !length_be, length_drop, Hs, length_take.
  cbn [length bytes_of]. lia.
Qed.

Lemma makedoc_image stack out0 now text title : length stack = 32%nat → Forall is_byte text → fits text →
  let n := num_recs text in
  ∃ cs, makedoc alloc_ok junk stack out0 now text title =
      Ret (image (doc_header title stack now (Z.of_nat n + 1)) n (doc_record0 (Z.of_nat (length text)) (Z.of_nat n)) cs) ∧
    Forall2 packs cs (chunks n text).
Proof.
  intros Hst Htext Hfit n. destruct (num_recs_spec text) as [Hle Hlt]. fold n in Hle, Hlt.
  unfold makedoc. rewrite (num_recs_code text). fold n.
  set (hdr := doc_header title stack now (Z.of_nat n + 1)). set (x := 80 + (Z.of_nat n + 1) * 8).
  pose proof (length_header title stack now (Z.of_nat n + 1) Hst) as Hh. fold hdr in Hh.
  destruct (bufwrite_ok [] (Buf out0 0) hdr) as (b1&->&H1); [by exists out0|]. cbn [mbind outcome_mbind app] in *.
  destruct (out_long_ok _ _ x H1) as (b2&->&H2). cbn [mbind outcome_mbind].
  destruct (out_long_ok _ _ 1081049088 H2) as (b3&->&H3). cbn [mbind outcome_mbind].
  rewrite Nat2Z.id. destruct (write_offsets_ok n 1 (x + 16) _ _ H3) as (b4&Hw&H4).
  change (1081049088 + 1) with (index0 + Z.of_nat 1). rewrite Hw. cbn [mbind outcome_mbind].
  destruct (bufwrite_ok _ _ [0; 0] H4) as (b5&->&H5). cbn [mbind outcome_mbind].
  set (rec0 := doc_record0 (Z.of_nat (length text)) (Z.of_nat n)).
  destruct (bufwrite_ok _ _ rec0 H5) as (b6&->&H6). cbn [mbind outcome_mbind].
  destruct (write_records_ok text hdr Htext Hh n 0 0 [x] (guesses n (x + 16)) ([0; 0] ++ rec0) b6)
    as (cs&b&Hr&Hf&Hb); try done.
  { apply length_guesses. }
  { cbn [app entries]. unfold entry. change (index0 + Z.of_nat 0) with 1081049088. by rewrite <-!app_assoc in *. }
  rewrite Hr. cbn [mbind outcome_mbind]. exists cs. split; [|done]. destruct Hb as (rest&Hm&Hp). f_equal.
  assert (Hl : length ([0; 0] ++ rec0) = 18%nat) by reflexivity. rewrite Hl in Hm, Hp.
  rewrite Hm, Hp, take_app_length. unfold image.
  replace (Z.of_nat (88 + 8 * n)) with x by (unfold x; lia).
  by replace (104 + 8 * n)%nat with (78 + 8 * (1 + n) + 18)%nat by lia.
Qed.
End buffers.

(** ** Reading the database *)

Lemma drop_at {A} (a b : list A) n : n = length a → drop n (a ++ b) = b.
Proof. intros ->. by rewrite drop_app_length. Qed.

Lemma take_at {A} (a b : list A) n : n = length a → take n (a ++ b) = a.
Proof. intros ->. by rewrite take_app_length. Qed.

Lemma doc_entry_at hdr pre x post rest : length hdr = 78%nat → 0 <= x < 2 ^ 32 →
  doc_entry (hdr ++ entries 0 (pre ++ x :: post) ++ rest) (length pre) = Z.to_nat x.
Proof.
  intros Hh Hx. unfold doc_entry. rewrite entries_app, <-app_assoc, app_assoc.
  rewrite drop_at by (rewrite length_app, length_entries; lia). cbn [entries]. unfold entry.
  rewrite <-!app_assoc, take_at by done. rewrite (wrap_small 32 x) by done. by rewrite of_be_be.
Qed.

Lemma offsets_app o cs cs' : offsets o (cs ++ cs') = offsets o cs ++ offsets (o + length (mjoin cs)) cs'.
Proof.
  revert o. induction cs as [|c cs IH]; intros o; cbn [offsets app mjoin list_join length]; [by rewrite Nat.add_0_r|].
  rewrite IH, length_app. by rewrite Nat.add_assoc.
Qed.

Lemma mjoin_cons (c : bytes) cs : mjoin (c :: cs) = c ++ mjoin cs.
Proof. done. Qed.

Lemma mjoin_bound cs chs : Forall2 packs cs chs → Z.of_nat (length (mjoin cs)) <= 6000 * Z.of_nat (length chs).
Proof.
  induction 1 as [|c ch cs chs [_ Hc] _ IH]; [cbn; lia|].
  rewrite mjoin_cons, length_app, length_cons. unfold OUT_SIZE in Hc. lia.
Qed.

Section reading.
Context (title stack : bytes) (now storySize : Z) (n : nat) (cs : list bytes).
Context (Hstack : length stack = 32%nat) (Hn : Z.of_nat n < 65535).
Context (Hcs : length cs = n) (Hsize : Z.of_nat (length (mjoin cs)) <= 6000 * Z.of_nat n) (Hstory : 0 <= storySize < 2 ^ 32).

Let hdr := doc_header title stack now (Z.of_nat n + 1).
Let rec0 := doc_record0 storySize (Z.of_nat n).
Let doc := image hdr n rec0 cs.

Lemma length_hdr : length hdr = 78%nat.
Proof. by apply length_header. Qed.

Lemma length_doc : length doc = (104 + 8 * n + length (mjoin cs))%nat.
Proof.
  unfold doc, image. rewrite !length_app, length_hdr, length_entries. cbn [length]. rewrite length_offsets, Hcs.
  assert (Hl : length rec0 = 16%nat) by reflexivity. lia.
Qed.

Lemma doc_count_image : doc_count doc = S n.
Proof.
  unfold doc_count, doc, image. set (rest := entries 0 _ ++ _ ++ _). unfold hdr, doc_header.
  set (A := sName title stack). assert (HA : length A = 32%nat).
  { unfold A, sName. rewrite length_insert, !length_app, length_drop, Hstack, length_take. cbn [length]. lia. }
  rewrite !app_assoc, <-(app_assoc _ (be 2 _)).
  rewrite drop_at by (rewrite !length_app, !length_be, HA; reflexivity).
  rewrite take_at by (by rewrite length_be). rewrite (wrap_small 16) by lia. rewrite of_be_be by (cbn; lia). lia.
Qed.

Lemma doc_entry_zero : doc_entry doc 0 = (88 + 8 * n)%nat.
Proof.
  unfold doc, image.
  pose proof (doc_entry_at hdr [] (Z.of_nat (88 + 8 * n)) (offsets (104 + 8 * n) cs) (([0; 0] ++ rec0) ++ mjoin cs) length_hdr) as H.
  cbn [app length] in H |- *. rewrite H by lia. by rewrite Nat2Z.id.
Qed.

Lemma doc_entry_record c1 c c2 : cs = c1 ++ c :: c2 →
  doc_entry doc (S (length c1)) = (104 + 8 * n + length (mjoin c1))%nat.
Proof.
  intros He. unfold doc, image.
  assert (Hb : (length (mjoin c1) <= length (mjoin cs))%nat) by (rewrite He, join_app, length_app; lia).
  rewrite He at 1. rewrite offsets_app. cbn [offsets].
  pose proof (doc_entry_at hdr (Z.of_nat (88 + 8 * n) :: offsets (104 + 8 * n) c1)
    (Z.of_nat (104 + 8 * n + length (mjoin c1))) (offsets (104 + 8 * n + length (mjoin c1) + length c) c2)
    (([0; 0] ++ rec0) ++ mjoin cs) length_hdr) as H.
  cbn [length] in H. rewrite length_offsets in H. cbn [app] in H |- *. rewrite H by lia. by rewrite Nat2Z.id.
Qed.

(** The end of a record is the start of the next one, or of nothing. *)
Lemma doc_record_zero : doc_record doc 0 = rec0.
Proof.
  unfold doc_record. rewrite doc_count_image, doc_entry_zero.
  assert (Hstop : (if (1 <? S n)%nat then doc_entry doc 1 else length doc) = (88 + 8 * n + 16)%nat).
  { assert (Hc : cs = [] ∨ ∃ c cs', cs = c :: cs') by (destruct cs; eauto). destruct Hc as [E|(c&cs'&E)].
    - assert (Hz : n = 0%nat) by (by rewrite <-Hcs, E). rewrite (proj2 (Nat.ltb_ge _ _)) by lia.
      rewrite length_doc, E. cbn [mjoin list_join length]. lia.
    - assert (Hz : n = S (length cs')) by (by rewrite <-Hcs, E).
      rewrite (proj2 (Nat.ltb_lt _ _)) by lia. pose proof (doc_entry_record [] c cs' E) as H. cbn in H.
      rewrite H. lia. }
  rewrite Hstop. replace (88 + 8 * n + 16 - (88 + 8 * n))%nat with 16%nat by lia.
  unfold doc, image. rewrite !app_assoc, <-(app_assoc _ rec0).
  rewrite drop_at by (rewrite !length_app, length_hdr, length_entries; cbn [length]; rewrite length_offsets; lia).
  by rewrite take_at.
Qed.

Lemma doc_record_text c1 c c2 : cs = c1 ++ c :: c2 → doc_record doc (S (length c1)) = c.
Proof.
  intros He. unfold doc_record. rewrite doc_count_image, (doc_entry_record c1 c c2 He).
  assert (Hl : n = (length c1 + S (length c2))%nat) by (rewrite <-Hcs, He, length_app; done).
  assert (Hstop : (if (S (S (length c1)) <? S n)%nat then doc_entry doc (S (S (length c1))) else length doc) =
    (104 + 8 * n + length (mjoin c1) + length c)%nat).
  { destruct c2 as [|c' c2'].
    - rewrite (proj2 (Nat.ltb_ge _ _)) by (cbn in Hl; lia). rewrite length_doc, He, join_app, length_app.
      rewrite mjoin_cons, app_nil_r. lia.
    - rewrite (proj2 (Nat.ltb_lt _ _)) by (cbn in Hl; lia).
      pose proof (doc_entry_record (c1 ++ [c]) c' c2') as H. rewrite length_app in H. cbn [length] in H.
      replace (length c1 + 1)%nat with (S (length c1)) in H by lia. rewrite H by (by rewrite <-app_assoc).
      rewrite join_app, length_app. rewrite mjoin_cons, app_nil_r. lia. }
  rewrite Hstop. replace (_ + length c - _)%nat with (length c) by lia.
  unfold doc, image. rewrite He at 2. rewrite join_app. cbn [mjoin list_join].
  rewrite !app_assoc. rewrite <-(app_assoc _ c), drop_at, take_at; [done|done|].
  rewrite !length_app, length_hdr, length_entries. cbn [length]. rewrite length_offsets, Hcs.
  assert (Hr : length rec0 = 16%nat) by reflexivity. lia.
Qed.
End reading.

(** ** The title *)

Lemma digest_bytes ctx msgs : Forall is_byte (MD5.md5_run ctx msgs).
Proof. unfold MD5.md5_run, MD5.MD5Final. cbn [MD5.digest]. rewrite !Forall_app. split_and!; apply MD5.word_bytes_range. Qed.

Lemma uuchar_nonzero c : 0 <= c < 64 → uuchar c ≠ 0.
Proof.
  intros Hc. unfold uuchar. assert (Hl : Forall (λ x, x ≠ 0) uuarray).
  { apply (bool_decide_unpack _). vm_compute. exact I. }
  destruct (lookup_lt_is_Some_2 uuarray (Z.to_nat c)) as [x Hx].
  { change (length uuarray) with 64%nat. lia. }
  rewrite (list_lookup_total_correct _ _ _ Hx). exact (Forall_lookup_1 _ _ _ _ Hl Hx).
Qed.

Lemma uu_bits a b : is_byte a → is_byte b →
  (0 <= Z.shiftr a 2 < 64) ∧ (0 <= Z.lor (Z.shiftl (Z.land a 3) 4) (Z.shiftr b 4) < 64) ∧
  (0 <= Z.lor (Z.shiftl (Z.land a 15) 2) (Z.shiftr b 6) < 64) ∧ (0 <= Z.land a 63 < 64) ∧
  (0 <= Z.shiftl (Z.land a 3) 4 < 64).
Proof.
  unfold is_byte. intros Ha Hb.
  assert (Hor : ∀ x y z k, 0 <= k → 0 <= x → x * 2 ^ k + 2 ^ k <= 64 → 0 <= y < 2 ^ k → z = Z.lor (Z.shiftl x k) y → 0 <= z < 64).
  { intros x y z k Hk Hx Hs Hy ->. assert (Z.lor (Z.shiftl x k) y = x * 2 ^ k + y) as ->; [|lia].
    rewrite <-Z.shiftl_mul_pow2 by lia. pose proof (land_shiftl_small x y k Hk Hy) as H0.
    by rewrite <-(Z.lxor_lor _ _ H0), (Z.add_nocarry_lxor _ _ H0). }
  change 3 with (Z.ones 2). change 15 with (Z.ones 4). change 63 with (Z.ones 6).
  rewrite !Z.land_ones by lia. rewrite !Z.shiftr_div_pow2 by lia.
  pose proof (Z.mod_pos_bound a (2 ^ 2) ltac:(lia)). pose proof (Z.mod_pos_bound a (2 ^ 4) ltac:(lia)).
  pose proof (Z.mod_pos_bound a (2 ^ 6) ltac:(lia)).
  assert (Hd : ∀ x k, 0 <= x < 256 → 0 <= k <= 8 → 0 <= x / 2 ^ k < 2 ^ (8 - k)).
  { intros x k Hx Hk. split; [apply Z.div_pos; lia|]. apply Z.div_lt_upper_bound; [lia|].
    rewrite <-Z.pow_add_r by lia. replace (k + (8 - k)) with 8 by lia. lia. }
  pose proof (Hd a 2 Ha ltac:(lia)). pose proof (Hd b 4 Hb ltac:(lia)). pose proof (Hd b 6 Hb ltac:(lia)).
  split_and!; try lia.
  - eapply (Hor (a mod 2 ^ 2) (b / 2 ^ 4) _ 4); [lia..|done].
  - eapply (Hor (a mod 2 ^ 2) (b / 2 ^ 4) _ 4); [lia..|done].
  - eapply (Hor (a mod 2 ^ 4) (b / 2 ^ 6) _ 2); [lia..|done].
  - eapply (Hor (a mod 2 ^ 4) (b / 2 ^ 6) _ 2); [lia..|done].
  - rewrite Z.shiftl_mul_pow2 by lia. lia.
  - rewrite Z.shiftl_mul_pow2 by lia. lia.
Qed.

Lemma uuenc16_ok inp : length inp = 16%nat → Forall is_byte inp →
  length (uuenc16 inp) = 22%nat ∧ Forall (λ c, c ≠ 0) (uuenc16 inp).
Proof.
  intros Hl Hb. split; [done|].
  assert (Hi : ∀ i, (i < 16)%nat → is_byte (inp !!! i)).
  { intros i Hi. destruct (lookup_lt_is_Some_2 inp i) as [x Hx]; [lia|].
    rewrite (list_lookup_total_correct _ _ _ Hx). exact (Forall_lookup_1 _ _ _ _ Hb Hx). }
  assert (Hg : ∀ i, (i + 2 < 16)%nat → Forall (λ c, c ≠ 0) (uu_group inp i)).
  { intros i Hlt. destruct (uu_bits (inp !!! i) (inp !!! (i + 1)%nat)) as (H1&H2&_&_&_); [apply Hi; lia..|].
    destruct (uu_bits (inp !!! (i + 1)%nat) (inp !!! (i + 2)%nat)) as (_&_&H3&_&_); [apply Hi; lia..|].
    destruct (uu_bits (inp !!! (i + 2)%nat) (inp !!! (i + 2)%nat)) as (_&_&_&H4&_); [apply Hi; lia..|].
    unfold uu_group. repeat (apply Forall_cons; split; [by apply uuchar_nonzero|]). done. }
  unfold uuenc16. apply Forall_app. split.
  - apply Forall_bind. repeat (apply Forall_cons; split; [apply Hg; lia|]). done.
  - destruct (uu_bits (inp !!! 15%nat) (inp !!! 15%nat)) as (H1&_&_&_&H5); [apply Hi; lia..|].
    repeat (apply Forall_cons; split; [by apply uuchar_nonzero|]). done.
Qed.

Lemma doc_name_image title stack now z n tl cs : length stack = 32%nat → (length title <= 30)%nat →
  Forall (λ c, c ≠ 0) title → doc_name (image (doc_header title stack now z) n tl cs) = title.
Proof.
  intros Hs Hl Ht. unfold doc_name, image, doc_header. rewrite <-!app_assoc. rewrite take_at.
  - unfold sName. rewrite take_ge by lia. cbn zeta. rewrite insert_app_r_alt by lia. cbn [app].
    destruct (31 - length title)%nat as [|k] eqn:E; [lia|]. cbn [insert list_insert]. by apply c_str_stop.
  - unfold sName. rewrite length_insert, !length_app, length_drop, Hs, length_take. cbn [length]. lia.
Qed.

(** ** The round trip *)

Lemma doc_text_image title stack now storySize n cs text : length stack = 32%nat → Z.of_nat n < 65535 →
  Forall2 packs cs (chunks n text) → (length text <= 4096 * n)%nat →
  doc_text (image (doc_header title stack now (Z.of_nat n + 1)) n (doc_record0 storySize (Z.of_nat n)) cs) = Some text.
Proof.
  intros Hs Hn Hcs Hl. pose proof (Forall2_length _ _ _ Hcs) as Hlen. rewrite length_chunks in Hlen.
  pose proof (mjoin_bound _ _ Hcs) as Hb. rewrite length_chunks in Hb.
  unfold doc_text. rewrite (doc_count_image title stack now storySize n cs Hs Hn) by done.
  erewrite mapM_Some_2; [cbn; by rewrite chunks_join|].
  apply Forall2_same_length_lookup_2. { rewrite length_seq, length_chunks. lia. }
  intros j i ch Hi Hch. apply lookup_seq in Hi as [-> Hj].
  destruct (Forall2_lookup_r _ _ _ _ _ Hcs Hch) as (c&Hc&Hdec&_).
  apply list_elem_of_split_length in Hc as (c1&c2&Hsplit&Hj').
  rewrite Hj'. change (1 + length c1)%nat with (S (length c1)).
  by rewrite (doc_record_text title stack now storySize n cs Hs Hn Hlen Hb c1 c c2 Hsplit).
Qed.

Lemma doc_length_image title stack now storySize n cs text : length stack = 32%nat → Z.of_nat n < 65535 →
  Forall2 packs cs (chunks n text) → 0 <= storySize < 2 ^ 32 →
  doc_length (image (doc_header title stack now (Z.of_nat n + 1)) n (doc_record0 storySize (Z.of_nat n)) cs) = storySize.
Proof.
  intros Hs Hn Hcs Hsz. pose proof (Forall2_length _ _ _ Hcs) as Hlen. rewrite length_chunks in Hlen.
  pose proof (mjoin_bound _ _ Hcs) as Hb. rewrite length_chunks in Hb.
  unfold doc_length. rewrite (doc_record_zero title stack now storySize n cs Hs Hn Hlen Hb).
  unfold doc_record0. rewrite (app_assoc (be 2 2)), drop_at by reflexivity.
  rewrite take_at by (by rewrite length_be). rewrite (wrap_small 32) by done. by rewrite of_be_be.
Qed.

(** C24. The distiller makes readable documents of text: for every HTML or
    plain text of less than 2^28 bytes of which no record of 4096 costs more
    than the 6000 bytes of the output buffer (which the code does not check),
    [DistillerMain] returns a Pilot database whose header gives the number of
    records, whose offset table delimits them, whose records expand to the
    text, whose first record tells its length, and whose name is made from the
    MD5 digest of the text; other types are refused without output. *)
Theorem distiller_roundtrip (alloc_ok : nat → bool) junk stack out0 now md5 mime data :
  (∀ n, alloc_ok n = true) → length stack = 32%nat → Forall is_byte data → fits data →
  Z.of_nat (length data) <= 65534 * 4096 →
  if decide (strcasecmp mime (bytes_of "text/html") = 0 ∨ strcasecmp mime (bytes_of "text/plain") = 0)
  then ∃ doc, DistillerMain alloc_ok junk stack out0 now md5 mime data =
      Ret (distOk, Some (Output (bytes_of "application/x-palmosdb") doc HEADERS)) ∧
    doc_text doc = Some data ∧ doc_length doc = Z.of_nat (length data) ∧
    doc_name doc = bytes_of "Doc id " ++ uuenc16 (MD5.md5_run md5 [data])
  else DistillerMain alloc_ok junk stack out0 now md5 mime data = Ret (distBadInput, None).
Proof.
  intros Ha Hs Hd Hf Hl. unfold DistillerMain. destruct (decide _) as [Hm|Hm].
  - assert (Hok : negb (strcasecmp mime (bytes_of "text/html") =? 0) && negb (strcasecmp mime (bytes_of "text/plain") =? 0) = false).
    { destruct Hm as [-> | ->]; [done|]. apply andb_false_r. }
    rewrite Hok.
    change (MD5.digest (MD5.MD5Final (MD5.MD5Update (MD5.MD5Init md5) data))) with (MD5.md5_run md5 [data]).
    destruct (uuenc16_ok (MD5.md5_run md5 [data])) as [Ht Hz]; [done|apply digest_bytes|].
    destruct (makedoc_image alloc_ok junk Ha stack out0 now data (bytes_of "Doc id " ++ uuenc16 (MD5.md5_run md5 [data])))
      as (cs&->&Hcs); [done..|].
    cbn [mbind outcome_mbind]. eexists. split; [done|].
    destruct (num_recs_spec data) as [Hn1 Hn2]. assert (Hn : Z.of_nat (num_recs data) < 65535) by lia.
    split; [by apply doc_text_image|]. split; [apply (doc_length_image _ _ _ _ _ _ data); [done..|lia]|].
    apply doc_name_image; [done|rewrite length_app, Ht; cbn; lia|]. apply Forall_app. split; [|done].
    apply (bool_decide_unpack _). vm_compute. exact I.
  - rewrite (proj2 (Z.eqb_neq _ 0)), (proj2 (Z.eqb_neq _ 0)) by tauto. done.
Qed.

Lemma distiller_roundtrip_witness :
  let data := bytes_of "To be, or not to be: that is the question." in
  ∃ doc, DistillerMain (λ _, true) 0 (replicate 32 170) (replicate (Z.to_nat 8000) 85) 850000000 MD5.fresh_ctx (bytes_of "Text/Plain") data =
      Ret (distOk, Some (Output (bytes_of "application/x-palmosdb") doc HEADERS)) ∧
    doc_text doc = Some data ∧ doc_length doc = Z.of_nat (length data) ∧
    doc_name doc = bytes_of "Doc id " ++ uuenc16 (MD5.md5_run MD5.fresh_ctx [data]).
Proof.
  apply (distiller_roundtrip (λ _, true) 0 (replicate 32 170) (replicate (Z.to_nat 8000) 85) 850000000 MD5.fresh_ctx (bytes_of "Text/Plain")
    (bytes_of "To be, or not to be: that is the question.")); try done.
  - apply (bool_decide_unpack _). vm_compute. exact I.
  - intros [|q]; [vm_compute; discriminate|].
    rewrite drop_ge by (cbn [bytes_of length]; lia). vm_compute. discriminate.
Defined.
