(* ===== verification/CacheSim.v ===== *)
(** * The cache simulator (src/tcsproxy/playback/src/cachesim/cache.c)

    The simulator keeps the entries of a cache in two intrusive doubly-linked
    structures at once: the chains of a hash table and a list in the order of
    use.  Entries come from a free list that grows by blocks.  The theorems
    compare it with a cache of least recently used replacement on a plain
    list, and show where it departs from one: touching an entry that is alone
    in the cache loses the tail of the list. *)

From S2P Require Import Prelude Md5.

Open Scope Z_scope.

(** ** Data *)

Definition NUM_HASH_BYTES : nat := 6.
Definition C_ENTRY_HEAP_ALLOCSIZE : nat := Z.to_nat 10000.

Record cache_entry := Entry {
  hashval : bytes;
  lru_prev : option loc;
  lru_next : option loc;
  chain_next : option loc;
  chain_prev : option loc;
  esize : Z;
  byte_offset : Z;
}.
(** What [calloc] and [bzero] leave. *)
Definition zero_entry : cache_entry := Entry (replicate NUM_HASH_BYTES 0) None None None None 0 0.

Definition set_lru_prev p (e : cache_entry) := Entry (hashval e) p (lru_next e) (chain_next e) (chain_prev e) (esize e) (byte_offset e).
Definition set_lru_next p (e : cache_entry) := Entry (hashval e) (lru_prev e) p (chain_next e) (chain_prev e) (esize e) (byte_offset e).
Definition set_chain_next p (e : cache_entry) := Entry (hashval e) (lru_prev e) (lru_next e) p (chain_prev e) (esize e) (byte_offset e).
Definition set_chain_prev p (e : cache_entry) := Entry (hashval e) (lru_prev e) (lru_next e) (chain_next e) p (esize e) (byte_offset e).
(** The assignments to [hashval], [size] and [byte_offset]. *)
Definition set_item h s o (e : cache_entry) := Entry h (lru_prev e) (lru_next e) (chain_next e) (chain_prev e) s o.

Record cache := Cache {
  entries : list (option loc);
  num_entries : Z;
  cur_num_entries : Z;
  cache_size : Z;
  cur_cache_size : Z;
  lru_head : option loc;
  lru_tail : option loc;
}.
Definition set_entries f (c : cache) := Cache (f (entries c)) (num_entries c) (cur_num_entries c) (cache_size c) (cur_cache_size c) (lru_head c) (lru_tail c).
Definition set_counts n s (c : cache) := Cache (entries c) (num_entries c) n (cache_size c) s (lru_head c) (lru_tail c).
Definition set_head p (c : cache) := Cache (entries c) (num_entries c) (cur_num_entries c) (cache_size c) (cur_cache_size c) p (lru_tail c).
Definition set_tail p (c : cache) := Cache (entries c) (num_entries c) (cur_num_entries c) (cache_size c) (cur_cache_size c) (lru_head c) p.

(** The heap of entries, the free list [heap_o_entries], the address of the
    next block of entries, and the cache. *)
Record sim := Sim {
  cells : gmap loc cache_entry;
  heap_o_entries : option loc;
  brk : loc;
  tcache : cache;
}.
Definition set_cells f (s : sim) := Sim (f (cells s)) (heap_o_entries s) (brk s) (tcache s).
Definition set_free p (s : sim) := Sim (cells s) p (brk s) (tcache s).
Definition set_cache f (s : sim) := Sim (cells s) (heap_o_entries s) (brk s) (f (tcache s)).

(** ** Operations *)
Section ops.
Context `{Digest}.
(** Whether [calloc] provides the block at an address, and the array. *)
Context (calloc_ok : loc → bool) (array_ok : bool).

Abbreviation cmd := (M sim).

Definition load (p : option loc) : cmd cache_entry :=
  a ← deref p; s ← get; deref (cells s !! a).
Definition update (p : option loc) (f : cache_entry → cache_entry) : cmd () :=
  a ← deref p; _ ← load p; modify (set_cells (alter f a)).
(** [if (p != NULL) p->field = ...;] *)
Definition update_if (p : option loc) (f : cache_entry → cache_entry) : cmd () :=
  match p with Some _ => update p f | None => mret () end.
Definition cset (f : cache → cache) : cmd () := modify (set_cache f).
Definition cget {A} (f : cache → A) : cmd A := gets (λ s, f (tcache s)).

(** [calloc(C_ENTRY_HEAP_ALLOCSIZE, sizeof(cache_entry))], chained. *)
Fixpoint chain_block (base : loc) (n i : nat) : cmd () :=
  match n with
  | O => mret ()
  | S n' =>
      _ ← update (Some (base + i)%nat) (set_lru_next (Some (base + i + 1)%nat));
      chain_block base n' (S i)
  end.
Definition calloc_entries : cmd (option loc) := λ s,
  let n := C_ENTRY_HEAP_ALLOCSIZE in
  if calloc_ok (brk s)
  then Ret (Some (brk s), Sim (foldr (λ a, insert a zero_entry) (cells s) (seq (brk s) n)) (heap_o_entries s) (brk s + n) (tcache s))
  else Ret (None, s).
(** Allocation of a block if the free list is empty: whether it succeeded. *)
Definition fill_heap : cmd bool :=
  h ← gets heap_o_entries;
  match h with
  | Some _ => mret true
  | None =>
      p ← calloc_entries;
      _ ← modify (set_free p);
      match p with
      | None => mret false
      | Some base =>
          _ ← chain_block base (C_ENTRY_HEAP_ALLOCSIZE - 1) 0;
          _ ← update (Some (base + (C_ENTRY_HEAP_ALLOCSIZE - 1))%nat) (set_lru_next None);
          mret true
      end
  end.

(** The caller's [tcache] is not NULL. *)
Definition initialize_cache (size num : Z) : cmd Z :=
  _ ← cset (λ _, Cache [] num 0 size 0 None None);
  if array_ok then
    _ ← cset (set_entries (λ _, replicate (Z.to_nat num) None));
    ok ← fill_heap;
    if ok : bool then mret 1
    else _ ← cset (set_entries (λ _, [])); mret 0
  else mret 0.

Definition get_cache_entry : cmd (option loc) :=
  ok ← fill_heap;
  if ok : bool then
    retme ← gets heap_o_entries;
    e ← load retme;
    _ ← modify (set_free (lru_next e));
    _ ← update retme (set_lru_prev None);
    _ ← update retme (set_lru_next None);
    mret retme
  else exit 1.

Definition free_cache_entry (freeme : option loc) : cmd () :=
  _ ← update freeme (λ _, zero_entry);
  h ← gets heap_o_entries;
  _ ← update freeme (set_lru_next h);
  modify (set_free freeme).

(** [get_bytes]: [sizeof(unsigned long)] is 4. *)
Definition get_bytes (digest : bytes) : Z := of_le (take 4 digest).

(** [the_bytes % tcache->num_entries]; a remainder by zero traps. *)
Definition slot_index (the_bytes : Z) : cmd Z :=
  n ← cget num_entries;
  if n =? 0 then crash else mret (the_bytes mod n).
Definition get_slot (i : Z) : cmd (option loc) :=
  es ← cget entries; deref (es !! Z.to_nat i).
Definition set_slot (i : Z) (p : option loc) : cmd () :=
  _ ← get_slot i; cset (set_entries <[Z.to_nat i := p]>).

(** Takes an entry out of the list in the order of use. *)
Definition unlink_lru (p : option loc) : cmd () :=
  e ← load p;
  _ ← update_if (lru_prev e) (set_lru_next (lru_next e));
  e ← load p;
  _ ← update_if (lru_next e) (set_lru_prev (lru_prev e));
  e ← load p;
  t ← cget lru_tail;
  _ ← (if bool_decide (t = p) then cset (set_tail (lru_prev e)) else mret ());
  h ← cget lru_head;
  if bool_decide (h = p) then cset (set_head (lru_next e)) else mret ().
(** Puts an entry at its head. *)
Definition push_lru (p : option loc) : cmd () :=
  tmp ← cget lru_head;
  _ ← cset (set_head p);
  _ ← update p (set_lru_next tmp);
  _ ← update p (set_lru_prev None);
  update_if tmp (set_lru_prev p).

(** The search along a chain: the entry with this hash value, and the entry
    the loop saw before. *)
Fixpoint chain_find (fuel : nat) (h : bytes) (prev the_entry : option loc) : cmd (option loc * option loc) :=
  match the_entry with
  | None => mret (None, prev)
  | Some _ =>
      match fuel with
      | O => stuck
      | S fuel' =>
          e ← load the_entry;
          if bool_decide (hashval e = h) then mret (the_entry, prev)
          else chain_find fuel' h the_entry (chain_next e)
      end
  end.

Definition test_in_cache (url : bytes) : cmd Z :=
  let digest := digest_of url in
  let h := take NUM_HASH_BYTES digest in
  i ← slot_index (get_bytes digest);
  the_entry ← get_slot i;
  s ← get;
  '(the_entry, _) ← chain_find (size (cells s)) h None the_entry;
  match the_entry with
  | None => mret 0
  | Some _ =>
      _ ← unlink_lru the_entry;
      _ ← push_lru the_entry;
      mret 1
  end.

Definition evict_lru : cmd () :=
  tail ← cget lru_tail;
  match tail with
  | None => cset (set_counts 0 0)
  | Some _ =>
      e ← load tail;
      let size := esize e in
      let the_bytes := byte_offset e in
      _ ← cset (set_tail (lru_prev e));
      _ ← update_if (lru_prev e) (set_lru_next None);
      h ← cget lru_head;
      _ ← (if bool_decide (h = tail) then cset (set_head None) else mret ());
      e ← load tail;
      _ ← update_if (chain_prev e) (set_chain_next (chain_next e));
      e ← load tail;
      _ ← update_if (chain_next e) (set_chain_prev (chain_prev e));
      e ← load tail;
      _ ← (if bool_decide (chain_prev e = None) then set_slot the_bytes (chain_next e) else mret ());
      n ← cget cur_num_entries;
      c ← cget cur_cache_size;
      _ ← cset (set_counts (u64 (n - 1)) (u64 (c - size)));
      free_cache_entry tail
  end.

(** Makes room; no [retval] if the document is larger than the cache. *)
Fixpoint evict_loop (fuel : nat) (size retval : Z) : cmd (option Z) :=
  cur ← cget cur_cache_size;
  max ← cget cache_size;
  if max <? u64 (cur + size) then
    if max <? size then mret None
    else match fuel with
         | O => stuck
         | S fuel' => _ ← evict_lru; evict_loop fuel' size (Z.land retval 1)
         end
  else mret (Some retval).

(** Counts a document in and describes it in its entry. *)
Definition fill_entry (p : option loc) (h : bytes) (size i : Z) : cmd () :=
  c ← cget cur_cache_size;
  n ← cget cur_num_entries;
  _ ← cset (set_counts n (u64 (c + size)));
  update p (set_item h (u32 size) i).

Definition add_to_cache (url : bytes) (sz : Z) : cmd Z :=
  s ← get;
  retval ← evict_loop (S (size (cells s))) sz 0;
  match retval with
  | None => mret 0
  | Some retval =>
    let digest := digest_of url in
    let h := take NUM_HASH_BYTES digest in
    i ← slot_index (get_bytes digest);
    first ← get_slot i;
    match first with
    | None =>
        the_entry ← get_cache_entry;
        _ ← set_slot i the_entry;
        n ← cget cur_num_entries;
        c ← cget cur_cache_size;
        _ ← cset (set_counts (u64 (n + 1)) c);
        _ ← fill_entry the_entry h sz i;
        _ ← push_lru the_entry;
        t ← cget lru_tail;
        _ ← (match t with None => cset (set_tail the_entry) | Some _ => mret () end);
        mret retval
    | Some _ =>
        s ← get;
        '(found, prev) ← chain_find (size (cells s)) h None first;
        match found with
        | Some _ =>
            e ← load found;
            n ← cget cur_num_entries;
            c ← cget cur_cache_size;
            _ ← cset (set_counts n (u64 (c - esize e)));
            _ ← fill_entry found h sz i;
            _ ← unlink_lru found;
            _ ← push_lru found;
            mret (Z.land retval 2)
        | None =>
            the_entry ← get_cache_entry;
            _ ← update prev (set_chain_next the_entry);
            _ ← fill_entry the_entry h sz i;
            _ ← update the_entry (set_chain_prev prev);
            n ← cget cur_num_entries;
            c ← cget cur_cache_size;
            _ ← cset (set_counts (u64 (n + 1)) c);
            _ ← unlink_lru the_entry;
            _ ← push_lru the_entry;
            mret retval
        end
    end
  end.
End ops.

(** A sequence of accesses. *)
Inductive cop := Test (url : bytes) | Add (url : bytes) (size : Z).
Section run.
Context `{Digest} (calloc_ok : loc → bool).
Definition cop_step (op : cop) : M sim Z :=
  match op with
  | Test url => test_in_cache url
  | Add url sz => add_to_cache calloc_ok url sz
  end.
Fixpoint cop_exec (ops : list cop) : M sim (list Z) :=
  match ops with
  | [] => mret []
  | op :: ops' => r ← cop_step op; rs ← cop_exec ops'; mret (r :: rs)
  end.
End run.

(** The simulator before its first use. *)
Definition sim_start : sim := Sim ∅ None 0 (Cache [] 0 0 0 0 None None).

(** ** The specification: least recently used replacement

    A cache is the list of its documents, keys and sizes, the most recently
    used first. *)
Abbreviation item := (bytes * Z)%type (only parsing).

Definition total (ks : list item) : Z := foldr (λ k t, k.2 + t) 0 ks.
(** As many of the most recent documents as fit. *)
Fixpoint keep (budget : Z) (ks : list item) : list item :=
  match ks with
  | [] => []
  | k :: ks' => if k.2 <=? budget then k :: keep (budget - k.2) ks' else []
  end.
Definition others (h : bytes) (ks : list item) : list item := filter (λ k, k.1 ≠ h) ks.
Definition size_of (h : bytes) (ks : list item) : option Z := snd <$> head (filter (λ k : item, k.1 = h) ks).
Definition key `{Digest} (url : bytes) : bytes := take NUM_HASH_BYTES (digest_of url).

(** What [add_to_cache] is documented to return: 2 if the document was
    refreshed, 1 if something was evicted, 0 otherwise. *)
Definition added (h : bytes) (ks kept : list item) : Z :=
  match size_of h kept with Some _ => 2 | None => if decide (length kept < length ks)%nat then 1 else 0 end.
(** One access with its documented result; none if it touches a document that
    is alone in the cache. *)
Definition lru_step `{Digest} (max : Z) (op : cop) (ks : list item) : option (Z * list item) :=
  match op with
  | Test url =>
      match size_of (key url) ks with
      | None => Some (0, ks)
      | Some s => if decide (length ks = 1%nat) then None else Some (1, (key url, s) :: others (key url) ks)
      end
  | Add url s =>
      if max <? s then Some (0, ks)
      else let kept := keep (max - s) ks in
        if decide (kept.*1 = [key url]) then None else Some (added (key url) ks kept, (key url, s) :: others (key url) kept)
  end.
Fixpoint lru_exec `{Digest} (max : Z) (ops : list cop) (ks : list item) : option (list Z * list item) :=
  match ops with
  | [] => Some ([], ks)
  | op :: ops' =>
      '(r, ks) ← lru_step max op ks; '(rs, ks) ← lru_exec max ops' ks; Some (r :: rs, ks)
  end.
(** What the code returns where [r] is documented: [add_to_cache] reports
    neither an eviction nor a refreshed document. *)
Definition returned (op : cop) (r : Z) : Z := match op with Test _ => r | Add _ _ => 0 end.

(** ** Representation *)

Definition hd_or (l : list loc) (e : option loc) : option loc := match l with [] => e | y :: _ => Some y end.
Definition lst_or (pp : option loc) (l : list loc) : option loc := match last l with Some x => Some x | None => pp end.

(** A doubly-linked segment over one of the two pairs of pointers. *)
Fixpoint seg (nx pv : cache_entry → option loc) (h : gmap loc cache_entry) (pp : option loc) (l : list loc) (e : option loc) : Prop :=
  match l with
  | [] => True
  | x :: l' => ∃ c, h !! x = Some c ∧ pv c = pp ∧ nx c = hd_or l' e ∧ seg nx pv h (Some x) l' e
  end.
Abbreviation lseg := (seg lru_next lru_prev).
Abbreviation cseg := (seg chain_next chain_prev).

Definition no_lru (e : cache_entry) : cache_entry := set_lru_prev None (set_lru_next None e).
Definition no_chain (e : cache_entry) : cache_entry := set_chain_prev None (set_chain_next None e).

Fixpoint fchain (h : gmap loc cache_entry) (p : option loc) (fl : list loc) : Prop :=
  match fl with
  | [] => p = None
  | a :: fl' => p = Some a ∧ ∃ c, h !! a = Some c ∧ no_lru c = zero_entry ∧ fchain h (lru_next c) fl'
  end.

Definition slot_of (n : nat) (h : bytes) : nat := Z.to_nat (of_le (take 4 h) mod Z.of_nat n).
Definition item_ok (h : gmap loc cache_entry) (n : nat) (x : loc) (k : item) : Prop :=
  ∃ c, h !! x = Some c ∧ hashval c = k.1 ∧ esize c = k.2 ∧ byte_offset c = Z.of_nat (slot_of n k.1).
Definition in_slot (h : gmap loc cache_entry) (i : nat) (x : loc) : Prop :=
  byte_offset <$> h !! x = Some (Z.of_nat i).
Definition chain_ok (h : gmap loc cache_entry) (es : list (option loc)) (l : list loc) (i : nat) (ch : list loc) : Prop :=
  es !! i = Some (head ch) ∧ cseg h None ch None ∧ NoDup ch ∧ ∀ x, x ∈ ch ↔ x ∈ l ∧ in_slot h i x.

(** [rep s n max l fl ks]: the simulator holds the documents [ks] in its
    entries [l], with [n] slots and room for [max] bytes. *)
Record rep (s : sim) (n : nat) (max : Z) (l fl : list loc) (ks : list item) : Prop := {
  r_lru : lseg (cells s) None l None;
  r_head : lru_head (tcache s) = head l;
  r_tail : lru_tail (tcache s) = last l;
  r_free : fchain (cells s) (heap_o_entries s) fl;
  r_nodup : NoDup (fl ++ l);
  r_brk : ∀ a, is_Some (cells s !! a) → (a < brk s)%nat;
  r_items : Forall2 (item_ok (cells s) n) l ks;
  r_keys : NoDup ks.*1;
  r_slots : length (entries (tcache s)) = n ∧ (0 < n)%nat ∧ num_entries (tcache s) = Z.of_nat n;
  r_chains : ∀ i, (i < n)%nat → ∃ ch, chain_ok (cells s) (entries (tcache s)) l i ch;
  r_count : cur_num_entries (tcache s) = u64 (Z.of_nat (length l));
  r_size : cur_cache_size (tcache s) = total ks;
  r_max : cache_size (tcache s) = max ∧ total ks <= max < 2 ^ 63;
  r_sizes : Forall (λ k, 0 <= k.2 < 2 ^ 32) ks;
}.

(** ** Lemmas on segments *)
Section segs.
Context (nx pv : cache_entry → option loc).
Implicit Types (h : gmap loc cache_entry) (l : list loc).

Lemma hd_or_app l1 l2 e : hd_or (l1 ++ l2) e = hd_or l1 (hd_or l2 e).
Proof. by destruct l1. Qed.
Lemma lst_or_cons pp x l : lst_or pp (x :: l) = lst_or (Some x) l.
Proof. unfold lst_or. rewrite last_cons. by destruct (last l). Qed.
Lemma lst_or_snoc pp l x : lst_or pp (l ++ [x]) = Some x.
Proof. unfold lst_or. by rewrite last_snoc. Qed.
Lemma hd_or_None l : hd_or l None = head l.
Proof. by destruct l. Qed.
Lemma lst_or_None l : lst_or None l = last l.
Proof. unfold lst_or. by destruct (last l). Qed.

Lemma seg_app h pp l1 l2 e :
  seg nx pv h pp (l1 ++ l2) e ↔ seg nx pv h pp l1 (hd_or l2 e) ∧ seg nx pv h (lst_or pp l1) l2 e.
Proof.
  revert pp. induction l1 as [|x l1 IH]; intros pp; cbn [app seg]; [naive_solver|].
  rewrite lst_or_cons. setoid_rewrite IH. rewrite hd_or_app. naive_solver.
Qed.

Lemma seg_agree h h' pp l e :
  (∀ x c, x ∈ l → h !! x = Some c → ∃ c', h' !! x = Some c' ∧ nx c' = nx c ∧ pv c' = pv c) →
  seg nx pv h pp l e → seg nx pv h' pp l e.
Proof.
  revert pp. induction l as [|x l IH]; intros pp Ha; cbn [seg]; [done|]. intros (c&Hc&Hp&Hn&Hs).
  destruct (Ha x c) as (c'&Hc'&Hn'&Hp'); [set_solver|done|]. exists c'. rewrite Hn', Hp'. split_and!; try done.
  apply IH; [|done]. intros y d Hy. apply Ha. set_solver.
Qed.

Lemma seg_frame h h' pp l e : (∀ x, x ∈ l → h' !! x = h !! x) → seg nx pv h pp l e → seg nx pv h' pp l e.
Proof. intros Hf. apply seg_agree. intros x c Hx Hc. exists c. by rewrite Hf. Qed.

Lemma seg_lookup h pp l e x : seg nx pv h pp l e → x ∈ l → is_Some (h !! x).
Proof.
  revert pp. induction l as [|y l IH]; intros pp; cbn [seg]; [set_solver|].
  intros (c&Hc&_&_&Hs) [->|Hx]%elem_of_cons; [by exists c|]. by eapply IH.
Qed.

Lemma seg_next_set h pp l x e e' c : seg nx pv h pp (l ++ [x]) e → x ∉ l → nx c = e' →
  (∀ c0, h !! x = Some c0 → pv c = pv c0) → seg nx pv (<[x := c]> h) pp (l ++ [x]) e'.
Proof.
  rewrite !seg_app. cbn [seg hd_or]. intros [Hl (c0&Hc0&Hp&_)] Hx Hn Hpv. split.
  - eapply seg_frame, Hl. intros y Hy. rewrite lookup_insert_ne; [done|]. by intros ->.
  - exists c. rewrite lookup_insert_eq, (Hpv c0 Hc0). done.
Qed.

Lemma seg_prev_set h pp pp' l x e c : seg nx pv h pp (x :: l) e → x ∉ l → pv c = pp' →
  (∀ c0, h !! x = Some c0 → nx c = nx c0) → seg nx pv (<[x := c]> h) pp' (x :: l) e.
Proof.
  cbn [seg]. intros (c0&Hc0&Hp&Hn&Hl) Hx Hpv Hnx. exists c. rewrite lookup_insert_eq, (Hnx c0 Hc0). split_and!; try done.
  eapply seg_frame, Hl. intros y Hy. rewrite lookup_insert_ne; [done|]. by intros ->.
Qed.
End segs.

(** ** Links: taking an entry out, putting one in front *)

(** What [if (p != NULL) p->field = ...;] does to the heap. *)
Definition upd (p : option loc) (f : cache_entry → cache_entry) (h : gmap loc cache_entry) : gmap loc cache_entry :=
  match p with Some a => alter f a h | None => h end.

Lemma upd_ne p f h x : p ≠ Some x → upd p f h !! x = h !! x.
Proof. destruct p as [a|]; [|done]. intros Hx. cbn. rewrite lookup_alter_ne; [done|]. by intros ->. Qed.

Lemma upd_eq f h x c : h !! x = Some c → upd (Some x) f h !! x = Some (f c).
Proof. intros Hc. cbn. by rewrite lookup_alter_eq, Hc. Qed.

Lemma upd_insert f h x c : h !! x = Some c → upd (Some x) f h = <[x := f c]> h.
Proof.
  intros Hc. apply map_eq. intros y. cbn. rewrite lookup_alter, lookup_insert. case_decide; [|done]. subst. by rewrite Hc.
Qed.

Lemma upd_is_Some p f h x : is_Some (upd p f h !! x) ↔ is_Some (h !! x).
Proof. destruct p as [a|]; [|done]. cbn. rewrite lookup_alter. case_decide; [|done]. subst. by rewrite fmap_is_Some. Qed.

(** Fields that an update does not touch. *)
Lemma upd_fields (g : cache_entry → cache_entry) p f h : (∀ c, g (f c) = g c) → g <$> upd p f h = g <$> h.
Proof.
  intros Hg. destruct p as [a|]; [|done]. apply map_eq. intros y. cbn. rewrite !lookup_fmap, lookup_alter.
  case_decide; [|done]. subst. destruct (h !! y) as [c|]; cbn; [by rewrite Hg|done].
Qed.

Lemma fields_lookup (g : cache_entry → cache_entry) (h h' : gmap loc cache_entry) x c : g <$> h' = g <$> h → h !! x = Some c →
  ∃ c', h' !! x = Some c' ∧ g c' = g c.
Proof.
  intros Hg Hc. assert (Hx : (g <$> h') !! x = (g <$> h) !! x) by (by rewrite Hg).
  rewrite !lookup_fmap, Hc in Hx. cbn in Hx. destruct (h' !! x) as [c'|]; [|done]. injection Hx as Hx. by exists c'.
Qed.

Section relink.
Context (snx spv : option loc → cache_entry → cache_entry).

Definition unlinked (l1 l2 : list loc) (h : gmap loc cache_entry) : gmap loc cache_entry :=
  upd (head l2) (spv (last l1)) (upd (last l1) (snx (head l2)) h).
Definition linked (x : loc) (l : list loc) (h : gmap loc cache_entry) : gmap loc cache_entry :=
  upd (head l) (spv (Some x)) (upd (Some x) (spv None) (upd (Some x) (snx (head l)) h)).

Lemma unlinked_ne l1 l2 h x : x ∉ l1 → x ∉ l2 → unlinked l1 l2 h !! x = h !! x.
Proof.
  intros H1 H2. unfold unlinked. rewrite !upd_ne; [done| |].
  - intros Hl. apply last_Some in Hl as [l ->]. set_solver.
  - intros Hl. destruct l2; [done|]. injection Hl as ->. set_solver.
Qed.

Lemma unlinked_is_Some l1 l2 h x : is_Some (unlinked l1 l2 h !! x) ↔ is_Some (h !! x).
Proof. unfold unlinked. by rewrite !upd_is_Some. Qed.
Lemma linked_is_Some y l h x : is_Some (linked y l h !! x) ↔ is_Some (h !! x).
Proof. unfold linked. by rewrite !upd_is_Some. Qed.
Lemma linked_ne x l h y : y ≠ x → y ∉ l → linked x l h !! y = h !! y.
Proof.
  intros Hy Hl. unfold linked. rewrite !upd_ne; try congruence.
  intros He. destruct l; [done|]. injection He as ->. set_solver.
Qed.

Context (g : cache_entry → cache_entry) (Hgn : ∀ p c, g (snx p c) = g c) (Hgp : ∀ p c, g (spv p c) = g c).
Lemma unlinked_fields l1 l2 h : g <$> unlinked l1 l2 h = g <$> h.
Proof. unfold unlinked. by rewrite !upd_fields. Qed.
Lemma linked_fields x l h : g <$> linked x l h = g <$> h.
Proof. unfold linked. by rewrite !upd_fields. Qed.
End relink.

Section links.
Context (nx pv : cache_entry → option loc) (snx spv : option loc → cache_entry → cache_entry).
Context (Hnn : ∀ p c, nx (snx p c) = p) (Hpn : ∀ p c, pv (snx p c) = pv c).
Context (Hnp : ∀ p c, nx (spv p c) = nx c) (Hpp : ∀ p c, pv (spv p c) = p).
Abbreviation sg := (seg nx pv).
Abbreviation unlinked := (unlinked snx spv).
Abbreviation linked := (linked snx spv).

Lemma seg_end h l x l2 : NoDup (l ++ [x]) → sg h None (l ++ [x]) l2 →
  ∀ e, sg (upd (Some x) (snx e) h) None (l ++ [x]) e.
Proof.
  intros Hnd Hs e. destruct (seg_lookup nx pv h None (l ++ [x]) l2 x Hs ltac:(set_solver)) as [c Hc].
  rewrite (upd_insert _ _ _ _ Hc). eapply seg_next_set; [exact Hs| |apply Hnn|].
  - apply NoDup_app in Hnd as (_&Hd&_). intros Hx. apply (Hd x Hx). set_solver.
  - intros c0 Hc0. rewrite Hc in Hc0. injection Hc0 as <-. apply Hpn.
Qed.

Lemma seg_start h pp x l e : x ∉ l → sg h pp (x :: l) e → ∀ pp', sg (upd (Some x) (spv pp') h) pp' (x :: l) e.
Proof.
  intros Hx Hs pp'. destruct (seg_lookup nx pv h pp (x :: l) e x Hs ltac:(set_solver)) as [c Hc].
  rewrite (upd_insert _ _ _ _ Hc). eapply seg_prev_set; [exact Hs|done|apply Hpp|].
  intros c0 Hc0. rewrite Hc in Hc0. injection Hc0 as <-. apply Hnp.
Qed.

Lemma unlink_seg h l1 x l2 : NoDup (l1 ++ x :: l2) → sg h None (l1 ++ x :: l2) None →
  (∃ c, h !! x = Some c ∧ pv c = last l1 ∧ nx c = head l2) ∧ sg (unlinked l1 l2 h) None (l1 ++ l2) None.
Proof.
  intros Hnd Hs. apply seg_app in Hs as [Hs1 (c&Hc&Hp&Hn&Hs2)]. cbn [hd_or] in Hs1.
  rewrite lst_or_None in Hp. rewrite hd_or_None in Hn. split; [by exists c|].
  apply NoDup_app in Hnd as (Hnd1&Hd&Hnd2). apply NoDup_cons in Hnd2 as [Hx2 Hnd2].
  assert (H1 : sg (upd (last l1) (snx (head l2)) h) None l1 (head l2)).
  { destruct l1 as [|y l1' _] using rev_ind; [done|]. rewrite last_snoc. by eapply seg_end. }
  assert (H2 : sg (upd (last l1) (snx (head l2)) h) (Some x) l2 None).
  { eapply seg_frame, Hs2. intros y Hy. apply upd_ne. intros Hl. apply last_Some in Hl as [l ->].
    apply (Hd y); set_solver. }
  apply seg_app. rewrite hd_or_None, lst_or_None. unfold unlinked. split.
  - eapply seg_frame, H1. intros y Hy. apply upd_ne. intros Hl. destruct l2; [done|]. injection Hl as ->.
    apply (Hd y); set_solver.
  - destruct l2 as [|z l2]; [done|]. cbn [head]. apply NoDup_cons in Hnd2 as [Hz _]. by eapply seg_start.
Qed.

Lemma link_seg h x l c : NoDup (x :: l) → h !! x = Some c → sg h None l None → sg (linked x l h) None (x :: l) None.
Proof.
  intros Hnd Hc Hs. apply NoDup_cons in Hnd as [Hx Hnd]. unfold linked.
  set (h2 := upd (Some x) (spv None) (upd (Some x) (snx (head l)) h)).
  assert (Hc2 : h2 !! x = Some (spv None (snx (head l) c))).
  { unfold h2. by repeat apply upd_eq. }
  assert (Hs2 : sg h2 None l None).
  { eapply seg_frame, Hs. intros y Hy. unfold h2. rewrite !upd_ne; [done|..]; intros [= ->]; done. }
  cbn [seg]. exists (spv None (snx (head l) c)). rewrite Hnp, Hnn, Hpp, hd_or_None. split_and!; try done.
  - rewrite upd_ne; [done|]. intros Hl. destruct l; [done|]. injection Hl as ->. set_solver.
  - destruct l as [|z l]; [done|]. cbn [head]. apply NoDup_cons in Hnd as [Hz _]. by eapply seg_start.
Qed.

End links.

(** ** Frames *)

Lemma free_frame h h' p fl : (∀ a, a ∈ fl → h' !! a = h !! a) → fchain h p fl → fchain h' p fl.
Proof.
  revert p. induction fl as [|a fl IH]; intros p Hf; cbn [fchain]; [done|]. intros (->&c&Hc&Hz&Hs).
  split; [done|]. exists c. rewrite Hf by set_solver. split_and!; try done. apply IH; [|done]. set_solver.
Qed.

Lemma fchain_is_Some h p fl a : fchain h p fl → a ∈ fl → is_Some (h !! a).
Proof.
  revert p. induction fl as [|b fl IH]; intros p; cbn [fchain]; [set_solver|]. intros (_&c&Hc&_&Hs) [->|Ha]%elem_of_cons;
    [by exists c|by eapply IH].
Qed.

(** The fields that belong to no link. *)
Definition item_of (e : cache_entry) : bytes * Z * Z := (hashval e, esize e, byte_offset e).
Definition same_item (h h' : gmap loc cache_entry) (x : loc) : Prop := item_of <$> h' !! x = item_of <$> h !! x.

Lemma same_item_fields (g : cache_entry → cache_entry) h h' x : (∀ c, item_of (g c) = item_of c) →
  g <$> h' = g <$> h → same_item h h' x.
Proof.
  intros Hg Hf. unfold same_item. assert (Hx : (g <$> h') !! x = (g <$> h) !! x) by (by rewrite Hf).
  rewrite !lookup_fmap in Hx. destruct (h' !! x) as [c'|], (h !! x) as [c|]; try done. cbn in *.
  injection Hx as Hx. by rewrite <-(Hg c'), <-(Hg c), Hx.
Qed.

Lemma item_ok_same h h' n x k : same_item h h' x → item_ok h n x k → item_ok h' n x k.
Proof.
  unfold same_item. intros Hf (c&Hc&Hh&Hs&Ho). rewrite Hc in Hf. destruct (h' !! x) as [c'|] eqn:Hc'; [|done].
  exists c'. cbn in Hf. unfold item_of in Hf. split; [done|]. naive_solver congruence.
Qed.

Lemma in_slot_same h h' i x : same_item h h' x → in_slot h' i x ↔ in_slot h i x.
Proof.
  unfold same_item, in_slot. intros Hf. destruct (h' !! x) as [c'|], (h !! x) as [c|]; try done. cbn in *.
  unfold item_of in Hf. naive_solver congruence.
Qed.

Lemma item_ok_fields h h' n x k : no_lru <$> h' = no_lru <$> h → item_ok h n x k → item_ok h' n x k.
Proof. intros Hf. apply item_ok_same. by eapply (same_item_fields no_lru). Qed.

Lemma in_slot_fields h h' i x : no_lru <$> h' = no_lru <$> h → in_slot h' i x ↔ in_slot h i x.
Proof. intros Hf. apply in_slot_same. by eapply (same_item_fields no_lru). Qed.

Lemma chain_ok_lru h h' es l l' i ch : no_lru <$> h' = no_lru <$> h → l ≡ₚ l' → chain_ok h es l i ch → chain_ok h' es l' i ch.
Proof.
  intros Hf Hl (He&Hs&Hnd&Hin). split_and!; try done.
  - eapply seg_agree, Hs. intros x c _ Hc. destruct (fields_lookup _ _ _ _ _ Hf Hc) as (c'&Hc'&Hg).
    exists c'. split; [done|]. destruct c, c'; cbn in *. by simplify_eq.
  - intros x. rewrite Hin, <-Hl, (in_slot_fields h h' i x Hf). done.
Qed.

Lemma chain_ok_frame h h' es l i ch : (∀ a, a ∈ l → h' !! a = h !! a) → chain_ok h es l i ch → chain_ok h' es l i ch.
Proof.
  intros Hl (He&Hs&Hndc&Hin).
  assert (Hc : ∀ x, x ∈ ch → h' !! x = h !! x) by (intros x [Hx _]%Hin; by apply Hl).
  split_and!; try done; [by eapply seg_frame|]. intros x. rewrite Hin. unfold in_slot.
  split; intros [Hx Hx']; (split; [done|]); by rewrite ?Hl in * by done.
Qed.

Section monad.
Implicit Types (s : sim).

Lemma load_ok s x c : cells s !! x = Some c → load (Some x) s = Ret (c, s).
Proof. intros Hc. unfold load. cbn. unfold mbind, M_mbind. cbn. by rewrite Hc. Qed.

Lemma update_ok s x f : is_Some (cells s !! x) → update (Some x) f s = Ret ((), set_cells (upd (Some x) f) s).
Proof. intros [c Hc]. unfold update. rewrite (bind_ret (deref (Some x)) _ s x s) by reflexivity. by rewrite (bind_ret _ _ _ _ _ (load_ok s x c Hc)). Qed.

Lemma update_if_ok s p f : (∀ x, p = Some x → is_Some (cells s !! x)) → update_if p f s = Ret ((), set_cells (upd p f) s).
Proof. intros Hp. destruct p as [x|]; cbn [update_if]; [by apply update_ok, Hp|]. by destruct s. Qed.

Lemma cget_ok {A} (f : cache → A) s : cget f s = Ret (f (tcache s), s).
Proof. done. Qed.
Lemma cset_ok f s : cset f s = Ret ((), set_cache f s).
Proof. done. Qed.
Lemma cset_if_ok (b : bool) f s : (if b then cset f else mret ()) s = Ret ((), set_cache (if b then f else id) s).
Proof. destruct b; [done|]. by destruct s. Qed.
End monad.

Ltac cstep H := erewrite bind_ret by (first [apply cget_ok | apply cset_ok | apply cset_if_ok | apply H]); cbv beta.

(** [unlink_lru] and [push_lru] on a well-formed list. *)
Abbreviation lunlinked := (unlinked set_lru_next set_lru_prev).
Abbreviation llinked := (linked set_lru_next set_lru_prev).

Lemma head_in {A} (l : list A) x : head l = Some x → x ∈ l.
Proof. destruct l; [done|]. intros [= ->]. set_solver. Qed.
Lemma last_in {A} (l : list A) x : last l = Some x → x ∈ l.
Proof. intros [l' ->]%last_Some. set_solver. Qed.

Lemma unlink_lru_ok s l1 x l2 : NoDup (l1 ++ x :: l2) → lseg (cells s) None (l1 ++ x :: l2) None →
  unlink_lru (Some x) s = Ret ((), Sim (lunlinked l1 l2 (cells s)) (heap_o_entries s) (brk s)
    ((if bool_decide (lru_head (tcache s) = Some x) then set_head (head l2) else id)
      ((if bool_decide (lru_tail (tcache s) = Some x) then set_tail (last l1) else id) (tcache s)))).
Proof.
  intros Hnd Hs. destruct (unlink_seg lru_next lru_prev set_lru_next set_lru_prev) with (h := cells s) (l1 := l1) (x := x) (l2 := l2)
    as [(c&Hc&Hp&Hn) _]; try done.
  assert (Hx1 : x ∉ l1) by (apply NoDup_app in Hnd as (_&Hd&_); intros ?; apply (Hd x); set_solver).
  assert (Hx2 : x ∉ l2) by (apply NoDup_app in Hnd as (_&_&[? _]%NoDup_cons); done).
  assert (Hdom : ∀ y, y ∈ l1 ∨ y ∈ l2 → is_Some (cells s !! y)).
  { intros y Hy. eapply seg_lookup; [exact Hs|]. set_solver. }
  unfold unlink_lru. rewrite (bind_ret _ _ _ _ _ (load_ok s x c Hc)). rewrite Hp, Hn.
  rewrite (bind_ret _ _ _ _ _ (update_if_ok s _ _ (λ y Hy, Hdom y (or_introl (last_in _ _ Hy))))).
  set (s1 := set_cells _ s).
  assert (Hc1 : cells s1 !! x = Some c).
  { unfold s1. cbn. rewrite upd_ne; [done|]. intros Hl%last_in. done. }
  rewrite (bind_ret _ _ _ _ _ (load_ok s1 x c Hc1)). rewrite Hp, Hn.
  assert (Hd1 : ∀ y, head l2 = Some y → is_Some (cells s1 !! y)).
  { intros y Hy. unfold s1. cbn. rewrite upd_is_Some. apply Hdom. right. by apply head_in. }
  rewrite (bind_ret _ _ _ _ _ (update_if_ok s1 _ _ Hd1)). set (s2 := set_cells _ s1).
  assert (Hc2 : cells s2 !! x = Some c).
  { unfold s2. cbn. rewrite upd_ne; [done|]. intros Hl%head_in. done. }
  rewrite (bind_ret _ _ _ _ _ (load_ok s2 x c Hc2)). rewrite Hp, Hn.
  rewrite (bind_ret _ _ _ _ _ (cget_ok lru_tail s2)), (bind_ret _ _ _ _ _ (cset_if_ok _ _ s2)).
  rewrite (bind_ret _ _ _ _ _ (cget_ok lru_head _)), cset_if_ok. unfold s2, s1, set_cache, set_cells. cbn.
  destruct (bool_decide (lru_tail (tcache s) = Some x)); done.
Qed.

Lemma push_lru_ok s x l : lru_head (tcache s) = head l → x ∉ l → is_Some (cells s !! x) →
  (∀ y, y ∈ l → is_Some (cells s !! y)) →
  push_lru (Some x) s = Ret ((), Sim (llinked x l (cells s)) (heap_o_entries s) (brk s) (set_head (Some x) (tcache s))).
Proof.
  intros Hh Hx Hc Hdom. unfold push_lru. rewrite (bind_ret _ _ _ _ _ (cget_ok lru_head s)), Hh.
  rewrite (bind_ret _ _ _ _ _ (cset_ok _ s)).
  erewrite bind_ret by (apply update_ok; done). erewrite bind_ret by (apply update_ok; cbn -[upd]; by rewrite upd_is_Some).
  rewrite update_if_ok; [done|]. intros y Hy. cbn -[upd]. rewrite !upd_is_Some. apply Hdom. by apply head_in.
Qed.

(** ** The entries and the list *)

Lemma rep_dom s n max l fl ks x : rep s n max l fl ks → x ∈ l → is_Some (cells s !! x).
Proof. intros Hr. eapply seg_lookup, (r_lru _ _ _ _ _ _ Hr). Qed.

Lemma rep_split s n max l fl ks i x k : rep s n max l fl ks → l !! i = Some x → ks !! i = Some k →
  ∃ l1 l2 ks1 ks2, l = l1 ++ x :: l2 ∧ ks = ks1 ++ k :: ks2 ∧ length l1 = length ks1.
Proof.
  intros _ Hx Hk. exists (take i l), (drop (S i) l), (take i ks), (drop (S i) ks).
  rewrite !take_drop_middle by done. split_and!; try done.
  apply lookup_lt_Some in Hx, Hk. rewrite !length_take. lia.
Qed.

Lemma total_app_items ks1 ks2 : total (ks1 ++ ks2) = total ks1 + total ks2.
Proof. unfold total. induction ks1 as [|k ks1 IH]; cbn [foldr app]; lia. Qed.

Lemma total_perm ks ks' : ks ≡ₚ ks' → total ks = total ks'.
Proof. unfold total. induction 1; cbn [foldr]; lia. Qed.

Lemma total_nonneg ks : Forall (λ k : item, 0 <= k.2 < 2 ^ 32) ks → 0 <= total ks.
Proof. unfold total. induction 1; cbn [foldr]; lia. Qed.

Lemma perm_middle {A} (l1 l2 : list A) x : l1 ++ x :: l2 ≡ₚ x :: l1 ++ l2.
Proof. symmetry. apply Permutation_middle. Qed.

Lemma set_ends tc p q : lru_head tc = p → lru_tail tc = q → set_tail q (set_head p tc) = tc.
Proof. destruct tc; cbn. by intros -> ->. Qed.

(** The ends of the list without [x]. *)
Lemma ends_unlinked tc l1 x l2 : x ∉ l1 ++ l2 → lru_head tc = head (l1 ++ x :: l2) → lru_tail tc = last (l1 ++ x :: l2) →
  (if bool_decide (lru_head tc = Some x) then set_head (head l2) else id)
    ((if bool_decide (lru_tail tc = Some x) then set_tail (last l1) else id) tc) =
  set_tail (last (l1 ++ l2)) (set_head (head (l1 ++ l2)) tc).
Proof.
  intros Hx Hh Ht.
  assert (E1 : (if bool_decide (lru_tail tc = Some x) then set_tail (last l1) else id) tc = set_tail (last (l1 ++ l2)) tc).
  { rewrite Ht. destruct l2 as [|z l2 _] using rev_ind.
    - rewrite last_snoc, bool_decide_eq_true_2 by done. by rewrite app_nil_r.
    - rewrite app_comm_cons, !app_assoc, !last_snoc in *. rewrite bool_decide_eq_false_2; [|set_solver].
      destruct tc; cbn in *. unfold set_tail. cbn. by rewrite Ht. }
  rewrite E1. rewrite Hh. destruct l1 as [|y l1]; cbn [head app] in *.
  - rewrite bool_decide_eq_true_2 by done. done.
  - rewrite bool_decide_eq_false_2 by set_solver. destruct tc; cbn in *. unfold set_tail, set_head. cbn. by rewrite Hh.
Qed.

Lemma last_cons_ne {A} (x : A) l : l ≠ [] → last (x :: l) = last l.
Proof. by destruct l. Qed.

(** An access moves an entry to the front, and the rest is as before. *)
Lemma touch_ok s n max l1 x l2 fl ks1 k ks2 :
  rep s n max (l1 ++ x :: l2) fl (ks1 ++ k :: ks2) → length l1 = length ks1 → l1 ++ l2 ≠ [] →
  ∃ s', (_ ← unlink_lru (Some x); push_lru (Some x)) s = Ret ((), s') ∧
    rep s' n max (x :: l1 ++ l2) fl (k :: ks1 ++ ks2) ∧ no_lru <$> cells s' = no_lru <$> cells s.
Proof.
  intros [Hlru Hhd Htl Hfree Hnd Hbrk Hit Hkeys Hslots Hch Hcnt Hsz Hmax Hszs] Hlen Hne.
  pose proof Hnd as (Hndf&Hdis&Hndl)%NoDup_app.
  assert (Hperm : l1 ++ x :: l2 ≡ₚ x :: l1 ++ l2) by apply perm_middle.
  assert (Hnd12 : NoDup (x :: l1 ++ l2)) by (by rewrite <-Hperm).
  pose proof Hnd12 as [Hx Hnd']%NoDup_cons.
  destruct (unlink_seg lru_next lru_prev set_lru_next set_lru_prev) with (h := cells s) (l1 := l1) (x := x) (l2 := l2)
    as [(c&Hc&_&_) Hun]; try done.
  erewrite bind_ret by (by apply unlink_lru_ok). rewrite ends_unlinked by done.
  set (h1 := lunlinked l1 l2 (cells s)) in *.
  assert (Hc1 : h1 !! x = Some c) by (unfold h1; rewrite unlinked_ne; set_solver).
  assert (Hdom : ∀ y, y ∈ l1 ++ l2 → is_Some (h1 !! y)).
  { intros y Hy. unfold h1. apply unlinked_is_Some. eapply seg_lookup; [exact Hlru|]. rewrite Hperm. set_solver. }
  erewrite push_lru_ok; [|done|exact Hx|by eexists|exact Hdom]. cbn [cells heap_o_entries brk tcache].
  assert (Hf : no_lru <$> llinked x (l1 ++ l2) h1 = no_lru <$> cells s).
  { rewrite linked_fields by done. unfold h1. by apply unlinked_fields. }
  eexists. split; [done|]. split; [|exact Hf]. split; cbn -[linked unlinked total]; try done.
  - by eapply (link_seg lru_next lru_prev).
  - by rewrite last_cons_ne.
  - eapply free_frame, Hfree. intros a Ha. pose proof (Hdis a Ha) as Hal. rewrite Hperm in Hal.
    rewrite linked_ne by set_solver. unfold h1. rewrite unlinked_ne by set_solver. done.
  - by rewrite <-Hperm.
  - intros a. rewrite linked_is_Some. unfold h1. rewrite unlinked_is_Some. apply Hbrk.
  - apply Forall2_app_inv in Hit as [Hi1 Hi2]; [|done]. apply Forall2_cons in Hi2 as [Hix Hi2].
    apply Forall2_cons. split; [by eapply item_ok_fields|].
    apply Forall2_app; (eapply Forall2_impl; [eassumption|]); intros; by eapply item_ok_fields.
  - change (NoDup (k :: ks1 ++ ks2).*1). by rewrite <-(perm_middle ks1 ks2 k).
  - intros i Hi. destruct (Hch i Hi) as [ch Hok]. exists ch. by eapply chain_ok_lru.
  - rewrite Hcnt. by rewrite Hperm.
  - rewrite Hsz. apply total_perm, perm_middle.
  - rewrite <-(total_perm _ _ (perm_middle ks1 ks2 k)). done.
  - by rewrite <-(perm_middle ks1 ks2 k).
Qed.

(** The chain an entry is in. *)
Lemma entry_chain h es n l x k : (∀ i, (i < n)%nat → ∃ ch, chain_ok h es l i ch) → (0 < n)%nat → item_ok h n x k → x ∈ l →
  ∃ c c1 c2, h !! x = Some c ∧ hashval c = k.1 ∧ esize c = k.2 ∧ byte_offset c = Z.of_nat (slot_of n k.1) ∧
    (slot_of n k.1 < n)%nat ∧ chain_ok h es l (slot_of n k.1) (c1 ++ x :: c2) ∧
    chain_prev c = last c1 ∧ chain_next c = head c2.
Proof.
  intros Hch Hn (c&Hc&Hh&Hs&Ho) Hx.
  assert (Hlt : (slot_of n k.1 < n)%nat).
  { unfold slot_of. pose proof (Z.mod_pos_bound (of_le (take 4 k.1)) (Z.of_nat n) ltac:(lia)). lia. }
  destruct (Hch _ Hlt) as (ch&Hok). pose proof Hok as (_&Hseg&_&Hin).
  assert (Hxc : x ∈ ch) by (apply Hin; split; [done|]; unfold in_slot; rewrite Hc; cbn; by rewrite Ho).
  apply list_elem_of_split in Hxc as (c1&c2&->). exists c, c1, c2. split_and!; try done.
  all: apply seg_app in Hseg as [_ (c'&Hc'&Hp&Hnx&_)]; rewrite Hc in Hc'; injection Hc' as <-.
  - by rewrite Hp, lst_or_None.
  - by rewrite Hnx, hd_or_None.
Qed.

Abbreviation cunlinked := (unlinked set_chain_next set_chain_prev).

(** The chains after the removal of an entry. *)
Lemma chain_removed h h' es l1 x l2 i c1 c2 n : NoDup (l1 ++ x :: l2) → length es = n → (i < n)%nat →
  chain_ok h es (l1 ++ x :: l2) i (c1 ++ x :: c2) → in_slot h i x →
  (∀ j, (j < n)%nat → ∃ ch, chain_ok h es (l1 ++ x :: l2) j ch) →
  (∀ y, y ≠ x → no_lru <$> h' !! y = no_lru <$> (cunlinked c1 c2 h !! y)) →
  ∀ j, (j < n)%nat → ∃ ch, chain_ok h' (<[i := head (c1 ++ c2)]> es) (l1 ++ l2) j ch.
Proof.
  intros Hnd Hes Hi (He&Hseg&Hndc&Hin) Hix Hch Hf j Hj.
  assert (Hx : ∀ y, y ∈ l1 ++ l2 ↔ y ∈ l1 ++ x :: l2 ∧ y ≠ x).
  { intros y. assert (x ∉ l1 ++ l2) by (rewrite perm_middle in Hnd; by apply NoDup_cons in Hnd as [? _]).
    rewrite (perm_middle l1 l2 x), elem_of_cons. naive_solver. }
  assert (Hagree : ∀ y c, y ≠ x → cunlinked c1 c2 h !! y = Some c → ∃ c', h' !! y = Some c' ∧ chain_next c' = chain_next c ∧ chain_prev c' = chain_prev c).
  { intros y c Hy Hc. specialize (Hf y Hy). rewrite Hc in Hf. cbn in Hf. destruct (h' !! y) as [c'|]; [|done].
    exists c'. split; [done|]. destruct c, c'; cbn in *. by simplify_eq. }
  assert (Hslot : ∀ y k, y ≠ x → in_slot h' k y ↔ in_slot h k y).
  { intros y k Hy. assert (Hs1 : same_item (cunlinked c1 c2 h) h' y).
    { specialize (Hf y Hy). unfold same_item. destruct (h' !! y) as [c'|], (cunlinked c1 c2 h !! y) as [c|]; try done.
      cbn in *. destruct c, c'; cbn in *. by simplify_eq. }
    rewrite (in_slot_same _ _ _ _ Hs1). apply in_slot_same.
    apply (same_item_fields no_chain); [done|]. by apply unlinked_fields. }
  pose proof Hndc as Hxc. rewrite perm_middle in Hxc. apply NoDup_cons in Hxc as [Hxc Hndc'].
  destruct (unlink_seg chain_next chain_prev set_chain_next set_chain_prev) with (h := h) (l1 := c1) (x := x) (l2 := c2)
    as [_ Hun]; try done.
  destruct (decide (j = i)) as [->|Hji].
  - exists (c1 ++ c2). split_and!; [apply list_lookup_insert_eq; lia| |done|].
    + eapply seg_agree, Hun. intros y c Hy Hc. apply Hagree; [|done]. by intros ->.
    + intros y. destruct (decide (y = x)) as [->|Hy]; [set_solver|].
      rewrite Hx, Hslot by done. specialize (Hin y). rewrite (perm_middle c1 c2 x), elem_of_cons in Hin. naive_solver.
  - destruct (Hch j Hj) as (ch&Hej&Hsj&Hndj&Hinj).
    assert (Hsame : ∀ y, in_slot h j y → y ≠ x ∧ (y ∉ c1) ∧ (y ∉ c2)).
    { intros y Hjy. assert (Hni : ¬ in_slot h i y).
      { unfold in_slot in *. intros Hiy. rewrite Hjy in Hiy. injection Hiy as Hiy. lia. }
      split; [by intros ->|]. specialize (Hin y). set_solver. }
    exists ch. split_and!; [by rewrite list_lookup_insert_ne|..]; try done.
    + eapply seg_agree, Hsj. intros y c Hy Hc. apply Hinj in Hy as [_ Hjy]. destruct (Hsame y Hjy) as (Hyx&H1&H2).
      apply Hagree; [done|]. by rewrite unlinked_ne.
    + intros y. rewrite Hinj, Hx. destruct (decide (y = x)) as [->|Hy].
      * split; [|naive_solver]. intros [_ Hjy]. by apply Hsame in Hjy as [? _].
      * rewrite Hslot by done. naive_solver.
Qed.

Lemma set_slot_ok i p s : (i < length (entries (tcache s)))%nat →
  set_slot (Z.of_nat i) p s = Ret ((), set_cache (set_entries <[i := p]>) s).
Proof.
  intros Hi. unfold set_slot, get_slot. destruct (lookup_lt_is_Some_2 _ _ Hi) as [q Hq].
  erewrite bind_ret.
  2: { rewrite (bind_ret _ _ _ _ _ (cget_ok entries s)), Nat2Z.id, Hq. done. }
  rewrite Nat2Z.id. done.
Qed.

Lemma total_snoc_range ks (k : item) : Forall (λ k : item, 0 <= k.2 < 2 ^ 32) (ks ++ [k]) →
  total (ks ++ [k]) = total ks + k.2 ∧ 0 <= k.2 ∧ 0 <= total ks.
Proof.
  intros [H1 H2]%Forall_app. apply Forall_cons in H2 as [H2 _]. rewrite total_app_items. change (total [k]) with (k.2 + 0).
  pose proof (total_nonneg ks H1). lia.
Qed.

Lemma size_same (h h' : gmap loc cache_entry) : (∀ y, is_Some (h' !! y) ↔ is_Some (h !! y)) → size h' = size h.
Proof. intros Hd. rewrite <-!(size_dom (D := gset loc)). f_equal. apply set_eq. intros y. by rewrite !elem_of_dom. Qed.

(** The entry used least recently goes. *)
Lemma evict_ok s n max l x fl ks k : rep s n max (l ++ [x]) fl (ks ++ [k]) →
  ∃ s', evict_lru s = Ret ((), s') ∧ rep s' n max l (x :: fl) ks ∧ size (cells s') = size (cells s).
Proof.
  intros [Hlru Hhd Htl Hfree Hnd Hbrk Hit Hkeys (Hes&Hn0&Hnum) Hch Hcnt Hsz [Hmax Hroom] Hszs].
  pose proof Hnd as (Hndf&Hdis&Hndl)%NoDup_app.
  pose proof Hndl as Hx. rewrite perm_middle, app_nil_r in Hx. apply NoDup_cons in Hx as [Hx Hnd'].
  apply Forall2_app_inv_r in Hit as (l0&l0'&Hit&Hitx&Heq). apply Forall2_cons_inv_r in Hitx as (x0&l0''&Hix&Hnil&->).
  apply Forall2_nil_inv_r in Hnil as ->. apply app_inj_tail in Heq as [<- <-].
  destruct (entry_chain _ _ _ _ _ _ Hch Hn0 Hix ltac:(set_solver)) as (c&c1&c2&Hc&Hch1&Hcs&Hco&Hi&Hok&Hcp&Hcn).
  set (i := slot_of n k.1) in *.
  destruct (unlink_seg lru_next lru_prev set_lru_next set_lru_prev) with (h := cells s) (l1 := l) (x := x) (l2 := @nil loc)
    as [(c'&Hc'&Hlp&Hln) Hun]; try done.
  rewrite Hc in Hc'. injection Hc' as <-. rewrite app_nil_r in Hun. set (h1 := lunlinked l [] (cells s)) in *.
  assert (Hc1 : h1 !! x = Some c) by (unfold h1; by rewrite unlinked_ne; [|done|set_solver]).
  pose proof Hok as (He&Hseg&Hndc&Hin). pose proof Hndc as Hxc. rewrite perm_middle in Hxc. apply NoDup_cons in Hxc as [Hxc Hndc'].
  assert (Hxc1 : x ∉ c1) by set_solver. assert (Hxc2 : x ∉ c2) by set_solver.
  set (h2 := cunlinked c1 c2 h1).
  assert (Hc2 : h2 !! x = Some c) by (unfold h2; by rewrite unlinked_ne).
  assert (Hdomc : ∀ y, y ∈ c1 ∨ y ∈ c2 → is_Some (cells s !! y)).
  { intros y Hy. eapply seg_lookup; [exact Hseg|]. set_solver. }
  set (h3 := upd (Some x) (set_lru_next (heap_o_entries s)) (upd (Some x) (λ _, zero_entry) h2)).
  set (tc1 := set_tail (last l) (set_head (head l) (tcache s))).
  set (tc2 := set_counts (u64 (Z.of_nat (length l))) (total ks) (set_entries <[i := head (c1 ++ c2)]> tc1)).
  destruct (total_snoc_range ks k Hszs) as (Htot&Hk0&Ht0).
  assert (Hrun : evict_lru s = Ret ((), Sim h3 (Some x) (brk s) tc2)).
  { unfold evict_lru. rewrite (bind_ret _ _ _ _ _ (cget_ok lru_tail s)), Htl, last_snoc.
    rewrite (bind_ret _ _ _ _ _ (load_ok s x c Hc)), Hlp, Hcs, Hco.
    rewrite (bind_ret _ _ _ _ _ (cset_ok _ s)).
    erewrite bind_ret by (apply update_if_ok; intros y Hy%last_in; cbn; eapply seg_lookup; [exact Hlru|set_solver]).
    rewrite (bind_ret _ _ _ _ _ (cget_ok lru_head _)), (bind_ret _ _ _ _ _ (cset_if_ok _ _ _)).
    set (s1 := set_cache _ (set_cells _ _)).
    assert (E1 : s1 = Sim h1 (heap_o_entries s) (brk s) tc1).
    { unfold s1, set_cache, set_cells. cbn. f_equal. pose proof (ends_unlinked (tcache s) l x []) as Hends.
      rewrite app_nil_r in Hends. specialize (Hends Hx Hhd Htl). rewrite Htl, last_snoc, (bool_decide_eq_true_2 (Some x = Some x)) in Hends by done.
      exact Hends. }
    rewrite E1. clear E1 s1.
    rewrite (bind_ret _ _ _ _ _ (load_ok (Sim h1 _ _ _) x c Hc1)), Hcp, Hcn.
    erewrite bind_ret by (apply update_if_ok; intros y Hy%last_in; cbn [cells]; apply unlinked_is_Some; apply Hdomc; by left).
    unfold set_cells at 1. cbn [cells heap_o_entries brk tcache].
    erewrite bind_ret by (apply load_ok; cbn [cells]; rewrite upd_ne; [exact Hc1|intros Hy%last_in; done]).
    rewrite Hcn, Hcp.
    erewrite bind_ret by (apply update_if_ok; intros y Hy%head_in; cbn [cells]; rewrite upd_is_Some; apply unlinked_is_Some; apply Hdomc; by right).
    unfold set_cells at 1. cbn [cells heap_o_entries brk tcache].
    change (upd (head c2) (set_chain_prev (last c1)) (upd (last c1) (set_chain_next (head c2)) h1)) with h2.
    erewrite bind_ret by (apply load_ok; exact Hc2). rewrite Hcn, Hcp.
    assert (Hslot : (if bool_decide (last c1 = None) then set_slot (Z.of_nat i) (head c2) else mret ()) (Sim h2 (heap_o_entries s) (brk s) tc1)
      = Ret ((), Sim h2 (heap_o_entries s) (brk s) (set_entries <[i := head (c1 ++ c2)]> tc1))).
    { destruct (decide (c1 = [])) as [E1|E1].
      { rewrite bool_decide_eq_true_2 by (by rewrite E1). rewrite set_slot_ok by (cbn [tcache]; unfold tc1; cbn; by rewrite Hes). by rewrite E1. }
      assert (Hh : head (c1 ++ c2) = head (c1 ++ x :: c2)) by (by destruct c1).
      rewrite bool_decide_eq_false_2 by (intros Hl%last_None; done). rewrite Hh. unfold set_entries.
      change (entries tc1) with (entries (tcache s)). rewrite list_insert_id by (by rewrite He). done. }
    erewrite bind_ret by exact Hslot.
    rewrite (bind_ret _ _ _ _ _ (cget_ok cur_num_entries _)), (bind_ret _ _ _ _ _ (cget_ok cur_cache_size _)).
    rewrite (bind_ret _ _ _ _ _ (cset_ok _ _)).
    assert (E2 : set_cache (set_counts (u64 (cur_num_entries (tcache s) - 1)) (u64 (cur_cache_size (tcache s) - k.2)))
      (Sim h2 (heap_o_entries s) (brk s) (set_entries <[i := head (c1 ++ c2)]> tc1)) = Sim h2 (heap_o_entries s) (brk s) tc2).
    { unfold set_cache. cbn [cells heap_o_entries brk tcache]. unfold tc2. f_equal. rewrite Hcnt, Hsz, Htot, length_app. cbn [length].
      unfold wrap at 1 2. rewrite Zminus_mod_idemp_l. fold (u64 (Z.of_nat (length l + 1) - 1)).
      rewrite (wrap_small 64 (total ks + k.2 - k.2)) by lia. f_equal; [f_equal; lia|lia]. }
    lazymatch goal with |- ?m ?st = _ => replace st with (Sim h2 (heap_o_entries s) (brk s) tc2) by (symmetry; exact E2) end.
    unfold free_cache_entry.
    erewrite bind_ret by (apply update_ok; by exists c).
    rewrite (bind_ret (gets heap_o_entries) _ _ (heap_o_entries s) _) by done.
    erewrite bind_ret by (apply update_ok; cbn [set_cells cells]; rewrite upd_is_Some; by exists c). done. }
  exists (Sim h3 (Some x) (brk s) tc2). split; [done|].
  assert (Hdom3 : ∀ y, is_Some (h3 !! y) ↔ is_Some (cells s !! y)).
  { intros y. unfold h3, h2, h1. by rewrite !upd_is_Some, !unlinked_is_Some. }
  assert (Hne3 : ∀ y, y ≠ x → h3 !! y = h2 !! y).
  { intros y Hy. unfold h3. rewrite !upd_ne by congruence. done. }
  assert (Hxx : h3 !! x = Some (set_lru_next (heap_o_entries s) zero_entry)).
  { unfold h3. eapply upd_eq. by eapply (upd_eq (λ _, zero_entry)). }
  assert (Hdc : ∀ y, y ∈ c1 ++ c2 → y ∈ l).
  { intros y Hy. specialize (Hin y). rewrite perm_middle, elem_of_cons in Hin. assert (y ≠ x) by (by intros ->).
    destruct Hin as [Hin _]. destruct Hin as [Hin _]; [by right|]. set_solver. }
  split; [|by apply size_same].
  split; cbn [cells heap_o_entries brk tcache]; try done.
  - eapply seg_agree, Hun. intros y d Hy Hd. assert (Hyx : y ≠ x) by (by intros ->). rewrite Hne3 by done.
    destruct (fields_lookup no_chain h1 h2 y d) as (d'&Hd'&Hg); [by apply unlinked_fields|done|].
    exists d'. split; [done|]. destruct d, d'; cbn in *. by simplify_eq.
  - cbn [fchain]. split; [done|]. eexists. split; [exact Hxx|]. split; [done|]. cbn [lru_next set_lru_next].
    eapply free_frame, Hfree. intros a Ha. pose proof (Hdis a Ha) as Hal.
    rewrite Hne3 by set_solver. unfold h2. rewrite unlinked_ne by set_solver. unfold h1. rewrite unlinked_ne by set_solver. done.
  - apply NoDup_cons. split; [|by apply NoDup_app; split_and!; [done|set_solver|done]].
    rewrite elem_of_app. intros [Hxf|Hxl]; [|done]. apply (Hdis x Hxf). set_solver.
  - intros a Ha. apply Hbrk. by apply Hdom3.
  - eapply Forall2_same_length_lookup_2; [by eapply Forall2_length|]. intros j y kj Hy Hkj.
    eapply item_ok_same; [|by eapply Forall2_lookup_lr].
    assert (Hyl : y ∈ l) by (by apply list_elem_of_lookup_2 in Hy). unfold same_item. rewrite Hne3 by (by intros ->).
    etrans; [apply (same_item_fields no_chain h1 h2); [done|by apply unlinked_fields]|].
    apply (same_item_fields no_lru (cells s) h1); [done|by apply unlinked_fields].
  - rewrite fmap_app in Hkeys. by apply NoDup_app in Hkeys as [? _].
  - cbn. by rewrite length_insert.
  - assert (Hf1 : no_lru <$> h1 = no_lru <$> cells s) by (by apply unlinked_fields).
    pose proof (chain_removed h1 h3 (entries (tcache s)) l x [] i c1 c2 n) as Hrem. rewrite app_nil_r in Hrem.
    apply Hrem; try done.
    + by eapply chain_ok_lru.
    + unfold in_slot. rewrite Hc1. cbn. by rewrite Hco.
    + intros j Hj. destruct (Hch j Hj) as [ch Hokj]. exists ch. by eapply chain_ok_lru.
    + intros y Hy. by rewrite Hne3.
  - split; [done|]. lia.
  - by apply Forall_app in Hszs as [? _].
Qed.

(** ** Making room *)

Lemma keep_all budget ks : Forall (λ k : item, 0 <= k.2 < 2 ^ 32) ks → total ks <= budget → keep budget ks = ks.
Proof.
  intros Hks. revert budget. induction Hks as [|k ks Hk Hks IH]; intros budget Ht; cbn [keep]; [done|].
  change (total (k :: ks)) with (k.2 + total ks) in Ht. pose proof (total_nonneg ks Hks).
  rewrite (proj2 (Z.leb_le _ _)) by lia. by rewrite IH by lia.
Qed.

Lemma keep_snoc budget ks k : budget < total (ks ++ [k]) → keep budget (ks ++ [k]) = keep budget ks.
Proof.
  revert budget. induction ks as [|a ks IH]; intros budget Ht; cbn [keep app].
  - change (total ([] ++ [k])) with (k.2 + 0) in Ht. by rewrite (proj2 (Z.leb_gt _ _)) by lia.
  - change (total ((a :: ks) ++ [k])) with (a.2 + total (ks ++ [k])) in Ht. by rewrite IH by lia.
Qed.

Lemma keep_total budget ks : 0 <= budget → total (keep budget ks) <= budget.
Proof.
  revert budget. induction ks as [|k ks IH]; intros budget Hb; cbn [keep]; [done|].
  destruct (Z.leb_spec k.2 budget); [|done]. change (total (k :: keep (budget - k.2) ks)) with (k.2 + total (keep (budget - k.2) ks)).
  specialize (IH (budget - k.2)). lia.
Qed.

Lemma keep_prefix budget ks : keep budget ks `prefix_of` ks.
Proof.
  revert budget. induction ks as [|k ks IH]; intros budget; cbn [keep]; [done|].
  destruct (k.2 <=? budget); [by apply prefix_cons|apply prefix_nil].
Qed.

Lemma keep_forall (P : item → Prop) budget ks : Forall P ks → Forall P (keep budget ks).
Proof. destruct (keep_prefix budget ks) as [ks' E]. rewrite E at 1. by intros [? _]%Forall_app. Qed.

Lemma rep_length s n max l fl ks : rep s n max l fl ks → length l = length ks.
Proof. intros Hr. apply (Forall2_length _ _ _ (r_items _ _ _ _ _ _ Hr)). Qed.

(** The loop ends with the documents that fit next to the new one. *)
Lemma evict_loop_ok fuel : ∀ s n max l fl ks sz, rep s n max l fl ks → 0 <= sz < 2 ^ 32 → sz <= max → (length l <= fuel)%nat →
  ∃ s' l' fl', evict_loop fuel sz 0 s = Ret (Some 0, s') ∧ rep s' n max l' fl' (keep (max - sz) ks).
Proof.
  induction fuel as [|fuel IH]; intros s n max l fl ks sz Hr Hsz Hmax Hf; cbn [evict_loop];
    rewrite (bind_ret _ _ _ _ _ (cget_ok cur_cache_size s)), (bind_ret _ _ _ _ _ (cget_ok cache_size s));
    pose proof (total_nonneg ks (r_sizes _ _ _ _ _ _ Hr)); pose proof (r_max _ _ _ _ _ _ Hr) as [-> Hm];
    rewrite (r_size _ _ _ _ _ _ Hr), (wrap_small 64) by lia;
    (destruct (Z.ltb_spec max (total ks + sz));
      [|exists s, l, fl; rewrite keep_all by (done || apply (r_sizes _ _ _ _ _ _ Hr) || lia); done]).
  - destruct l; [|cbn in Hf; lia]. pose proof (rep_length _ _ _ _ _ _ Hr) as Hl. destruct ks; [|done]. cbn in *. lia.
  - rewrite (proj2 (Z.ltb_ge max sz)) by lia. pose proof (rep_length _ _ _ _ _ _ Hr) as Hl.
    destruct l as [|x l _] using rev_ind; [destruct ks; [cbn in *; lia|done]|].
    destruct ks as [|k ks _] using rev_ind; [rewrite length_app in Hl; cbn in Hl; lia|].
    destruct (evict_ok s n max l x fl ks k Hr) as (s1&He&Hr1&_). rewrite (bind_ret _ _ _ _ _ He).
    change (Z.land 0 1) with 0. rewrite length_app in Hf. cbn in Hf.
    destruct (IH s1 n max l (x :: fl) ks sz Hr1) as (s'&l'&fl'&Hl'&Hr'); [done..|lia|].
    exists s', l', fl'. rewrite keep_snoc by lia. done.
Qed.

(** ** Searching a chain *)

Lemma chain_find_ok fuel hv : ∀ s pp prev ch, cseg (cells s) pp ch None → (length ch <= fuel)%nat →
  (∃ c1 x c2 c pr, ch = c1 ++ x :: c2 ∧ cells s !! x = Some c ∧ hashval c = hv ∧
     chain_find fuel hv prev (head ch) s = Ret ((Some x, pr), s)) ∨
  ((∀ x c, x ∈ ch → cells s !! x = Some c → hashval c ≠ hv) ∧
     chain_find fuel hv prev (head ch) s = Ret ((None, lst_or prev ch), s)).
Proof.
  induction fuel as [|fuel IH]; intros s pp prev ch Hs Hl; (destruct ch as [|x ch]; [right; split; [set_solver|done]|]);
    cbn [length] in Hl; [lia|].
  cbn [seg] in Hs. destruct Hs as (c&Hc&Hp&Hn&Hs). cbn [chain_find head].
  rewrite (bind_ret _ _ _ _ _ (load_ok s x c Hc)). case_bool_decide as Hh.
  - left. exists [], x, ch, c, prev. done.
  - rewrite Hn, hd_or_None. destruct (IH s (Some x) (Some x) ch Hs ltac:(lia)) as [(c1&y&c2&d&pr&->&Hd&Hhd&Hr)|[Hno Hr]].
    + left. exists (x :: c1), y, c2, d, pr. done.
    + right. rewrite Hr, lst_or_cons. split; [|done]. intros y d [->|Hy]%elem_of_cons Hd; [|by eapply Hno].
      rewrite Hc in Hd. by injection Hd as <-.
Qed.

(** What a search in the slot of a key finds. *)
Lemma find_key s n max l fl ks hv prev : rep s n max l fl ks → let i := slot_of n hv in
  (i < n)%nat ∧ ∃ ch, chain_ok (cells s) (entries (tcache s)) l i ch ∧
  ((∃ l1 x l2 ks1 sz ks2 pr, l = l1 ++ x :: l2 ∧ ks = ks1 ++ (hv, sz) :: ks2 ∧ length l1 = length ks1 ∧ ch ≠ [] ∧
      chain_find (size (cells s)) hv prev (head ch) s = Ret ((Some x, pr), s)) ∨
   ((hv ∉ ks.*1) ∧ chain_find (size (cells s)) hv prev (head ch) s = Ret ((None, lst_or prev ch), s))).
Proof.
  intros Hr i. pose proof (r_slots _ _ _ _ _ _ Hr) as (_&Hn&_).
  assert (Hi : (i < n)%nat).
  { unfold i, slot_of. pose proof (Z.mod_pos_bound (of_le (take 4 hv)) (Z.of_nat n) ltac:(lia)). lia. }
  split; [done|]. destruct (r_chains _ _ _ _ _ _ Hr i Hi) as [ch Hok]. exists ch. split; [done|].
  pose proof Hok as (He&Hseg&Hnd&Hin).
  assert (Hlen : (length ch <= size (cells s))%nat).
  { rewrite <-(size_dom (D := gset loc)), <-(size_list_to_set (C := gset loc) ch Hnd). apply subseteq_size.
    intros y. rewrite elem_of_list_to_set, elem_of_dom. intros Hy. by eapply seg_lookup. }
  destruct (chain_find_ok (size (cells s)) hv s None prev ch Hseg Hlen) as [(c1&x&c2&c&pr&->&Hc&Hh&Hf)|[Hno Hf]].
  - left. assert (Hx : x ∈ l) by (by apply (Hin x); set_solver). apply list_elem_of_lookup_1 in Hx as [j Hj].
    destruct (Forall2_lookup_l _ _ _ _ _ (r_items _ _ _ _ _ _ Hr) Hj) as (k&Hk&c'&Hc'&Hh'&_).
    rewrite Hc in Hc'. injection Hc' as <-.
    destruct (rep_split _ _ _ _ _ _ j x k Hr Hj Hk) as (l1&l2&ks1&ks2&->&->&Hlen').
    exists l1, x, l2, ks1, k.2, ks2, pr. split_and!; try done; [|by destruct c1]. rewrite <-Hh, Hh'. by destruct k.
  - right. split; [|done]. intros Hk. apply list_elem_of_fmap in Hk as ([hv' sz]&->&Hk).
    apply list_elem_of_lookup_1 in Hk as [j Hj]. cbn in *.
    destruct (Forall2_lookup_r _ _ _ _ _ (r_items _ _ _ _ _ _ Hr) Hj) as (x&Hx&c&Hc&Hh&_&Ho). cbn in *.
    apply (Hno x c); [|done|done]. apply Hin. split; [by eapply list_elem_of_lookup_2|]. unfold in_slot. rewrite Hc. cbn. by rewrite Ho.
Qed.

(** ** The allocator *)

Record heap_ok (s : sim) (fl : list loc) : Prop := {
  h_free : fchain (cells s) (heap_o_entries s) fl;
  h_nodup : NoDup fl;
  h_brk : ∀ a, is_Some (cells s !! a) → (a < brk s)%nat;
}.

Section alloc.
Context (calloc_ok : loc → bool) (Hcalloc : ∀ b, calloc_ok b = true).

Lemma foldr_zero (c : gmap loc cache_entry) base n a :
  foldr (λ a, insert a zero_entry) c (seq base n) !! a =
  if decide (base <= a < base + n)%nat then Some zero_entry else c !! a.
Proof.
  revert base. induction n as [|n IH]; intros base; cbn [seq foldr].
  - case_decide; [lia|done].
  - rewrite lookup_insert, IH. repeat case_decide; try lia; done.
Qed.

Lemma chain_block_ok base n : ∀ i s, (∀ a, (base + i <= a < base + i + n)%nat → is_Some (cells s !! a)) →
  ∃ c', chain_block base n i s = Ret ((), set_cells (λ _, c') s) ∧
    ∀ a, c' !! a = if decide (base + i <= a < base + i + n)%nat then set_lru_next (Some (a + 1)%nat) <$> cells s !! a else cells s !! a.
Proof.
  induction n as [|n IH]; intros i s Hd; cbn [chain_block].
  - exists (cells s). split; [by destruct s|]. intros a. case_decide; [lia|done].
  - assert (Hb : is_Some (cells s !! (base + i)%nat)) by (apply Hd; lia).
    rewrite (bind_ret _ _ _ _ _ (update_ok s _ _ Hb)). set (s1 := set_cells _ s).
    destruct (IH (S i) s1) as (c'&Hr&Hc').
    { intros a Ha. unfold s1. cbn [set_cells cells]. rewrite upd_is_Some. apply Hd. lia. }
    exists c'. split; [by rewrite Hr|]. intros a. rewrite Hc'. unfold s1. cbn [set_cells cells upd]. rewrite lookup_alter.
    repeat case_decide; subst; try lia; done.
Qed.

Lemma free_seq (c : gmap loc cache_entry) base n p : (p = if decide (n = 0)%nat then None else Some base) →
  (∀ a, (base <= a < base + n)%nat → c !! a = Some (set_lru_next (if decide (S a = base + n)%nat then None else Some (a + 1)%nat) zero_entry)) →
  fchain c p (seq base n).
Proof.
  revert base p. induction n as [|n IH]; intros base p Hp Hc; cbn [seq fchain]; [by rewrite Hp|].
  split; [by rewrite Hp|]. eexists. split; [apply Hc; lia|]. split; [done|]. cbn [lru_next set_lru_next].
  apply IH.
  - repeat case_decide; try lia; [done|]. f_equal. lia.
  - intros a Ha. rewrite Hc by lia. repeat case_decide; try lia; done.
Qed.

Lemma fill_heap_ok s fl : heap_ok s fl → ∃ s1 fl1, fill_heap calloc_ok s = Ret (true, s1) ∧ heap_ok s1 fl1 ∧ fl1 ≠ [] ∧
  tcache s1 = tcache s ∧ (∀ a, is_Some (cells s !! a) → cells s1 !! a = cells s !! a) ∧
  (∀ a, a ∈ fl1 → a ∈ fl ∨ cells s !! a = None).
Proof.
  intros [Hfr Hnd Hbrk]. unfold fill_heap. rewrite (bind_ret (gets heap_o_entries) _ s (heap_o_entries s) s) by done.
  destruct fl as [|a fl]; pose proof Hfr as Hfr0; cbn [fchain] in Hfr0.
  2: { destruct Hfr0 as [Hh _]. rewrite Hh. exists s, (a :: fl). split; [done|]. split; [done|]. naive_solver. }
  rewrite Hfr0. unfold calloc_entries.
  assert (Hn : ∃ n, C_ENTRY_HEAP_ALLOCSIZE = n ∧ (1 <= n)%nat) by (exists C_ENTRY_HEAP_ALLOCSIZE; unfold C_ENTRY_HEAP_ALLOCSIZE; lia).
  destruct Hn as (n&->&Hn).
  set (h0 := foldr (λ a, insert a zero_entry) (cells s) (seq (brk s) n)).
  erewrite bind_ret by (rewrite Hcalloc; reflexivity). fold h0.
  rewrite (bind_ret (modify _) _ _ () (Sim h0 (Some (brk s)) (brk s + n) (tcache s))) by done.
  destruct (chain_block_ok (brk s) (n - 1) 0 (Sim h0 (Some (brk s)) (brk s + n) (tcache s))) as (c'&Hr&Hc').
  { intros a Ha. cbn [cells]. unfold h0. rewrite foldr_zero. case_decide; [eauto|lia]. }
  rewrite (bind_ret _ _ _ _ _ Hr). cbn [cells] in Hc'.
  assert (Hh0 : ∀ a, h0 !! a = if decide (brk s <= a < brk s + n)%nat then Some zero_entry else cells s !! a) by (intros; apply foldr_zero).
  assert (Hlast : c' !! (brk s + (n - 1))%nat = Some zero_entry).
  { rewrite Hc', Hh0. repeat case_decide; try lia; done. }
  erewrite bind_ret by (apply update_ok; by exists zero_entry).
  unfold set_cells. cbn [cells heap_o_entries brk tcache]. rewrite (upd_insert _ _ _ _ Hlast). set (c2 := <[_ := _]> c').
  assert (Hnew : ∀ a, (brk s <= a < brk s + n)%nat →
    c2 !! a = Some (set_lru_next (if decide (S a = brk s + n)%nat then None else Some (a + 1)%nat) zero_entry)).
  { intros a Ha. unfold c2. rewrite lookup_insert, Hc', Hh0. repeat case_decide; try lia; done. }
  assert (Hold : ∀ a, ¬ (brk s <= a < brk s + n)%nat → c2 !! a = cells s !! a).
  { intros a Ha. unfold c2. rewrite lookup_insert, Hc', Hh0. repeat case_decide; try lia; done. }
  eexists _, (seq (brk s) n). split; [done|]. cbn [cells heap_o_entries brk tcache].
  split_and!; try done.
  - split; cbn [cells heap_o_entries brk].
    + apply free_seq; [case_decide; [lia|done]|done].
    + apply NoDup_ListNoDup, seq_NoDup.
    + intros a Ha. destruct (decide (brk s <= a < brk s + n)%nat); [lia|]. rewrite Hold in Ha by done. apply Hbrk in Ha. lia.
  - by destruct n; [lia|].
  - intros a Ha. apply Hbrk in Ha. apply Hold. lia.
  - intros a Ha%elem_of_seq. right. apply eq_None_not_Some. intros Hs%Hbrk. lia.
Qed.

(** Other entries and another free list next to the ones of a cache. *)
Lemma rep_heap s s1 n max l fl fl1 ks : rep s n max l fl ks → heap_ok s1 fl1 → tcache s1 = tcache s →
  (∀ a, a ∈ l → cells s1 !! a = cells s !! a) → (∀ a, a ∈ fl1 → a ∉ l) → rep s1 n max l fl1 ks.
Proof.
  intros [Hlru Hhd Htl Hfree Hnd Hbrk Hit Hkeys Hslots Hch Hcnt Hsz Hmax Hszs] [Hf1 Hnd1 Hb1] Htc Hl Hd.
  split; rewrite ?Htc; try done.
  - by eapply seg_frame.
  - apply NoDup_app. split_and!; [done..|]. by apply NoDup_app in Hnd as (_&_&?).
  - eapply Forall2_same_length_lookup_2; [by eapply Forall2_length|]. intros j y k Hy Hk.
    eapply item_ok_same; [|by eapply Forall2_lookup_lr]. unfold same_item. rewrite Hl; [done|]. by eapply list_elem_of_lookup_2.
  - intros i Hi. destruct (Hch i Hi) as [ch Hok]. exists ch. by eapply chain_ok_frame.
Qed.

Lemma rep_heap_ok s n max l fl ks : rep s n max l fl ks → heap_ok s fl.
Proof. intros Hr. pose proof (r_nodup _ _ _ _ _ _ Hr) as (?&_&_)%NoDup_app. by destruct Hr. Qed.

(** A fresh entry next to those of the cache. *)
Lemma get_cache_entry_ok s n max l fl ks : rep s n max l fl ks →
  ∃ x s1 fl1, get_cache_entry calloc_ok s = Ret (Some x, s1) ∧ rep s1 n max l fl1 ks ∧ tcache s1 = tcache s ∧
    cells s1 !! x = Some zero_entry ∧ (x ∉ l) ∧ (x ∉ fl1) ∧ (∀ a, a ∈ l → cells s1 !! a = cells s !! a).
Proof.
  intros Hr. destruct (fill_heap_ok s fl (rep_heap_ok _ _ _ _ _ _ Hr)) as (s1&fl1&Hf&[Hf1 Hnd1 Hb1]&Hne&Htc&Hsame&Hnew).
  assert (Hd1 : ∀ a, a ∈ fl1 → a ∉ l).
  { intros a Ha Hl. destruct (Hnew a Ha) as [Hfl|Hn].
    - pose proof (r_nodup _ _ _ _ _ _ Hr) as (_&Hd&_)%NoDup_app. by apply (Hd a).
    - destruct (rep_dom _ _ _ _ _ _ a Hr Hl) as [c Hc]. congruence. }
  destruct fl1 as [|x fl1]; [done|]. cbn [fchain] in Hf1. destruct Hf1 as (Hh&c&Hc&Hz&Hf1).
  apply NoDup_cons in Hnd1 as [Hx Hnd1].
  unfold get_cache_entry. rewrite (bind_ret _ _ _ _ _ Hf). rewrite (bind_ret (gets heap_o_entries) _ s1 (Some x) s1) by (unfold gets; by rewrite Hh).
  rewrite (bind_ret _ _ _ _ _ (load_ok s1 x c Hc)). rewrite (bind_ret (modify _) _ _ () (set_free (lru_next c) s1)) by done.
  erewrite bind_ret by (apply update_ok; by exists c).
  erewrite bind_ret by (apply update_ok; cbn [set_cells set_free cells]; rewrite upd_is_Some; by exists c).
  set (s2 := set_cells _ (set_cells _ _)).
  assert (Hn2 : ∀ y, y ≠ x → cells s2 !! y = cells s1 !! y).
  { intros y Hy. unfold s2. cbn [set_cells set_free cells]. rewrite !upd_ne by congruence. done. }
  assert (Hx2 : cells s2 !! x = Some zero_entry).
  { unfold s2. cbn [set_cells set_free cells]. etrans; [by apply upd_eq, upd_eq|]. by rewrite <-Hz. }
  assert (Hl2 : ∀ a, a ∈ l → cells s2 !! a = cells s !! a).
  { intros a Ha. rewrite Hn2 by (intros ->; by apply (Hd1 x); [set_solver|]). apply Hsame. by eapply rep_dom. }
  exists x, s2, fl1. split; [done|]. split; [|split; [done|split; [done|split; [apply Hd1; set_solver|done]]]].
  eapply rep_heap; [exact Hr| |done|exact Hl2|set_solver].
  - split; [| |].
    + eapply free_frame, Hf1. intros a Ha. apply Hn2. by intros ->.
    + done.
    + intros a Ha. apply Hb1. destruct (decide (a = x)) as [->|]; [by exists c|]. by rewrite <-Hn2.
Qed.
End alloc.

(** ** A new entry *)

Lemma rep_insert s n max l fl ks x c h hv sz ch : let i := slot_of n hv in
  rep s n max l fl ks → x ∉ l → x ∉ fl → (x < brk s)%nat → hv ∉ ks.*1 → 0 <= sz < 2 ^ 32 → total ks + sz <= max →
  chain_ok (cells s) (entries (tcache s)) l i ch → (i < n)%nat →
  h !! x = Some c → hashval c = hv → esize c = sz → byte_offset c = Z.of_nat i → chain_next c = None → chain_prev c = last ch →
  (∀ y, y ≠ x → h !! y = upd (last ch) (set_chain_next (Some x)) (cells s) !! y) →
  rep (Sim (llinked x l h) (heap_o_entries s) (brk s)
    (Cache (<[i := head (ch ++ [x])]> (entries (tcache s))) (num_entries (tcache s)) (u64 (Z.of_nat (length (x :: l))))
       max (total ((hv, sz) :: ks)) (Some x) (last (x :: l)))) n max (x :: l) fl ((hv, sz) :: ks).
Proof.
  intros i [Hlru Hhd Htl Hfree Hnd Hbrk Hit Hkeys (Hes&Hn0&Hnum) Hch Hcnt Hsz [Hmax Hroom] Hszs] Hxl Hxf Hxb Hhv Hs Hfit
    (He&Hseg&Hndc&Hin) Hi Hc Hch1 Hcs Hco Hcn Hcp Hh.
  pose proof Hnd as (Hndf&Hdis&Hndl)%NoDup_app.
  assert (Hxc : x ∉ ch) by (intros [Hx _]%Hin; done).
  assert (Hdom : ∀ y, y ∈ l → is_Some (cells s !! y)) by (intros y Hy; eapply seg_lookup; [exact Hlru|done]).
  assert (Hg : ∀ y d, y ≠ x → cells s !! y = Some d → ∃ d', h !! y = Some d' ∧ lru_next d' = lru_next d ∧ lru_prev d' = lru_prev d ∧
    item_of d' = item_of d ∧ chain_prev d' = chain_prev d ∧ (last ch ≠ Some y → chain_next d' = chain_next d)).
  { intros y d Hy Hd. rewrite Hh by done. destruct (decide (last ch = Some y)) as [E|E].
    - rewrite E. erewrite upd_eq by done. eexists. split; [done|]. split_and!; by intros.
    - rewrite upd_ne by done. by exists d. }
  set (h' := llinked x l h).
  assert (Hf : no_lru <$> h' = no_lru <$> h) by (by apply linked_fields).
  assert (Hsame : ∀ y, y ≠ x → is_Some (cells s !! y) → same_item (cells s) h' y).
  { intros y Hy [d Hd]. destruct (Hg y d Hy Hd) as (d'&Hd'&_&_&Hid&_). unfold same_item. etrans; [by apply (same_item_fields no_lru h h')|].
    rewrite Hd', Hd. cbn. by rewrite Hid. }
  destruct (fields_lookup _ _ _ _ _ Hf Hc) as (cx&Hcx&Hgx).
  assert (Hcx' : hashval cx = hv ∧ esize cx = sz ∧ byte_offset cx = Z.of_nat i ∧ chain_next cx = None ∧ chain_prev cx = last ch).
  { destruct cx, c. cbn in *. by simplify_eq. }
  assert (Hslot : ∀ j y, y ∈ l → in_slot h' j y ↔ in_slot (cells s) j y).
  { intros j y Hy. apply in_slot_same. apply Hsame; [by intros ->|by apply Hdom]. }
  assert (Hcseg : ∀ pp m e, x ∉ m → (∀ y, last ch = Some y → y ∉ m) → (∀ y, y ∈ m → y ∈ l) → cseg (cells s) pp m e → cseg h' pp m e).
  { intros pp m e Hxm Hlm Hml. apply seg_agree. intros y d Hy Hd. assert (Hyx : y ≠ x) by (by intros ->).
    destruct (Hg y d Hyx Hd) as (d'&Hd'&_&_&_&Hp&Hn). destruct (fields_lookup _ _ _ _ _ Hf Hd') as (d2&Hd2&Hg2).
    exists d2. split; [done|]. assert (Hn' : chain_next d' = chain_next d) by (apply Hn; intros E; by apply (Hlm y)).
    destruct d2, d', d. cbn in *. by simplify_eq. }
  split; cbn [cells heap_o_entries brk tcache entries num_entries cur_num_entries cache_size cur_cache_size lru_head lru_tail]; try done.
  - eapply (link_seg lru_next lru_prev); try done; [by apply NoDup_cons|].
    eapply seg_agree, Hlru. intros y d Hy Hd. destruct (Hg y d) as (d'&?&?&?&_); [by intros ->|done|]. by exists d'.
  - eapply free_frame, Hfree. intros a Ha. pose proof (Hdis a Ha) as Hal. assert (Hax : a ≠ x) by (by intros ->).
    unfold h'. rewrite linked_ne by done. rewrite Hh by done. rewrite upd_ne; [done|].
    intros Hl%last_in. apply Hin in Hl as [Hl _]. done.
  - apply NoDup_app. split_and!; [done| |by apply NoDup_cons]. intros a Ha [->|Hal]%elem_of_cons; [done|]. by apply (Hdis a).
  - intros a Ha. unfold h' in Ha. rewrite linked_is_Some in Ha. destruct (decide (a = x)) as [->|Hax]; [done|].
    rewrite Hh, upd_is_Some in Ha by done. by apply Hbrk.
  - apply Forall2_cons. split.
    + exists cx. naive_solver.
    + eapply Forall2_same_length_lookup_2; [by eapply Forall2_length|]. intros j y k Hy Hk.
      assert (Hyl : y ∈ l) by (by eapply list_elem_of_lookup_2).
      eapply item_ok_same; [|by eapply Forall2_lookup_lr]. apply Hsame; [by intros ->|by apply Hdom].
  - cbn. by apply NoDup_cons.
  - by rewrite length_insert.
  - intros j Hj. destruct (decide (j = i)) as [->|Hji].
    + exists (ch ++ [x]). split_and!.
      * apply list_lookup_insert_eq. lia.
      * apply seg_app. cbn [hd_or seg]. split.
        -- eapply (seg_agree _ _ h).
           { intros y d _ Hd. destruct (fields_lookup _ _ _ _ _ Hf Hd) as (d2&Hd2&Hg2). exists d2. split; [done|].
             destruct d2, d. cbn in *. by simplify_eq. }
           eapply (seg_frame _ _ (upd (last ch) (set_chain_next (Some x)) (cells s))).
           { intros y Hy. apply Hh. by intros ->. }
           destruct ch as [|y ch' _] using rev_ind; [done|]. rewrite last_snoc.
           by eapply (seg_end chain_next chain_prev set_chain_next set_chain_prev).
        -- exists cx. rewrite lst_or_None. destruct Hcx' as (_&_&_&?&?). by split_and!.
      * apply NoDup_app. split_and!; [done|set_solver|apply NoDup_singleton].
      * intros y. rewrite elem_of_app, list_elem_of_singleton, elem_of_cons.
        assert (Hxs : in_slot h' i x) by (unfold in_slot; rewrite Hcx; cbn; f_equal; apply Hcx').
        rewrite Hin. split; [|naive_solver].
        intros [[Hy Hyi]| ->]; [split; [by right|by apply Hslot]|split; [by left|done]].
    + destruct (Hch j Hj) as (cj&Hej&Hsj&Hndj&Hinj).
      assert (Hxj : x ∉ cj) by (intros [? _]%Hinj; done).
      assert (Hlj : ∀ y, last ch = Some y → y ∉ cj).
      { intros y Hy%last_in Hyj. apply Hin in Hy as [_ Hy]. apply Hinj in Hyj as [_ Hyj]. unfold in_slot in *.
        rewrite Hy in Hyj. injection Hyj as Hyj. lia. }
      exists cj. split_and!; [by rewrite list_lookup_insert_ne| |done|].
      * apply Hcseg; try done. intros y Hy. by apply Hinj in Hy as [? _].
      * intros y. rewrite Hinj, elem_of_cons. split; [intros [Hy Hyj]; split; [by right|by apply Hslot]|].
        intros [[->|Hy] Hyj]; [|split; [done|by apply Hslot in Hyj]]. exfalso. unfold in_slot in Hyj. rewrite Hcx in Hyj.
        cbn in Hyj. injection Hyj as Hyj. destruct Hcx' as (_&_&Ho&_). rewrite Ho in Hyj. lia.
  - split; [done|]. change (total ((hv, sz) :: ks)) with (sz + total ks). lia.
  - by apply Forall_cons.
Qed.

(** ** The operations *)

Lemma filter_none_keys hv ks : hv ∉ ks.*1 → filter (λ k : item, k.1 = hv) ks = [] ∧ others hv ks = ks.
Proof.
  induction ks as [|k ks IH]; [done|]. rewrite fmap_cons, elem_of_cons. intros Hn. apply Decidable.not_or in Hn as [Hk Hn].
  destruct (IH Hn) as [IH1 IH2]. unfold others in *. rewrite !filter_cons, decide_False by congruence.
  rewrite decide_True by congruence. by rewrite IH1, IH2.
Qed.

Lemma size_of_none hv ks : hv ∉ ks.*1 → size_of hv ks = None.
Proof. intros Hn. unfold size_of. by destruct (filter_none_keys hv ks Hn) as [-> _]. Qed.

(** The documents around one of them. *)
Lemma keys_middle hv sz ks1 ks2 : NoDup (ks1 ++ (hv, sz) :: ks2).*1 →
  size_of hv (ks1 ++ (hv, sz) :: ks2) = Some sz ∧ others hv (ks1 ++ (hv, sz) :: ks2) = ks1 ++ ks2.
Proof.
  intros Hn. rewrite (perm_middle ks1 ks2 (hv, sz)) in Hn. rewrite fmap_cons in Hn. apply NoDup_cons in Hn as [Hn _]. cbn [fst] in Hn. rewrite fmap_app, elem_of_app in Hn.
  apply Decidable.not_or in Hn as [H1 H2].
  destruct (filter_none_keys hv ks1 H1) as [F1 O1]. destruct (filter_none_keys hv ks2 H2) as [F2 O2].
  unfold size_of, others in *. rewrite !filter_app, !filter_cons, F1, O1. cbn [fst].
  rewrite decide_True, decide_False by (done || auto). by rewrite F2, O2.
Qed.

Lemma slot_index_ok s n max l fl ks hv : rep s n max l fl ks →
  slot_index (of_le (take 4 hv)) s = Ret (Z.of_nat (slot_of n hv), s).
Proof.
  intros Hr. destruct (r_slots _ _ _ _ _ _ Hr) as (_&Hn&Hnum). unfold slot_index.
  rewrite (bind_ret _ _ _ _ _ (cget_ok num_entries s)), Hnum, (proj2 (Z.eqb_neq _ 0)) by lia.
  unfold slot_of. rewrite Z2Nat.id; [done|]. apply Z.mod_pos_bound. lia.
Qed.

Lemma get_slot_ok s i p : entries (tcache s) !! i = Some p → get_slot (Z.of_nat i) s = Ret (p, s).
Proof. intros Hp. unfold get_slot. rewrite (bind_ret _ _ _ _ _ (cget_ok entries s)), Nat2Z.id, Hp. done. Qed.

Lemma get_bytes_key `{Digest} url : get_bytes (digest_of url) = of_le (take 4 (key url)).
Proof. unfold get_bytes, key. by rewrite take_take. Qed.

Lemma fill_entry_ok s x hv sz i : is_Some (cells s !! x) →
  fill_entry (Some x) hv sz i s = Ret ((), Sim (upd (Some x) (set_item hv (u32 sz) i) (cells s)) (heap_o_entries s) (brk s)
    (set_counts (cur_num_entries (tcache s)) (u64 (cur_cache_size (tcache s) + sz)) (tcache s))).
Proof.
  intros Hx. unfold fill_entry. rewrite (bind_ret _ _ _ _ _ (cget_ok cur_cache_size s)), (bind_ret _ _ _ _ _ (cget_ok cur_num_entries s)).
  rewrite (bind_ret _ _ _ _ _ (cset_ok _ _)). by rewrite update_ok.
Qed.

(** A document gets another size. *)
Lemma rep_resize s n max l1 x l2 fl ks1 hv old ks2 sz : let ks := ks1 ++ (hv, sz) :: ks2 in
  rep s n max (l1 ++ x :: l2) fl (ks1 ++ (hv, old) :: ks2) → length l1 = length ks1 → 0 <= sz < 2 ^ 32 → total ks <= max →
  rep (Sim (upd (Some x) (set_item hv sz (Z.of_nat (slot_of n hv))) (cells s)) (heap_o_entries s) (brk s)
    (set_counts (cur_num_entries (tcache s)) (total ks) (tcache s))) n max (l1 ++ x :: l2) fl ks.
Proof.
  intros ks [Hlru Hhd Htl Hfree Hnd Hbrk Hit Hkeys Hslots Hch Hcnt Hsz [Hmax Hroom] Hszs] Hlen Hs Hfit.
  pose proof Hnd as (_&Hdis&Hndl)%NoDup_app.
  apply Forall2_app_inv in Hit as [Hi1 Hi2]; [|done]. apply Forall2_cons in Hi2 as [(c&Hc&Hh&_&Ho) Hi2].
  set (h := upd _ _ _).
  assert (Hx : h !! x = Some (set_item hv sz (Z.of_nat (slot_of n hv)) c)) by (by apply upd_eq).
  assert (Hn : ∀ y, y ≠ x → h !! y = cells s !! y) by (intros y Hy; unfold h; by rewrite upd_ne by congruence).
  assert (Hag : ∀ y d, cells s !! y = Some d → ∃ d', h !! y = Some d' ∧ lru_next d' = lru_next d ∧ lru_prev d' = lru_prev d ∧
    chain_next d' = chain_next d ∧ chain_prev d' = chain_prev d ∧ byte_offset d' = byte_offset d).
  { intros y d Hd. destruct (decide (y = x)) as [->|Hy]; [|rewrite Hn by done; by exists d].
    rewrite Hc in Hd. injection Hd as <-. eexists. split; [exact Hx|]. by split_and!. }
  split; cbn [cells heap_o_entries brk tcache set_counts entries num_entries cur_num_entries cache_size cur_cache_size lru_head lru_tail]; try done.
  - eapply seg_agree, Hlru. intros y d _ Hd. destruct (Hag y d Hd) as (d'&?&?&?&_). by exists d'.
  - eapply free_frame, Hfree. intros a Ha. apply Hn. intros ->. apply (Hdis x Ha). set_solver.
  - intros a. unfold h. rewrite upd_is_Some. apply Hbrk.
  - assert (Hfr : ∀ m ks', x ∉ m → Forall2 (item_ok (cells s) n) m ks' → Forall2 (item_ok h n) m ks').
    { intros m ks' Hxm Hm. eapply Forall2_same_length_lookup_2; [by eapply Forall2_length|]. intros j y k Hy Hk.
      eapply item_ok_same; [|by eapply Forall2_lookup_lr]. unfold same_item. rewrite Hn; [done|].
      intros ->. by apply list_elem_of_lookup_2 in Hy. }
    rewrite perm_middle in Hndl. apply NoDup_cons in Hndl as [Hxl _].
    apply Forall2_app; [apply Hfr; [set_solver|done]|]. apply Forall2_cons. split; [by eexists|]. apply Hfr; [set_solver|done].
  - unfold ks. by rewrite fmap_app, fmap_cons in *.
  - intros i Hi. destruct (Hch i Hi) as (ch&He&Hsg&Hndc&Hin). exists ch. split_and!; try done.
    + eapply seg_agree, Hsg. intros y d _ Hd. destruct (Hag y d Hd) as (d'&?&_&_&?&?&_). by exists d'.
    + intros y. rewrite Hin. assert (Hsl : in_slot h i y ↔ in_slot (cells s) i y); [|by rewrite Hsl].
      unfold in_slot. destruct (decide (y = x)) as [->|Hy]; [|by rewrite Hn]. rewrite Hx, Hc. cbn. by rewrite Ho.
  - split; [done|]. lia.
  - unfold ks. apply Forall_app in Hszs as [? Hszs]. apply Forall_cons in Hszs as [_ ?]. apply Forall_app. split; [done|]. by apply Forall_cons.
Qed.

Lemma u64_succ z : u64 (u64 z + 1) = u64 (z + 1).
Proof. unfold wrap. apply Zplus_mod_idemp_l. Qed.

Section steps.
Context `{Digest} (calloc_ok : loc → bool) (Hcalloc : ∀ b, calloc_ok b = true).

Lemma test_ok s n max l fl ks url r ks' : rep s n max l fl ks → lru_step max (Test url) ks = Some (r, ks') →
  ∃ s' l', test_in_cache url s = Ret (r, s') ∧ rep s' n max l' fl ks'.
Proof.
  intros Hr Hstep. unfold test_in_cache. rewrite get_bytes_key, (bind_ret _ _ _ _ _ (slot_index_ok s n max l fl ks (key url) Hr)).
  destruct (find_key s n max l fl ks (key url) None Hr) as (Hi&ch&(He&_)&Hf).
  rewrite (bind_ret _ _ _ _ _ (get_slot_ok s _ _ He)). rewrite (bind_ret get _ s s s) by done.
  fold (key url). cbn [lru_step] in Hstep.
  destruct Hf as [(l1&x&l2&ks1&sz&ks2&pr&->&->&Hlen&_&Hf)|[Hno Hf]]; rewrite (bind_ret _ _ _ _ _ Hf).
  - destruct (keys_middle _ _ _ _ (r_keys _ _ _ _ _ _ Hr)) as [Hs Ho]. rewrite Hs, Ho in Hstep.
    destruct (decide _) as [|Hl]; [done|]. injection Hstep as <- <-.
    destruct (touch_ok s n max l1 x l2 fl ks1 (key url, sz) ks2 Hr Hlen) as (s'&Ht&Hr'&_).
    { intros [-> ->]%app_eq_nil. destruct ks1; [|done]. pose proof (rep_length _ _ _ _ _ _ Hr) as Hll. cbn in *. destruct ks2; done. }
    exists s', (x :: l1 ++ l2). split; [|done]. rewrite <-M_assoc. by rewrite (bind_ret _ _ _ _ _ Ht).
  - rewrite (size_of_none _ _ Hno) in Hstep. injection Hstep as <- <-. by exists s, l.
Qed.

(** The three cases of [add_to_cache]. *)
Lemma add_empty_ok s n max l fl ks hv sz rv : rep s n max l fl ks → hv ∉ ks.*1 → 0 <= sz < 2 ^ 32 → total ks + sz <= max →
  chain_ok (cells s) (entries (tcache s)) l (slot_of n hv) [] → (slot_of n hv < n)%nat →
  let i := Z.of_nat (slot_of n hv) in
  ∃ s' l' fl', (the_entry ← get_cache_entry calloc_ok;
        _ ← set_slot i the_entry;
        m ← cget cur_num_entries;
        c ← cget cur_cache_size;
        _ ← cset (set_counts (u64 (m + 1)) c);
        _ ← fill_entry the_entry hv sz i;
        _ ← push_lru the_entry;
        t ← cget lru_tail;
        _ ← (match t with None => cset (set_tail the_entry) | Some _ => mret () end);
        mret rv : M sim Z) s = Ret (rv, s') ∧ rep s' n max l' fl' ((hv, sz) :: ks).
Proof.
  intros Hr Hhv Hs Hfit Hok Hi i.
  destruct (get_cache_entry_ok calloc_ok Hcalloc s n max l fl ks Hr) as (x&s1&fl1&Hg&Hr1&Htc&Hx&Hxl&Hxf&Hl1).
  rewrite (bind_ret _ _ _ _ _ Hg). pose proof (r_slots _ _ _ _ _ _ Hr1) as (Hlen&_&_).
  erewrite bind_ret by (apply set_slot_ok; by rewrite Hlen).
  rewrite (bind_ret _ _ _ _ _ (cget_ok cur_num_entries _)), (bind_ret _ _ _ _ _ (cget_ok cur_cache_size _)).
  rewrite (bind_ret _ _ _ _ _ (cset_ok _ _)).
  erewrite bind_ret by (apply fill_entry_ok; cbn; by exists zero_entry).
  rewrite (wrap_small 32 sz) by lia.
  set (h1 := upd (Some x) (set_item hv sz i) (cells s1)).
  unfold set_cache. cbn [cells heap_o_entries brk tcache]. fold h1.
  assert (Hx1 : h1 !! x = Some (set_item hv sz i zero_entry)) by (by apply upd_eq).
  erewrite bind_ret.
  2: { apply (push_lru_ok _ x l); cbn [tcache cells set_counts set_entries lru_head]; [by apply (r_head _ _ _ _ _ _ Hr1)|done|by eexists|].
       intros y Hy. unfold h1. rewrite upd_is_Some. by eapply rep_dom. }
  cbn [cells heap_o_entries brk tcache]. rewrite (bind_ret _ _ _ _ _ (cget_ok lru_tail _)).
  set (T := set_head _ _).
  assert (Htail : (match lru_tail T with None => cset (set_tail (Some x)) | Some _ => mret () end)
    (Sim (llinked x l h1) (heap_o_entries s1) (brk s1) T) =
    Ret ((), Sim (llinked x l h1) (heap_o_entries s1) (brk s1) (set_tail (last (x :: l)) T))).
  { assert (Hlt : lru_tail T = last l) by apply (r_tail _ _ _ _ _ _ Hr1). rewrite Hlt.
    destruct l as [|z l]; [done|]. rewrite (last_cons_ne x (z :: l)) by done. destruct (last (z :: l)) as [w|] eqn:E; [|by apply last_None in E].
    rewrite <-Hlt. by destruct T. }
  cbn [tcache]. rewrite (bind_ret _ _ _ _ _ Htail). eexists _, (x :: l), fl1. split; [done|].
  pose proof (rep_insert s1 n max l fl1 ks x (set_item hv sz i zero_entry) h1 hv sz [] Hr1 Hxl Hxf) as Hins. cbn zeta in Hins.
  assert (HT : set_tail (last (x :: l)) T = Cache (<[slot_of n hv := head ([] ++ [x])]> (entries (tcache s1))) (num_entries (tcache s1))
    (u64 (Z.of_nat (length (x :: l)))) max (total ((hv, sz) :: ks)) (Some x) (last (x :: l))).
  { unfold T, set_tail, set_head, set_counts, set_entries. cbn.
    pose proof (r_max _ _ _ _ _ _ Hr1) as [-> Hm]. rewrite (r_count _ _ _ _ _ _ Hr1), (r_size _ _ _ _ _ _ Hr1), u64_succ.
    pose proof (total_nonneg ks (r_sizes _ _ _ _ _ _ Hr1)). rewrite (wrap_small 64 (total ks + sz)) by lia.
    f_equal; [f_equal; lia|unfold total; cbn; lia]. }
  rewrite HT. apply Hins; try done.
  - apply (r_brk _ _ _ _ _ _ Hr1). by exists zero_entry.
  - rewrite Htc. by eapply chain_ok_frame.
  - intros y Hy. cbn [last upd]. unfold h1. by rewrite upd_ne by congruence.
Qed.

Lemma add_end_ok s n max l fl ks hv sz rv ch y : rep s n max l fl ks → hv ∉ ks.*1 → 0 <= sz < 2 ^ 32 → total ks + sz <= max →
  chain_ok (cells s) (entries (tcache s)) l (slot_of n hv) ch → last ch = Some y → (slot_of n hv < n)%nat →
  let i := Z.of_nat (slot_of n hv) in
  ∃ s' l' fl', (the_entry ← get_cache_entry calloc_ok;
        _ ← update (Some y) (set_chain_next the_entry);
        _ ← fill_entry the_entry hv sz i;
        _ ← update the_entry (set_chain_prev (Some y));
        m ← cget cur_num_entries;
        c ← cget cur_cache_size;
        _ ← cset (set_counts (u64 (m + 1)) c);
        _ ← unlink_lru the_entry;
        _ ← push_lru the_entry;
        mret rv : M sim Z) s = Ret (rv, s') ∧ rep s' n max l' fl' ((hv, sz) :: ks).
Proof.
  intros Hr Hhv Hs Hfit Hok Hy Hi i.
  destruct (get_cache_entry_ok calloc_ok Hcalloc s n max l fl ks Hr) as (x&s1&fl1&Hg&Hr1&Htc&Hx&Hxl&Hxf&Hl1).
  rewrite (bind_ret _ _ _ _ _ Hg).
  assert (Hyl : y ∈ l) by (destruct Hok as (_&_&_&Hin); by apply last_in, Hin in Hy as [? _]).
  assert (Hyx : y ≠ x) by (by intros ->).
  pose proof (rep_dom _ _ _ _ _ _ y Hr1 Hyl) as [d Hd].
  erewrite bind_ret by (apply update_ok; by exists d).
  erewrite bind_ret by (apply fill_entry_ok; cbn [set_cells cells]; rewrite upd_is_Some; by exists zero_entry).
  rewrite (wrap_small 32 sz) by lia. cbn [set_cells cells heap_o_entries brk tcache].
  erewrite bind_ret by (apply update_ok; cbn [cells]; rewrite !upd_is_Some; by exists zero_entry).
  unfold set_cells at 1. cbn [cells heap_o_entries brk tcache].
  rewrite (bind_ret _ _ _ _ _ (cget_ok cur_num_entries _)), (bind_ret _ _ _ _ _ (cget_ok cur_cache_size _)).
  rewrite (bind_ret _ _ _ _ _ (cset_ok _ _)). unfold set_cache. cbn [cells heap_o_entries brk tcache].
  set (h1 := upd (Some x) (set_chain_prev (Some y)) _). set (T := set_counts _ _ (set_counts _ _ _)).
  set (cx := set_chain_prev (Some y) (set_item hv sz i zero_entry)).
  assert (Hx1 : h1 !! x = Some cx).
  { unfold h1. apply upd_eq, upd_eq. rewrite upd_ne by congruence. exact Hx. }
  assert (Hn1 : ∀ z, z ≠ x → h1 !! z = upd (last ch) (set_chain_next (Some x)) (cells s1) !! z).
  { intros z Hz. unfold h1. rewrite !(upd_ne (Some x)) by congruence. by rewrite Hy. }
  (* a fresh entry is in no list *)
  erewrite bind_ret by (apply (unlink_lru_ok _ [] x []); [apply NoDup_singleton|cbn; by exists cx]).
  cbn [cells heap_o_entries brk tcache app head last].
  assert (Hends : (if bool_decide (lru_head T = Some x) then set_head None else id)
    ((if bool_decide (lru_tail T = Some x) then set_tail None else id) T) = T).
  { assert (H1 : lru_head T = head l) by apply (r_head _ _ _ _ _ _ Hr1).
    assert (H2 : lru_tail T = last l) by apply (r_tail _ _ _ _ _ _ Hr1).
    rewrite H1, H2, !bool_decide_eq_false_2; [done|intros E%last_in; done|intros E%head_in; done]. }
  rewrite Hends. change (lunlinked [] [] h1) with h1.
  erewrite bind_ret.
  2: { apply (push_lru_ok _ x l); cbn [tcache cells]; [apply (r_head _ _ _ _ _ _ Hr1)|done|by eexists|].
       intros z Hz. assert (z ≠ x) by (by intros ->). rewrite Hn1, upd_is_Some by done. by eapply rep_dom. }
  cbn [cells heap_o_entries brk tcache]. eexists _, (x :: l), fl1. split; [done|].
  pose proof (rep_insert s1 n max l fl1 ks x cx h1 hv sz ch Hr1 Hxl Hxf) as Hins. cbn zeta in Hins.
  assert (HT : set_head (Some x) T = Cache (<[slot_of n hv := head (ch ++ [x])]> (entries (tcache s1))) (num_entries (tcache s1))
    (u64 (Z.of_nat (length (x :: l)))) max (total ((hv, sz) :: ks)) (Some x) (last (x :: l))).
  { unfold T, set_head, set_counts. cbn.
    pose proof (r_max _ _ _ _ _ _ Hr1) as [-> Hm]. rewrite (r_count _ _ _ _ _ _ Hr1), (r_size _ _ _ _ _ _ Hr1), u64_succ.
    pose proof (total_nonneg ks (r_sizes _ _ _ _ _ _ Hr1)). rewrite (wrap_small 64 (total ks + sz)) by lia.
    rewrite (r_tail _ _ _ _ _ _ Hr1). destruct l as [|z l]; [set_solver|].
    assert (Hhd : head (ch ++ [x]) = head ch) by (by destruct ch). rewrite Hhd.
    rewrite list_insert_id by (rewrite Htc; apply Hok). f_equal; [f_equal; lia|unfold total; cbn; lia]. }
  rewrite HT. apply Hins; try done.
  - apply (r_brk _ _ _ _ _ _ Hr1). by exists zero_entry.
  - rewrite Htc. by eapply chain_ok_frame.
Qed.

Lemma refresh_ok s n max l1 x l2 fl ks1 hv old ks2 sz rv : rep s n max (l1 ++ x :: l2) fl (ks1 ++ (hv, old) :: ks2) →
  length l1 = length ks1 → l1 ++ l2 ≠ [] → 0 <= sz < 2 ^ 32 → total (ks1 ++ (hv, old) :: ks2) + sz <= max →
  let i := Z.of_nat (slot_of n hv) in
  ∃ s' l', (e ← load (Some x);
        m ← cget cur_num_entries;
        c ← cget cur_cache_size;
        _ ← cset (set_counts m (u64 (c - esize e)));
        _ ← fill_entry (Some x) hv sz i;
        _ ← unlink_lru (Some x);
        _ ← push_lru (Some x);
        mret rv : M sim Z) s = Ret (rv, s') ∧ rep s' n max l' fl ((hv, sz) :: ks1 ++ ks2).
Proof.
  intros Hr Hlen Hne Hs Hfit i.
  assert (Hit := r_items _ _ _ _ _ _ Hr). apply Forall2_app_inv in Hit as [_ Hit]; [|done].
  apply Forall2_cons in Hit as [(c&Hc&_&Hcs&_) _]. cbn [snd] in Hcs.
  rewrite (bind_ret _ _ _ _ _ (load_ok s x c Hc)), Hcs.
  rewrite (bind_ret _ _ _ _ _ (cget_ok cur_num_entries _)), (bind_ret _ _ _ _ _ (cget_ok cur_cache_size _)).
  rewrite (bind_ret _ _ _ _ _ (cset_ok _ _)).
  erewrite bind_ret by (apply fill_entry_ok; by exists c).
  rewrite (wrap_small 32 sz) by lia. unfold set_cache. cbn [cells heap_o_entries brk tcache].
  pose proof (r_sizes _ _ _ _ _ _ Hr) as Hszs. pose proof (total_nonneg _ Hszs) as H0.
  pose proof (r_max _ _ _ _ _ _ Hr) as [_ Hm].
  assert (Ht : total (ks1 ++ (hv, old) :: ks2) = total ks1 + old + total ks2 ∧ total (ks1 ++ (hv, sz) :: ks2) = total ks1 + sz + total ks2).
  { rewrite !total_app_items. unfold total. cbn [foldr snd]. lia. }
  apply Forall_app in Hszs as [Hz1 [Hz2 Hz3]%Forall_cons]. cbn [snd] in Hz2.
  pose proof (total_nonneg _ Hz1). pose proof (total_nonneg _ Hz3).
  pose proof (rep_resize s n max l1 x l2 fl ks1 hv old ks2 sz Hr Hlen Hs ltac:(lia)) as Hr1.
  assert (HT : set_counts (cur_num_entries (set_counts (cur_num_entries (tcache s)) (u64 (cur_cache_size (tcache s) - old)) (tcache s)))
      (u64 (cur_cache_size (set_counts (cur_num_entries (tcache s)) (u64 (cur_cache_size (tcache s) - old)) (tcache s)) + sz))
      (set_counts (cur_num_entries (tcache s)) (u64 (cur_cache_size (tcache s) - old)) (tcache s)) =
    set_counts (cur_num_entries (tcache s)) (total (ks1 ++ (hv, sz) :: ks2)) (tcache s)).
  { unfold set_counts. cbn. rewrite (r_size _ _ _ _ _ _ Hr). rewrite (wrap_small 64 (_ - old)) by lia.
    rewrite wrap_small by lia. f_equal. lia. }
  rewrite HT. fold i in Hr1. set (s1 := Sim _ _ _ _) in *.
  destruct (touch_ok s1 n max l1 x l2 fl ks1 (hv, sz) ks2 Hr1 Hlen Hne) as (s'&Hrun&Hr'&_).
  exists s', (x :: l1 ++ l2). split; [|done]. rewrite <-M_assoc. by rewrite (bind_ret _ _ _ _ _ Hrun).
Qed.

Lemma add_ok s n max l fl ks url sz r ks' : rep s n max l fl ks → 0 <= sz < 2 ^ 32 →
  lru_step max (Add url sz) ks = Some (r, ks') →
  ∃ s' l' fl', add_to_cache calloc_ok url sz s = Ret (0, s') ∧ rep s' n max l' fl' ks'.
Proof.
  intros Hr Hs Hstep. unfold add_to_cache. rewrite (bind_ret get _ s s s) by done.
  cbn [lru_step] in Hstep. destruct (Z.ltb_spec max sz) as [Hbig|Hfit].
  { injection Hstep as <- <-. exists s, l, fl. split; [|done].
    assert (He : evict_loop (S (size (cells s))) sz 0 s = Ret (None, s)); [|by rewrite (bind_ret _ _ _ _ _ He)]. cbn [evict_loop].
    rewrite (bind_ret _ _ _ _ _ (cget_ok cur_cache_size s)), (bind_ret _ _ _ _ _ (cget_ok cache_size s)).
    pose proof (total_nonneg ks (r_sizes _ _ _ _ _ _ Hr)). pose proof (r_max _ _ _ _ _ _ Hr) as [-> Hm].
    rewrite (r_size _ _ _ _ _ _ Hr), (wrap_small 64) by lia.
    by rewrite (proj2 (Z.ltb_lt max (total ks + sz))), (proj2 (Z.ltb_lt max sz)) by lia. }
  destruct (evict_loop_ok (S (size (cells s))) s n max l fl ks sz Hr Hs Hfit) as (s1&l1&fl1&He&Hr1).
  { pose proof (r_nodup _ _ _ _ _ _ Hr) as (_&_&Hnd)%NoDup_app.
    assert (length l <= size (cells s))%nat; [|lia].
    rewrite <-(size_dom (D := gset loc)), <-(size_list_to_set (C := gset loc) l Hnd). apply subseteq_size.
    intros y. rewrite elem_of_list_to_set, elem_of_dom. intros Hy. by eapply rep_dom. }
  rewrite (bind_ret _ _ _ _ _ He). set (kept := keep (max - sz) ks) in *.
  assert (Hroom : total kept + sz <= max) by (unfold kept; pose proof (keep_total (max - sz) ks); lia).
  rewrite get_bytes_key, (bind_ret _ _ _ _ _ (slot_index_ok s1 n max l1 fl1 kept (key url) Hr1)).
  destruct (find_key s1 n max l1 fl1 kept (key url) None Hr1) as (Hi&ch&Hok&Hf).
  rewrite (bind_ret _ _ _ _ _ (get_slot_ok s1 _ _ (proj1 Hok))). fold (key url).
  destruct (decide (kept.*1 = [key url])) as [|Halone]; [done|]. injection Hstep as <- <-.
  destruct Hf as [(m1&x&m2&ks1&old&ks2&pr&->&Hkept&Hlen&Hch&Hf)|[Hno Hf]].
  - destruct ch as [|z ch]; [done|]. cbn [head] in *. rewrite (bind_ret get _ s1 s1 s1) by done. rewrite (bind_ret _ _ _ _ _ Hf).
    rewrite Hkept in *. destruct (keys_middle _ _ _ _ (r_keys _ _ _ _ _ _ Hr1)) as [_ ->].
    destruct (refresh_ok s1 n max m1 x m2 fl1 ks1 (key url) old ks2 sz (Z.land 0 2) Hr1 Hlen) as (s'&l'&Hrun&Hr'); try done.
    { intros [-> ->]%app_eq_nil. pose proof (rep_length _ _ _ _ _ _ Hr1) as Hll. destruct ks1, ks2; try done. }
    exists s', l', fl1. split; [exact Hrun|exact Hr'].
  - destruct (filter_none_keys _ _ Hno) as [_ ->]. destruct ch as [|z ch _] using rev_ind.
    + cbn [head]. apply (add_empty_ok s1 n max l1 fl1 kept (key url) sz 0); done.
    + destruct (head (ch ++ [z])) eqn:Ehd; [|by destruct ch]. rewrite (bind_ret get _ s1 s1 s1) by done. rewrite (bind_ret _ _ _ _ _ Hf).
      rewrite lst_or_snoc. eapply (add_end_ok s1 n max l1 fl1 kept (key url) sz 0 (ch ++ [z]) z); try done. apply last_snoc.
Qed.
End steps.

(** ** Sequences of accesses *)
Section sequences.
Context `{Digest} (calloc_ok : loc → bool) (Hcalloc : ∀ b, calloc_ok b = true).

Lemma init_ok max num : 0 < num → 0 <= max < 2 ^ 63 →
  ∃ s fl, initialize_cache calloc_ok true max num sim_start = Ret (1, s) ∧ rep s (Z.to_nat num) max [] fl [].
Proof.
  intros Hn Hm. unfold initialize_cache. rewrite (bind_ret _ _ _ _ _ (cset_ok _ _)), (bind_ret _ _ _ _ _ (cset_ok _ _)).
  set (s0 := set_cache _ _).
  destruct (fill_heap_ok calloc_ok Hcalloc s0 []) as (s1&fl&Hf&[Hfr Hnd Hbrk]&_&Htc&_&_).
  { split; [done|constructor|]. intros a [c Hc]. unfold s0 in Hc. cbn in Hc. by rewrite lookup_empty in Hc. }
  rewrite (bind_ret _ _ _ _ _ Hf). exists s1, fl. split; [done|]. split; rewrite ?Htc; cbn; try done.
  - by rewrite app_nil_r.
  - constructor.
  - rewrite length_replicate. lia.
  - intros i Hi. exists []. split_and!; [|done|constructor|set_solver].
    cbn. by rewrite lookup_replicate_2.
Qed.

(** The sizes that [unsigned long] can hold. *)
Definition op_fits (op : cop) : Prop := match op with Test _ => True | Add _ sz => 0 <= sz < 2 ^ 32 end.

#[export] Instance op_fits_dec op : Decision (op_fits op).
Proof. destruct op; cbn; apply _. Defined.

Lemma cop_step_ok s n max l fl ks op r ks' : rep s n max l fl ks → op_fits op → lru_step max op ks = Some (r, ks') →
  ∃ s' l' fl', cop_step calloc_ok op s = Ret (returned op r, s') ∧ rep s' n max l' fl' ks'.
Proof.
  intros Hr Hop Hs. destruct op as [url|url sz].
  - destruct (test_ok s n max l fl ks url r ks' Hr Hs) as (s'&l'&?&?). by exists s', l', fl.
  - by eapply add_ok.
Qed.

Lemma cop_exec_ok ops : ∀ s n max l fl ks rs ks', rep s n max l fl ks → Forall op_fits ops → lru_exec max ops ks = Some (rs, ks') →
  ∃ s' l' fl', cop_exec calloc_ok ops s = Ret (zip_with returned ops rs, s') ∧ rep s' n max l' fl' ks'.
Proof.
  induction ops as [|op ops IH]; intros s n max l fl ks rs ks' Hr Hops Hx; cbn [lru_exec cop_exec] in *.
  { injection Hx as <- <-. by exists s, l, fl. }
  apply Forall_cons in Hops as [Hop Hops].
  destruct (lru_step max op ks) as [[r ks1]|] eqn:E; [|done]. cbn in Hx.
  destruct (lru_exec max ops ks1) as [[rs' ks2]|] eqn:E2; [|done]. cbn in Hx. injection Hx as <- <-.
  destruct (cop_step_ok _ _ _ _ _ _ _ _ _ Hr Hop E) as (s1&l1&fl1&H1&Hr1). rewrite (bind_ret _ _ _ _ _ H1).
  destruct (IH _ _ _ _ _ _ _ _ Hr1 Hops E2) as (s2&l2&fl2&H2&Hr2). rewrite (bind_ret _ _ _ _ _ H2). by exists s2, l2, fl2.
Qed.
End sequences.

(** C9. The simulator is a cache with least recently used replacement: for
    every sequence of accesses in which no document is touched while it is
    alone in the cache, [test_in_cache] returns what a list in the order of use
    gives, in which a new document pushes out as few of the documents used
    least recently as make room for it; and the two linked structures, the
    free list and the counters stay consistent, so that the total size never
    exceeds the capacity.  [add_to_cache] always returns 0, where the header
    documents 1 for an eviction and 2 for a refreshed document. *)
Theorem cache_refines_lru `{Digest} (calloc_ok : loc → bool) max num ops rs ks :
  (∀ b, calloc_ok b = true) → 0 < num → 0 <= max < 2 ^ 63 → Forall op_fits ops →
  lru_exec max ops [] = Some (rs, ks) →
  ∃ s0 s l fl, initialize_cache calloc_ok true max num sim_start = Ret (1, s0) ∧
    cop_exec calloc_ok ops s0 = Ret (zip_with returned ops rs, s) ∧ rep s (Z.to_nat num) max l fl ks.
Proof.
  intros Hc Hn Hm Hops Hx. destruct (init_ok calloc_ok Hc max num Hn Hm) as (s0&fl0&Hi&Hr).
  destruct (cop_exec_ok calloc_ok Hc ops _ _ _ _ _ _ _ _ Hr Hops Hx) as (s&l&fl&He&Hr'). by exists s0, s, l, fl.
Qed.

Definition demo_ops : list cop :=
  [Add (bytes_of "http://a/") 40; Add (bytes_of "http://b/") 40; Test (bytes_of "http://a/");
   Add (bytes_of "http://c/") 30; Test (bytes_of "http://b/"); Test (bytes_of "http://a/")].

Lemma cache_refines_lru_witness : ∃ rs ks s0 s l fl, rs = [0; 0; 1; 0; 0; 1] ∧
  initialize_cache (λ _, true) true 100 8 sim_start = Ret (1, s0) ∧
  cop_exec (λ _, true) demo_ops s0 = Ret (rs, s) ∧ rep s 8 100 l fl ks.
Proof.
  eexists [0; 0; 1; 0; 0; 1], _.
  destruct (cache_refines_lru (λ _, true) 100 8 demo_ops [0; 0; 1; 1; 0; 1]
    [(key (bytes_of "http://a/"), 40); (key (bytes_of "http://c/"), 30)]) as (s0&s&l&fl&H1&H2&H3).
  - reflexivity.
  - reflexivity.
  - split; [discriminate|reflexivity].
  - apply (bool_decide_unpack _). vm_compute. exact I.
  - vm_compute. reflexivity.
  - exists s0, s, l, fl. split; [reflexivity|]. split; [exact H1|]. split; [exact H2|exact H3].
Defined.

(** A simulator whose free list has three entries left. *)
Definition sim_three : sim :=
  Sim {[ 0%nat := set_lru_next (Some 1%nat) zero_entry; 1%nat := set_lru_next (Some 2%nat) zero_entry; 2%nat := zero_entry ]}
    (Some 0%nat) 3 (Cache [] 0 0 0 0 None None).

(** Touching a document that is alone in the cache loses the tail of the
    list: with room for 100 bytes, after [a] is added and looked up and [b] is
    added, adding [c] evicts [b], which was used last, and keeps [a]. *)
Theorem lone_touch_evicts_recent :
  fst <$> (_ ← initialize_cache (λ _, true) true 100 8;
           cop_exec (λ _, true) [Add (bytes_of "a") 40; Test (bytes_of "a"); Add (bytes_of "b") 40; Add (bytes_of "c") 40;
             Test (bytes_of "b"); Test (bytes_of "a")]) sim_three = Ret [0; 1; 0; 0; 0; 1].
Proof. vm_compute. reflexivity. Qed.
