(* ===== verification/Trace.v ===== *)
(** * Trace records and the statistics of the cache simulator
      (playback/src/logparse.c, http_task.c, cachesim/httpstats.c, cachesim.c)

    Traces travel as records of 60 bytes in network order, each followed by
    its URL; the simulator reads them from a connection and counts requests,
    misses and the reasons for them.  A record in memory holds the values as
    they are stored, in network or in host order. *)

From S2P Require Import Prelude CString SockIO Icp Md5 CacheSim.

Open Scope Z_scope.

(** ** Records *)

Definition PB_CLNT_NO_CACHE : Z := 1.
Definition PB_CLNT_IF_MOD_SINCE : Z := 8.
Definition PB_SRVR_NO_CACHE : Z := 1.

(** [url] is the block the pointer leads to, without its terminator; [None]
    after it has been freed. *)
Record lf_entry := LfEntry {
  version : Z;
  crs : Z; cru : Z; srs : Z; sru : Z; sls : Z; slu : Z;
  cip : Z; cpt : Z; sip : Z; spt : Z;
  cprg : Z; sprg : Z;
  cims : Z; sexp : Z; slmd : Z; rhl : Z; rdl : Z;
  urllen : Z;
  url : option bytes;
}.

(** The sixty bytes of a record. *)
Definition lf_block (e : lf_entry) : bytes :=
  le32 (crs e) ++ le32 (cru e) ++ le32 (srs e) ++ le32 (sru e) ++ le32 (sls e) ++ le32 (slu e) ++
  le32 (cip e) ++ le16 (cpt e) ++ le32 (sip e) ++ le16 (spt e) ++ [cprg e; sprg e] ++
  le32 (cims e) ++ le32 (sexp e) ++ le32 (slmd e) ++ le32 (rhl e) ++ le32 (rdl e) ++ le16 (urllen e).
Definition field (b : bytes) (off n : nat) : Z := of_le (take n (drop off b)).
Definition lf_unblock (b : bytes) (vers : Z) (u : option bytes) : lf_entry :=
  LfEntry (u8 vers) (field b 0 4) (field b 4 4) (field b 8 4) (field b 12 4) (field b 16 4) (field b 20 4)
    (field b 24 4) (field b 28 2) (field b 30 4) (field b 34 2) (field b 36 1) (field b 37 1)
    (field b 38 4) (field b 42 4) (field b 46 4) (field b 50 4) (field b 54 4) (field b 58 2) u.

Definition set_url (u : option bytes) (e : lf_entry) : lf_entry :=
  LfEntry (version e) (crs e) (cru e) (srs e) (sru e) (sls e) (slu e) (cip e) (cpt e) (sip e) (spt e) (cprg e) (sprg e)
    (cims e) (sexp e) (slmd e) (rhl e) (rdl e) (urllen e) u.
Definition set_urllen (n : Z) (e : lf_entry) : lf_entry :=
  LfEntry (version e) (crs e) (cru e) (srs e) (sru e) (sls e) (slu e) (cip e) (cpt e) (sip e) (spt e) (cprg e) (sprg e)
    (cims e) (sexp e) (slmd e) (rhl e) (rdl e) n (url e).

Definition lf_convert_order (e : lf_entry) : lf_entry :=
  LfEntry (version e) (htonl (crs e)) (htonl (cru e)) (htonl (srs e)) (htonl (sru e)) (htonl (sls e)) (htonl (slu e))
    (htonl (cip e)) (htons (cpt e)) (htonl (sip e)) (htons (spt e)) (cprg e) (sprg e)
    (htonl (cims e)) (htonl (sexp e)) (htonl (slmd e)) (htonl (rhl e)) (htonl (rdl e)) (htons (urllen e)) (url e).

(** [lf_get_next_entry(logfile_fd, nextentry, vers)]: the result and the
    entry.  [junk] is what the block buffer and new memory hold. *)
Section files.
Context (malloc_ok : nat → bool) (junk : byte).

Definition lf_get_next_entry (vers : Z) (nextentry : lf_entry) : IO (Z * lf_entry) :=
  '(ret, blockbuf) ← correct_read (replicate 60 junk) 60;
  if negb (ret =? 60) then mret (if ret =? 0 then 1 else 2, nextentry)
  else
    let e := lf_unblock blockbuf vers (url nextentry) in
    let uln := htons (urllen e) in
    if malloc_ok (Z.to_nat uln + 1) then
      '(ret, u) ← correct_read (replicate (Z.to_nat uln) junk) uln;
      if negb (ret =? uln) then mret (if ret =? 0 then 1 else 2, set_url None e)
      else mret (0, set_url (Some u) e)
    else exit 1.

Definition lf_write_fd (writeme : lf_entry) : IO Z :=
  ret ← correct_write (lf_block writeme) 60;
  if ret <=? 0 then mret 1
  else match url writeme with
       | None => crash
       | Some u =>
           let uln := htons (urllen writeme) in
           ret ← correct_write u uln;
           if ret <=? 0 then mret 2 else mret 0
       end.

End files.

(** ** Requests *)

(** [lf_ntoa(addr, addrbuf)]. *)
Definition lf_ntoa (addr : Z) : bytes :=
  dec (Z.shiftr addr 24) ++ [46] ++ dec (Z.shiftr addr 16 mod 256) ++ [46] ++
  dec (Z.shiftr addr 8 mod 256) ++ [46] ++ dec (addr mod 256).

(** The part of an [http_task] that [insert_host_into_url] uses. *)
Record http_task := HttpTask { dst_host : Z; task_url : bytes; task_urllen : Z }.

(** [strchr(s, ' ')], as an offset. *)
Definition find_space (s : bytes) : option nat := fst <$> list_find (λ c, c = 32) s.

Definition insert_host_into_url (t : http_task) : outcome (Z * http_task) :=
  match find_space (task_url t) with
  | None => Ret (0, t)
  | Some i =>
      let firstlen := S i in
      let firstspace := drop firstlen (task_url t) in
      if bool_decide (take 7 firstspace = bytes_of "http://") then Ret (0, t)
      else
        let hoststuff := lf_ntoa (htonl (dst_host t)) in
        let size := task_urllen t + 1 + 7 + Z.of_nat (length hoststuff) in
        let new := take firstlen (task_url t) ++ bytes_of "http://" ++ hoststuff ++ firstspace in
        if Z.of_nat (length new) <? size then Ret (1, HttpTask (dst_host t) new (Z.of_nat (length new)))
        else Crash
  end.

Definition starts (p s : bytes) : bool := bool_decide (take (length p) s = p).
(** [sanitycheck(entry)], on the URL as a C string. *)
Definition sanitycheck (e : lf_entry) (u : bytes) : bool :=
  negb (bool_decide (u = bytes_of "-") || (length u <? 4)%nat || (sip e =? 4294967295) || (spt e =? 65535)
    || negb (starts (bytes_of "GET ") u || starts (bytes_of "POST ") u || starts (bytes_of "HEAD ") u || starts (bytes_of "PUT ") u)
    || (u32 (rhl e + rdl e) =? 0)).

(** ** Statistics *)

Record cache_perf := CachePerf {
  num_requests : Z; num_misses : Z;
  client_nocache_misses : Z; server_nocache_misses : Z; if_mod_since_misses : Z;
  cache_add_evict : Z; cache_add_refresh : Z;
  trace_start_time : Z; trace_latest_time : Z;
}.
Definition perf_zero : cache_perf := CachePerf 0 0 0 0 0 0 0 0 0.
Definition with_times a b p := CachePerf (num_requests p) (num_misses p) (client_nocache_misses p) (server_nocache_misses p)
  (if_mod_since_misses p) (cache_add_evict p) (cache_add_refresh p) a b.
(** [x++] on an [unsigned long]. *)
Definition inc (x : Z) : Z := u32 (x + 1).
Definition add_if (b : bool) (x : Z) : Z := if b then inc x else x.
Definition count_request p := CachePerf (inc (num_requests p)) (num_misses p) (client_nocache_misses p) (server_nocache_misses p)
  (if_mod_since_misses p) (cache_add_evict p) (cache_add_refresh p) (trace_start_time p) (trace_latest_time p).
Definition with_misses n p := CachePerf (num_requests p) n (client_nocache_misses p) (server_nocache_misses p)
  (if_mod_since_misses p) (cache_add_evict p) (cache_add_refresh p) (trace_start_time p) (trace_latest_time p).
Definition count_miss p := with_misses (inc (num_misses p)) p.
Definition count_pragmas c s i p := CachePerf (num_requests p) (num_misses p) (add_if c (client_nocache_misses p))
  (add_if s (server_nocache_misses p)) (add_if i (if_mod_since_misses p)) (cache_add_evict p) (cache_add_refresh p)
  (trace_start_time p) (trace_latest_time p).
Definition count_added ev re p := CachePerf (num_requests p) (num_misses p) (client_nocache_misses p) (server_nocache_misses p)
  (if_mod_since_misses p) (add_if ev (cache_add_evict p)) (add_if re (cache_add_refresh p)) (trace_start_time p) (trace_latest_time p).

Section perf.
Context `{Digest} (calloc_ok : loc → bool).

(** [cache_perf] and the cache in it with its heap. *)
Abbreviation pcmd := (M (cache_perf * sim)).
Definition on_cache {A} (c : M sim A) : pcmd A := λ '(p, s), '(a, s) ← c s; Ret (a, (p, s)).
Definition on_perf (f : cache_perf → cache_perf) : pcmd () := modify (λ '(p, s), (f p, s)).
Definition lift_out {A} (o : outcome A) : pcmd A := λ s, a ← o; Ret (a, s).

Definition init_cache_el (array_ok : bool) (size num : Z) : pcmd Z :=
  _ ← on_perf (λ _, perf_zero);
  r ← on_cache (initialize_cache calloc_ok array_ok size num);
  mret (if r =? 0 then 0 else 1).

Definition process_log_entry (the_entry : lf_entry) : pcmd (Z * lf_entry) :=
  u ← lift_out (match url the_entry with Some b => Ret (c_str b) | None => Crash end);
  if negb (sanitycheck the_entry u) then mret (0, the_entry)
  else
    '(moved, footask) ← lift_out (insert_host_into_url (HttpTask (sip the_entry) u (urllen the_entry)));
    let e := set_url (if moved =? 0 then url the_entry else Some (task_url footask)) (set_urllen (u16 (task_urllen footask)) the_entry) in
    let e := lf_convert_order e in
    _ ← on_perf (λ p, with_times (if trace_start_time p =? 0 then crs e else trace_start_time p) (crs e) p);
    _ ← on_perf count_request;
    let client := negb (Z.land (cprg e) PB_CLNT_NO_CACHE =? 0) in
    let server := negb (Z.land (sprg e) PB_SRVR_NO_CACHE =? 0) in
    let since := negb (Z.land (cprg e) PB_CLNT_IF_MOD_SINCE =? 0) && (5 <? rhl e) && (5 <? rdl e) in
    _ ← on_perf (count_pragmas client server since);
    _ ← (if client || server || since then on_perf count_miss
         else
           r ← on_cache (test_in_cache (task_url footask));
           if r =? 0 then
             _ ← on_perf count_miss;
             res ← on_cache (add_to_cache calloc_ok (task_url footask) (u32 (rhl e + rdl e)));
             on_perf (count_added (negb (Z.land res 1 =? 0)) (negb (Z.land res 2 =? 0)))
           else mret ());
    mret (1, lf_convert_order e).
End perf.

(** [dump_cache_stats(the_cache, output_file)]: the line it prints. *)
Definition stats_fields (p : cache_perf) (s : sim) : list Z :=
  [num_requests p; num_misses p; client_nocache_misses p; server_nocache_misses p; if_mod_since_misses p;
   cache_add_evict p; cache_add_refresh p; trace_start_time p; trace_latest_time p;
   cur_num_entries (tcache s); cur_cache_size (tcache s)].
Fixpoint spaced (fs : list Z) : bytes :=
  match fs with [] => [] | [f] => dec f ++ [10] | f :: fs' => dec f ++ [32] ++ spaced fs' end.
Definition dump_cache_stats (p : cache_perf) (s : sim) : bytes := spaced (stats_fields p s).

(** ** The main loop of the simulator *)

Record server := Server { conn : io; perf : cache_perf * sim; stdout : bytes }.
Section main.
Context `{Digest} (calloc_ok : loc → bool) (malloc_ok : nat → bool) (junk : byte).
Abbreviation scmd := (M server).
Definition on_conn {A} (c : IO A) : scmd A := λ s, '(a, w) ← c (conn s); Ret (a, Server w (perf s) (stdout s)).
Definition on_stats {A} (c : M (cache_perf * sim) A) : scmd A := λ s, '(a, p) ← c (perf s); Ret (a, Server (conn s) p (stdout s)).
(** One turn: [cntr] and the entry of the next. *)
Definition cachesim_turn (report_interval cntr : Z) (next_entry : lf_entry) : scmd (Z * lf_entry) :=
  '(gne_res, e) ← on_conn (lf_get_next_entry malloc_ok junk 3 next_entry);
  if negb (gne_res =? 0) && negb (gne_res =? 1) then exit 0
  else
    '(_, e) ← on_stats (process_log_entry calloc_ok e);
    let cntr := cntr + 1 in
    if gne_res =? 1 then exit 0
    else if report_interval =? 0 then crash
    else
      _ ← (if cntr mod report_interval =? 0 then modify (λ s, Server (conn s) (perf s) (stdout s ++ dump_cache_stats (perf s).1 (perf s).2)) else mret ());
      mret (cntr, set_url None e).

Fixpoint cachesim_loop (fuel : nat) (report_interval cntr : Z) (next_entry : lf_entry) : scmd () :=
  match fuel with
  | O => stuck
  | S fuel' =>
      '(cntr, e) ← cachesim_turn report_interval cntr next_entry;
      cachesim_loop fuel' report_interval cntr e
  end.
(** [main] once the trace sender has connected; [e0] is what the record on the
    stack holds. *)
Definition cachesim_main (fuel : nat) (cache_size num report_interval : Z) (e0 : lf_entry) : scmd () :=
  ok ← on_stats (init_cache_el calloc_ok true cache_size num);
  if ok =? 0 then exit 1 else cachesim_loop fuel report_interval 0 e0.
(** The first [n] turns. *)
Fixpoint cachesim_turns (n : nat) (report_interval cntr : Z) (next_entry : lf_entry) : scmd (Z * lf_entry) :=
  match n with
  | O => mret (cntr, next_entry)
  | S n' =>
      '(cntr, e) ← cachesim_turn report_interval cntr next_entry;
      cachesim_turns n' report_interval cntr e
  end.
End main.

(** ** Lemmas: transfers that complete *)

(** The state of a connection over which [n] bytes can be moved. *)
Definition ready (n : nat) (w : io) : Prop := forallb live (xfers w) = true ∧ (n <= moves (xfers w))%nat.

Lemma ready_le n m w : ready n w → (m <= n)%nat → ready m w.
Proof. intros [? ?] ?. split; [done|lia]. Qed.

Lemma live_suffix_true xs ys : ys `suffix_of` xs → forallb live xs = true → forallb live ys = true.
Proof. intros [zs ->]. rewrite forallb_app. by intros [_ ?]%andb_true_iff. Qed.

Lemma write_whole data n w : ready (length data + n) w →
  ∃ w', correct_write data (Z.of_nat (length data)) w = Ret (Z.of_nat (length data), w') ∧
    wire w' = wire w ++ data ∧ input w' = input w ∧ ready n w'.
Proof.
  intros [Hlive Hm]. unfold correct_write. rewrite (bind_ret get _ w w w) by done.
  assert (Hdl : data_len data (Z.of_nat (length data)) = Z.of_nat (length data)).
  { unfold data_len. destruct (Z.eqb_spec (Z.of_nat (length data)) (-1)); [lia|done]. }
  rewrite Hdl. assert (Hf : (length (xfers w) < io_fuel w)%nat) by (unfold io_fuel; lia).
  pose proof (correct_write_loop_spec data (length data) ltac:(lia) (io_fuel w) w 0 ltac:(lia) Hf) as Hw.
  pose proof (write_loop_moves data (length data) (io_fuel w) w 0 ltac:(lia) Hf) as Hmv.
  pose proof (moves_budget _ Hlive). change (Z.of_nat 0) with 0 in *.
  destruct (correct_write_loop (io_fuel w) data (Z.of_nat (length data)) 0 w) as [[r w']| | |]; try done; [|lia].
  destruct Hw as (k & [Hwire Hin] & [[-> Hk]|(_&_&Hno)]); [|by rewrite Hlive in Hno].
  destruct Hmv as (_&Hsuf&Hmv). specialize (Hmv eq_refl). exists w'. split; [done|].
  rewrite drop_0 in Hwire. assert (k = length data) as -> by lia. rewrite firstn_all in Hwire.
  split; [done|]. split; [done|]. split; [by eapply live_suffix_true|lia].
Qed.

Lemma read_loop_moves len fuel : ∀ w buf from, (len <= length buf)%nat → (from <= len)%nat → (length (xfers w) < fuel)%nat →
  forallb live (xfers w) = true → (len - from <= length (input w))%nat → (len - from <= moves (xfers w))%nat →
  ∃ buf' w', correct_read_loop fuel buf (Z.of_nat len) (Z.of_nat from) w = Ret ((Z.of_nat len, buf'), w') ∧
    (moves (xfers w) <= moves (xfers w') + (len - from))%nat ∧ forallb live (xfers w') = true ∧
    received buf buf' from (take (len - from) (input w)) w w'.
Proof.
  induction fuel as [|fuel IH]; intros w buf from Hlen Hf Hfuel Hlive Hin Hmv; [lia|]. cbn [correct_read_loop].
  destruct (Z.eqb_spec (Z.of_nat from) (Z.of_nat len)) as [Heq|Hne].
  { assert (from = len) as -> by lia. exists buf, w. split; [done|]. split; [lia|]. split; [done|].
    rewrite Nat.sub_diag. cbn. by apply received_refl. }
  replace (Z.to_nat (Z.of_nat len - Z.of_nat from)) with (len - from)%nat by lia. rewrite Nat2Z.id.
  destruct (xfers w) as [|[k|e] r] eqn:Hx; [cbn in Hmv; lia| |]; cbn [forallb] in Hlive; apply andb_true_iff in Hlive as [Hl1 Hlive].
  - set (got := take (k `min` (len - from)) (input w)).
    set (w1 := with_input (drop (length got) (input w)) (with_xfers r w)).
    assert (Hr : sys_read (len - from) w = Ret ((Z.of_nat (length got), EOTHER 0, got), w1)) by (unfold sys_read; by rewrite Hx).
    step_with Hr. assert (Hgl : length got = (k `min` (len - from))%nat) by (unfold got; rewrite length_take; lia).
    set (buf1 := take from buf ++ got ++ drop (from + length got) buf).
    assert (Hst : lift_o (store_at buf from got) w1 = Ret (buf1, w1)).
    { unfold lift_o, store_at. rewrite decide_True by lia. done. }
    step_with Hst. cbn in Hl1. destruct (Nat.eqb_spec k 0) as [|Hk]; [done|].
    destruct (Z.leb_spec (Z.of_nat (length got)) 0) as [Hn0|Hn0]; [lia|].
    assert (Hrec : received buf buf1 from got w w1).
    { split_and!; [done| |done|lia]. unfold w1, got. cbn. rewrite length_take.
      replace ((k `min` (len - from)) `min` length (input w))%nat with (k `min` (len - from))%nat by lia. by rewrite take_drop. }
    replace (Z.of_nat from + Z.of_nat (length got)) with (Z.of_nat (from + length got)) by lia.
    assert (Elen : length buf1 = length buf) by (unfold buf1; rewrite !length_app, length_take, length_drop; lia).
    assert (Hi1 : input w1 = drop (length got) (input w)) by done. assert (Hx1 : xfers w1 = r) by done.
    cbn [moves] in Hmv. cbn in Hfuel.
    destruct (IH w1 buf1 (from + length got)%nat) as (buf'&w'&Hrun&Hm'&Hl'&Hrec'); rewrite ?Hx1, ?Hi1, ?length_drop; try done; try lia.
    exists buf', w'. split; [done|]. rewrite Hx1 in Hm'. cbn [moves]. split; [lia|]. split; [done|].
    pose proof (received_trans _ _ _ _ _ _ _ _ _ Hrec Hrec') as Ht. rewrite Hi1 in Ht.
    assert (Hcat : got ++ take (len - (from + length got)) (drop (length got) (input w)) = take (len - from) (input w)).
    { assert (Hg : got = take (length got) (input w)) by (unfold got; rewrite length_take; f_equal; lia). rewrite Hg at 1.
      rewrite take_take_drop. f_equal. lia. }
    by rewrite Hcat in Ht.
  - assert (Hr : sys_read (len - from) w = Ret ((-1, e, []), with_xfers r w)) by (unfold sys_read; by rewrite Hx).
    step_with Hr. assert (Hst : lift_o (store_at buf from []) (with_xfers r w) = Ret (buf, with_xfers r w)).
    { unfold lift_o, store_at. cbn [length]. rewrite decide_True by lia. cbn. by rewrite Nat.add_0_r, take_drop. }
    step_with Hst. change (-1 <=? 0) with true. cbn iota. unfold transient. change (-1 =? -1) with true. cbn [andb].
    cbn in Hl1. rewrite Hl1. cbn in Hfuel, Hmv.
    destruct (IH (with_xfers r w) buf from) as (buf'&w'&Hrun&Hm'&Hl'&Hrec'); try done; [cbn; lia|].
    exists buf', w'. by split_and!.
Qed.

Lemma read_whole buf len n w : length buf = len → (len <= length (input w))%nat → ready (len + n) w →
  ∃ w', correct_read buf (Z.of_nat len) w = Ret ((Z.of_nat len, take len (input w)), w') ∧
    input w' = drop len (input w) ∧ wire w' = wire w ∧ ready n w'.
Proof.
  intros Hb Hin [Hlive Hm]. unfold correct_read. rewrite (bind_ret get _ w w w) by done.
  destruct (read_loop_moves len (io_fuel w) w buf 0) as (buf'&w'&Hr&Hm'&Hl'&(Hbuf&Hi&Hw&_)); try lia; try done.
  { unfold io_fuel. lia. }
  change (Z.of_nat 0) with 0 in Hr. rewrite Nat.sub_0_r in *. rewrite Hr. exists w'.
  assert (Hlt : length (take len (input w)) = len) by (rewrite length_take; lia).
  rewrite Nat.add_0_l, Hlt in Hbuf. rewrite drop_ge, app_nil_r in Hbuf by lia. cbn [take app] in Hbuf.
  split; [by rewrite Hbuf|]. split; [|split; [done|split; [done|lia]]].
  rewrite <-(take_drop len (input w)) in Hi at 1. by apply app_inv_head in Hi.
Qed.

(** At the end of the input [correct_read] returns 0. *)
Lemma read_end buf len w : (0 < len)%nat → input w = [] → ready 1 w →
  ∃ w' buf', correct_read buf (Z.of_nat len) w = Ret ((0, buf'), w') ∧ input w' = [].
Proof.
  intros Hlen Hin [Hlive Hm]. unfold correct_read. rewrite (bind_ret get _ w w w) by done.
  assert (Hgo : ∀ fuel w, input w = [] → forallb live (xfers w) = true → (1 <= moves (xfers w))%nat → (length (xfers w) < fuel)%nat →
    ∃ w' buf', correct_read_loop fuel buf (Z.of_nat len) 0 w = Ret ((0, buf'), w') ∧ input w' = []).
  { clear -Hlen. induction fuel as [|fuel IH]; intros w Hin Hl Hm Hf; [lia|]. cbn [correct_read_loop].
    rewrite (proj2 (Z.eqb_neq 0 _)) by lia.
    destruct (xfers w) as [|[k|e] r] eqn:Hx; [cbn in Hm; lia| |].
    - assert (Hr : sys_read (Z.to_nat (Z.of_nat len - 0)) w = Ret ((0, EOTHER 0, []), with_input [] (with_xfers r w))).
      { unfold sys_read. rewrite Hx, Hin, take_nil, drop_nil. done. }
      step_with Hr. eexists _, _. split.
      + unfold lift_o, store_at. cbn [length]. rewrite decide_True by (cbn; lia). reflexivity.
      + done.
    - assert (Hr : sys_read (Z.to_nat (Z.of_nat len - 0)) w = Ret ((-1, e, []), with_xfers r w)) by (unfold sys_read; by rewrite Hx).
      step_with Hr. cbn [forallb] in Hl. apply andb_true_iff in Hl as [Hl1 Hl].
      assert (Hst : lift_o (store_at buf 0 []) (with_xfers r w) = Ret (buf, with_xfers r w)).
      { unfold lift_o, store_at. rewrite decide_True by (cbn; lia). done. }
      step_with Hst. change (-1 <=? 0) with true. cbn iota. unfold transient. change (-1 =? -1) with true. cbn [andb].
      cbn in Hl1. rewrite Hl1. apply IH; try done. cbn in Hf |- *. lia. }
  apply Hgo; try done. unfold io_fuel. lia.
Qed.

(** ** Records on the wire *)

Definition u32_ok (x : Z) : Prop := 0 <= x < 2 ^ 32.
Definition u16_ok (x : Z) : Prop := 0 <= x < 2 ^ 16.

(** A record whose fields fit and whose URL is not empty. *)
Record entry_wf (vers : Z) (u : bytes) (e : lf_entry) : Prop := {
  ew_version : version e = u8 vers;
  ew_32 : Forall u32_ok [crs e; cru e; srs e; sru e; sls e; slu e; cip e; sip e; cims e; sexp e; slmd e; rhl e; rdl e];
  ew_16 : Forall u16_ok [cpt e; spt e];
  ew_8 : Forall is_byte [cprg e; sprg e];
  ew_url : url e = Some u;
  ew_len : (0 < length u)%nat ∧ Z.of_nat (length u) < 2 ^ 16;
  ew_urllen : urllen e = htons (Z.of_nat (length u));
}.

Lemma length_lf_block e : length (lf_block e) = 60%nat.
Proof. reflexivity. Qed.

Lemma entry_urllen vers u e : entry_wf vers u e → u16_ok (urllen e) ∧ htons (urllen e) = Z.of_nat (length u).
Proof.
  intros [_ _ _ _ _ [_ Hl] ->]. split; [apply htons_range; lia|]. by rewrite htons_htons by lia.
Qed.

Lemma lf_unblock_block vers u e : entry_wf vers u e → lf_unblock (lf_block e) vers (Some u) = e.
Proof.
  intros He. destruct (entry_urllen _ _ _ He) as [Hul _]. destruct He as [Hv H32 H16 H8 Hu _ _].
  destruct e; cbn [version crs cru srs sru sls slu cip cpt sip spt cprg sprg cims sexp slmd rhl rdl urllen url] in *.
  repeat match goal with H : Forall _ (_ :: _) |- _ => apply Forall_cons in H as [? H] end.
  unfold lf_unblock, field, u32_ok, u16_ok in *. subst. f_equal;
    first [by apply of_le_le32 | by apply of_le_le16 | (cbn [of_le]; change (of_le [?x]) with (x + 256 * 0); cbn; lia) | cbn; lia].
Qed.

Definition send_size (u : bytes) : nat := 60 + length u.

Section roundtrip.
Context (malloc_ok : nat → bool) (Hmalloc : ∀ n, malloc_ok n = true) (junk : byte).

Lemma lf_write_fd_ok vers u e n w : entry_wf vers u e → ready (send_size u + n) w →
  ∃ w', lf_write_fd e w = Ret (0, w') ∧ wire w' = wire w ++ lf_block e ++ u ∧ input w' = input w ∧ ready n w'.
Proof.
  intros He Hr. destruct (entry_urllen _ _ _ He) as [_ Hul]. pose proof He as [_ _ _ _ Hu [Hl0 _] _].
  unfold lf_write_fd. destruct (write_whole (lf_block e) (length u + n) w) as (w1&H1&Hw1&Hi1&Hr1).
  { eapply ready_le; [exact Hr|]. rewrite length_lf_block. unfold send_size. lia. }
  change (Z.of_nat (length (lf_block e))) with 60 in H1. rewrite (bind_ret _ _ _ _ _ H1). change (60 <=? 0) with false. cbn iota.
  rewrite Hu, Hul. destruct (write_whole u n w1 Hr1) as (w2&H2&Hw2&Hi2&Hr2). rewrite (bind_ret _ _ _ _ _ H2).
  rewrite (proj2 (Z.leb_gt _ 0)) by lia. exists w2. split; [done|]. rewrite Hw2, Hw1, <-app_assoc. split; [done|].
  split; [congruence|done].
Qed.

Lemma lf_get_next_entry_ok vers u e e0 n w rest : entry_wf vers u e → input w = lf_block e ++ u ++ rest → ready (send_size u + n) w →
  ∃ w', lf_get_next_entry malloc_ok junk vers e0 w = Ret ((0, e), w') ∧ input w' = rest ∧ wire w' = wire w ∧ ready n w'.
Proof.
  intros He Hin Hr. destruct (entry_urllen _ _ _ He) as [_ Hul].
  unfold lf_get_next_entry. change 60%Z with (Z.of_nat 60) at 1.
  destruct (read_whole (replicate 60 junk) 60 (length u + n) w) as (w1&H1&Hi1&Hw1&Hr1).
  { apply length_replicate. }
  { rewrite Hin, length_app, length_lf_block. lia. }
  { eapply ready_le; [exact Hr|]. unfold send_size. lia. }
  rewrite Hin in H1, Hi1. rewrite take_app_length' in H1 by reflexivity. rewrite drop_app_length' in Hi1 by reflexivity.
  rewrite (bind_ret _ _ _ _ _ H1). change (negb (Z.of_nat 60 =? Z.of_nat 60)) with false. cbn iota.
  assert (Hf : urllen (lf_unblock (lf_block e) vers (url e0)) = urllen e).
  { exact (f_equal urllen (lf_unblock_block vers u e He)). }
  rewrite Hf, Hul, Hmalloc. rewrite Nat2Z.id.
  destruct (read_whole (replicate (length u) junk) (length u) n w1) as (w2&H2&Hi2&Hw2&Hr2); [apply length_replicate| |done|].
  { rewrite Hi1, length_app. lia. }
  rewrite (bind_ret _ _ _ _ _ H2). rewrite Z.eqb_refl. cbn [negb]. rewrite Hi1 in *.
  rewrite take_app_length, drop_app_length in *. exists w2. split; [|split; [done|split; [congruence|done]]].
  exact (f_equal (λ x, Ret (0, x, w2)) (lf_unblock_block vers u e He)).
Qed.

Lemma lf_get_next_entry_end vers e0 w : input w = [] → ready 1 w →
  ∃ w', lf_get_next_entry malloc_ok junk vers e0 w = Ret ((1, e0), w').
Proof.
  intros Hin Hr. destruct (read_end (replicate 60 junk) 60 w ltac:(lia) Hin Hr) as (w'&b&H1&_).
  exists w'. unfold lf_get_next_entry. change 60%Z with (Z.of_nat 60) at 1. by rewrite (bind_ret _ _ _ _ _ H1).
Qed.

(** The bytes of a trace, and how many there are. *)
Definition image (us : list bytes) (es : list lf_entry) : bytes := mjoin (zip_with (λ e u, lf_block e ++ u) es us).
Definition urls_size (us : list bytes) : nat := foldr (λ u n, (send_size u + n)%nat) 0%nat us.

End roundtrip.

Lemma image_app us1 es1 us2 es2 : length us1 = length es1 → image (us1 ++ us2) (es1 ++ es2) = image us1 es1 ++ image us2 es2.
Proof.
  revert es1. induction us1 as [|u us1 IH]; intros [|e es1] Hl; try done. cbn in Hl.
  change (lf_block e ++ u ++ image (us1 ++ us2) (es1 ++ es2) = lf_block e ++ u ++ image us1 es1 ++ image us2 es2) || idtac.
  unfold image in *. cbn [app zip_with mjoin list_join]. rewrite <-!app_assoc, IH by lia. by rewrite <-?app_assoc.
Qed.
Lemma urls_size_app us1 us2 : urls_size (us1 ++ us2) = (urls_size us1 + urls_size us2)%nat.
Proof. induction us1 as [|u us1 IH]; [done|]. cbn [app urls_size foldr]. fold (urls_size (us1 ++ us2)) (urls_size us1). rewrite IH. lia. Qed.


(** ** What the statistics should be *)

(** A record with its URL. *)
Abbreviation logged := (bytes * lf_entry)%type (only parsing).

Definition relative (u : bytes) : bool :=
  match find_space u with Some i => negb (bool_decide (take 7 (drop (S i) u) = bytes_of "http://")) | None => false end.
(** The request with the address [host] of its server. *)
Definition qualified (host : Z) (u : bytes) : bytes :=
  if relative u then
    let n := match find_space u with Some i => S i | None => 0%nat end in
    take n u ++ bytes_of "http://" ++ lf_ntoa host ++ drop n u
  else u.

Definition sane (x : logged) : bool := sanitycheck x.2 (c_str x.1).
Definition says_client (x : logged) : bool := negb (Z.land (cprg x.2) PB_CLNT_NO_CACHE =? 0).
Definition says_server (x : logged) : bool := negb (Z.land (sprg x.2) PB_SRVR_NO_CACHE =? 0).
Definition says_since (x : logged) : bool :=
  negb (Z.land (cprg x.2) PB_CLNT_IF_MOD_SINCE =? 0) && (5 <? htonl (rhl x.2)) && (5 <? htonl (rdl x.2)).
Definition uncachable (x : logged) : bool := says_client x || says_server x || says_since x.

(** The accesses to the cache that a trace makes: the documents and sizes. *)
Definition access_of (x : logged) : bytes * Z :=
  (qualified (htonl (sip x.2)) (c_str x.1), u32 (htonl (rhl x.2) + htonl (rdl x.2))).
Definition accesses (xs : list logged) : list (bytes * Z) := map access_of (List.filter (λ x, sane x && negb (uncachable x)) xs).

(** An access looks a document up and adds it if it is missing. *)
Definition lru_access `{Digest} (max : Z) (a : bytes * Z) (ks : list item) : option (bool * list item) :=
  '(r, ks) ← lru_step max (Test a.1) ks;
  if r =? 0 then '(_, ks) ← lru_step max (Add a.1 a.2) ks; Some (false, ks) else Some (true, ks).
Fixpoint lru_accesses `{Digest} (max : Z) (l : list (bytes * Z)) (ks : list item) : option (list bool * list item) :=
  match l with
  | [] => Some ([], ks)
  | a :: l' => '(h, ks) ← lru_access max a ks; '(hs, ks) ← lru_accesses max l' ks; Some (h :: hs, ks)
  end.

Definition count {A} (f : A → bool) (l : list A) : Z := Z.of_nat (length (List.filter f l)).
Definition times (xs : list logged) : list Z := map (λ x, htonl (crs x.2)) (List.filter sane xs).

(** The statistics of a trace in which the lookups gave [hits]. *)
Definition tally (xs : list logged) (hits : list bool) : cache_perf :=
  CachePerf (u32 (count sane xs)) (u32 (count (λ x, sane x && uncachable x) xs + count negb hits))
    (u32 (count (λ x, sane x && says_client x) xs)) (u32 (count (λ x, sane x && says_server x) xs))
    (u32 (count (λ x, sane x && says_since x) xs)) 0 0
    (default 0 (head (List.filter (λ t, negb (t =? 0)) (times xs)))) (default 0 (last (times xs))).

(** The buffer for the qualified URL is large enough. *)
Definition room (x : logged) : Prop :=
  url x.2 = Some x.1 ∧ (sane x = true → relative (c_str x.1) = true → Z.of_nat (length (c_str x.1)) <= urllen x.2).

Definition room_for (t : http_task) : bool := negb (relative (task_url t)) || (Z.of_nat (length (task_url t)) <=? task_urllen t).

(** ** Lemmas: requests *)

Lemma relative_space u : relative u = true → ∃ i, find_space u = Some i ∧ (i < length u)%nat.
Proof.
  unfold relative, find_space. destruct (list_find _ u) as [[i c]|] eqn:E; [|done]. intros _. exists i. split; [done|].
  apply list_find_Some in E as (Hl&_&_). by eapply lookup_lt_Some.
Qed.

Lemma insert_host_spec t : insert_host_into_url t =
  if relative (task_url t) then
    if Z.of_nat (length (task_url t)) <=? task_urllen t then
      let u := qualified (htonl (dst_host t)) (task_url t) in Ret (1, HttpTask (dst_host t) u (Z.of_nat (length u)))
    else Crash
  else Ret (0, t).
Proof.
  unfold qualified. destruct (relative (task_url t)) eqn:Hr.
  - destruct (relative_space _ Hr) as (i&Hi&Hl). unfold insert_host_into_url. unfold relative in Hr. rewrite Hi in *.
    destruct (bool_decide _); [done|]. cbn zeta. rewrite !length_app, length_take, length_drop.
    change (length (bytes_of "http://")) with 7%nat.
    destruct (Z.leb_spec (Z.of_nat (length (task_url t))) (task_urllen t)), (Z.ltb_spec (Z.of_nat (S i `min` length (task_url t) +
      (7 + (length (lf_ntoa (htonl (dst_host t))) + (length (task_url t) - S i))))) (task_urllen t + 1 + 7 + Z.of_nat (length (lf_ntoa (htonl (dst_host t))))));
      try done; lia.
  - unfold insert_host_into_url. unfold relative in Hr. destruct (find_space _); [|done]. by destruct (bool_decide _).
Qed.

Lemma length_count_app {A} (f : A → bool) l x : count f (l ++ [x]) = count f l + (if f x then 1 else 0).
Proof. unfold count. rewrite List.filter_app, length_app. cbn. destruct (f x); cbn; lia. Qed.

Lemma wrap_add w a b : wrap w (wrap w a + b) = wrap w (a + b).
Proof. apply Zplus_mod_idemp_l. Qed.

Lemma add_if_u32 b z : add_if b (u32 z) = u32 (z + (if b then 1 else 0)).
Proof.
  destruct b; cbn; [apply wrap_add|by rewrite Z.add_0_r].
Qed.

Lemma start_snoc ts t : default 0 (head (List.filter (λ t, negb (t =? 0)) (ts ++ [t]))) =
  (let a := default 0 (head (List.filter (λ t, negb (t =? 0)) ts)) in if a =? 0 then t else a).
Proof.
  rewrite List.filter_app. destruct (List.filter _ ts) as [|a l] eqn:E; cbn.
  - destruct (Z.eqb_spec t 0) as [->|]; done.
  - assert (Hin : In a (List.filter (λ t, negb (t =? 0)) ts)) by (rewrite E; by left).
    apply List.filter_In in Hin as [_ Ha]. by destruct (a =? 0).
Qed.

Lemma times_snoc xs x : times (xs ++ [x]) = times xs ++ (if sane x then [htonl (crs x.2)] else []).
Proof. unfold times. rewrite List.filter_app, map_app. cbn. by destruct (sane x). Qed.

Lemma accesses_snoc xs x : accesses (xs ++ [x]) = accesses xs ++ accesses [x].
Proof. unfold accesses. by rewrite List.filter_app, map_app. Qed.

(** A record that is not sane changes nothing. *)
Lemma tally_insane xs x hits : sane x = false → tally (xs ++ [x]) hits = tally xs hits.
Proof.
  intros Hs. unfold tally. rewrite !length_count_app, times_snoc, Hs. cbn [andb]. by rewrite !Z.add_0_r, app_nil_r.
Qed.

(** A sane one counts as a request, with its reasons to miss. *)
Lemma tally_sane xs x hits more : sane x = true →
  tally (xs ++ [x]) (hits ++ more) =
  (let q := count_pragmas (says_client x) (says_server x) (says_since x)
     (count_request (let p := tally xs hits in
        with_times (if trace_start_time p =? 0 then htonl (crs x.2) else trace_start_time p) (htonl (crs x.2)) p)) in
   with_misses (u32 (num_misses q + (if uncachable x then 1 else 0) + count negb more)) q).
Proof.
  intros Hs. unfold tally, with_misses, count_pragmas, count_request, with_times.
  cbn [num_requests num_misses client_nocache_misses server_nocache_misses if_mod_since_misses cache_add_evict cache_add_refresh trace_start_time trace_latest_time].
  rewrite !length_count_app, times_snoc, Hs. cbn [andb].
  rewrite start_snoc, last_snoc. cbn [default]. rewrite !add_if_u32. f_equal.
  - change (inc ?x) with (add_if true x). by rewrite add_if_u32.
  - rewrite <-(Z.add_assoc (wrap 32 _)), wrap_add. f_equal. unfold count. rewrite List.filter_app, length_app, Nat2Z.inj_add. lia.
Qed.

Section statistics.
Context `{Digest} (calloc_ok : loc → bool) (Hcalloc : ∀ b, calloc_ok b = true).

(** The cache part of one record. *)
Lemma access_ok p s n max l fl ks a h ks' : rep s n max l fl ks → 0 <= a.2 < 2 ^ 32 → lru_access max a ks = Some (h, ks') →
  ∃ s' l' fl', (r ← on_cache (test_in_cache a.1);
     if r =? 0 then
       _ ← on_perf count_miss;
       res ← on_cache (add_to_cache calloc_ok a.1 a.2);
       on_perf (count_added (negb (Z.land res 1 =? 0)) (negb (Z.land res 2 =? 0)))
     else mret ()) (p, s) = Ret ((), (if h then p else count_miss p, s')) ∧ rep s' n max l' fl' ks'.
Proof.
  intros Hr Ha Hx. unfold lru_access in Hx. apply bind_Some in Hx as ((r&ks1)&E&Hx).
  destruct (test_ok s n max l fl ks a.1 r ks1 Hr E) as (s1&l1&H1&Hr1).
  assert (Ht : on_cache (test_in_cache a.1) (p, s) = Ret (r, (p, s1))) by (unfold on_cache; by rewrite H1).
  rewrite (bind_ret _ _ _ _ _ Ht). destruct (r =? 0).
  - apply bind_Some in Hx as ((r2&ks2)&E2&Hx). injection Hx as <- <-.
    rewrite (bind_ret (on_perf count_miss) _ (p, s1) () (count_miss p, s1)) by done.
    destruct (add_ok calloc_ok Hcalloc s1 n max l1 fl ks1 a.1 a.2 r2 ks2 Hr1 Ha E2) as (s2&l2&fl2&H2&Hr2).
    assert (Hadd : on_cache (add_to_cache calloc_ok a.1 a.2) (count_miss p, s1) = Ret (0, (count_miss p, s2))) by (unfold on_cache; by rewrite H2).
    rewrite (bind_ret _ _ _ _ _ Hadd). exists s2, l2, fl2. split; [by destruct p|done].
  - injection Hx as <- <-. by exists s1, l1, fl.
Qed.

(** What [process_log_entry] leaves in the record. *)
Definition processed (e : lf_entry) (b : bytes) (n : Z) : lf_entry := lf_convert_order (lf_convert_order (set_url (Some b) (set_urllen n e))).

Lemma process_insane x p : url x.2 = Some x.1 → sane x = false → process_log_entry calloc_ok x.2 p = Ret ((0, x.2), p).
Proof.
  intros Hu Hs. unfold process_log_entry, sane in *. rewrite Hu. unfold lift_out at 1. rewrite (bind_ret _ _ p (c_str x.1) p) by done. by rewrite Hs.
Qed.

(** The request that is looked up, and the crash when the buffer of
    [insert_host_into_url] is too small. *)
Lemma lift_insert {S} (t : http_task) (s : S) : room_for t = true →
  ∃ k t', (λ s, a ← insert_host_into_url t; Ret (a, s)) s = Ret ((k, t'), s) ∧ task_url t' = qualified (htonl (dst_host t)) (task_url t).
Proof.
  unfold room_for. rewrite insert_host_spec. unfold qualified. destruct (relative (task_url t)) eqn:Hr; cbn [negb orb].
  - intros ->. by eexists _, _.
  - intros _. by eexists _, _.
Qed.

Lemma process_ok s n max l fl ks xs hits more x ks' : rep s n max l fl ks → room x →
  lru_accesses max (accesses [x]) ks = Some (more, ks') →
  ∃ r e s' l' fl', process_log_entry calloc_ok x.2 (tally xs hits, s) = Ret ((r, e), (tally (xs ++ [x]) (hits ++ more), s')) ∧
    rep s' n max l' fl' ks'.
Proof.
  intros Hr [Hu Hroom] Hx. destruct (sane x) eqn:Hs; unfold accesses in Hx; cbn [List.filter map] in Hx; rewrite Hs in Hx.
  2:{ cbn in Hx. injection Hx as <- <-. rewrite app_nil_r, tally_insane by done. exists 0, x.2, s, l, fl. split; [|done]. by apply process_insane. }
  rewrite tally_sane by done. cbn zeta. unfold process_log_entry. rewrite Hu. unfold lift_out at 1.
  rewrite (bind_ret _ _ _ (c_str x.1) (tally xs hits, s)) by done. unfold sane in Hs. rewrite Hs. cbn [negb].
  destruct (lift_insert (HttpTask (sip x.2) (c_str x.1) (urllen x.2)) (tally xs hits, s)) as (k&t'&Hi&Hq).
  { unfold room_for. cbn [task_url task_urllen]. destruct (relative _) eqn:Hrel; [|done]. by apply Z.leb_le, Hroom. }
  unfold lift_out. rewrite (bind_ret _ _ _ _ _ Hi). change (task_url t' = (access_of x).1) in Hq. rewrite Hq.
  set (e := lf_convert_order (set_url _ _)).
  assert (Hec : crs e = htonl (crs x.2)) by done. assert (Her : rhl e = htonl (rhl x.2)) by done. assert (Hed : rdl e = htonl (rdl x.2)) by done.
  rewrite Hec, Her, Hed. change (cprg e) with (cprg x.2). change (sprg e) with (sprg x.2).
  fold (says_client x) (says_server x) (says_since x). fold (uncachable x).
  do 3 (rewrite (bind_ret (on_perf _) _ (_, _) () (_, _)) by done).
  set (q := count_pragmas _ _ _ _). assert (Hq0 : u32 (num_misses q) = num_misses q) by apply wrap_wrap. clearbody q.
  destruct (uncachable x); cbn [andb negb map] in Hx |- *.
  - cbn in Hx. injection Hx as <- <-. rewrite (bind_ret (on_perf _) _ (_, _) () (count_miss q, s)) by done.
    eexists _, _, s, l, fl. split; [|done]. cbn [count List.filter length]. by rewrite Z.add_0_r.
  - cbn [lru_accesses] in Hx. apply bind_Some in Hx as ((h&ks1)&Hx&Hy). injection Hy as <- <-.
    destruct (access_ok q s n max l fl ks (access_of x) h ks1 Hr) as (s'&l'&fl'&Hrun&Hr'); [by apply wrap_range|done|].
    cbn [snd access_of] in Hrun. rewrite (bind_ret _ _ _ _ _ Hrun). eexists _, _, s', l', fl'. split; [|done].
    unfold mret, M_mret. do 3 f_equal. destruct h; unfold count; cbn [List.filter negb length]; rewrite !Z.add_0_r; [|done]. rewrite Hq0. by destruct q.
Qed.

(** ** Lemmas: the main loop *)
Context (malloc_ok : nat → bool) (Hmalloc : ∀ n, malloc_ok n = true) (junk : byte).
Abbreviation turn := (cachesim_turn calloc_ok malloc_ok junk).
Abbreviation turns := (cachesim_turns calloc_ok malloc_ok junk).
Abbreviation loop := (cachesim_loop calloc_ok malloc_ok junk).

Lemma loop_turns n : ∀ fuel ri c e sv c' e' sv', turns n ri c e sv = Ret ((c', e'), sv') → loop (n + fuel) ri c e sv = loop fuel ri c' e' sv'.
Proof.
  induction n as [|n IH]; intros fuel ri c e sv c' e' sv' Ht; cbn [cachesim_turns] in Ht; [by injection Ht as <- <- <-|].
  apply bind_ret_inv in Ht as ([c1 e1]&sv1&H1&Ht). cbn [plus cachesim_loop]. rewrite (bind_ret _ _ _ _ _ H1). by apply IH.
Qed.

Lemma turn_ok ri c e0 w xs hits s n max l fl ks out u e more ks' k rest : ri ≠ 0 → rep s n max l fl ks → entry_wf 3 u e → room (u, e) →
  lru_accesses max (accesses [(u, e)]) ks = Some (more, ks') → input w = lf_block e ++ u ++ rest → ready (send_size u + k) w →
  ∃ e' w' s' l' fl', turn ri c e0 (Server w (tally xs hits, s) out) =
    Ret ((c + 1, e'), Server w' (tally (xs ++ [(u, e)]) (hits ++ more), s')
      (out ++ (if (c + 1) mod ri =? 0 then dump_cache_stats (tally (xs ++ [(u, e)]) (hits ++ more)) s' else []))) ∧
    url e' = None ∧ input w' = rest ∧ ready k w' ∧ rep s' n max l' fl' ks'.
Proof.
  intros Hri Hr He Hroom Hx Hin Hrd. unfold cachesim_turn.
  destruct (lf_get_next_entry_ok malloc_ok Hmalloc junk 3 u e e0 k w rest He Hin Hrd) as (w'&Hg&Hi'&_&Hrd').
  set (sv := Server w _ _). set (sv1 := Server w' (tally xs hits, s) out).
  assert (H1 : on_conn (lf_get_next_entry malloc_ok junk 3 e0) sv = Ret ((0, e), sv1)) by (unfold on_conn; cbn; by rewrite Hg).
  rewrite (bind_ret _ _ _ _ _ H1). change (negb (0 =? 0) && negb (0 =? 1)) with false. cbn iota.
  destruct (process_ok s n max l fl ks xs hits more (u, e) ks' Hr Hroom Hx) as (r&e2&s'&l'&fl'&Hp&Hr').
  set (sv2 := Server w' (tally (xs ++ [(u, e)]) (hits ++ more), s') out).
  assert (H2 : on_stats (process_log_entry calloc_ok e) sv1 = Ret ((r, e2), sv2)) by (unfold on_stats; cbn [perf sv1]; cbn [snd] in Hp; by rewrite Hp).
  rewrite (bind_ret _ _ _ _ _ H2). change (0 =? 1) with false. cbn iota. rewrite (proj2 (Z.eqb_neq ri 0)) by done.
  exists (set_url None e2), w', s', l', fl'. split; [|done]. destruct (_ =? 0); [done|]. by rewrite app_nil_r.
Qed.

Lemma lru_accesses_app max l1 : ∀ l2 ks hs ks', lru_accesses max (l1 ++ l2) ks = Some (hs, ks') →
  ∃ h1 h2 ks1, hs = h1 ++ h2 ∧ lru_accesses max l1 ks = Some (h1, ks1) ∧ lru_accesses max l2 ks1 = Some (h2, ks').
Proof.
  induction l1 as [|a l1 IH]; intros l2 ks hs ks' Hx; cbn [app lru_accesses] in *; [by exists [], hs, ks|].
  apply bind_Some in Hx as ((h&ks1)&Ha&Hx). apply bind_Some in Hx as ((hs1&ks2)&Hl&Hx). injection Hx as <- <-.
  destruct (IH _ _ _ _ Hl) as (h1&h2&ks3&->&H1&H2). exists (h :: h1), h2, ks3. split; [done|]. split; [|done]. rewrite Ha. cbn [mbind option_bind]. by rewrite H1.
Qed.

Lemma turns_ok ri n max us es : ri ≠ 0 → Forall2 (entry_wf 3) us es → Forall room (zip us es) → ∀ c e0 w xs hits s l fl ks out more ks',
  rep s n max l fl ks → lru_accesses max (accesses (zip us es)) ks = Some (more, ks') →
  input w = image us es → ready (urls_size us + 1) w →
  ∃ e' w' s' l' fl' out', turns (length es) ri c e0 (Server w (tally xs hits, s) out) =
    Ret ((c + Z.of_nat (length es), e'), Server w' (tally (xs ++ zip us es) (hits ++ more), s') out') ∧
    (es = [] ∨ url e' = None) ∧ input w' = [] ∧ ready 1 w' ∧ rep s' n max l' fl' ks'.
Proof.
  intros Hri Hwf. induction Hwf as [|u e us es He Hwf IH]; intros Hroom c e0 w xs hits s l fl ks out more ks' Hr Hx Hin Hrd.
  { cbn in Hx. injection Hx as <- <-. exists e0, w, s, l, fl, out. cbn [length zip zip_with cachesim_turns]. rewrite !app_nil_r, Z.add_0_r.
    split_and!; try done. by left. }
  cbn [zip zip_with] in *. apply Forall_cons in Hroom as [Hroom Hrooms].
  change ((u, e) :: zip_with pair us es) with ([(u, e)] ++ zip us es) in Hx. unfold accesses in Hx. rewrite List.filter_app, map_app in Hx.
  apply lru_accesses_app in Hx as (m1&m2&ks1&->&Hx1&Hx2). cbn [urls_size foldr] in Hrd. change (input w = (lf_block e ++ u) ++ image us es) in Hin. rewrite <-app_assoc in Hin.
  destruct (turn_ok ri c e0 w xs hits s n max l fl ks out u e m1 ks1 (urls_size us + 1) (image us es))
    as (e1&w1&s1&l1&fl1&H1&Hu1&Hi1&Hr1&Hrep1); try done.
  { eapply ready_le; [exact Hrd|]. fold (urls_size us). lia. }
  cbn [length cachesim_turns]. rewrite (bind_ret _ _ _ _ _ H1).
  destruct (IH Hrooms (c + 1) e1 w1 (xs ++ [(u, e)]) (hits ++ m1) s1 l1 fl1 ks1
    (out ++ (if (c + 1) mod ri =? 0 then dump_cache_stats (tally (xs ++ [(u, e)]) (hits ++ m1)) s1 else [])) m2 ks')
    as (e'&w'&s'&l'&fl'&out'&H2&Hu&Hi&Hr2&Hrep); try done.
  exists e', w', s', l', fl', out'. rewrite <-!app_assoc in H2. split; [|split; [|done]].
  - replace (c + Z.of_nat (S (length es))) with (c + 1 + Z.of_nat (length es)) by lia. exact H2.
  - right. destruct Hu as [->|]; [|done]. cbn in H2. by injection H2 as _ <-.
Qed.
Lemma main_init w max num s0 : initialize_cache calloc_ok true max num sim_start = Ret (1, s0) →
  on_stats (init_cache_el calloc_ok true max num) (Server w (perf_zero, sim_start) []) = Ret (1, Server w (tally [] [], s0) []).
Proof.
  intros Hi. unfold on_stats, init_cache_el. cbn [perf]. rewrite (bind_ret (on_perf _) _ _ () (perf_zero, sim_start)) by done.
  assert (Ho : on_cache (initialize_cache calloc_ok true max num) (perf_zero, sim_start) = Ret (1, (perf_zero, s0))) by (unfold on_cache; by rewrite Hi).
  by rewrite (bind_ret _ _ _ _ _ Ho).
Qed.

(** The turn in which the end of the trace is found. *)
Lemma last_turn ri c e w p out : url e = None → input w = [] → ready 1 w → turn ri c e (Server w p out) = Crash.
Proof.
  intros Hu Hin Hr. destruct (lf_get_next_entry_end malloc_ok junk 3 e w Hin Hr) as (w'&Hg). unfold cachesim_turn.
  assert (H1 : on_conn (lf_get_next_entry malloc_ok junk 3 e) (Server w p out) = Ret ((1, e), Server w' p out)) by (unfold on_conn; cbn; by rewrite Hg).
  rewrite (bind_ret _ _ _ _ _ H1). change (negb (1 =? 0) && negb (1 =? 1)) with false. cbn iota.
  unfold on_stats, process_log_entry, lift_out, mbind, M_mbind. by rewrite Hu.
Qed.
End statistics.

(** ** Theorems *)

(** The conversion is its own inverse on records whose fields fit. *)
Lemma lf_convert_order_involutive vers u e : entry_wf vers u e → lf_convert_order (lf_convert_order e) = e.
Proof.
  intros He. pose proof (proj1 (entry_urllen _ _ _ He)) as Hul. destruct He as [_ H32 H16 _ _ _ _].
  destruct e; unfold lf_convert_order; cbn [version crs cru srs sru sls slu cip cpt sip spt cprg sprg cims sexp slmd rhl rdl urllen url] in *.
  repeat match goal with H : Forall _ (_ :: _) |- _ => apply Forall_cons in H as [? H] end.
  unfold u32_ok, u16_ok in *. f_equal; (by apply htonl_htonl) || (by apply htons_htons).
Qed.

(** A record with an empty URL cannot be sent: [correct_write] of no bytes
    returns 0, which is taken for a failure. *)
Lemma empty_url_fails e n w : url e = Some [] → urllen e = 0 → ready (60 + n) w → ∃ w', lf_write_fd e w = Ret (2, w').
Proof.
  intros Hu Hl Hr. unfold lf_write_fd. destruct (write_whole (lf_block e) n w Hr) as (w1&H1&_&_&_).
  change (Z.of_nat (length (lf_block e))) with 60 in H1. rewrite (bind_ret _ _ _ _ _ H1). change (60 <=? 0) with false. cbn iota.
  rewrite Hu, Hl. change (htons 0) with 0. exists w1.
  assert (H2 : correct_write [] 0 w1 = Ret (0, w1)) by done. by rewrite (bind_ret _ _ _ _ _ H2).
Qed.

(** Example records, of requests to 10.0.0.1. *)
Definition demo_entry (cp rl dl : Z) (u : bytes) : lf_entry :=
  LfEntry 3 (htonl 856569600) 0 0 0 0 0 (htonl 2130706433) (htons 1024) (htonl 167772161) (htons 80) cp 8
    0 0 0 (htonl rl) (htonl dl) (htons (Z.of_nat (length u))) (Some u).
Definition no_entry : lf_entry := LfEntry 0 0 0 0 0 0 0 0 0 0 0 0 0 0 0 0 0 0 0 None.

Lemma demo_entry_wf cp rl dl u : is_byte cp → 0 <= rl < 2 ^ 32 → 0 <= dl < 2 ^ 32 → (0 < length u)%nat → Z.of_nat (length u) < 2 ^ 16 →
  entry_wf 3 u (demo_entry cp rl dl u).
Proof.
  intros Hc Hrl Hdl Hl Hlen. split; unfold demo_entry; cbn [version crs cru srs sru sls slu cip cpt sip spt cprg sprg cims sexp slmd rhl rdl urllen url]; try done.
  - repeat (apply Forall_cons; split); first [by apply (htonl_htonl rl)|by apply (htonl_htonl dl)|by constructor|by split; vm_compute].
  - repeat (apply Forall_cons; split); first [by constructor|by split; vm_compute].
  - repeat (apply Forall_cons; split); [done|by unfold is_byte|constructor].
Qed.

Definition demo_urls : list bytes := [bytes_of "GET /a HTTP/1.0"; bytes_of "GET /b HTTP/1.0"; bytes_of "-"; bytes_of "GET http://10.0.0.1/a HTTP/1.0"; bytes_of "GET /a HTTP/1.0"].
Definition demo_trace : list lf_entry := zip_with (λ c, demo_entry c 120 3000) [0; 0; 0; 0; 3] demo_urls.

Lemma demo_trace_wf : Forall2 (entry_wf 3) demo_urls demo_trace.
Proof. unfold demo_trace, demo_urls. cbn [zip_with]. repeat (apply Forall2_cons; split; [apply demo_entry_wf; first [by split; vm_compute|vm_compute; lia]|]). constructor. Qed.


(** C23. The statistics are those of the trace: after [main] has read a whole
    trace, the requests are the sane records, a request misses when its
    headers forbid caching or when the least-recently-used cache does not hold
    the document (the URL completed with the address of its server), each
    reason is counted apart, and the times are those of the first and the last
    request. The cache is then the one that these lookups leave. The buffer
    has room for every completed URL, and no document is looked up or added
    again while it is alone in the cache. *)
Theorem cachesim_statistics `{Digest} calloc_ok malloc_ok junk us es w max num ri e0 hits ks :
  (∀ b, calloc_ok b = true) → (∀ n, malloc_ok n = true) → 0 < num → 0 <= max < 2 ^ 63 → ri ≠ 0 →
  Forall2 (entry_wf 3) us es → Forall room (zip us es) →
  lru_accesses max (accesses (zip us es)) [] = Some (hits, ks) →
  input w = image us es → ready (urls_size us + 1) w →
  ∃ e' sv l fl, (_ ← on_stats (init_cache_el calloc_ok true max num);
       cachesim_turns calloc_ok malloc_ok junk (length es) ri 0 e0) (Server w (perf_zero, sim_start) []) = Ret ((Z.of_nat (length es), e'), sv) ∧
    (perf sv).1 = tally (zip us es) hits ∧ rep (perf sv).2 (Z.to_nat num) max l fl ks.
Proof.
  intros Hc Hm Hnum Hmax Hri He Hroom Hx Hin Hr. destruct (init_ok calloc_ok Hc max num Hnum Hmax) as (s0&fl0&Hi&Hrep).
  rewrite (bind_ret _ _ _ _ _ (main_init calloc_ok w max num s0 Hi)).
  destruct (turns_ok calloc_ok Hc malloc_ok Hm junk ri (Z.to_nat num) max us es Hri He Hroom 0 e0 w [] [] s0 [] fl0 [] [] hits ks Hrep Hx Hin Hr)
    as (e'&w'&s'&l'&fl'&out'&H1&_&_&_&Hr'). by exists e', (Server w' (tally (zip us es) hits, s') out'), l', fl'.
Qed.

Lemma demo_trace_room : Forall room (zip demo_urls demo_trace).
Proof. repeat (apply Forall_cons; split; [split; [reflexivity|vm_compute; congruence]|]). constructor. Qed.

Definition demo_key (u : string) : bytes := key (bytes_of u).

Lemma cachesim_statistics_witness : ∃ sv l fl, (perf sv).1 = CachePerf 4 3 1 0 0 0 0 856569600 856569600 ∧
  rep (perf sv).2 64 10000 l fl [(demo_key "GET http://10.0.0.1/a HTTP/1.0", 3120); (demo_key "GET http://10.0.0.1/b HTTP/1.0", 3120)].
Proof.
  destruct (cachesim_statistics (λ _, true) (λ _, true) 0 demo_urls demo_trace
    (Io (replicate 400 (Moved 80)) [] [] (image demo_urls demo_trace)) 10000 64 100 no_entry [false; false; true]
    [(demo_key "GET http://10.0.0.1/a HTTP/1.0", 3120); (demo_key "GET http://10.0.0.1/b HTTP/1.0", 3120)]) as (e'&sv&l&fl&_&Hp&Hr).
  - reflexivity.
  - reflexivity.
  - reflexivity.
  - split; [discriminate|reflexivity].
  - discriminate.
  - exact demo_trace_wf.
  - exact demo_trace_room.
  - vm_compute. reflexivity.
  - reflexivity.
  - split; [reflexivity|vm_compute; lia].
  - exists sv, l, fl. split; [|exact Hr]. rewrite Hp. vm_compute. reflexivity.
Defined.

(** The simulator never ends well: when the sender closes the connection after
    a trace of one or more records, [lf_get_next_entry] reports the end, but
    [main] still calls [process_log_entry], on the previous record, whose URL
    it has freed. *)
Theorem cachesim_ends_in_crash `{Digest} calloc_ok malloc_ok junk us es w max num ri e0 hits ks fuel :
  (∀ b, calloc_ok b = true) → (∀ n, malloc_ok n = true) → 0 < num → 0 <= max < 2 ^ 63 → ri ≠ 0 →
  Forall2 (entry_wf 3) us es → Forall room (zip us es) → es ≠ [] → (length es < fuel)%nat →
  lru_accesses max (accesses (zip us es)) [] = Some (hits, ks) →
  input w = image us es → ready (urls_size us + 1) w →
  cachesim_main calloc_ok malloc_ok junk fuel max num ri e0 (Server w (perf_zero, sim_start) []) = Crash.
Proof.
  intros Hc Hm Hnum Hmax Hri He Hroom Hne Hf Hx Hin Hr. destruct (init_ok calloc_ok Hc max num Hnum Hmax) as (s0&fl0&Hi&Hrep).
  unfold cachesim_main. rewrite (bind_ret _ _ _ _ _ (main_init calloc_ok w max num s0 Hi)). change (1 =? 0) with false. cbn iota.
  destruct (turns_ok calloc_ok Hc malloc_ok Hm junk ri (Z.to_nat num) max us es Hri He Hroom 0 e0 w [] [] s0 [] fl0 [] [] hits ks Hrep Hx Hin Hr)
    as (e'&w'&s'&l'&fl'&out'&H1&[Hnil|Hu]&Hi'&Hr'&_); [done|].
  replace fuel with (length es + S (fuel - length es - 1))%nat by lia. rewrite (loop_turns calloc_ok malloc_ok junk _ _ _ _ _ _ _ _ _ H1).
  cbn [cachesim_loop]. unfold mbind, M_mbind. by rewrite last_turn.
Qed.

Lemma cachesim_ends_in_crash_witness : cachesim_main (λ _, true) (λ _, true) 0 9 10000 64 100 no_entry
  (Server (Io (replicate 400 (Moved 80)) [] [] (image demo_urls demo_trace)) (perf_zero, sim_start) []) = Crash.
Proof.
  apply (cachesim_ends_in_crash (λ _, true) (λ _, true) 0 demo_urls demo_trace _ 10000 64 100 no_entry [false; false; true]
    [(demo_key "GET http://10.0.0.1/a HTTP/1.0", 3120); (demo_key "GET http://10.0.0.1/b HTTP/1.0", 3120)]).
  - reflexivity.
  - reflexivity.
  - reflexivity.
  - split; [discriminate|reflexivity].
  - discriminate.
  - exact demo_trace_wf.
  - exact demo_trace_room.
  - discriminate.
  - vm_compute. lia.
  - vm_compute. reflexivity.
  - reflexivity.
  - split; [reflexivity|vm_compute; lia].
Defined.

(** [insert_host_into_url] gets the length of the URL as it is stored, in
    network order, and takes it for the size of the buffer.  For a request
    without a host the copy overruns the buffer exactly when the low byte of
    the length is less than the high byte, as for a URL of 256 bytes;
    otherwise the request is completed. *)
Theorem insert_host_overflow `{Digest} calloc_ok u e st :
  url e = Some u → c_str u = u → urllen e = htons (Z.of_nat (length u)) → Z.of_nat (length u) < 2 ^ 16 → sanitycheck e u = true → relative u = true →
  if Z.of_nat (length u) mod 256 <? Z.of_nat (length u) / 256 then process_log_entry calloc_ok e st = Crash
  else insert_host_into_url (HttpTask (sip e) u (urllen e)) =
    Ret (1, HttpTask (sip e) (qualified (htonl (sip e)) u) (Z.of_nat (length (qualified (htonl (sip e)) u)))).
Proof.
  intros Hu Hc Hl Hlen Hs Hrel. set (n := Z.of_nat (length u)) in *.
  assert (Hcmp : (n <=? urllen e) = negb (n mod 256 <? n / 256)).
  { rewrite Hl, htons_bytes by lia. pose proof (Z.div_mod n 256 ltac:(lia)). pose proof (Z.mod_pos_bound n 256 ltac:(lia)).
    destruct (Z.leb_spec n (256 * (n mod 256) + n / 256)), (Z.ltb_spec (n mod 256) (n / 256)); cbn; lia. }
  pose proof (insert_host_spec (HttpTask (sip e) u (urllen e))) as Hi. cbn [task_url task_urllen dst_host] in Hi.
  rewrite Hrel in Hi. fold n in Hi. rewrite Hcmp in Hi. destruct (n mod 256 <? n / 256); [|exact Hi].
  unfold process_log_entry. rewrite Hu, Hc. unfold lift_out at 1. rewrite (bind_ret _ _ _ u st) by done. rewrite Hs. cbn [negb].
  unfold lift_out, mbind, M_mbind. by rewrite Hi.
Qed.

(** A request with a path of 243 letters; its length is 256. *)
Definition long_url : bytes := bytes_of "GET /" ++ replicate 242 97 ++ bytes_of " HTTP/1.0".
Lemma insert_host_overflow_witness : length long_url = 256%nat ∧ process_log_entry (λ _, true) (demo_entry 0 120 3000 long_url) (perf_zero, sim_start) = Crash.
Proof.
  split; [reflexivity|].
  apply (insert_host_overflow (λ _, true) long_url (demo_entry 0 120 3000 long_url) (perf_zero, sim_start));
    first [reflexivity|vm_compute; reflexivity].
Defined.
