(* ===== verification/TraceTools.v ===== *)
(** * The tools that read traces (playback/src: showtrace.c, sep_clients.c,
      cachesim/netsend.c, the rest of logparse.c)

    Each reads records from its standard input until the end: [showtrace]
    prints them, [netsend] sends those of some clients to the simulators, and
    [sep_clients] sorts them into a file per client. *)

From S2P Require Import Prelude CString SockIO Icp Trace.

Open Scope Z_scope.

(** ** Printing and storing a record *)

(** [lf_dump(dumpf, dumpme)]: the line, and the record converted twice. *)
Definition dump_line (e : lf_entry) (u : bytes) : bytes :=
  let pair a b := dec a ++ bytes_of ":" ++ dec b ++ bytes_of " " in
  let addr a p := lf_ntoa a ++ bytes_of ":" ++ dec p ++ bytes_of " " in
  let num a := dec a ++ bytes_of " " in
  pair (crs e) (cru e) ++ pair (srs e) (sru e) ++ pair (sls e) (slu e) ++ addr (cip e) (cpt e) ++ addr (sip e) (spt e) ++
  num (cprg e) ++ num (sprg e) ++
  num (cims e) ++ num (sexp e) ++ num (slmd e) ++ num (rhl e) ++ num (rdl e) ++ num (urllen e) ++ u ++ [10].
Definition lf_dump (dumpme : lf_entry) : outcome (bytes * lf_entry) :=
  let e := lf_convert_order dumpme in
  match url e with
  | None => Crash
  | Some u => Ret (dump_line e (c_str u), lf_convert_order e)
  end.

(** [lf_write(outf, writeme)] on a file that can be written: the result and
    what is appended.  [url] has its terminator behind it. *)
Definition lf_write (writeme : lf_entry) : outcome (Z * bytes) :=
  let uln := htons (urllen writeme) in
  match url writeme with
  | None => Crash
  | Some u =>
      if uln <=? Z.of_nat (length u) + 1 then
        Ret (if uln =? 0 then 2 else 0, lf_block writeme ++ take (Z.to_nat uln) (u ++ [0]))
      else Crash
  end.

(** ** Tools that handle one record at a time *)

Section tools.
Context (malloc_ok : nat → bool) (junk : byte).
(** The state: the standard input, and what the tool keeps. *)
Context {T : Type}.
Abbreviation tcmd := (M (io * T)).
Definition on_in {A} (c : IO A) : tcmd A := λ '(w, t), '(a, w) ← c w; Ret (a, (w, t)).
Definition on_tool {A} (c : M T A) : tcmd A := λ '(w, t), '(a, t) ← c t; Ret (a, (w, t)).

(** The loop of [main], with what it does with a record. *)
Definition main_turn (body : lf_entry → M T lf_entry) (lfntree : lf_entry) : tcmd lf_entry :=
  '(ret, e) ← on_in (lf_get_next_entry malloc_ok junk 0 lfntree);
  if negb (ret =? 0) then exit (if ret =? 1 then 0 else 1)
  else
    e ← on_tool (body e);
    match url e with Some _ => mret (set_url None e) | None => crash end.
Fixpoint main_loop (fuel : nat) (body : lf_entry → M T lf_entry) (lfntree : lf_entry) : tcmd () :=
  match fuel with
  | O => stuck
  | S fuel' => e ← main_turn body lfntree; main_loop fuel' body e
  end.
(** The first [n] turns. *)
Fixpoint main_turns (n : nat) (body : lf_entry → M T lf_entry) (lfntree : lf_entry) : tcmd lf_entry :=
  match n with
  | O => mret lfntree
  | S n' => e ← main_turn body lfntree; main_turns n' body e
  end.
(** What [n] records do to the state of the tool. *)
Fixpoint run_body (body : lf_entry → M T lf_entry) (es : list lf_entry) : M T () :=
  match es with [] => mret () | e :: es' => _ ← body e; run_body body es' end.
End tools.

(** [showtrace]: the state is the standard output. *)
Definition showtrace_body (e : lf_entry) : M bytes lf_entry := λ out, '(line, e) ← lf_dump e; Ret (e, out ++ line).

(** [netsend]: the counter of its progress messages and the targets. *)
Definition filter_clients (num_clients : Z) (next : lf_entry) : outcome Z :=
  if (100000000 <? htonl (rdl next)) || (100000000 <? htonl (rhl next)) then Ret 0
  else
    let cip := htonl (cip next) in
    let a := u8 (Z.shiftr cip 24) in
    let b := u8 (Z.shiftr cip 16 mod 256) in
    let c := u8 (Z.shiftr cip 8 mod 256) in
    let d := u8 (cip mod 256) in
    let net := (a =? 136) && (b =? 152) in
    let yes (x : bool) := Ret (if x then 1 else 0) in
    if num_clients =? 1 then yes (net && (c =? 12) && (d =? 8))
    else if num_clients =? 2 then yes (net && (c =? 12) && ((8 <=? d) && (d <=? 9)))
    else if num_clients =? 4 then yes (net && (c =? 12) && ((8 <=? d) && (d <=? 34)))
    else if num_clients =? 8 then yes (net && (c =? 12) && ((8 <=? d) && (d <=? 50)))
    else if num_clients =? 16 then yes (net && (c =? 12) && ((8 <=? d) && (d <=? 110)))
    else if num_clients =? 32 then yes (net && (c =? 12) && ((8 <=? d) && (d <=? 164)))
    else if num_clients =? 64 then yes ((net && (c =? 12)) || (net && (c =? 13) && ((11 <=? d) && (d <=? 50))))
    else if num_clients =? 128 then yes ((net && (c =? 12)) || (net && (c =? 13)) || (net && (c =? 14)))
    else if num_clients =? 256 then
      yes ((net && (c =? 12)) || (net && (c =? 13)) || (net && (c =? 14)) || (net && (c =? 15)) || (net && (c =? 16)) ||
           (net && (c =? 17)) || (net && (c =? 19)))
    else if num_clients =? 512 then yes (net && ((12 <=? c) && (c <=? 24)))
    else if num_clients =? 1024 then yes (net && ((10 <=? c) && (c <=? 29)))
    else if num_clients =? 2048 then yes (net && ((10 <=? c) && (c <=? 41)))
    else if num_clients =? 4096 then yes (net && ((10 <=? c) && (c <=? 78)))
    else if num_clients =? 8192 then yes net
    else Exit 1.

Definition netsend_body (num_clients : Z) (e : lf_entry) : M (Z * list io) lf_entry := λ '(j, targets),
  let j := if j =? 5000 then 0 else j + 1 in
  keep ← filter_clients num_clients e;
  if negb (keep =? 0) then
    targets ← mapM (λ fd, '(_, fd) ← lf_write_fd e fd; Ret fd) targets;
    Ret (e, (j, targets))
  else Ret (e, (j, targets)).

(** ** [sep_clients] *)

Definition CLIENT_BLOCK_SIZE : nat := Z.to_nat 5000.

(** [sanitycheck(entry)] of sep_clients.c, on the URL as a C string. *)
Definition sep_sanitycheck (e : lf_entry) (u : bytes) : bool :=
  negb (bool_decide (u = bytes_of "-") || (length u <? 4)%nat || (sip e =? 4294967295) || (spt e =? 65535)
    || negb (starts (bytes_of "GET ") u || starts (bytes_of "POST ") u || starts (bytes_of "HEAD ") u || starts (bytes_of "PUT ") u)).

(** The name of the file of a client, [a.b.c/d]. *)
Definition client_file (cip : Z) : option bytes :=
  match strtok_tokens (bytes_of ".") (lf_ntoa (htonl cip)) with
  | a :: b :: c :: d :: _ => Some (a ++ bytes_of "." ++ b ++ bytes_of "." ++ c ++ bytes_of "/" ++ d)
  | _ => None
  end.

(** The files, by their names; [can_open] says whether a file can be opened
    for appending, its directory made if need be. *)
Abbreviation files := (gmap (list Z) (list Z)).
Definition append (name b : bytes) (fs : files) : files := <[name := default [] (fs !! name) ++ b]> fs.

Section sep.
Context (malloc_ok : nat → bool) (junk : byte) (can_open : bytes → bool).

(** Fills up to [n] slots of the array; [slot] is what is in them. *)
Fixpoint read_block (n : nat) (slot : lf_entry) : IO (list lf_entry) :=
  match n with
  | O => mret []
  | S n' =>
      '(ret, e) ← lf_get_next_entry malloc_ok junk 0 slot;
      if negb (ret =? 0) then if ret =? 1 then mret [] else exit 1
      else es ← read_block n' slot; mret (e :: es)
  end.

(** The inner loop, over the slots from [j] on: what is written, and the
    slots afterwards. *)
Fixpoint write_client (client : Z) (l : list lf_entry) : outcome (list lf_entry * bytes) :=
  match l with
  | [] => Ret ([], [])
  | u :: l' =>
      if (cip u =? client) && (match url u with Some _ => true | None => false end) then
        '(_, b) ← lf_write u;
        '(l', bs) ← write_client client l';
        Ret (set_url None u :: l', b ++ bs)
      else '(l', bs) ← write_client client l'; Ret (u :: l', bs)
  end.

(** The loop over [j], on the slots from [j] on: the ones before are not read
    again.  The fuel is their number. *)
Fixpoint process_block (fuel : nat) (l : list lf_entry) : M files () :=
  match fuel, l with
  | _, [] => mret ()
  | O, _ => stuck
  | S fuel', t :: rest =>
      match url t with
      | None => process_block fuel' rest
      | Some u =>
          if negb (sep_sanitycheck t (c_str u)) then process_block fuel' rest
          else
            name ← deref (client_file (cip t));
            if negb (can_open name) then exit 1
            else
              λ fs, '(l', b) ← write_client (cip t) l; process_block fuel' (tail l') (append name b fs)
      end
  end.

(** One block; whether it is the last. *)
Definition sep_turn (size : nat) (slot : lf_entry) : M (io * files) bool :=
  l ← on_in (read_block size slot);
  _ ← on_tool (process_block (length l) l);
  mret (negb (bool_decide (length l = size))).
Fixpoint sep_main (fuel : nat) (size : nat) (slot : lf_entry) : M (io * files) () :=
  match fuel with
  | O => stuck
  | S fuel' => done ← sep_turn size slot; if (done : bool) then exit 0 else sep_main fuel' size slot
  end.
(** The first [n] blocks. *)
Fixpoint sep_turns (n : nat) (size : nat) (slot : lf_entry) : M (io * files) bool :=
  match n with
  | O => mret false
  | S n' => done ← sep_turn size slot; if (done : bool) then mret true else sep_turns n' size slot
  end.
End sep.

(** *** What is stored *)

Definition stored_bytes (l : list lf_entry) : bytes := mjoin (map (λ e, lf_block e ++ default [] (url e)) l).
Definition is_live (e : lf_entry) : bool := match url e with Some _ => true | None => false end.
Definition sep_sane (e : lf_entry) : bool := match url e with Some u => sep_sanitycheck e (c_str u) | None => false end.
Fixpoint drop_until {A} (p : A → bool) (l : list A) : list A :=
  match l with [] => [] | x :: l' => if p x then l else drop_until p l' end.
(** The records of a block that go to the file of a client: all of its records
    from its first sane one on. *)
Definition from_client (c : Z) (l : list lf_entry) : list lf_entry :=
  drop_until sep_sane (List.filter (λ e, (cip e =? c) && is_live e) l).
Definition storable (e : lf_entry) : Prop := match url e with Some u => htons (urllen e) = Z.of_nat (length u) | None => True end.
(** A trace in blocks: full ones, then a shorter one. *)
Fixpoint blocks {A} (fuel size : nat) (l : list A) : list (list A) :=
  match fuel with
  | O => []
  | S fuel' => if (length l <? size)%nat then [l] else take size l :: blocks fuel' size (drop size l)
  end.

(** ** Lemmas: the loop *)

Section loop.
Context (malloc_ok : nat → bool) (Hmalloc : ∀ n, malloc_ok n = true) (junk : byte) {T : Type} (body : lf_entry → M T lf_entry).

(** The body leaves the URL where it is. *)
Definition keeps_url : Prop := ∀ e t e' t', body e t = Ret (e', t') → is_Some (url e) → is_Some (url e').

Lemma main_turn_ok u e e0 k w t t' e' rest : entry_wf 0 u e → input w = lf_block e ++ u ++ rest → ready (send_size u + k) w →
  body e t = Ret (e', t') → is_Some (url e') →
  ∃ w', main_turn malloc_ok junk body e0 (w, t) = Ret (set_url None e', (w', t')) ∧ input w' = rest ∧ ready k w'.
Proof.
  intros He Hin Hr Hb [u' Hu']. destruct (lf_get_next_entry_ok malloc_ok Hmalloc junk 0 u e e0 k w rest He Hin Hr) as (w'&Hg&Hi&_&Hr').
  exists w'. split; [|done]. unfold main_turn.
  assert (H1 : on_in (lf_get_next_entry malloc_ok junk 0 e0) (w, t) = Ret ((0, e), (w', t))) by (unfold on_in; by rewrite Hg).
  rewrite (bind_ret _ _ _ _ _ H1). change (negb (0 =? 0)) with false. cbn iota.
  assert (H2 : on_tool (body e) (w', t) = Ret (e', (w', t'))) by (unfold on_tool; by rewrite Hb).
  rewrite (bind_ret _ _ _ _ _ H2). by rewrite Hu'.
Qed.

Lemma main_turns_ok us es : keeps_url → Forall2 (entry_wf 0) us es → ∀ e0 w t t', input w = image us es → ready (urls_size us + 1) w →
  run_body body es t = Ret ((), t') →
  ∃ e' w', main_turns malloc_ok junk (length es) body e0 (w, t) = Ret (e', (w', t')) ∧ input w' = [] ∧ ready 1 w'.
Proof.
  intros Hk Hwf. induction Hwf as [|u e us es He Hwf IH]; intros e0 w t t' Hin Hr Hb; cbn [run_body] in Hb.
  { injection Hb as <-. by exists e0, w. }
  apply bind_ret_inv in Hb as (e1&t1&Hb1&Hb).
  change (input w = (lf_block e ++ u) ++ image us es) in Hin. rewrite <-app_assoc in Hin.
  destruct (main_turn_ok u e e0 (urls_size us + 1) w t t1 e1 (image us es)) as (w1&H1&Hi1&Hr1); try done.
  { eapply ready_le; [exact Hr|]. cbn [urls_size foldr]. fold (urls_size us). lia. }
  { eapply Hk; [done|]. destruct He as [_ _ _ _ Hu _ _]. by rewrite Hu. }
  cbn [length main_turns]. rewrite (bind_ret _ _ _ _ _ H1). by apply IH.
Qed.

Lemma main_loop_turns n : ∀ fuel e s e' s', main_turns malloc_ok junk n body e s = Ret (e', s') →
  main_loop malloc_ok junk (n + fuel) body e s = main_loop malloc_ok junk fuel body e' s'.
Proof.
  induction n as [|n IH]; intros fuel e s e' s' Ht; cbn [main_turns] in Ht; [by injection Ht as <- <-|].
  apply bind_ret_inv in Ht as (e1&s1&H1&Ht). cbn [plus main_loop]. rewrite (bind_ret _ _ _ _ _ H1). by apply IH.
Qed.

(** A tool reads a trace to its end and leaves with 0. *)
Lemma main_loop_ends us es e0 w t t' fuel : keeps_url → Forall2 (entry_wf 0) us es → input w = image us es → ready (urls_size us + 1) w →
  run_body body es t = Ret ((), t') → (length es < fuel)%nat → main_loop malloc_ok junk fuel body e0 (w, t) = Exit 0.
Proof.
  intros Hk Hwf Hin Hr Hb Hf. destruct (main_turns_ok us es Hk Hwf e0 w t t' Hin Hr Hb) as (e'&w'&Ht&Hi&Hr').
  replace fuel with (length es + S (fuel - length es - 1))%nat by lia. rewrite (main_loop_turns _ _ _ _ _ _ Ht).
  destruct (lf_get_next_entry_end malloc_ok junk 0 e' w' Hi Hr') as (w2&Hg).
  cbn [main_loop]. unfold main_turn, mbind, M_mbind, on_in. by rewrite Hg.
Qed.
End loop.

(** ** Lemmas: [netsend] *)

Definition populations : list Z := [1; 2; 4; 8; 16; 32; 64; 128; 256; 512; 1024; 2048; 4096; 8192].
(** The records that the code lets through. *)
Definition chosen (num_clients : Z) (e : lf_entry) : bool :=
  match filter_clients num_clients e with Ret k => negb (k =? 0) | _ => false end.
(** The part of a trace that is sent, URLs and records. *)
Definition chosen_of (num_clients : Z) (us : list bytes) (es : list lf_entry) : list bytes * list lf_entry :=
  let xs := List.filter (λ x : bytes * lf_entry, chosen num_clients x.2) (zip us es) in (xs.*1, xs.*2).

Lemma filter_clients_ret num e : num ∈ populations → ∃ b : bool, filter_clients num e = Ret (if b then 1 else 0).
Proof.
  intros Hn. unfold filter_clients. destruct (_ || _); [by exists false|]. unfold populations in Hn. rewrite !elem_of_cons in Hn.
  repeat (destruct Hn as [->|Hn]; [by eexists|]). by apply elem_of_nil in Hn.
Qed.

Lemma chosen_ret num e : num ∈ populations → filter_clients num e = Ret (if chosen num e then 1 else 0).
Proof. intros Hn. unfold chosen. destruct (filter_clients_ret num e Hn) as [[] ->]; done. Qed.

Lemma send_all u e n ts : entry_wf 0 u e → Forall (ready (send_size u + n)) ts →
  ∃ ts', mapM (λ fd, '(_, fd) ← lf_write_fd e fd; Ret fd) ts = Ret ts' ∧
    Forall2 (λ t t', wire t' = wire t ++ lf_block e ++ u) ts ts' ∧ Forall (ready n) ts'.
Proof.
  intros He. induction 1 as [|t ts Ht _ (ts'&Hm&Hw&Hr)]; [by exists []|].
  destruct (lf_write_fd_ok 0 u e n t He Ht) as (t'&H1&Hw1&_&Hr1). exists (t' :: ts'). cbn [mapM]. rewrite H1. cbn [mbind outcome_mbind]. rewrite Hm.
  cbn. split; [done|]. split; [by constructor|by constructor].
Qed.

Lemma netsend_body_eq num e j ts : num ∈ populations → netsend_body num e (j, ts) =
  let j1 := if j =? 5000 then 0 else j + 1 in
  if chosen num e then ts' ← mapM (λ fd, '(_, fd) ← lf_write_fd e fd; Ret fd) ts; Ret (e, (j1, ts')) else Ret (e, (j1, ts)).
Proof. intros Hn. unfold netsend_body. rewrite (chosen_ret num e Hn). by destruct (chosen num e). Qed.

Lemma netsend_run num us es : num ∈ populations → Forall2 (entry_wf 0) us es → ∀ j ts, Forall (ready (urls_size us)) ts →
  ∃ j' ts', run_body (netsend_body num) es (j, ts) = Ret ((), (j', ts')) ∧
    Forall2 (λ t t', wire t' = wire t ++ image (chosen_of num us es).1 (chosen_of num us es).2) ts ts'.
Proof.
  intros Hn. induction 1 as [|u e us es He _ IH]; intros j ts Hr.
  { exists j, ts. split; [done|]. apply Forall_Forall2_diag, Forall_true. intros t. by rewrite app_nil_r. }
  cbn [run_body]. set (j1 := if j =? 5000 then 0 else j + 1).
  cbn [urls_size foldr] in Hr. fold (urls_size us) in Hr. unfold chosen_of. cbn [zip zip_with List.filter snd].
  destruct (chosen num e) eqn:Hc.
  - destruct (send_all u e (urls_size us) ts He) as (ts1&Hm&Hw1&Hr1); [done|].
    destruct (IH j1 ts1 Hr1) as (j'&ts'&Hrun&Hw). exists j', ts'. split.
    + unfold mbind, M_mbind. rewrite netsend_body_eq by done. by rewrite Hc, Hm.
    + clear -Hw1 Hw. revert ts' Hw. induction Hw1 as [|t t1 ts ts1 Ht _ IH2]; intros ts' Hw; apply Forall2_cons_inv_l in Hw || apply Forall2_nil_inv_l in Hw.
      * subst. constructor.
      * destruct Hw as (t'&ts2&Hw&Hw2&->). constructor; [|by apply IH2]. by rewrite Hw, Ht, <-!app_assoc.
  - destruct (IH j1 ts) as (j'&ts'&Hrun&Hw).
    { eapply Forall_impl; [exact Hr|]. intros t Ht. eapply ready_le; [exact Ht|lia]. }
    exists j', ts'. split; [|done]. unfold mbind, M_mbind. rewrite netsend_body_eq by done. by rewrite Hc.
Qed.

Lemma netsend_keeps_url num : keeps_url (netsend_body num).
Proof.
  intros e [j ts] e' t' Hb Hu. unfold netsend_body in Hb. destruct (filter_clients num e); try done. cbn in Hb.
  destruct (negb _); [|by injection Hb as <- _]. destruct (mapM _ ts); try done. cbn in Hb. by injection Hb as <- _.
Qed.

Lemma chosen_wf num us es : Forall2 (entry_wf 0) us es → Forall2 (entry_wf 0) (chosen_of num us es).1 (chosen_of num us es).2.
Proof.
  induction 1 as [|u e us es He _ IH]; [constructor|]. unfold chosen_of in *. cbn [zip zip_with List.filter snd fst].
  destruct (chosen num e); [|exact IH]. by constructor.
Qed.

(** A reader that keeps the records. *)
Definition collect (e : lf_entry) : M (list lf_entry) lf_entry := λ l, Ret (e, l ++ [e]).
Lemma collect_run es : ∀ l, run_body collect es l = Ret ((), l ++ es).
Proof. induction es as [|e es IH]; intros l; cbn; [by rewrite app_nil_r|]. unfold mbind, M_mbind, collect at 1. rewrite IH, <-app_assoc. done. Qed.
Lemma collect_keeps_url : keeps_url collect.
Proof. intros e t e' t' [= <- _]. done. Qed.

(** ** Lemmas: [sep_clients] *)

Lemma dec_digits n : 0 <= n → dec n ≠ [] ∧ forallb isdigit (dec n) = true.
Proof.
  intros Hn. unfold dec. rewrite (proj2 (Z.ltb_ge n 0) Hn).
  destruct (dec_loop_spec (Z.to_nat (Z.log2 n)) n []) as (c & ds & -> & Hd & _).
  { split; [lia|]. rewrite Nat2Z.inj_succ, Z2Nat.id by apply Z.log2_nonneg.
    destruct (Z.eq_dec n 0) as [->|]; [done|]. apply Z.log2_spec. lia. }
  by rewrite app_nil_r.
Qed.

Lemma dec_no_dot n : 0 <= n → forallb (λ c, negb (is_in (bytes_of ".") c)) (dec n) = true.
Proof.
  intros Hn. destruct (dec_digits n Hn) as [_ Hd]. rewrite forallb_forall in Hd |- *. intros c Hc. specialize (Hd c Hc).
  unfold isdigit in Hd. change (is_in (bytes_of ".") c) with ((c =? 46) || false). rewrite (proj2 (Z.eqb_neq c 46)) by lia. done.
Qed.

(** The four numbers of an address. *)
Definition quad_of (a : Z) : list Z := [Z.shiftr a 24; Z.shiftr a 16 mod 256; Z.shiftr a 8 mod 256; a mod 256].

Lemma ntoa_tokens a : 0 <= a → strtok_tokens (bytes_of ".") (lf_ntoa a) = map dec (quad_of a).
Proof.
  intros Ha. assert (Hq : Forall (λ x, 0 <= x) (quad_of a)).
  { unfold quad_of. repeat (apply Forall_cons; split); try (apply Z.mod_pos_bound; lia); [|constructor]. by apply Z.shiftr_nonneg. }
  unfold quad_of, lf_ntoa in *. repeat match goal with H : Forall _ (_ :: _) |- _ => apply Forall_cons in H as [? H] end.
  unfold strtok_tokens. change [46] with (bytes_of "."). cbn [map].
  assert (Hnil : ∀ n, 0 <= n → dec n ≠ []) by (intros n Hn; by apply dec_digits).
  assert (Hf : ∀ n s, 0 <= n → fields (is_in (bytes_of ".")) (dec n ++ bytes_of "." ++ s) = dec n :: fields (is_in (bytes_of ".")) s).
  { intros n s Hn. by rewrite fields_nondelims by (done || by apply dec_no_dot). }
  rewrite !Hf by done. rewrite <-(app_nil_r (dec (a mod 256))), fields_nondelims by (done || by apply dec_no_dot).
  rewrite !filter_cons_True by (by apply Hnil). rewrite app_nil_r. by rewrite filter_nil.
Qed.

Lemma client_file_eq c : 0 <= c < 2 ^ 32 → client_file c = Some (
  let a := htonl c in dec (Z.shiftr a 24) ++ bytes_of "." ++ dec (Z.shiftr a 16 mod 256) ++ bytes_of "." ++
    dec (Z.shiftr a 8 mod 256) ++ bytes_of "/" ++ dec (a mod 256)).
Proof. intros Hc. unfold client_file. rewrite ntoa_tokens by apply (htonl_htonl c Hc). done. Qed.

(** Printed numbers before a character that is no digit can be told apart. *)
Lemma dec_sep n m x r r' : 0 <= n → 0 <= m → isdigit x = false → dec n ++ x :: r = dec m ++ x :: r' → n = m ∧ r = r'.
Proof.
  intros Hn Hm Hx He. assert (n = m) as ->.
  { rewrite <-(atoi_dec n (x :: r) Hn Hx), <-(atoi_dec m (x :: r') Hm Hx). by rewrite He. }
  apply app_inv_head in He. by injection He.
Qed.

(** Different clients have different files. *)
Lemma client_file_inj c c' : 0 <= c < 2 ^ 32 → 0 <= c' < 2 ^ 32 → client_file c = client_file c' → c = c'.
Proof.
  intros Hc Hc'. rewrite !client_file_eq by done. cbn zeta. destruct (htonl_htonl c Hc) as [Hi Hr], (htonl_htonl c' Hc') as [Hi' Hr'].
  intros He%(inj Some). rewrite <-Hi, <-Hi'. f_equal. revert He Hr Hr'. generalize (htonl c) (htonl c'). clear. intros a b He Ha Hb.
  assert (Hnn : ∀ z, 0 <= z mod 256) by (intros; apply Z.mod_pos_bound; lia).
  assert (Ha4 : 0 <= Z.shiftr a 24) by (apply Z.shiftr_nonneg; lia). assert (Hb4 : 0 <= Z.shiftr b 24) by (apply Z.shiftr_nonneg; lia).
  apply dec_sep in He as [H1 He]; [|done|done|done]. apply dec_sep in He as [H2 He]; [|apply Hnn|apply Hnn|done].
  apply dec_sep in He as [H3 He]; [|apply Hnn|apply Hnn|done].
  assert (H4 : a mod 256 = b mod 256).
  { rewrite <-(atoi_dec (a mod 256) []), <-(atoi_dec (b mod 256) []) by (done || apply Hnn). by rewrite !app_nil_r, He. }
  rewrite !Z.shiftr_div_pow2 in * by lia. change (2 ^ 24) with 16777216 in *. change (2 ^ 16) with 65536 in *. change (2 ^ 8) with 256 in *.
  rewrite (Z.div_mod a 256), (Z.div_mod b 256), H4 by lia. do 2 f_equal.
  rewrite (Z.div_mod (a / 256) 256), (Z.div_mod (b / 256) 256), H3, !Z.div_div by lia. do 2 f_equal.
  change (256 * 256) with 65536. rewrite (Z.div_mod (a / 65536) 256), (Z.div_mod (b / 65536) 256), H2, !Z.div_div by lia. do 2 f_equal. exact H1.
Qed.

Lemma lf_write_stored e u : url e = Some u → storable e → ∃ r, lf_write e = Ret (r, lf_block e ++ u).
Proof.
  intros Hu Hs. unfold storable in Hs. unfold lf_write. rewrite Hu, Hs in *. rewrite (proj2 (Z.leb_le _ _)) by lia.
  eexists. rewrite Nat2Z.id, take_app_length. done.
Qed.

(** The slots of a client after its records have been written. *)
Definition taken (c : Z) (e : lf_entry) : lf_entry := if (cip e =? c) && is_live e then set_url None e else e.

Lemma write_client_ok c l : Forall storable l →
  write_client c l = Ret (map (taken c) l, stored_bytes (List.filter (λ e, (cip e =? c) && is_live e) l)).
Proof.
  induction 1 as [|e l He _ IH]; [done|]. cbn [write_client map List.filter]. unfold taken at 1.
  change (match url e with Some _ => true | None => false end) with (is_live e).
  destruct ((cip e =? c) && is_live e) eqn:Hc; [|by rewrite IH].
  apply andb_true_iff in Hc as [_ Hl]. unfold is_live in Hl. destruct (url e) as [u|] eqn:Hu; [|done].
  destruct (lf_write_stored e u Hu He) as (r&Hw). rewrite Hw. cbn [mbind outcome_mbind]. rewrite IH. cbn [mbind outcome_mbind].
  unfold stored_bytes. cbn [map mjoin list_join]. by rewrite Hu.
Qed.

Lemma filter_taken_same c l : List.filter (λ e, (cip e =? c) && is_live e) (map (taken c) l) = [].
Proof.
  induction l as [|e l IH]; [done|]. cbn [map List.filter]. unfold taken at 1 2 3.
  destruct ((cip e =? c) && is_live e) eqn:Hc; [|by rewrite Hc]. cbn. by rewrite andb_false_r.
Qed.

Lemma filter_taken_other c c' l : c' ≠ c → List.filter (λ e, (cip e =? c') && is_live e) (map (taken c) l) = List.filter (λ e, (cip e =? c') && is_live e) l.
Proof.
  intros Hne. induction l as [|e l IH]; [done|]. cbn [map List.filter]. unfold taken at 1 2 3. destruct (Z.eqb_spec (cip e) c) as [Heq|]; cbn [andb].
  - assert (Hc : (cip e =? c') = false) by (apply Z.eqb_neq; congruence). destruct (is_live e); cbn [cip set_url]; rewrite !Hc; cbn [andb]; exact IH.
  - by rewrite IH.
Qed.

Lemma from_client_head e l : sep_sane e = true → from_client (cip e) (e :: l) = List.filter (λ x, (cip x =? cip e) && is_live x) (e :: l).
Proof.
  intros Hs. unfold from_client. cbn [List.filter]. assert (Hl : is_live e = true) by (unfold sep_sane, is_live in *; by destruct (url e)).
  rewrite Z.eqb_refl, Hl. cbn [andb drop_until]. by rewrite Hs.
Qed.

Lemma from_client_skip c e l : sep_sane e = false → from_client c (e :: l) = from_client c l.
Proof. intros Hs. unfold from_client. cbn [List.filter]. destruct (_ && _); [|done]. cbn [drop_until]. by rewrite Hs. Qed.

Lemma from_client_ne c e l : cip e ≠ c → from_client c (e :: l) = from_client c l.
Proof. intros Hne. unfold from_client. cbn [List.filter]. by rewrite (proj2 (Z.eqb_neq _ c)) by done. Qed.

Lemma append_eq (name b : bytes) (fs : files) : default [] (append name b fs !! name) = default [] (fs !! name) ++ b.
Proof. unfold append. by rewrite lookup_insert_eq. Qed.
Lemma append_ne (name name' b : bytes) (fs : files) : name ≠ name' → append name b fs !! name' = fs !! name'.
Proof. intros. unfold append. by rewrite lookup_insert_ne. Qed.

(** What the file of a client holds. *)
Definition file_of (c : Z) (fs : files) : bytes := default [] (f ← client_file c; fs !! f).

Section blocks.
Context (can_open : bytes → bool) (Hopen : ∀ f, can_open f = true).

Lemma file_of_append c c' f b fs : 0 <= c < 2 ^ 32 → 0 <= c' < 2 ^ 32 → client_file c = Some f →
  file_of c' (append f b fs) = file_of c' fs ++ (if c' =? c then b else []).
Proof.
  intros Hc Hc' Hf. unfold file_of. destruct (Z.eqb_spec c' c) as [->|Hne].
  - rewrite Hf. apply append_eq.
  - rewrite app_nil_r. destruct (client_file c') as [f'|] eqn:Hf'; [|done]. cbn [mbind option_bind].
    rewrite append_ne; [done|]. intros ->. apply Hne, client_file_inj; [done..|congruence].
Qed.

Lemma process_block_ok fuel : ∀ l fs, (length l <= fuel)%nat → Forall storable l → Forall (λ e, 0 <= cip e < 2 ^ 32) l →
  ∃ fs', process_block can_open fuel l fs = Ret ((), fs') ∧ ∀ c, 0 <= c < 2 ^ 32 → file_of c fs' = file_of c fs ++ stored_bytes (from_client c l).
Proof.
  induction fuel as [|fuel IH]; intros [|t l] fs Hf Hs Hc; try (cbn in Hf; lia).
  - exists fs. split; [done|]. intros c _. cbn. by rewrite app_nil_r.
  - exists fs. split; [done|]. intros c _. cbn. by rewrite app_nil_r.
  - cbn [length] in Hf. apply Forall_cons in Hs as [Hst Hs]. apply Forall_cons in Hc as [Hct Hc]. cbn [process_block].
    destruct (sep_sane t) eqn:Hsane.
    + pose proof Hsane as Hsane'. unfold sep_sane in Hsane. destruct (url t) as [u|] eqn:Hu; [|done]. rewrite Hsane. cbn [negb].
      assert (Hcf := client_file_eq _ Hct). destruct (client_file (cip t)) as [f|] eqn:Hname; [|done]. clear Hcf.
      cbn [deref]. rewrite mret_bind, Hopen. cbn [negb]. rewrite write_client_ok by (by apply Forall_cons). cbn [mbind outcome_mbind map tail].
      destruct (IH (map (taken (cip t)) l) (append f (stored_bytes (List.filter (λ e, (cip e =? cip t) && is_live e) (t :: l))) fs)) as (fs'&Hrun&Hfs).
      { rewrite length_map. lia. }
      { apply Forall_map. eapply Forall_impl; [exact Hs|]. intros e He. cbn. unfold taken. by destruct (_ && _). }
      { apply Forall_map. eapply Forall_impl; [exact Hc|]. intros e He. cbn. unfold taken. by destruct (_ && _). }
      exists fs'. split; [exact Hrun|]. intros c Hcr. rewrite (Hfs c Hcr), (file_of_append (cip t)) by done.
      destruct (Z.eqb_spec c (cip t)) as [->|Hne].
      * rewrite from_client_head by done. unfold from_client at 1. rewrite filter_taken_same. cbn [drop_until].
        unfold stored_bytes at 2. cbn. by rewrite app_nil_r.
      * rewrite app_nil_r, from_client_ne by congruence. unfold from_client. by rewrite filter_taken_other.
    + destruct (IH l fs) as (fs'&Hrun&Hfs); [lia|done|done|]. exists fs'.
      assert (Hgo : ∀ c, from_client c (t :: l) = from_client c l) by (intros c; by apply from_client_skip).
      unfold sep_sane in Hsane. destruct (url t) as [u|] eqn:Hu; [rewrite Hsane; cbn [negb]|];
        (split; [exact Hrun|]; intros c Hcr; by rewrite Hfs, Hgo).
Qed.
End blocks.

Section reading.
Context (malloc_ok : nat → bool) (Hmalloc : ∀ n, malloc_ok n = true) (junk : byte) (slot : lf_entry).

Lemma read_block_full us es : Forall2 (entry_wf 0) us es → ∀ w k rest, input w = image us es ++ rest → ready (urls_size us + k) w →
  ∃ w', read_block malloc_ok junk (length es) slot w = Ret (es, w') ∧ input w' = rest ∧ ready k w'.
Proof.
  induction 1 as [|u e us es He _ IH]; intros w k rest Hin Hr; [by exists w|].
  change (input w = ((lf_block e ++ u) ++ image us es) ++ rest) in Hin. rewrite <-!app_assoc in Hin.
  destruct (lf_get_next_entry_ok malloc_ok Hmalloc junk 0 u e slot (urls_size us + k) w (image us es ++ rest) He Hin) as (w1&H1&Hi1&_&Hr1).
  { eapply ready_le; [exact Hr|]. cbn [urls_size foldr]. fold (urls_size us). lia. }
  destruct (IH w1 k rest Hi1 Hr1) as (w2&H2&?&?). exists w2. split; [|done]. cbn [length read_block].
  rewrite (bind_ret _ _ _ _ _ H1). change (negb (0 =? 0)) with false. cbn iota. by rewrite (bind_ret _ _ _ _ _ H2).
Qed.

Lemma read_block_short us es : Forall2 (entry_wf 0) us es → ∀ w n, (length es < n)%nat → input w = image us es → ready (urls_size us + 1) w →
  ∃ w', read_block malloc_ok junk n slot w = Ret (es, w').
Proof.
  induction 1 as [|u e us es He _ IH]; intros w [|n] Hn Hin Hr; try (cbn in Hn; lia).
  - destruct (lf_get_next_entry_end malloc_ok junk 0 slot w Hin Hr) as (w'&Hg). exists w'. cbn [read_block]. by rewrite (bind_ret _ _ _ _ _ Hg).
  - change (input w = (lf_block e ++ u) ++ image us es) in Hin. rewrite <-app_assoc in Hin.
    destruct (lf_get_next_entry_ok malloc_ok Hmalloc junk 0 u e slot (urls_size us + 1) w (image us es) He Hin) as (w1&H1&Hi1&_&Hr1).
    { eapply ready_le; [exact Hr|]. cbn [urls_size foldr]. fold (urls_size us). lia. }
    cbn in Hn. destruct (IH w1 n) as (w2&H2); [lia|done..|]. exists w2. cbn [read_block].
    rewrite (bind_ret _ _ _ _ _ H1). change (negb (0 =? 0)) with false. cbn iota. by rewrite (bind_ret _ _ _ _ _ H2).
Qed.
End reading.

Section separating.
Context (malloc_ok : nat → bool) (Hmalloc : ∀ n, malloc_ok n = true) (junk : byte) (slot : lf_entry).
Context (can_open : bytes → bool) (Hopen : ∀ f, can_open f = true).
Context (size : nat) (Hsize : (0 < size)%nat).
Abbreviation turn := (sep_turn malloc_ok junk can_open size slot).

Lemma wf_storable us es : Forall2 (entry_wf 0) us es → Forall storable es ∧ Forall (λ e, 0 <= cip e < 2 ^ 32) es.
Proof.
  induction 1 as [|u e us es He _ [IH1 IH2]]; [by split|]. pose proof (proj2 (entry_urllen _ _ _ He)) as Hul. destruct He as [_ H32 _ _ Hu _ _].
  split; apply Forall_cons; split; try done.
  - unfold storable. by rewrite Hu.
  - do 6 apply Forall_cons in H32 as [_ H32]. by apply Forall_cons in H32 as [? _].
Qed.

(** One block that has been read. *)
Lemma turn_read l w w' fs : read_block malloc_ok junk size slot w = Ret (l, w') → Forall storable l → Forall (λ e, 0 <= cip e < 2 ^ 32) l →
  ∃ fs', turn (w, fs) = Ret (negb (bool_decide (length l = size)), (w', fs')) ∧
    ∀ c, 0 <= c < 2 ^ 32 → file_of c fs' = file_of c fs ++ stored_bytes (from_client c l).
Proof.
  intros Hrd Hs Hc. destruct (process_block_ok can_open Hopen (length l) l fs (le_n _) Hs Hc) as (fs'&Hp&Hfs). exists fs'. split; [|done].
  unfold sep_turn. assert (H1 : on_in (T := files) (read_block malloc_ok junk size slot) (w, fs) = Ret (l, (w', fs))) by (unfold on_in; by rewrite Hrd).
  rewrite (bind_ret _ _ _ _ _ H1).
  assert (H2 : on_tool (process_block can_open (length l) l) (w', fs) = Ret ((), (w', fs'))) by (unfold on_tool; by rewrite Hp).
  by rewrite (bind_ret _ _ _ _ _ H2).
Qed.

Lemma sep_turns_ok n : ∀ us es w fs, (length es < n)%nat → Forall2 (entry_wf 0) us es → input w = image us es → ready (urls_size us + 1) w →
  ∃ w' fs', sep_turns malloc_ok junk can_open n size slot (w, fs) = Ret (true, (w', fs')) ∧
    (∀ fuel, (n <= fuel)%nat → sep_main malloc_ok junk can_open fuel size slot (w, fs) = Exit 0) ∧
    ∀ c, 0 <= c < 2 ^ 32 → file_of c fs' = file_of c fs ++ mjoin (map (λ l, stored_bytes (from_client c l)) (blocks n size es)).
Proof.
  induction n as [|n IH]; intros us es w fs Hn Hwf Hin Hr; [lia|]. cbn [sep_turns blocks].
  destruct (Nat.ltb_spec (length es) size) as [Hlt|Hge].
  - destruct (read_block_short malloc_ok Hmalloc junk slot us es Hwf w size Hlt Hin Hr) as (w'&Hrd). destruct (wf_storable us es Hwf) as [Hs Hc].
    destruct (turn_read es w w' fs Hrd Hs Hc) as (fs'&Ht&Hfs). rewrite bool_decide_false in Ht by lia. exists w', fs'.
    split; [by rewrite (bind_ret _ _ _ _ _ Ht)|]. split.
    + intros [|fuel] Hfuel; [lia|]. cbn [sep_main]. by rewrite (bind_ret _ _ _ _ _ Ht).
    + intros c Hcr. cbn [map mjoin list_join]. rewrite app_nil_r. by apply Hfs.
  - assert (Hlu : length us = length es) by (by eapply Forall2_length).
    assert (Hw1 : Forall2 (entry_wf 0) (take size us) (take size es)) by (by apply Forall2_take).
    assert (Hw2 : Forall2 (entry_wf 0) (drop size us) (drop size es)) by (by apply Forall2_drop).
    assert (Hlt : length (take size es) = size) by (rewrite length_take; lia).
    rewrite <-(take_drop size us), <-(take_drop size es), image_app in Hin by (rewrite !length_take; lia).
    destruct (read_block_full malloc_ok Hmalloc junk slot _ _ Hw1 w (urls_size (drop size us) + 1) _ Hin) as (w1&Hrd&Hi1&Hr1).
    { eapply ready_le; [exact Hr|]. rewrite <-(take_drop size us) at 3. rewrite urls_size_app. lia. }
    rewrite Hlt in Hrd. destruct (wf_storable _ _ Hw1) as [Hs Hc].
    destruct (turn_read _ w w1 fs Hrd Hs Hc) as (fs1&Ht&Hfs1). rewrite bool_decide_true in Ht by done. cbn [negb] in Ht.
    destruct (IH (drop size us) (drop size es) w1 fs1) as (w'&fs'&Hrun&Hexit&Hfs'); [rewrite length_drop; lia|done..|].
    exists w', fs'. split; [by rewrite (bind_ret _ _ _ _ _ Ht)|]. split.
    + intros [|fuel] Hfuel; [lia|]. cbn [sep_main]. rewrite (bind_ret _ _ _ _ _ Ht). apply Hexit. lia.
    + intros c Hcr. rewrite (Hfs' c Hcr), (Hfs1 c Hcr), <-app_assoc. done.
Qed.
End separating.

(** ** Theorems *)

Lemma lf_dump_ok e u : url e = Some u → lf_dump e = Ret (dump_line (lf_convert_order e) (c_str u), lf_convert_order (lf_convert_order e)).
Proof. intros Hu. unfold lf_dump. change (url (lf_convert_order e)) with (url e). by rewrite Hu. Qed.

(** [showtrace] prints the line of every record of a trace, in order, and
    leaves with 0 at its end. *)
Lemma showtrace_prints malloc_ok junk us es w e0 : (∀ n, malloc_ok n = true) → Forall2 (entry_wf 0) us es → input w = image us es → ready (urls_size us + 1) w →
  ∃ lines, Forall2 (λ e l, ∃ e', lf_dump e = Ret (l, e')) es lines ∧
    (∃ e' w', main_turns malloc_ok junk (length es) showtrace_body e0 (w, []) = Ret (e', (w', mjoin lines))) ∧
    ∀ fuel, (length es < fuel)%nat → main_loop malloc_ok junk fuel showtrace_body e0 (w, []) = Exit 0.
Proof.
  intros Hm Hwf Hin Hr. assert (Hk : keeps_url showtrace_body).
  { intros e t e' t' Hb [u Hu]. unfold showtrace_body in Hb. rewrite (lf_dump_ok e u Hu) in Hb. cbn [mbind outcome_mbind] in Hb.
    injection Hb as <- _. by exists u. }
  assert (Hrun : ∀ out, ∃ lines, Forall2 (λ e l, ∃ e', lf_dump e = Ret (l, e')) es lines ∧ run_body showtrace_body es out = Ret ((), out ++ mjoin lines)).
  { clear Hin Hr. induction Hwf as [|u e us es He _ IH]; intros out; [exists []; split; [constructor|]; cbn; by rewrite app_nil_r|].
    destruct He as [_ _ _ _ Hu _ _]. pose proof (lf_dump_ok e u Hu) as Hl. revert Hl. generalize (dump_line (lf_convert_order e) (c_str u)) as l.
    generalize (lf_convert_order (lf_convert_order e)) as e'. intros e' l Hl.
    destruct (IH (out ++ l)) as (lines&Hf&Hrun). exists (l :: lines). split; [constructor; eauto|]. cbn [run_body].
    assert (H1 : showtrace_body e out = Ret (e', out ++ l)) by (unfold showtrace_body; by rewrite Hl).
    rewrite (bind_ret _ _ _ _ _ H1), Hrun. cbn [mjoin list_join]. by rewrite app_assoc. }
  destruct (Hrun []) as (lines&Hf&Hb). exists lines. split; [done|].
  destruct (main_turns_ok malloc_ok Hm junk showtrace_body us es Hk Hwf e0 w [] (mjoin lines) Hin Hr Hb) as (e'&w'&Ht&_).
  split; [by exists e', w'|]. intros fuel Hf'. by apply (main_loop_ends malloc_ok Hm junk showtrace_body us es e0 w [] (mjoin lines)).
Qed.

(** The sets of clients of [netsend] grow with their number. *)
Lemma yes_true (x : bool) : match Ret (if x then 1 else 0) with Ret k => negb (k =? 0) | _ => false end = x.
Proof. by destruct x. Qed.

Lemma populations_step i n m e : populations !! i = Some n → populations !! S i = Some m → chosen n e = true → chosen m e = true.
Proof.
  unfold chosen, filter_clients. destruct (_ || _); [done|]. cbn zeta.
  generalize (u8 (Z.shiftr (htonl (cip e)) 24) =? 136), (u8 (Z.shiftr (htonl (cip e)) 16 mod 256) =? 152),
    (u8 (Z.shiftr (htonl (cip e)) 8 mod 256)), (u8 (htonl (cip e) mod 256)). intros a b c d.
  do 13 (destruct i as [|i]; [intros Hn Hm; injection Hn as <-; injection Hm as <-;
    repeat match goal with |- context [Zpos ?x =? Zpos ?y] => let v := eval vm_compute in (Zpos x =? Zpos y) in change (Zpos x =? Zpos y) with v end;
    cbn iota; rewrite !yes_true; destruct a, b; cbn [andb orb]; try discriminate; lia|]).
  intros _ Hm. discriminate Hm.
Qed.

Lemma populations_nested i j n m e : populations !! i = Some n → populations !! j = Some m → (i <= j)%nat → chosen n e = true → chosen m e = true.
Proof.
  intros Hi Hj Hij. revert m Hj. induction Hij as [|j Hij IH]; intros m Hj Hc; [congruence|].
  destruct (lookup_lt_is_Some_2 populations j) as [k Hk]; [apply lookup_lt_Some in Hj; lia|].
  eapply populations_step; [exact Hk|exact Hj|]. by apply IH.
Qed.

(** *** The clients that are simulated *)

(** The addresses of each population: intervals of the network 136.152. *)
Definition address (c d : Z) : Z := 136 * 2 ^ 24 + 152 * 2 ^ 16 + c * 2 ^ 8 + d.
Definition client_ranges (num : Z) : list (Z * Z) :=
  default [] (snd <$> find (λ r, r.1 =? num)
    [(1, [(address 12 8, address 12 8)]);
     (2, [(address 12 8, address 12 9)]);
     (4, [(address 12 8, address 12 34)]);
     (8, [(address 12 8, address 12 50)]);
     (16, [(address 12 8, address 12 110)]);
     (32, [(address 12 8, address 12 164)]);
     (64, [(address 12 0, address 12 255); (address 13 11, address 13 50)]);
     (128, [(address 12 0, address 14 255)]);
     (256, [(address 12 0, address 17 255); (address 19 0, address 19 255)]);
     (512, [(address 12 0, address 24 255)]);
     (1024, [(address 10 0, address 29 255)]);
     (2048, [(address 10 0, address 41 255)]);
     (4096, [(address 10 0, address 78 255)]);
     (8192, [(address 0 0, address 255 255)])]).
(** A record is simulated if its client is in the population and its lengths
    are known: unknown ones, and others above 10^8, are left out. *)
Definition simulated (num : Z) (e : lf_entry) : bool :=
  (htonl (rhl e) <=? 10 ^ 8) && (htonl (rdl e) <=? 10 ^ 8) &&
  existsb (λ r, (r.1 <=? htonl (cip e)) && (htonl (cip e) <=? r.2)) (client_ranges num).
Definition simulated_of (num : Z) (us : list bytes) (es : list lf_entry) : list bytes * list lf_entry :=
  let xs := List.filter (λ x : bytes * lf_entry, simulated num x.2) (zip us es) in (xs.*1, xs.*2).

Lemma address_between z1 z2 z3 z4 lo hi : 0 <= z2 < 256 → 0 <= z3 < 256 → 0 <= z4 < 256 → 0 <= lo → hi < 2 ^ 16 →
  (address 0 lo <=? 16777216 * z1 + 65536 * z2 + 256 * z3 + z4) && (16777216 * z1 + 65536 * z2 + 256 * z3 + z4 <=? address 0 hi) =
  (z1 =? 136) && (z2 =? 152) && ((lo <=? 256 * z3 + z4) && (256 * z3 + z4 <=? hi)).
Proof.
  intros. unfold address. change (2 ^ 24) with 16777216. change (2 ^ 16) with 65536 in *.
  apply eq_true_iff_eq. rewrite !andb_true_iff, !Z.leb_le, !Z.eqb_eq. lia.
Qed.

Lemma chosen_simulated num e : num ∈ populations → 0 <= cip e < 2 ^ 32 → chosen num e = simulated num e.
Proof.
  intros Hn Hc%htonl_htonl. destruct Hc as [_ Hc]. unfold chosen, simulated, filter_clients. set (x := htonl (cip e)) in *. change (10 ^ 8) with 100000000.
  destruct (Z.ltb_spec 100000000 (htonl (rdl e))) as [H1|H1], (Z.ltb_spec 100000000 (htonl (rhl e))) as [H2|H2]; cbn [orb];
    repeat first [rewrite (proj2 (Z.leb_gt _ _) H1)|rewrite (proj2 (Z.leb_gt _ _) H2)|rewrite (proj2 (Z.leb_le _ _) H1)|rewrite (proj2 (Z.leb_le _ _) H2)];
    cbn [andb]; rewrite ?andb_false_r; try done. cbn zeta.
  rewrite !Z.shiftr_div_pow2 by lia. change (2 ^ 24) with (256 * 256 * 256). change (2 ^ 16) with (256 * 256). change (2 ^ 8) with 256. rewrite <-!Z.div_div by lia.
  assert (∀ z, 0 <= z mod 256 < 256) as Hm by (intros z; apply Z.mod_pos_bound; lia). rewrite !(wrap_small 8 (_ mod 256)) by apply Hm.
  pose proof (Z.div_mod x 256 ltac:(lia)) as E0. pose proof (Z.div_mod (x / 256) 256 ltac:(lia)) as E1. pose proof (Z.div_mod (x / 256 / 256) 256 ltac:(lia)) as E2.
  pose proof (Hm x) as B0. pose proof (Hm (x / 256)) as B1. pose proof (Hm (x / 256 / 256)) as B2.
  assert (0 <= x / 256 / 256 / 256 < 256) as B3 by (rewrite !Z.div_div by lia; split; [apply Z.div_pos; lia|apply Z.div_lt_upper_bound; lia]).
  rewrite (wrap_small 8) by exact B3. clear Hm.
  generalize dependent (x mod 256). generalize dependent (x / 256 mod 256). generalize dependent (x / 256 / 256 mod 256). generalize dependent (x / 256 / 256 / 256).
  generalize dependent (x / 256 / 256). generalize dependent (x / 256). clearbody x. intros. clear H1 H2. unfold populations in Hn. rewrite !elem_of_cons in Hn.
  assert (x = 16777216 * z1 + 65536 * z2 + 256 * z3 + z4) as -> by lia. clear Hc E0 E1 E2.
  assert (∀ c1 d1 c2 d2, 0 <= c1 → 0 <= d1 → c2 < 256 → d2 < 256 →
    (address c1 d1 <=? 16777216 * z1 + 65536 * z2 + 256 * z3 + z4) && (16777216 * z1 + 65536 * z2 + 256 * z3 + z4 <=? address c2 d2) =
    (z1 =? 136) && (z2 =? 152) && ((256 * c1 + d1 <=? 256 * z3 + z4) && (256 * z3 + z4 <=? 256 * c2 + d2))) as Hb.
  { intros c1 d1 c2 d2 ????. rewrite <-address_between by lia. unfold address. do 2 f_equal; lia. }
  generalize dependent ((z1 =? 136) && (z2 =? 152)). intros net Hb. unfold client_ranges.
  repeat (destruct Hn as [->|Hn];
    [cbn [find fst snd];
     repeat match goal with |- context [Zpos ?x =? Zpos ?y] => let v := eval vm_compute in (Zpos x =? Zpos y) in change (Zpos x =? Zpos y) with v end;
     cbn [fmap option_fmap option_map default existsb from_option id fst snd]; cbn iota; rewrite ?Hb by lia; destruct net; cbn [andb orb]; rewrite ?yes_true; try done;
     apply eq_true_iff_eq; rewrite ?orb_true_iff, ?andb_true_iff, ?Z.leb_le, ?Z.eqb_eq; lia|]).
  by apply elem_of_nil in Hn.
Qed.

Lemma chosen_simulated_of num us es : num ∈ populations → Forall2 (entry_wf 0) us es → chosen_of num us es = simulated_of num us es.
Proof.
  intros Hn Hwf. unfold chosen_of, simulated_of.
  assert (List.filter (λ x : bytes * lf_entry, chosen num x.2) (zip us es) = List.filter (λ x : bytes * lf_entry, simulated num x.2) (zip us es)) as ->; [|done].
  induction Hwf as [|u e us es He _ IH]; [done|]. cbn [zip zip_with List.filter snd]. rewrite IH, chosen_simulated; [done|done|].
  pose proof (ew_32 _ _ _ He) as H. rewrite Forall_forall in H. apply H. do 6 right. left.
Qed.

(** C21. [netsend] passes the records of the clients it is told to simulate on to
    every target, in order and complete, however the transfers are cut, and
    leaves with 0 at the end of the trace; and whoever reads from a target to
    the end gets exactly these records.  The clients of each number are those
    of the intervals [client_ranges]; a record whose lengths are unknown, or
    above 10^8, is left out. *)
Theorem netsend_roundtrip malloc_ok junk num us es w e0 targets : (∀ n, malloc_ok n = true) →
  num ∈ populations → Forall2 (entry_wf 0) us es → input w = image us es → ready (urls_size us + 1) w →
  Forall (λ t, wire t = [] ∧ ready (urls_size us) t) targets →
  let kept := (simulated_of num us es).2 in
  ∃ e' w' j targets', main_turns malloc_ok junk (length es) (netsend_body num) e0 (w, (0, targets)) = Ret (e', (w', (j, targets'))) ∧
    (∀ fuel, (length es < fuel)%nat → main_loop malloc_ok junk fuel (netsend_body num) e0 (w, (0, targets)) = Exit 0) ∧
    length targets' = length targets ∧
    ∀ t reader, t ∈ targets' → input reader = wire t → ready (urls_size us + 1) reader →
      (∃ e2 w2, main_turns malloc_ok junk (length kept) collect e0 (reader, []) = Ret (e2, (w2, kept))) ∧
      ∀ fuel, (length kept < fuel)%nat → main_loop malloc_ok junk fuel collect e0 (reader, []) = Exit 0.
Proof.
  intros Hm Hn Hwf Hin Hr Ht. rewrite <-(chosen_simulated_of num us es Hn Hwf). intros kept.
  destruct (netsend_run num us es Hn Hwf 0 targets) as (j&targets'&Hrun&Hw); [eapply Forall_impl; [exact Ht|]; by intros t [_ ?]|].
  destruct (main_turns_ok malloc_ok Hm junk _ us es (netsend_keeps_url num) Hwf e0 w _ _ Hin Hr Hrun) as (e'&w'&Hturns&_).
  exists e', w', j, targets'. split; [exact Hturns|]. split.
  { intros fuel Hf. by apply (main_loop_ends malloc_ok Hm junk (netsend_body num) us es e0 w (0, targets) (j, targets') fuel (netsend_keeps_url num)). }
  split; [symmetry; by eapply Forall2_length|]. intros t reader Hin' Hi Hrd.
  assert (Hwire : wire t = image (chosen_of num us es).1 kept).
  { clear -Hw Ht Hin'. induction Hw as [|t0 t1 ts ts1 Hw0 _ IH]; [by apply elem_of_nil in Hin'|]. apply Forall_cons in Ht as [[H0 _] Ht].
    apply elem_of_cons in Hin' as [->|Hin']; [by rewrite Hw0, H0|by apply IH]. }
  assert (Hsz : (urls_size (chosen_of num us es).1 <= urls_size us)%nat).
  { clear -Hwf. induction Hwf as [|u e us es _ _ IH]; [done|]. unfold chosen_of in *. cbn [zip zip_with List.filter snd].
    destruct (chosen num e); cbn [fmap list_fmap fst urls_size foldr] in *; unfold urls_size in *; lia. }
  assert (Hrd' : ready (urls_size (chosen_of num us es).1 + 1) reader) by (eapply ready_le; [exact Hrd|lia]).
  pose proof (chosen_wf num us es Hwf) as Hcw. rewrite Hwire in Hi. pose proof (collect_run kept []) as Hcol.
  destruct (main_turns_ok malloc_ok Hm junk collect _ _ collect_keeps_url Hcw e0 reader [] kept Hi Hrd' Hcol) as (e2&w2&Hrun2&_).
  split; [by exists e2, w2|]. intros fuel Hf. exact (main_loop_ends malloc_ok Hm junk collect _ _ e0 reader [] kept fuel collect_keeps_url Hcw Hi Hrd' Hcol Hf).
Qed.

(** Records of clients 136.152.12.8, 136.152.12.9 and 10.0.0.1. *)
Definition client_entry (c : Z) (u : bytes) : lf_entry :=
  LfEntry 0 (htonl 856569600) 0 0 0 0 0 (htonl c) (htons 1024) (htonl 167772161) (htons 80) 0 0 0 0 0 (htonl 120) (htonl 3000)
    (htons (Z.of_nat (length u))) (Some u).

Lemma client_entry_wf c u : 0 <= c < 2 ^ 32 → (0 < length u)%nat → Z.of_nat (length u) < 2 ^ 16 → entry_wf 0 u (client_entry c u).
Proof.
  intros Hc Hl Hlen. split; unfold client_entry; cbn [version crs cru srs sru sls slu cip cpt sip spt cprg sprg cims sexp slmd rhl rdl urllen url]; try done.
  - repeat (apply Forall_cons; split); first [by apply (htonl_htonl c)|by constructor|by split; vm_compute].
  - repeat (apply Forall_cons; split); first [by constructor|by split; vm_compute].
  - repeat (apply Forall_cons; split); first [by constructor|by split; vm_compute].
Qed.

Definition tool_urls : list bytes := [bytes_of "-"; bytes_of "GET /a HTTP/1.0"; bytes_of "GET /b HTTP/1.0"; bytes_of "-"; bytes_of "GET /c HTTP/1.0"].
Definition tool_trace : list lf_entry := zip_with client_entry [2291665928; 2291665929; 2291665928; 2291665928; 167772161] tool_urls.

Lemma tool_trace_wf : Forall2 (entry_wf 0) tool_urls tool_trace.
Proof. unfold tool_trace, tool_urls. cbn [zip_with]. repeat (apply Forall2_cons; split; [apply client_entry_wf; first [by split; vm_compute|vm_compute; lia]|]). constructor. Qed.

(** With one client, three of the records go to both targets. *)
Lemma netsend_roundtrip_witness : let kept := [client_entry 2291665928 (bytes_of "-"); client_entry 2291665928 (bytes_of "GET /b HTTP/1.0"); client_entry 2291665928 (bytes_of "-")] in
  ∃ e' w' j t1 t2,
    main_turns (λ _, true) 7 5 (netsend_body 1) no_entry (Io (replicate 400 (Moved 9)) [] [] (image tool_urls tool_trace),
      (0, [Io (replicate 400 (Moved 60)) [] [] []; Io (Failed EINTR :: replicate 400 (Moved 2)) [] [] []])) = Ret (e', (w', (j, [t1; t2]))) ∧
    ∃ e2 w2, main_turns (λ _, true) 7 3 collect no_entry (Io (Failed EAGAIN :: replicate 400 (Moved 7)) [] [] (wire t2), []) = Ret (e2, (w2, kept)).
Proof.
  intros kept. destruct (netsend_roundtrip (λ _, true) 7 1 tool_urls tool_trace (Io (replicate 400 (Moved 9)) [] [] (image tool_urls tool_trace)) no_entry
    [Io (replicate 400 (Moved 60)) [] [] []; Io (Failed EINTR :: replicate 400 (Moved 2)) [] [] []]) as (e'&w'&j&ts&Hrun&_&Hlen&Hread).
  - reflexivity.
  - unfold populations. left.
  - exact tool_trace_wf.
  - reflexivity.
  - split; [reflexivity|vm_compute; lia].
  - repeat constructor; vm_compute; lia.
  - destruct ts as [|t1 [|t2 [|]]]; try discriminate Hlen. exists e', w', j, t1, t2. split; [exact Hrun|].
    assert (Hk : (simulated_of 1 tool_urls tool_trace).2 = kept) by (vm_compute; reflexivity). cbn zeta in Hread. rewrite Hk in Hread.
    destruct (Hread t2 (Io (Failed EAGAIN :: replicate 400 (Moved 7)) [] [] (wire t2))) as [Hgo _].
    + right. left.
    + reflexivity.
    + split; [reflexivity|vm_compute; lia].
    + exact Hgo.
Defined.

(** C33. [sep_clients] keeps the clients of a trace apart: when it has read a trace
    and left with 0, the file of each client has grown by records of this
    client alone, unchanged and in their order; of every block, these are all
    its records from the first sane one on.  No record goes to the file of
    another client, as different addresses give different names. *)
Theorem sep_clients_separates malloc_ok junk slot can_open size us es w fs : (∀ n, malloc_ok n = true) → (∀ f, can_open f = true) → (0 < size)%nat →
  Forall2 (entry_wf 0) us es → input w = image us es → ready (urls_size us + 1) w →
  let n := S (length es) in
  ∃ w' fs', sep_turns malloc_ok junk can_open n size slot (w, fs) = Ret (true, (w', fs')) ∧
    (∀ fuel, (n <= fuel)%nat → sep_main malloc_ok junk can_open fuel size slot (w, fs) = Exit 0) ∧
    (∀ c, 0 <= c < 2 ^ 32 → ∃ f, client_file c = Some f ∧
      default [] (fs' !! f) = default [] (fs !! f) ++ mjoin (map (λ l, stored_bytes (from_client c l)) (blocks n size es))) ∧
    ∀ c c', 0 <= c < 2 ^ 32 → 0 <= c' < 2 ^ 32 → client_file c = client_file c' → c = c'.
Proof.
  intros Hm Ho Hs Hwf Hin Hr n.
  destruct (sep_turns_ok malloc_ok Hm junk slot can_open Ho size Hs n us es w fs (le_n _) Hwf Hin Hr) as (w'&fs'&Ht&Hx&Hf).
  exists w', fs'. split; [done|]. split; [done|]. split; [|exact client_file_inj].
  intros c Hc. pose proof (client_file_eq c Hc) as Hname. destruct (client_file c) as [f|] eqn:E; [|done]. exists f. split; [done|].
  specialize (Hf c Hc). unfold file_of in Hf. by rewrite E in Hf.
Qed.

(** The first record of 136.152.12.8 is not sane and goes nowhere; the last
    one is not sane either but follows a sane one. *)
Lemma sep_clients_separates_witness : ∃ w' fs',
  sep_turns (λ _, true) 7 (λ _, true) 6 CLIENT_BLOCK_SIZE no_entry (Io (replicate 400 (Moved 9)) [] [] (image tool_urls tool_trace), ∅) = Ret (true, (w', fs')) ∧
  default [] (fs' !! bytes_of "136.152.12/8") =
    stored_bytes [client_entry 2291665928 (bytes_of "GET /b HTTP/1.0"); client_entry 2291665928 (bytes_of "-")].
Proof.
  destruct (sep_clients_separates (λ _, true) 7 no_entry (λ _, true) CLIENT_BLOCK_SIZE tool_urls tool_trace
    (Io (replicate 400 (Moved 9)) [] [] (image tool_urls tool_trace)) ∅) as (w'&fs'&Hrun&_&Hfiles&_).
  - reflexivity.
  - reflexivity.
  - apply Nat.ltb_lt. vm_compute. reflexivity.
  - exact tool_trace_wf.
  - reflexivity.
  - split; [reflexivity|vm_compute; lia].
  - exists w', fs'. split; [exact Hrun|]. destruct (Hfiles (htonl 2291665928)) as (f&Hname&Hf).
    + split; vm_compute; [discriminate|reflexivity].
    + assert (Hn : client_file (htonl 2291665928) = Some (bytes_of "136.152.12/8")) by (vm_compute; reflexivity).
      rewrite Hn in Hname. apply (inj Some) in Hname. rewrite <-Hname in Hf. rewrite Hf. vm_compute. reflexivity.
Defined.
