(* ===== verification/SimClient.v ===== *)
(** * The simulated clients (playback/src/simclient.c)

    The trace player replays a file of records per client.  Each client
    caches some records; the files are opened through a list of thirty slots
    that is meant to close the file used least recently.  One thread at a
    time: the mutexes are left out. *)

From S2P Require Import Prelude SockIO Icp Trace.

Open Scope Z_scope.

(** ** State *)

Definition ENTRY_CACHE_SIZE : nat := 30.
Definition NUM_FDS_USED : nat := 30.

Record simclient_entry := Client {
  client_path : bytes;
  fd : nat;
  is_fd_valid : bool;
  curr_fd_offset : Z;
  entry_cache : list lf_entry;
  entry_cache_offset : nat;
  max_in_cache : nat;
}.
Definition set_file v f o (c : simclient_entry) := Client (client_path c) f v o (entry_cache c) (entry_cache_offset c) (max_in_cache c).
Definition set_cache i e (c : simclient_entry) :=
  Client (client_path c) (fd c) (is_fd_valid c) (curr_fd_offset c) (<[i := e]> (entry_cache c)) (entry_cache_offset c) (max_in_cache c).
Definition set_max m (c : simclient_entry) :=
  Client (client_path c) (fd c) (is_fd_valid c) (curr_fd_offset c) (entry_cache c) (entry_cache_offset c) m.
Definition set_pos o (c : simclient_entry) :=
  Client (client_path c) (fd c) (is_fd_valid c) (curr_fd_offset c) (entry_cache c) o (max_in_cache c).

(** A pointer into [list_o_clients]: the block it was taken in and the index. *)
Record fd_buf_el := FdBuf { entry_with_fd : option (nat * nat); bnext : option nat; bprev : option nat }.
Definition set_client p (b : fd_buf_el) := FdBuf p (bnext b) (bprev b).
Definition set_bnext p (b : fd_buf_el) := FdBuf (entry_with_fd b) p (bprev b).
Definition set_bprev p (b : fd_buf_el) := FdBuf (entry_with_fd b) (bnext b) p.

(** [block] counts the calls of [realloc] on [list_o_clients]. *)
Record simclient_list := Clist {
  cur_num_clients : nat;
  max_num_clients : nat;
  list_o_clients : list simclient_entry;
  block : nat;
  fd_buf_ptrs : list fd_buf_el;
  head_el : nat;
  tail_el : nat;
}.
Definition set_clients l (c : simclient_list) := Clist (cur_num_clients c) (max_num_clients c) l (block c) (fd_buf_ptrs c) (head_el c) (tail_el c).
Definition set_bufs l (c : simclient_list) := Clist (cur_num_clients c) (max_num_clients c) (list_o_clients c) (block c) l (head_el c) (tail_el c).
Definition set_head h (c : simclient_list) := Clist (cur_num_clients c) (max_num_clients c) (list_o_clients c) (block c) (fd_buf_ptrs c) h (tail_el c).

(** The process: open files with their contents and what is left to read, the
    next descriptor, and how many records have been asked for. *)
Record sim_state := Sim {
  clist : simclient_list;
  open_files : gmap nat (bytes * bytes);
  next_fd : nat;
  calls : nat;
}.
Definition with_clist f (s : sim_state) := Sim (f (clist s)) (open_files s) (next_fd s) (calls s).
Definition with_files f (s : sim_state) := Sim (clist s) (f (open_files s)) (next_fd s) (calls s).

(** ** Operations *)

Definition zero_entry : lf_entry := LfEntry 0 0 0 0 0 0 0 0 0 0 0 0 0 0 0 0 0 0 0 None.
Definition zero_client : simclient_entry := Client [] 0 false 0 (replicate ENTRY_CACHE_SIZE zero_entry) 0 0.

Definition init_buf (i : nat) : fd_buf_el :=
  FdBuf None (if decide (i ≠ (NUM_FDS_USED - 1)%nat) then Some (S i) else None) (if decide (i ≠ 0%nat) then Some (pred i) else None).

Section ops.
(** The files by their paths, the answers to the reads for each record, and
    [calloc] and [realloc]. *)
Context (files : bytes → option bytes) (script : nat → list xfer) (malloc_ok : nat → bool) (junk : byte).
Context (alloc_ok : nat → bool).
Abbreviation cmd := (M sim_state).

Definition init_list_o_clients (start_num_clients : nat) : cmd Z :=
  if alloc_ok start_num_clients then
    _ ← modify (with_clist (λ _, Clist 0 start_num_clients (replicate start_num_clients zero_client) 0
                               (map init_buf (seq 0 NUM_FDS_USED)) 0 (NUM_FDS_USED - 1)));
    mret 1
  else mret 0.

(** [list_o_clients[id]] and an assignment to its fields. *)
Definition client (id : nat) : cmd simclient_entry := λ s, match list_o_clients (clist s) !! id with Some c => Ret (c, s) | None => Crash end.
Definition client_update (id : nat) (f : simclient_entry → simclient_entry) : cmd () := λ s,
  match list_o_clients (clist s) !! id with
  | Some c => Ret ((), with_clist (set_clients (<[id := f c]> (list_o_clients (clist s)))) s)
  | None => Crash
  end.
Definition buf (i : option nat) : cmd fd_buf_el := λ s,
  match i with Some i => match fd_buf_ptrs (clist s) !! i with Some b => Ret (b, s) | None => Crash end | None => Crash end.
Definition buf_update (i : option nat) (f : fd_buf_el → fd_buf_el) : cmd () := λ s,
  match i with
  | Some i => match fd_buf_ptrs (clist s) !! i with
              | Some b => Ret ((), with_clist (set_bufs (<[i := f b]> (fd_buf_ptrs (clist s)))) s)
              | None => Crash
              end
  | None => Crash
  end.
(** A pointer into the block of clients, which [realloc] may have freed. *)
Definition through (p : nat * nat) : cmd nat := λ s, if decide (p.1 = block (clist s)) then Ret (p.2, s) else Crash.

(** [open], [close] and [lseek(fd, offset, whence)]. *)
Definition sys_open (path : bytes) : cmd Z := λ s,
  match files path with
  | Some data => Ret (Z.of_nat (next_fd s), Sim (clist s) (<[next_fd s := (data, data)]> (open_files s)) (S (next_fd s)) (calls s))
  | None => Ret (-1, s)
  end.
Definition sys_close (f : nat) : cmd () := modify (with_files (delete f)).
Definition SEEK_SET : Z := 0.
Definition SEEK_CUR : Z := 1.
Definition SEEK_END : Z := 2.
Definition sys_lseek (f : nat) (offset whence : Z) : cmd Z := λ s,
  match open_files s !! f with
  | Some (data, rest) =>
      let base := if whence =? SEEK_SET then Some 0
                  else if whence =? SEEK_CUR then Some (Z.of_nat (length data) - Z.of_nat (length rest))
                  else if whence =? SEEK_END then Some (Z.of_nat (length data)) else None in
      match base with
      | Some b => if b + offset <? 0 then Ret (-1, s)
                  else Ret (b + offset, with_files (<[f := (data, drop (Z.to_nat (b + offset)) data)]>) s)
      | None => Ret (-1, s)
      end
  | None => Ret (-1, s)
  end.

(** [lf_get_next_entry] on an open file. *)
Definition next_record (f : nat) (e : lf_entry) : cmd (Z * lf_entry) := λ s,
  match open_files s !! f with
  | Some (data, rest) =>
      '(r, w) ← lf_get_next_entry malloc_ok junk 3 e (Io (script (calls s)) [] [] rest);
      Ret (r, Sim (clist s) (<[f := (data, input w)]> (open_files s)) (next_fd s) (S (calls s)))
  | None => Ret ((2, e), s)
  end.

(** [get_fd_for_client]: the end of the list of slots is moved to the front. *)
Definition end_to_front : cmd nat :=
  fd_tmp ← gets (λ s, tail_el (clist s));
  b ← buf (Some fd_tmp);
  _ ← buf_update (bprev b) (set_bnext None);
  h ← gets (λ s, head_el (clist s));
  _ ← buf_update (Some fd_tmp) (set_bnext (Some h));
  _ ← buf_update (Some h) (set_bprev (Some fd_tmp));
  _ ← modify (with_clist (set_head fd_tmp));
  mret fd_tmp.
(** The file of the client that has the slot is closed. *)
Definition close_holder (fd_tmp : nat) : cmd () :=
  b ← buf (Some fd_tmp);
  match entry_with_fd b with
  | Some p =>
      e ← through p;
      tmp_e ← client e;
      if is_fd_valid tmp_e then
        off ← sys_lseek (fd tmp_e) SEEK_CUR 0;
        _ ← client_update e (λ c, set_file false (fd c) (wrap 32 off) c);
        _ ← sys_close (fd tmp_e);
        client_update e (λ c, set_file (is_fd_valid c) 0 (curr_fd_offset c) c)
      else mret ()
  | None => mret ()
  end.
Definition open_client (client_id : nat) : cmd nat :=
  tmp ← client client_id;
  f ← sys_open (client_path tmp);
  if f =? -1 then exit 1
  else
    _ ← client_update client_id (λ c, set_file (is_fd_valid c) (Z.to_nat f) (curr_fd_offset c) c);
    tmp ← client client_id;
    r ← sys_lseek (fd tmp) SEEK_SET (curr_fd_offset tmp);
    if r =? -1 then exit 1
    else
      _ ← client_update client_id (λ c, set_file true (fd c) (curr_fd_offset c) c);
      mret (fd tmp).
Definition get_fd_for_client (client_id : nat) : cmd nat :=
  tmp ← client client_id;
  if is_fd_valid tmp then mret (fd tmp)
  else
    fd_tmp ← end_to_front;
    _ ← close_holder fd_tmp;
    g ← gets (λ s, block (clist s));
    _ ← buf_update (Some fd_tmp) (set_client (Some (g, client_id)));
    open_client client_id.

(** The loop of [suck_in_buffer_data], for the [n] slots from [i] on. *)
Fixpoint suck_loop (client_id read_fd i n : nat) : cmd () :=
  match n with
  | O => mret ()
  | S n' =>
      tmp ← client client_id;
      match entry_cache tmp !! i with
      | None => crash
      | Some e =>
          '(res, e) ← next_record read_fd e;
          _ ← client_update client_id (set_cache i e);
          if negb (res =? 0) then
            _ ← client_update client_id (set_max i);
            _ ← client_update client_id (λ c, set_file false (fd c) (curr_fd_offset c) c);
            tmp ← client client_id;
            _ ← sys_close (fd tmp);
            client_update client_id (λ c, set_file (is_fd_valid c) (fd c) 0 c)
          else
            _ ← client_update client_id (set_max (S i));
            suck_loop client_id read_fd (S i) n'
      end
  end.

Definition suck_in_buffer_data (client_id : nat) : cmd () :=
  read_fd ← get_fd_for_client client_id;
  _ ← suck_loop client_id read_fd 0 ENTRY_CACHE_SIZE;
  client_update client_id (set_pos 0).

Definition add_client_to_list (path : bytes) : cmd nat :=
  _ ← modify (with_clist (λ c, Clist (S (cur_num_clients c)) (max_num_clients c) (list_o_clients c) (block c) (fd_buf_ptrs c) (head_el c) (tail_el c)));
  c ← gets clist;
  grown ← (if decide (cur_num_clients c = max_num_clients c) then
             if alloc_ok (2 * max_num_clients c) then
               _ ← modify (with_clist (λ c, Clist (cur_num_clients c) (2 * max_num_clients c)
                     (list_o_clients c ++ replicate (max_num_clients c) zero_client) (S (block c)) (fd_buf_ptrs c) (head_el c) (tail_el c)));
               mret true
             else mret false
           else mret true);
  if negb (grown : bool) then mret 0%nat
  else
    let ret_id := cur_num_clients c in
    if malloc_ok (1 + length path) then
      _ ← client_update ret_id (λ c, Client path (fd c) (is_fd_valid c) (curr_fd_offset c) (entry_cache c) (entry_cache_offset c) (max_in_cache c));
      _ ← suck_in_buffer_data ret_id;
      mret ret_id
    else mret 0%nat.

(** The loop that refills the cache. *)
Fixpoint refill_loop (fuel : nat) (client_id : nat) : cmd () :=
  match fuel with
  | O => stuck
  | S fuel' =>
      tmp ← client client_id;
      if bool_decide (entry_cache_offset tmp = max_in_cache tmp) || bool_decide (max_in_cache tmp = 0%nat) then
        _ ← suck_in_buffer_data client_id;
        refill_loop fuel' client_id
      else mret ()
  end.

Definition get_client_entry (fuel : nat) (client_id : nat) : cmd lf_entry :=
  _ ← refill_loop fuel client_id;
  tmp ← client client_id;
  match entry_cache tmp !! entry_cache_offset tmp with
  | Some retval => _ ← client_update client_id (λ c, set_pos (S (entry_cache_offset c)) c); mret retval
  | None => crash
  end.
(** The records of [n] calls. *)
Fixpoint get_entries (n fuel client_id : nat) : cmd (list lf_entry) :=
  match n with
  | O => mret []
  | S n' => e ← get_client_entry fuel client_id; es ← get_entries n' fuel client_id; mret (e :: es)
  end.
End ops.

(** ** What the clients see

    Only one file is open at a time: the list of slots never moves its tail,
    so that every opening takes the same slot and closes the file before it.
    A file that is opened is read from its start, as the arguments of [lseek]
    are exchanged.  A player is the clients' traces with what is left in their
    caches, and the client whose file is open, with the place it has reached. *)

Record aclient := AClient { trace : list lf_entry; cached : list lf_entry; reached : nat }.
Record aplayer := APlayer { aclients : gmap nat aclient; holder : option nat; last_id : nat }.

Definition abs_refill (id : nat) (p : aplayer) : option aplayer :=
  a ← aclients p !! id;
  let from := if decide (holder p = Some id) then reached a else 0%nat in
  let blk := take ENTRY_CACHE_SIZE (drop from (trace a)) in
  Some (APlayer (<[id := AClient (trace a) blk (from + ENTRY_CACHE_SIZE)]> (aclients p))
    (if decide (length blk < ENTRY_CACHE_SIZE)%nat then None else Some id) (last_id p)).
Definition empty_cache (id : nat) (p : aplayer) : bool := match aclients p !! id with Some a => bool_decide (cached a = []) | None => false end.
Definition abs_get (id : nat) (p : aplayer) : option (lf_entry * aplayer) :=
  p ← (if empty_cache id p then abs_refill id p else Some p);
  p ← (if empty_cache id p then abs_refill id p else Some p);
  a ← aclients p !! id;
  match cached a with
  | e :: l => Some (e, APlayer (<[id := AClient (trace a) l (reached a)]> (aclients p)) (holder p) (last_id p))
  | [] => None
  end.
Definition abs_add (es : list lf_entry) (p : aplayer) : option aplayer :=
  let id := S (last_id p) in
  abs_refill id (APlayer (<[id := AClient es [] 0]> (aclients p)) (holder p) id).

(** Sequences of operations. *)
Inductive player_op := Join (path : bytes) | Replay (id : nat).
Section exec.
Context (files : bytes → option bytes) (script : nat → list xfer) (malloc_ok : nat → bool) (junk : byte) (alloc_ok : nat → bool).
Definition player_step (op : player_op) : M sim_state (nat + lf_entry) :=
  match op with
  | Join path => id ← add_client_to_list files script malloc_ok junk alloc_ok path; mret (inl id)
  | Replay id => e ← get_client_entry files script malloc_ok junk 3 id; mret (inr e)
  end.
Fixpoint player_exec (ops : list player_op) : M sim_state (list (nat + lf_entry)) :=
  match ops with
  | [] => mret []
  | op :: ops' => r ← player_step op; rs ← player_exec ops'; mret (r :: rs)
  end.
End exec.
Definition abs_player_step (tr : bytes → option (list bytes * list lf_entry)) (op : player_op) (p : aplayer) : option ((nat + lf_entry) * aplayer) :=
  match op with
  | Join path => '(_, es) ← tr path; p ← abs_add es p; Some (inl (last_id p), p)
  | Replay id => '(e, p) ← abs_get id p; Some (inr e, p)
  end.
Fixpoint abs_player_exec tr (ops : list player_op) (p : aplayer) : option (list (nat + lf_entry) * aplayer) :=
  match ops with
  | [] => Some ([], p)
  | op :: ops' => '(r, p) ← abs_player_step tr op p; '(rs, p) ← abs_player_exec tr ops' p; Some (r :: rs, p)
  end.

(** ** Lemmas: states *)

(** [c] stored as client [id]. *)
Definition store (id : nat) (c : simclient_entry) (s : sim_state) : sim_state :=
  with_clist (set_clients (<[id := c]> (list_o_clients (clist s)))) s.
Definition has (id : nat) (s : sim_state) : Prop := (id < length (list_o_clients (clist s)))%nat.

Lemma store_id id c s : list_o_clients (clist s) !! id = Some c → store id c s = s.
Proof. intros Hl. unfold store. rewrite list_insert_id by done. by destruct s as [[] ? ? ?]. Qed.
Lemma store_store id c c' s : store id c (store id c' s) = store id c s.
Proof. unfold store. cbn. by rewrite list_insert_insert_eq. Qed.
Lemma has_store id id' c s : has id (store id' c s) ↔ has id s.
Proof. unfold has, store. cbn. by rewrite length_insert. Qed.
Lemma lookup_store id c s : has id s → list_o_clients (clist (store id c s)) !! id = Some c.
Proof. intros Hh. cbn. by apply list_lookup_insert_eq. Qed.
Lemma client_store id c s : has id s → client id (store id c s) = Ret (c, store id c s).
Proof. intros Hh. unfold client. by rewrite lookup_store. Qed.
Lemma client_update_store id f c s : has id s → client_update id f (store id c s) = Ret ((), store id (f c) s).
Proof. intros Hh. unfold client_update. rewrite lookup_store by done. by rewrite <-(store_store id (f c) c s). Qed.

Lemma client_update_ok id f c s : list_o_clients (clist s) !! id = Some c → client_update id f s = Ret ((), store id (f c) s).
Proof. intros Hc. unfold client_update. by rewrite Hc. Qed.

Section files.
Context (files : bytes → option bytes) (script : nat → list xfer) (malloc_ok : nat → bool) (Hmalloc : ∀ n, malloc_ok n = true) (junk : byte).
Context (alloc_ok : nat → bool).

Lemma next_record_ok f data u e us es e0 s : open_files s !! f = Some (data, image (u :: us) (e :: es)) → entry_wf 3 u e →
  ready (urls_size (u :: us) + 1) (Io (script (calls s)) [] [] (image (u :: us) (e :: es))) →
  next_record script malloc_ok junk f e0 s = Ret ((0, e), Sim (clist s) (<[f := (data, image us es)]> (open_files s)) (next_fd s) (S (calls s))).
Proof.
  intros Ho He Hr. unfold next_record. rewrite Ho.
  destruct (lf_get_next_entry_ok malloc_ok Hmalloc junk 3 u e e0 0 (Io (script (calls s)) [] [] (image (u :: us) (e :: es))) (image us es) He) as (w'&Hg&Hi&_&_).
  - cbn [input]. change (image (u :: us) (e :: es)) with ((lf_block e ++ u) ++ image us es). by rewrite <-app_assoc.
  - eapply ready_le; [exact Hr|]. cbn [urls_size foldr]. lia.
  - rewrite Hg. cbn [mbind outcome_mbind]. by rewrite Hi.
Qed.

Lemma next_record_end f data e0 s : open_files s !! f = Some (data, []) → ready 1 (Io (script (calls s)) [] [] []) →
  ∃ x, next_record script malloc_ok junk f e0 s = Ret ((1, e0), Sim (clist s) (<[f := (data, x)]> (open_files s)) (next_fd s) (S (calls s))).
Proof.
  intros Ho Hr. unfold next_record. rewrite Ho.
  destruct (lf_get_next_entry_end malloc_ok junk 3 e0 (Io (script (calls s)) [] [] []) eq_refl Hr) as (w'&Hg). rewrite Hg. by eexists.
Qed.

(** What the loop leaves: the records in the cache, and the file read on or
    closed. *)
Lemma suck_loop_ok id f data n : ∀ i us es c s, has id s → fd c = f → length (entry_cache c) = (i + n)%nat → (n = 0%nat → max_in_cache c = i) →
  open_files s !! f = Some (data, image us es) → Forall2 (entry_wf 3) us es →
  (∀ k x, ready (urls_size us + 1) (Io (script k) [] [] x)) →
  ∃ c' fs k, suck_loop script malloc_ok junk id f i n (store id c s) = Ret ((), store id c' (Sim (clist s) fs (next_fd s) k)) ∧
    client_path c' = client_path c ∧ length (entry_cache c') = (i + n)%nat ∧ max_in_cache c' = (i + length (take n es))%nat ∧
    take (max_in_cache c') (entry_cache c') = take i (entry_cache c) ++ take n es ∧
    if decide (length es < n)%nat then is_fd_valid c' = false ∧ curr_fd_offset c' = 0
    else is_fd_valid c' = is_fd_valid c ∧ curr_fd_offset c' = curr_fd_offset c ∧ fd c' = f ∧
      fs !! f = Some (data, image (drop n us) (drop n es)).
Proof.
  induction n as [|n IH]; intros i us es c s Hh Hf Hlen Hmax Ho Hwf Hrd; cbn [suck_loop].
  { exists c, (open_files s), (calls s). rewrite (Hmax eq_refl), take_0. cbn [length]. rewrite Nat.add_0_r, app_nil_r.
    split; [by destruct s|]. split_and!; try done. lia. }
  rewrite (bind_ret _ _ _ _ _ (client_store id c s Hh)).
  destruct (lookup_lt_is_Some_2 (entry_cache c) i) as [e0 He0]; [lia|]. rewrite He0.
  destruct Hwf as [|u e us es He Hwf].
  - destruct (next_record_end f data e0 (store id c s) Ho) as (x&Hn); [eapply ready_le; [apply Hrd|cbn; lia]|].
    rewrite (bind_ret _ _ _ _ _ Hn). set (s1 := Sim (clist s) (<[f := (data, x)]> (open_files s)) (next_fd s) (S (calls s))).
    change (Sim (clist (store id c s)) _ _ _) with (store id c s1). assert (Hh1 : has id s1) by done.
    rewrite (bind_ret _ _ _ _ _ (client_update_store id _ c s1 Hh1)). change (negb (1 =? 0)) with true. cbn iota.
    rewrite (bind_ret _ _ _ _ _ (client_update_store id _ _ s1 Hh1)), (bind_ret _ _ _ _ _ (client_update_store id _ _ s1 Hh1)).
    rewrite (bind_ret _ _ _ _ _ (client_store id _ s1 Hh1)). cbn [fd set_file set_max set_cache]. rewrite Hf.
    rewrite (bind_ret (sys_close f) _ _ () (store id (set_file false f (curr_fd_offset c) (set_max i (set_cache i e0 c))) (with_files (delete f) s1))) by (rewrite <-Hf; reflexivity).
    rewrite client_update_store by done. eexists _, _, _. split; [reflexivity|].
    cbn. rewrite length_insert, Nat.add_0_r. split_and!; try done. rewrite app_nil_r, take_insert_ge by lia. done.
  - rewrite (bind_ret _ _ _ _ _ (next_record_ok f data u e us es e0 (store id c s) Ho He (Hrd _ _))).
    set (s1 := Sim (clist s) (<[f := (data, image us es)]> (open_files s)) (next_fd s) (S (calls s))).
    change (Sim (clist (store id c s)) _ _ _) with (store id c s1). assert (Hh1 : has id s1) by done.
    rewrite (bind_ret _ _ _ _ _ (client_update_store id _ c s1 Hh1)). change (negb (0 =? 0)) with false. cbn iota.
    rewrite (bind_ret _ _ _ _ _ (client_update_store id _ _ s1 Hh1)).
    destruct (IH (S i) us es (set_max (S i) (set_cache i e c)) s1) as (c'&fs&k&Hrun&Hp&Hl'&Hm&Ht&Hfin); try done.
    { cbn. rewrite length_insert. lia. }
    { cbn. by rewrite lookup_insert_eq. }
    { intros k x. eapply ready_le; [apply Hrd|]. cbn [urls_size foldr]. fold (urls_size us). lia. }
    exists c', fs, k. split; [exact Hrun|]. cbn [take length drop]. cbn in Hp, Hl', Ht. split; [done|]. split; [lia|]. split; [lia|].
    split.
    + rewrite Ht. rewrite (take_S_r _ _ e) by (apply list_lookup_insert_eq; lia). rewrite take_insert_ge by lia. by rewrite <-app_assoc.
    + destruct (decide (length es < n)%nat), (decide (S (length es) < S n)%nat); (done || lia).
Qed.
End files.

(** *** The slots *)

(** The slots, of which the last one is used by [occ]. *)
Record ring (s : sim_state) (occ : option (nat * nat)) : Prop := {
  rg_length : length (fd_buf_ptrs (clist s)) = NUM_FDS_USED;
  rg_tail : tail_el (clist s) = (NUM_FDS_USED - 1)%nat;
  rg_head : (head_el (clist s) < NUM_FDS_USED)%nat;
  rg_last : ∃ b p, fd_buf_ptrs (clist s) !! (NUM_FDS_USED - 1)%nat = Some b ∧ entry_with_fd b = occ ∧ bprev b = Some p ∧ (p < NUM_FDS_USED)%nat;
}.

(** All but the slots. *)
Definition core (s : sim_state) :=
  (cur_num_clients (clist s), max_num_clients (clist s), list_o_clients (clist s), block (clist s), (open_files s, next_fd s, calls s)).

Lemma buf_update_ring i f s occ : ring s occ → (i < NUM_FDS_USED)%nat →
  (∀ b, entry_with_fd (f b) = entry_with_fd b ∧ (bprev (f b) = bprev b ∨ ∃ p, bprev (f b) = Some p ∧ (p < NUM_FDS_USED)%nat)) →
  ∃ s', buf_update (Some i) f s = Ret ((), s') ∧ ring s' occ ∧ core s' = core s ∧ head_el (clist s') = head_el (clist s).
Proof.
  intros [Hl Ht Hh (b&p&Hb&He&Hp&Hlt)] Hi Hf. destruct (lookup_lt_is_Some_2 (fd_buf_ptrs (clist s)) i) as [bi Hbi]; [lia|].
  exists (with_clist (set_bufs (<[i := f bi]> (fd_buf_ptrs (clist s)))) s). split; [unfold buf_update; by rewrite Hbi|].
  split; [|by destruct s as [[] ? ? ?]]. split; cbn; try done; [by rewrite length_insert|].
  destruct (decide (i = (NUM_FDS_USED - 1)%nat)) as [->|Hne].
  - rewrite Hb in Hbi. injection Hbi as <-. destruct (Hf b) as [He' [Hp'|(p'&Hp'&Hlt')]].
    + exists (f b), p. rewrite list_lookup_insert_eq by lia. by rewrite He', Hp'.
    + exists (f b), p'. rewrite list_lookup_insert_eq by lia. by rewrite He'.
  - exists b, p. by rewrite list_lookup_insert_ne by done.
Qed.

Lemma buf_set_client p s occ : ring s occ → ∃ s', buf_update (Some (NUM_FDS_USED - 1)%nat) (set_client p) s = Ret ((), s') ∧ ring s' p ∧ core s' = core s.
Proof.
  intros [Hl Ht Hh (b&q&Hb&He&Hp&Hlt)]. exists (with_clist (set_bufs (<[(NUM_FDS_USED - 1)%nat := set_client p b]> (fd_buf_ptrs (clist s)))) s).
  split; [unfold buf_update; by rewrite Hb|]. split; [|by destruct s as [[] ? ? ?]]. split; cbn; try done; [by rewrite length_insert|].
  exists (set_client p b), q. rewrite list_lookup_insert_eq by (rewrite Hl; unfold NUM_FDS_USED; lia). done.
Qed.

(** Moving the last slot to the front. *)
Lemma end_to_front_ok s occ : ring s occ → ∃ s', end_to_front s = Ret ((NUM_FDS_USED - 1)%nat, s') ∧ ring s' occ ∧ core s' = core s.
Proof.
  intros Hr. pose proof Hr as [Hl Ht Hh (b&p&Hb&He&Hp&Hlt)]. unfold end_to_front.
  rewrite (bind_ret _ _ s (tail_el (clist s)) s) by done. rewrite Ht.
  assert (Hbuf : buf (Some (NUM_FDS_USED - 1)%nat) s = Ret (b, s)) by (unfold buf; by rewrite Hb).
  rewrite (bind_ret _ _ _ _ _ Hbuf), Hp.
  destruct (buf_update_ring p (set_bnext None) s occ Hr Hlt) as (s1&H1&Hr1&Hc1&Hh1); [intros; split; [done|by left]|].
  rewrite (bind_ret _ _ _ _ _ H1), (bind_ret _ _ s1 (head_el (clist s1)) s1) by done.
  destruct (buf_update_ring (NUM_FDS_USED - 1) (set_bnext (Some (head_el (clist s1)))) s1 occ Hr1) as (s2&H2&Hr2&Hc2&Hh2).
  { unfold NUM_FDS_USED. lia. } { intros; split; [done|by left]. }
  rewrite (bind_ret _ _ _ _ _ H2).
  destruct (buf_update_ring (head_el (clist s1)) (set_bprev (Some (NUM_FDS_USED - 1)%nat)) s2 occ Hr2) as (s3&H3&Hr3&Hc3&_).
  { rewrite Hh1. exact Hh. } { intros; split; [done|]. right. eexists. split; [done|]. unfold NUM_FDS_USED. lia. }
  rewrite (bind_ret _ _ _ _ _ H3). exists (with_clist (set_head (NUM_FDS_USED - 1)%nat) s3). split; [done|]. split.
  - destruct Hr3 as [? ? ? ?]. split; cbn; try done. unfold NUM_FDS_USED. lia.
  - rewrite <-Hc1, <-Hc2, <-Hc3. done.
Qed.

(** A client whose file has been closed. *)
Definition closed (c : simclient_entry) : simclient_entry := if is_fd_valid c then set_file false 0 1 c else c.
Definition client_list (s : sim_state) : list simclient_entry := list_o_clients (clist s).
(** All but the slots and the open files. *)
Definition core_of (l : list simclient_entry) (s : sim_state) := (cur_num_clients (clist s), max_num_clients (clist s), l, block (clist s), next_fd s).

Lemma close_holder_ok s occ : ring s occ →
  match occ with
  | None => True
  | Some (g, e) => g = block (clist s) ∧ ∃ ce, client_list s !! e = Some ce ∧ (is_fd_valid ce = true → is_Some (open_files s !! fd ce))
  end →
  ∃ s', close_holder (NUM_FDS_USED - 1) s = Ret ((), s') ∧ ring s' occ ∧
    core_of (client_list s') s' = core_of (match occ with Some (_, e) => alter closed e (client_list s) | None => client_list s end) s.
Proof.
  intros Hr Hocc. pose proof Hr as [Hl Ht Hh (b&p&Hb&He&Hp&Hlt)]. unfold close_holder.
  assert (Hbuf : buf (Some (NUM_FDS_USED - 1)%nat) s = Ret (b, s)) by (unfold buf; by rewrite Hb).
  rewrite (bind_ret _ _ _ _ _ Hbuf), He. destruct occ as [[g e]|]; [|by exists s].
  destruct Hocc as [-> (ce&Hce&Hopen)]. unfold through at 1. cbn [fst snd].
  assert (Hth : (λ s0 : sim_state, if decide (block (clist s) = block (clist s0)) then Ret (e, s0) else Crash) s = Ret (e, s)) by (by rewrite decide_True).
  rewrite (bind_ret _ _ _ _ _ Hth). unfold client_list in Hce.
  assert (Hcl : client e s = Ret (ce, s)) by (unfold client; by rewrite Hce). rewrite (bind_ret _ _ _ _ _ Hcl).
  assert (Hh' : has e s) by (unfold has; by eapply lookup_lt_Some).
  destruct (is_fd_valid ce) eqn:Hv.
  - destruct (Hopen eq_refl) as [[data rest] Ho]. set (s1 := with_files (<[fd ce := (data, drop 1 data)]>) s).
    assert (Hs : sys_lseek (fd ce) SEEK_CUR 0 s = Ret (1, s1)) by (unfold sys_lseek; by rewrite Ho).
    rewrite (bind_ret _ _ _ _ _ Hs). assert (Hh1 : has e s1) by done.
    rewrite (bind_ret _ _ _ _ _ (client_update_ok e _ ce s1 Hce)). cbn beta.
    rewrite (bind_ret (sys_close (fd ce)) _ _ () (store e (set_file false (fd ce) (wrap 32 1) ce) (with_files (delete (fd ce)) s1))) by done.
    rewrite client_update_store by done. eexists. split; [reflexivity|]. split; [by destruct Hr|].
    unfold core_of, client_list. cbn. do 3 f_equal. rewrite list_alter_insert_eq || idtac.
    apply list_eq. intros j. destruct (decide (j = e)) as [->|Hne].
    + rewrite list_lookup_insert_eq by done. rewrite list_lookup_alter_eq, Hce. cbn. unfold closed. by rewrite Hv.
    + rewrite list_lookup_insert_ne, list_lookup_alter_ne by done. done.
  - exists s. split; [done|]. split; [done|]. unfold core_of. do 3 f_equal. apply list_eq. intros j. destruct (decide (j = e)) as [->|Hne].
    + rewrite list_lookup_alter_eq. unfold client_list. rewrite Hce. cbn. unfold closed. by rewrite Hv.
    + by rewrite list_lookup_alter_ne.
Qed.

Section opening.
Context (files : bytes → option bytes).

Lemma open_client_ok s id c data : client_list s !! id = Some c → curr_fd_offset c = 0 ∨ curr_fd_offset c = 1 → files (client_path c) = Some data →
  open_client files id s = Ret (next_fd s, store id (set_file true (next_fd s) (curr_fd_offset c) c)
    (Sim (clist s) (<[next_fd s := (data, data)]> (open_files s)) (S (next_fd s)) (calls s))).
Proof.
  intros Hc Hoff Hf. assert (Hh : has id s) by (unfold has; by eapply lookup_lt_Some). unfold open_client.
  assert (Hcl : client id s = Ret (c, s)) by (unfold client; unfold client_list in Hc; by rewrite Hc). rewrite (bind_ret _ _ _ _ _ Hcl).
  set (s1 := Sim (clist s) (<[next_fd s := (data, data)]> (open_files s)) (S (next_fd s)) (calls s)).
  assert (Ho : sys_open files (client_path c) s = Ret (Z.of_nat (next_fd s), s1)) by (unfold sys_open; by rewrite Hf).
  rewrite (bind_ret _ _ _ _ _ Ho). rewrite (proj2 (Z.eqb_neq _ (-1))) by lia. rewrite Nat2Z.id.
  assert (Hh1 : has id s1) by done.
  rewrite (bind_ret _ _ _ _ _ (client_update_ok id _ c s1 Hc)), (bind_ret _ _ _ _ _ (client_store id _ s1 Hh1)). cbn [fd set_file curr_fd_offset].
  set (c1 := set_file (is_fd_valid c) (next_fd s) (curr_fd_offset c) c).
  assert (Hs : sys_lseek (next_fd s) SEEK_SET (curr_fd_offset c) (store id c1 s1) = Ret (0, store id c1 s1)).
  { unfold sys_lseek. cbn [open_files store with_clist s1]. rewrite lookup_insert_eq.
    assert (Hmap : with_files <[next_fd s := (data, drop 0 data)]> (store id c1 s1) = store id c1 s1).
    { unfold with_files, store, with_clist, s1. cbn. by rewrite drop_0, insert_insert_eq. }
    destruct Hoff as [-> | ->].
    - change (0 =? SEEK_SET) with true. cbn iota. change (SEEK_SET + 0 <? 0) with false. change (0 + SEEK_SET) with 0. cbn iota.
      change (Z.to_nat 0) with 0%nat. by rewrite Hmap.
    - change (1 =? SEEK_SET) with false. change (1 =? SEEK_CUR) with true. cbn iota. rewrite Z.sub_diag.
      change (0 + SEEK_SET) with 0. change (0 <? 0) with false. cbn iota. change (Z.to_nat 0) with 0%nat. by rewrite Hmap. }
  rewrite (bind_ret _ _ _ _ _ Hs). change (0 =? -1) with false. cbn iota. by rewrite (bind_ret _ _ _ _ _ (client_update_store id _ c1 s1 Hh1)).
Qed.
End opening.

(** ** The refinement *)

Section player.
Context (tr : bytes → option (list bytes * list lf_entry)) (script : nat → list xfer) (malloc_ok : nat → bool) (junk : byte) (alloc_ok : nat → bool).
Context (Hmalloc : ∀ n, malloc_ok n = true) (max_clients : nat).
Definition trace_file (p : bytes) : option bytes := '(us, es) ← tr p; Some (image us es).
(** The traces are not empty and can be read. *)
Context (Htr : ∀ p us es, tr p = Some (us, es) → Forall2 (entry_wf 3) us es ∧ es ≠ []).
Context (Hscript : ∀ p us es k x, tr p = Some (us, es) → ready (urls_size us + 1) (Io (script k) [] [] x)).

Record client_ok (s : sim_state) (h : option nat) (id : nat) (c : simclient_entry) (a : aclient) : Prop := {
  co_trace : ∃ us, tr (client_path c) = Some (us, trace a) ∧
    (h = Some id → open_files s !! fd c = Some (image us (trace a), image (drop (reached a) us) (drop (reached a) (trace a))));
  co_length : length (entry_cache c) = ENTRY_CACHE_SIZE;
  co_bounds : (entry_cache_offset c <= max_in_cache c <= ENTRY_CACHE_SIZE)%nat;
  co_cached : drop (entry_cache_offset c) (take (max_in_cache c) (entry_cache c)) = cached a;
  co_offset : curr_fd_offset c = 0 ∨ curr_fd_offset c = 1;
  co_valid : is_fd_valid c = bool_decide (h = Some id);
}.

Record player_ok (s : sim_state) (p : aplayer) : Prop := {
  po_ring : ∃ occ, ring s occ ∧ (∀ h, holder p = Some h → occ = Some (block (clist s), h)) ∧
    ∀ g e, occ = Some (g, e) → g = block (clist s) ∧ is_Some (aclients p !! e);
  po_count : cur_num_clients (clist s) = last_id p ∧ length (client_list s) = max_num_clients (clist s) ∧ (last_id p < max_num_clients (clist s))%nat;
  po_dom : ∀ id, is_Some (aclients p !! id) ↔ (0 < id <= last_id p)%nat;
  po_clients : ∀ id a, aclients p !! id = Some a → ∃ c, client_list s !! id = Some c ∧ client_ok s (holder p) id c a;
  po_fresh : ∀ id, (id < max_num_clients (clist s))%nat → aclients p !! id = None → client_list s !! id = Some zero_client;
  po_max : max_num_clients (clist s) = max_clients;
}.

Lemma closed_client s p id c : player_ok s p → client_list s !! id = Some c → holder p ≠ Some id → closed c = c.
Proof.
  intros Hp Hc Hh. unfold closed. destruct (is_fd_valid c) eqn:Hv; [|done]. exfalso.
  assert (Hlt : (id < max_num_clients (clist s))%nat) by (rewrite <-(proj1 (proj2 (po_count _ _ Hp))); by eapply lookup_lt_Some).
  destruct (aclients p !! id) as [a|] eqn:Ha.
  - destruct (po_clients _ _ Hp _ _ Ha) as (c'&Hc'&Hok). rewrite Hc in Hc'. injection Hc' as <-. rewrite (co_valid _ _ _ _ _ Hok) in Hv.
    by apply bool_decide_eq_true in Hv.
  - rewrite (po_fresh _ _ Hp id Hlt Ha) in Hc. by injection Hc as <-.
Qed.

(** The file of a client, open at the place where the next block starts. *)
Lemma get_fd_ok s p id a c us : player_ok s p → aclients p !! id = Some a → client_list s !! id = Some c → client_ok s (holder p) id c a →
  tr (client_path c) = Some (us, trace a) →
  let from := if decide (holder p = Some id) then reached a else 0%nat in
  ∃ f s1, get_fd_for_client trace_file id s = Ret (f, s1) ∧ ring s1 (Some (block (clist s1), id)) ∧
    client_list s1 !! id = Some (set_file true f (curr_fd_offset c) c) ∧
    open_files s1 !! f = Some (image us (trace a), image (drop from us) (drop from (trace a))) ∧
    (cur_num_clients (clist s1), max_num_clients (clist s1), block (clist s1), length (client_list s1)) =
      (cur_num_clients (clist s), max_num_clients (clist s), block (clist s), length (client_list s)) ∧
    ∀ j, j ≠ id → client_list s1 !! j = closed <$> client_list s !! j.
Proof.
  intros Hp Ha Hc Hok Htc from. pose proof Hok as [(us'&Htc'&Hopen) _ _ _ Hoff Hval]. rewrite Htc in Htc'. injection Htc' as <-.
  destruct (po_ring _ _ Hp) as (occ&Hr&Hhold&Hocc). assert (Hcl : client id s = Ret (c, s)) by (unfold client; unfold client_list in Hc; by rewrite Hc).
  unfold get_fd_for_client. rewrite (bind_ret _ _ _ _ _ Hcl), Hval. unfold from. destruct (decide (holder p = Some id)) as [Hh|Hh].
  - rewrite bool_decide_true by done. exists (fd c), s. split; [done|]. rewrite (Hhold _ Hh) in Hr. split; [done|].
    rewrite bool_decide_true in Hval by done. split; [rewrite Hc; f_equal; destruct c; cbn in *; by rewrite Hval|].
    split; [by apply Hopen|]. split; [done|]. intros j Hj. destruct (client_list s !! j) as [cj|] eqn:Hcj; [|done]. cbn.
    rewrite (closed_client s p j cj Hp Hcj); [done|congruence].
  - rewrite bool_decide_false by done. destruct (end_to_front_ok s occ Hr) as (s2&H2&Hr2&Hc2). rewrite (bind_ret _ _ _ _ _ H2).
    unfold core in Hc2. injection Hc2 as Hcur Hmax Hlist Hblk Hof Hnf Hcalls.
    destruct (close_holder_ok s2 occ Hr2) as (s3&H3&Hr3&Hc3).
    { destruct occ as [[g e]|]; [|done]. destruct (Hocc g e eq_refl) as [-> [ae Hae]]. split; [done|].
      destruct (po_clients _ _ Hp _ _ Hae) as (ce&Hce&Hoke). exists ce. unfold client_list in *. rewrite Hlist. split; [done|]. intros Hv.
      destruct Hoke as [(ue&_&Ho) _ _ _ _ Hve]. rewrite Hve in Hv. apply bool_decide_eq_true in Hv. rewrite Hof, (Ho Hv). by eexists. }
    rewrite (bind_ret _ _ _ _ _ H3). unfold core_of in Hc3. injection Hc3 as Hcur3 Hmax3 Hlist3 Hblk3 Hnf3.
    rewrite (bind_ret _ _ s3 (block (clist s3)) s3) by done.
    destruct (buf_set_client (Some (block (clist s3), id)) s3 occ Hr3) as (s4&H4&Hr4&Hc4). rewrite (bind_ret _ _ _ _ _ H4).
    unfold core in Hc4. injection Hc4 as Hcur4 Hmax4 Hlist4 Hblk4 Hof4 Hnf4 Hcalls4.
    assert (Hall : ∀ j, client_list s4 !! j = closed <$> client_list s !! j).
    { intros j. unfold client_list in *. rewrite Hlist4, Hlist3. destruct occ as [[g e]|].
      - rewrite Hlist. destruct (decide (j = e)) as [->|Hne]; [by rewrite list_lookup_alter_eq|]. rewrite list_lookup_alter_ne by done.
        destruct (list_o_clients (clist s) !! j) as [cj|] eqn:Hcj; [|done]. cbn. rewrite (closed_client s p j cj Hp Hcj); [done|].
        intros Hhj. apply Hhold in Hhj. injection Hhj as _ ->. done.
      - rewrite Hlist. destruct (list_o_clients (clist s) !! j) as [cj|] eqn:Hcj; [|done]. cbn. rewrite (closed_client s p j cj Hp Hcj); [done|].
        intros Hhj. by apply Hhold in Hhj. }
    assert (Hc4' : client_list s4 !! id = Some c).
    { rewrite Hall, Hc. cbn. by rewrite (closed_client s p id c Hp Hc Hh). }
    assert (Htf : trace_file (client_path c) = Some (image us (trace a))) by (unfold trace_file; by rewrite Htc).
    pose proof (open_client_ok trace_file s4 id c _ Hc4' Hoff Htf) as H5.
    eexists _, _. split; [exact H5|]. assert (Hh4 : has id s4) by (unfold has; by eapply lookup_lt_Some).
    split; [destruct Hr4; split; cbn; rewrite ?Hblk4; done|]. split; [by apply lookup_store|].
    split; [cbn; by rewrite !drop_0, lookup_insert_eq|]. split.
    + cbn. rewrite length_insert, Hcur4, Hcur3, Hcur, Hmax4, Hmax3, Hmax, Hblk4, Hblk3, Hblk. f_equal. unfold client_list in *. rewrite Hlist4, Hlist3.
      destruct occ as [[g e]|]; rewrite ?length_alter; by rewrite Hlist.
    + intros j Hj. cbn. rewrite list_lookup_insert_ne by done. apply Hall.
Qed.

Abbreviation suck_in := (suck_in_buffer_data trace_file script malloc_ok junk).

(** A client that is not refilled keeps its cache; its file may be closed. *)
Lemma other_ok s s' h id c a : client_ok s h id c a → ∀ h', h' ≠ Some id → client_ok s' h' id (closed c) a.
Proof.
  intros [(us&Ht&_) ? ? ? ? Hv] h' Hh'. unfold closed. destruct (is_fd_valid c) eqn:E.
  - split; cbn; try done; [exists us; split; [done|congruence]|by right|by rewrite bool_decide_false].
  - split; try done; [exists us; split; [done|congruence]|by rewrite bool_decide_false].
Qed.

Lemma refill_ok s p id p' : player_ok s p → abs_refill id p = Some p' → ∃ s', suck_in id s = Ret ((), s') ∧ player_ok s' p'.
Proof.
  intros Hp Hx. unfold abs_refill in Hx. apply bind_Some in Hx as (a&Ha&Hx). cbn zeta in Hx.
  destruct (po_clients _ _ Hp _ _ Ha) as (c&Hc&Hok). destruct (co_trace _ _ _ _ _ Hok) as (us&Htc&_). destruct (Htr _ _ _ Htc) as [Hwf Hne].
  destruct (get_fd_ok s p id a c us Hp Ha Hc Hok Htc) as (f&s1&H1&Hr1&Hc1&Ho1&Hcnt&Hoth).
  set (from := if decide (holder p = Some id) then reached a else 0%nat) in *.
  unfold suck_in_buffer_data. rewrite (bind_ret _ _ _ _ _ H1). assert (Hh1 : has id s1) by (unfold has; by eapply lookup_lt_Some).
  set (c1 := set_file true f (curr_fd_offset c) c) in *.
  assert (Hwf' : Forall2 (entry_wf 3) (drop from us) (drop from (trace a))) by (by apply Forall2_drop).
  destruct (suck_loop_ok script malloc_ok Hmalloc junk id f (image us (trace a)) ENTRY_CACHE_SIZE 0 (drop from us) (drop from (trace a)) c1 s1 Hh1)
    as (c2&fs&k&H2&Hp2&Hl2&Hm2&Ht2&Hfin); try done.
  { apply (co_length _ _ _ _ _ Hok). }
  { intros k x. eapply ready_le; [exact (Hscript _ _ _ k x Htc)|]. rewrite <-(take_drop from us) at 2. rewrite urls_size_app. lia. }
  rewrite (store_id id c1 s1 Hc1) in H2. rewrite (bind_ret _ _ _ _ _ H2).
  set (s2 := Sim (clist s1) fs (next_fd s1) k) in *. assert (Hh2 : has id s2) by done. rewrite client_update_store by done.
  eexists. split; [reflexivity|]. injection Hcnt as Hcur Hmax Hblk Hlen. injection Hx as <-.
  set (blk := take ENTRY_CACHE_SIZE (drop from (trace a))) in *. cbn [plus take app] in *.
  assert (Hblen : (length blk < ENTRY_CACHE_SIZE)%nat ↔ (length (drop from (trace a)) < ENTRY_CACHE_SIZE)%nat) by (unfold blk; rewrite length_take; lia).
  assert (Hble : (length blk <= ENTRY_CACHE_SIZE)%nat) by (unfold blk; rewrite length_take; lia). clearbody blk.
  assert (Hdom : ∀ x j, is_Some (<[id := x]> (aclients p) !! j) ↔ is_Some (aclients p !! j)).
  { intros x j. destruct (decide (j = id)) as [->|Hj]; [rewrite lookup_insert_eq, Ha; split; intros _; by eexists|by rewrite lookup_insert_ne]. }
  destruct (po_count _ _ Hp) as (Hn1&Hn2&Hn3).
  split.
  - exists (Some (block (clist s1), id)). cbn [aclients holder]. split; [by destruct Hr1|]. split.
    + intros h Hh. destruct (decide (length blk < ENTRY_CACHE_SIZE)%nat); [done|]. by injection Hh as <-.
    + intros g e [= <- <-]. split; [done|]. by apply Hdom.
  - cbn. rewrite length_insert. unfold client_list in *. rewrite Hcur, Hmax, Hlen. done.
  - intros j. cbn [aclients last_id]. rewrite Hdom. apply (po_dom _ _ Hp).
  - intros j aj. cbn [aclients holder]. destruct (decide (j = id)) as [->|Hj].
    + rewrite lookup_insert_eq. intros [= <-]. exists (set_pos 0 c2). split; [by apply lookup_store|]. split; cbn.
      * exists us. rewrite Hp2. split; [done|]. destruct (decide (length (drop from (trace a)) < ENTRY_CACHE_SIZE)%nat) as [Hlt|Hge].
        { rewrite decide_True by (by apply Hblen). done. }
        { intros _. destruct Hfin as (_&_&->&->). by rewrite !drop_drop. }
      * done.
      * rewrite Hm2. split; [lia|exact Hble].
      * by rewrite drop_0.
      * destruct (decide (length (drop from (trace a)) < ENTRY_CACHE_SIZE)%nat) as [Hlt|Hge]; [left; apply Hfin|]. destruct Hfin as (_&->&_). apply (co_offset _ _ _ _ _ Hok).
      * destruct (decide (length (drop from (trace a)) < ENTRY_CACHE_SIZE)%nat) as [Hlt|Hge].
        { rewrite (proj1 Hfin). symmetry. apply bool_decide_eq_false. by rewrite decide_True by (by apply Hblen). }
        { rewrite (proj1 Hfin). symmetry. apply bool_decide_eq_true. by rewrite decide_False by (by rewrite Hblen). }
    + rewrite lookup_insert_ne by done. intros Haj. destruct (po_clients _ _ Hp _ _ Haj) as (cj&Hcj&Hokj). exists (closed cj). split.
      * cbn. rewrite list_lookup_insert_ne by done. rewrite Hoth, Hcj by done. done.
      * eapply other_ok; [exact Hokj|]. destruct (decide (length blk < ENTRY_CACHE_SIZE)%nat); congruence.
  - intros j Hj Hnone. cbn [aclients] in Hnone. destruct (decide (j = id)) as [->|Hne'].
    { by rewrite lookup_insert_eq in Hnone. }
    rewrite lookup_insert_ne in Hnone by done. cbn. rewrite list_lookup_insert_ne, Hoth by done. cbn in Hj. rewrite Hmax in Hj.
    by rewrite (po_fresh _ _ Hp j Hj Hnone).
  - cbn. rewrite Hmax. apply (po_max _ _ Hp).
Qed.

Lemma cache_used s h id c a : client_ok s h id c a → length (cached a) = (max_in_cache c - entry_cache_offset c)%nat.
Proof.
  intros Hok. pose proof (co_bounds _ _ _ _ _ Hok). pose proof (co_length _ _ _ _ _ Hok). rewrite <-(co_cached _ _ _ _ _ Hok).
  rewrite length_drop, length_take. lia.
Qed.

(** The test of the loop. *)
Lemma refill_step s p id a fuel : player_ok s p → aclients p !! id = Some a →
  refill_loop trace_file script malloc_ok junk (S fuel) id s =
  if empty_cache id p then (_ ← suck_in id; refill_loop trace_file script malloc_ok junk fuel id) s else Ret ((), s).
Proof.
  intros Hp Ha. destruct (po_clients _ _ Hp _ _ Ha) as (c&Hc&Hok). pose proof (cache_used _ _ _ _ _ Hok) as Hlen.
  pose proof (co_bounds _ _ _ _ _ Hok). assert (Hcl : client id s = Ret (c, s)) by (unfold client; unfold client_list in Hc; by rewrite Hc).
  cbn [refill_loop]. rewrite (bind_ret _ _ _ _ _ Hcl). unfold empty_cache. rewrite Ha.
  assert (Hb : bool_decide (entry_cache_offset c = max_in_cache c) || bool_decide (max_in_cache c = 0%nat) = bool_decide (cached a = [])).
  { destruct (cached a) as [|x l]; cbn [length] in Hlen.
    - rewrite (bool_decide_true ([] = [])), (bool_decide_true (entry_cache_offset c = _)) by (done || lia). done.
    - rewrite (bool_decide_false (x :: l = [])), (bool_decide_false (entry_cache_offset c = _)), (bool_decide_false (max_in_cache c = _)) by (done || lia). done. }
  rewrite Hb. by destruct (bool_decide (cached a = [])).
Qed.

Lemma abs_refill_dom id p p' j : abs_refill id p = Some p' → is_Some (aclients p !! j) → is_Some (aclients p' !! j).
Proof.
  unfold abs_refill. intros Hx Hj. apply bind_Some in Hx as (a&Ha&Hx). injection Hx as <-. cbn.
  destruct (decide (j = id)) as [->|Hne]; [by rewrite lookup_insert_eq|by rewrite lookup_insert_ne].
Qed.

Lemma pop_ok s p id a e l : player_ok s p → aclients p !! id = Some a → cached a = e :: l → ∃ c,
  client_list s !! id = Some c ∧ entry_cache c !! entry_cache_offset c = Some e ∧
  player_ok (store id (set_pos (S (entry_cache_offset c)) c) s) (APlayer (<[id := AClient (trace a) l (reached a)]> (aclients p)) (holder p) (last_id p)).
Proof.
  intros Hp Ha Hcached. destruct (po_clients _ _ Hp _ _ Ha) as (c&Hc&Hok). exists c. split; [done|].
  pose proof (co_cached _ _ _ _ _ Hok) as Hca. rewrite Hcached in Hca. pose proof (co_bounds _ _ _ _ _ Hok). pose proof (cache_used _ _ _ _ _ Hok) as Hlen.
  rewrite Hcached in Hlen. cbn [length] in Hlen. split.
  - assert (H0 : drop (entry_cache_offset c) (take (max_in_cache c) (entry_cache c)) !! 0%nat = Some e) by (by rewrite Hca).
    rewrite lookup_drop, Nat.add_0_r, lookup_take in H0. by destruct (decide _).
  - destruct Hp as [Hring Hcount Hdom Hcl Hfresh Hmx]. assert (Hh : has id s) by (unfold has; by eapply lookup_lt_Some).
    assert (Hd : ∀ x j, is_Some (<[id := x]> (aclients p) !! j) ↔ is_Some (aclients p !! j)).
    { intros x j. destruct (decide (j = id)) as [->|Hj]; [rewrite lookup_insert_eq, Ha; split; intros _; by eexists|by rewrite lookup_insert_ne]. }
    split.
    + destruct Hring as (occ&[? ? ? ?]&?&Hocc). exists occ. split; [by split|]. split; [done|]. intros g e' He'. cbn. rewrite Hd. by apply Hocc.
    + cbn. by rewrite length_insert.
    + intros j. cbn. rewrite Hd. apply Hdom.
    + intros j aj. cbn [aclients holder]. destruct (decide (j = id)) as [->|Hj].
      * rewrite lookup_insert_eq. intros [= <-]. eexists. split; [by apply lookup_store|]. destruct Hok as [Ht ? ? ? ? Hv]. split; cbn; try done; [lia|].
        change (S (entry_cache_offset c)) with (1 + entry_cache_offset c)%nat. rewrite Nat.add_comm, <-drop_drop, Hca. done.
      * rewrite lookup_insert_ne by done. intros Haj. destruct (Hcl _ _ Haj) as (cj&Hcj&Hokj). exists cj. split; [|by destruct Hokj].
        cbn. by rewrite list_lookup_insert_ne.
    + intros j Hj Hnone. cbn in Hj, Hnone. assert (j ≠ id) by (intros ->; by rewrite lookup_insert_eq in Hnone).
      rewrite lookup_insert_ne in Hnone by done. cbn. rewrite list_lookup_insert_ne by done. by apply Hfresh.
    + done.
Qed.

Lemma get_entry_ok s p id e p' : player_ok s p → abs_get id p = Some (e, p') →
  ∃ s', get_client_entry trace_file script malloc_ok junk 3 id s = Ret (e, s') ∧ player_ok s' p'.
Proof.
  intros Hp Hx. unfold abs_get in Hx. apply bind_Some in Hx as (p1&H1&Hx). apply bind_Some in Hx as (p2&H2&Hx). apply bind_Some in Hx as (a&Ha&Hx).
  destruct (cached a) as [|x l] eqn:Hca; [done|]. injection Hx as -> <-.
  assert (Hdone : empty_cache id p2 = false) by (unfold empty_cache; rewrite Ha; by rewrite bool_decide_false by (by rewrite Hca)).
  assert (Hloop : ∃ s2, refill_loop trace_file script malloc_ok junk 3 id s = Ret ((), s2) ∧ player_ok s2 p2).
  { assert (Hstop : ∀ fuel s, player_ok s p2 → refill_loop trace_file script malloc_ok junk (S fuel) id s = Ret ((), s)).
    { intros fuel s0 Hp0. rewrite (refill_step s0 p2 id a fuel Hp0 Ha). by rewrite Hdone. }
    assert (Hsome : ∀ q q', (if empty_cache id q then abs_refill id q else Some q) = Some q' → is_Some (aclients q' !! id) → is_Some (aclients q !! id)).
    { intros q q' Hq Hi. destruct (empty_cache id q); [|by injection Hq as ->]. unfold abs_refill in Hq. apply bind_Some in Hq as (aq&Haq&_). by eexists. }
    assert (Hi1 : is_Some (aclients p1 !! id)) by (eapply Hsome; [exact H2|by eexists]). destruct (Hsome _ _ H1 Hi1) as [a0 Ha0].
    destruct Hi1 as [a1 Ha1]. destruct (empty_cache id p) eqn:E1; [|injection H1 as <-].
    - destruct (refill_ok s p id p1 Hp H1) as (s1&Hs1&Hp1). rewrite (refill_step s p id a0 2 Hp Ha0), E1, (bind_ret _ _ _ _ _ Hs1).
      destruct (empty_cache id p1) eqn:E2; [|injection H2 as <-; exists s1; split; [by apply Hstop|done]].
      destruct (refill_ok s1 p1 id p2 Hp1 H2) as (s2&Hs2&Hp2). rewrite (refill_step s1 p1 id a1 1 Hp1 Ha1), E2, (bind_ret _ _ _ _ _ Hs2).
      exists s2. split; [by apply Hstop|done].
    - rewrite E1 in H2. injection H2 as <-. exists s. split; [by apply Hstop|done]. }
  destruct Hloop as (s2&Hl&Hp2). unfold get_client_entry. rewrite (bind_ret _ _ _ _ _ Hl).
  destruct (pop_ok s2 p2 id a e l Hp2 Ha Hca) as (c&Hc&He&Hok). assert (Hcl : client id s2 = Ret (c, s2)) by (unfold client; unfold client_list in Hc; by rewrite Hc).
  rewrite (bind_ret _ _ _ _ _ Hcl), He. rewrite (bind_ret _ _ _ _ _ (client_update_ok id _ c s2 Hc)). eexists. split; [reflexivity|exact Hok].
Qed.

Definition path_client (path : bytes) : simclient_entry := Client path 0 false 0 (replicate ENTRY_CACHE_SIZE zero_entry) 0 0.
Definition one_more (s : sim_state) : sim_state :=
  with_clist (λ c, Clist (S (cur_num_clients c)) (max_num_clients c) (list_o_clients c) (block c) (fd_buf_ptrs c) (head_el c) (tail_el c)) s.

Lemma joined_ok s p path us es : player_ok s p → tr path = Some (us, es) → (S (last_id p) < max_num_clients (clist s))%nat →
  player_ok (store (S (last_id p)) (path_client path) (one_more s))
    (APlayer (<[S (last_id p) := AClient es [] 0]> (aclients p)) (holder p) (S (last_id p))).
Proof.
  intros Hp Ht Hlt. set (id := S (last_id p)) in *. pose proof Hp as [Hring Hcount Hdom Hcl Hfresh Hmx].
  assert (Hnew : aclients p !! id = None) by (apply eq_None_not_Some; rewrite Hdom; unfold id; lia).
  assert (Hold : ∀ j, is_Some (aclients p !! j) → j ≠ id) by (intros j Hj ->; rewrite Hnew in Hj; by destruct Hj).
  assert (Hhold : holder p ≠ Some id).
  { intros Hh. destruct Hring as (occ&_&Ho&Hocc). specialize (Ho _ Hh). destruct (Hocc _ _ Ho) as [_ Hs]. by apply (Hold id Hs). }
  assert (Hh : has id s) by (unfold has; destruct Hcount as (_&Hl&_); unfold client_list in Hl; lia).
  split.
  - destruct Hring as (occ&[? ? ? ?]&?&Hocc). exists occ. split; [by split|]. split; [done|]. intros g e He. cbn. destruct (Hocc _ _ He) as [? Hs].
    split; [done|]. rewrite lookup_insert_ne; [done|]. intros <-. by apply (Hold id Hs).
  - cbn. rewrite length_insert. destruct Hcount as (->&Hl&_). done.
  - intros j. cbn. destruct (decide (j = id)) as [->|Hj].
    + rewrite lookup_insert_eq. split; [unfold id; lia|intros _; by eexists].
    + rewrite lookup_insert_ne, Hdom by done. unfold id in *. lia.
  - intros j aj. cbn [aclients holder]. destruct (decide (j = id)) as [->|Hj].
    + rewrite lookup_insert_eq. intros [= <-]. exists (path_client path). split; [by apply lookup_store|]. split; cbn; try done; [|lia|by left|].
      * exists us. split; [done|]. intros Hhj. by destruct Hhold.
      * by rewrite bool_decide_false.
    + rewrite lookup_insert_ne by done. intros Haj. destruct (Hcl _ _ Haj) as (cj&Hcj&Hokj). exists cj. split; [|by destruct Hokj].
      cbn. by rewrite list_lookup_insert_ne.
  - intros j Hj Hnone. cbn in Hj, Hnone. assert (j ≠ id) by (intros ->; by rewrite lookup_insert_eq in Hnone).
    rewrite lookup_insert_ne in Hnone by done. cbn. rewrite list_lookup_insert_ne by done. by apply Hfresh.
  - done.
Qed.

Lemma add_client_ok s p path us es p' : player_ok s p → tr path = Some (us, es) → (S (last_id p) < max_num_clients (clist s))%nat → abs_add es p = Some p' →
  ∃ s', add_client_to_list trace_file script malloc_ok junk alloc_ok path s = Ret (S (last_id p), s') ∧ player_ok s' p'.
Proof.
  intros Hp Ht Hlt Hx. pose proof (joined_ok s p path us es Hp Ht Hlt) as Hj. destruct (refill_ok _ _ _ _ Hj Hx) as (s'&Hs&Hp').
  exists s'. split; [|done]. destruct (po_count _ _ Hp) as (Hcur&Hlen&_). unfold add_client_to_list.
  rewrite (bind_ret (modify _) _ s () (one_more s)) by done. rewrite (bind_ret (gets clist) _ _ (clist (one_more s)) (one_more s)) by done.
  change (cur_num_clients (clist (one_more s))) with (S (cur_num_clients (clist s))). change (max_num_clients (clist (one_more s))) with (max_num_clients (clist s)).
  rewrite Hcur. rewrite decide_False by lia. rewrite mret_bind. cbn [negb]. rewrite Hmalloc.
  assert (Hz : list_o_clients (clist (one_more s)) !! S (last_id p) = Some zero_client).
  { apply (po_fresh _ _ Hp); [done|]. apply eq_None_not_Some. rewrite (po_dom _ _ Hp). lia. }
  rewrite (bind_ret _ _ _ _ _ (client_update_ok _ _ _ _ Hz)). cbn [fd is_fd_valid curr_fd_offset entry_cache entry_cache_offset max_in_cache zero_client].
  fold (path_client path). rewrite (bind_ret _ _ _ _ _ Hs). done.
Qed.

Lemma abs_refill_last id p p' : abs_refill id p = Some p' → last_id p' = last_id p.
Proof. unfold abs_refill. intros Hx. apply bind_Some in Hx as (a&_&Hx). by injection Hx as <-. Qed.

Lemma abs_get_last id p e p' : abs_get id p = Some (e, p') → last_id p' = last_id p.
Proof.
  unfold abs_get. intros Hx. apply bind_Some in Hx as (p1&H1&Hx). apply bind_Some in Hx as (p2&H2&Hx). apply bind_Some in Hx as (a&_&Hx).
  assert (Hgo : ∀ q q', (if empty_cache id q then abs_refill id q else Some q) = Some q' → last_id q' = last_id q).
  { intros q q' Hq. destruct (empty_cache id q); [by eapply abs_refill_last|by injection Hq as ->]. }
  destruct (cached a); [done|]. injection Hx as _ <-. cbn. rewrite (Hgo _ _ H2). by apply Hgo.
Qed.

Definition joins (ops : list player_op) : nat := length (List.filter (λ op, match op with Join _ => true | Replay _ => false end) ops).

Lemma player_exec_ok ops : ∀ s p rs p', player_ok s p → (last_id p + joins ops < max_clients)%nat → abs_player_exec tr ops p = Some (rs, p') →
  ∃ s', player_exec trace_file script malloc_ok junk alloc_ok ops s = Ret (rs, s') ∧ player_ok s' p'.
Proof.
  induction ops as [|op ops IH]; intros s p rs p' Hp Hj Hx; cbn [abs_player_exec player_exec] in *; [injection Hx as <- <-; by exists s|].
  apply bind_Some in Hx as ((r&p1)&H1&Hx). apply bind_Some in Hx as ((rs1&p2)&H2&Hx). injection Hx as <- <-. destruct op as [path|id]; cbn [abs_player_step] in H1.
  - apply bind_Some in H1 as ((us&es)&Ht&H1). apply bind_Some in H1 as (q&Hadd&H1). injection H1 as <- <-.
    change (joins (Join path :: ops)) with (S (joins ops)) in Hj.
    destruct (add_client_ok s p path us es q Hp Ht) as (s1&Hs1&Hp1); [rewrite (po_max _ _ Hp); lia|done|].
    assert (Hlast : last_id q = S (last_id p)) by (by apply abs_refill_last in Hadd).
    assert (Hstep : player_step trace_file script malloc_ok junk alloc_ok (Join path) s = Ret (inl (last_id q), s1)).
    { cbn [player_step]. rewrite (bind_ret _ _ _ _ _ Hs1). by rewrite Hlast. }
    rewrite (bind_ret _ _ _ _ _ Hstep). destruct (IH s1 q rs1 p2 Hp1) as (s2&Hs2&Hp2); [lia|done|]. rewrite (bind_ret _ _ _ _ _ Hs2). by exists s2.
  - apply bind_Some in H1 as ((e&q)&Hget&H1). injection H1 as <- <-. change (joins (Replay id :: ops)) with (joins ops) in Hj.
    destruct (get_entry_ok s p id e q Hp Hget) as (s1&Hs1&Hp1).
    assert (Hstep : player_step trace_file script malloc_ok junk alloc_ok (Replay id) s = Ret (inr e, s1)).
    { cbn [player_step]. by rewrite (bind_ret _ _ _ _ _ Hs1). }
    rewrite (bind_ret _ _ _ _ _ Hstep). destruct (IH s1 q rs1 p2 Hp1) as (s2&Hs2&Hp2); [rewrite (abs_get_last _ _ _ _ Hget); lia|done|].
    rewrite (bind_ret _ _ _ _ _ Hs2). by exists s2.
Qed.

Lemma init_clients_ok s : alloc_ok max_clients = true → (0 < max_clients)%nat → ∃ s', init_list_o_clients alloc_ok max_clients s = Ret (1, s') ∧ player_ok s' (APlayer ∅ None 0).
Proof.
  intros Ha Hm. unfold init_list_o_clients. rewrite Ha. eexists. split; [reflexivity|]. split; cbn.
  - exists None. split; [|done]. split; cbn; try done; [unfold NUM_FDS_USED; lia|].
    exists (init_buf (NUM_FDS_USED - 1)), (NUM_FDS_USED - 2)%nat. split; [reflexivity|]. split; [done|]. split; [reflexivity|]. unfold NUM_FDS_USED. lia.
  - by rewrite length_replicate.
  - intros id. rewrite lookup_empty. split; [by intros [? ?]|lia].
  - intros id a Ha'. by rewrite lookup_empty in Ha'.
  - intros id Hid _. by apply lookup_replicate_2.
  - done.
Qed.
End player.

(** ** What the abstract player does *)

(** One client: its cache is what follows position [j] of its trace, which is
    where the file has been read to, or its end when the file is closed. *)
Record alone (es : list lf_entry) (j : nat) (p : aplayer) : Prop := {
  al_client : ∃ a, aclients p !! 1%nat = Some a ∧ trace a = es ∧ cached a = take (length (cached a)) (drop j es) ∧ (j + length (cached a) <= length es)%nat ∧
    match holder p with
    | Some h => h = 1%nat ∧ reached a = (j + length (cached a))%nat
    | None => (j + length (cached a) = length es)%nat
    end;
}.

Lemma refill_alone es j p : alone es j p → empty_cache 1 p = true →
  ∃ p', abs_refill 1 p = Some p' ∧ let j' := match holder p with Some _ => j | None => 0%nat end in
    alone es j' p' ∧ (empty_cache 1 p' = true → j' = length es ∧ holder p' = None) ∧ (holder p = None → j = length es).
Proof.
  intros [(a&Ha&Ht&Hc&Hle&Hh)] He. unfold empty_cache in He. rewrite Ha in He. apply bool_decide_eq_true in He. rewrite He in Hh, Hle. cbn [length] in Hh, Hle.
  unfold abs_refill. rewrite Ha. cbn [mbind option_bind]. eexists. split; [reflexivity|]. cbn zeta.
  assert (Hfrom : (if decide (holder p = Some 1%nat) then reached a else 0%nat) = match holder p with Some _ => j | None => 0%nat end).
  { destruct (holder p) as [h|]; [|by rewrite decide_False]. destruct Hh as [-> ->]. rewrite decide_True by done. lia. }
  rewrite Hfrom, Ht. set (q := match holder p with Some _ => j | None => 0%nat end). assert (Hq : (q <= length es)%nat) by (unfold q; destruct (holder p); lia).
  assert (Hbl : length (take ENTRY_CACHE_SIZE (drop q es)) = (ENTRY_CACHE_SIZE `min` (length es - q))%nat) by (rewrite length_take, length_drop; done).
  split; [|split].
  - split. eexists. cbn [aclients]. rewrite lookup_insert_eq. split; [done|]. cbn [trace cached reached holder]. split; [done|]. rewrite Hbl.
    split; [|split; [lia|]].
    + rewrite <-(length_drop es q). destruct (Nat.le_ge_cases ENTRY_CACHE_SIZE (length (drop q es))); [by rewrite Nat.min_l|].
      rewrite Nat.min_r by done. rewrite firstn_all. apply take_ge. done.
    + clear Hfrom. clearbody q. destruct (decide (ENTRY_CACHE_SIZE `min` (length es - q) < ENTRY_CACHE_SIZE)%nat) as [Hlt|Hge]; [lia|]. split; [done|lia].
  - unfold empty_cache. cbn [aclients holder]. rewrite lookup_insert_eq. cbn [cached]. intros Hemp. apply bool_decide_eq_true in Hemp. rewrite Hemp in *. cbn [length] in *.
    unfold ENTRY_CACHE_SIZE in *. rewrite decide_True by lia. split; [lia|done].
  - intros Hn. rewrite Hn in Hh. lia.
Qed.

Lemma get_alone es j p : es ≠ [] → alone es j p → ∃ e p' j', abs_get 1 p = Some (e, p') ∧ es !! (j mod length es)%nat = Some e ∧ alone es j' p' ∧
  (j' mod length es = S j mod length es)%nat.
Proof.
  intros Hne Hal. assert (Hpos : (0 < length es)%nat) by (destruct es; [done|cbn; lia]).
  assert (Hpop : ∀ q j, alone es j q → empty_cache 1 q = false → ∃ e l a, aclients q !! 1%nat = Some a ∧ cached a = e :: l ∧ es !! j = Some e ∧ (j < length es)%nat ∧
    alone es (S j) (APlayer (<[1%nat := AClient (trace a) l (reached a)]> (aclients q)) (holder q) (last_id q))).
  { clear Hal j. intros q j [(a&Ha&Ht&Hc&Hle&Hh)] He. unfold empty_cache in He. rewrite Ha in He. apply bool_decide_eq_false in He.
    destruct (cached a) as [|e l] eqn:Ec; [done|]. exists e, l, a. split; [done|]. split; [done|]. cbn [length] in *.
    destruct (drop j es) as [|x r] eqn:Ed; [by rewrite take_nil in Hc|]. cbn [take] in Hc. injection Hc as <- Hl.
    assert (Hx : es !! j = Some e) by (rewrite <-(Nat.add_0_r j), <-lookup_drop, Ed; done). split; [done|]. split; [lia|].
    assert (Er : drop (S j) es = r) by (change (S j) with (1 + j)%nat; rewrite Nat.add_comm, <-drop_drop, Ed; done).
    split. eexists. cbn [aclients holder]. rewrite lookup_insert_eq. split; [done|]. cbn [trace cached reached]. rewrite Er.
    split; [done|]. split; [done|]. split; [lia|]. destruct (holder q); [|lia]. destruct Hh as [-> ->]. split; [done|lia]. }
  assert (Hready : ∃ q k, (p1 ← (if empty_cache 1 p then abs_refill 1 p else Some p); if empty_cache 1 p1 then abs_refill 1 p1 else Some p1) = Some q ∧
    alone es k q ∧ empty_cache 1 q = false ∧ (k mod length es = j mod length es)%nat).
  { destruct (empty_cache 1 p) eqn:E1; [|exists p, j; cbn [mbind option_bind]; by rewrite E1].
    destruct (refill_alone es j p Hal E1) as (p1&->&Hal1&Hend&Hnone). cbn zeta in *. cbn [mbind option_bind]. destruct (empty_cache 1 p1) eqn:E2.
    - destruct (Hend eq_refl) as [Hj Hh]. destruct (refill_alone es _ p1 Hal1 E2) as (p2&->&Hal2&Hend2&_). rewrite Hh in *. exists p2, 0%nat.
      split; [done|]. split; [done|]. split.
      + destruct (empty_cache 1 p2); [|done]. destruct (Hend2 eq_refl). lia.
      + rewrite Nat.Div0.mod_0_l. destruct (holder p); [rewrite Hj; by rewrite Nat.Div0.mod_same|lia].
    - exists p1, (match holder p with Some _ => j | None => 0%nat end). split; [done|]. split; [done|]. split; [done|].
      destruct (holder p); [done|]. rewrite (Hnone eq_refl), Nat.Div0.mod_same, Nat.Div0.mod_0_l. done. }
  destruct Hready as (q&k&Hq&Halq&Heq&Hk). destruct (Hpop q k Halq Heq) as (e&l&a&Ha&Hc&He&Hlt&Hal').
  eexists e, _, (S k). split.
  - unfold abs_get. destruct (if empty_cache 1 p then abs_refill 1 p else Some p) as [p1|] eqn:E1; [|done]. cbn [mbind option_bind] in *.
    rewrite Hq. cbn [mbind option_bind]. rewrite Ha. cbn [mbind option_bind]. rewrite Hc. reflexivity.
  - split; [rewrite <-Hk, Nat.mod_small by done; done|]. split; [done|]. rewrite <-(Nat.add_1_l k), <-(Nat.add_1_l j), Nat.Div0.add_mod, Hk, <-Nat.Div0.add_mod. done.
Qed.

Lemma replays_alone tr es n : es ≠ [] → ∀ j p, alone es j p →
  ∃ rs p', abs_player_exec tr (replicate n (Replay 1)) p = Some (rs, p') ∧
    Forall2 (λ r i, ∃ e, r = inr e ∧ es !! (i mod length es)%nat = Some e) rs (seq j n).
Proof.
  intros Hne. induction n as [|n IH]; intros j p Hal; cbn [replicate abs_player_exec seq]; [by exists [], p|].
  destruct (get_alone es j p Hne Hal) as (e&p1&j'&Hg&He&Hal1&Hj'). destruct (IH j' p1 Hal1) as (rs&p2&Hx&Hrs).
  exists (inr e :: rs), p2. cbn [abs_player_step]. rewrite Hg. cbn [mbind option_bind]. rewrite Hx. split; [done|]. constructor; [by exists e|].
  assert (Hseq : ∀ a b, (a mod length es = b mod length es)%nat → ∀ rs, Forall2 (λ (r : nat + lf_entry) i, ∃ e, r = inr e ∧ es !! (i mod length es)%nat = Some e) rs (seq a n) →
    Forall2 (λ r i, ∃ e, r = inr e ∧ es !! (i mod length es)%nat = Some e) rs (seq b n)); [|by eapply Hseq].
  clear. induction n as [|n IH]; intros a b Hab rs Hf; cbn [seq] in *; [by apply Forall2_nil_inv_r in Hf as ->|].
  apply Forall2_cons_inv_r in Hf as (r&rs'&Hr&Hf&->). constructor; [by rewrite <-Hab|]. eapply IH; [|exact Hf].
  rewrite <-(Nat.add_1_l a), <-(Nat.add_1_l b), Nat.Div0.add_mod, Hab, <-Nat.Div0.add_mod. done.
Qed.

(** A client that is refilled after another one has opened its file gets the
    first block again. *)
Abbreviation SZ := ENTRY_CACHE_SIZE.
Lemma get_restart id p es r k : aclients p !! id = Some (AClient es (drop r (take SZ es)) k) → (r = SZ → holder p ≠ Some id) → (SZ <= length es)%nat → (r <= SZ)%nat →
  ∃ e p' k', abs_get id p = Some (e, p') ∧ es !! (r mod SZ)%nat = Some e ∧
    aclients p' = <[id := AClient es (drop (S (r mod SZ)) (take SZ es)) k']> (aclients p) ∧ holder p' = if decide (r = SZ) then Some id else holder p.
Proof.
  intros Ha Hh Hlen Hr. assert (Htl : length (take SZ es) = SZ) by (rewrite length_take; lia).
  assert (Hpop : ∀ q j, (j < SZ)%nat → ∃ e, drop j (take SZ es) = e :: drop (S j) (take SZ es) ∧ es !! j = Some e ∧ (drop j (take SZ es) = [] → q)).
  { intros q j Hj. destruct (lookup_lt_is_Some_2 (take SZ es) j) as [e He]; [lia|]. exists e. rewrite (drop_S _ _ _ He). split; [done|]. split; [|done].
    rewrite lookup_take in He. by destruct (decide _). }
  unfold abs_get. destruct (decide (r = SZ)) as [->|Hne].
  - assert (Hemp : empty_cache id p = true) by (unfold empty_cache; rewrite Ha; cbn [cached]; apply bool_decide_eq_true; apply drop_ge; lia). rewrite Hemp.
    set (q := APlayer (<[id := AClient es (take SZ es) (0 + SZ)]> (aclients p)) (Some id) (last_id p)).
    assert (Hq : abs_refill id p = Some q).
    { unfold abs_refill. rewrite Ha. cbn [mbind option_bind trace]. rewrite decide_False by (by apply Hh). rewrite drop_0. by rewrite decide_False by lia. }
    rewrite Hq. cbn [mbind option_bind]. destruct (Hpop False 0%nat) as (e&Hc&He&Hnil); [unfold SZ; lia|]. rewrite drop_0 in Hc, Hnil.
    assert (Hemp' : empty_cache id q = false). { unfold empty_cache, q. cbn [aclients]. rewrite lookup_insert_eq. cbn [cached]. by apply bool_decide_eq_false. }
    rewrite Hemp'. cbn [mbind option_bind]. assert (Haq : aclients q !! id = Some (AClient es (take SZ es) (0 + SZ))) by (unfold q; cbn [aclients]; by rewrite lookup_insert_eq).
    rewrite Haq. cbn [mbind option_bind cached]. rewrite Hc. eexists e, _, _.
    split; [reflexivity|]. rewrite Nat.Div0.mod_same. split; [done|]. split; [|done]. unfold q. cbn [aclients trace reached]. by rewrite insert_insert_eq.
  - destruct (Hpop False r) as (e&Hc&He&Hnil); [lia|].
    assert (Hemp : empty_cache id p = false) by (unfold empty_cache; rewrite Ha; cbn [cached]; by apply bool_decide_eq_false).
    rewrite Hemp. cbn [mbind option_bind]. rewrite Hemp. cbn [mbind option_bind]. rewrite Ha. cbn [mbind option_bind cached]. rewrite Hc.
    eexists e, _, _. split; [reflexivity|]. rewrite Nat.mod_small by lia. done.
Qed.

(** Two clients that are asked in turn, and the records of the first blocks. *)
Fixpoint alternate (n : nat) : list player_op := match n with O => [] | S n' => Replay 1 :: Replay 2 :: alternate n' end.
Fixpoint first_blocks (es1 es2 : list lf_entry) (r n : nat) : list (nat + lf_entry) :=
  match n with
  | O => []
  | S n' => inr (nth (r mod SZ) es1 zero_entry) :: inr (nth (r mod SZ) es2 zero_entry) :: first_blocks es1 es2 (S r) n'
  end.

Lemma first_blocks_mod es1 es2 n : ∀ a b, (a mod SZ = b mod SZ)%nat → first_blocks es1 es2 a n = first_blocks es1 es2 b n.
Proof.
  induction n as [|n IH]; intros a b Hab; cbn [first_blocks]; [done|]. rewrite Hab. do 2 f_equal. apply IH.
  rewrite <-(Nat.add_1_l a), <-(Nat.add_1_l b), Nat.Div0.add_mod, Hab, <-Nat.Div0.add_mod. done.
Qed.

Lemma replays_two tr es1 es2 n : (SZ <= length es1)%nat → (SZ <= length es2)%nat → ∀ r k1 k2 p, (r <= SZ)%nat → holder p = Some 2%nat →
  aclients p !! 1%nat = Some (AClient es1 (drop r (take SZ es1)) k1) → aclients p !! 2%nat = Some (AClient es2 (drop r (take SZ es2)) k2) →
  ∃ p', abs_player_exec tr (alternate n) p = Some (first_blocks es1 es2 r n, p').
Proof.
  intros Hl1 Hl2. induction n as [|n IH]; intros r k1 k2 p Hr Hh H1 H2; [by exists p|]. cbn [alternate abs_player_exec abs_player_step first_blocks].
  destruct (get_restart 1 p es1 r k1 H1) as (e1&p1&k1'&Hg1&He1&Ha1&Hh1); [congruence|done|done|]. rewrite Hg1. cbn [mbind option_bind].
  destruct (get_restart 2 p1 es2 r k2) as (e2&p2&k2'&Hg2&He2&Ha2&Hh2); [by rewrite Ha1, lookup_insert_ne|rewrite Hh1; intros ->; by rewrite decide_True|done|done|].
  rewrite Hg2. cbn [mbind option_bind]. assert (Hm : (r mod SZ < SZ)%nat) by (apply Nat.mod_upper_bound; unfold SZ; lia).
  destruct (IH (S (r mod SZ)) k1' k2' p2) as (p'&Hx); [lia| | |by rewrite Ha2, lookup_insert_eq|].
  { rewrite Hh2, Hh1. destruct (decide (r = SZ)); [done|exact Hh]. }
  { rewrite Ha2, lookup_insert_ne, Ha1, lookup_insert_eq by done. done. }
  exists p'. rewrite Hx. cbn [mbind option_bind]. rewrite (nth_lookup_Some es1 _ zero_entry e1 He1), (nth_lookup_Some es2 _ zero_entry e2 He2).
  do 4 f_equal. apply first_blocks_mod. rewrite <-(Nat.add_1_l (r mod SZ)), <-(Nat.add_1_l r), Nat.Div0.add_mod_idemp_r. done.
Qed.

(** ** Theorems *)

(** C22. The list of clients with its cache of records, its slots and its open
    files behaves as the abstract player: for every sequence of clients that
    join, fewer than the maximum, and of records that are asked for, in any
    interleaving, the same records come out. Each client gets the records of
    its own file in blocks of thirty; the place in a file is kept only while
    no other client opens its file, and a file that is opened again is read
    from its start, where the header documents that the next entry is returned
    and that the trace wraps around at its end only. *)
Theorem player_refines tr script malloc_ok junk alloc_ok ops max rs p s :
  (∀ n, malloc_ok n = true) → (∀ n, alloc_ok n = true) →
  (∀ path us es, tr path = Some (us, es) → Forall2 (entry_wf 3) us es ∧ es ≠ []) →
  (∀ path us es k x, tr path = Some (us, es) → ready (urls_size us + 1) (Io (script k) [] [] x)) →
  (joins ops < max)%nat → abs_player_exec tr ops (APlayer ∅ None 0) = Some (rs, p) →
  ∃ s0 s', init_list_o_clients alloc_ok max s = Ret (1, s0) ∧
    player_exec (trace_file tr) script malloc_ok junk alloc_ok ops s0 = Ret (rs, s') ∧ player_ok tr max s' p.
Proof.
  intros Hm Ha Htr Hs Hj Hx. destruct (init_clients_ok tr alloc_ok max s (Ha _) ltac:(lia)) as (s0&Hi&Hok).
  destruct (player_exec_ok tr script malloc_ok junk alloc_ok Hm max Htr Hs ops s0 _ rs p Hok Hj Hx) as (s'&Hr&Hok'). by exists s0, s'.
Qed.

(** C34. A single client replays its trace from the start again and again: the
    [i]-th record it gets is record [i] modulo the length of the trace,
    whatever the length is with respect to the cache of thirty records. *)
Theorem client_replays_cyclically tr script malloc_ok junk alloc_ok path us es n max s :
  (∀ n, malloc_ok n = true) → (∀ n, alloc_ok n = true) → (1 < max)%nat →
  tr = (λ p, if decide (p = path) then Some (us, es) else None) → Forall2 (entry_wf 3) us es → es ≠ [] →
  (∀ k x, ready (urls_size us + 1) (Io (script k) [] [] x)) →
  ∃ s0 s' rs, init_list_o_clients alloc_ok max s = Ret (1, s0) ∧
    player_exec (trace_file tr) script malloc_ok junk alloc_ok (Join path :: replicate n (Replay 1)) s0 = Ret (inl 1%nat :: rs, s') ∧
    Forall2 (λ r i, ∃ e, r = inr e ∧ es !! (i mod length es)%nat = Some e) rs (seq 0 n).
Proof.
  intros Hm Ha Hmax Htr Hwf Hne Hs. destruct (abs_add es (APlayer ∅ None 0)) as [p1|] eqn:Hadd; [|done].
  assert (Hal : alone es 0 p1).
  { set (p0 := APlayer (<[1%nat := AClient es [] 0]> ∅) None 0). assert (Hal0 : alone es (length es) p0).
    { split. eexists. cbn. split; [reflexivity|]. cbn. rewrite Nat.add_0_r. done. }
    destruct (refill_alone es (length es) p0 Hal0) as (q&Hq&[(a&Hqa&?)]&_&_); [reflexivity|].
    unfold abs_add, abs_refill in Hadd, Hq. cbn in Hadd, Hq. injection Hadd as <-. injection Hq as <-. split. exists a. split; [exact Hqa|]. done. }
  destruct (replays_alone tr es n Hne 0 p1 Hal) as (rs&p'&Hx&Hrs).
  assert (Hlast : last_id p1 = 1%nat) by (by apply abs_refill_last in Hadd).
  assert (Hxx : abs_player_exec tr (Join path :: replicate n (Replay 1)) (APlayer ∅ None 0) = Some (inl 1%nat :: rs, p')).
  { cbn [abs_player_exec abs_player_step]. assert (Ht : tr path = Some (us, es)) by (rewrite Htr; by rewrite decide_True). rewrite Ht. cbn [mbind option_bind]. rewrite Hadd. cbn [mbind option_bind].
    rewrite Hx. cbn [mbind option_bind]. by rewrite Hlast. }
  assert (Htr1 : ∀ p us' es', tr p = Some (us', es') → us' = us ∧ es' = es) by (intros p us' es'; rewrite Htr; destruct (decide _); [by intros [= <- <-]|done]).
  assert (Hjn : joins (Join path :: replicate n (Replay 1)) = 1%nat).
  { change (joins (Join path :: replicate n (Replay 1))) with (S (joins (replicate n (Replay 1)))). f_equal. clear. induction n; [done|]. exact IHn. }
  destruct (init_clients_ok tr alloc_ok max s (Ha _) ltac:(lia)) as (s0&Hi&Hok).
  destruct (player_exec_ok tr script malloc_ok junk alloc_ok Hm max) with (ops := Join path :: replicate n (Replay 1)) (s := s0) (p := APlayer ∅ None 0) (rs := inl 1%nat :: rs) (p' := p')
    as (s'&Hrun&_); [|intros p us' es' k x Ht; by destruct (Htr1 _ _ _ Ht) as [-> _]|exact Hok|cbn [last_id]; rewrite Hjn; lia|exact Hxx|by exists s0, s', rs].
  intros p us' es' Ht. by destruct (Htr1 _ _ _ Ht) as [-> ->].
Qed.

(** With two clients neither gets past its first thirty records: asked in
    turn, the [i]-th record of each is record [i] modulo 30 of its trace,
    however long the trace is.  The list of slots gives every client the same
    slot, so that each refill closes the file of the other client, and an
    opened file is read from its start. *)
Theorem two_clients_restart tr script malloc_ok junk alloc_ok path1 path2 us1 es1 us2 es2 n max s :
  (∀ n, malloc_ok n = true) → (∀ n, alloc_ok n = true) → (2 < max)%nat → path1 ≠ path2 →
  tr = (λ p, if decide (p = path1) then Some (us1, es1) else if decide (p = path2) then Some (us2, es2) else None) →
  Forall2 (entry_wf 3) us1 es1 → Forall2 (entry_wf 3) us2 es2 → (ENTRY_CACHE_SIZE <= length es1)%nat → (ENTRY_CACHE_SIZE <= length es2)%nat →
  (∀ k x, ready (urls_size us1 + urls_size us2 + 1) (Io (script k) [] [] x)) →
  ∃ s0 s', init_list_o_clients alloc_ok max s = Ret (1, s0) ∧
    player_exec (trace_file tr) script malloc_ok junk alloc_ok (Join path1 :: Join path2 :: alternate n) s0 =
    Ret (inl 1%nat :: inl 2%nat :: first_blocks es1 es2 0 n, s').
Proof.
  intros Hm Ha Hmax Hpp Htr Hwf1 Hwf2 Hl1 Hl2 Hs.
  set (p1 := APlayer (<[1%nat := AClient es1 (take SZ es1) SZ]> ∅) (Some 1%nat) 1).
  assert (Hadd1 : abs_add es1 (APlayer ∅ None 0) = Some p1).
  { unfold abs_add, abs_refill. cbn [aclients holder last_id]. rewrite lookup_insert_eq. cbn [mbind option_bind trace reached]. rewrite decide_False by done.
    rewrite drop_0, insert_insert_eq, decide_False by (rewrite length_take; lia). done. }
  set (p2 := APlayer (<[2%nat := AClient es2 (take SZ es2) SZ]> (aclients p1)) (Some 2%nat) 2).
  assert (Hadd2 : abs_add es2 p1 = Some p2).
  { unfold abs_add, abs_refill. cbn [aclients holder last_id p1]. rewrite lookup_insert_eq. cbn [mbind option_bind trace reached]. rewrite decide_False by done.
    rewrite drop_0, insert_insert_eq, decide_False by (rewrite length_take; lia). done. }
  destruct (replays_two tr es1 es2 n Hl1 Hl2 0 SZ SZ p2) as (p'&Hx); [lia|done|done|done|].
  assert (Hxx : abs_player_exec tr (Join path1 :: Join path2 :: alternate n) (APlayer ∅ None 0) = Some (inl 1%nat :: inl 2%nat :: first_blocks es1 es2 0 n, p')).
  { cbn [abs_player_exec abs_player_step]. assert (Ht1 : tr path1 = Some (us1, es1)) by (rewrite Htr; by rewrite decide_True).
    assert (Ht2 : tr path2 = Some (us2, es2)) by (rewrite Htr, decide_False, decide_True by done; done).
    rewrite Ht1. cbn [mbind option_bind]. rewrite Hadd1. cbn [mbind option_bind]. rewrite Ht2. cbn [mbind option_bind]. rewrite Hadd2. cbn [mbind option_bind].
    rewrite Hx. done. }
  clear Hx. assert (Htr1 : ∀ p us es, tr p = Some (us, es) → us = us1 ∧ es = es1 ∨ us = us2 ∧ es = es2).
  { intros p us es. rewrite Htr. destruct (decide _); [intros [= <- <-]; by left|]. destruct (decide _); [intros [= <- <-]; by right|done]. }
  assert (Hjn : joins (Join path1 :: Join path2 :: alternate n) = 2%nat).
  { change (joins (Join path1 :: Join path2 :: alternate n)) with (S (S (joins (alternate n)))). do 2 f_equal.
    clear. induction n as [|n IH]; [done|]. exact IH. }
  destruct (init_clients_ok tr alloc_ok max s (Ha _) ltac:(lia)) as (s0&Hi&Hok).
  destruct (player_exec_ok tr script malloc_ok junk alloc_ok Hm max) with (ops := Join path1 :: Join path2 :: alternate n)
    (s := s0) (p := APlayer ∅ None 0) (rs := inl 1%nat :: inl 2%nat :: first_blocks es1 es2 0 n) (p' := p')
    as (s'&Hrun&_); [| |exact Hok|cbn [last_id]; rewrite Hjn; lia|exact Hxx|by exists s0, s'].
  - intros p us es Ht. unfold SZ in *. destruct (Htr1 _ _ _ Ht) as [[-> ->]|[-> ->]]; (split; [done|]); intros ->; cbn in *; lia.
  - intros p us es k x Ht. eapply ready_le; [apply Hs|]. destruct (Htr1 _ _ _ Ht) as [[-> ->]|[-> ->]]; lia.
Qed.

(** *** Examples *)
Definition demo_path : bytes := bytes_of "136.152.12/8".
Definition demo_files (p : bytes) : option (list bytes * list lf_entry) := if decide (p = demo_path) then Some (demo_urls, demo_trace) else None.
Definition long_script (n : nat) : nat → list xfer := λ _, replicate n (Moved 80).

Lemma long_script_ready n k m x : (m <= n)%nat → ready m (Io (long_script n k) [] [] x).
Proof.
  intros Hm. split; cbn [xfers long_script].
  - induction n as [|n IH] in m, Hm |- *; [done|]. cbn. apply (IH 0%nat). lia.
  - assert (Hmv : moves (replicate n (Moved 80)) = n) by (clear; induction n; [done|cbn; by f_equal]). unfold long_script. by rewrite Hmv.
Qed.

Lemma demo_files_ok p us es : demo_files p = Some (us, es) → Forall2 (entry_wf 3) us es ∧ es ≠ [].
Proof. unfold demo_files. destruct (decide _); [|done]. intros Heq. injection Heq as <- <-. split; [exact demo_trace_wf|done]. Qed.

Lemma demo_files_ready p us es k x : demo_files p = Some (us, es) → ready (urls_size us + 1) (Io (long_script 400 k) [] [] x).
Proof. unfold demo_files. destruct (decide _); [|done]. intros Heq. injection Heq as <- _. apply long_script_ready. vm_compute. lia. Qed.

Definition sim_zero : sim_state := Sim (Clist 0 0 [] 0 [] 0 0) ∅ 0 0.

(** A client joins, three records are used, and another one joins with the
    same file. *)
Definition demo_session : list player_op := [Join demo_path; Replay 1; Replay 1; Join demo_path; Replay 2].
Definition demo_results : list (nat + lf_entry) :=
  [inl 1%nat; inr (nth 0 demo_trace zero_entry); inr (nth 1 demo_trace zero_entry); inl 2%nat; inr (nth 0 demo_trace zero_entry)].

Lemma player_refines_witness : ∃ p s0 s', init_list_o_clients (λ _, true) 6 sim_zero = Ret (1, s0) ∧
  player_exec (trace_file demo_files) (long_script 400) (λ _, true) 7 (λ _, true) demo_session s0 = Ret (demo_results, s') ∧ player_ok demo_files 6 s' p.
Proof.
  destruct (abs_player_exec demo_files demo_session (APlayer ∅ None 0)) as [[rs p]|] eqn:E; [|vm_compute in E; discriminate E].
  assert (Hrs : fst <$> abs_player_exec demo_files demo_session (APlayer ∅ None 0) = Some demo_results) by (vm_compute; reflexivity).
  rewrite E in Hrs. injection Hrs as ->.
  destruct (player_refines demo_files (long_script 400) (λ _, true) 7 (λ _, true) demo_session 6 demo_results p sim_zero) as (s0&s'&H1&H2&H3).
  - reflexivity.
  - reflexivity.
  - exact demo_files_ok.
  - exact demo_files_ready.
  - apply Nat.ltb_lt. reflexivity.
  - exact E.
  - exists p, s0, s'. split; [exact H1|]. split; [exact H2|exact H3].
Defined.

Lemma client_replays_cyclically_witness : ∃ s0 s' rs, init_list_o_clients (λ _, true) 6 sim_zero = Ret (1, s0) ∧
  player_exec (trace_file demo_files) (long_script 400) (λ _, true) 7 (λ _, true) (Join demo_path :: replicate 12 (Replay 1)) s0 = Ret (inl 1%nat :: rs, s') ∧
  rs !! 11%nat = Some (inr (nth 1 demo_trace zero_entry)).
Proof.
  destruct (client_replays_cyclically demo_files (long_script 400) (λ _, true) 7 (λ _, true) demo_path demo_urls demo_trace 12 6 sim_zero) as (s0&s'&rs&H1&H2&H3).
  - reflexivity.
  - reflexivity.
  - lia.
  - reflexivity.
  - exact demo_trace_wf.
  - discriminate.
  - intros k x. apply long_script_ready. vm_compute. lia.
  - exists s0, s', rs. split; [exact H1|]. split; [exact H2|].
    destruct (Forall2_lookup_r _ _ _ 11%nat 11%nat H3) as (r&Hr&e&->&He); [reflexivity|]. rewrite Hr. do 2 f_equal.
    change (demo_trace !! 1%nat = Some e) in He. by injection He as <-.
Defined.

(** Two traces of 31 records that differ in their pragmas. *)
Definition letter (n : nat) : bytes := bytes_of "GET /" ++ [97 + Z.of_nat n].
Definition trace_of (cp : Z) : list lf_entry := map (λ n, demo_entry cp 120 3000 (letter n)) (seq 0 31).
Definition two_files (p : bytes) : option (list bytes * list lf_entry) :=
  if decide (p = bytes_of "a") then Some (map letter (seq 0 31), trace_of 0) else if decide (p = bytes_of "b") then Some (map letter (seq 0 31), trace_of 2) else None.

Lemma trace_of_wf cp : is_byte cp → Forall2 (entry_wf 3) (map letter (seq 0 31)) (trace_of cp).
Proof.
  intros Hc. unfold trace_of. apply Forall2_fmap_l, Forall2_fmap_r, Forall_Forall2_diag, Forall_forall. intros n _. cbn.
  apply demo_entry_wf; [done|by split|by split|cbn; lia|cbn; lia].
Qed.

(** The last records of the traces are not reached: the 31st request gives the
    first record again. *)
Lemma two_clients_restart_witness : ∃ s0 s' rs, init_list_o_clients (λ _, true) 6 sim_zero = Ret (1, s0) ∧
  player_exec (trace_file two_files) (long_script 4100) (λ _, true) 7 (λ _, true) (Join (bytes_of "a") :: Join (bytes_of "b") :: alternate 31) s0 =
    Ret (inl 1%nat :: inl 2%nat :: rs, s') ∧
  drop 60 rs = [inr (demo_entry 0 120 3000 (letter 0)); inr (demo_entry 2 120 3000 (letter 0))].
Proof.
  destruct (two_clients_restart two_files (long_script 4100) (λ _, true) 7 (λ _, true) (bytes_of "a") (bytes_of "b") (map letter (seq 0 31)) (trace_of 0)
    (map letter (seq 0 31)) (trace_of 2) 31 6 sim_zero) as (s0&s'&H1&H2).
  - reflexivity.
  - reflexivity.
  - lia.
  - discriminate.
  - reflexivity.
  - apply trace_of_wf. split; [discriminate|reflexivity].
  - apply trace_of_wf. split; [discriminate|reflexivity].
  - vm_compute. lia.
  - vm_compute. lia.
  - intros k x. apply long_script_ready. apply Nat.leb_le. vm_compute. reflexivity.
  - exists s0, s', (first_blocks (trace_of 0) (trace_of 2) 0 31). split; [exact H1|]. split; [exact H2|]. vm_compute. reflexivity.
Defined.

(** [add_client_to_list] may move the clients with [realloc]; the slots keep
    pointers to the old block.  With room for two, the second client crashes. *)
Example realloc_dangles : (_ ← init_list_o_clients (λ _, true) 2;
   player_exec (trace_file demo_files) (long_script 400) (λ _, true) 7 (λ _, true) [Join demo_path; Join demo_path]) sim_zero = Crash.
Proof. vm_compute. reflexivity. Qed.
