(* ===== verification/BpTimer.v ===== *)
(** * The timer of the trace player (playback/src/bp_timer.c)

    Tasks wait in a list ordered by time until the dispatcher thread starts
    them.  Any number of threads add tasks, so the timer is a transition
    system: the parts of the code that hold [taskq_mutex] are single steps, as
    are the clock and the wakeups of [pthread_cond_timedwait]. *)

From S2P Require Import Prelude LinkedList TimeVal.
From Stdlib Require Import Sorting.Sorted.

Open Scope Z_scope.

(** ** State *)

(** [tproc] and [tproc_arg] name the procedure and its argument. *)
Record taskq_el := Task { tid : Z; ttime : time; tproc : Z; tproc_arg : Z }.
Inductive bp_ttype := ABSOLUTE | RELATIVE.

(** The [void *] data of the list. *)
Abbreviation item := (option taskq_el) (only parsing).

Definition bp_timevalptr_cmp (t1 t2 : item) : Z :=
  match t1, t2 with Some t1, Some t2 => tv_timecmp (ttime t1) (ttime t2) | _, _ => 0 end.

(** The dispatcher: about to look at the queue with the mutex, about to start
    the thread of a task that it took from the queue at [now], or asleep until
    [until]. *)
Inductive mainloop := MTop | MDispatch (first : taskq_el) (now : time) | MSleep (until : time).

(** [prepared]: tasks of threads in [bp_timer_add] that are not on the queue
    yet.  [signalled]: every insertion has been followed by a signal.
    [created] and [started] are the history: the tasks that were ever made, and
    those whose thread was created with the time at which they were taken. *)
Record timer := Timer {
  mem : ll_mem item;
  taskq : option loc;
  taskq_len : Z;
  taskid : Z;
  prepared : list taskq_el;
  main : mainloop;
  clock : time;
  signalled : bool;
  created : list taskq_el;
  started : list (taskq_el * time);
}.
Definition with_queue m q n s := Timer m q n (taskid s) (prepared s) (main s) (clock s) (signalled s) (created s) (started s).
Definition with_main p s := Timer (mem s) (taskq s) (taskq_len s) (taskid s) (prepared s) p (clock s) (signalled s) (created s) (started s).
Definition with_prepared l s := Timer (mem s) (taskq s) (taskq_len s) (taskid s) l (main s) (clock s) (signalled s) (created s) (started s).
Definition with_signalled b s := Timer (mem s) (taskq s) (taskq_len s) (taskid s) (prepared s) (main s) (clock s) b (created s) (started s).
Definition with_clock t s := Timer (mem s) (taskq s) (taskq_len s) (taskid s) (prepared s) (main s) t (signalled s) (created s) (started s).
Definition with_started l s := Timer (mem s) (taskq s) (taskq_len s) (taskid s) (prepared s) (main s) (clock s) (signalled s) (created s) l.
Definition add_created t s := Timer (mem s) (taskq s) (taskq_len s) (taskid s + 1) (prepared s ++ [t]) (main s) (clock s) (signalled s) (created s ++ [t]) (started s).

(** ** Steps *)

Inductive label :=
| LNew (type : bp_ttype) (t : time) (start_p : Z) (tproc_data : Z)
| LInsert (i : nat)
| LSignal
| LTick (t : time)
| LMain
| LTimeout
| LWakeup.

Section steps.
(** Fresh list nodes, and whether [pthread_create] succeeds. *)
Context (uninit : ll_node item) (create_ok : taskq_el → bool).

(** [bp_timer_add], up to the lock of the queue. *)
Definition new_task (type : bp_ttype) (t : time) (start_p tproc_data : Z) (s : timer) : timer :=
  let t := match type with RELATIVE => tv_timeadd (clock s) t | ABSOLUTE => t end in
  add_created (Task (taskid s) t start_p tproc_data) s.

(** The part of [bp_timer_add] that holds the mutex. *)
Definition insert_task (i : nat) (newtask : taskq_el) (s : timer) : outcome timer :=
  '((res, q), m) ← ll_sorted_insert uninit bp_timevalptr_cmp (taskq s) (Some newtask) (mem s);
  let s := with_signalled false (with_queue m q (taskq_len s + 1) (with_prepared (delete i (prepared s)) s)) in
  if res =? 1 then Ret s else Exit 1.

(** [bp_dispatch_signal]. *)
Definition bp_dispatch_signal (s : timer) : timer :=
  with_signalled true (with_main (match main s with MSleep _ => MTop | p => p end) s).

(** [pthread_cond_timedwait]: it fails at once if the nanoseconds are out of
    range. *)
Definition cond_timedwait (tv_sec tv_nsec : Z) (s : timer) : timer :=
  if (0 <=? tv_nsec) && (tv_nsec <? 1000000000) then with_main (MSleep (Time tv_sec (tv_nsec / 1000))) s else s.

(** A turn of [bp_timer_mainloop] that holds the mutex. *)
Definition bp_timer_turn (s : timer) : outcome timer :=
  if 0 <? taskq_len s then
    let now := clock s in
    '(n, _) ← load (taskq s) (mem s);
    match data n with
    | None => Crash
    | Some first =>
        if 0 <=? tv_timecmp now (ttime first) then
          '((r, q, _), m) ← ll_delfirst (taskq s) (mem s);
          if r =? 0 then Exit 1
          else Ret (with_main (MDispatch first now) (with_queue m q (taskq_len s - 1) s))
        else Ret (cond_timedwait (t_sec (ttime first)) (1000 * t_frac (ttime first)) s)
    end
  else Ret (cond_timedwait (t_sec (clock s) + 5) 0 s).

(** [bp_dispatch_task]. *)
Definition bp_dispatch_task (task : taskq_el) (now : time) (s : timer) : outcome timer :=
  if create_ok task then Ret (with_main MTop (with_started (started s ++ [(task, now)]) s)) else Exit 1.

Definition bp_timer_mainloop (s : timer) : option (outcome timer) :=
  match main s with
  | MTop => Some (bp_timer_turn s)
  | MDispatch first now => Some (bp_dispatch_task first now s)
  | MSleep _ => None
  end.

(** One step; none if it is not enabled. *)
Definition exec (l : label) (s : timer) : option (outcome timer) :=
  match l with
  | LNew type t p a => Some (Ret (new_task type t p a s))
  | LInsert i => task ← prepared s !! i; Some (insert_task i task s)
  | LSignal => Some (Ret (bp_dispatch_signal s))
  | LTick t => if tv_timecmp (clock s) t <=? 0 then Some (Ret (with_clock t s)) else None
  | LMain => bp_timer_mainloop s
  | LTimeout => match main s with MSleep d => if 0 <=? tv_timecmp (clock s) d then Some (Ret (with_main MTop s)) else None | _ => None end
  | LWakeup => match main s with MSleep _ => Some (Ret (with_main MTop s)) | _ => None end
  end.

(** [bp_timer_init], with room for [blocks] blocks of list nodes. *)
Definition bp_timer_init (blocks : nat) (now : time) : timer := Timer (ll_mem_init blocks) None 0 0 [] MTop now true [] [].

Definition inserts (l : label) : nat := match l with LInsert _ => 1 | _ => 0 end.

(** [reach n s]: [s] is reached with [n] insertions. *)
Inductive reach (blocks : nat) (start : time) : nat → timer → Prop :=
| reach_init : reach blocks start 0 (bp_timer_init blocks start)
| reach_step n s l s' : reach blocks start n s → exec l s = Some (Ret s') → reach blocks start (n + inserts l) s'.

(** A step of the dispatcher alone: of its loop, or the end of its sleep. *)
Definition own_step (s : timer) : option (outcome timer) :=
  match main s with MSleep _ => exec LTimeout s | _ => exec LMain s end.
Fixpoint own_steps (n : nat) (s : timer) : option (outcome timer) :=
  match n with
  | O => Some (Ret s)
  | S n' => o ← own_step s; match o with Ret s' => own_steps n' s' | o => Some o end
  end.
End steps.

(** ** Lemmas: times and order *)

Definition earlier (a b : time) : Prop := tv_timecmp a b <= 0.

Lemma cmp_cases a b : (earlier a b ↔ t_sec a < t_sec b ∨ t_sec a = t_sec b ∧ t_frac a <= t_frac b) ∧
  (0 <= tv_timecmp a b ↔ earlier b a).
Proof.
  unfold earlier, tv_timecmp, timecmp.
  destruct (Z.ltb_spec (t_sec b) (t_sec a)), (Z.ltb_spec (t_sec a) (t_sec b)), (Z.ltb_spec (t_frac b) (t_frac a)), (Z.ltb_spec (t_frac a) (t_frac b)); lia.
Qed.
Lemma earlier_refl a : earlier a a.
Proof. apply (proj1 (cmp_cases a a)). lia. Qed.
Lemma earlier_trans a b c : earlier a b → earlier b c → earlier a c.
Proof. rewrite !(proj1 (cmp_cases _ _)). lia. Qed.
Lemma earlier_total a b : earlier a b ∨ earlier b a.
Proof. rewrite !(proj1 (cmp_cases _ _)). lia. Qed.

Definition before (a b : taskq_el) : Prop := earlier (ttime a) (ttime b).
Definition queue_le (x y : item) : bool := cmp_le bp_timevalptr_cmp x y.

(** The queue with a task added. *)
Fixpoint enqueue (t : taskq_el) (q : list taskq_el) : list taskq_el :=
  match q with [] => [t] | x :: q' => if tv_timecmp (ttime t) (ttime x) <=? 0 then t :: x :: q' else x :: enqueue t q' end.

Lemma enqueue_perm t q : enqueue t q ≡ₚ t :: q.
Proof. induction q as [|x q IH]; cbn; [done|]. destruct (_ <=? _); [done|]. rewrite IH. apply Permutation_swap. Qed.

Lemma enqueue_data t q : insert_sorted (cmp_le bp_timevalptr_cmp) (Some t) (Some <$> q) = Some <$> enqueue t q.
Proof.
  induction q as [|x q IH]; [done|]. cbn [fmap list_fmap insert_sorted enqueue]. unfold cmp_le at 1. cbn [bp_timevalptr_cmp].
  destruct (_ <=? _); [done|]. cbn [fmap list_fmap]. f_equal. exact IH.
Qed.

Lemma enqueue_sorted t q : StronglySorted before q → StronglySorted before (enqueue t q).
Proof.
  induction 1 as [|x q Hq IH Hx]; cbn; [repeat constructor|]. destruct (Z.leb_spec (tv_timecmp (ttime t) (ttime x)) 0) as [Hle|Hgt].
  - constructor; [by constructor|]. constructor; [exact Hle|]. eapply Forall_impl; [exact Hx|]. intros y Hy. by eapply earlier_trans.
  - constructor; [done|]. rewrite enqueue_perm. constructor; [|done]. destruct (earlier_total (ttime t) (ttime x)) as [Hc|Hc]; [|exact Hc].
    unfold earlier in Hc. lia.
Qed.

(** ** The invariant *)

Definition in_hand (s : timer) : list (taskq_el * time) := match main s with MDispatch first now => [(first, now)] | _ => [] end.

(** [queue s q k]: the queue holds the tasks [q], and there are nodes for [k]
    more. *)
Definition queue (s : timer) (q : list taskq_el) (k : nat) : Prop :=
  ∃ fl l, ll_wf (mem s) fl (taskq s) l ∧ can_alloc k (mem s) fl ∧ l.*2 = Some <$> q.

Record timer_ok (s : timer) (q : list taskq_el) (k : nat) : Prop := {
  tm_queue : queue s q k;
  tm_sorted : StronglySorted before q;
  tm_len : taskq_len s = Z.of_nat (length q);
  tm_tasks : created s ≡ₚ prepared s ++ q ++ (in_hand s).*1 ++ (started s).*1;
  tm_ids : map tid (created s) = seqZ 0 (taskid s) ∧ 0 <= taskid s;
  tm_due : Forall (λ x, earlier (ttime x.1) x.2 ∧ earlier x.2 (clock s)) (in_hand s ++ started s);
  tm_awake : match main s with MSleep d => signalled s = true → Forall (λ x, earlier d (ttime x)) q | _ => True end;
}.

Lemma queue_frame s s' q k : mem s' = mem s → taskq s' = taskq s → queue s q k → queue s' q k.
Proof. intros Hm Hq. unfold queue. by rewrite Hm, Hq. Qed.

Lemma queue_le_budget s q k k' : (k' <= k)%nat → queue s q k → queue s q k'.
Proof. intros Hk (fl&l&Hw&Hc&Hd). exists fl, l. split; [done|]. split; [|done]. unfold can_alloc in *. lia. Qed.

Section invariant.
Context (uninit : ll_node item) (create_ok : taskq_el → bool).

(** *** The operations on the queue *)
Lemma insert_ok i t s q k : queue s q (S k) → ∃ s', insert_task uninit i t s = Ret s' ∧ queue s' (enqueue t q) k ∧
  ∃ m h, s' = with_signalled false (with_queue m h (taskq_len s + 1) (with_prepared (delete i (prepared s)) s)).
Proof.
  intros (fl&l&Hw&Hc&Hd). destruct (ll_sorted_insert_spec uninit bp_timevalptr_cmp (mem s) fl (taskq s) l (Some t) k Hw Hc) as (a&h&m&fl'&Hrun&Hw'&Hc'&_&_).
  unfold insert_task. rewrite Hrun. cbn [mbind outcome_mbind]. change (1 =? 1) with true. cbn iota. eexists. split; [reflexivity|]. split; [|by eexists _, _].
  exists fl', (insert_sorted (λ x y, cmp_le bp_timevalptr_cmp x.2 y.2) (a, Some t) l). split; [done|]. split; [done|].
  rewrite (insert_sorted_snd (cmp_le bp_timevalptr_cmp)), Hd. apply enqueue_data.
Qed.

Lemma first_ok s x q k : queue s (x :: q) k → ∃ n m, load (taskq s) (mem s) = Ret (n, mem s) ∧ data n = Some x ∧
  ∃ h d, ll_delfirst (taskq s) (mem s) = Ret ((1, h, d), m) ∧ ∀ s', mem s' = m → taskq s' = h → queue s' q k.
Proof.
  intros (fl&l&Hw&Hc&Hd). destruct l as [|[a y] l]; [done|]. injection Hd as Hy Hd. cbn in Hy, Hd. subst y.
  destruct (ll_delfirst_spec (mem s) fl (taskq s) a (Some x) l Hw) as (h&m&Hrun&Hw'&Hb&_).
  destruct (lw_dll _ _ _ _ Hw) as [Hq Hseg]. cbn in Hseg.
  pose proof (lw_dll _ _ _ _ Hw) as Hdll. unfold dll in Hdll. cbn [dseg] in Hdll. destruct Hdll as (Ha&nx&Hn&_).
  eexists (Node (Some x) nx None), m. split; [unfold load; rewrite Ha; unfold mbind, M_mbind; cbn; by rewrite Hn|]. split; [done|].
  exists h, [Some x]. split; [done|]. intros s' <- <-. exists (a :: fl), l. split; [done|]. split; [|done].
  unfold can_alloc in *. rewrite Hb. cbn [length]. lia.
Qed.

(** *** Steps *)
Lemma ok_new type t p a s q k : timer_ok s q k → timer_ok (new_task type t p a s) q k.
Proof.
  intros [Hq Hs Hl Ht [Hi Hn] Hd Ha]. unfold new_task. set (x := Task _ _ _ _). split; try done.
  - cbn. rewrite Ht. change (in_hand (add_created x s)) with (in_hand s). rewrite <-!app_assoc. apply Permutation_app_head.
    rewrite (Permutation_app_comm [x]), <-!app_assoc. done.
  - cbn. rewrite map_app, Hi. split; [|lia]. rewrite (seqZ_app 0 (taskid s) 1) by lia. done.
Qed.

Lemma delete_perm {A} (l : list A) i x : l !! i = Some x → l ≡ₚ x :: delete i l.
Proof. intros Hl. rewrite <-(take_drop_middle l i x Hl) at 1. rewrite delete_take_drop. symmetry. apply Permutation_middle. Qed.

Lemma ok_insert i t s q k : timer_ok s q (S k) → prepared s !! i = Some t → ∃ s', insert_task uninit i t s = Ret s' ∧ timer_ok s' (enqueue t q) k.
Proof.
  intros [Hq Hs Hl Ht Hi Hd Ha] Hp. destruct (insert_ok i t s q k Hq) as (s'&Hrun&Hq'&m&h&Hs'). exists s'. split; [done|]. subst s'.
  split; try done.
  - by apply enqueue_sorted.
  - cbn. rewrite enqueue_perm. cbn [length]. lia.
  - cbn. change (in_hand (with_signalled _ _)) with (in_hand s). rewrite enqueue_perm, Ht. cbn [app].
    rewrite <-Permutation_middle. change (t :: delete i (prepared s) ++ ?r) with ((t :: delete i (prepared s)) ++ r).
    apply Permutation_app_tail. by apply delete_perm.
  - cbn. by destruct (main s).
Qed.

Lemma ok_signal s q k : timer_ok s q k → timer_ok (bp_dispatch_signal s) q k.
Proof.
  intros [Hq Hs Hl Ht Hi Hd Ha]. assert (Hh : in_hand (bp_dispatch_signal s) = in_hand s) by (unfold in_hand, bp_dispatch_signal; cbn; by destruct (main s)).
  split; try done; [by rewrite Hh|by rewrite Hh|]. unfold bp_dispatch_signal. cbn. by destruct (main s).
Qed.

Lemma ok_tick t s q k : timer_ok s q k → earlier (clock s) t → timer_ok (with_clock t s) q k.
Proof.
  intros [Hq Hs Hl Ht Hi Hd Ha] He. split; try done. eapply Forall_impl; [exact Hd|]. intros x [H1 H2]. split; [done|]. by eapply earlier_trans.
Qed.

Lemma ok_top s q k : timer_ok s q k → in_hand s = [] → timer_ok (with_main MTop s) q k.
Proof. intros [Hq Hs Hl Ht Hi Hd Ha] Hh. rewrite Hh in Ht, Hd. by split. Qed.

Lemma ok_wait sec frac s q k : timer_ok s q k → in_hand s = [] → Forall (λ x, earlier (Time sec frac) (ttime x)) q → timer_ok (cond_timedwait sec (1000 * frac) s) q k.
Proof.
  intros Hok Hh Hd. unfold cond_timedwait. destruct (_ && _); [|done]. rewrite Z.mul_comm, Z.div_mul by lia.
  destruct (ok_top s q k Hok Hh) as [? ? ? ? ? ? _]. split; try done. by intros _.
Qed.

(** A turn of the dispatcher. *)
Lemma ok_turn s q k : timer_ok s q k → main s = MTop → ∃ s' q', bp_timer_turn s = Ret s' ∧ timer_ok s' q' k ∧
  match q with
  | x :: q0 => if 0 <=? tv_timecmp (clock s) (ttime x) then q' = q0 ∧ main s' = MDispatch x (clock s) ∧ started s' = started s
               else q' = q ∧ s' = cond_timedwait (t_sec (ttime x)) (1000 * t_frac (ttime x)) s
  | [] => q' = [] ∧ s' = cond_timedwait (t_sec (clock s) + 5) 0 s
  end.
Proof.
  intros Hok Hm. assert (Hh : in_hand s = []) by (unfold in_hand; by rewrite Hm). unfold bp_timer_turn. rewrite (tm_len _ _ _ Hok).
  destruct q as [|x q].
  - cbn [length]. change (0 <? Z.of_nat 0) with false. cbn iota. exists (cond_timedwait (t_sec (clock s) + 5) (1000 * 0) s), []. split; [done|].
    split; [by apply ok_wait|done].
  - rewrite (proj2 (Z.ltb_lt 0 _)) by (cbn [length]; lia). destruct (first_ok s x q k (tm_queue _ _ _ Hok)) as (n&m&Hld&Hdat&h&d&Hdel&Hq').
    rewrite Hld. cbn [mbind outcome_mbind]. rewrite Hdat. pose proof (tm_sorted _ _ _ Hok) as Hs. apply StronglySorted_inv in Hs as [Hs Hx].
    destruct (Z.leb_spec 0 (tv_timecmp (clock s) (ttime x))) as [Hdue|Hnot].
    + rewrite Hdel. cbn [mbind outcome_mbind]. change (1 =? 0) with false. cbn iota. eexists _, q. split; [reflexivity|]. split; [|done].
      destruct Hok as [_ _ Hl Ht Hi Hd _]. split; try done.
      * by apply Hq'.
      * cbn. lia.
      * cbn. rewrite Ht, Hh. cbn. by rewrite Permutation_middle.
      * cbn. rewrite Hh in Hd. constructor; [|done]. cbn. split; [by apply (proj2 (cmp_cases _ _))|apply earlier_refl].
    + eexists _, (x :: q). split; [reflexivity|]. split; [|done]. apply ok_wait; [done|done|]. destruct (ttime x) as [sec frac] eqn:Ex. cbn [t_sec t_frac].
      constructor; [rewrite Ex; apply earlier_refl|]. eapply Forall_impl; [exact Hx|]. intros y Hy. unfold before in Hy. by rewrite Ex in Hy.
Qed.

Lemma ok_dispatch x now s q k : timer_ok s q k → main s = MDispatch x now → timer_ok (with_main MTop (with_started (started s ++ [(x, now)]) s)) q k.
Proof.
  intros [Hq Hs Hl Ht Hi Hd Ha] Hm. unfold in_hand in *. rewrite Hm in Ht, Hd. split; try done.
  - cbn. rewrite Ht, fmap_app. cbn. rewrite (Permutation_app_comm _ [x]). done.
  - cbn in *. apply Forall_app. inversion Hd; subst. split; [done|]. by constructor.
Qed.

Lemma timer_exec_ok l s q k o : timer_ok s q k → (inserts l <= k)%nat → exec uninit create_ok l s = Some o →
  o = Exit 1 ∨ ∃ s' q', o = Ret s' ∧ timer_ok s' q' (k - inserts l).
Proof.
  intros Hok Hk Hx. destruct l as [type t p a|i| |t| | |]; cbn [exec inserts] in *; rewrite ?Nat.sub_0_r.
  - injection Hx as <-. right. eexists _, q. split; [done|]. by apply ok_new.
  - apply bind_Some in Hx as (t&Hp&Hx). injection Hx as <-. destruct k as [|k]; [lia|].
    destruct (ok_insert i t s q k Hok Hp) as (s'&Hr&Hok'). right. exists s', (enqueue t q). cbn. by rewrite Nat.sub_0_r.
  - injection Hx as <-. right. eexists _, q. split; [done|]. by apply ok_signal.
  - destruct (Z.leb_spec (tv_timecmp (clock s) t) 0); [|done]. injection Hx as <-. right. eexists _, q. split; [done|]. by apply ok_tick.
  - unfold bp_timer_mainloop in Hx. destruct (main s) as [|x now|d] eqn:Hm; [| |done]; injection Hx as <-.
    + destruct (ok_turn s q k Hok Hm) as (s'&q'&->&Hok'&_). right. by exists s', q'.
    + unfold bp_dispatch_task. destruct (create_ok x); [|by left]. right. eexists _, q. split; [done|]. by apply ok_dispatch.
  - destruct (main s) eqn:Hm; try done. destruct (_ <=? _); [|done]. injection Hx as <-. right. eexists _, q. split; [done|].
    apply ok_top; [done|]. unfold in_hand. by rewrite Hm.
  - destruct (main s) eqn:Hm; try done. injection Hx as <-. right. eexists _, q. split; [done|].
    apply ok_top; [done|]. unfold in_hand. by rewrite Hm.
Qed.

Lemma timer_init_ok blocks now : timer_ok (bp_timer_init blocks now) [] (LL_HEAPSIZE * blocks).
Proof.
  split; cbn; try done; [|constructor]. exists [], []. split; [|split; [|done]].
  - split; [split|done|]; cbn; try done; try apply NoDup_nil_2. intros a [n Hn]. by rewrite lookup_empty in Hn.
  - exact (le_n _).
Qed.

Lemma timer_reach_ok blocks now n s : reach uninit create_ok blocks now n s → (n <= LL_HEAPSIZE * blocks)%nat → ∃ q, timer_ok s q (LL_HEAPSIZE * blocks - n).
Proof.
  induction 1 as [|n s l s' _ IH Hx]; intros Hn; [exists []; rewrite Nat.sub_0_r; apply timer_init_ok|].
  destruct IH as [q Hok]; [lia|]. destruct (timer_exec_ok l s q _ (Ret s') Hok ltac:(lia) Hx) as [?|(s1&q'&Heq&Hok')]; [done|].
  injection Heq as ->. exists q'. by replace (LL_HEAPSIZE * blocks - (n + inserts l))%nat with (LL_HEAPSIZE * blocks - n - inserts l)%nat by lia.
Qed.
End invariant.

(** *** Progress *)

Lemma dseg_unique (c : gmap loc (ll_node item)) l : ∀ l' pp hd, dseg c pp hd l None → dseg c pp hd l' None → l = l'.
Proof.
  induction l as [|[a d] l IH]; intros [|[a' d'] l'] pp hd Hd Hd'; cbn [dseg] in *; [done|by destruct Hd' as [-> _]|by destruct Hd as [-> _]|].
  destruct Hd as (->&nx&Hn&Hd), Hd' as (Ha&nx'&Hn'&Hd'). injection Ha as <-. rewrite Hn in Hn'. injection Hn' as <- <-. f_equal. by eapply IH.
Qed.

Section progress.
Context (uninit : ll_node item) (create_ok : taskq_el → bool) (Hcreate : ∀ t, create_ok t = true).

Lemma top_starts s x q k : timer_ok s (x :: q) k → main s = MTop → earlier (ttime x) (clock s) →
  ∃ s', own_steps uninit create_ok 2 s = Some (Ret s') ∧ started s' = started s ++ [(x, clock s)].
Proof.
  intros Hok Hm Hdue. destruct (ok_turn s (x :: q) k Hok Hm) as (s1&q'&Ht&_&Hcase).
  rewrite (proj2 (Z.leb_le 0 _)) in Hcase by (by apply (proj2 (cmp_cases _ _))). destruct Hcase as (_&Hm1&Hs1).
  exists (with_main MTop (with_started (started s1 ++ [(x, clock s)]) s1)). split; [|cbn; by rewrite Hs1].
  assert (E1 : own_step uninit create_ok s = Some (Ret s1)).
  { unfold own_step. rewrite Hm. cbn [exec]. unfold bp_timer_mainloop. by rewrite Hm, Ht. }
  cbn [own_steps]. rewrite E1. cbn [mbind option_bind].
  unfold own_step. rewrite Hm1. cbn [exec]. unfold bp_timer_mainloop. rewrite Hm1. unfold bp_dispatch_task. by rewrite Hcreate.
Qed.

Lemma due_starts s x q k : timer_ok s (x :: q) k → earlier (ttime x) (clock s) → (∀ d, main s = MSleep d → signalled s = true) →
  ∃ n s', (n <= 3)%nat ∧ own_steps uninit create_ok n s = Some (Ret s') ∧ started s' = started s ++ in_hand s ++ [(x, clock s)].
Proof.
  intros Hok Hdue Hsig. unfold in_hand. destruct (main s) as [|y now|d] eqn:Hm.
  - destruct (top_starts s x q k Hok Hm Hdue) as (s'&?&?). exists 2%nat, s'. split; [lia|done].
  - pose proof (ok_dispatch y now s (x :: q) k Hok Hm) as Hok1. set (s1 := with_main MTop _) in Hok1.
    destruct (top_starts s1 x q k Hok1) as (s'&Hrun&Hst); [done|done|]. exists 3%nat, s'. split; [lia|]. split.
    + change (own_steps uninit create_ok 3 s) with (o ← own_step uninit create_ok s; match o with Ret s' => own_steps uninit create_ok 2 s' | o => Some o end).
      unfold own_step. rewrite Hm. cbn [exec]. unfold bp_timer_mainloop. rewrite Hm. unfold bp_dispatch_task. rewrite Hcreate. exact Hrun.
    + rewrite Hst. cbn. by rewrite <-app_assoc.
  - pose proof (tm_awake _ _ _ Hok) as Ha. rewrite Hm in Ha. specialize (Ha (Hsig d eq_refl)). apply Forall_cons in Ha as [Ha _].
    assert (Hok1 : timer_ok (with_main MTop s) (x :: q) k) by (apply ok_top; [done|unfold in_hand; by rewrite Hm]).
    destruct (top_starts _ x q k Hok1) as (s'&Hrun&Hst); [done|done|]. exists 3%nat, s'. split; [lia|]. split; [|exact Hst].
    change (own_steps uninit create_ok 3 s) with (o ← own_step uninit create_ok s; match o with Ret s' => own_steps uninit create_ok 2 s' | o => Some o end).
    unfold own_step. rewrite Hm. cbn [exec]. rewrite Hm, (proj2 (Z.leb_le 0 _)); [exact Hrun|]. apply (proj2 (cmp_cases _ _)). by eapply earlier_trans.
Qed.
End progress.

(** ** Theorems *)

(** The tasks of which the timer still has to start the thread. *)
Definition pending (s : timer) (q : list taskq_el) : list taskq_el := prepared s ++ q ++ (in_hand s).*1.

(** C20. Whatever the interleaving of the threads that add tasks, of signals,
    of the clock and of spurious wakeups, the timer neither crashes nor hangs
    as long as memory suffices, and in every state that can be reached: the
    queue is well formed, ordered by time and of length [taskq_len]; every task
    that was ever made is pending or has been started, exactly once, under its
    own number; no task is started before its time; and a sleeping dispatcher
    wakes up no later than the first task is due, once the insertions have been
    signalled. *)
Theorem timer_safe uninit create_ok blocks start n s :
  reach uninit create_ok blocks start n s → (n <= LL_HEAPSIZE * blocks)%nat →
  (∃ q fl l, ll_wf (mem s) fl (taskq s) l ∧ l.*2 = Some <$> q ∧ StronglySorted before q ∧ taskq_len s = Z.of_nat (length q) ∧
    created s ≡ₚ pending s q ++ (started s).*1 ∧ NoDup (map tid (created s)) ∧
    Forall (λ x, earlier (ttime x.1) x.2) (started s) ∧
    ∀ d x q', main s = MSleep d → signalled s = true → q = x :: q' → earlier d (ttime x)) ∧
  ∀ l o, (n + inserts l <= LL_HEAPSIZE * blocks)%nat → exec uninit create_ok l s = Some o → o = Exit 1 ∨ ∃ s', o = Ret s'.
Proof.
  intros Hr Hn. destruct (timer_reach_ok uninit create_ok blocks start n s Hr Hn) as [q Hok]. split.
  - pose proof Hok as [(fl&l&Hw&_&Hd) Hs Hl Ht [Hi H0] Hdue Hawake]. exists q, fl, l. do 4 (split; [done|]). unfold pending. rewrite <-!app_assoc. split; [done|].
    rewrite Hi. split; [apply NoDup_seqZ|]. apply Forall_app in Hdue as [_ Hdue]. split; [eapply Forall_impl; [exact Hdue|]; by intros x [? _]|].
    intros d x q' Hm Hsig ->. rewrite Hm in Hawake. specialize (Hawake Hsig). by apply Forall_cons in Hawake as [? _].
  - intros l o Hk Hx. destruct (timer_exec_ok uninit create_ok l s q _ o Hok ltac:(lia) Hx) as [?|(s'&q'&?&_)]; [by left|right; by exists s'].
Qed.

(** C35. A due task is started: in every state that can be reached in which the
    first task of the queue is due, and the insertions have been signalled if
    the dispatcher sleeps, the dispatcher can go on by itself, and after at
    most three of its own steps it has started the thread of that task. *)
Theorem due_task_starts uninit create_ok blocks start n s q x l fl :
  reach uninit create_ok blocks start n s → (n <= LL_HEAPSIZE * blocks)%nat → (∀ t, create_ok t = true) →
  ll_wf (mem s) fl (taskq s) l → l.*2 = Some <$> (x :: q) → earlier (ttime x) (clock s) →
  (∀ d, main s = MSleep d → signalled s = true) →
  ∃ k s', (k <= 3)%nat ∧ own_steps uninit create_ok k s = Some (Ret s') ∧ started s' = started s ++ in_hand s ++ [(x, clock s)].
Proof.
  intros Hr Hn Hcr Hw Hd Hdue Hsig. destruct (timer_reach_ok uninit create_ok blocks start n s Hr Hn) as [q0 Hok].
  pose proof (tm_queue _ _ _ Hok) as (fl0&l0&Hw0&_&Hd0). assert (l = l0) as <- by (eapply dseg_unique; [apply Hw|apply Hw0]).
  rewrite Hd in Hd0. apply (inj (fmap Some)) in Hd0. subst q0. by apply (due_starts uninit create_ok Hcr s x q _ Hok).
Qed.

(** An add with a relative time of a whole number of microseconds that adds up
    to a second exactly leaves a [timeval] with a million microseconds; the
    dispatcher cannot sleep until then and tests the queue again and again. *)
Lemma unnormal_time_spins s x q k : timer_ok s (x :: q) k → main s = MTop → t_frac (ttime x) = USEC → tv_timecmp (clock s) (ttime x) < 0 →
  bp_timer_turn s = Ret s.
Proof.
  intros Hok Hm Hf Hlt. destruct (ok_turn s (x :: q) k Hok Hm) as (s'&q'&->&_&Hc). rewrite (proj2 (Z.leb_gt 0 _)) in Hc by done.
  destruct Hc as [_ ->]. by rewrite Hf.
Qed.

(** A run: one task is prepared for ten seconds ahead and another for five;
    both are inserted, and the second one is started when the clock says so. *)
Definition demo_node : ll_node item := Node None None None.
Definition demo_start : time := Time 100 0.
Definition demo_labels : list label :=
  [LNew RELATIVE (Time 10 0) 1 7; LNew RELATIVE (Time 5 0) 1 8; LInsert 0; LMain; LInsert 0; LSignal; LMain; LTick (Time 105 3)].
Fixpoint run_labels (ls : list label) (s : timer) : option timer :=
  match ls with
  | [] => Some s
  | l :: ls' => o ← exec demo_node (λ _, true) l s; match o with Ret s' => run_labels ls' s' | _ => None end
  end.
Lemma run_reach ls : ∀ n s s', reach demo_node (λ _, true) 1 demo_start n s → run_labels ls s = Some s' →
  reach demo_node (λ _, true) 1 demo_start (n + foldr (λ l m, inserts l + m)%nat 0%nat ls) s'.
Proof.
  induction ls as [|l ls IH]; intros n s s' Hr Hx; cbn [run_labels foldr] in *; [injection Hx as <-; by rewrite Nat.add_0_r|].
  apply bind_Some in Hx as (o&Ho&Hx). destruct o as [s1| | |]; try done. rewrite Nat.add_assoc. apply (IH _ s1); [|done]. by eapply reach_step.
Qed.
Definition demo_state : timer := default (bp_timer_init 1 demo_start) (run_labels demo_labels (bp_timer_init 1 demo_start)).
Lemma demo_reach : reach demo_node (λ _, true) 1 demo_start 2 demo_state.
Proof.
  apply (run_reach demo_labels 0 (bp_timer_init 1 demo_start)); [apply reach_init|]. vm_compute. reflexivity.
Qed.

Lemma timer_safe_witness : main demo_state = MSleep (Time 105 0) ∧
  ∃ q fl l, ll_wf (mem demo_state) fl (taskq demo_state) l ∧ l.*2 = Some <$> q ∧ length q = 2%nat ∧ created demo_state ≡ₚ pending demo_state q.
Proof.
  split; [vm_compute; reflexivity|].
  destruct (timer_safe demo_node (λ _, true) 1 demo_start 2 demo_state demo_reach) as [(q&fl&l&Hw&Hd&_&Hlen&Hp&_) _].
  - apply Nat.leb_le. reflexivity.
  - exists q, fl, l. split; [exact Hw|]. split; [exact Hd|]. split.
    + change (taskq_len demo_state) with 2 in Hlen. lia.
    + change (started demo_state) with (@nil (taskq_el * time)) in Hp. by rewrite app_nil_r in Hp.
Defined.

Lemma due_task_starts_witness : ∃ k s', (k <= 3)%nat ∧ own_steps demo_node (λ _, true) k demo_state = Some (Ret s') ∧
  started s' = [(Task 1 (Time 105 0) 1 8, Time 105 3)].
Proof.
  destruct (timer_reach_ok demo_node (λ _, true) 1 demo_start 2 demo_state demo_reach) as [q0 Hok]; [apply Nat.leb_le; reflexivity|].
  destruct (tm_queue _ _ _ Hok) as (fl&l&Hw&_&Hd).
  pose proof (tm_tasks _ _ _ Hok) as Ht. pose proof (tm_sorted _ _ _ Hok) as Hs.
  change (created demo_state) with [Task 0 (Time 110 0) 1 7; Task 1 (Time 105 0) 1 8] in Ht.
  change (prepared demo_state) with (@nil taskq_el) in Ht. change (in_hand demo_state) with (@nil (taskq_el * time)) in Ht.
  change (started demo_state) with (@nil (taskq_el * time)) in Ht. cbn [app fmap list_fmap] in Ht. rewrite app_nil_r in Ht.
  apply Permutation_length_2_inv in Ht as [Ht|Ht]; subst q0.
  - apply StronglySorted_inv in Hs as [_ Hx]. apply Forall_cons in Hx as [Hx _]. vm_compute in Hx. by destruct Hx.
  - assert (Hn : (2 <= LL_HEAPSIZE * 1)%nat) by (apply Nat.leb_le; reflexivity).
    assert (Hdue : earlier (Time 105 0) (clock demo_state)) by (apply Z.leb_le; reflexivity).
    destruct (due_task_starts demo_node (λ _, true) 1 demo_start 2 demo_state [Task 0 (Time 110 0) 1 7] (Task 1 (Time 105 0) 1 8) l fl
      demo_reach Hn (λ _, eq_refl) Hw Hd Hdue (λ _ _, eq_refl)) as (k&s'&Hk&Hrun&Hst).
    exists k, s'. split; [exact Hk|]. split; [exact Hrun|].
    assert (E1 : started demo_state = []) by (vm_compute; reflexivity).
    assert (E2 : in_hand demo_state = []) by (vm_compute; reflexivity).
    assert (E3 : clock demo_state = Time 105 3) by (vm_compute; reflexivity).
    rewrite E1, E2, E3 in Hst. exact Hst.
Defined.
