(* ===== verification/Proxies.v ===== *)
(** * The proxies of the TCP redirector (tcp_redirect/src/proxies.c)

    The list of front ends, which of them are available, and the choice of
    the next one in turn; and the list in the configuration from which they
    are made (tcp_redirect.c).  What is told to the monitor is left out. *)

From S2P Require Import Prelude LinkedList CString SockIO.

Open Scope Z_scope.

(** ** State *)

Definition HOST_MAXLEN : nat := 128.
Definition PORT_MAXLEN : nat := 12.
Definition TR_REENABLE_SECS : Z := 30.

Record fe_host := FeHost { hostname : bytes; port : bytes; host_addr : sockaddr_in; available : bool; lastcheck : Z }.
Definition set_available b (h : fe_host) := FeHost (hostname h) (port h) (host_addr h) b (lastcheck h).
Definition set_lastcheck t (h : fe_host) := FeHost (hostname h) (port h) (host_addr h) (available h) t.

#[export] Instance sockaddr_in_dec : EqDecision sockaddr_in.
Proof. solve_decision. Defined.

(** The list holds pointers to the hosts, which are never freed: their
    places in [hosts].  [now] is the clock of the system. *)
Abbreviation host_ptr := (option nat) (only parsing).
Record proxies := Proxies {
  nodes : ll_mem host_ptr;
  fe_list : option loc;
  hosts : list fe_host;
  num_fe : Z;
  num_enabled : Z;
  round : Z;
  now : Z;
}.
Definition with_list m q (s : proxies) := Proxies m q (hosts s) (num_fe s) (num_enabled s) (round s) (now s).
Definition with_hosts l (s : proxies) := Proxies (nodes s) (fe_list s) l (num_fe s) (num_enabled s) (round s) (now s).
Definition with_counts f e (s : proxies) := Proxies (nodes s) (fe_list s) (hosts s) f e (round s) (now s).
Definition with_round r (s : proxies) := Proxies (nodes s) (fe_list s) (hosts s) (num_fe s) (num_enabled s) r (now s).
Definition with_now t (s : proxies) := Proxies (nodes s) (fe_list s) (hosts s) (num_fe s) (num_enabled s) (round s) t.

Definition no_proxies (blocks : nat) : proxies := Proxies (ll_mem_init blocks) None [] 0 0 0 0.

Abbreviation cmd := (M proxies).

Definition host (p : host_ptr) : cmd fe_host := i ← deref p; s ← get; deref (hosts s !! i).
(** An assignment to a field of [*p]. *)
Definition host_update (p : host_ptr) (f : fe_host → fe_host) : cmd () :=
  i ← deref p; _ ← host p; modify (λ s, with_hosts (alter f i (hosts s)) s).
Definition next_host (tmp : option loc) : cmd (host_ptr * option loc) := λ s,
  '(n, m) ← load tmp (nodes s); Ret ((data n, next n), with_list m (fe_list s) s).

(** ** Operations *)

Section ops.
(** Fresh list nodes, and the name services. *)
Context (uninit : ll_node host_ptr) (nm : names).

(** The contents of [dest] after [strncpy(dest, src, n - 1)] and the
    terminating NUL. *)
Definition copy_name (src : bytes) (n : nat) : bytes := take (n - 1) src.

Definition add_proxy (hostname port : bytes) : cmd Z :=
  match make_inetaddr nm (Some hostname) (Some port) with
  | None => mret 0
  | Some naddr =>
      s ← get;
      let nexthost := FeHost (copy_name hostname HOST_MAXLEN) (copy_name port PORT_MAXLEN) naddr true 0 in
      let p := length (hosts s) in
      _ ← modify (with_hosts (hosts s ++ [nexthost]));
      res ← (λ s, '((res, q), m) ← ll_add_to_end uninit (fe_list s) (Some p) (nodes s); Ret (res, with_list m q s));
      if negb (res =? 1) then mret 0
      else
        _ ← modify (λ s, with_counts (num_fe s + 1) (num_enabled s + 1) s);
        mret 1
  end.

(** [tmp = fe_list; while (tmp != NULL) { ...; tmp = tmp->next; }] with the
    counter of the loop. *)
Fixpoint for_hosts (fuel : nat) (body : Z → host_ptr → cmd Z) (count : Z) (tmp : option loc) : cmd Z :=
  match tmp with
  | None => mret count
  | Some _ =>
      match fuel with
      | O => stuck
      | S fuel' =>
          '(data, next) ← next_host tmp;
          count ← body count data;
          for_hosts fuel' body count next
      end
  end.

Definition remove_proxy (hostname port : bytes) : cmd Z := mret 1.

Definition disable_proxy (proxy_addr : sockaddr_in) : cmd Z :=
  s ← get;
  disabled ← for_hosts (walk_fuel (nodes s)) (λ disabled data,
    h ← host data;
    if bool_decide (host_addr h = proxy_addr) then
      _ ← host_update data (set_available false);
      _ ← modify (λ s, with_counts (num_fe s) (num_enabled s - 1) s);
      tv ← gets now;
      _ ← host_update data (set_lastcheck tv);
      mret (disabled + 1)
    else mret disabled) 0 (fe_list s);
  mret (if 0 <? disabled then 1 else 0).

Definition try_enable : cmd Z :=
  s ← get;
  let tv := now s in
  for_hosts (walk_fuel (nodes s)) (λ reenabled data,
    h ← host data;
    if negb (available h) && (TR_REENABLE_SECS <? tv - lastcheck h) then
      _ ← host_update data (set_available true);
      _ ← modify (λ s, with_counts (num_fe s) (num_enabled s + 1) s);
      mret (reenabled + 1)
    else mret reenabled) 0 (fe_list s).

(** The loop of [get_proxy]. *)
Fixpoint get_proxy_loop (fuel : nat) (i : Z) (tmpo : option loc) : cmd host_ptr :=
  match tmpo with
  | None => mret None
  | Some _ =>
      match fuel with
      | O => stuck
      | S fuel' =>
          '(hst, next) ← next_host tmpo;
          h ← host hst;
          if available h then
            if i =? 0 then mret hst else get_proxy_loop fuel' (i - 1) next
          else get_proxy_loop fuel' i next
      end
  end.

(** The remainder of C, which is undefined for zero. *)
Definition c_rem (a b : Z) : cmd Z := if b =? 0 then crash else mret (Z.rem a b).

Definition get_proxy : cmd host_ptr :=
  s ← get;
  none ← (if num_enabled s =? 0 then
            _ ← try_enable;
            n ← gets num_enabled;
            mret (n =? 0)
          else mret false);
  if (none : bool) then mret None
  else
    s ← get;
    i ← c_rem (round s) (num_enabled s);
    r ← c_rem (round s + 1) (num_fe s);
    _ ← modify (with_round r);
    s ← get;
    get_proxy_loop (walk_fuel (nodes s)) i (fe_list s).

(** *** The list in the configuration *)

(** The pieces of [s] between the characters [c], without the empty ones. *)
Fixpoint strtok_words (c : byte) (s : bytes) (word : bytes) : list bytes :=
  match s with
  | [] => if decide (word = []) then [] else [word]
  | x :: s' => if x =? c then (if decide (word = []) then [] else [word]) ++ strtok_words c s' [] else strtok_words c s' (word ++ [x])
  end.
Fixpoint build_fe_list_loop (toks : list bytes) (num : Z) : cmd Z :=
  match toks with
  | [] => mret num
  | next_tok :: toks' =>
      match strrchr next_tok 58 with
      | Some colon =>
          if decide (length next_tok - 1 <= colon)%nat then build_fe_list_loop toks' num
          else
            _ ← add_proxy (take colon next_tok) (drop (S colon) next_tok);
            build_fe_list_loop toks' (num + 1)
      | None => build_fe_list_loop toks' num
      end
  end.
Definition build_fe_list (frontends : bytes) : cmd Z := build_fe_list_loop (strtok_words 32 frontends []) 0.
End ops.

(** ** Lemmas: loops over the hosts *)

Definition count (c : fe_host → bool) (l : list fe_host) : Z := Z.of_nat (length (List.filter c l)).
Definition mark (c : fe_host → bool) (g : fe_host → fe_host) (h : fe_host) : fe_host := if c h then g h else h.

Lemma count_cons c h l : count c (h :: l) = (if c h then 1 else 0) + count c l.
Proof. unfold count. cbn. destruct (c h); cbn [length]; lia. Qed.
Lemma count_nonneg c l : 0 <= count c l <= Z.of_nat (length l).
Proof. unfold count. pose proof (filter_length_le c l). lia. Qed.

Lemma alter_lookup {A} (f : A → A) i (l : list A) x : l !! i = Some x → alter f i l = <[i := f x]> l.
Proof.
  revert i. induction l as [|y l IH]; intros [|i] Hl; cbn in *; try done; [by injection Hl as ->|]. f_equal. by apply IH.
Qed.
Lemma insert_middle {A} (pre post : list A) x y : <[length pre := y]> (pre ++ x :: post) = pre ++ y :: post.
Proof. rewrite insert_app_r_alt, Nat.sub_diag by lia. done. Qed.

Lemma host_ok i h s : hosts s !! i = Some h → host (Some i) s = Ret (h, s).
Proof. intros Hh. unfold host, mbind, M_mbind, get. cbn. by rewrite Hh. Qed.
Lemma host_update_ok i f h s : hosts s !! i = Some h → host_update (Some i) f s = Ret ((), with_hosts (<[i := f h]> (hosts s)) s).
Proof.
  intros Hh. unfold host_update. cbn [deref]. rewrite mret_bind, (bind_ret _ _ _ _ _ (host_ok i h s Hh)). unfold modify. by rewrite (alter_lookup _ _ _ _ Hh).
Qed.
Lemma next_host_ok a x l pp tmp s : dseg (cells (nodes s)) pp tmp ((a, x) :: l) None →
  ∃ nx, next_host tmp s = Ret ((x, nx), s) ∧ dseg (cells (nodes s)) (Some a) nx l None.
Proof.
  cbn [dseg]. intros (->&nx&Hn&Hd). exists nx. split; [|done]. unfold next_host, load, mbind, outcome_mbind, M_mbind, get. cbn. rewrite Hn. by destruct s.
Qed.

Lemma for_hosts_ok (body : Z → host_ptr → cmd Z) (c : fe_host → bool) (g : fe_host → fe_host) (d t : Z) :
  (∀ acc i h s, hosts s !! i = Some h → now s = t → body acc (Some i) s =
     if c h then Ret (acc + 1, with_counts (num_fe s) (num_enabled s + d) (with_hosts (<[i := g h]> (hosts s)) s)) else Ret (acc, s)) →
  ∀ post fuel l pp tmp pre acc s, dseg (cells (nodes s)) pp tmp l None → l.*2 = Some <$> seq (length pre) (length post) →
    hosts s = pre ++ post → now s = t → (length l < fuel)%nat →
    for_hosts fuel body acc tmp s =
      Ret (acc + count c post, with_counts (num_fe s) (num_enabled s + d * count c post) (with_hosts (pre ++ map (mark c g) post) s)).
Proof.
  intros Hbody. induction post as [|h post IH]; intros fuel l pp tmp pre acc s Hd Hl Hh Hn Hf.
  - apply fmap_nil_inv in Hl. subst l. cbn in Hd. subst tmp. replace (for_hosts fuel body acc None s) with (Ret (acc, s)) by (by destruct fuel).
    cbn. rewrite <-Hh. unfold count. cbn. rewrite Z.mul_0_r, !Z.add_0_r. by destruct s.
  - destruct l as [|[a x] l]; [done|]. cbn [length seq fmap list_fmap] in Hl. injection Hl as Hx Hl. cbn in Hx. subst x.
    destruct fuel as [|fuel]; [cbn in Hf; lia|]. destruct (next_host_ok a _ l pp tmp s Hd) as (nx&Hnx&Hd').
    cbn [dseg] in Hd. destruct Hd as [-> _]. cbn [for_hosts]. rewrite (bind_ret _ _ _ _ _ Hnx).
    assert (Hi : hosts s !! length pre = Some h) by (rewrite Hh; by rewrite list_lookup_middle).
    assert (Hb := Hbody acc (length pre) h s Hi Hn). rewrite count_cons. cbn [map].
    assert (Hpre : ∀ y, pre ++ y :: post = (pre ++ [y]) ++ post) by (intros; by rewrite <-app_assoc).
    assert (Hl' : ∀ y, l.*2 = Some <$> seq (length (pre ++ [y])) (length post)) by (intros y; rewrite length_app, Nat.add_1_r; exact Hl).
    cbn in Hf. destruct (c h) eqn:Ec.
    + replace (mark c g h) with (g h) by (unfold mark; by rewrite Ec).
      rewrite (bind_ret _ _ _ _ _ Hb). rewrite (IH fuel l (Some a) nx (pre ++ [g h])); [|done|done| |done|lia].
      * f_equal. f_equal; [lia|]. destruct s. unfold with_counts, with_hosts. cbn. rewrite <-app_assoc. f_equal. lia.
      * cbn. rewrite Hh, insert_middle. apply Hpre.
    + replace (mark c g h) with h by (unfold mark; by rewrite Ec).
      rewrite (bind_ret _ _ _ _ _ Hb). rewrite (IH fuel l (Some a) nx (pre ++ [h])); [|done|done| |done|lia].
      * f_equal. f_equal. by rewrite <-app_assoc.
      * rewrite Hh. apply Hpre.
Qed.

(** ** The invariant *)

Definition is_available (h : fe_host) : bool := available h.
Definition expired (t : Z) (h : fe_host) : bool := negb (available h) && (TR_REENABLE_SECS <? t - lastcheck h).
Definition alive (s : proxies) : Z := count is_available (hosts s).

Definition listed (s : proxies) (k : nat) : Prop := ∃ fl l,
  ll_wf (nodes s) fl (fe_list s) l ∧ can_alloc k (nodes s) fl ∧ l.*2 = Some <$> seq 0 (length (hosts s)).

(** [num_enabled] is at most the number of hosts that are available. *)
Record proxies_ok (s : proxies) (k : nat) : Prop := {
  px_list : listed s k;
  px_num : num_fe s = Z.of_nat (length (hosts s));
  px_round : 0 <= round s < Z.max 1 (num_fe s);
  px_enabled : num_enabled s <= alive s;
}.

Lemma for_all_hosts (body : Z → host_ptr → cmd Z) (c : fe_host → bool) (g : fe_host → fe_host) (d : Z) s k :
  (∀ acc i h s', hosts s' !! i = Some h → now s' = now s → body acc (Some i) s' =
     if c h then Ret (acc + 1, with_counts (num_fe s') (num_enabled s' + d) (with_hosts (<[i := g h]> (hosts s')) s')) else Ret (acc, s')) →
  listed s k →
  for_hosts (walk_fuel (nodes s)) body 0 (fe_list s) s =
    Ret (count c (hosts s), with_counts (num_fe s) (num_enabled s + d * count c (hosts s)) (with_hosts (map (mark c g) (hosts s)) s)).
Proof.
  intros Hb (fl&l&Hw&_&Hl). apply (for_hosts_ok body c g d (now s) Hb (hosts s) (walk_fuel (nodes s)) l None (fe_list s) [] 0 s); try done.
  - apply Hw.
  - by eapply ll_wf_fuel.
Qed.

Definition disable_hosts (addr : sockaddr_in) (t : Z) : list fe_host → list fe_host :=
  map (mark (λ h, bool_decide (host_addr h = addr)) (λ h, set_lastcheck t (set_available false h))).
Definition reenable (t : Z) : list fe_host → list fe_host := map (mark (expired t) (set_available true)).

Lemma disable_proxy_ok addr s k : listed s k →
  let n := count (λ h, bool_decide (host_addr h = addr)) (hosts s) in
  disable_proxy addr s = Ret (if 0 <? n then 1 else 0, with_counts (num_fe s) (num_enabled s - n) (with_hosts (disable_hosts addr (now s) (hosts s)) s)).
Proof.
  intros Hl n. unfold disable_proxy. rewrite (bind_ret get _ s s s eq_refl). erewrite bind_ret.
  2:{ eapply (for_all_hosts _ (λ h, bool_decide (host_addr h = addr)) (λ h, set_lastcheck (now s) (set_available false h)) (-1)); [|done].
      intros acc i h s' Hh Hn. rewrite (bind_ret _ _ _ _ _ (host_ok i h s' Hh)). destruct (bool_decide (host_addr h = addr)); [|done].
      rewrite (bind_ret _ _ _ _ _ (host_update_ok i _ h s' Hh)). set (s1 := with_hosts _ s').
      assert (H1 : hosts s1 !! i = Some (set_available false h)) by (apply list_lookup_insert_eq; by eapply lookup_lt_Some).
      rewrite (bind_ret (modify _) _ s1 () _ eq_refl). rewrite (bind_ret (gets now) _ _ _ _ eq_refl).
      erewrite bind_ret; [|by apply (host_update_ok i _ (set_available false h))].
      change (now (with_counts _ _ s1)) with (now s'). rewrite Hn. unfold s1. cbn. by rewrite list_insert_insert_eq. }
  fold n. cbn beta iota. done.
Qed.

Lemma try_enable_ok s k : listed s k →
  let n := count (expired (now s)) (hosts s) in
  try_enable s = Ret (n, with_counts (num_fe s) (num_enabled s + n) (with_hosts (reenable (now s) (hosts s)) s)).
Proof.
  intros Hl n. unfold try_enable. rewrite (bind_ret get _ s s s eq_refl).
  rewrite (for_all_hosts _ (expired (now s)) (set_available true) 1 s k); [|clear|done].
  - fold n. by rewrite Z.mul_1_l.
  - intros acc i h s' Hh Hn. rewrite (bind_ret _ _ _ _ _ (host_ok i h s' Hh)). unfold expired. destruct (negb (available h) && _); [|done].
    rewrite (bind_ret _ _ _ _ _ (host_update_ok i _ h s' Hh)). done.
Qed.

(** The place of the [i]-th available host. *)
Fixpoint pick (i : Z) (j : nat) (l : list fe_host) : host_ptr :=
  match l with
  | [] => None
  | h :: l' => if available h then if i =? 0 then Some j else pick (i - 1) (S j) l' else pick i (S j) l'
  end.

Lemma pick_spec l : ∀ i j k, pick i j l = Some k →
  ∃ m h, k = (j + m)%nat ∧ l !! m = Some h ∧ available h = true ∧ count is_available (take m l) = i.
Proof.
  induction l as [|h l IH]; intros i j k Hp; cbn in Hp; [done|].
  assert (Hskip : ∀ i', pick i' (S j) l = Some k → (i' = if available h then i - 1 else i) → ∃ m h', k = (j + m)%nat ∧ (h :: l) !! m = Some h' ∧
    available h' = true ∧ count is_available (take m (h :: l)) = i).
  { intros i' Hi Hi'. apply IH in Hi as (m&h'&->&Hl&Ha&Hc). exists (S m), h'. split; [lia|]. split; [done|]. split; [done|].
    cbn [take]. rewrite count_cons. unfold is_available at 1. destruct (available h); lia. }
  destruct (available h) eqn:Ea; [|by apply (Hskip i)]. destruct (Z.eqb_spec i 0) as [->|]; [|by apply (Hskip (i - 1))].
  injection Hp as <-. exists 0%nat, h. split; [lia|]. split; [done|]. split; [done|]. done.
Qed.

Lemma pick_total l : ∀ i j, 0 <= i < count is_available l → is_Some (pick i j l).
Proof.
  induction l as [|h l IH]; intros i j Hi; [unfold count in Hi; cbn in Hi; lia|]. rewrite count_cons in Hi. unfold is_available at 1 in Hi. cbn [pick].
  destruct (available h); [|apply IH; lia]. destruct (Z.eqb_spec i 0); [done|]. apply IH. lia.
Qed.

Lemma pick_all l : Forall (λ h, available h = true) l → ∀ i j, 0 <= i < Z.of_nat (length l) → pick i j l = Some (j + Z.to_nat i)%nat.
Proof.
  induction 1 as [|h l Hh _ IH]; intros i j Hi; cbn [length pick] in *; [lia|]. rewrite Hh. destruct (Z.eqb_spec i 0) as [->|]; [by rewrite Nat.add_0_r|].
  rewrite IH by lia. f_equal. lia.
Qed.

Lemma get_proxy_loop_ok : ∀ post fuel i l pp tmp pre s, dseg (cells (nodes s)) pp tmp l None →
  l.*2 = Some <$> seq (length pre) (length post) → hosts s = pre ++ post → (length l < fuel)%nat →
  get_proxy_loop fuel i tmp s = Ret (pick i (length pre) post, s).
Proof.
  induction post as [|h post IH]; intros fuel i l pp tmp pre s Hd Hl Hh Hf.
  - apply fmap_nil_inv in Hl. subst l. cbn in Hd. subst tmp. by destruct fuel.
  - destruct l as [|[a x] l]; [done|]. cbn [length seq fmap list_fmap] in Hl. injection Hl as Hx Hl. cbn in Hx. subst x.
    destruct fuel as [|fuel]; [cbn in Hf; lia|]. destruct (next_host_ok a _ l pp tmp s Hd) as (nx&Hnx&Hd').
    cbn [dseg] in Hd. destruct Hd as [-> _]. cbn [get_proxy_loop]. rewrite (bind_ret _ _ _ _ _ Hnx).
    assert (Hi : hosts s !! length pre = Some h) by (rewrite Hh; by rewrite list_lookup_middle).
    rewrite (bind_ret _ _ _ _ _ (host_ok (length pre) h s Hi)). cbn in Hf.
    assert (HIH : ∀ i, get_proxy_loop fuel i nx s = Ret (pick i (S (length pre)) post, s)).
    { intros i'. rewrite (IH fuel i' l (Some a) nx (pre ++ [h])); [|done| |by rewrite Hh, <-app_assoc|lia].
      - by rewrite length_app, Nat.add_1_r.
      - rewrite length_app, Nat.add_1_r. exact Hl. }
    cbn [pick]. destruct (available h); [|apply HIH]. destruct (i =? 0); [done|apply HIH].
Qed.

(** *** The reference: a list of hosts, two counters and a clock *)

Inductive proxy_op := OAdd (hostname port : bytes) | ODisable (addr : sockaddr_in) | OEnable | OGet | OTick (t : Z).
Inductive proxy_result := RNum (n : Z) | RHost (h : option nat).

Record aproxies := AProxies { ahosts : list fe_host; aenabled : Z; around : Z; anow : Z }.

Definition abs_enable (p : aproxies) : aproxies :=
  AProxies (reenable (anow p) (ahosts p)) (aenabled p + count (expired (anow p)) (ahosts p)) (around p) (anow p).
Definition abs_choose (p : aproxies) : option nat * aproxies :=
  let p := if aenabled p =? 0 then abs_enable p else p in
  if aenabled p =? 0 then (None, p)
  else (pick (Z.rem (around p) (aenabled p)) 0 (ahosts p), AProxies (ahosts p) (aenabled p) ((around p + 1) mod Z.of_nat (length (ahosts p))) (anow p)).
Definition abs_disable (addr : sockaddr_in) (p : aproxies) : aproxies :=
  AProxies (disable_hosts addr (anow p) (ahosts p)) (aenabled p - count (λ h, bool_decide (host_addr h = addr)) (ahosts p)) (around p) (anow p).
Definition abs_add_host (h : fe_host) (p : aproxies) : aproxies := AProxies (ahosts p ++ [h]) (aenabled p + 1) (around p) (anow p).

Section reference.
Context (nm : names).
Definition abs_proxy_step (op : proxy_op) (p : aproxies) : proxy_result * aproxies :=
  match op with
  | OAdd hn pt =>
      match make_inetaddr nm (Some hn) (Some pt) with
      | Some a => (RNum 1, abs_add_host (FeHost (copy_name hn HOST_MAXLEN) (copy_name pt PORT_MAXLEN) a true 0) p)
      | None => (RNum 0, p)
      end
  | ODisable a => (RNum (if 0 <? count (λ h, bool_decide (host_addr h = a)) (ahosts p) then 1 else 0), abs_disable a p)
  | OEnable => (RNum (count (expired (anow p)) (ahosts p)), abs_enable p)
  | OGet => let '(h, p) := abs_choose p in (RHost h, p)
  | OTick t => (RNum 0, AProxies (ahosts p) (aenabled p) (around p) t)
  end.
Fixpoint abs_proxy_exec (ops : list proxy_op) (p : aproxies) : list proxy_result * aproxies :=
  match ops with
  | [] => ([], p)
  | op :: ops' => let '(r, p) := abs_proxy_step op p in let '(rs, p) := abs_proxy_exec ops' p in (r :: rs, p)
  end.

(** What the header documents: to disable a proxy that is disabled already
    gives -1. *)
Definition documented (op : proxy_op) (p : aproxies) : proxy_result :=
  match op with
  | ODisable a =>
      if negb (0 <? count (λ h, bool_decide (host_addr h = a)) (ahosts p)) then RNum 0
      else if 0 <? count (λ h, bool_decide (host_addr h = a) && available h) (ahosts p) then RNum 1 else RNum (-1)
  | _ => (abs_proxy_step op p).1
  end.
Fixpoint documented_results (ops : list proxy_op) (p : aproxies) : list proxy_result :=
  match ops with
  | [] => []
  | op :: ops' => documented op p :: documented_results ops' (abs_proxy_step op p).2
  end.
(** What the code returns in its place: 1. *)
Definition as_coded (op : proxy_op) (r : proxy_result) : proxy_result :=
  match op, r with ODisable _, RNum n => RNum (Z.abs n) | _, _ => r end.

Lemma coded_results ops : ∀ p, (abs_proxy_exec ops p).1 = zip_with as_coded ops (documented_results ops p).
Proof.
  induction ops as [|op ops IH]; intros p; [done|]. cbn [abs_proxy_exec documented_results zip_with].
  assert ((abs_proxy_step op p).1 = as_coded op (documented op p)) as Hop.
  { destruct op; try done. unfold documented, abs_proxy_step. cbn [fst]. destruct (0 <? count _ _); cbn [negb]; [|done]. by destruct (0 <? count _ _). }
  rewrite <-Hop, <-IH. destruct (abs_proxy_step op p) as [r q]. cbn [fst snd]. by destruct (abs_proxy_exec ops q).
Qed.
End reference.

Section exec.
Context (uninit : ll_node host_ptr) (nm : names).
Definition proxy_step (op : proxy_op) : cmd proxy_result :=
  match op with
  | OAdd hn pt => r ← add_proxy uninit nm hn pt; mret (RNum r)
  | ODisable a => r ← disable_proxy a; mret (RNum r)
  | OEnable => r ← try_enable; mret (RNum r)
  | OGet => h ← get_proxy; mret (RHost h)
  | OTick t => _ ← modify (with_now t); mret (RNum 0)
  end.
Fixpoint proxy_exec (ops : list proxy_op) : cmd (list proxy_result) :=
  match ops with
  | [] => mret []
  | op :: ops' => r ← proxy_step op; rs ← proxy_exec ops'; mret (r :: rs)
  end.
End exec.

(** The state of the code holds [p], with room for [k] more hosts. *)
Record holds (s : proxies) (p : aproxies) (k : nat) : Prop := {
  ho_list : listed s k;
  ho_hosts : hosts s = ahosts p;
  ho_num : num_fe s = Z.of_nat (length (ahosts p));
  ho_enabled : num_enabled s = aenabled p;
  ho_round : round s = around p;
  ho_now : now s = anow p;
}.
(** The counters of the reference. *)
Record aproxies_ok (p : aproxies) : Prop := {
  ap_round : 0 <= around p < Z.max 1 (Z.of_nat (length (ahosts p)));
  ap_enabled : aenabled p <= count is_available (ahosts p);
  ap_empty : ahosts p = [] → aenabled p = 0;
}.

(** *** Counts *)
Lemma count_app c l1 l2 : count c (l1 ++ l2) = count c l1 + count c l2.
Proof. unfold count. rewrite List.filter_app, length_app. lia. Qed.

Lemma count_reenable t l : count is_available (reenable t l) = count is_available l + count (expired t) l.
Proof.
  induction l as [|h l IH]; [done|]. unfold reenable in *. cbn [map]. rewrite !count_cons, IH.
  assert (is_available (mark (expired t) (set_available true) h) = is_available h || expired t h ∧ is_available h && expired t h = false) as [-> Hx].
  { unfold mark, expired, is_available. destruct (available h) eqn:E; cbn; [done|]. destruct (_ <? _); cbn; [done|]. by rewrite E. }
  destruct (is_available h), (expired t h); cbn in *; try done; lia.
Qed.

Lemma count_disable addr t l :
  count is_available (disable_hosts addr t l) =
  count is_available l - count (λ h, bool_decide (host_addr h = addr) && available h) l.
Proof.
  induction l as [|h l IH]; [done|]. unfold disable_hosts in *. cbn [map]. rewrite !count_cons, IH.
  unfold mark. destruct (bool_decide (host_addr h = addr)); cbn [andb]; [|lia].
  change (is_available (set_lastcheck t (set_available false h))) with false. change (available h) with (is_available h). destruct (is_available h); lia.
Qed.

Lemma count_le c c' l : (∀ h, c h = true → c' h = true) → count c l <= count c' l.
Proof.
  intros Hc. induction l as [|h l IH]; [done|]. rewrite !count_cons. specialize (Hc h). destruct (c h); [rewrite Hc by done|]; destruct (c' h); lia.
Qed.

Lemma length_reenable t l : length (reenable t l) = length l.
Proof. apply length_map. Qed.
Lemma length_disable a t l : length (disable_hosts a t l) = length l.
Proof. apply length_map. Qed.

(** *** Each operation against the reference *)
Section refinement.
Context (uninit : ll_node host_ptr) (nm : names).

Lemma enable_holds s p k : holds s p k → ∃ s', try_enable s = Ret (count (expired (anow p)) (ahosts p), s') ∧ holds s' (abs_enable p) k.
Proof.
  intros [Hl Hh Hn He Hr Ht]. rewrite (try_enable_ok s k Hl), Hh, Ht. eexists. split; [done|]. split; cbn; rewrite ?length_reenable; try done; [|by rewrite He].
  destruct Hl as (fl&l&?&?&Hl). exists fl, l. split; [done|]. split; [done|]. cbn. by rewrite length_reenable, <-Hh.
Qed.

Lemma abs_enable_ok p : aproxies_ok p → aproxies_ok (abs_enable p).
Proof.
  intros [Hr He Hz]. split; cbn; rewrite ?length_reenable, ?count_reenable; [done|lia|]. intros Hn.
  destruct (ahosts p) eqn:E; [|done]. unfold count. cbn. specialize (Hz eq_refl). lia.
Qed.

Lemma disable_holds a s p k : holds s p k →
  ∃ s', disable_proxy a s = Ret (if 0 <? count (λ h, bool_decide (host_addr h = a)) (ahosts p) then 1 else 0, s') ∧ holds s' (abs_disable a p) k.
Proof.
  intros [Hl Hh Hn He Hr Ht]. rewrite (disable_proxy_ok a s k Hl), Hh, Ht. eexists. split; [done|]. split; cbn; rewrite ?length_disable; try done; [|by rewrite He].
  destruct Hl as (fl&l&?&?&Hl). exists fl, l. split; [done|]. split; [done|]. cbn. by rewrite length_disable, <-Hh.
Qed.

Lemma abs_disable_ok a p : aproxies_ok p → aproxies_ok (abs_disable a p).
Proof.
  intros [Hr He Hz]. split; cbn; rewrite ?length_disable, ?count_disable; [done| |].
  - pose proof (count_le (λ h, bool_decide (host_addr h = a) && available h) (λ h, bool_decide (host_addr h = a)) (ahosts p)) as Hc.
    assert (∀ h, bool_decide (host_addr h = a) && available h = true → bool_decide (host_addr h = a) = true) as Hi by (by intros h [? _]%andb_prop).
    specialize (Hc Hi). lia.
  - intros Hn. destruct (ahosts p) eqn:E; [|done]. unfold count. cbn. specialize (Hz eq_refl). lia.
Qed.

Lemma abs_choose_ok p : aproxies_ok p → aproxies_ok (abs_choose p).2.
Proof.
  intros Hok. unfold abs_choose. set (p1 := if aenabled p =? 0 then abs_enable p else p).
  assert (Hok1 : aproxies_ok p1) by (unfold p1; destruct (_ =? _); [by apply abs_enable_ok|done]).
  destruct (aenabled p1 =? 0) eqn:E; [done|]. destruct Hok1 as [Hr He Hz]. split; cbn; [|done|done].
  destruct (ahosts p1) as [|h l]; [specialize (Hz eq_refl); lia|]. cbn [length] in *. pose proof (Z.mod_pos_bound (around p1 + 1) (Z.of_nat (S (length l)))). lia.
Qed.

Lemma choose_holds s p k : holds s p k → aproxies_ok p → ∃ s', get_proxy s = Ret ((abs_choose p).1, s') ∧ holds s' (abs_choose p).2 k.
Proof.
  intros Hs Hok. unfold get_proxy, abs_choose. rewrite (bind_ret get _ s s s eq_refl). rewrite (ho_enabled _ _ _ Hs).
  set (p1 := if aenabled p =? 0 then abs_enable p else p).
  assert (Hp1 : ∃ s1, (if aenabled p =? 0 then _ ← try_enable; n ← gets num_enabled; mret (n =? 0) else mret false) s = Ret (aenabled p1 =? 0, s1) ∧ holds s1 p1 k).
  { unfold p1. destruct (aenabled p =? 0) eqn:E; [|exists s; by rewrite E]. destruct (enable_holds s p k Hs) as (s1&Hrun&Hs1). exists s1. split; [|done].
    rewrite (bind_ret _ _ _ _ _ Hrun), (bind_ret (gets num_enabled) _ _ _ _ eq_refl). by rewrite (ho_enabled _ _ _ Hs1). }
  assert (Hok1 : aproxies_ok p1) by (unfold p1; destruct (_ =? _); [by apply abs_enable_ok|done]).
  destruct Hp1 as (s1&Hrun&Hs1). rewrite (bind_ret _ _ _ _ _ Hrun). cbv zeta. fold p1. clearbody p1. clear Hrun Hs Hok s p.
  destruct (aenabled p1 =? 0) eqn:E; [by exists s1|]. cbn [fst snd]. rewrite (bind_ret get _ s1 s1 s1 eq_refl).
  destruct Hs1 as [Hl Hh Hn He Hr Ht]. destruct Hok1 as [Har Hae Haz]. rewrite Hn, He, Hr. unfold c_rem. rewrite E, mret_bind.
  assert (Hlen : Z.of_nat (length (ahosts p1)) ≠ 0) by (destruct (ahosts p1); [specialize (Haz eq_refl); lia|cbn; lia]).
  rewrite (proj2 (Z.eqb_neq _ 0)) by done. rewrite mret_bind, (Z.rem_mod_nonneg (around p1 + 1)) by lia.
  rewrite (bind_ret (modify _) _ s1 () _ eq_refl), (bind_ret get _ _ _ _ eq_refl). destruct Hl as (fl&l&Hw&Hc&Hd).
  set (s2 := with_round _ s1). exists s2. split.
  - rewrite <-Hh. erewrite (get_proxy_loop_ok (hosts s1) _ _ l None _ []); [done|apply Hw|done|done|]. by eapply ll_wf_fuel.
  - split; try done. by exists fl, l.
Qed.

Lemma add_holds hn pt a s p k : holds s p (S k) → make_inetaddr nm (Some hn) (Some pt) = Some a →
  ∃ s', add_proxy uninit nm hn pt s = Ret (1, s') ∧ holds s' (abs_add_host (FeHost (copy_name hn HOST_MAXLEN) (copy_name pt PORT_MAXLEN) a true 0) p) k.
Proof.
  intros [(fl&l&Hw&Hc&Hd) Hh Hn He Hr Ht] Ha. unfold add_proxy. rewrite Ha. rewrite (bind_ret get _ s s s eq_refl). cbv zeta.
  set (h := FeHost _ _ _ _ _). rewrite (bind_ret (modify _) _ s () _ eq_refl).
  destruct (ll_add_to_end_spec uninit (nodes s) fl (fe_list s) l (Some (length (hosts s))) k Hw Hc) as (x&hd&m&fl'&Hrun&Hw'&Hc'&_).
  erewrite bind_ret; [|unfold outcome_mbind, mbind; cbn [nodes with_hosts fe_list]; rewrite Hrun; reflexivity].
  change (negb (1 =? 1)) with false. cbn iota. rewrite (bind_ret (modify _) _ _ () _ eq_refl). eexists. split; [done|].
  split; cbn; try done; [|by rewrite Hh|rewrite Hn, length_app; cbn; lia|by rewrite He].
  exists fl', (l ++ [(x, Some (length (hosts s)))]). split; [done|]. split; [done|].
  cbn [with_counts with_list with_hosts hosts]. rewrite fmap_app, Hd, length_app, seq_app, fmap_app. done.
Qed.

Definition adds (op : proxy_op) : nat := match op with OAdd _ _ => 1 | _ => 0 end.

Lemma proxy_step_holds op s p k : holds s p (adds op + k) → aproxies_ok p →
  ∃ s', proxy_step uninit nm op s = Ret ((abs_proxy_step nm op p).1, s') ∧ holds s' (abs_proxy_step nm op p).2 k ∧ aproxies_ok (abs_proxy_step nm op p).2.
Proof.
  intros Hs Hok. destruct op as [hn pt|a| | |t]; cbn [proxy_step abs_proxy_step adds] in *.
  - destruct (make_inetaddr nm (Some hn) (Some pt)) as [a|] eqn:Ea.
    + destruct (add_holds hn pt a s p k Hs Ea) as (s'&Hrun&Hs'). exists s'. rewrite (bind_ret _ _ _ _ _ Hrun). split; [done|]. split; [done|].
      destruct Hok as [Hr He Hz]. split; cbn; [rewrite length_app; cbn; lia| |by destruct (ahosts p)]. rewrite count_app, count_cons. change (count is_available []) with 0. cbn. lia.
    + exists s. unfold add_proxy. rewrite Ea. split; [done|]. split; [|done]. destruct Hs as [(fl&l&?&Hc&?) ? ? ? ? ?]. split; try done.
      exists fl, l. split; [done|]. split; [unfold can_alloc in *; lia|done].
  - destruct (disable_holds a s p k Hs) as (s'&Hrun&Hs'). exists s'. rewrite (bind_ret _ _ _ _ _ Hrun). split; [done|]. split; [done|by apply abs_disable_ok].
  - destruct (enable_holds s p k Hs) as (s'&Hrun&Hs'). exists s'. rewrite (bind_ret _ _ _ _ _ Hrun). split; [done|]. split; [done|by apply abs_enable_ok].
  - destruct (choose_holds s p k Hs Hok) as (s'&Hrun&Hs'). exists s'. rewrite (bind_ret _ _ _ _ _ Hrun). pose proof (abs_choose_ok p Hok).
    by destruct (abs_choose p) as [h p'].
  - eexists. split; [reflexivity|]. split; [|by destruct Hok]. by destruct Hs.
Qed.

Lemma proxy_exec_holds ops : ∀ s p k, holds s p (foldr (λ op n, adds op + n)%nat k ops) → aproxies_ok p →
  ∃ s', proxy_exec uninit nm ops s = Ret ((abs_proxy_exec nm ops p).1, s') ∧ holds s' (abs_proxy_exec nm ops p).2 k ∧ aproxies_ok (abs_proxy_exec nm ops p).2.
Proof.
  induction ops as [|op ops IH]; intros s p k Hs Hok; cbn [proxy_exec abs_proxy_exec foldr] in *; [by exists s|].
  destruct (proxy_step_holds op s p _ Hs Hok) as (s1&Hrun&Hs1&Hok1). rewrite (bind_ret _ _ _ _ _ Hrun).
  destruct (abs_proxy_step nm op p) as [r p1] eqn:Ep. cbn [fst snd] in *. destruct (IH s1 p1 k Hs1 Hok1) as (s'&Hrun'&Hs'&Hok').
  rewrite (bind_ret _ _ _ _ _ Hrun'). destruct (abs_proxy_exec nm ops p1) as [rs p2]. by exists s'.
Qed.
End refinement.

(** ** Theorems *)

Definition no_aproxies : aproxies := AProxies [] 0 0 0.
Lemma no_proxies_ok blocks : holds (no_proxies blocks) no_aproxies (LL_HEAPSIZE * blocks) ∧ aproxies_ok no_aproxies.
Proof.
  split; split; try done. exists [], []. split; [|split; [|done]]; [|exact (le_n _)].
  split; [split|done|]; cbn; try done; try apply NoDup_nil_2. intros a [n Hn]. by rewrite lookup_empty in Hn.
Qed.

Definition total_adds (ops : list proxy_op) : nat := foldr (λ op n, adds op + n)%nat 0%nat ops.
Lemma total_adds_fold k ops : foldr (λ op n, adds op + n)%nat k ops = (total_adds ops + k)%nat.
Proof. induction ops as [|op ops IH]; cbn; [done|]. unfold total_adds in *. cbn. lia. Qed.

Lemma holds_le s p k k' : (k' <= k)%nat → holds s p k → holds s p k'.
Proof.
  intros Hk [(fl&l&Hw&Hc&Hd) ? ? ? ? ?]. split; try done. exists fl, l. split; [done|]. split; [|done]. unfold can_alloc in *. lia.
Qed.

(** From the start. *)
Lemma proxy_exec_start uninit nm ops blocks : (total_adds ops <= LL_HEAPSIZE * blocks)%nat →
  let p := (abs_proxy_exec nm ops no_aproxies).2 in
  ∃ s', proxy_exec uninit nm ops (no_proxies blocks) = Ret ((abs_proxy_exec nm ops no_aproxies).1, s') ∧ holds s' p 0 ∧ aproxies_ok p.
Proof.
  intros Hn p. destruct (no_proxies_ok blocks) as [Hs Hok].
  destruct (proxy_exec_holds uninit nm ops (no_proxies blocks) no_aproxies 0) as (s'&?&?&?); [|done|by exists s'].
  rewrite total_adds_fold. eapply holds_le; [|exact Hs]. lia.
Qed.

(** Only hosts that are available are disabled. *)
Fixpoint careful (nm : names) (ops : list proxy_op) (p : aproxies) : Prop :=
  match ops with
  | [] => True
  | op :: ops' => match op with ODisable a => Forall (λ h, host_addr h = a → available h = true) (ahosts p) | _ => True end ∧
                  careful nm ops' (abs_proxy_step nm op p).2
  end.
Definition exact (p : aproxies) : Prop := aenabled p = count is_available (ahosts p).

Lemma exact_enable p : exact p → exact (abs_enable p).
Proof. unfold exact. cbn. rewrite count_reenable. lia. Qed.

Lemma count_same c c' l : Forall (λ h, c h = c' h) l → count c l = count c' l.
Proof. induction 1 as [|h l Hh _ IH]; [done|]. by rewrite !count_cons, Hh, IH. Qed.

Lemma exact_exec nm ops : ∀ p, exact p → careful nm ops p → exact (abs_proxy_exec nm ops p).2.
Proof.
  induction ops as [|op ops IH]; intros p He Hc; [done|]. destruct Hc as [Hop Hc]. cbn [abs_proxy_exec].
  assert (He1 : exact (abs_proxy_step nm op p).2).
  { destruct op as [hn pt|a| | |t]; cbn [abs_proxy_step]; [| |by apply exact_enable| |done].
    - destruct (make_inetaddr nm _ _); [|done]. unfold exact in *. cbn. rewrite count_app, count_cons, He. done.
    - unfold exact in *. cbn. rewrite count_disable, He. f_equal. apply count_same. eapply Forall_impl; [exact Hop|]. intros h Hh. cbn in Hh.
      destruct (bool_decide_reflect (host_addr h = a)) as [E|]; [|done]. by rewrite (Hh E).
    - unfold abs_choose. set (p1 := if aenabled p =? 0 then abs_enable p else p).
      assert (Hp1 : exact p1) by (unfold p1; destruct (_ =? _); [by apply exact_enable|done]). by destruct (aenabled p1 =? 0). }
  destruct (abs_proxy_step nm op p) as [r p1]. specialize (IH p1 He1 Hc). by destruct (abs_proxy_exec nm ops p1).
Qed.

Lemma chosen_available p j p' : abs_choose p = (Some j, p') → ∃ h, ahosts p' !! j = Some h ∧ available h = true.
Proof.
  unfold abs_choose. set (p1 := if aenabled p =? 0 then abs_enable p else p). destruct (aenabled p1 =? 0); [done|]. intros Hp. injection Hp as Hj <-.
  apply pick_spec in Hj as (m&h&->&Hl&Ha&_). by exists h.
Qed.

Lemma choose_some p : exact p → aproxies_ok p → 0 < count is_available (ahosts p) + count (expired (anow p)) (ahosts p) → is_Some (abs_choose p).1.
Proof.
  intros He Hok Hc. unfold abs_choose. set (p1 := if aenabled p =? 0 then abs_enable p else p).
  assert (Hp1 : exact p1 ∧ aproxies_ok p1 ∧ aenabled p1 ≠ 0).
  { unfold p1. destruct (Z.eqb_spec (aenabled p) 0) as [E|]; [|done]. split; [by apply exact_enable|]. split; [by apply abs_enable_ok|]. cbn. unfold exact in He. lia. }
  destruct Hp1 as (He1&Hok1&Hne). rewrite (proj2 (Z.eqb_neq _ 0)) by done. cbn [fst]. apply pick_total.
  unfold exact in He1. pose proof (count_nonneg is_available (ahosts p1)). pose proof (ap_round p1 Hok1). rewrite He1 in *. apply Z.rem_bound_pos; lia.
Qed.

(** C36. Over any sequence of proxies that are added and disabled, of calls of
    [try_enable] and [get_proxy] and of the clock, the code over the linked
    list returns what a plain list with counters gives, in which a proxy that
    was disabled more than thirty seconds ago is enabled again by [try_enable],
    and by [get_proxy] if none is enabled; but [disable_proxy] returns 1 also
    where -1 is documented, for a proxy that is disabled already.  And
    [num_enabled] never exceeds the number of available proxies.  As long as no proxy is disabled
    while it is down, it is this number, and the next call of [get_proxy] finds
    a proxy that is available exactly if there is one or one has been down for
    more than thirty seconds. *)
Theorem proxies_refine uninit nm ops blocks :
  (total_adds ops <= LL_HEAPSIZE * blocks)%nat →
  ∃ s' s'' r, let p := (abs_proxy_exec nm ops no_aproxies).2 in
    proxy_exec uninit nm ops (no_proxies blocks) = Ret (zip_with as_coded ops (documented_results nm ops no_aproxies), s') ∧
    hosts s' = ahosts p ∧ num_fe s' = Z.of_nat (length (hosts s')) ∧ num_enabled s' <= alive s' ∧
    get_proxy s' = Ret (r, s'') ∧
    (∀ j, r = Some j → ∃ h, hosts s'' !! j = Some h ∧ available h = true) ∧
    (careful nm ops no_aproxies → num_enabled s' = alive s' ∧
       (is_Some r ↔ ∃ h, h ∈ hosts s' ∧ (available h = true ∨ TR_REENABLE_SECS < now s' - lastcheck h))).
Proof.
  intros Hn. destruct (proxy_exec_start uninit nm ops blocks Hn) as (s'&Hrun&Hs&Hok). set (p := (abs_proxy_exec nm ops no_aproxies).2) in *.
  destruct (choose_holds s' p 0 Hs Hok) as (s''&Hget&Hs''). exists s', s'', (abs_choose p).1. cbv zeta. rewrite <-coded_results.
  pose proof Hs as [Hl Hh Hnum He Hr Ht]. split; [done|]. split; [done|]. rewrite Hh. split; [done|]. unfold alive. rewrite Hh, He.
  split; [apply Hok|]. split; [done|]. split.
  - intros j Hj. destruct (chosen_available p j (abs_choose p).2) as (h&Hlj&Ha); [by rewrite <-Hj; destruct (abs_choose p)|].
    exists h. by rewrite (ho_hosts _ _ _ Hs'').
  - intros Hc. assert (Hex : exact p) by (by apply exact_exec). split; [exact Hex|].
    assert (Hcount : ∀ c, 0 < count c (ahosts p) ↔ ∃ h, h ∈ ahosts p ∧ c h = true).
    { intros c. clear. induction (ahosts p) as [|h l IH]; [unfold count; cbn; split; [lia|by intros (h&Hin&_); apply elem_of_nil in Hin]|].
      rewrite count_cons. pose proof (count_nonneg c l). destruct (c h) eqn:E; [split; [intros _; exists h; split; [left|done]|lia]|]. rewrite Z.add_0_l, IH.
      split; [intros (x&?&?); exists x; split; [by right|done]|]. intros (x&Hin&Hx). exists x. split; [|done]. apply elem_of_cons in Hin as [->|]; [congruence|done]. }
    rewrite Ht. split.
    + intros [j Hj]. destruct (abs_choose p) as [o p'] eqn:Ep. cbn in Hj. subst o. destruct (chosen_available p j p') as (h&Hlj&Ha); [done|].
      unfold abs_choose in Ep. destruct (aenabled p =? 0) eqn:E0.
      * destruct (aenabled (abs_enable p) =? 0); [done|]. injection Ep as _ <-. cbn in Hlj. unfold reenable in Hlj. rewrite list_lookup_fmap in Hlj.
        destruct (ahosts p !! j) as [h0|] eqn:Ej; [|done]. injection Hlj as <-. exists h0. split; [by eapply list_elem_of_lookup_2|].
        unfold mark, expired in Ha. destruct (available h0) eqn:Eh; [by left|]. right. cbn [negb andb] in Ha.
        destruct (Z.ltb_spec TR_REENABLE_SECS (anow p - lastcheck h0)); [done|congruence].
      * rewrite E0 in Ep. injection Ep as _ <-. cbn in Hlj. exists h. split; [by eapply list_elem_of_lookup_2|by left].
    + intros (h&Hin&Hor). apply choose_some; [done|done|]. pose proof (count_nonneg is_available (ahosts p)). pose proof (count_nonneg (expired (anow p)) (ahosts p)).
      destruct (available h) eqn:Ea.
      * pose proof (proj2 (Hcount is_available) (ex_intro _ h (conj Hin Ea))). lia.
      * destruct Hor as [?|Hor]; [done|]. assert (0 < count (expired (anow p)) (ahosts p)); [|lia].
        apply (proj2 (Hcount _)). exists h. split; [done|]. unfold expired. rewrite Ea. cbn. by apply Z.ltb_lt.
Qed.

Lemma abs_proxy_exec_app nm ops1 : ∀ ops2 p, abs_proxy_exec nm (ops1 ++ ops2) p =
  ((abs_proxy_exec nm ops1 p).1 ++ (abs_proxy_exec nm ops2 (abs_proxy_exec nm ops1 p).2).1, (abs_proxy_exec nm ops2 (abs_proxy_exec nm ops1 p).2).2).
Proof.
  induction ops1 as [|op ops1 IH]; intros ops2 p; cbn [abs_proxy_exec app fst snd]; [by destruct (abs_proxy_exec nm ops2 p)|].
  destruct (abs_proxy_step nm op p) as [r p1]. rewrite IH. by destruct (abs_proxy_exec nm ops1 p1) as [rs q]; cbn; destruct (abs_proxy_exec nm ops2 q).
Qed.

Definition add_op (x : bytes * bytes) : proxy_op := OAdd x.1 x.2.
Definition resolves (nm : names) (x : bytes * bytes) : Prop := is_Some (make_inetaddr nm (Some x.1) (Some x.2)).

(** All hosts are available and counted. *)
Definition all_up (p : aproxies) : Prop := Forall (λ h, available h = true) (ahosts p) ∧ aenabled p = Z.of_nat (length (ahosts p)).

Lemma adds_up nm xs : Forall (resolves nm) xs → ∀ p, all_up p → let q := (abs_proxy_exec nm (add_op <$> xs) p).2 in
  (abs_proxy_exec nm (add_op <$> xs) p).1 = replicate (length xs) (RNum 1) ∧ all_up q ∧ around q = around p ∧ length (ahosts q) = (length (ahosts p) + length xs)%nat.
Proof.
  induction 1 as [|[hn pt] xs [a Ha] _ IH]; intros p Hp; [cbn; by rewrite Nat.add_0_r|]. cbn [fmap list_fmap abs_proxy_exec abs_proxy_step add_op fst snd] in *. rewrite Ha.
  set (h := FeHost _ _ _ _ _). assert (Hp1 : all_up (abs_add_host h p)).
  { destruct Hp as [Hf He]. split; cbn; [apply Forall_app; by repeat constructor|]. rewrite length_app, He. cbn. lia. }
  destruct (IH _ Hp1) as (Hr&Hq&Hro&Hl). destruct (abs_proxy_exec nm (add_op <$> xs) (abs_add_host h p)) as [rs q]. cbn in *.
  rewrite Hr. split; [done|]. split; [done|]. split; [done|]. rewrite Hl, length_app. cbn. lia.
Qed.

Lemma gets_turn nm c : ∀ p, all_up p → (0 < length (ahosts p))%nat → 0 <= around p < Z.of_nat (length (ahosts p)) →
  (abs_proxy_exec nm (replicate c OGet) p).1 = (λ k, RHost (Some ((Z.to_nat (around p) + k) mod length (ahosts p))%nat)) <$> seq 0 c.
Proof.
  induction c as [|c IH]; intros p Hp Hl Hr; [done|]. cbn [replicate abs_proxy_exec abs_proxy_step].
  destruct Hp as [Hf He]. unfold abs_choose. rewrite (proj2 (Z.eqb_neq (aenabled p) 0)) by lia. cbv zeta. rewrite (proj2 (Z.eqb_neq (aenabled p) 0)) by lia.
  set (p1 := AProxies _ _ _ _). specialize (IH p1). cbn [ahosts around p1] in IH. destruct (abs_proxy_exec nm (replicate c OGet) p1) as [rs q]. cbn [fst snd] in *.
  rewrite IH; [|by split|done|apply Z.mod_pos_bound; lia]. cbn [seq fmap list_fmap]. f_equal.
  - rewrite He, Z.rem_small by lia. rewrite (pick_all _ Hf) by lia. rewrite Nat.add_0_r, Nat.mod_small by lia. done.
  - rewrite <-(fmap_S_seq 0 c), <-list_fmap_compose. apply list_fmap_ext. intros _ k _. unfold compose. f_equal. f_equal.
    rewrite Z2Nat.inj_mod, Z2Nat.inj_add, Nat2Z.id by lia. rewrite Nat.Div0.add_mod_idemp_l. f_equal. lia.
Qed.

(** When all proxies are up the connections are spread evenly: the proxies
    are chosen in the order of the list, in turn. *)
Theorem round_robin uninit nm xs c blocks :
  Forall (resolves nm) xs → xs ≠ [] → (length xs <= LL_HEAPSIZE * blocks)%nat →
  ∃ s', proxy_exec uninit nm ((add_op <$> xs) ++ replicate c OGet) (no_proxies blocks) =
    Ret (replicate (length xs) (RNum 1) ++ ((λ k, RHost (Some (k mod length xs)%nat)) <$> seq 0 c), s').
Proof.
  intros Hx Hne Hn. assert (Hadds : total_adds ((add_op <$> xs) ++ replicate c OGet) = length xs).
  { unfold total_adds. rewrite foldr_app. clear. induction xs as [|x xs IH]; cbn; [by induction c|]. by rewrite IH. }
  destruct (proxy_exec_start uninit nm _ blocks ltac:(rewrite Hadds; exact Hn)) as (s'&Hrun&_). exists s'. rewrite Hrun, abs_proxy_exec_app.
  destruct (adds_up nm xs Hx no_aproxies) as (Hr&Hup&Hro&Hl); [by split; [constructor|]|]. cbn [fst]. rewrite Hr. do 3 f_equal.
  assert (0 < length xs)%nat by (destruct xs; [done|cbn; lia]). cbn in Hro, Hl.
  rewrite (gets_turn nm c _ Hup) by (rewrite ?Hl, ?Hro; lia). rewrite Hro, Hl. done.
Qed.

Definition harmless (op : proxy_op) : Prop := match op with OEnable | OGet | OTick _ => True | _ => False end.
Lemma lost_exec nm ops : Forall harmless ops → ∀ h p, ahosts p = [h] → available h = true → aenabled p = 0 →
  Forall (λ r, ∀ j, r ≠ RHost (Some j)) (abs_proxy_exec nm ops p).1 ∧ ahosts (abs_proxy_exec nm ops p).2 = [h].
Proof.
  induction 1 as [|op ops Hop _ IH]; intros h p Hh Ha He; [done|]. cbn [abs_proxy_exec].
  assert (Hx : count (expired (anow p)) (ahosts p) = 0 ∧ reenable (anow p) (ahosts p) = [h]).
  { rewrite Hh. unfold count, reenable, mark, expired. cbn. by rewrite Ha. }
  destruct Hx as [Hx Hre].
  assert (Hs : ∃ r p1, abs_proxy_step nm op p = (r, p1) ∧ (∀ j, r ≠ RHost (Some j)) ∧ ahosts p1 = [h] ∧ aenabled p1 = 0).
  { destruct op as [| | | |t]; try done; cbn [abs_proxy_step].
    - eexists _, _. split; [reflexivity|]. split; [done|]. split; [exact Hre|]. cbn. lia.
    - unfold abs_choose. rewrite He. change (0 =? 0) with true. cbn iota. assert (He' : aenabled (abs_enable p) = 0) by (cbn; lia). rewrite He'.
      change (0 =? 0) with true. cbn iota. eexists _, _. split; [reflexivity|]. split; [done|]. split; [exact Hre|done].
    - by eexists _, _. }
  destruct Hs as (r&p1&->&Hr&Hh1&He1). destruct (IH h p1 Hh1 Ha He1) as [Hrs Hl]. destruct (abs_proxy_exec nm ops p1). cbn in *. split; [by constructor|done].
Qed.

(** Two failures of the only proxy take it away for ever: when it is
    disabled by two connections that were waiting for it, [num_enabled] is one
    too small, and although [try_enable] makes the proxy available again after
    thirty seconds, no call of [get_proxy] ever returns it, whatever the time
    and however often the two functions are called. *)
Theorem disabled_twice_lost uninit nm hn pt a t ops blocks :
  make_inetaddr nm (Some hn) (Some pt) = Some a → (0 < blocks)%nat → 30 < t → Forall harmless ops →
  ∃ rs s', proxy_exec uninit nm ([OAdd hn pt; ODisable a; ODisable a; OTick t; OEnable] ++ ops) (no_proxies blocks) = Ret (rs, s') ∧
    Forall (λ r, ∀ j, r ≠ RHost (Some j)) rs ∧ ∃ h, hosts s' = [h] ∧ host_addr h = a ∧ available h = true.
Proof.
  intros Ha Hb Ht Hops. set (start := [OAdd hn pt; _; _; _; _]).
  assert (Hadds : (total_adds (start ++ ops) <= LL_HEAPSIZE * blocks)%nat).
  { unfold total_adds. rewrite foldr_app. assert (Hz : foldr (λ op n, (adds op + n)%nat) 0%nat ops = 0%nat) by (induction Hops as [|op ops Hop _ IH]; cbn; [done|]; rewrite IH; by destruct op).
    rewrite Hz. unfold start. cbn [foldr adds Nat.add]. unfold LL_HEAPSIZE. lia. }
  destruct (proxy_exec_start uninit nm _ blocks Hadds) as (s'&Hrun&Hs&_). rewrite abs_proxy_exec_app in *. cbn [fst snd] in *.
  set (h := FeHost (copy_name hn HOST_MAXLEN) (copy_name pt PORT_MAXLEN) a true 0).
  assert (Hst : abs_proxy_exec nm start no_aproxies = ([RNum 1; RNum 1; RNum 1; RNum 0; RNum 1], AProxies [h] 0 0 t)).
  { unfold start. cbn [abs_proxy_exec abs_proxy_step]. rewrite Ha. fold h. assert (Ht' : (TR_REENABLE_SECS <? t) = true) by (by apply Z.ltb_lt).
    unfold abs_disable, disable_hosts, abs_enable, reenable, abs_add_host. cbn. unfold count, mark, expired. cbn. rewrite !bool_decide_true by done. cbn.
    rewrite Z.sub_0_r, Ht'. reflexivity. }
  rewrite Hst in *. cbn [fst snd] in *.
  destruct (lost_exec nm ops Hops h (AProxies [h] 0 0 t) eq_refl eq_refl eq_refl) as [Hrs Hl].
  exists ([RNum 1; RNum 1; RNum 1; RNum 0; RNum 1] ++ (abs_proxy_exec nm ops (AProxies [h] 0 0 t)).1), s'. split; [exact Hrun|]. split.
  - apply Forall_app. split; [by repeat constructor|done].
  - exists h. rewrite (ho_hosts _ _ _ Hs), Hl. done.
Qed.

(** ** Witnesses *)
Definition demo_host_node : ll_node host_ptr := Node None None None.
Definition demo_names : names := Names (λ _, Some (AF_INET, 77)) (λ _, None) (λ _, Some 6) (λ _, 167772161).
Definition demo_names_list : list (bytes * bytes) := [(bytes_of "fe1", bytes_of "80"); (bytes_of "10.0.0.1", bytes_of "8080")].

Lemma proxies_refine_witness : ∃ s' s'' r,
  proxy_exec demo_host_node demo_names [OAdd (bytes_of "fe1") (bytes_of "80"); ODisable (SockAddr 77 20480); OTick 31] (no_proxies 1) = Ret ([RNum 1; RNum 1; RNum 0], s') ∧
  get_proxy s' = Ret (r, s'') ∧ num_enabled s' = 0 ∧ is_Some r.
Proof.
  destruct (proxies_refine demo_host_node demo_names [OAdd (bytes_of "fe1") (bytes_of "80"); ODisable (SockAddr 77 20480); OTick 31] 1) as (s'&s''&r&Hrun&Hh&_&_&Hget&_&Hc).
  - apply Nat.leb_le. reflexivity.
  - exists s', s'', r. split; [exact Hrun|]. split; [exact Hget|]. destruct Hc as [He Hs]; [cbn; repeat split; by repeat constructor|].
    assert (Hd : hosts s' = [FeHost (bytes_of "fe1") (bytes_of "80") (SockAddr 77 20480) false 0]) by exact Hh.
    unfold alive in He. rewrite Hd in He. split; [exact He|]. apply Hs. rewrite Hd. eexists. split; [left|]. right.
    assert (Hr : s' = match proxy_exec demo_host_node demo_names [OAdd (bytes_of "fe1") (bytes_of "80"); ODisable (SockAddr 77 20480); OTick 31] (no_proxies 1) with Ret (_, s) => s | _ => s' end) by (by rewrite Hrun).
    rewrite Hr. apply Z.ltb_lt. vm_compute. reflexivity.
Defined.

Lemma round_robin_witness : ∃ s', proxy_exec demo_host_node demo_names ((add_op <$> demo_names_list) ++ replicate 3 OGet) (no_proxies 1) =
  Ret ([RNum 1; RNum 1; RHost (Some 0%nat); RHost (Some 1%nat); RHost (Some 0%nat)], s').
Proof.
  apply (round_robin demo_host_node demo_names demo_names_list 3 1).
  - repeat constructor; by eexists.
  - done.
  - apply Nat.leb_le. reflexivity.
Defined.

Lemma disabled_twice_lost_witness : ∃ rs s', proxy_exec demo_host_node demo_names
    ([OAdd (bytes_of "fe1") (bytes_of "80"); ODisable (SockAddr 77 20480); ODisable (SockAddr 77 20480); OTick 100; OEnable] ++ [OGet; OTick 1000; OEnable; OGet]) (no_proxies 1) = Ret (rs, s') ∧
  Forall (λ r, ∀ j, r ≠ RHost (Some j)) rs ∧ ∃ h, hosts s' = [h] ∧ host_addr h = SockAddr 77 20480 ∧ available h = true.
Proof.
  apply (disabled_twice_lost demo_host_node demo_names (bytes_of "fe1") (bytes_of "80") (SockAddr 77 20480) 100 [OGet; OTick 1000; OEnable; OGet] 1).
  - vm_compute. reflexivity.
  - lia.
  - lia.
  - by repeat constructor.
Defined.

(** The list of the configuration: an entry without a port is passed over;
    one that cannot be resolved is counted all the same. *)
Example build_list : ∃ s, build_fe_list demo_host_node demo_names (bytes_of "fe1:80 bogus: 10.0.0.1:8080 :x") (no_proxies 1) = Ret (3, s) ∧
  map (λ h, (hostname h, port h)) (hosts s) = [(bytes_of "fe1", bytes_of "80"); (bytes_of "10.0.0.1", bytes_of "8080")].
Proof. eexists. split; vm_compute; reflexivity. Qed.
