(* ===== verification/Redirect.v ===== *)
(** * The TCP redirector (tcp_redirect/src/connections.c, tcp_redirect.c)

    One process accepts connections of clients, opens a connection to one of
    the proxies for each of them, and copies the bytes in both directions, with
    [select] and descriptors that do not block.  What is told to the monitor is
    left out, as are the flags of the descriptors: any read or write may be
    answered with [EAGAIN]. *)

From S2P Require Import Prelude LinkedList SockIO Proxies.

Open Scope Z_scope.

(** ** State *)

Definition READ_BLOCKSIZE : nat := Z.to_nat 8192.
Inductive conn_direction := INCOMING | OUTGOING.

Record conn_st := Conn {
  direction : conn_direction;
  other_fd : nat;
  forged_outgoing : bool;
  otherdir_open : bool;
  remote_host : sockaddr_in;
  data_len : Z;
  data : bytes;
}.
Definition set_forged b (c : conn_st) := Conn (direction c) (other_fd c) b (otherdir_open c) (remote_host c) (data_len c) (data c).
Definition set_otherdir b (c : conn_st) := Conn (direction c) (other_fd c) (forged_outgoing c) b (remote_host c) (data_len c) (data c).
Definition set_other f (c : conn_st) := Conn (direction c) f (forged_outgoing c) (otherdir_open c) (remote_host c) (data_len c) (data c).
Definition set_remote a (c : conn_st) := Conn (direction c) (other_fd c) (forged_outgoing c) (otherdir_open c) a (data_len c) (data c).
Definition set_len n (c : conn_st) := Conn (direction c) (other_fd c) (forged_outgoing c) (otherdir_open c) (remote_host c) n (data c).
Definition set_buffer d (c : conn_st) := Conn (direction c) (other_fd c) (forged_outgoing c) (otherdir_open c) (remote_host c) (data_len c) d.
(** An entry filled with zeroes. *)
Definition zero_conn : conn_st := Conn INCOMING 0 false false (SockAddr 0 0) 0 (replicate READ_BLOCKSIZE 0).

(** The answers of the system by the number of the call: whether [accept] and
    [socket], and [bind] and [connect], succeed, and what reads and writes of a
    descriptor with a size return. *)
Record kernel := Kernel {
  k_open : nat → option errno;
  k_status : nat → option errno;
  k_read : nat → nat → nat → bytes + errno;
  k_write : nat → nat → nat → nat + errno;
}.
Definition EINPROGRESS : Z := 115.
Definition EBADF : Z := 9.
Definition in_progress (e : errno) : bool := match e with EOTHER x => x =? EINPROGRESS | _ => false end.

(** [socks]: the sockets of connections that are open, with what has been read
    from each and what has been written to it.  [reserved]: the other
    descriptors in use. *)
Record redirect := Redirect {
  connections : list conn_st;
  read_fds : gset nat;
  write_fds : gset nat;
  exception_fds : gset nat;
  listen_fd : nat;
  pxs : proxies;
  socks : gmap nat (bytes * bytes);
  reserved : gset nat;
  calls : nat;
  lnet : net;
}.
Definition with_conns f (s : redirect) := Redirect (f (connections s)) (read_fds s) (write_fds s) (exception_fds s) (listen_fd s) (pxs s) (socks s) (reserved s) (calls s) (lnet s).
Definition with_reads f (s : redirect) := Redirect (connections s) (f (read_fds s)) (write_fds s) (exception_fds s) (listen_fd s) (pxs s) (socks s) (reserved s) (calls s) (lnet s).
Definition with_writes f (s : redirect) := Redirect (connections s) (read_fds s) (f (write_fds s)) (exception_fds s) (listen_fd s) (pxs s) (socks s) (reserved s) (calls s) (lnet s).
Definition with_pxs p (s : redirect) := Redirect (connections s) (read_fds s) (write_fds s) (exception_fds s) (listen_fd s) p (socks s) (reserved s) (calls s) (lnet s).
Definition with_socks f (s : redirect) := Redirect (connections s) (read_fds s) (write_fds s) (exception_fds s) (listen_fd s) (pxs s) (f (socks s)) (reserved s) (calls s) (lnet s).
Definition with_listen l r n (s : redirect) := Redirect (connections s) (read_fds s) (write_fds s) (exception_fds s) l (pxs s) (socks s) r (calls s) n.
Definition one_call (s : redirect) := Redirect (connections s) (read_fds s) (write_fds s) (exception_fds s) (listen_fd s) (pxs s) (socks s) (reserved s) (S (calls s)) (lnet s).

(** ** Operations *)

Section ops.
(** The size of the descriptor sets, the limit on descriptors, the system, the
    name services and the port of the configuration. *)
Context (FD_SETSIZE max_fds : nat) (k : kernel) (nm : names) (listen_port : option bytes).
Abbreviation cmd := (M redirect).

(** *** The system *)

(** The lowest descriptor that is free. *)
Definition lowest (s : redirect) : option nat :=
  fst <$> list_find (λ f, f ∉ dom (socks s) ∪ reserved s) (seq 0 max_fds).
(** [accept] and [socket]. *)
Definition new_fd : cmd (option nat) := λ s,
  match k_open k (calls s), lowest s with
  | None, Some f => Ret (Some f, one_call (with_socks <[f := ([], [])]> s))
  | _, _ => Ret (None, one_call s)
  end.
(** [bind] and [connect]. *)
Definition sys_status : cmd (option errno) := λ s, Ret (k_status k (calls s), one_call s).
Definition sys_close (fd : nat) : cmd () := λ s, Ret ((), one_call (with_socks (delete fd) s)).
Definition sys_read (fd count : nat) : cmd (bytes + errno) := λ s,
  match socks s !! fd with
  | Some (got, put) =>
      match k_read k (calls s) fd count with
      | inl bs => Ret (inl (take count bs), one_call (with_socks <[fd := (got ++ take count bs, put)]> s))
      | inr e => Ret (inr e, one_call s)
      end
  | None => Ret (inr (EOTHER EBADF), one_call s)
  end.
(** [write(fd, buf, count)]: [count] is unsigned, so that a negative number of
    bytes reaches far behind the buffer. *)
Definition sys_write (fd : nat) (buf : bytes) (count : Z) : cmd (nat + errno) := λ s,
  if (count <? 0) || (Z.of_nat (length buf) <? count) then Crash
  else match socks s !! fd with
  | Some (got, put) =>
      match k_write k (calls s) fd (Z.to_nat count) with
      | inl n => let m := Nat.min n (Z.to_nat count) in
                 Ret (inl m, one_call (with_socks <[fd := (got, put ++ take m buf)]> s))
      | inr e => Ret (inr e, one_call s)
      end
  | None => Ret (inr (EOTHER EBADF), one_call s)
  end.

(** *** Descriptor sets and connections *)

Definition in_range (fd : nat) : cmd () := c_assert (fd <? FD_SETSIZE)%nat.
Definition set_read (fd : nat) : cmd () := _ ← in_range fd; modify (with_reads (union {[fd]})).
Definition clr_read (fd : nat) : cmd () := _ ← in_range fd; modify (with_reads (λ X, X ∖ {[fd]})).
Definition set_write (fd : nat) : cmd () := _ ← in_range fd; modify (with_writes (union {[fd]})).
Definition clr_write (fd : nat) : cmd () := _ ← in_range fd; modify (with_writes (λ X, X ∖ {[fd]})).

Definition conn (fd : nat) : cmd conn_st := s ← get; deref (connections s !! fd).
Definition conn_update (fd : nat) (f : conn_st → conn_st) : cmd () :=
  _ ← conn fd; modify (with_conns (alter f fd)).

Definition on_proxies {A} (p : M proxies A) : cmd A := λ s, '(a, p') ← p (pxs s); Ret (a, with_pxs p' s).

(** *** connections.c *)

Definition initialize_incoming : cmd () := modify (with_conns (λ _, replicate FD_SETSIZE zero_conn)).

Definition cleanup_fd (fd : nat) : cmd () :=
  if decide (fd = 0%nat) then mret ()
  else
    ptr ← conn fd;
    _ ← (if otherdir_open ptr then conn_update (other_fd ptr) (set_otherdir false) else mret ());
    _ ← clr_read fd;
    _ ← clr_write fd;
    _ ← sys_close fd;
    conn_update fd (λ _, zero_conn).

(** The loop of [forge_proxy_connect]: the new descriptor, the proxy, and
    whether it is connected already. *)
Fixpoint forge_loop (fuel : nat) (stalk : nat) : cmd (option (nat * option nat * bool)) :=
  match fuel with
  | O => stuck
  | S fuel' =>
      _ ← conn_update stalk (λ c, Conn INCOMING (other_fd c) false true (remote_host c) 0 (data c));
      hoste ← on_proxies get_proxy;
      match hoste with
      | None => _ ← sys_close stalk; mret None
      | Some _ =>
          o ← new_fd;
          match o with
          | None => _ ← sys_close stalk; mret None
          | Some outgoing_fd =>
              res ← sys_status;
              match res with
              | Some _ => _ ← sys_close outgoing_fd; _ ← sys_close stalk; mret None
              | None =>
                  res ← sys_status;
                  match res with
                  | None => mret (Some (outgoing_fd, hoste, true))
                  | Some e =>
                      if in_progress e then mret (Some (outgoing_fd, hoste, false))
                      else
                        _ ← sys_close outgoing_fd;
                        h ← on_proxies (host hoste);
                        _ ← on_proxies (disable_proxy (host_addr h));
                        forge_loop fuel' stalk
                  end
              end
          end
      end
  end.

Definition forge_proxy_connect (stalk : nat) : cmd () :=
  s ← get;
  r ← forge_loop (S (length (hosts (pxs s)))) stalk;
  match r with
  | None => mret ()
  | Some (outgoing_fd, hoste, res_0) =>
      h ← on_proxies (host hoste);
      _ ← conn_update stalk (set_other outgoing_fd);
      _ ← conn_update outgoing_fd (set_other stalk);
      _ ← conn_update outgoing_fd (λ c, Conn OUTGOING (other_fd c) (forged_outgoing c) true (remote_host c) (data_len c) (data c));
      _ ← conn_update outgoing_fd (set_forged res_0);
      _ ← conn_update outgoing_fd (set_remote (host_addr h));
      _ ← conn_update stalk (set_remote (host_addr h));
      _ ← conn_update outgoing_fd (set_len 0);
      if (res_0 : bool) then _ ← set_read stalk; set_read outgoing_fd
      else set_write outgoing_fd
  end.

(** The error of the read that tests a connection. *)
Definition connect_failed (fd : nat) : cmd () :=
  ptr ← conn fd;
  _ ← on_proxies (disable_proxy (remote_host ptr));
  let fd2 := if otherdir_open ptr then Some (other_fd ptr) else None in
  _ ← cleanup_fd fd;
  match fd2 with Some fd2 => forge_proxy_connect fd2 | None => mret () end.

Definition connect_done (fd : nat) : cmd () :=
  _ ← conn_update fd (set_forged true);
  ptr ← conn fd;
  _ ← conn_update (other_fd ptr) (set_forged true);
  _ ← clr_write fd;
  _ ← set_read fd;
  ptr ← conn fd;
  set_read (other_fd ptr).

(** [cleanup_fd] of the other descriptor, if it is open, and of [fd]. *)
Definition cleanup_both (fd : nat) : cmd () :=
  ptr ← conn fd;
  _ ← (if otherdir_open ptr then cleanup_fd (other_fd ptr) else mret ());
  cleanup_fd fd.

Definition handle_unforged (fd : nat) : cmd () :=
  ptr ← conn fd;
  match direction ptr with
  | OUTGOING =>
      res ← sys_read fd 1;
      match res with
      | inr e =>
          if negb (in_progress e) && negb (is_eagain e) && negb (is_eintr e) then connect_failed fd
          else if is_eintr e then mret ()
          else connect_done fd
      | inl _ => cleanup_both fd
      end
  | INCOMING => mret ()
  end.

Definition conn_read (fd : nat) : cmd () :=
  ptr ← conn fd;
  if negb (forged_outgoing ptr) then handle_unforged fd
  else if negb (otherdir_open ptr) then cleanup_fd fd
  else
    ptr2 ← conn (other_fd ptr);
    if negb (data_len ptr2 =? 0) then set_write (other_fd ptr)
    else
      res ← sys_read fd READ_BLOCKSIZE;
      match res with
      | inr e =>
          _ ← conn_update (other_fd ptr) (set_len (-1));
          if in_progress e || is_eagain e || is_eintr e then mret () else cleanup_both fd
      | inl bs =>
          _ ← conn_update (other_fd ptr) (λ c, set_len (Z.of_nat (length bs)) (set_buffer (bs ++ drop (length bs) (data c)) c));
          if decide (bs = []) then cleanup_both fd
          else
            _ ← clr_read fd;
            set_write (other_fd ptr)
      end.

Definition conn_write (fd : nat) : cmd () :=
  ptr ← conn fd;
  if negb (forged_outgoing ptr) then handle_unforged fd
  else if data_len ptr =? 0 then mret ()
  else
    res ← sys_write fd (data ptr) (data_len ptr);
    match res with
    | inr e =>
        if in_progress e || is_eagain e || is_eintr e then mret () else cleanup_both fd
    | inl res =>
        if decide (res = 0%nat) then cleanup_fd fd
        else if negb (Z.of_nat res =? data_len ptr) then
          let rest := (Z.to_nat (data_len ptr) - res)%nat in
          conn_update fd (λ c, set_len (data_len c - Z.of_nat res) (set_buffer (take rest (drop res (data c)) ++ drop rest (data c)) c))
        else
          _ ← conn_update fd (set_len 0);
          if negb (otherdir_open ptr) then cleanup_fd fd
          else
            _ ← clr_write fd;
            set_read (other_fd ptr)
    end.

Definition conn_except (fd : nat) : cmd () := cleanup_both fd.

(** *** tcp_redirect.c *)

Definition refresh_listen_port : cmd () :=
  _ ← modify (λ s, with_listen (listen_fd s) (reserved s ∖ {[listen_fd s]}) (lnet s) s);
  match listen_port with
  | None => exit 1
  | Some lport =>
      r ← (λ s, '(r, n) ← slisten nm lport (lnet s); Ret (r, with_listen (listen_fd s) (reserved s) n s));
      if r =? -1 then exit 1
      else
        b ← (λ s, '(b, n) ← make_nonblocking r (lnet s); Ret (b, with_listen (listen_fd s) (reserved s) n s));
        if negb (b =? 1) then exit 1
        else modify (λ s, with_listen (Z.to_nat r) (reserved s ∪ {[Z.to_nat r]}) (lnet s) s)
  end.

(** The result is the set [*rfd]. *)
Definition handle_incoming (rfd efd : gset nat) : cmd (gset nat) :=
  s ← get;
  let l := listen_fd s in
  if decide (l ∈ efd) then _ ← refresh_listen_port; mret rfd
  else if decide (l ∉ rfd) then mret rfd
  else
    let rfd := rfd ∖ {[l]} in
    stalk ← new_fd;
    match stalk with
    | None => mret rfd
    | Some stalk => _ ← forge_proxy_connect stalk; mret rfd
    end.

(** The loop over the descriptors from [i] on. *)
Fixpoint scan (n i : nat) (rfd wfd : gset nat) : cmd () :=
  match n with
  | O => mret ()
  | S n' =>
      s ← get;
      _ ← (if decide (i ∈ rfd ∧ i ∈ read_fds s) then conn_read i else mret ());
      s ← get;
      _ ← (if decide (i ∈ wfd ∧ i ∈ write_fds s) then conn_write i else mret ());
      scan n' (S i) rfd wfd
  end.

(** What [select] returns, and the time. *)
Inductive selected := SelectFailed | Selected (rfd wfd efd : gset nat).
Definition main_turn (sel : selected) (t : Z) : cmd () :=
  _ ← on_proxies (modify (with_now t));
  _ ← match sel with
      | SelectFailed => mret ()
      | Selected R W E =>
          s ← get;
          rfd ← handle_incoming (R ∩ read_fds s) (E ∩ exception_fds s);
          scan FD_SETSIZE 0 rfd (W ∩ write_fds s)
      end;
  _ ← on_proxies try_enable;
  mret ().
Fixpoint main_turns (ts : list (selected * Z)) : cmd () :=
  match ts with
  | [] => mret ()
  | (sel, t) :: ts' => _ ← main_turn sel t; main_turns ts'
  end.
End ops.

(** The state after [init], with the listening descriptor and the proxies of
    the configuration. *)
Definition redirect_init (FD_SETSIZE listen : nat) (std : gset nat) (p : proxies) : redirect :=
  Redirect (replicate FD_SETSIZE zero_conn) {[listen]} ∅ ∅ listen p ∅ ({[listen]} ∪ std) 0 (Net [] [] ∅).

(** ** Lemmas: the connections as a map of views *)

(** A connection: its entry, whether it is in the sets to be read and written,
    and what has been read from it and written to it. *)
Record cview := CV { vconn : conn_st; vrd : bool; vwr : bool; vgot : bytes; vput : bytes }.
Definition v_conn f (v : cview) := CV (f (vconn v)) (vrd v) (vwr v) (vgot v) (vput v).
Definition v_rd b (v : cview) := CV (vconn v) b (vwr v) (vgot v) (vput v).
Definition v_wr b (v : cview) := CV (vconn v) (vrd v) b (vgot v) (vput v).
Definition v_got bs (v : cview) := CV (vconn v) (vrd v) (vwr v) (vgot v ++ bs) (vput v).
Definition v_put bs (v : cview) := CV (vconn v) (vrd v) (vwr v) (vgot v) (vput v ++ bs).

Abbreviation views := (nat → option cview) (only parsing).
Definition view (s : redirect) : views := λ a,
  match connections s !! a, socks s !! a with
  | Some c, Some (got, put) => Some (CV c (bool_decide (a ∈ read_fds s)) (bool_decide (a ∈ write_fds s)) got put)
  | _, _ => None
  end.
Definition at_fd (a : nat) (g : option cview → option cview) (V : views) : views := λ x, if decide (x = a) then g (V x) else V x.

Lemma at_eq a g V : at_fd a g V a = g (V a).
Proof. unfold at_fd. by rewrite decide_True. Qed.
Lemma at_some a v V : at_fd a (λ _, Some v) V a = Some v.
Proof. apply at_eq. Qed.
Lemma at_ne a b g V : b ≠ a → at_fd a g V b = V b.
Proof. intros. unfold at_fd. by rewrite decide_False. Qed.

(** Runs a step whose result is known. *)
Ltac run H := rewrite (bind_ret _ _ _ _ _ H); clear H.

Section lemmas.
Context (FD_SETSIZE max_fds : nat) (k : kernel) (nm : names) (listen_port : option bytes) (listen : nat).
Hypothesis Hmax : (max_fds <= FD_SETSIZE)%nat.
(** If [instant] is set, no call of [bind] and [connect] fails. *)
Context (instant : bool).
Hypothesis Hinstant : instant = true → ∀ n, k_status k n = None.

(** The parts of the state around the connections. *)
Record base_ok (s : redirect) : Prop := {
  b_len : length (connections s) = FD_SETSIZE;
  b_bufs : Forall (λ c, length (data c) = READ_BLOCKSIZE) (connections s);
  b_listen : (listen_fd s ∈ reserved s) ∧ (listen_fd s ∈ read_fds s) ∧ listen_fd s ∉ write_fds s;
  b_zero : 0%nat ∈ reserved s;
  b_apart : ∀ a, is_Some (socks s !! a) → (a < FD_SETSIZE)%nat ∧ a ∉ reserved s;
  b_sets : ∀ a, a ∈ read_fds s ∨ a ∈ write_fds s → a = listen_fd s ∨ is_Some (socks s !! a);
  b_exc : exception_fds s = ∅;
  b_px : ∃ p, holds (pxs s) p 0 ∧ aproxies_ok p;
  b_same : listen_fd s = listen;
}.
(** [s] is well formed and its connections are [V]. *)
Definition ok (V : views) (s : redirect) : Prop := base_ok s ∧ ∀ a, view s a = V a.

Lemma ok_view V s a v : ok V s → V a = Some v → connections s !! a = Some (vconn v) ∧ socks s !! a = Some (vgot v, vput v) ∧
  vrd v = bool_decide (a ∈ read_fds s) ∧ vwr v = bool_decide (a ∈ write_fds s).
Proof.
  intros [_ Hv] Ha. rewrite <-Hv in Ha. unfold view in Ha. destruct (connections s !! a) as [c|]; [|done]. destruct (socks s !! a) as [[g p]|]; [|done].
  by injection Ha as <-.
Qed.
Lemma ok_lt V s a v : ok V s → V a = Some v → (a < FD_SETSIZE)%nat ∧ a ≠ 0%nat ∧ a ≠ listen_fd s ∧ length (data (vconn v)) = READ_BLOCKSIZE.
Proof.
  intros Hok Ha. destruct (ok_view V s a v Hok Ha) as (Hc&Hk&_). destruct Hok as [Hb _]. destruct (b_apart s Hb a) as [Hl Hr]; [by eexists|].
  split; [done|]. split; [intros ->; by pose proof (b_zero s Hb)|]. split; [intros ->; by pose proof (b_listen s Hb) as (?&_)|].
  by apply (proj1 (Forall_lookup _ _) (b_bufs s Hb) a).
Qed.
Lemma ok_none V s a : ok V s → V a = None → socks s !! a = None.
Proof.
  intros [Hb Hv] Ha. destruct (socks s !! a) as [[g p]|] eqn:E; [|done]. destruct (b_apart s Hb a) as [Hl _]; [by eexists|].
  rewrite <-(b_len s Hb) in Hl. apply lookup_lt_is_Some in Hl as [c Hc]. rewrite <-Hv in Ha. unfold view in Ha. by rewrite Hc, E in Ha.
Qed.
Lemma ok_ext V V' s : (∀ a, V a = V' a) → ok V s → ok V' s.
Proof. intros He [Hb Hv]. split; [done|]. intros a. by rewrite Hv. Qed.

(** *** The primitives *)

Lemma conn_ok V s a v : ok V s → V a = Some v → conn a s = Ret (vconn v, s).
Proof. intros Hok Ha. destruct (ok_view V s a v Hok Ha) as (Hc&_). unfold conn. rewrite (bind_ret get _ s s s eq_refl). by rewrite Hc. Qed.

Lemma entry_update_ok V s a v f : ok V s → V a = Some v → length (data (f (vconn v))) = length (data (vconn v)) →
  ∃ s', conn_update a f s = Ret ((), s') ∧ ok (at_fd a (λ _, Some (v_conn f v)) V) s' ∧ pxs s' = pxs s.
Proof.
  intros Hok Ha Hf. unfold conn_update. rewrite (bind_ret _ _ _ _ _ (conn_ok V s a v Hok Ha)). eexists. split; [reflexivity|]. split; [|done].
  destruct (ok_view V s a v Hok Ha) as (Hc&Hk&Hr&Hw). destruct (ok_lt V s a v Hok Ha) as (Hl&_&_&Hd). destruct Hok as [Hb Hv]. split.
  - destruct Hb. split; cbn; try done; [by rewrite length_alter|]. rewrite (alter_lookup _ _ _ _ Hc). apply Forall_insert; [done|]. by rewrite Hf.
  - intros x. unfold view, at_fd. cbn. rewrite (alter_lookup _ _ _ _ Hc). destruct (decide (x = a)) as [->|Hx].
    + rewrite list_lookup_insert_eq by (by eapply lookup_lt_Some). rewrite Hk. unfold v_conn. by rewrite Hr, Hw.
    + rewrite list_lookup_insert_ne by done. apply Hv.
Qed.

(** An entry that is not in use. *)
Lemma update_closed V s a f : ok V s → V a = None → (a < FD_SETSIZE)%nat → (∀ c, length (data c) = READ_BLOCKSIZE → length (data (f c)) = READ_BLOCKSIZE) →
  ∃ s', conn_update a f s = Ret ((), s') ∧ ok V s' ∧ pxs s' = pxs s.
Proof.
  intros Hok Ha Hl Hf. pose proof (ok_none V s a Hok Ha) as Hk. destruct Hok as [Hb Hv]. rewrite <-(b_len s Hb) in Hl. apply lookup_lt_is_Some in Hl as [c Hc].
  assert (Hcu : conn a s = Ret (c, s)) by (unfold conn; rewrite (bind_ret get _ s s s eq_refl); by rewrite Hc).
  unfold conn_update. rewrite (bind_ret _ _ _ _ _ Hcu). eexists. split; [reflexivity|]. split; [|done]. split.
  - destruct Hb. split; cbn; try done; [by rewrite length_alter|]. rewrite (alter_lookup _ _ _ _ Hc). apply Forall_insert; [done|]. apply Hf.
    by apply (proj1 (Forall_lookup _ _) b_bufs0 a).
  - intros x. rewrite <-Hv. unfold view. cbn. rewrite (alter_lookup _ _ _ _ Hc). destruct (decide (x = a)) as [->|Hx].
    + rewrite list_lookup_insert_eq by (by eapply lookup_lt_Some). by rewrite Hk, Hc.
    + by rewrite list_lookup_insert_ne.
Qed.

Lemma in_range_ok a s : (a < FD_SETSIZE)%nat → in_range FD_SETSIZE a s = Ret ((), s).
Proof. intros Ha. unfold in_range, c_assert. by rewrite (proj2 (Nat.ltb_lt _ _)). Qed.

Ltac fd_set_ok a Hok Ha :=
  let Hb := fresh "Hb" in let Hv := fresh "Hv" in let Hc := fresh "Hc" in let Hk := fresh "Hk" in let Hr := fresh "Hr" in let Hw := fresh "Hw" in let Hl := fresh "Hl" in let x := fresh "x" in
  destruct (ok_view _ _ _ _ Hok Ha) as (Hc&Hk&Hr&Hw); destruct (ok_lt _ _ _ _ Hok Ha) as (Hl&?&?&?);
  rewrite (bind_ret _ _ _ _ _ (in_range_ok _ _ Hl)); eexists; split; [reflexivity|]; split; [|done]; destruct Hok as [Hb Hv]; split;
  [destruct Hb; split; cbn; try done; set_solver
  |intros x; unfold view, at_fd, v_rd, v_wr; cbn [connections socks read_fds write_fds with_reads with_writes]; destruct (decide (x = a)) as [->|Hx]; [rewrite Hc, Hk; f_equal; f_equal;
     first [done|apply bool_decide_true; set_solver|apply bool_decide_false; set_solver|rewrite Hr; apply bool_decide_ext; set_solver|rewrite Hw; apply bool_decide_ext; set_solver]
  |rewrite <-Hv; unfold view; destruct (connections _ !! x); [|done]; destruct (socks _ !! x) as [[??]|]; [|done]; f_equal; f_equal; apply bool_decide_ext; set_solver]].

Lemma set_read_ok V s a v : ok V s → V a = Some v → ∃ s', set_read FD_SETSIZE a s = Ret ((), s') ∧ ok (at_fd a (λ _, Some (v_rd true v)) V) s' ∧ pxs s' = pxs s.
Proof. intros Hok Ha. unfold set_read. fd_set_ok a Hok Ha. Qed.
Lemma clr_read_ok V s a v : ok V s → V a = Some v → ∃ s', clr_read FD_SETSIZE a s = Ret ((), s') ∧ ok (at_fd a (λ _, Some (v_rd false v)) V) s' ∧ pxs s' = pxs s.
Proof. intros Hok Ha. unfold clr_read. fd_set_ok a Hok Ha. Qed.
Lemma set_write_ok V s a v : ok V s → V a = Some v → ∃ s', set_write FD_SETSIZE a s = Ret ((), s') ∧ ok (at_fd a (λ _, Some (v_wr true v)) V) s' ∧ pxs s' = pxs s.
Proof. intros Hok Ha. unfold set_write. fd_set_ok a Hok Ha. Qed.
Lemma clr_write_ok V s a v : ok V s → V a = Some v → ∃ s', clr_write FD_SETSIZE a s = Ret ((), s') ∧ ok (at_fd a (λ _, Some (v_wr false v)) V) s' ∧ pxs s' = pxs s.
Proof. intros Hok Ha. unfold clr_write. fd_set_ok a Hok Ha. Qed.

Lemma ok_call V s : ok V s → ok V (one_call s).
Proof. intros [Hb Hv]. split; [by destruct Hb|done]. Qed.

Lemma close_ok V s a v : ok V s → V a = Some v → vrd v = false → vwr v = false →
  ∃ s', sys_close a s = Ret ((), s') ∧ ok (at_fd a (λ _, None) V) s' ∧ pxs s' = pxs s.
Proof.
  intros Hok Ha Hrd Hwr. destruct (ok_view V s a v Hok Ha) as (Hc&Hk&Hr&Hw). rewrite Hrd in Hr. rewrite Hwr in Hw. symmetry in Hr, Hw. apply bool_decide_eq_false in Hr, Hw.
  eexists. split; [reflexivity|]. split; [|done]. destruct Hok as [Hb Hv]. split.
  - destruct Hb as [? ? ? ? Hap Hse ? ? ?]. split; cbn; try done.
    + intros x [y Hx]. apply lookup_delete_Some in Hx as [_ Hx]. apply Hap. by eexists.
    + intros x Hx. destruct (Hse x Hx) as [?|Hs]; [by left|right]. rewrite lookup_delete_ne; [done|]. intros <-. by destruct Hx.
  - intros x. unfold view, at_fd. cbn [connections socks read_fds write_fds with_socks one_call]. destruct (decide (x = a)) as [->|Hx]; [rewrite lookup_delete_eq; by destruct (connections s !! a)|].
    rewrite lookup_delete_ne by done. apply Hv.
Qed.

(** A change to what has been read and written. *)
Lemma traffic_ok V s a v g p : ok V s → V a = Some v → let v' := CV (vconn v) (vrd v) (vwr v) g p in
  ok (at_fd a (λ _, Some v') V) (one_call (with_socks <[a := (g, p)]> s)).
Proof.
  intros Hok Ha v'. destruct (ok_view V s a v Hok Ha) as (Hc&Hk&Hr&Hw). destruct Hok as [Hb Hv]. split.
  - destruct Hb as [? ? ? ? Hap Hse ? ? ?]. split; cbn; try done.
    + intros x [y Hx]. apply Hap. destruct (decide (x = a)) as [->|]; [by eexists|]. rewrite lookup_insert_ne in Hx by done. by eexists.
    + intros x Hx. destruct (Hse x Hx) as [?|Hs]; [by left|right]. destruct (decide (x = a)) as [->|]; [by rewrite lookup_insert_eq|by rewrite lookup_insert_ne].
  - intros x. unfold view, at_fd. cbn [connections socks read_fds write_fds with_socks one_call]. destruct (decide (x = a)) as [->|Hx]; [rewrite lookup_insert_eq, Hc; unfold v'; by rewrite Hr, Hw|].
    rewrite lookup_insert_ne by done. apply Hv.
Qed.

Lemma sys_read_ok V s a v n : ok V s → V a = Some v → ∃ r s', sys_read k a n s = Ret (r, s') ∧ pxs s' = pxs s ∧
  match r with
  | inl bs => (length bs <= n)%nat ∧ ok (at_fd a (λ _, Some (v_got bs v)) V) s' ∧ ∃ bs0, k_read k (calls s) a n = inl bs0 ∧ bs = take n bs0
  | inr e => k_read k (calls s) a n = inr e ∧ ok V s'
  end.
Proof.
  intros Hok Ha. destruct (ok_view V s a v Hok Ha) as (Hc&Hk&_). unfold sys_read. rewrite Hk. destruct (k_read k (calls s) a n) as [bs|e] eqn:E.
  - eexists (inl _), _. split; [reflexivity|]. split; [done|]. split; [rewrite length_take; lia|]. split; [by apply (traffic_ok V s a v)|by exists bs].
  - eexists (inr e), _. split; [reflexivity|]. split; [done|]. split; [done|by apply ok_call].
Qed.

Lemma sys_write_ok V s a v n buf : ok V s → V a = Some v → 0 <= n <= Z.of_nat (length buf) → ∃ r s', sys_write k a buf n s = Ret (r, s') ∧ pxs s' = pxs s ∧
  match r with
  | inl m => (Z.of_nat m <= n) ∧ ok (at_fd a (λ _, Some (v_put (take m buf) v)) V) s' ∧ ∃ m0, k_write k (calls s) a (Z.to_nat n) = inl m0 ∧ m = Nat.min m0 (Z.to_nat n)
  | inr e => k_write k (calls s) a (Z.to_nat n) = inr e ∧ ok V s'
  end.
Proof.
  intros Hok Ha Hn. destruct (ok_view V s a v Hok Ha) as (Hc&Hk&_). unfold sys_write.
  rewrite (proj2 (Z.ltb_ge n 0)), (proj2 (Z.ltb_ge (Z.of_nat (length buf)) n)) by lia. cbn [orb]. rewrite Hk. destruct (k_write k (calls s) a (Z.to_nat n)) as [m|e] eqn:E.
  - eexists (inl _), _. split; [reflexivity|]. split; [done|]. split; [lia|]. split; [by apply (traffic_ok V s a v)|by exists m].
  - eexists (inr e), _. split; [reflexivity|]. split; [done|]. split; [done|by apply ok_call].
Qed.

(** A descriptor that [accept] or [socket] returns. *)
Lemma new_fd_ok V s : ok V s → ∃ r s', new_fd max_fds k s = Ret (r, s') ∧ pxs s' = pxs s ∧
  match r with
  | Some f => V f = None ∧ ∃ c, ok (at_fd f (λ _, Some (CV c false false [] [])) V) s'
  | None => ok V s'
  end.
Proof.
  intros Hok. unfold new_fd. destruct (k_open k (calls s)); [by eexists None, _; repeat (split; [done|]); apply ok_call|].
  unfold lowest. destruct (list_find _ _) as [[f y]|] eqn:E; cbn [fmap option_fmap option_map fst]; [|by eexists None, _; repeat (split; [done|]); apply ok_call].
  apply list_find_Some in E as (Hf&Hy&_). apply lookup_seq in Hf as [-> Hf]. cbn in Hy. rename f into y.
  eexists (Some y), _. split; [reflexivity|]. split; [done|]. destruct Hok as [Hb Hv]. assert (Hk : socks s !! y = None) by (apply not_elem_of_dom; set_solver).
  assert (Hy' : y ∉ reserved s) by set_solver. assert (Hl : (y < length (connections s))%nat) by (rewrite (b_len s Hb); lia).
  apply lookup_lt_is_Some in Hl as [c Hc]. split; [rewrite <-Hv; unfold view; by rewrite Hc, Hk|]. exists c.
  destruct Hb as [Hlen Hbu Hli Hz Hap Hse Hex Hpx Hsm]. assert (Hns : ¬ (y ∈ read_fds s ∨ y ∈ write_fds s)).
  { intros Hx. destruct (Hse y Hx) as [->|[? Hx']]; [by apply Hy'; apply Hli|congruence]. }
  split.
  - split; cbn; try done.
    + intros x [z Hx]. destruct (decide (x = y)) as [->|]; [split; [rewrite <-Hlen; by eapply lookup_lt_Some|done]|]. rewrite lookup_insert_ne in Hx by done. apply Hap. by eexists.
    + intros x Hx. destruct (Hse x Hx) as [?|Hs]; [by left|right]. destruct (decide (x = y)) as [->|]; [by rewrite lookup_insert_eq|by rewrite lookup_insert_ne].
  - intros x. unfold view, at_fd. cbn [connections socks read_fds write_fds with_socks one_call]. destruct (decide (x = y)) as [->|Hx]; [rewrite lookup_insert_eq, Hc; f_equal; f_equal; apply bool_decide_false; tauto|].
    rewrite lookup_insert_ne by done. apply Hv.
Qed.

Lemma status_ok V s : ok V s → ∃ s', sys_status k s = Ret (k_status k (calls s), s') ∧ ok V s' ∧ pxs s' = pxs s.
Proof. intros Hok. eexists. split; [reflexivity|]. split; [by apply ok_call|done]. Qed.

(** A call of the proxies. *)
Lemma on_proxies_ok {A} (m : M proxies A) a q V s : ok V s → m (pxs s) = Ret (a, q) → (∃ p, holds q p 0 ∧ aproxies_ok p) →
  ∃ s', on_proxies m s = Ret (a, s') ∧ ok V s' ∧ pxs s' = q.
Proof.
  intros [Hb Hv] Hm Hq. unfold on_proxies, mbind, outcome_mbind. rewrite Hm. eexists. split; [reflexivity|]. split; [|done]. split; [by destruct Hb|done].
Qed.

(** *** How connections belong together *)

(** What has been read from the first has been written to the second, or waits
    in its buffer; while the buffer is full the first is not read. *)
Definition pending (v : cview) : bytes := take (Z.to_nat (data_len (vconn v))) (data (vconn v)).
Record flow (v w : cview) : Prop := {
  f_bytes : vgot v = vput w ++ pending w;
  f_len : 0 <= data_len (vconn w) <= Z.of_nat READ_BLOCKSIZE;
  f_rd : vrd v = (data_len (vconn w) =? 0);
  f_wr : vwr w = negb (data_len (vconn w) =? 0);
}.

(** The connection of a client and the connection to the proxy: the latter is
    being made; both are open; or it was made at once, and the client's side
    was never marked as open. *)
Inductive phase (i o : cview) : Prop :=
| Connecting : instant = false → forged_outgoing (vconn i) = false → forged_outgoing (vconn o) = false → data_len (vconn i) = 0 → data_len (vconn o) = 0 →
    vrd i = false → vwr i = false → vrd o = false → vwr o = true → vgot i = [] → vput i = [] → vgot o = [] → vput o = [] → phase i o
| Relaying : instant = false → forged_outgoing (vconn i) = true → forged_outgoing (vconn o) = true → flow i o → flow o i → phase i o
| Deaf : forged_outgoing (vconn i) = false → forged_outgoing (vconn o) = true → flow i o → flow o i → vgot i = [] → vput i = [] → data_len (vconn o) = 0 → phase i o.

Definition mates (a : nat) (v : cview) (b : nat) (w : cview) : Prop :=
  b ≠ a ∧ other_fd (vconn v) = b ∧ other_fd (vconn w) = a ∧ otherdir_open (vconn v) = true ∧ otherdir_open (vconn w) = true.
Definition pair (a : nat) (v : cview) (b : nat) (w : cview) : Prop := mates a v b w ∧
  (direction (vconn v) = INCOMING ∧ direction (vconn w) = OUTGOING ∧ phase v w ∨
   direction (vconn v) = OUTGOING ∧ direction (vconn w) = INCOMING ∧ phase w v).
(** The other side has gone while there were bytes to write. *)
Record orphan (v : cview) : Prop := {
  o_open : otherdir_open (vconn v) = false;
  o_forged : forged_outgoing (vconn v) = true;
  o_rd : vrd v = false;
  o_len : 0 <= data_len (vconn v) <= Z.of_nat READ_BLOCKSIZE;
  o_wr : vwr v = negb (data_len (vconn v) =? 0);
  o_late : instant = false;
}.
Definition link (V : views) (a : nat) (v : cview) : Prop := orphan v ∨ ∃ b w, V b = Some w ∧ pair a v b w.
Definition links (V : views) : Prop := ∀ a v, V a = Some v → link V a v.

Lemma mates_sym a v b w : mates a v b w → mates b w a v.
Proof. by intros (?&?&?&?&?). Qed.
Lemma pair_sym a v b w : pair a v b w → pair b w a v.
Proof. intros [Hm [(?&?&?)|(?&?&?)]]; split; try (by apply mates_sym); [by right|by left]. Qed.

(** Changes at two connections leave the others linked. *)
Lemma links_update V V' a b : links V →
  (∀ x v w, x ≠ a → x ≠ b → V x = Some v → (V a = Some w → other_fd (vconn w) = b ∨ otherdir_open (vconn w) = false) ∧ (V b = Some w → other_fd (vconn w) = a ∨ otherdir_open (vconn w) = false)) →
  (∀ x, x ≠ a → x ≠ b → V' x = V x) → (∀ v, V' a = Some v → link V' a v) → (∀ v, V' b = Some v → link V' b v) → links V'.
Proof.
  intros HV Hcl Hsame Ha Hb x v Hx. destruct (decide (x = a)) as [->|Hxa]; [by apply Ha|]. destruct (decide (x = b)) as [->|Hxb]; [by apply Hb|].
  rewrite (Hsame x Hxa Hxb) in Hx. destruct (HV x v Hx) as [Ho|(y&w&Hy&Hp)]; [by left|right]. exists y, w. split; [|done].
  destruct Hp as [(Hne&Hvo&Hwo&Hvd&Hwd) _]. destruct (Hcl x v w Hxa Hxb Hx) as [Ha' Hb']. rewrite Hsame; [done| |]; intros ->.
  - destruct (Ha' Hy); congruence.
  - destruct (Hb' Hy); congruence.
Qed.

(** Two connections that belong together. *)
Lemma links_mates V V' a b v w : links V → V a = Some v → V b = Some w → mates a v b w →
  (∀ x, x ≠ a → x ≠ b → V' x = V x) → (∀ v, V' a = Some v → link V' a v) → (∀ v, V' b = Some v → link V' b v) → links V'.
Proof.
  intros HV Ha Hb (Hne&Hvo&Hwo&Hvd&Hwd). apply links_update; [done|]. intros x v' w' _ _ _. split; intros Hx; left; congruence.
Qed.
Lemma links_orphan V V' a v : links V → V a = Some v → orphan v →
  (∀ x, x ≠ a → V' x = V x) → (∀ v, V' a = Some v → link V' a v) → links V'.
Proof.
  intros HV Ha Ho Hs Hl. apply (links_update V V' a a); try done; [|intros; by apply Hs]. intros x v' w' _ _ _. split; intros Hx; right; rewrite Ha in Hx; injection Hx as <-; apply Ho.
Qed.

(** A pair that stays a pair. *)
Lemma links_pair V a b v w v' w' : links V → V a = Some v → V b = Some w → mates a v b w → pair a v' b w' →
  ∀ V', (∀ x, x ≠ a → x ≠ b → V' x = V x) → V' a = Some v' → V' b = Some w' → links V'.
Proof.
  intros HV Ha Hb Hm Hp V' Hs Ha' Hb'. apply (links_mates V V' a b v w); try done.
  - intros v0 Hv0. rewrite Ha' in Hv0. injection Hv0 as <-. right. by exists b, w'.
  - intros w0 Hw0. rewrite Hb' in Hw0. injection Hw0 as <-. right. exists a, v'. split; [done|]. by apply pair_sym.
Qed.

Definition good (s : redirect) : Prop := ∃ V, ok V s ∧ links V.

(** *** [cleanup_fd] *)

Lemma cleanup_ok V s a v : ok V s → V a = Some v →
  (otherdir_open (vconn v) = true → ∃ w, other_fd (vconn v) ≠ a ∧ V (other_fd (vconn v)) = Some w) →
  ∃ s' V', cleanup_fd FD_SETSIZE a s = Ret ((), s') ∧ ok V' s' ∧ pxs s' = pxs s ∧ V' a = None ∧
    ∀ x, x ≠ a → V' x = if decide (otherdir_open (vconn v) = true ∧ x = other_fd (vconn v)) then v_conn (set_otherdir false) <$> V x else V x.
Proof.
  intros Hok Ha Ho. unfold cleanup_fd. destruct (ok_lt V s a v Hok Ha) as (Hl&Hz&_&Hd). rewrite decide_False by done.
  rewrite (bind_ret _ _ _ _ _ (conn_ok V s a v Hok Ha)).
  assert (Hs1 : ∃ s1 V1, (if otherdir_open (vconn v) then conn_update (other_fd (vconn v)) (set_otherdir false) else mret ()) s = Ret ((), s1) ∧ ok V1 s1 ∧ pxs s1 = pxs s ∧ V1 a = Some v ∧
    ∀ x, x ≠ a → V1 x = if decide (otherdir_open (vconn v) = true ∧ x = other_fd (vconn v)) then v_conn (set_otherdir false) <$> V x else V x).
  { destruct (otherdir_open (vconn v)) eqn:Eo.
    - destruct (Ho eq_refl) as (w&Hne&Hw). destruct (entry_update_ok V s (other_fd (vconn v)) w (set_otherdir false) Hok Hw eq_refl) as (s1&Hrun&Hok1&Hp).
      exists s1, (at_fd (other_fd (vconn v)) (λ _, Some (v_conn (set_otherdir false) w)) V). split; [done|]. split; [done|]. split; [done|]. split; [by rewrite at_ne|].
      intros x Hx. unfold at_fd. destruct (decide (x = other_fd (vconn v))) as [->|]; [by rewrite decide_True, Hw|by rewrite decide_False by tauto].
    - exists s, V. split; [done|]. split; [done|]. split; [done|]. split; [done|]. intros x Hx. by rewrite decide_False by (by intros [? _]). }
  destruct Hs1 as (s1&V1&Hrun1&Hok1&Hp1&Ha1&Hx1). rewrite (bind_ret _ _ _ _ _ Hrun1).
  destruct (clr_read_ok V1 s1 a v Hok1 Ha1) as (s2&Hrun2&Hok2&Hp2). rewrite (bind_ret _ _ _ _ _ Hrun2).
  destruct (clr_write_ok _ s2 a (v_rd false v) Hok2) as (s3&Hrun3&Hok3&Hp3); [by rewrite at_eq|]. rewrite (bind_ret _ _ _ _ _ Hrun3).
  destruct (close_ok _ s3 a (v_wr false (v_rd false v)) Hok3) as (s4&Hrun4&Hok4&Hp4); [by rewrite at_eq|done|done|]. rewrite (bind_ret _ _ _ _ _ Hrun4).
  destruct (update_closed _ s4 a (λ _, zero_conn) Hok4) as (s5&Hrun5&Hok5&Hp5); [by rewrite at_eq|done|intros; apply length_replicate|].
  exists s5. eexists. split; [exact Hrun5|]. split; [exact Hok5|]. split; [congruence|]. split; [by rewrite at_eq|]. intros x Hx. rewrite !at_ne by done. by apply Hx1.
Qed.

Lemma cleanup_both_ok V s a v : ok V s → V a = Some v →
  (otherdir_open (vconn v) = true → ∃ w, V (other_fd (vconn v)) = Some w ∧ mates a v (other_fd (vconn v)) w) →
  ∃ s' V', cleanup_both FD_SETSIZE a s = Ret ((), s') ∧ ok V' s' ∧ pxs s' = pxs s ∧
    ∀ x, V' x = if decide (x = a ∨ otherdir_open (vconn v) = true ∧ x = other_fd (vconn v)) then None else V x.
Proof.
  intros Hok Ha Ho. unfold cleanup_both. rewrite (bind_ret _ _ _ _ _ (conn_ok V s a v Hok Ha)). destruct (otherdir_open (vconn v)) eqn:Eo.
  - destruct (Ho eq_refl) as (w&Hw&Hne&Hvo&Hwo&_&Hwd). set (b := other_fd (vconn v)) in *.
    destruct (cleanup_ok V s b w Hok Hw) as (s1&V1&Hrun1&Hok1&Hp1&Hb1&Hx1); [intros _; exists v; rewrite Hwo; split; [congruence|done]|]. rewrite (bind_ret _ _ _ _ _ Hrun1).
    assert (Ha1 : V1 a = Some (v_conn (set_otherdir false) v)) by (rewrite Hx1 by done; by rewrite decide_True, Ha).
    destruct (cleanup_ok V1 s1 a _ Hok1 Ha1) as (s2&V2&Hrun2&Hok2&Hp2&Ha2&Hx2); [done|]. exists s2, V2. split; [done|]. split; [done|]. split; [congruence|].
    intros x. destruct (decide (x = a)) as [->|Hxa]; [rewrite Ha2, decide_True by tauto; done|]. rewrite Hx2 by done. rewrite decide_False by (by intros [? _]).
    destruct (decide (x = b)) as [->|Hxb]; [rewrite Hb1, decide_True by tauto; done|]. rewrite Hx1 by done. rewrite decide_False by (intros [_ ?]; congruence).
    by rewrite decide_False by tauto.
  - rewrite mret_bind. destruct (cleanup_ok V s a v Hok Ha) as (s2&V2&Hrun2&Hok2&Hp2&Ha2&Hx2); [congruence|]. exists s2, V2. split; [done|]. split; [done|]. split; [done|].
    intros x. destruct (decide (x = a)) as [->|Hxa]; [rewrite Ha2, decide_True by tauto; done|]. rewrite Hx2 by done.
    rewrite decide_False by (intros [? _]; congruence). by rewrite decide_False by (intros [?|[? _]]; congruence).
Qed.

Lemma links_gone V V' a v : links V → V a = Some v →
  (∀ x, V' x = if decide (x = a ∨ otherdir_open (vconn v) = true ∧ x = other_fd (vconn v)) then None else V x) → links V'.
Proof.
  intros HV Ha Hx. destruct (HV a v Ha) as [Ho|(b&w&Hb&Hm&_)].
  - apply (links_orphan V V' a v HV Ha Ho).
    + intros x Hne. rewrite Hx, decide_False; [done|]. rewrite (o_open v Ho). by intros [?|[? _]].
    + intros v'. rewrite Hx, decide_True by tauto. done.
  - pose proof Hm as (Hne&Hvo&Hwo&Hvd&Hwd). apply (links_mates V V' a b v w HV Ha Hb Hm).
    + intros x Hxa Hxb. rewrite Hx, decide_False; [done|]. intros [?|[_ ?]]; congruence.
    + intros v'. rewrite Hx, decide_True by tauto. done.
    + intros v'. rewrite Hx, decide_True by (right; split; congruence). done.
Qed.

(** [cleanup_both] when what is known of [a] and its mate has not changed. *)
Lemma both_good V0 V s a v v0 : links V0 → V0 a = Some v0 → ok V s → V a = Some v →
  otherdir_open (vconn v) = otherdir_open (vconn v0) → other_fd (vconn v) = other_fd (vconn v0) →
  (∀ x, x ≠ a → (otherdir_open (vconn v0) = true → x ≠ other_fd (vconn v0)) → V x = V0 x) →
  (∀ w0, otherdir_open (vconn v0) = true → V0 (other_fd (vconn v0)) = Some w0 →
     ∃ w, V (other_fd (vconn v0)) = Some w ∧ other_fd (vconn w) = other_fd (vconn w0) ∧ otherdir_open (vconn w) = otherdir_open (vconn w0)) →
  ∃ s', cleanup_both FD_SETSIZE a s = Ret ((), s') ∧ good s' ∧ pxs s' = pxs s.
Proof.
  intros HV Ha0 Hok Ha Hd Ho Hx Hw. destruct (cleanup_both_ok V s a v Hok Ha) as (s'&V'&Hrun&Hok'&Hp&Hx').
  - intros Hd1. rewrite Hd in Hd1. rewrite Ho. destruct (HV a v0 Ha0) as [Hor|(b&w0&Hb&(Hne&Hvo&Hwo&Hvd&Hwd)&_)]; [by rewrite (o_open v0 Hor) in Hd1|].
    rewrite Hvo in *. destruct (Hw w0 Hd1 Hb) as (w&Hwb&Hwo'&Hwd'). exists w. split; [done|]. repeat split; congruence.
  - exists s'. split; [done|]. split; [|done]. exists V'. split; [done|]. apply (links_gone V0 V' a v0 HV Ha0). intros x. rewrite Hx', Hd, Ho.
    destruct (decide _) as [|Hn]; [done|]. apply Hx; [tauto|]. intros Hd0 ->. by apply Hn; right.
Qed.

(** *** Making a connection to a proxy *)

(** The proxies that [get_proxy] may still return. *)
Definition usable (q : proxies) : Z := count (λ h, available h || expired (now q) h) (hosts q).

Lemma usable_enable t l : count (λ h, available h || expired t h) (reenable t l) = count (λ h, available h || expired t h) l.
Proof.
  unfold reenable. induction l as [|h l IH]; [done|]. cbn [map]. rewrite !count_cons, IH. f_equal. unfold mark, expired. destruct (available h) eqn:E; cbn; [by rewrite E|].
  destruct (TR_REENABLE_SECS <? t - lastcheck h) eqn:E2; cbn; [done|]. by rewrite E, E2.
Qed.

Lemma get_proxy_ok q p : holds q p 0 → aproxies_ok p → ∃ r q' p', get_proxy q = Ret (r, q') ∧ holds q' p' 0 ∧ aproxies_ok p' ∧
  usable q' = usable q ∧ length (hosts q') = length (hosts q) ∧ match r with Some j => ∃ h, hosts q' !! j = Some h ∧ available h = true | None => True end.
Proof.
  intros Hq Hp. destruct (choose_holds q p 0 Hq Hp) as (q'&Hrun&Hq'). exists (abs_choose p).1, q', (abs_choose p).2. split; [done|]. split; [done|].
  split; [by apply abs_choose_ok|]. unfold usable. rewrite (ho_hosts _ _ _ Hq), (ho_hosts _ _ _ Hq'), (ho_now _ _ _ Hq), (ho_now _ _ _ Hq'). split; [|split].
  - unfold abs_choose. destruct (aenabled p =? 0) eqn:E; [|by rewrite E]. destruct (aenabled (abs_enable p) =? 0); cbn; apply usable_enable.
  - unfold abs_choose. destruct (aenabled p =? 0) eqn:E; [|by rewrite E]. destruct (aenabled (abs_enable p) =? 0); cbn; apply length_reenable.
  - destruct (abs_choose p) as [[j|] p'] eqn:E; [|done]. by apply (chosen_available p).
Qed.

Lemma disable_usable q p h : holds q p 0 → aproxies_ok p → ∃ r q' p', disable_proxy (host_addr h) q = Ret (r, q') ∧ holds q' p' 0 ∧ aproxies_ok p' ∧
  length (hosts q') = length (hosts q) ∧ (h ∈ hosts q → available h = true → usable q' < usable q).
Proof.
  intros Hq Hp. destruct (disable_holds (host_addr h) q p 0 Hq) as (q'&Hrun&Hq'). eexists _, q', _. split; [exact Hrun|]. split; [exact Hq'|]. split; [by apply abs_disable_ok|].
  unfold usable. rewrite (ho_hosts _ _ _ Hq), (ho_hosts _ _ _ Hq'), (ho_now _ _ _ Hq), (ho_now _ _ _ Hq'). cbn. split; [apply length_disable|].
  intros Hin Ha. clear -Hin Ha. generalize (anow p). intros t. unfold disable_hosts. set (f := mark _ _). set (c := λ h, available h || expired t h).
  assert (Hle : ∀ x, (if c (f x) then 1 else 0) <= (if c x then 1 else 0)).
  { intros y. unfold f, mark. destruct (bool_decide _); [|lia]. unfold c, expired. cbn. rewrite Z.sub_diag. change (TR_REENABLE_SECS <? 0) with false.
    destruct (available y); cbn; [lia|]. destruct (_ <? _); cbn; lia. }
  assert (Hz : ∀ l, count c (map f l) <= count c l).
  { clear -Hle. induction l as [|y l IH]; [done|]. cbn [map]. rewrite !count_cons. specialize (Hle y). lia. }
  assert (Hh : c (f h) = false ∧ c h = true).
  { unfold c, f, mark. rewrite bool_decide_true by done. unfold expired. cbn. rewrite Z.sub_diag, Ha. done. }
  clearbody f c. induction (ahosts p) as [|x l IH]; [by apply elem_of_nil in Hin|]. cbn [map]. rewrite !count_cons. specialize (Hle x). specialize (Hz l).
  apply elem_of_cons in Hin as [<-|Hin]; [destruct Hh as [-> ->]; lia|]. specialize (IH Hin). lia.
Qed.

Definition fresh_view (c : conn_st) : cview := CV c false false [] [].
(** What [forge_proxy_connect] sets for the client's side. *)
Definition waiting (c : conn_st) : conn_st := Conn INCOMING (other_fd c) false true (remote_host c) 0 (data c).

Definition forge_result (V : views) (stalk : nat) (r : option (nat * option nat * bool)) (s' : redirect) : Prop := ∃ V', ok V' s' ∧
  match r with
  | None => V' stalk = None ∧ ∀ x, x ≠ stalk → V' x = V x
  | Some (o, h, res) => ∃ c1 c2 j hh, (res = false → instant = false) ∧ o ≠ stalk ∧ V o = None ∧ V' stalk = Some (fresh_view (waiting c1)) ∧ V' o = Some (fresh_view c2) ∧
      (∀ x, x ≠ stalk → x ≠ o → V' x = V x) ∧ h = Some j ∧ hosts (pxs s') !! j = Some hh
  end.

Lemma forge_result_ext V V' stalk r s' : (∀ x, x ≠ stalk → V x = V' x) → forge_result V stalk r s' → forge_result V' stalk r s'.
Proof.
  intros Hx (W&Hok&Hr). exists W. split; [done|]. destruct r as [[[o h] b]|].
  - destruct Hr as (c1&c2&j&hh&Hi&Hos&Ho&?&?&Hrest&?). exists c1, c2, j, hh. split; [done|]. split; [done|]. split; [by rewrite <-Hx|]. split; [done|]. split; [done|].
    split; [|done]. intros x Hxs Hxo. by rewrite Hrest, Hx.
  - destruct Hr as [? Hrest]. split; [done|]. intros x Hxs. by rewrite Hrest, Hx.
Qed.

Lemma with_px V s : ok V s → ∃ p, holds (pxs s) p 0 ∧ aproxies_ok p.
Proof. intros [Hb _]. apply Hb. Qed.

Lemma forge_loop_ok fuel : ∀ s V stalk c, ok V s → V stalk = Some (fresh_view c) → usable (pxs s) < Z.of_nat fuel →
  ∃ r s', forge_loop max_fds k fuel stalk s = Ret (r, s') ∧ forge_result V stalk r s'.
Proof.
  induction fuel as [|fuel IH]; intros s V stalk c Hok Hs Hu.
  { unfold usable, count in Hu. lia. }
  cbn [forge_loop]. destruct (entry_update_ok V s stalk _ (λ c, Conn INCOMING (other_fd c) false true (remote_host c) 0 (data c)) Hok Hs eq_refl) as (s1&Hrun1&Hok1&Hp1).
  rewrite (bind_ret _ _ _ _ _ Hrun1). clear Hrun1. set (V1 := at_fd stalk _ V) in Hok1.
  assert (Hs1 : V1 stalk = Some (fresh_view (waiting c))) by (unfold V1; by rewrite at_eq).
  assert (Hx1 : ∀ x, x ≠ stalk → V1 x = V x) by (intros x Hx; unfold V1; by rewrite at_ne).
  destruct (with_px V1 s1 Hok1) as (p&Hh&Hpo). destruct (get_proxy_ok _ p Hh Hpo) as (r&q&p'&Hget&Hh'&Hpo'&Hus&_&Hr).
  destruct (on_proxies_ok get_proxy r q V1 s1 Hok1 Hget ltac:(by exists p')) as (s2&Hrun2&Hok2&Hp2). rewrite (bind_ret _ _ _ _ _ Hrun2). clear Hrun2.
  assert (Hclose : ∀ s, ok V1 s → ∃ r s', (_ ← sys_close stalk; mret None : M redirect (option (nat * option nat * bool))) s = Ret (r, s') ∧ forge_result V stalk r s').
  { intros t Ht. destruct (close_ok V1 t stalk _ Ht Hs1 eq_refl eq_refl) as (t'&Hrun&Ht'&_). exists None, t'. rewrite (bind_ret _ _ _ _ _ Hrun). split; [done|].
    eexists. split; [exact Ht'|]. split; [by rewrite at_eq|]. intros x Hx. rewrite at_ne by done. by apply Hx1. }
  destruct r as [j|]; [|by apply Hclose]. destruct Hr as (hh&Hj&Ha).
  destruct (new_fd_ok V1 s2 Hok2) as (o&s3&Hrun3&Hp3&Ho). rewrite (bind_ret _ _ _ _ _ Hrun3). clear Hrun3. destruct o as [o|]; [|by apply Hclose].
  destruct Ho as (Hnone&c2&Hok3). assert (Hos : o ≠ stalk) by congruence. set (V3 := at_fd o _ V1) in Hok3.
  assert (Ho3 : V3 o = Some (fresh_view c2)) by (unfold V3; by rewrite at_eq).
  assert (Hcl : ∀ t, ok V3 t → ∃ t', sys_close o t = Ret ((), t') ∧ ok V1 t' ∧ pxs t' = pxs t).
  { intros t Ht. destruct (close_ok V3 t o _ Ht Ho3 eq_refl eq_refl) as (t'&Hrun&Ht'&?). exists t'. split; [done|]. split; [|done].
    eapply ok_ext; [|exact Ht']. intros x. unfold V3, at_fd. by destruct (decide (x = o)) as [->|]. }
  destruct (status_ok V3 s3 Hok3) as (s4&Hrun4&Hok4&Hp4). rewrite (bind_ret _ _ _ _ _ Hrun4). clear Hrun4. destruct (k_status k (calls s3)) as [e|].
  { destruct (Hcl s4 Hok4) as (s5&Hrun5&Hok5&_). rewrite (bind_ret _ _ _ _ _ Hrun5). by apply Hclose. }
  destruct (status_ok V3 s4 Hok4) as (s5&Hrun5&Hok5&Hp5). rewrite (bind_ret _ _ _ _ _ Hrun5). clear Hrun5.
  assert (Hq : pxs s5 = q) by congruence.
  assert (Hi : ∀ e, k_status k (calls s4) = Some e → instant = false).
  { intros e He. destruct instant eqn:Ei; [|done]. by rewrite (Hinstant eq_refl) in He. }
  assert (Hdone : ∀ b : bool, (b = false → instant = false) → ∃ r s', mret (M := M redirect) (Some (o, Some j, b)) s5 = Ret (r, s') ∧ forge_result V stalk r s').
  { intros b Hb. eexists _, s5. split; [reflexivity|]. exists V3. split; [done|]. exists c, c2, j, hh. split; [done|]. split; [done|]. split; [by rewrite <-Hx1|].
    split; [unfold V3; rewrite at_ne by done; done|]. split; [done|]. split; [|by rewrite Hq]. intros x Hxs Hxo. unfold V3. rewrite at_ne by done. by apply Hx1. }
  destruct (k_status k (calls s4)) as [e|]; [|by apply Hdone]. specialize (Hi e eq_refl). destruct (in_progress e); [by apply Hdone|].
  destruct (Hcl s5 Hok5) as (s6&Hrun6&Hok6&Hp6). rewrite (bind_ret _ _ _ _ _ Hrun6). clear Hrun6.
  assert (Hq6 : pxs s6 = q) by congruence. assert (Hhost : host (Some j) (pxs s6) = Ret (hh, pxs s6)) by (apply host_ok; by rewrite Hq6).
  destruct (on_proxies_ok _ hh (pxs s6) V1 s6 Hok6 Hhost ltac:(by eapply with_px)) as (s7&Hrun7&Hok7&Hp7). rewrite (bind_ret _ _ _ _ _ Hrun7). clear Hrun7.
  rewrite <-Hq6, <-Hp7 in Hh'. destruct (disable_usable (pxs s7) p' hh Hh' Hpo') as (r&q'&p''&Hdis&Hh''&Hpo''&_&Hless).
  destruct (on_proxies_ok _ r q' V1 s7 Hok7 Hdis ltac:(by exists p'')) as (s8&Hrun8&Hok8&Hp8). rewrite (bind_ret _ _ _ _ _ Hrun8). clear Hrun8.
  destruct (IH s8 V1 stalk _ Hok8 Hs1) as (r'&s'&Hrun'&Hres).
  - rewrite Hp8. assert (usable q' < usable (pxs s7)) by (apply Hless; [rewrite Hp7, Hq6; by eapply list_elem_of_lookup_2|done]).
    rewrite Hp7, Hq6, Hus, Hp1 in *. lia.
  - exists r', s'. split; [exact Hrun'|]. by eapply forge_result_ext.
Qed.

(** The view of [a] in a state, and the next assignment of the goal to its
    entry. *)
Ltac view_at a Hok E :=
  match type of Hok with ok ?V _ => eassert (E : V a = Some _) by (repeat (rewrite at_ne by done); rewrite ?at_eq; first [eassumption|reflexivity]) end.
Ltac next_update a Hok s' R Hok' :=
  let E := fresh "E" in view_at a Hok E;
  match type of Hok with ok ?V ?s =>
    match goal with |- context [mbind _ (conn_update a ?f) s] => destruct (entry_update_ok V s a _ f Hok E eq_refl) as (s'&R&Hok'&_) end
  end; clear E; run R.

(** The two entries of a new pair. *)
Lemma new_pair_ok V s stalk o c1 c2 hh (res : bool) : (res = false → instant = false) → ok V s → o ≠ stalk → V stalk = Some (fresh_view (waiting c1)) → V o = Some (fresh_view c2) →
  ∃ s' V' v w,
    (_ ← conn_update stalk (set_other o);
     _ ← conn_update o (set_other stalk);
     _ ← conn_update o (λ c, Conn OUTGOING (other_fd c) (forged_outgoing c) true (remote_host c) (data_len c) (data c));
     _ ← conn_update o (set_forged res);
     _ ← conn_update o (set_remote (host_addr hh));
     _ ← conn_update stalk (set_remote (host_addr hh));
     _ ← conn_update o (set_len 0);
     if res then _ ← set_read FD_SETSIZE stalk; set_read FD_SETSIZE o else set_write FD_SETSIZE o) s = Ret ((), s') ∧
    ok V' s' ∧ V' stalk = Some v ∧ V' o = Some w ∧ pair stalk v o w ∧ ∀ x, x ≠ stalk → x ≠ o → V' x = V x.
Proof.
  intros Hinst Hok Hne Hs Ho. assert (Hne' : stalk ≠ o) by done.
  next_update stalk Hok s1 R1 Hok1. next_update o Hok1 s2 R2 Hok2. next_update o Hok2 s3 R3 Hok3. next_update o Hok3 s4 R4 Hok4.
  next_update o Hok4 s5 R5 Hok5. next_update stalk Hok5 s6 R6 Hok6. next_update o Hok6 s7 R7 Hok7.
  match type of Hok7 with ok ?V _ => set (V7 := V) in * end.
  eassert (Hv7 : V7 stalk = Some _) by (unfold V7; rewrite at_ne by done; by rewrite at_eq). eassert (Hw7 : V7 o = Some _) by (unfold V7; by rewrite at_eq).
  match type of Hv7 with _ = Some ?x => set (v := x) in * end. match type of Hw7 with _ = Some ?x => set (w := x) in * end.
  assert (Hx7 : ∀ x, x ≠ stalk → x ≠ o → V7 x = V x) by (intros x Hx1 Hx2; unfold V7; by rewrite !at_ne).
  clearbody V7. assert (Hm : ∀ b1 b2 b3, mates stalk (v_rd b1 v) o (v_rd b2 (v_wr b3 w))) by (intros; by repeat split).
  assert (Hf : ∀ b (x y : cview), vgot x = [] → vput y = [] → data_len (vconn y) = 0 → vrd x = true → vwr y = false → b = tt → flow x y).
  { intros [] x y Hg Hp Hl Hr Hw _. split; rewrite ?Hg, ?Hp, ?Hl, ?Hr, ?Hw; try done. unfold pending. by rewrite Hl. }
  destruct res.
  - destruct (set_read_ok V7 s7 stalk v Hok7 Hv7) as (s8&R8&Hok8&_). run R8.
    destruct (set_read_ok _ s8 o w Hok8) as (s9&R9&Hok9&_); [by rewrite at_ne|]. exists s9. eexists _, _, _. split; [exact R9|]. split; [exact Hok9|].
    split; [rewrite at_ne by done; by rewrite at_eq|]. split; [by rewrite at_eq|]. split; [|intros x Hx1 Hx2; rewrite !at_ne by done; by apply Hx7].
    split; [apply (Hm true true false)|]. left. split; [done|]. split; [done|]. apply Deaf; try done; by apply (Hf tt).
  - destruct (set_write_ok V7 s7 o w Hok7 Hw7) as (s8&R8&Hok8&_). exists s8. eexists _, _, _. split; [exact R8|]. split; [exact Hok8|].
    split; [rewrite at_ne by done; exact Hv7|]. split; [by rewrite at_eq|]. split; [|intros x Hx1 Hx2; rewrite !at_ne by done; by apply Hx7].
    split; [apply (Hm false false true)|]. left. split; [done|]. split; [done|]. apply Connecting; try done. by apply Hinst.
Qed.

Lemma forge_ok V s stalk c : ok V s → V stalk = Some (fresh_view c) → links (at_fd stalk (λ _, None) V) →
  ∃ s', forge_proxy_connect FD_SETSIZE max_fds k stalk s = Ret ((), s') ∧ good s'.
Proof.
  intros Hok Hs HV. unfold forge_proxy_connect. rewrite (bind_ret get _ s s s eq_refl).
  destruct (forge_loop_ok (S (length (hosts (pxs s)))) s V stalk c Hok Hs) as (r&s1&R1&V1&Hok1&Hr).
  { unfold usable. pose proof (count_nonneg (λ h, available h || expired (now (pxs s)) h) (hosts (pxs s))). lia. }
  run R1. destruct r as [[[o h] res]|].
  - destruct Hr as (c1&c2&j&hh&Hi&Hne&Hno&Hs1&Ho1&Hx&->&Hj).
    destruct (on_proxies_ok _ hh (pxs s1) V1 s1 Hok1 (host_ok j hh _ Hj) ltac:(by eapply with_px)) as (s2&R2&Hok2&_). run R2.
    destruct (new_pair_ok V1 s2 stalk o c1 c2 hh res Hi Hok2 Hne Hs1 Ho1) as (s3&V3&v&w&R3&Hok3&Hv&Hw&Hp&Hx3). exists s3. split; [exact R3|]. exists V3. split; [done|].
    apply (links_update _ V3 stalk o HV).
    + intros x v' w' _ _ _. rewrite at_eq, at_ne by done. rewrite Hno. done.
    + intros x Hx1 Hx2. rewrite at_ne by done. rewrite Hx3 by done. by apply Hx.
    + intros v' Hv'. rewrite Hv in Hv'. injection Hv' as <-. right. by exists o, w.
    + intros w' Hw'. rewrite Hw in Hw'. injection Hw' as <-. right. exists stalk, v. split; [done|]. by apply pair_sym.
  - destruct Hr as [Hs1 Hx]. exists s1. split; [done|]. exists V1. split; [done|].
    intros x v Hv. destruct (decide (x = stalk)) as [->|Hxs]; [congruence|].
    assert (Heq : ∀ y, V1 y = at_fd stalk (λ _, None) V y) by (intros y; destruct (decide (y = stalk)) as [->|]; [by rewrite at_eq|rewrite at_ne by done; by apply Hx]).
    rewrite Heq in Hv. destruct (HV x v Hv) as [?|(b&w&Hb&?)]; [by left|right]. exists b, w. by rewrite Heq.
Qed.

(** *** The handlers *)

Lemma connect_failed_ok V s a v b w : ok V s → links V → V a = Some v → V b = Some w → mates a v b w → phase w v → forged_outgoing (vconn v) = false →
  ∃ s', connect_failed FD_SETSIZE max_fds k a s = Ret ((), s') ∧ good s'.
Proof.
  intros Hok HV Ha Hb Hm Hph Hf. pose proof Hm as (Hne&Hvo&Hwo&Hvd&Hwd). unfold connect_failed. rewrite (bind_ret _ _ _ _ _ (conn_ok V s a v Hok Ha)).
  destruct (with_px V s Hok) as (p&Hh&Hpo). destruct (disable_holds (remote_host (vconn v)) (pxs s) p 0 Hh) as (q&Hdis&Hq).
  destruct (on_proxies_ok _ _ q V s Hok Hdis) as (s1&R1&Hok1&_); [eexists; split; [exact Hq|by apply abs_disable_ok]|]. run R1.
  cbv zeta. rewrite Hvd, Hvo. destruct (cleanup_ok V s1 a v Hok1 Ha) as (s2&V2&R2&Hok2&_&Ha2&Hx2); [intros _; rewrite Hvo; by exists w|]. run R2.
  assert (Hb2 : V2 b = Some (v_conn (set_otherdir false) w)) by (rewrite Hx2 by done; rewrite Hvo, decide_True by done; by rewrite Hb).
  destruct Hph as [? ? ? ? ? Hr Hw ? ? Hg Hp ? ?|? ? Hf' ? ?|? Hf' ? ? ? ? ?]; [|congruence..].
  apply (forge_ok V2 s2 b (set_otherdir false (vconn w)) Hok2).
  - rewrite Hb2. unfold v_conn, fresh_view. by rewrite Hr, Hw, Hg, Hp.
  - apply (links_mates V _ a b v w HV Ha Hb Hm).
    + intros x Hxa Hxb. rewrite at_ne by done. rewrite Hx2 by done. rewrite Hvo, decide_False; [done|]. by intros [_ ?].
    + intros x. rewrite at_ne by done. by rewrite Ha2.
    + intros x. by rewrite at_eq.
Qed.

(** Both sides of a new connection are read from now on. *)
Lemma connect_done_ok V s a v b w : ok V s → links V → V a = Some v → V b = Some w → mates a v b w → phase w v → forged_outgoing (vconn v) = false →
  direction (vconn v) = OUTGOING → direction (vconn w) = INCOMING →
  ∃ s', connect_done FD_SETSIZE a s = Ret ((), s') ∧ good s'.
Proof.
  intros Hok HV Ha Hb Hm Hph Hf Hdv Hdw. pose proof Hm as (Hne&Hvo&Hwo&Hvd&Hwd). unfold connect_done. assert (Hne' : a ≠ b) by done.
  next_update a Hok s1 R1 Hok1. rewrite (bind_ret _ _ _ _ _ (conn_ok _ s1 a _ Hok1 (at_some _ _ _))). cbn [vconn v_conn set_forged other_fd]. rewrite Hvo.
  next_update b Hok1 s2 R2 Hok2.
  edestruct (clr_write_ok _ s2 a (v_conn (set_forged true) v) Hok2) as (s3&R3&Hok3&_); [by rewrite at_ne, at_eq|]. run R3.
  destruct (set_read_ok _ s3 a _ Hok3 (at_some _ _ _)) as (s4&R4&Hok4&_). run R4.
  rewrite (bind_ret _ _ _ _ _ (conn_ok _ s4 a _ Hok4 (at_some _ _ _))). cbn [vconn v_rd v_wr v_conn set_forged other_fd]. rewrite Hvo.
  edestruct (set_read_ok _ s4 b (v_conn (set_forged true) w) Hok4) as (s5&R5&Hok5&_); [rewrite !at_ne by done; by rewrite at_eq|].
  exists s5. split; [exact R5|]. eexists. split; [exact Hok5|].
  destruct Hph as [Hi ? ? Hl1 Hl2 Hr1 Hw1 Hr2 Hw2 Hg1 Hp1 Hg2 Hp2|? ? Hf' ? ?|? Hf' ? ? ? ? ?]; [|congruence..].
  apply (links_pair V a b v w (v_rd true (v_wr false (v_conn (set_forged true) v))) (v_rd true (v_conn (set_forged true) w)) HV Ha Hb Hm).
  - split; [by repeat split|]. right. split; [done|]. split; [done|]. apply Relaying; [done|done|done| |].
    + split; cbn; rewrite ?Hg1, ?Hp2, ?Hl2; try done. unfold pending. cbn. by rewrite Hl2.
    + split; cbn; rewrite ?Hg2, ?Hp1, ?Hl1; try done. unfold pending. cbn. by rewrite Hl1.
  - intros x Hxa Hxb. by rewrite !at_ne.
  - rewrite at_ne by done. by rewrite at_eq.
  - by rewrite at_eq.
Qed.

Lemma unforged_ok V s a v : ok V s → links V → V a = Some v → forged_outgoing (vconn v) = false →
  ∃ s', handle_unforged FD_SETSIZE max_fds k a s = Ret ((), s') ∧ good s'.
Proof.
  intros Hok HV Ha Hf. unfold handle_unforged. rewrite (bind_ret _ _ _ _ _ (conn_ok V s a v Hok Ha)).
  destruct (direction (vconn v)) eqn:Ed; [exists s; split; [done|by exists V]|].
  destruct (HV a v Ha) as [Ho|(b&w&Hb&Hm&Hp)]; [pose proof (o_forged v Ho); congruence|].
  destruct Hp as [(?&_)|(_&Hdw&Hph)]; [congruence|]. destruct (sys_read_ok V s a v 1 Hok Ha) as (r&s1&R1&_&Hr). run R1.
  pose proof Hm as (Hne&Hvo&Hwo&Hvd&Hwd). destruct r as [bs|e].
  - destruct Hr as (_&Hok1&_). destruct (both_good V _ s1 a (v_got bs v) v HV Ha Hok1) as (s'&R&Hg&_); try done; [by rewrite at_eq| |..|by exists s'].
    + intros x Hx _. by rewrite at_ne.
    + intros w0 _. rewrite Hvo. intros Hw0. exists w0. by rewrite at_ne.
  - destruct Hr as [_ Hok1]. destruct (negb (in_progress e) && negb (is_eagain e) && negb (is_eintr e)).
    + by apply (connect_failed_ok V s1 a v b w).
    + destruct (is_eintr e); [exists s1; split; [done|by exists V]|]. by apply (connect_done_ok V s1 a v b w).
Qed.

(** What [a] is not read is on its way to [b]. *)
Lemma pair_flow a v b w : pair a v b w → forged_outgoing (vconn v) = true → flow v w ∧ flow w v ∧ (forged_outgoing (vconn w) = true ∨ direction (vconn v) = OUTGOING).
Proof.
  intros [Hm [(?&?&[]) | (?&?&[])]] Hf; try congruence; split_and!; try done; by (left + right).
Qed.
(** A pair both of whose flows are kept is a pair. *)
Lemma pair_keep a v b w v' w' : pair a v b w → forged_outgoing (vconn v) = true →
  mates a v' b w' → direction (vconn v') = direction (vconn v) → direction (vconn w') = direction (vconn w) →
  forged_outgoing (vconn v') = forged_outgoing (vconn v) → forged_outgoing (vconn w') = forged_outgoing (vconn w) →
  flow v' w' → flow w' v' → (forged_outgoing (vconn w) = false → vgot w' = vgot w ∧ vput w' = vput w ∧ data_len (vconn v') = data_len (vconn v)) → pair a v' b w'.
Proof.
  intros [Hm [(Hd1&Hd2&Hph) | (Hd1&Hd2&Hph)]] Hf Hm' Hv Hw Hfv Hfw H1 H2 Hdeaf; split; try done.
  - left. split; [congruence|]. split; [congruence|]. destruct Hph; try congruence. apply Relaying; congruence.
  - right. split; [congruence|]. split; [congruence|]. destruct Hph as [| |Hfi Hfo ? ? Hg Hp Hl]; [congruence|apply Relaying; congruence|].
    destruct (Hdeaf Hfi) as (Hg'&Hp'&Hl'). apply Deaf; congruence.
Qed.

(** Of the reads from call number [from] on, one of the descriptor [fd] is put
    off. *)
Definition put_off (from fd : nat) : Prop :=
  ∃ n e, (from <= n)%nat ∧ k_read k n fd READ_BLOCKSIZE = inr e ∧ in_progress e || is_eagain e || is_eintr e = true.

(** Every operation counts its calls. *)
Definition counts {A} (m : M redirect A) : Prop := ∀ s a s', m s = Ret (a, s') → (calls s <= calls s')%nat.

Lemma counts_bind {A B} (m : M redirect A) (f : A → M redirect B) : counts m → (∀ a, counts (f a)) → counts (m ≫= f).
Proof.
  intros Hm Hf s b s'. unfold mbind, M_mbind. destruct (m s) as [[a s1]| | |] eqn:E; [|done..]. intros R.
  apply Hm in E. apply Hf in R. lia.
Qed.
Lemma counts_same {A} (m : M redirect A) : (∀ s a s', m s = Ret (a, s') → calls s' = calls s) → counts m.
Proof. intros Hm s a s' R. by rewrite (Hm _ _ _ R). Qed.
Lemma counts_one {A} (m : M redirect A) : (∀ s a s', m s = Ret (a, s') → calls s' = S (calls s)) → counts m.
Proof. intros Hm s a s' R. rewrite (Hm _ _ _ R). lia. Qed.

Lemma counts_ret {A} (a : A) : counts (mret a).
Proof. apply counts_same. by intros s x s' [= <- <-]. Qed.
Lemma counts_get : counts get.
Proof. apply counts_same. by intros s x s' [= <- <-]. Qed.
Lemma counts_deref {A} (o : option A) : counts (deref o).
Proof. apply counts_same. destruct o; [by intros s x s' [= <- <-]|done]. Qed.
Lemma counts_modify f : (∀ s, calls (f s) = calls s) → counts (modify f).
Proof. intros Hf. apply counts_same. by intros s x s' [= <- <-]. Qed.
Lemma counts_on_proxies {A} (m : M proxies A) : counts (on_proxies m).
Proof. apply counts_same. unfold on_proxies, mbind, outcome_mbind. intros s x s'. destruct (m (pxs s)) as [[? ?]| | |]; [|done..]. by intros [= <- <-]. Qed.
Lemma counts_in_range fd : counts (in_range FD_SETSIZE fd).
Proof. apply counts_same. unfold in_range, c_assert. destruct (_ <? _)%nat; [by intros s x s' [= <- <-]|done]. Qed.
Lemma counts_new_fd : counts (new_fd max_fds k).
Proof. apply counts_one. intros s x s'. unfold new_fd. destruct (k_open _ _), (lowest max_fds s); by intros [= <- <-]. Qed.
Lemma counts_status : counts (sys_status k).
Proof. apply counts_one. by intros s x s' [= <- <-]. Qed.
Lemma counts_close fd : counts (sys_close fd).
Proof. apply counts_one. by intros s x s' [= <- <-]. Qed.
Lemma counts_read fd n : counts (sys_read k fd n).
Proof. apply counts_one. intros s x s'. unfold sys_read. destruct (socks s !! fd) as [[]|]; [destruct (k_read _ _ _ _)|]; by intros [= <- <-]. Qed.
Lemma counts_write fd buf n : counts (sys_write k fd buf n).
Proof.
  apply counts_one. intros s x s'. unfold sys_write. destruct (_ || _); [done|].
  destruct (socks s !! fd) as [[]|]; [destruct (k_write _ _ _ _)|]; by intros [= <- <-].
Qed.

Create HintDb counts.
#[local] Hint Resolve counts_ret counts_get counts_deref counts_modify counts_on_proxies counts_in_range counts_new_fd counts_status
  counts_close counts_read counts_write : counts.
#[local] Ltac counts := repeat match goal with
  | |- counts (_ ≫= _) => apply counts_bind; [|intros ?]
  | |- counts (match ?x with _ => _ end) => destruct x
  | |- counts (let _ := _ in _) => cbv zeta
  | |- counts (modify _) => apply counts_modify; done
  | |- counts _ => solve [eauto with counts]
  end.

Lemma counts_conn fd : counts (conn fd).
Proof. unfold conn. counts. Qed.
#[local] Hint Resolve counts_conn : counts.
Lemma counts_update fd f : counts (conn_update fd f).
Proof. unfold conn_update. counts. Qed.
Lemma counts_sets fd : counts (set_read FD_SETSIZE fd) ∧ counts (set_write FD_SETSIZE fd) ∧ counts (clr_read FD_SETSIZE fd) ∧ counts (clr_write FD_SETSIZE fd).
Proof. unfold set_read, set_write, clr_read, clr_write. split_and!; counts. Qed.
#[local] Hint Resolve counts_update : counts.
#[local] Hint Extern 1 (counts (set_read _ _)) => apply counts_sets : counts.
#[local] Hint Extern 1 (counts (set_write _ _)) => apply counts_sets : counts.
#[local] Hint Extern 1 (counts (clr_read _ _)) => apply counts_sets : counts.
#[local] Hint Extern 1 (counts (clr_write _ _)) => apply counts_sets : counts.
Lemma counts_cleanup fd : counts (cleanup_fd FD_SETSIZE fd).
Proof. unfold cleanup_fd. counts. Qed.
Lemma counts_forge_loop fuel : ∀ stalk, counts (forge_loop max_fds k fuel stalk).
Proof.
  induction fuel as [|fuel IH]; intros stalk; cbn [forge_loop]; [done|]. counts.
Qed.
#[local] Hint Resolve counts_cleanup counts_forge_loop : counts.
Lemma counts_forge fd : counts (forge_proxy_connect FD_SETSIZE max_fds k fd).
Proof. unfold forge_proxy_connect. counts. Qed.
Lemma counts_both fd : counts (cleanup_both FD_SETSIZE fd).
Proof. unfold cleanup_both. counts. Qed.
Lemma counts_done fd : counts (connect_done FD_SETSIZE fd).
Proof. unfold connect_done. counts. Qed.
#[local] Hint Resolve counts_forge counts_both counts_done : counts.
Lemma counts_failed fd : counts (connect_failed FD_SETSIZE max_fds k fd).
Proof. unfold connect_failed. counts. Qed.
#[local] Hint Resolve counts_failed : counts.
Lemma counts_unforged fd : counts (handle_unforged FD_SETSIZE max_fds k fd).
Proof. unfold handle_unforged. counts. Qed.
#[local] Hint Resolve counts_unforged : counts.
Lemma counts_conn_read fd : counts (conn_read FD_SETSIZE max_fds k fd).
Proof. unfold conn_read. counts. Qed.
Lemma counts_conn_write fd : counts (conn_write FD_SETSIZE max_fds k fd).
Proof. unfold conn_write. counts. Qed.

(** The block that is read goes to the buffer of the other side. *)
Lemma read_block V s a v b w bs : V a = Some v → V b = Some w → pair a v b w → forged_outgoing (vconn v) = true → vrd v = true →
  (0 < length bs <= READ_BLOCKSIZE)%nat → ok (at_fd a (λ _, Some (v_got bs v)) V) s → ∃ s' V' v' w',
  (_ ← conn_update b (λ c, set_len (Z.of_nat (length bs)) (set_buffer (bs ++ drop (length bs) (data c)) c)); _ ← clr_read FD_SETSIZE a; set_write FD_SETSIZE b) s = Ret ((), s') ∧
  ok V' s' ∧ V' a = Some v' ∧ V' b = Some w' ∧ pair a v' b w' ∧ (∀ x, x ≠ a → x ≠ b → V' x = V x) ∧
  pending w' = bs ∧ vput w' = vput w ∧ vwr w' = true ∧ forged_outgoing (vconn w') = forged_outgoing (vconn w) ∧ forged_outgoing (vconn v') = true.
Proof.
  intros Ha Hb Hp Hf Hrd Hlen Hok. pose proof Hp as [(Hne&Hvo&Hwo&Hvd&Hwd) _]. assert (Hne' : a ≠ b) by done.
  destruct (pair_flow a v b w Hp Hf) as (Hvw&Hwv&Hdir). pose proof (f_rd v w Hvw) as Hz. rewrite Hrd in Hz. symmetry in Hz. apply Z.eqb_eq in Hz.
  set (V1 := at_fd a _ V) in Hok. assert (Hb1 : V1 b = Some w) by (unfold V1; by rewrite at_ne).
  destruct (ok_lt V1 s b w Hok Hb1) as (_&_&_&Hdl).
  destruct (entry_update_ok V1 s b w (λ c, set_len (Z.of_nat (length bs)) (set_buffer (bs ++ drop (length bs) (data c)) c)) Hok Hb1) as (s1&R1&Hok1&_).
  { cbn. rewrite length_app, length_drop. lia. }
  run R1. destruct (clr_read_ok _ s1 a (v_got bs v) Hok1) as (s2&R2&Hok2&_); [unfold V1; rewrite at_ne by done; by rewrite at_eq|]. run R2.
  view_at b Hok2 E. destruct (set_write_ok _ s2 b _ Hok2 E) as (s3&R3&Hok3&_). clear E.
  set (w' := v_conn (λ c, set_len _ _) w) in *. exists s3. eexists _, (v_rd false (v_got bs v)), (v_wr true w'). split; [exact R3|]. split; [exact Hok3|].
  split; [rewrite at_ne by done; by rewrite at_eq|]. split; [by rewrite at_eq|].
  assert (Hpend : pending (v_wr true w') = bs) by (unfold pending, w'; cbn; rewrite Nat2Z.id; by rewrite take_app_length).
  split; [|split; [intros x Hxa Hxb; unfold V1; by rewrite !at_ne|done]].
  apply (pair_keep a v b w); try done.
  - split.
    + rewrite Hpend. cbn. rewrite (f_bytes v w Hvw). unfold pending. rewrite Hz. cbn. by rewrite app_nil_r.
    + unfold w'. cbn. lia.
    + unfold w'. cbn. symmetry. apply Z.eqb_neq. lia.
    + unfold w'. cbn. rewrite (proj2 (Z.eqb_neq _ 0)) by lia. done.
  - destruct Hwv as [Hby Hle Hr Hw]. split; [|done|done|done]. unfold w'. cbn. exact Hby.
Qed.

Lemma conn_read_ok V s a v : ok V s → links V → V a = Some v → vrd v = true →
  (∃ s', conn_read FD_SETSIZE max_fds k a s = Ret ((), s') ∧ good s') ∨ put_off (calls s) a.
Proof.
  intros Hok HV Ha Hrd. unfold conn_read. rewrite (bind_ret _ _ _ _ _ (conn_ok V s a v Hok Ha)).
  destruct (forged_outgoing (vconn v)) eqn:Ef; cbn [negb]; [|left; by apply (unforged_ok V s a v)].
  destruct (HV a v Ha) as [Ho|(b&w&Hb&Hp)]; [by rewrite (o_rd v Ho) in Hrd|]. pose proof Hp as [(Hne&Hvo&Hwo&Hvd&Hwd) _]. assert (Hne' : a ≠ b) by done.
  rewrite Hvd. cbn [negb]. rewrite Hvo. rewrite (bind_ret _ _ _ _ _ (conn_ok V s b w Hok Hb)).
  destruct (pair_flow a v b w Hp Ef) as (Hvw&Hwv&Hdir). pose proof (f_rd v w Hvw) as Hz. rewrite Hrd in Hz. rewrite <-Hz. cbn [negb].
  destruct (sys_read_ok V s a v READ_BLOCKSIZE Hok Ha) as (r&s1&R1&_&Hr). run R1. destruct r as [bs|e].
  - left. destruct Hr as (Hlen&Hok1&_). destruct (decide (bs = [])) as [->|Hbs].
    + next_update b Hok1 s2 R2 Hok2. match type of Hok2 with ok ?W _ => set (V2 := W) in * end.
      destruct (both_good V V2 s2 a (v_got [] v) v HV Ha Hok2) as (s'&R&Hg&_); try done; [unfold V2; rewrite at_ne by done; by rewrite at_eq| |..|by exists s'].
      * intros x Hxa Hxb. unfold V2. rewrite !at_ne; [done|done|]. rewrite <-Hvo. by apply Hxb.
      * intros w0 _. rewrite Hvo. intros Hw0. unfold V2. rewrite at_eq. eexists. split; [reflexivity|]. rewrite Hb in Hw0. injection Hw0 as <-. done.
    + destruct (read_block V s1 a v b w bs Ha Hb Hp Ef Hrd) as (s'&V'&v'&w'&R&Hok'&Hv'&Hw'&Hp'&Hx&_); [|done|].
      * destruct bs; [done|]. cbn [length] in *. lia.
      * exists s'. split; [exact R|]. exists V'. split; [done|]. by apply (links_pair V a b v w v' w' HV Ha Hb (proj1 Hp) Hp').
  - destruct Hr as [Hk Hok1]. destruct (in_progress e || is_eagain e || is_eintr e) eqn:Ee; [right; by exists (calls s), e|left].
    next_update b Hok1 s2 R2 Hok2. match type of Hok2 with ok ?W _ => set (V2 := W) in * end.
    destruct (both_good V V2 s2 a v v HV Ha Hok2) as (s'&R&Hg&_); try done; [unfold V2; by rewrite at_ne| |..|by exists s'].
    + intros x Hxa Hxb. unfold V2. rewrite at_ne; [done|]. rewrite <-Hvo. by apply Hxb.
    + intros w0 _. rewrite Hvo. intros Hw0. unfold V2. rewrite at_eq. eexists. split; [reflexivity|]. rewrite Hb in Hw0. injection Hw0 as <-. done.
Qed.

Lemma pending_length v : (data_len (vconn v) <= Z.of_nat READ_BLOCKSIZE) → length (data (vconn v)) = READ_BLOCKSIZE → length (pending v) = Z.to_nat (data_len (vconn v)).
Proof. intros Hl Hd. unfold pending. rewrite length_take. lia. Qed.

(** What is left in the buffer after [m] bytes of it were written. *)
Lemma pending_rest v m (n := Z.to_nat (data_len (vconn v))) : (m <= n)%nat → length (data (vconn v)) = READ_BLOCKSIZE → (n <= READ_BLOCKSIZE)%nat →
  let v' := v_conn (λ c, set_len (data_len c - Z.of_nat m) (set_buffer (take (n - m) (drop m (data c)) ++ drop (n - m) (data c)) c)) v in
  pending v' = drop m (pending v) ∧ take m (data (vconn v)) = take m (pending v) ∧ length (data (vconn v')) = READ_BLOCKSIZE.
Proof.
  intros Hm Hd Hn v'. assert (Hl : length (take (n - m) (drop m (data (vconn v)))) = (n - m)%nat) by (rewrite length_take, length_drop; lia).
  split; [|split].
  - unfold pending, v'. cbn. replace (Z.to_nat (data_len (vconn v) - Z.of_nat m)) with (n - m)%nat by lia. fold n.
    rewrite take_app_le by lia. rewrite take_take, Nat.min_id. by rewrite skipn_firstn_comm.
  - unfold pending. fold n. rewrite take_take. by rewrite Nat.min_l.
  - unfold v'. cbn. rewrite length_app, Hl, length_drop. lia.
Qed.

(** The rest of [conn_write] when [m] bytes have been written to one of a
    pair. *)
Definition after_write (fd : nat) (ptr : conn_st) (res : nat) : M redirect () :=
  if negb (Z.of_nat res =? data_len ptr) then
    let rest := (Z.to_nat (data_len ptr) - res)%nat in
    conn_update fd (λ c, set_len (data_len c - Z.of_nat res) (set_buffer (take rest (drop res (data c)) ++ drop rest (data c)) c))
  else
    _ ← conn_update fd (set_len 0);
    if negb (otherdir_open ptr) then cleanup_fd FD_SETSIZE fd
    else
      _ ← clr_write FD_SETSIZE fd;
      set_read FD_SETSIZE (other_fd ptr).

Lemma write_block V s a v b w m : V a = Some v → V b = Some w → pair a v b w → forged_outgoing (vconn v) = true → forged_outgoing (vconn w) = true →
  (0 < m)%nat → Z.of_nat m <= data_len (vconn v) → ok (at_fd a (λ _, Some (v_put (take m (data (vconn v))) v)) V) s → ∃ s' V' v' w',
  after_write a (vconn v) m s = Ret ((), s') ∧
  ok V' s' ∧ V' a = Some v' ∧ V' b = Some w' ∧ pair a v' b w' ∧ (∀ x, x ≠ a → x ≠ b → V' x = V x) ∧
  pending v' = drop m (pending v) ∧ vput v' = vput v ++ take m (pending v) ∧ vgot v' = vgot v ∧ forged_outgoing (vconn v') = true ∧ forged_outgoing (vconn w') = true.
Proof.
  intros Ha Hb Hp Hf Hfw Hm Hle Hok. pose proof Hp as [(Hne&Hvo&Hwo&Hvd&Hwd) _]. assert (Hne' : a ≠ b) by done.
  destruct (pair_flow a v b w Hp Hf) as (Hvw&Hwv&_). destruct (f_len w v Hwv) as [H0 Hmax']. destruct (ok_lt _ s a _ Hok (at_some _ _ _)) as (_&_&_&Hd). cbn in Hd.
  destruct (pending_rest v m) as (Hpend&Htake&Hdl); [lia|done|lia|]. pose proof (pending_length v Hmax' Hd) as Hpl.
  unfold after_write. set (n := Z.to_nat (data_len (vconn v))) in *. destruct (Z.eqb_spec (Z.of_nat m) (data_len (vconn v))) as [Heq|Hneq]; cbn [negb].
  - next_update a Hok s1 R1 Hok1. rewrite Hvd. cbn [negb]. view_at a Hok1 E. destruct (clr_write_ok _ s1 a _ Hok1 E) as (s2&R2&Hok2&_). run R2. clear E.
    rewrite Hvo. view_at b Hok2 E. destruct (set_read_ok _ s2 b _ Hok2 E) as (s3&R3&Hok3&_). clear E.
    set (v' := v_wr false _) in *. exists s3. eexists _, v', (v_rd true w). split; [exact R3|]. split; [exact Hok3|].
    split; [rewrite at_ne by done; apply at_some|]. split; [apply at_some|].
    assert (Hp0 : pending v' = []) by done. assert (Hdr : drop m (pending v) = []) by (apply drop_ge; lia).
    split; [|split; [intros x Hxa Hxb; by rewrite !at_ne|split; [by rewrite Hp0, Hdr|split; [cbn; by rewrite Htake|done]]]].
    apply (pair_keep a v b w); try done; try (by repeat split); try congruence.
    + destruct Hvw as [Hby Hl Hr Hw]. by split.
    + split; try done. rewrite Hp0, app_nil_r. cbn. rewrite Htake, (take_ge (pending v)) by lia. apply Hwv.
  - view_at a Hok E. destruct (entry_update_ok _ s a _ (λ c, set_len (data_len c - Z.of_nat m) (set_buffer (take (n - m) (drop m (data c)) ++ drop (n - m) (data c)) c)) Hok E) as (s1&R1&Hok1&_).
    { cbn. cbn in Hdl. lia. }
    clear E. set (v' := v_conn _ (v_put _ v)) in *. exists s1. eexists _, v', w. split; [exact R1|]. split; [exact Hok1|].
    split; [apply at_some|]. split; [rewrite at_ne by done; by rewrite at_ne|].
    assert (Hp0 : pending v' = drop m (pending v)) by exact Hpend.
    split; [|split; [intros x Hxa Hxb; by rewrite !at_ne|split; [done|split; [cbn; by rewrite Htake|done]]]].
    apply (pair_keep a v b w); try done; try (by repeat split); try congruence.
    + destruct Hvw as [Hby Hl Hr Hw]. by split.
    + split.
      * rewrite Hp0. cbn. rewrite Htake, <-app_assoc, take_drop. apply Hwv.
      * cbn. lia.
      * cbn. rewrite (f_rd w v Hwv). rewrite (proj2 (Z.eqb_neq (data_len (vconn v)) 0)), (proj2 (Z.eqb_neq _ 0)) by lia. done.
      * cbn. rewrite (f_wr w v Hwv). rewrite (proj2 (Z.eqb_neq (data_len (vconn v)) 0)), (proj2 (Z.eqb_neq _ 0)) by lia. done.
Qed.

(** The same for a connection whose other side has gone. *)
Lemma orphan_write V s a v m : links V → V a = Some v → orphan v → (0 < m)%nat → Z.of_nat m <= data_len (vconn v) →
  ok (at_fd a (λ _, Some (v_put (take m (data (vconn v))) v)) V) s → ∃ s', after_write a (vconn v) m s = Ret ((), s') ∧ good s'.
Proof.
  intros HV Ha Ho Hm Hle Hok. destruct (ok_lt _ s a _ Hok (at_some _ _ _)) as (_&_&_&Hd). cbn in Hd. destruct (o_len v Ho) as [H0 Hmx].
  destruct (pending_rest v m) as (_&_&Hdl); [lia|done|lia|]. unfold after_write. destruct (Z.eqb_spec (Z.of_nat m) (data_len (vconn v))) as [Heq|Hneq]; cbn [negb].
  - next_update a Hok s1 R1 Hok1. rewrite (o_open v Ho). cbn [negb]. view_at a Hok1 E.
    destruct (cleanup_ok _ s1 a _ Hok1 E) as (s2&V2&R2&Hok2&_&Ha2&Hx2); [cbn; by rewrite (o_open v Ho)|]. exists s2. split; [done|]. exists V2. split; [done|].
    apply (links_orphan V V2 a v HV Ha Ho); [|by rewrite Ha2]. intros x Hx. rewrite Hx2 by done. cbn. rewrite (o_open v Ho), decide_False by (by intros [? _]). by rewrite !at_ne.
  - view_at a Hok E. destruct (entry_update_ok _ s a _ (λ c, set_len (data_len c - Z.of_nat m) (set_buffer (take (Z.to_nat (data_len (vconn v)) - m) (drop m (data c)) ++ drop (Z.to_nat (data_len (vconn v)) - m) (data c)) c)) Hok E) as (s1&R1&Hok1&_).
    { cbn. cbn in Hdl. lia. }
    exists s1. split; [exact R1|]. eexists. split; [exact Hok1|]. apply (links_orphan V _ a v HV Ha Ho); [intros x Hx; by rewrite !at_ne|].
    intros v'. rewrite at_eq. intros Hv'. injection Hv' as <-. left. destruct Ho as [? ? ? ? Hw ?]. split; try done; cbn; [lia|].
    rewrite Hw. rewrite (proj2 (Z.eqb_neq (data_len (vconn v)) 0)), (proj2 (Z.eqb_neq _ 0)) by lia. done.
Qed.

Lemma conn_write_ok V s a v : ok V s → links V → V a = Some v → vwr v = true → ∃ s', conn_write FD_SETSIZE max_fds k a s = Ret ((), s') ∧ good s'.
Proof.
  intros Hok HV Ha Hwr. unfold conn_write. rewrite (bind_ret _ _ _ _ _ (conn_ok V s a v Hok Ha)).
  destruct (forged_outgoing (vconn v)) eqn:Ef; cbn [negb]; [|by apply (unforged_ok V s a v)].
  assert (Hlen : 0 < data_len (vconn v) <= Z.of_nat READ_BLOCKSIZE).
  { destruct (HV a v Ha) as [Ho|(b&w&Hb&Hp)]; [pose proof (o_wr v Ho) as Hw; pose proof (o_len v Ho)|
      destruct (pair_flow a v b w Hp Ef) as (_&Hwv&_); pose proof (f_wr w v Hwv) as Hw; pose proof (f_len w v Hwv)];
      rewrite Hwr in Hw; symmetry in Hw; apply negb_true_iff, Z.eqb_neq in Hw; lia. }
  rewrite (proj2 (Z.eqb_neq (data_len (vconn v)) 0)) by lia. destruct (ok_lt V s a v Hok Ha) as (_&_&_&Hd).
  destruct (sys_write_ok V s a v (data_len (vconn v)) (data (vconn v)) Hok Ha) as (r&s1&R1&_&Hr); [lia|]. run R1. destruct r as [m|e].
  - destruct Hr as (Hm&Hok1&_). destruct (decide (m = 0%nat)) as [->|Hm0].
    + cbn [take] in Hok1. destruct (HV a v Ha) as [Ho|(b&w&Hb&Hp)].
      * destruct (cleanup_ok _ s1 a _ Hok1 (at_some _ _ _)) as (s2&V2&R2&Hok2&_&Ha2&Hx2); [cbn; by rewrite (o_open v Ho)|]. exists s2. split; [done|]. exists V2. split; [done|].
        apply (links_orphan V V2 a v HV Ha Ho); [|by rewrite Ha2]. intros x Hx. rewrite Hx2 by done. cbn. rewrite (o_open v Ho), decide_False by (by intros [? _]). by rewrite at_ne.
      * pose proof Hp as [Hmt _]. pose proof Hmt as (Hne&Hvo&Hwo&Hvd&Hwd).
        destruct (cleanup_ok _ s1 a _ Hok1 (at_some _ _ _)) as (s2&V2&R2&Hok2&_&Ha2&Hx2); [cbn; intros _; rewrite Hvo; exists w; by rewrite at_ne|].
        exists s2. split; [done|]. exists V2. split; [done|]. apply (links_mates V V2 a b v w HV Ha Hb Hmt).
        -- intros x Hxa Hxb. rewrite Hx2 by done. cbn. rewrite Hvo, decide_False by (by intros [_ ?]). by rewrite at_ne.
        -- by rewrite Ha2.
        -- intros w'. rewrite Hx2 by done. cbn. rewrite Hvo, decide_True by done. rewrite at_ne by done. rewrite Hb. cbn. intros Hw'. injection Hw' as <-. left.
           destruct (pair_flow a v b w Hp Ef) as (Hvw&Hwv&_). pose proof (f_rd w v Hwv) as Hr. rewrite (proj2 (Z.eqb_neq (data_len (vconn v)) 0)) in Hr by lia.
           assert (Hlate : forged_outgoing (vconn w) = true ∧ instant = false) by (destruct Hp as [_ [(_&_&Hph) | (_&_&Hph)]]; destruct Hph; try congruence; try done; lia).
           split; try done; [apply Hlate|apply Hvw|apply Hvw|apply Hlate].
    + change (∃ s', after_write a (vconn v) m s1 = Ret ((), s') ∧ good s'). destruct (HV a v Ha) as [Ho|(b&w&Hb&Hp)]; [by apply (orphan_write V s1 a v m); try lia|].
      assert (Hfw : forged_outgoing (vconn w) = true) by (destruct (forged_outgoing (vconn w)) eqn:Efw; [done|]; destruct Hp as [_ [(_&_&Hph) | (_&_&Hph)]]; destruct Hph; try congruence; lia).
      destruct (write_block V s1 a v b w m Ha Hb Hp Ef Hfw ltac:(lia) Hm Hok1) as (s'&V'&v'&w'&R&Hok'&Hv'&Hw'&Hp'&Hx&_).
      exists s'. split; [exact R|]. exists V'. split; [done|]. by apply (links_pair V a b v w v' w' HV Ha Hb (proj1 Hp) Hp').
  - destruct Hr as [_ Hr]. destruct (_ || _); [exists s1; split; [done|by exists V]|].
    destruct (both_good V V s1 a v v HV Ha Hr Ha eq_refl eq_refl) as (s'&R&Hg&_); [done| |by exists s']. intros w0 _ Hw0. by exists w0.
Qed.

Lemma good_fd s x (Hr : x ∈ read_fds s ∨ x ∈ write_fds s) V : ok V s → x ≠ listen → ∃ v, V x = Some v ∧ vrd v = bool_decide (x ∈ read_fds s) ∧ vwr v = bool_decide (x ∈ write_fds s).
Proof.
  intros [Hb Hv] Hx. destruct (b_sets s Hb x Hr) as [->|[[g p] Hk]]; [by rewrite (b_same s Hb) in Hx|]. destruct (b_apart s Hb x) as [Hl _]; [by eexists|].
  rewrite <-(b_len s Hb) in Hl. apply lookup_lt_is_Some in Hl as [c Hc]. rewrite <-Hv. unfold view. rewrite Hc, Hk. by eexists.
Qed.

Lemma put_off_later m n fd : (m <= n)%nat → put_off n fd → put_off m fd.
Proof. intros Hle (c&e&?&?&?). exists c, e. split_and!; [lia|done..]. Qed.

Lemma scan_ok n : ∀ i rfd wfd s, good s → listen ∉ rfd →
  (∃ s', scan FD_SETSIZE max_fds k n i rfd wfd s = Ret ((), s') ∧ good s') ∨ ∃ fd, fd ∈ rfd ∧ put_off (calls s) fd.
Proof.
  induction n as [|n IH]; intros i rfd wfd s Hg Hl; cbn [scan]; [left; by exists s|]. rewrite (bind_ret get _ s s s eq_refl).
  assert (Hr : (∃ s1, (if decide (i ∈ rfd ∧ i ∈ read_fds s) then conn_read FD_SETSIZE max_fds k i else mret ()) s = Ret ((), s1) ∧ good s1) ∨
    (i ∈ rfd ∧ put_off (calls s) i)).
  { destruct (decide (i ∈ rfd ∧ i ∈ read_fds s)) as [[Hi Hir]|]; [|left; by exists s]. destruct Hg as (V&Hok&HV).
    destruct (good_fd s i (or_introl Hir) V Hok) as (v&Hv&Hrd&_); [by intros ->|].
    destruct (conn_read_ok V s i v Hok HV Hv) as [|]; [by rewrite Hrd, bool_decide_true|by left|by right]. }
  destruct Hr as [(s1&R1&Hg1)|Hoff]; [|right; by exists i]. assert (Hc1 : (calls s <= calls s1)%nat).
  { revert R1. case_decide; [apply counts_conn_read|apply counts_ret]. }
  run R1. rewrite (bind_ret get _ s1 s1 s1 eq_refl).
  assert (Hw : ∃ s2, (if decide (i ∈ wfd ∧ i ∈ write_fds s1) then conn_write FD_SETSIZE max_fds k i else mret ()) s1 = Ret ((), s2) ∧ good s2).
  { destruct (decide (i ∈ wfd ∧ i ∈ write_fds s1)) as [[Hi Hiw]|]; [|by exists s1]. destruct Hg1 as (V&Hok&HV).
    destruct (good_fd s1 i (or_intror Hiw) V Hok) as (v&Hv&_&Hwr).
    { intros ->. destruct Hok as [Hb _]. pose proof (b_listen s1 Hb) as (_&_&Hn). by rewrite (b_same s1 Hb) in Hn. }
    apply (conn_write_ok V s1 i v Hok HV Hv). by rewrite Hwr, bool_decide_true. }
  destruct Hw as (s2&R2&Hg2). assert (Hc2 : (calls s1 <= calls s2)%nat).
  { revert R2. case_decide; [apply counts_conn_write|apply counts_ret]. }
  run R2. destruct (IH (S i) rfd wfd s2 Hg2 Hl) as [?|(fd&Hfd&Hoff)]; [by left|right]. exists fd. split; [done|].
  apply (put_off_later _ (calls s2)); [lia|done].
Qed.

Lemma incoming_ok rfd s : good s → ∃ X s', handle_incoming FD_SETSIZE max_fds k nm listen_port rfd ∅ s = Ret (X, s') ∧ good s' ∧ X = rfd ∖ {[listen]}.
Proof.
  intros (V&Hok&HV). unfold handle_incoming. rewrite (bind_ret get _ s s s eq_refl). assert (Hl : listen_fd s = listen) by apply Hok. rewrite Hl. cbv zeta.
  rewrite decide_False by set_solver. destruct (decide (listen ∉ rfd)) as [Hn|Hn]; [exists rfd, s; split; [done|]; split; [by exists V|set_solver]|].
  destruct (new_fd_ok V s Hok) as (o&s1&R1&_&Ho). run R1. destruct o as [stalk|]; [|eexists _, s1; split; [reflexivity|]; split; [by exists V|done]].
  destruct Ho as (Hno&c&Hok1). destruct (forge_ok _ s1 stalk c Hok1 (at_some _ _ _)) as (s2&R2&Hg2).
  - intros x v Hx. assert (Heq : ∀ y, at_fd stalk (λ _, None) (at_fd stalk (λ _, Some (CV c false false [] [])) V) y = V y).
    { intros y. unfold at_fd. by destruct (decide (y = stalk)) as [->|]. }
    rewrite Heq in Hx. destruct (HV x v Hx) as [?|(b&w&Hb&?)]; [by left|right]. exists b, w. by rewrite Heq.
  - run R2. by eexists _, s2.
Qed.

Lemma counts_incoming rfd s X s' : exception_fds s = ∅ → handle_incoming FD_SETSIZE max_fds k nm listen_port rfd ∅ s = Ret (X, s') → (calls s <= calls s')%nat.
Proof.
  intros _. unfold handle_incoming. rewrite (bind_ret get _ s s s eq_refl). cbv zeta. rewrite decide_False by set_solver.
  case_decide; [by intros [= _ <-]|]. match goal with |- ?m s = _ → _ => assert (Hc : counts m) by counts end. apply Hc.
Qed.

(** A read that [select] has announced is put off in this turn. *)
Definition premature (sel : selected) (s : redirect) : Prop :=
  match sel with SelectFailed => False | Selected R _ _ => ∃ fd, fd ∈ R ∧ fd ∈ read_fds s ∧ put_off (calls s) fd end.

Lemma redirect_turn_ok sel t s : good s →
  (∃ s', main_turn FD_SETSIZE max_fds k nm listen_port sel t s = Ret ((), s') ∧ good s') ∨ premature sel s.
Proof.
  intros (V&Hok&HV). unfold main_turn. destruct (with_px V s Hok) as (p&Hh&Hpo).
  edestruct (on_proxies_ok (modify (with_now t)) () _ V s Hok eq_refl) as (s1&R1&Hok1&_).
  { exists (AProxies (ahosts p) (aenabled p) (around p) t). split; [by destruct Hh|by destruct Hpo]. }
  assert (Hsame : read_fds s1 = read_fds s ∧ calls s1 = calls s) by (cbn in R1; injection R1 as <-; done).
  run R1. assert (Hg1 : good s1) by (by exists V).
  assert (Hs : (∃ s2, match sel with SelectFailed => mret () | Selected R W E => s ← get; rfd ← handle_incoming FD_SETSIZE max_fds k nm listen_port (R ∩ read_fds s) (E ∩ exception_fds s);
      scan FD_SETSIZE max_fds k FD_SETSIZE 0 rfd (W ∩ write_fds s) end s1 = Ret ((), s2) ∧ good s2) ∨ premature sel s).
  { destruct sel as [|R W E]; [left; by exists s1|]. rewrite (bind_ret get _ s1 s1 s1 eq_refl). assert (He : exception_fds s1 = ∅) by apply Hok1.
    replace (E ∩ exception_fds s1) with (∅ : gset nat) by set_solver. destruct (incoming_ok (R ∩ read_fds s1) s1 Hg1) as (X&s2&R2&Hg2&->).
    pose proof (counts_incoming _ _ _ _ He R2) as Hc. run R2.
    destruct (scan_ok FD_SETSIZE 0 ((R ∩ read_fds s1) ∖ {[listen]}) (W ∩ write_fds s1) s2 Hg2) as [?|(fd&Hfd&Hoff)]; [set_solver|by left|right].
    destruct Hsame as [Hrs Hcs]. exists fd. rewrite Hrs in Hfd. split; [set_solver|]. split; [set_solver|]. apply (put_off_later _ (calls s2)); [lia|done]. }
  destruct Hs as [(s2&R2&V2&Hok2&HV2)|?]; [left|by right]. run R2. destruct (with_px V2 s2 Hok2) as (p2&Hh2&Hpo2). destruct (enable_holds (pxs s2) p2 0 Hh2) as (q&Hen&Hq).
  destruct (on_proxies_ok _ _ q V2 s2 Hok2 Hen) as (s3&R3&Hok3&_); [eexists; split; [exact Hq|by apply abs_enable_ok]|]. run R3. exists s3. split; [done|]. by exists V2.
Qed.

Lemma redirect_turns_ok ts : ∀ s, good s →
  (∃ s', main_turns FD_SETSIZE max_fds k nm listen_port ts s = Ret ((), s') ∧ good s') ∨
  (∃ ts1 sel t ts2 s1, ts = ts1 ++ (sel, t) :: ts2 ∧ main_turns FD_SETSIZE max_fds k nm listen_port ts1 s = Ret ((), s1) ∧ premature sel s1).
Proof.
  induction ts as [|[sel t] ts IH]; intros s Hg; cbn [main_turns]; [left; by exists s|].
  destruct (redirect_turn_ok sel t s Hg) as [(s1&R1&Hg1)|Hp]; [|right; by exists [], sel, t, ts, s].
  rewrite (bind_ret _ _ _ _ _ R1). destruct (IH s1 Hg1) as [?|(ts1&sel'&t'&ts2&s2&->&R2&Hp)]; [by left|right].
  exists ((sel, t) :: ts1), sel', t', ts2, s2. split; [done|]. split; [|done]. cbn [main_turns]. rewrite (bind_ret _ _ _ _ _ R1). exact R2.
Qed.
End lemmas.

(** ** Theorems *)

Section theorems.
Context (FD_SETSIZE max_fds : nat) (k : kernel) (nm : names) (listen_port : option bytes) (listen : nat) (std : gset nat).
Context (uninit : ll_node host_ptr) (ops : list proxy_op) (blocks : nat) (rs : list proxy_result) (ps : proxies).
(** The limit on descriptors is within the sets; descriptor 0 is in use; the
    proxies are those of a configuration. *)
Hypothesis Hmax : (max_fds <= FD_SETSIZE)%nat.
Hypothesis Hstd : 0%nat ∈ std.
Hypothesis Hadds : (total_adds ops <= LL_HEAPSIZE * blocks)%nat.
Hypothesis Hps : proxy_exec uninit nm ops (no_proxies blocks) = Ret (rs, ps).

Definition reachable (ts : list (selected * Z)) (s : redirect) : Prop :=
  main_turns FD_SETSIZE max_fds k nm listen_port ts (redirect_init FD_SETSIZE listen std ps) = Ret ((), s).

Lemma init_good instant : good FD_SETSIZE listen instant (redirect_init FD_SETSIZE listen std ps).
Proof.
  exists (λ _, None). destruct (proxy_exec_start uninit nm ops blocks Hadds) as (s'&Hrun&Hh&Hp). rewrite Hps in Hrun. injection Hrun as _ <-. split; [split|done].
  - split; cbn.
    + apply length_replicate.
    + apply Forall_lookup. intros i c Hc. apply lookup_replicate in Hc as [-> _]. apply length_replicate.
    + set_solver.
    + set_solver.
    + intros a [x Hx]. by rewrite lookup_empty in Hx.
    + set_solver.
    + done.
    + by eexists.
    + done.
  - intros a. unfold view. cbn. by destruct (replicate FD_SETSIZE zero_conn !! a).
Qed.

(** In the course of [ts] the system puts off a read that [select] has
    announced: the read fails with [EAGAIN], [EINTR] or [EINPROGRESS]. *)
Definition spurious (ts : list (selected * Z)) : Prop :=
  ∃ ts1 sel t ts2 s, ts = ts1 ++ (sel, t) :: ts2 ∧ reachable ts1 s ∧ premature k sel s.

Lemma reachable_or_spurious instant (Hi : instant = true → ∀ n, k_status k n = None) ts :
  (∃ s, reachable ts s ∧ good FD_SETSIZE listen instant s) ∨ spurious ts.
Proof. apply (redirect_turns_ok FD_SETSIZE max_fds k nm listen_port listen Hmax instant Hi ts). apply init_good. Qed.

(** What links a socket to the rest: its other side has gone, or the bytes
    that have been read from it and those written to the other side differ by
    the buffer of the latter. *)
Definition left_alone (s : redirect) (a : nat) (c : conn_st) : Prop :=
  otherdir_open c = false ∧ (a ∉ read_fds s) ∧ (a ∈ write_fds s ↔ 0 < data_len c).
Definition joined (s : redirect) (a : nat) (c : conn_st) (g : bytes) : Prop :=
  ∃ b d g' p', b ≠ a ∧ connections s !! b = Some d ∧ socks s !! b = Some (g', p') ∧ other_fd c = b ∧ other_fd d = a ∧
    direction c ≠ direction d ∧ 0 <= data_len d <= Z.of_nat READ_BLOCKSIZE ∧ g = p' ++ take (Z.to_nat (data_len d)) (data d) ∧
    (a ∈ read_fds s → g = p').

Lemma pair_bytes instant a v b w : pair instant a v b w →
  vgot v = vput w ++ pending w ∧ 0 <= data_len (vconn w) <= Z.of_nat READ_BLOCKSIZE ∧ (vrd v = true → data_len (vconn w) = 0).
Proof.
  assert (Hf : ∀ v w, flow v w → vgot v = vput w ++ pending w ∧ 0 <= data_len (vconn w) <= Z.of_nat READ_BLOCKSIZE ∧ (vrd v = true → data_len (vconn w) = 0)).
  { intros x y [Hb Hl Hr Hw]. split; [done|]. split; [done|]. intros E. rewrite E in Hr. symmetry in Hr. by apply Z.eqb_eq in Hr. }
  intros [_ [(_&_&Hp) | (_&_&Hp)]]; destruct Hp as [_ _ _ Hl1 Hl2 Hr1 _ Hr2 _ Hg1 Hp1 Hg2 Hp2| |]; try (by apply Hf).
  - rewrite Hg1, Hp2, Hl2. unfold pending. rewrite Hl2. split_and!; (done || lia).
  - rewrite Hg2, Hp1, Hl1. unfold pending. rewrite Hl1. split_and!; (done || lia).
Qed.


(** From here on the system puts no read off. *)
Hypothesis Hcalm : ∀ n fd e, k_read k n fd READ_BLOCKSIZE = inr e → in_progress e || is_eagain e || is_eintr e = false.
Lemma calm_not_spurious ts : ¬ spurious ts.
Proof.
  intros (ts1&[|R W E]&t&ts2&s&_&_&Hp); [done|]. destruct Hp as (fd&_&_&n&e&_&Hk&He). by rewrite (Hcalm _ _ _ Hk) in He.
Qed.
Lemma reachable_good instant (Hi : instant = true → ∀ n, k_status k n = None) ts : ∃ s, reachable ts s ∧ good FD_SETSIZE listen instant s.
Proof. destruct (reachable_or_spurious instant Hi ts) as [?|Hs]; [done|]. by apply calm_not_spurious in Hs. Qed.

Fixpoint writes (n : nat) (fd : nat) : M redirect () :=
  match n with O => mret () | S n' => _ ← conn_write FD_SETSIZE max_fds k fd; writes n' fd end.

Lemma not_instant : false = true → ∀ n, k_status k n = None.
Proof. done. Qed.

Lemma writes_drain b (Hpos : ∀ n m, ∃ j, k_write k n b m = inl (S j)) n : ∀ V s v a w,
  ok FD_SETSIZE listen V s → V b = Some v → V a = Some w → pair false b v a w → forged_outgoing (vconn v) = true → forged_outgoing (vconn w) = true →
  (length (pending v) <= n)%nat → ∃ j s' V' v' w', (j <= n)%nat ∧ writes j b s = Ret ((), s') ∧ ok FD_SETSIZE listen V' s' ∧
    V' b = Some v' ∧ V' a = Some w' ∧ vput v' = vput v ++ pending v ∧ vrd w' = true.
Proof.
  induction n as [|n IH]; intros V s v a w Hok Hb Ha Hp Hf Hfw Hlen; destruct (ok_lt _ _ V s b v Hok Hb) as (_&_&_&Hd);
    destruct (pair_flow false b v a w Hp Hf) as (_&[_ Hle Hrd Hwr]&_); pose proof (pending_length FD_SETSIZE max_fds Hmax v ltac:(lia) Hd) as Hpl.
  - assert (Hz : data_len (vconn v) = 0) by lia. exists 0%nat, s, V, v, w. split; [done|]. split; [done|]. split; [done|]. split; [done|]. split; [done|].
    split; [|by rewrite Hrd, Hz]. apply nil_length_inv in Hlen || (destruct (pending v); [|cbn in Hlen; lia]). by rewrite app_nil_r.
  - destruct (Z.eq_dec (data_len (vconn v)) 0) as [Hz|Hz].
    { exists 0%nat, s, V, v, w. split; [lia|]. split; [done|]. split; [done|]. split; [done|]. split; [done|]. split; [|by rewrite Hrd, Hz].
      destruct (pending v); [|cbn in Hpl; lia]. by rewrite app_nil_r. }
    destruct (sys_write_ok FD_SETSIZE max_fds k listen Hmax V s b v (data_len (vconn v)) (data (vconn v)) Hok Hb) as (r&s1&R1&_&Hr); [lia|].
    destruct r as [m|e]; [|destruct Hr as [He _]; destruct (Hpos (calls s) (Z.to_nat (data_len (vconn v)))); congruence].
    destruct Hr as (Hm&Hok1&m0&Hk&Hmin). destruct (Hpos (calls s) (Z.to_nat (data_len (vconn v)))) as [j0 Hj0]. rewrite Hj0 in Hk. injection Hk as <-.
    destruct (write_block FD_SETSIZE max_fds k listen Hmax false not_instant V s1 b v a w m Hb Ha Hp Hf Hfw ltac:(lia) Hm Hok1) as (s2&V2&v2&w2&R2&Hok2&Hb2&Ha2&Hp2&_&Hpe&Hpu&_&Hf2&Hfw2).
    destruct (IH V2 s2 v2 a w2 Hok2 Hb2 Ha2 Hp2 Hf2 Hfw2) as (j&s3&V3&v3&w3&Hj&R3&Hok3&Hb3&Ha3&Hpu3&Hrd3); [rewrite Hpe, length_drop; lia|].
    exists (S j), s3, V3, v3, w3. split; [lia|]. split; [|split; [done|split; [done|split; [done|split; [|done]]]]].
    + cbn [writes]. assert (Hw : conn_write FD_SETSIZE max_fds k b s = Ret ((), s2)).
      { unfold conn_write. rewrite (bind_ret _ _ _ _ _ (conn_ok _ _ V s b v Hok Hb)). rewrite Hf. cbn [negb]. rewrite (proj2 (Z.eqb_neq _ 0)) by done.
        rewrite (bind_ret _ _ _ _ _ R1). rewrite decide_False by lia. exact R2. }
      run Hw. exact R3.
    + rewrite Hpu3, Hpu, Hpe, <-app_assoc. f_equal. apply take_drop.
Qed.

(** What arrives is passed on: when a side that is read has a block [bs] to
    read, and the other side takes at least one byte with every write, the
    block has been written to the other side, behind what was written before,
    after at most as many writes as it has bytes, and the first side is read
    again. *)
Theorem relay_block ts s a c d g' p' bs :
  reachable ts s → a ∈ read_fds s → a ≠ listen → connections s !! a = Some c → forged_outgoing c = true →
  connections s !! other_fd c = Some d → forged_outgoing d = true → socks s !! other_fd c = Some (g', p') →
  k_read k (calls s) a READ_BLOCKSIZE = inl bs → bs ≠ [] → (length bs <= READ_BLOCKSIZE)%nat →
  (∀ n m, ∃ j, k_write k n (other_fd c) m = inl (S j)) →
  ∃ n s', (n <= length bs)%nat ∧ (_ ← conn_read FD_SETSIZE max_fds k a; writes n (other_fd c)) s = Ret ((), s') ∧
    (a ∈ read_fds s') ∧ ∃ g'', socks s' !! other_fd c = Some (g'', p' ++ bs).
Proof.
  intros Hreach Har Hal Hca Hfc Hcd Hfd Hks Hread Hne Hlen Hpos. destruct (reachable_good false not_instant ts) as (s0&Hr0&V&Hok&HV).
  unfold reachable in Hreach, Hr0. rewrite Hreach in Hr0. injection Hr0 as <-.
  destruct (good_fd _ _ s a (or_introl Har) V Hok Hal) as (v&Ha&Hrd&_). rewrite bool_decide_true in Hrd by done.
  destruct (ok_view _ _ V s a v Hok Ha) as (Hca'&_). rewrite Hca in Hca'. injection Hca' as ->. set (b := other_fd (vconn v)) in *.
  destruct (HV a v Ha) as [Ho|(b'&w&Hb&Hp)]; [by rewrite (o_rd false v Ho) in Hrd|]. pose proof Hp as [(Hnb&Hvo&Hwo&Hvd&Hwd) _]. fold b in Hvo. subst b'.
  destruct (ok_view _ _ V s b w Hok Hb) as (Hcb&Hkb&_). rewrite Hcd in Hcb. injection Hcb as ->. rewrite Hks in Hkb. injection Hkb as -> ->.
  destruct (sys_read_ok FD_SETSIZE max_fds k listen Hmax V s a v READ_BLOCKSIZE Hok Ha) as (r&s1&R1&_&Hr).
  destruct r as [bs'|e]; [|destruct Hr; congruence]. destruct Hr as (_&Hok1&bs0&Hk0&->). rewrite Hread in Hk0. injection Hk0 as <-. rewrite (take_ge bs) in * by done.
  destruct (read_block FD_SETSIZE max_fds k listen Hmax false not_instant V s1 a v b w bs Ha Hb Hp Hfc Hrd) as (s2&V2&v2&w2&R2&Hok2&Ha2&Hb2&Hp2&_&Hpe&Hpu&_&Hf2&Hfv2); [|done|].
  { destruct bs; [done|]. cbn [length] in *. lia. }
  assert (Hcr : conn_read FD_SETSIZE max_fds k a s = Ret ((), s2)).
  { unfold conn_read. rewrite (bind_ret _ _ _ _ _ (conn_ok _ _ V s a v Hok Ha)). rewrite Hfc, Hvd. cbn [negb]. fold b. rewrite (bind_ret _ _ _ _ _ (conn_ok _ _ V s b w Hok Hb)).
    destruct (pair_flow false a v b w Hp Hfc) as ([_ _ Hz _]&_). rewrite Hrd in Hz. rewrite <-Hz. cbn [negb]. rewrite (bind_ret _ _ _ _ _ R1). rewrite decide_False by done. exact R2. }
  destruct (writes_drain b Hpos (length bs) V2 s2 w2 a v2 Hok2 Hb2 Ha2 (pair_sym _ _ _ _ _ Hp2)) as (n&s3&V3&w3&v3&Hn&R3&Hok3&Hb3&Ha3&Hpu3&Hrd3); [by rewrite Hf2|done|by rewrite Hpe|].
  exists n, s3. split; [done|]. split; [run Hcr; exact R3|]. destruct (ok_view _ _ V3 s3 a v3 Hok3 Ha3) as (_&_&Hrd4&_). rewrite Hrd3 in Hrd4.
  split; [by apply (bool_decide_eq_true_1 _)|]. destruct (ok_view _ _ V3 s3 b w3 Hok3 Hb3) as (_&Hk3&_). exists (vgot w3). by rewrite Hk3, Hpu3, Hpu, Hpe.
Qed.

(** Connections that are made at once are never served: if no call of
    [connect] has to wait, the side of the client is never marked as connected,
    and in every state that can be reached no byte has been read from a client
    and none has been written to one. *)
Theorem instant_connect_unserved ts : (∀ n, k_status k n = None) → ∃ s, reachable ts s ∧
  ∀ a c g p, connections s !! a = Some c → socks s !! a = Some (g, p) → direction c = INCOMING → g = [] ∧ p = [].
Proof.
  intros Hi. destruct (reachable_good true (λ _, Hi) ts) as (s&Hr&V&Hok&HV). exists s. split; [done|]. intros a c g p Hc Hk Hd.
  destruct (V a) as [v|] eqn:Ha; [|by rewrite (ok_none _ _ V s a Hok Ha) in Hk].
  destruct (ok_view _ _ V s a v Hok Ha) as (Hc'&Hk'&_). rewrite Hc in Hc'. rewrite Hk in Hk'. injection Hc' as ->. injection Hk' as -> ->.
  destruct (HV a v Ha) as [Ho|(b&w&Hb&_&[(_&_&Hph) | (Hx&_)])]; [by pose proof (o_late true v Ho)| |congruence]. by destruct Hph.
Qed.
End theorems.

(** ** Witnesses *)

(** A system of eight descriptors, with the standard ones and the listening
    one in use: connecting takes a while if [late], clients send [GET], proxies
    answer with the end of the file, writes take two bytes. *)
Definition demo_kernel (late : bool) : kernel := Kernel (λ _, None)
  (λ n, if late && (Nat.eqb n 3) then Some (EOTHER EINPROGRESS) else None)
  (λ n fd c, if Nat.eqb c 1 then inr EAGAIN else if Nat.eqb fd 4 then inl (bytes_of "GET") else inl [])
  (λ n fd c, inl 2%nat).
Definition demo_std : gset nat := {[0; 1; 2]}%nat.
Definition demo_ops : list proxy_op := [OAdd (bytes_of "fe1") (bytes_of "80")].
Definition demo_ps : proxies := match proxy_exec demo_host_node demo_names demo_ops (no_proxies 1) with Ret (_, s) => s | _ => no_proxies 0 end.
Definition demo_connect : list (selected * Z) := [(Selected {[3%nat]} ∅ ∅, 5); (Selected ∅ {[5%nat]} ∅, 6)].
Definition demo_run : list (selected * Z) :=
  demo_connect ++ [(Selected {[4%nat]} ∅ ∅, 7); (Selected ∅ {[5%nat]} ∅, 8); (SelectFailed, 8); (Selected ∅ {[5%nat]} ∅, 9)].

Lemma demo_result_ok : proxy_exec demo_host_node demo_names demo_ops (no_proxies 1) = Ret ([RNum 1], demo_ps).
Proof. vm_compute. reflexivity. Qed.
Lemma demo_zero : 0%nat ∈ demo_std.
Proof. unfold demo_std. set_solver. Qed.
Lemma demo_calm late n fd e : k_read (demo_kernel late) n fd READ_BLOCKSIZE = inr e → in_progress e || is_eagain e || is_eintr e = false.
Proof. cbn. change (Nat.eqb READ_BLOCKSIZE 1) with false. cbn iota. by destruct (Nat.eqb fd 4). Qed.
Lemma demo_adds : (total_adds demo_ops <= LL_HEAPSIZE * 1)%nat.
Proof. apply Nat.leb_le. reflexivity. Qed.

(** What [f] is after [ts]. *)
Definition after {A} (late : bool) (ts : list (selected * Z)) (f : redirect → A) : option A :=
  match main_turns 8 8 (demo_kernel late) demo_names None ts (redirect_init 8 3 demo_std demo_ps) with Ret (_, s) => Some (f s) | _ => None end.
Abbreviation demo_reachable late := (reachable 8 8 (demo_kernel late) demo_names None 3 demo_std demo_ps) (only parsing).
Lemma after_reachable {A} late ts (f : redirect → A) s x : demo_reachable late ts s → after late ts f = Some x → f s = x.
Proof. unfold reachable, after. intros -> Hx. by injection Hx. Qed.


Lemma relay_block_witness : ∃ s n s', demo_reachable true demo_connect s ∧ (n <= 3)%nat ∧
  (_ ← conn_read 8 8 (demo_kernel true) 4; writes 8 8 (demo_kernel true) n 5) s = Ret ((), s') ∧ (4%nat ∈ read_fds s') ∧ ∃ g, socks s' !! 5%nat = Some (g, bytes_of "GET").
Proof.
  pose proof (reachable_good 8 8 (demo_kernel true) demo_names None 3 demo_std demo_host_node demo_ops 1 [RNum 1] demo_ps (le_n 8) demo_zero demo_adds demo_result_ok
    (demo_calm true) false ltac:(done) demo_connect) as (s&Hr&_).
  assert (Hrd : bool_decide (4%nat ∈ read_fds s) = true) by (apply (after_reachable true demo_connect (λ s, bool_decide (4%nat ∈ read_fds s)) s _ Hr); vm_compute; reflexivity).
  pose (entry i s := (λ c, (forged_outgoing c, other_fd c)) <$> connections s !! i).
  assert (H4 : entry 4%nat s = Some (true, 5%nat)) by (apply (after_reachable true demo_connect (entry 4%nat) s _ Hr); vm_compute; reflexivity).
  assert (H5 : entry 5%nat s = Some (true, 4%nat)) by (apply (after_reachable true demo_connect (entry 5%nat) s _ Hr); vm_compute; reflexivity).
  assert (Hk : socks s !! 5%nat = Some ([], [])) by (apply (after_reachable true demo_connect (λ s, socks s !! 5%nat) s _ Hr); vm_compute; reflexivity).
  apply bool_decide_eq_true_1 in Hrd. apply fmap_Some in H4 as (c&Hc&H4). apply fmap_Some in H5 as (d&Hd&H5). injection H4 as Hfc Hoc. injection H5 as Hfd _. symmetry in Hfc, Hfd, Hoc.
  rewrite <-Hoc in Hd, Hk.
  assert (Hget : k_read (demo_kernel true) (calls s) 4 READ_BLOCKSIZE = inl (bytes_of "GET")) by (cbn; by change (Nat.eqb READ_BLOCKSIZE 1) with false).
  assert (Hlen : (length (bytes_of "GET") <= READ_BLOCKSIZE)%nat) by (unfold READ_BLOCKSIZE; cbn [length bytes_of]; lia).
  pose proof (relay_block 8 8 (demo_kernel true) demo_names None 3 demo_std demo_host_node demo_ops 1 [RNum 1] demo_ps (le_n 8) demo_zero demo_adds demo_result_ok
    (demo_calm true) demo_connect s 4 c d [] [] (bytes_of "GET") Hr Hrd (Nat.neq_succ_diag_l 3) Hc Hfc Hd Hfd Hk Hget ltac:(done) Hlen (λ _ _, ex_intro _ 1%nat eq_refl)) as (n&s'&Hn&Hrun&Hin&g&Hg).
  rewrite Hoc in Hrun, Hg. exists s, n, s'. split; [exact Hr|]. split; [exact Hn|]. split; [exact Hrun|]. split; [exact Hin|]. by exists g.
Defined.

Lemma instant_connect_unserved_witness : ∃ s, demo_reachable false demo_run s ∧ socks s !! 4%nat = Some ([], []).
Proof.
  pose proof (instant_connect_unserved 8 8 (demo_kernel false) demo_names None 3 demo_std demo_host_node demo_ops 1 [RNum 1] demo_ps (le_n 8) demo_zero demo_adds demo_result_ok
    (demo_calm false) demo_run (λ _, eq_refl)) as (s&Hr&_).
  exists s. split; [exact Hr|]. apply (after_reachable false demo_run (λ s, socks s !! 4%nat) s _ Hr). vm_compute. reflexivity.
Defined.

(** A descriptor that [select] has found readable, but whose read is put off,
    leaves -1 in the length of the other side's buffer: at the next turns the
    other side is written with this length. *)
Definition hasty_kernel : kernel := Kernel (λ _, None) (k_status (demo_kernel true)) (λ _ _ _, inr EAGAIN) (λ _ _ _, inl 2%nat).
Example spurious_read_crashes :
  main_turns 8 8 hasty_kernel demo_names None (demo_connect ++ [(Selected {[4%nat]} ∅ ∅, 7); (Selected {[4%nat]} ∅ ∅, 8); (Selected ∅ {[5%nat]} ∅, 9)])
    (redirect_init 8 3 demo_std demo_ps) = Crash.
Proof. vm_compute. reflexivity. Qed.
