(* ===== verification/HttpHeaders.v ===== *)
(** * Message headers of the front end (frontend/src/httpsupport.c,
    ptm/include/distinterface.h, ptm/src/share/buffer.cc)

    The [DistillerBuffer] that carries headers and data between the cache, the
    front end and the distillers, with the operations of the C++ structure,
    and the three routines that look up, delete and insert a header line in a
    block of headers.

    A block of memory is the list of its bytes, [junk] what fresh memory
    holds; [malloc] does not fail and the offsets within a block are below
    2^31 (the code targets 32-bit machines), so that they need no wrapping.
    [snprintf] is the C99 function. *)

From S2P Require Import Prelude CString Icp.
Open Scope Z_scope.

(** ** Library functions *)

(** [memmove] within a block; the count is a [size_t], so that a negative
    difference is a huge count. *)
Definition memmove (blk : bytes) (dst src n : Z) : outcome bytes :=
  if (0 <=? n) && (0 <=? src) && (0 <=? dst) && (src + n <=? Z.of_nat (length blk)) && (dst + n <=? Z.of_nat (length blk))
  then Ret (take (Z.to_nat dst) blk ++ take (Z.to_nat n) (drop (Z.to_nat src) blk) ++ drop (Z.to_nat (dst + n)) blk)
  else Crash.

(** The bytes [s] stored at offset [off]. *)
Definition store (blk : bytes) (off : Z) (s : bytes) : outcome bytes :=
  if (0 <=? off) && (off + Z.of_nat (length s) <=? Z.of_nat (length blk))
  then Ret (take (Z.to_nat off) blk ++ s ++ drop (Z.to_nat off + length s) blk) else Crash.

(** [snprintf(blk + off, n, ...)], [text] being the formatted text: the block
    and the value returned. *)
Definition snprintf (blk : bytes) (off n : Z) (text : bytes) : outcome (bytes * Z) :=
  if n =? 0 then Ret (blk, Z.of_nat (length text))
  else blk ← store blk off (take (Z.to_nat (n - 1)) text ++ [0]); Ret (blk, Z.of_nat (length text)).

(** ** [DistillerBuffer] *)
Record DistillerBuffer := Buffer {
  data : option bytes;        (* the block [data] points to *)
  blength : Z;
  maxLength : Z;
  freeMe : bool;
}.

Definition buf0 : DistillerBuffer := Buffer None 0 0 false.

Section Buffers.
(** What fresh memory holds. *)
Variable junk : nat → byte.

Definition malloc (size : Z) : bytes := junk <$> seq 0 (Z.to_nat size).

Definition StaticBuffer (data_ : option bytes) (len : Z) (b : DistillerBuffer) : DistillerBuffer :=
  Buffer data_ (u32 len) (u32 len) false.

Definition StringBuffer (str : option bytes) (len : Z) (b : DistillerBuffer) : outcome DistillerBuffer :=
  match str with
  | None => Crash
  | Some blk => blk ← wr blk len 0; Ret (Buffer (Some blk) (u32 len) (u32 (1 + len)) false)
  end.

Definition Free (b : DistillerBuffer) : DistillerBuffer :=
  Buffer None 0 0 (match data b with Some _ => false | None => freeMe b end).

Definition SetLength (length_ : Z) (b : DistillerBuffer) : outcome DistillerBuffer :=
  if length_ <=? maxLength b then Ret (Buffer (data b) length_ (maxLength b) (freeMe b)) else Crash.

Definition Alloc (size : Z) (b : DistillerBuffer) : DistillerBuffer :=
  Buffer (Some (malloc size)) (u32 size) (u32 size) true.

Definition Realloc (size : Z) (b : DistillerBuffer) : DistillerBuffer :=
  if maxLength b <? size then
    match data b with
    | Some blk => Buffer (Some (realloc junk blk size)) (blength b) (u32 size) (freeMe b)
    | None => Buffer (Some (replicate (Z.to_nat size) 0)) 0 (u32 size) true
    end
  else b.

(** [memcpy(dst->data, data, maxLength)] reads the whole source block. *)
Definition Clone (src : DistillerBuffer) : outcome DistillerBuffer :=
  if maxLength src =? 0 then Ret (Buffer (Some []) (blength src) 0 (freeMe src))
  else
    match data src with
    | None => Crash
    | Some blk =>
        if Z.of_nat (length blk) <? maxLength src then Crash
        else Ret (Buffer (Some (take (Z.to_nat (maxLength src)) blk)) (blength src) (maxLength src) (freeMe src))
    end.

(** The C string that [data] points to. *)
Definition buf_str (b : DistillerBuffer) : outcome bytes :=
  match data b with
  | None => Crash
  | Some blk => match cstr_at blk 0 with Some s => Ret s | None => Crash end
  end.

(** ** [get_header_value]

    What the function stores through its pointer arguments; [None] where it
    stores nothing.  [*hdr] is an offset in the headers. *)
Record hdr_out := HdrOut { o_len : option Z; o_hdr : option nat; o_totallen : option Z }.

(** The result is the offset of the value in the headers. *)
Definition get_header_value (buf : DistillerBuffer) (which : bytes) : outcome (option nat * hdr_out) :=
  if blength buf =? 0 then Ret (None, HdrOut None None None)
  else
    str ← buf_str buf;
    match strcasestr str which with
    | None => Ret (None, HdrOut (Some 0) None (Some 0))
    | Some i =>
        let tmp := (i + length which)%nat in
        if negb (head_byte (drop tmp str) =? 58) then Ret (None, HdrOut (Some 0) (Some i) (Some 0))
        else
          let tmp := S tmp in
          let ndx := strspn (drop tmp str) [32; 9] in
          if decide (length (drop tmp str) <= ndx)%nat then Ret (None, HdrOut (Some 0) (Some i) (Some 0))
          else
            let tmp := (tmp + ndx)%nat in
            Ret (Some tmp, HdrOut (Some (Z.of_nat (strcspn (drop tmp str) [13; 10]))) (Some i) (Some (Z.of_nat (tmp - i))))
    end.

(** ** [delete_header] *)
Definition delete_header (str : bytes) (buf : DistillerBuffer) : outcome (Z * DistillerBuffer) :=
  '(dummy, o) ← get_header_value buf str;
  match dummy, data buf, o with
  | None, _, _ => Ret (0, buf)
  | Some _, Some hdrs, HdrOut (Some x) (Some line) (Some len) =>
      let totallen := len + x + 2 in
      hdrs ← memmove hdrs (Z.of_nat line) (Z.of_nat line + totallen) (blength buf - (Z.of_nat line + totallen));
      let finallen := blength buf - totallen in
      hdrs ← wr hdrs finallen 0;
      buf ← SetLength (u32 finallen) (Buffer (Some hdrs) (blength buf) (maxLength buf) (freeMe buf));
      Ret (1, buf)
  | _, _, _ => Crash
  end.

Definition crlf : bytes := [13; 10].
Definition dummy_hdr : bytes := bytes_of "HTTP/1.0 200 OK" ++ crlf ++ crlf.

(** The text [insert_header] prints. *)
Definition header_line (str value : bytes) : bytes := str ++ [58; 32] ++ value ++ crlf.

(** ** [insert_header] *)
Definition insert_header (str value : bytes) (replace_p : bool) (buf : DistillerBuffer) : outcome (Z * DistillerBuffer) :=
  buf ← (if replace_p then '(_, buf) ← delete_header str buf; Ret buf else Ret buf);
  let grow := i32 (Z.of_nat (length str) + Z.of_nat (length value) + 2 + 2) in
  let hdrlen := blength buf in
  let size_needed := i32 (hdrlen + grow + 2) in
  '(hdrlen, buf) ←
    (if hdrlen =? 0 then
       let hdrlen := Z.of_nat (length dummy_hdr) in
       let size_needed := i32 (size_needed + hdrlen + 1) in
       let buf := Realloc (u32 size_needed) buf in
       match data buf with
       | None => Crash
       | Some hdrs =>
           hdrs ← store hdrs 0 (dummy_hdr ++ [0]);
           Ret (hdrlen, Buffer (Some hdrs) (blength buf) (maxLength buf) (freeMe buf))
       end
     else if maxLength buf <=? u32 size_needed then Ret (hdrlen, Realloc (u32 size_needed) buf)
     else Ret (hdrlen, buf));
  match data buf with
  | None => Crash
  | Some hdrs =>
      '(hdrs, tmpstrlen) ← snprintf hdrs (hdrlen - 2) (u32 (maxLength buf - (blength buf - 3) - 1)) (header_line str value ++ crlf);
      let finallen := i32 (hdrlen - 2 + tmpstrlen) in
      hdrs ← wr hdrs finallen 0;
      buf ← SetLength (u32 finallen) (Buffer (Some hdrs) (blength buf) (maxLength buf) (freeMe buf));
      Ret (1, buf)
  end.

End Buffers.

(** ** Specification: a block of headers as a list of fields *)

(** [b] holds the text [h]: its length leaves out the NUL behind [h], and the
    buffer has room for that NUL (the invariants stated at the top of
    httpsupport.c). *)
Definition holds (b : DistillerBuffer) (h : bytes) : Prop :=
  ∃ rest, data b = Some (h ++ 0 :: rest) ∧ blength b = Z.of_nat (length h) ∧ no_nul h ∧
    Z.of_nat (length h) < maxLength b ∧ maxLength b <= Z.of_nat (length h + S (length rest)) ∧ maxLength b < 2 ^ 31.

Definition field : Type := bytes * bytes.
Definition render_fields (fs : list field) : bytes := concat ((λ f, header_line f.1 f.2) <$> fs).
Definition render (status : bytes) (fs : list field) : bytes := status ++ crlf ++ render_fields fs ++ crlf.

(** Names are compared without regard to case. *)
Definition same_name (n m : bytes) : Prop := tolower <$> n = tolower <$> m.
#[export] Instance same_name_dec n m : Decision (same_name n m).
Proof. unfold same_name. apply _. Defined.

Fixpoint lookup_field (which : bytes) (fs : list field) : option bytes :=
  match fs with
  | [] => None
  | f :: fs => if decide (same_name f.1 which) then Some f.2 else lookup_field which fs
  end.
Fixpoint remove_field (which : bytes) (fs : list field) : list field :=
  match fs with
  | [] => []
  | f :: fs => if decide (same_name f.1 which) then fs else f :: remove_field which fs
  end.

Definition occurs (t s : bytes) : Prop := ∃ j, ci_match_at s t j.
Definition blank (c : byte) : Prop := c = 32 ∨ c = 9.
Definition field_ok (f : field) : Prop :=
  no_nul f.1 ∧ no_nul f.2 ∧ (13 ∉ f.2) ∧ (10 ∉ f.2) ∧ match f.2 with [] => True | c :: _ => ¬ blank c end.
Definition name_ok (n : bytes) : Prop := n ≠ [] ∧ no_nul n ∧ (13 ∉ n) ∧ (10 ∉ n).
(** The name looked for occurs in the block only as the name of a field. *)
Definition clean (which status : bytes) (fs : list field) : Prop :=
  ¬ occurs which status ∧ Forall (λ f, same_name f.1 which ∨ ¬ occurs which (f.1 ++ [58; 32] ++ f.2)) fs.

(** ** Lemmas *)
Lemma no_nul_app a b : no_nul (a ++ b) ↔ no_nul a ∧ no_nul b.
Proof. apply Forall_app. Qed.

Lemma tolower_sep c d : c = 13 ∨ c = 10 → tolower d = c → d = c.
Proof. unfold tolower. intros Hc. destruct ((65 <=? d) && (d <=? 90)) eqn:E; [apply andb_prop in E; lia|done]. Qed.

Lemma ci_match_len s t j : t ≠ [] → ci_match_at s t j → (j + length t <= length s)%nat.
Proof.
  intros Ht Hm. apply (f_equal length) in Hm. rewrite !length_fmap, length_take, length_drop in Hm.
  destruct t; [done|]. cbn [length] in *. lia.
Qed.

Lemma ci_match_app_r a b t j : ci_match_at (a ++ b) t (length a + j) ↔ ci_match_at b t j.
Proof. unfold ci_match_at. rewrite drop_app_ge by lia. by replace (length a + j - length a)%nat with j by lia. Qed.
Lemma ci_match_app_l a b t j : (j + length t <= length a)%nat → ci_match_at (a ++ b) t j ↔ ci_match_at a t j.
Proof. intros. unfold ci_match_at. rewrite drop_app_le by lia. rewrite take_app_le; [done|]. rewrite length_drop. lia. Qed.

(** An occurrence of a name does not reach across a line end. *)
Lemma ci_match_sep a c b t j : c = 13 ∨ c = 10 → (c ∉ t) → t ≠ [] → ci_match_at (a ++ c :: b) t j →
  ci_match_at a t j ∨ ∃ k, j = (S (length a) + k)%nat ∧ ci_match_at b t k.
Proof.
  intros Hc Hn Ht Hm. destruct (decide (j + length t <= length a)%nat) as [?|Hge].
  - left. by apply (ci_match_app_l a (c :: b)).
  - right. destruct (decide (S (length a) <= j)%nat) as [Hj|Hj].
    + exists (j - S (length a))%nat. split; [lia|]. apply (ci_match_app_r (a ++ [c]) b).
      rewrite <-app_assoc. rewrite length_app. cbn [app length]. by replace (length a + 1 + (j - S (length a)))%nat with j by lia.
    + exfalso. apply Hn. unfold ci_match_at in Hm. set (k := (length a - j)%nat).
      assert (Hl : (tolower <$> take (length t) (drop j (a ++ c :: b))) !! k = Some (tolower c)).
      { rewrite list_lookup_fmap, lookup_take_lt, lookup_drop by (unfold k; lia). replace (j + k)%nat with (length a) by (unfold k; lia).
        by rewrite list_lookup_middle. }
      rewrite Hm, list_lookup_fmap in Hl. destruct (t !! k) as [d|] eqn:E; [|done]. cbn in Hl. injection Hl as Hd.
      assert (tolower c = c) as E2 by (by destruct Hc as [-> | ->]). rewrite E2 in Hd.
      apply (tolower_sep c d Hc) in Hd. subst d. by apply list_elem_of_lookup_2 in E.
Qed.

Lemma occurs_sep a c b t : c = 13 ∨ c = 10 → (c ∉ t) → t ≠ [] → occurs t (a ++ c :: b) → occurs t a ∨ occurs t b.
Proof. intros Hc Hn Ht [j Hm]. apply ci_match_sep in Hm as [?|(k&_&?)]; [left; by exists j|right; by exists k|done..]. Qed.

(** The offset [strcasestr] returns is the first one. *)
Lemma strcasestr_first s t j : no_nul s → no_nul t → t ≠ [] → ci_match_at s t j →
  (∀ j', (j' < j)%nat → ¬ ci_match_at s t j') → strcasestr s t = Some j.
Proof.
  intros Hs Ht Hne Hm Hmin. pose proof (ci_match_len s t j Hne Hm) as Hl. unfold strcasestr.
  pose proof (strcasestr_loop_spec s t 0 (Z.to_nat (Z.of_nat (length s) - Z.of_nat (length t) + 1)) Hs Ht ltac:(lia)) as H.
  destruct (strcasestr_loop _ _ _ _) as [k|].
  - destruct H as (i & -> & _ & Hi & Hmin'). cbn. f_equal. destruct (Nat.lt_trichotomy i j) as [?|[?|?]]; [by destruct (Hmin i)|done|by destruct (Hmin' j)].
  - destruct (H j); [lia|done].
Qed.

Lemma strcasestr_absent s t : no_nul s → no_nul t → t ≠ [] → ¬ occurs t s → strcasestr s t = None.
Proof.
  intros Hs Ht Hne Hno. unfold strcasestr.
  pose proof (strcasestr_loop_spec s t 0 (Z.to_nat (Z.of_nat (length s) - Z.of_nat (length t) + 1)) Hs Ht ltac:(lia)) as H.
  destruct (strcasestr_loop _ _ _ _) as [k|]; [|done]. destruct H as (i & -> & _ & Hi & _). destruct Hno. by exists i.
Qed.

(** Behind text in which the name does not occur, the search goes on. *)
Lemma strcasestr_skip a c b t : c = 13 ∨ c = 10 → (c ∉ t) → t ≠ [] → no_nul (a ++ c :: b) → no_nul t → ¬ occurs t a →
  strcasestr (a ++ c :: b) t = (λ k, S (length a) + k)%nat <$> strcasestr b t.
Proof.
  intros Hc Hn Hne Hs Ht Hno.
  assert (no_nul b) as Hb by (apply no_nul_app in Hs as [_ Hs]; by inversion Hs).
  destruct (strcasestr b t) as [k|] eqn:E.
  - unfold strcasestr in E.
    pose proof (strcasestr_loop_spec b t 0 (Z.to_nat (Z.of_nat (length b) - Z.of_nat (length t) + 1)) Hb Ht ltac:(lia)) as H.
    rewrite E in H. destruct H as (i & -> & _ & Hi & Hmin). cbn [fmap option_fmap option_map]. apply strcasestr_first; try done.
    + replace (a ++ c :: b) with ((a ++ [c]) ++ b) by (by rewrite <-app_assoc).
      replace (S (length a) + (0 + i))%nat with (length (a ++ [c]) + i)%nat by (rewrite length_app; cbn; lia). by apply ci_match_app_r.
    + intros j' Hj' Hm. apply ci_match_sep in Hm as [Hm|(k&->&Hm)]; [|apply (Hmin k); [lia|done]|done..]. apply Hno. by exists j'.
  - cbn. apply strcasestr_absent; try done. intros Hoc. apply occurs_sep in Hoc as [?|[k Hk]]; [done| |done..].
    unfold strcasestr in E.
    pose proof (strcasestr_loop_spec b t 0 (Z.to_nat (Z.of_nat (length b) - Z.of_nat (length t) + 1)) Hb Ht ltac:(lia)) as H.
    rewrite E in H. pose proof (ci_match_len b t k Hne Hk). by apply (H k); [lia|].
Qed.

Lemma not_occurs_nil t : t ≠ [] → ¬ occurs t [].
Proof. intros Ht [j Hm]. apply ci_match_len in Hm; [|done]. destruct t; [done|cbn in *; lia]. Qed.

(** A search passes a whole line, or the empty one. *)
Lemma strcasestr_line a b t : name_ok t → no_nul a → no_nul b → ¬ occurs t a →
  strcasestr (a ++ crlf ++ b) t = (λ k, length (a ++ crlf) + k)%nat <$> strcasestr b t.
Proof.
  intros (Hne&Ht&H13&H10) Ha Hb Hno. change (a ++ crlf ++ b) with (a ++ 13 :: ([] ++ 10 :: b)).
  assert (no_nul ([] ++ 10 :: b)) as Hb' by (constructor; [lia|done]).
  assert (no_nul (a ++ 13 :: ([] ++ 10 :: b))) as Hab by (apply no_nul_app; split; [done|constructor; [lia|done]]).
  rewrite (strcasestr_skip a 13 _ t (or_introl eq_refl) H13 Hne Hab Ht Hno).
  rewrite (strcasestr_skip [] 10 _ t (or_intror eq_refl) H10 Hne Hb' Ht (not_occurs_nil t Hne)).
  rewrite <-option_fmap_compose. apply option_fmap_ext. intros k. unfold compose. rewrite length_app. cbn [length crlf]. lia.
Qed.

Lemma no_nul_line f : field_ok f → no_nul (f.1 ++ [58; 32] ++ f.2).
Proof. intros (?&?&_). apply no_nul_app. split; [done|]. apply no_nul_app. split; [repeat constructor; lia|done]. Qed.

Lemma no_nul_fields fs : Forall field_ok fs → no_nul (render_fields fs).
Proof.
  intros H. apply Forall_concat. apply Forall_fmap. eapply Forall_impl; [exact H|]. intros f Hf. unfold compose, header_line.
  pose proof (no_nul_line f Hf) as Hl. rewrite app_assoc, app_assoc. apply no_nul_app. rewrite <-app_assoc. split; [done|]. repeat constructor; lia.
Qed.

Lemma render_fields_cons f fs : render_fields (f :: fs) = (f.1 ++ [58; 32] ++ f.2) ++ crlf ++ render_fields fs.
Proof. unfold render_fields, header_line. cbn. app_norm. Qed.
Lemma render_fields_app fs gs : render_fields (fs ++ gs) = render_fields fs ++ render_fields gs.
Proof. unfold render_fields. by rewrite fmap_app, concat_app. Qed.

(** Where the search for a name ends. *)
Lemma search_fields which fs : name_ok which → Forall field_ok fs →
  Forall (λ f, same_name f.1 which ∨ ¬ occurs which (f.1 ++ [58; 32] ++ f.2)) fs →
  (lookup_field which fs = None ∧ remove_field which fs = fs ∧ strcasestr (render_fields fs ++ crlf) which = None) ∨
  ∃ fs1 f fs2, fs = fs1 ++ f :: fs2 ∧ same_name f.1 which ∧ lookup_field which fs = Some f.2 ∧
    remove_field which fs = fs1 ++ fs2 ∧ strcasestr (render_fields fs ++ crlf) which = Some (length (render_fields fs1)).
Proof.
  intros Hw. induction 1 as [|f fs Hf Hfs IH]; intros Hc.
  - left. split_and!; [done..|]. change (render_fields [] ++ crlf) with ([] ++ crlf ++ []).
    rewrite strcasestr_line by (try done; try constructor; apply not_occurs_nil, Hw).
    destruct Hw as (?&?&_). rewrite strcasestr_absent; [done|constructor|done|done|by apply not_occurs_nil].
  - inversion_clear Hc as [|?? Hf1 Hc']. specialize (IH Hc'). cbn [lookup_field remove_field].
    pose proof (no_nul_line f Hf) as Hl. pose proof (no_nul_fields fs Hfs) as Hr.
    assert (no_nul (render_fields fs ++ crlf)) as Hr' by (apply no_nul_app; split; [done|repeat constructor; lia]).
    replace (render_fields (f :: fs) ++ crlf) with ((f.1 ++ [58; 32] ++ f.2) ++ crlf ++ render_fields fs ++ crlf)
      by (rewrite render_fields_cons; app_norm).
    destruct (decide (same_name f.1 which)) as [Hs|Hs].
    + right. exists [], f, fs. split_and!; try done. cbn [render_fields fmap list_fmap concat length].
      destruct Hw as (?&?&_). apply strcasestr_first; [|done|done| |intros; lia].
      * apply no_nul_app. split; [done|]. apply no_nul_app. split; [repeat constructor; lia|done].
      * unfold same_name in Hs. pose proof (f_equal length Hs) as Hlen. rewrite !length_fmap in Hlen.
        unfold ci_match_at. rewrite drop_0, <-Hlen, <-app_assoc, take_app_length. exact Hs.
    + destruct Hf1 as [?|Hno]; [done|]. rewrite strcasestr_line by done.
      destruct IH as [(El&Er&Es)|(fs1&g&fs2&->&Hg&El&Er&Es)].
      * left. split_and!; [done|by rewrite Er|by rewrite Es].
      * right. exists (f :: fs1), g, fs2. split_and!; [done|done|done|by rewrite Er|]. rewrite Es. cbn [fmap option_fmap option_map].
        f_equal. rewrite render_fields_cons. rewrite !length_app. lia.
Qed.

(** *** Buffers *)
Lemma holds_str b h : holds b h → buf_str b = Ret h.
Proof.
  intros (rest&Hd&_&Hn&_). unfold buf_str. rewrite Hd. pose proof (cstr_at_app [] h rest Hn) as E. cbn [app length] in E. by rewrite E.
Qed.

Lemma get_header_at b p n v q which : holds b (p ++ n ++ [58; 32] ++ v ++ crlf ++ q) → length n = length which →
  field_ok (n, v) → strcasestr (p ++ n ++ [58; 32] ++ v ++ crlf ++ q) which = Some (length p) →
  get_header_value b which =
  Ret (Some (length p + length n + 2)%nat, HdrOut (Some (Z.of_nat (length v))) (Some (length p)) (Some (Z.of_nat (length n + 2)))).
Proof.
  intros Hh Hlen (_&_&H13&H10&Hb) Hf. cbn [fst snd] in *. unfold get_header_value.
  pose proof Hh as (rest&_&Hbl&_&_). rewrite Hbl.
  destruct (Z.eqb_spec (Z.of_nat (length (p ++ n ++ [58; 32] ++ v ++ crlf ++ q))) 0) as [E|_]; [len_norm_in E; lia|].
  rewrite (holds_str _ _ Hh). cbn [mbind outcome_mbind]. rewrite Hf, <-Hlen. clear Hf Hh Hbl.
  replace (p ++ n ++ [58; 32] ++ v ++ crlf ++ q) with ((p ++ n) ++ 58 :: 32 :: v ++ crlf ++ q) by app_norm.
  assert (length p + length n = length (p ++ n))%nat as Epn by len_lia. rewrite Epn.
  rewrite drop_app_length. cbn [head_byte]. rewrite Z.eqb_refl. cbn [negb].
  assert (drop (S (length (p ++ n))) ((p ++ n) ++ 58 :: 32 :: v ++ crlf ++ q) = 32 :: v ++ crlf ++ q) as Ed1.
  { rewrite drop_app_ge by lia. by replace (S (length (p ++ n)) - length (p ++ n))%nat with 1%nat by lia. }
  rewrite Ed1.
  assert (strspn (32 :: v ++ crlf ++ q) [32; 9] = 1%nat) as Es.
  { unfold strspn. cbn [span_in]. change (is_in [32; 9] 32) with true. destruct v as [|c v]; [done|]. cbn [app span_in].
    destruct (is_in [32; 9] c) eqn:E; [|done]. exfalso. apply Hb. unfold is_in in E. cbn in E. unfold blank. lia. }
  rewrite Es. rewrite decide_False by (cbn [length]; len_norm; cbn; lia).
  assert (drop (S (length (p ++ n)) + 1) ((p ++ n) ++ 58 :: 32 :: v ++ crlf ++ q) = v ++ crlf ++ q) as Ed2.
  { rewrite <-drop_drop, Ed1. done. }
  rewrite Ed2.
  assert (strcspn (v ++ crlf ++ q) [13; 10] = length v) as Ec.
  { unfold strcspn. rewrite span_in_app.
    assert (forallb (λ c, negb (is_in [13; 10] c)) v = true) as ->; [|cbn [span_in app crlf]; change (is_in [13; 10] 13) with true; cbn; lia].
    apply forallb_forall. intros c Hc%list_elem_of_In. unfold is_in. cbn.
    destruct (Z.eqb_spec c 13) as [->|?]; [by destruct H13|]. by destruct (Z.eqb_spec c 10) as [->|?]; [destruct H10|]. }
  rewrite Ec, <-Epn. replace (S (length p + length n) + 1)%nat with (length p + length n + 2)%nat by lia.
  by replace (length p + length n + 2 - length p)%nat with (length n + 2)%nat by lia.
Qed.

Lemma get_header_none b h which : holds b h → strcasestr h which = None → ∃ o, get_header_value b which = Ret (None, o).
Proof.
  intros Hh Hf. unfold get_header_value. destruct (_ =? 0); [by eexists|]. rewrite (holds_str _ _ Hh). cbn [mbind outcome_mbind]. rewrite Hf. by eexists.
Qed.

Lemma SetLength_ok n b : n <= maxLength b → SetLength n b = Ret (Buffer (data b) n (maxLength b) (freeMe b)).
Proof. intros H. unfold SetLength. by rewrite (proj2 (Z.leb_le _ _) H). Qed.

Lemma wr_mid a c q i x : i = Z.of_nat (length a) → wr (a ++ c :: q) i x = Ret (a ++ x :: q).
Proof. intros ->. apply wr_app. Qed.

Lemma delete_header_at b p n v q which : holds b (p ++ n ++ [58; 32] ++ v ++ crlf ++ q) → length n = length which →
  field_ok (n, v) → strcasestr (p ++ n ++ [58; 32] ++ v ++ crlf ++ q) which = Some (length p) →
  ∃ b', delete_header which b = Ret (1, b') ∧ holds b' (p ++ q) ∧ maxLength b' = maxLength b.
Proof.
  intros Hh Hlen Hok Hf. pose proof (get_header_at b p n v q which Hh Hlen Hok Hf) as Hg.
  destruct Hh as (rest&Hd&Hbl&Hn&Hm1&Hm2&Hm3).
  unfold delete_header. rewrite Hg. cbn [mbind outcome_mbind]. rewrite Hd, Hbl.
  set (mid := n ++ [58; 32] ++ v ++ crlf).
  assert (p ++ n ++ [58; 32] ++ v ++ crlf ++ q = p ++ mid ++ q) as Eh by (unfold mid; app_norm). rewrite Eh in *.
  assert (Z.of_nat (length n + 2) + Z.of_nat (length v) + 2 = Z.of_nat (length mid)) as El by (unfold mid, crlf; len_norm; cbn; lia).
  rewrite El. replace (Z.of_nat (length (p ++ mid ++ q)) - (Z.of_nat (length p) + Z.of_nat (length mid))) with (Z.of_nat (length q)) by len_lia.
  len_norm_in Hm1. len_norm_in Hm2.
  assert (∃ x r, memmove ((p ++ mid ++ q) ++ 0 :: rest) (Z.of_nat (length p)) (Z.of_nat (length p) + Z.of_nat (length mid)) (Z.of_nat (length q))
    = Ret ((p ++ q) ++ x :: r) ∧ (length r = length mid + length rest)%nat) as (x&r&Hmv&Hr).
  { unfold memmove. rewrite (proj2 (Z.leb_le 0 _)), (proj2 (Z.leb_le 0 _)), (proj2 (Z.leb_le 0 _)) by lia.
    rewrite (proj2 (Z.leb_le _ _)), (proj2 (Z.leb_le _ _)) by (len_norm; lia). cbn [andb].
    rewrite <-!Nat2Z.inj_add, !Nat2Z.id. rewrite <-app_assoc, take_app_length.
    assert (drop (length p + length mid) (p ++ (mid ++ q) ++ 0 :: rest) = q ++ 0 :: rest) as ->.
    { rewrite drop_app_ge by lia. replace (length p + length mid - length p)%nat with (length mid) by lia. rewrite <-app_assoc. apply drop_app_length. }
    rewrite take_app_length.
    destruct (drop (length p + length q) (p ++ (mid ++ q) ++ 0 :: rest)) as [|x r] eqn:Edr.
    - apply (f_equal length) in Edr. rewrite length_drop in Edr. len_norm_in Edr. lia.
    - exists x, r. split; [f_equal; app_norm|]. apply (f_equal length) in Edr. rewrite length_drop in Edr. len_norm_in Edr. cbn [length] in Edr. lia. }
  rewrite Hmv. cbn [mbind outcome_mbind].
  rewrite (wr_mid (p ++ q) x r) by (len_norm; lia). cbn [mbind outcome_mbind].
  replace (Z.of_nat (length (p ++ mid ++ q)) - Z.of_nat (length mid)) with (Z.of_nat (length (p ++ q))) by len_lia.
  rewrite wrap_small by (len_norm; lia). rewrite SetLength_ok by (cbn; len_norm; lia). cbn.
  eexists. split; [done|]. split; [|done]. exists r. cbn. split_and!; try done; [|len_norm; lia..].
  rewrite !no_nul_app in *. tauto.
Qed.

Lemma realloc_prefix junk p r n : Z.of_nat (length p) <= n →
  ∃ r', realloc junk (p ++ r) n = p ++ r' ∧ Z.of_nat (length p + length r') = n.
Proof.
  intros Hn. unfold realloc. rewrite take_app_ge by lia.
  exists (take (Z.to_nat n - length p) r ++ (junk <$> seq (length (p ++ r)) (Z.to_nat n - length (p ++ r)))).
  split; [app_norm|]. len_norm. rewrite length_fmap, length_seq, length_take. lia.
Qed.

Lemma store_ok a m q i s : i = Z.of_nat (length a) → length s = length m → store (a ++ m ++ q) i s = Ret (a ++ s ++ q).
Proof.
  intros -> Hl. unfold store. rewrite (proj2 (Z.leb_le 0 _)) by lia. rewrite (proj2 (Z.leb_le _ _)) by (len_norm; lia). cbn [andb].
  rewrite Nat2Z.id, take_app_length. do 2 f_equal. f_equal. rewrite drop_app_ge by lia.
  replace (length a + length s - length a)%nat with (length m) by lia. apply drop_app_length.
Qed.

Lemma i32_small z : 0 <= z < 2 ^ 31 → i32 z = z.
Proof. intros H. unfold swrap. rewrite Z.mod_small; lia. Qed.

(** Printing a header over the blank line at the end of the block. *)
Lemma print_header h r blk mx fr str value lenf : blk = h ++ crlf ++ r →
  no_nul h → no_nul str → no_nul value →
  Z.of_nat (length (h ++ header_line str value ++ crlf)) < mx → mx <= Z.of_nat (length blk) → mx < 2 ^ 31 →
  (0 <= lenf <= Z.of_nat (length h) + 2) →
  ∃ b', (let hdrlen := Z.of_nat (length h) + 2 in
   '(hdrs, tmpstrlen) ← snprintf blk (hdrlen - 2) (u32 (mx - (lenf - 3) - 1)) (header_line str value ++ crlf);
   let finallen := i32 (hdrlen - 2 + tmpstrlen) in
   hdrs ← wr hdrs finallen 0;
   buf ← SetLength (u32 finallen) (Buffer (Some hdrs) lenf mx fr);
   Ret (1, buf)) = Ret (1, b') ∧ holds b' (h ++ header_line str value ++ crlf).
Proof.
  intros -> Hh Hs Hv Hlt Hle Hmx Hlf. cbn zeta. set (text := header_line str value ++ crlf) in *.
  len_norm_in Hlt. replace (Z.of_nat (length h) + 2 - 2) with (Z.of_nat (length h)) by lia.
  len_norm_in Hle. cbn [length crlf] in Hle.
  assert (∃ m q, crlf ++ r = m ++ q ∧ length m = S (length text)) as (m&q&Em&Elm).
  { exists (take (S (length text)) (crlf ++ r)), (drop (S (length text)) (crlf ++ r)). split; [by rewrite take_drop|].
    rewrite length_take. len_norm. cbn [length crlf]. lia. }
  unfold snprintf. rewrite wrap_small by lia. destruct (Z.eqb_spec (mx - (lenf - 3) - 1) 0) as [|_]; [lia|].
  rewrite take_ge by (zify; lia). rewrite Em, (store_ok h m q) by (try done; len_norm; cbn [length]; lia). cbn [mbind outcome_mbind].
  rewrite i32_small by lia.
  replace (h ++ (text ++ [0]) ++ q) with ((h ++ text) ++ 0 :: q) by app_norm.
  rewrite (wr_mid (h ++ text) 0 q) by (len_norm; lia). cbn [mbind outcome_mbind]. rewrite wrap_small by lia.
  rewrite SetLength_ok by (cbn [maxLength]; lia). cbn. eexists. split; [done|]. exists q. cbn. split_and!.
  - done.
  - len_norm. lia.
  - unfold text, header_line, crlf. rewrite !no_nul_app. split_and!; try done; repeat constructor; lia.
  - len_norm. lia.
  - len_norm. apply (f_equal length) in Em. len_norm_in Em. cbn [length crlf] in Em. lia.
  - lia.
Qed.

(** The sizes of a request fit an [int]. *)
Definition fits (n : Z) : Prop := n < 2 ^ 31 - 64.

Lemma insert_at junk b h str value : holds b (h ++ crlf) → no_nul str → no_nul value →
  fits (Z.of_nat (length h) + Z.of_nat (length str) + Z.of_nat (length value)) →
  ∃ b', insert_header junk str value false b = Ret (1, b') ∧ holds b' (h ++ header_line str value ++ crlf).
Proof.
  unfold fits. intros (rest&Hd&Hbl&Hn&Hm1&Hm2&Hm3) Hs Hv Hf. unfold insert_header. cbn [mbind outcome_mbind].
  len_norm_in Hbl. len_norm_in Hm1. len_norm_in Hm2. cbn [length crlf] in *. apply no_nul_app in Hn as [Hn _].
  rewrite (i32_small (Z.of_nat (length str) + _ + 2 + 2)) by lia. rewrite (i32_small (blength b + _ + 2)) by lia. rewrite Hbl.
  destruct (Z.eqb_spec (Z.of_nat (length h + 2)) 0) as [|_]; [lia|]. rewrite wrap_small by lia.
  replace (Z.of_nat (length h + 2)) with (Z.of_nat (length h) + 2) by lia.
  set (need := Z.of_nat (length h) + 2 + (Z.of_nat (length str) + Z.of_nat (length value) + 2 + 2) + 2).
  assert (Z.of_nat (length (h ++ header_line str value ++ crlf)) = need - 2) as En by (unfold need, header_line, crlf; len_norm; cbn [length]; lia).
  rewrite <-app_assoc in Hd.
  destruct (Z.leb_spec (maxLength b) need) as [Hg|Hg]; cbn [mbind outcome_mbind].
  - unfold Realloc. destruct (Z.ltb_spec (maxLength b) need) as [Hg'|Hg'].
    + rewrite Hd. cbn [data]. destruct (realloc_prefix junk (h ++ crlf) (0 :: rest) need) as (r'&Er&Elr).
      { len_norm. cbn [length crlf]. lia. }
      rewrite <-!app_assoc in Er. cbn [app] in Er. rewrite Er. cbn [maxLength blength freeMe]. rewrite wrap_small by lia. rewrite Hbl.
      len_norm_in Elr. cbn [length crlf] in Elr.
      apply (print_header h r' _ need); first [done|rewrite En; lia|len_norm; cbn [length crlf]; lia].
    + rewrite Hd. rewrite Hbl. apply (print_header h (0 :: rest)); first [done|rewrite En; lia|len_norm; cbn [length crlf]; lia].
  - rewrite Hd. rewrite Hbl. apply (print_header h (0 :: rest)); first [done|rewrite En; lia|len_norm; cbn [length crlf]; lia].
Qed.

(** On an empty buffer a dummy status line comes first. *)
Lemma insert_empty junk b str value : blength b = 0 → 0 <= maxLength b < 2 ^ 31 → (∀ blk, data b = Some blk → maxLength b <= Z.of_nat (length blk)) →
  (data b = None → maxLength b = 0) →
  no_nul str → no_nul value → fits (Z.of_nat (length str) + Z.of_nat (length value)) →
  ∃ b', insert_header junk str value false b = Ret (1, b') ∧ holds b' (bytes_of "HTTP/1.0 200 OK" ++ crlf ++ header_line str value ++ crlf).
Proof.
  unfold fits. intros Hb0 Hm Hblk Hnone Hs Hv Hf. unfold insert_header. cbn [mbind outcome_mbind]. rewrite Hb0.
  rewrite (i32_small (Z.of_nat (length str) + _ + 2 + 2)) by lia. rewrite (i32_small (0 + _ + 2)) by lia.
  change (0 =? 0) with true. cbn [mbind outcome_mbind]. change (Z.of_nat (length dummy_hdr)) with 19.
  rewrite (i32_small (_ + 19 + 1)) by lia. rewrite wrap_small by lia.
  set (need := 0 + (Z.of_nat (length str) + Z.of_nat (length value) + 2 + 2) + 2 + 19 + 1).
  set (h := bytes_of "HTTP/1.0 200 OK" ++ crlf).
  assert (∃ blk mx, data (Realloc junk need b) = Some blk ∧ maxLength (Realloc junk need b) = mx ∧ blength (Realloc junk need b) = 0 ∧
    need <= mx < 2 ^ 31 ∧ mx <= Z.of_nat (length blk)) as (blk&mx&Eb&Em&El&Hmx&Hle).
  { unfold Realloc. destruct (Z.ltb_spec (maxLength b) need) as [Hg|Hg].
    - destruct (data b) as [blk|] eqn:E; cbn.
      + exists (realloc junk blk need), need. rewrite wrap_small by lia. split_and!; try done; try lia.
        destruct (realloc_prefix junk [] blk need) as (r'&Er&Elr); [cbn; lia|]. cbn [app] in Er. rewrite Er. cbn [length] in Elr. lia.
      + exists (replicate (Z.to_nat need) 0), need. rewrite wrap_small, length_replicate by lia. split_and!; try done; lia.
    - destruct (data b) as [blk|] eqn:E; [|specialize (Hnone eq_refl); lia]. exists blk, (maxLength b). specialize (Hblk _ eq_refl). split_and!; try done; lia. }
  rewrite Eb. assert (∃ r, store blk 0 (dummy_hdr ++ [0]) = Ret (h ++ crlf ++ 0 :: r) ∧ length (h ++ crlf ++ 0 :: r) = length blk) as (r&Est&Elb).
  { exists (drop 20 blk). split.
    - transitivity (store ([] ++ take 20 blk ++ drop 20 blk) 0 (dummy_hdr ++ [0])); [cbn [app]; by rewrite take_drop|].
      rewrite (store_ok [] (take 20 blk)); [done|done|]. rewrite length_take_le by lia. done.
    - unfold h, crlf. len_norm. rewrite length_drop. cbn [length bytes_of]. lia. }
  rewrite Est. cbn [mbind outcome_mbind data maxLength blength freeMe]. rewrite Em, El.
  destruct (print_header h (0 :: r) (h ++ crlf ++ 0 :: r) mx (freeMe (Realloc junk need b)) str value 0) as (b'&E&Hb'); try done.
  - unfold no_nul, h, crlf. apply (bool_decide_unpack _). vm_compute. done.
  - unfold h, header_line, crlf. len_norm. cbn [length bytes_of]. lia.
  - rewrite Elb. lia.
  - lia.
  - exists b'. split; [exact E|]. unfold h in Hb'. by rewrite <-app_assoc in Hb'.
Qed.

(** The field found, at its place in the block. *)
Lemma search_render which status fs : name_ok which → no_nul status → Forall field_ok fs → clean which status fs →
  (lookup_field which fs = None ∧ remove_field which fs = fs ∧ strcasestr (render status fs) which = None) ∨
  ∃ fs1 f fs2, fs = fs1 ++ f :: fs2 ∧ length f.1 = length which ∧ lookup_field which fs = Some f.2 ∧ remove_field which fs = fs1 ++ fs2 ∧
    render status fs = (status ++ crlf ++ render_fields fs1) ++ f.1 ++ [58; 32] ++ f.2 ++ crlf ++ render_fields fs2 ++ crlf ∧
    strcasestr (render status fs) which = Some (length (status ++ crlf ++ render_fields fs1)).
Proof.
  intros Hw Hs Hf [Hc1 Hc2]. pose proof (no_nul_fields fs Hf) as Hn.
  assert (no_nul (render_fields fs ++ crlf)) as Hn' by (apply no_nul_app; split; [done|repeat constructor; lia]).
  assert (strcasestr (render status fs) which = (λ k, length (status ++ crlf) + k)%nat <$> strcasestr (render_fields fs ++ crlf) which) as E
    by (by apply strcasestr_line).
  destruct (search_fields which fs Hw Hf Hc2) as [(El&Er&Es)|(fs1&f&fs2&->&Hn1&El&Er&Es)].
  - left. split_and!; try done. by rewrite E, Es.
  - right. exists fs1, f, fs2. split_and!; try done.
    + unfold same_name in Hn1. apply (f_equal length) in Hn1. by rewrite !length_fmap in Hn1.
    + unfold render. rewrite render_fields_app, render_fields_cons. app_norm.
    + rewrite E, Es. cbn [fmap option_fmap option_map]. f_equal. len_norm. lia.
Qed.

Lemma delete_render b which status fs : holds b (render status fs) → name_ok which → Forall field_ok fs → no_nul status → clean which status fs →
  ∃ r b', delete_header which b = Ret (r, b') ∧ holds b' (render status (remove_field which fs)) ∧ (r = 0 ↔ lookup_field which fs = None).
Proof.
  intros Hh Hw Hf Hs Hc. destruct (search_render which status fs Hw Hs Hf Hc) as [(El&Er&Es)|(fs1&f&fs2&E&Hlen&El&Er&Eh&Es)].
  - destruct (get_header_none b _ which Hh Es) as [o Ho]. exists 0, b. unfold delete_header. rewrite Ho, Er. cbn. done.
  - rewrite Eh in Hh, Es. assert (field_ok (f.1, f.2)) as Hok.
    { rewrite E in Hf. apply Forall_app in Hf as [_ Hf]. inversion Hf. by destruct f. }
    destruct (delete_header_at b _ _ _ _ which Hh Hlen Hok Es) as (b'&Ed&Hb'&_).
    exists 1, b'. rewrite Ed, Er, El. split_and!; [done| |split; [lia|done]].
    unfold render. rewrite render_fields_app. rewrite <-!app_assoc in Hb'. by rewrite <-!app_assoc.
Qed.

Lemma remove_field_sub which fs : Forall field_ok fs → Forall field_ok (remove_field which fs).
Proof. induction 1; cbn; [constructor|]. destruct (decide _); [done|by constructor]. Qed.
Lemma remove_field_length which status fs : (length (render status (remove_field which fs)) <= length (render status fs))%nat.
Proof.
  unfold render. induction fs as [|f fs IH]; [done|]. cbn [remove_field]. destruct (decide _).
  - rewrite render_fields_cons. len_norm. lia.
  - rewrite !render_fields_cons. len_norm_in IH. len_norm. lia.
Qed.

Lemma take_field (p n v q : bytes) : take (length v) (drop (length p + length n + 2) (p ++ n ++ [58; 32] ++ v ++ q)) = v.
Proof.
  replace (p ++ n ++ [58; 32] ++ v ++ q) with ((p ++ n ++ [58; 32]) ++ v ++ q) by app_norm.
  rewrite drop_app_ge by len_lia. replace (_ - _)%nat with O by (len_norm; cbn [length]; lia). rewrite drop_0. apply take_app_length.
Qed.

Lemma get_render b which status fs : holds b (render status fs) → name_ok which → Forall field_ok fs → no_nul status → clean which status fs →
  ∃ r o, get_header_value b which = Ret (r, o) ∧
    match lookup_field which fs with
    | None => r = None
    | Some v => ∃ off, r = Some off ∧ o_len o = Some (Z.of_nat (length v)) ∧ take (length v) (drop off (render status fs)) = v
    end.
Proof.
  intros Hh Hw Hf Hs Hc. destruct (search_render which status fs Hw Hs Hf Hc) as [(El&Er&Es)|(fs1&f&fs2&E&Hlen&El&Er&Eh&Es)].
  - destruct (get_header_none b _ which Hh Es) as [o Ho]. exists None, o. by rewrite El.
  - rewrite Eh in Hh, Es. assert (field_ok (f.1, f.2)) as Hok.
    { rewrite E in Hf. apply Forall_app in Hf as [_ Hf]. inversion Hf. by destruct f. }
    rewrite (get_header_at b _ _ _ _ which Hh Hlen Hok Es), El. eexists _, _. split; [done|].
    eexists. split; [done|]. split; [done|]. rewrite Eh. apply take_field.
Qed.

Lemma insert_render junk b which status fs value (replace_p : bool) : holds b (render status fs) → name_ok which → Forall field_ok fs →
  no_nul status → clean which status fs → no_nul value →
  fits (Z.of_nat (length (render status fs)) + Z.of_nat (length which) + Z.of_nat (length value)) →
  ∃ b', insert_header junk which value replace_p b = Ret (1, b') ∧
    holds b' (render status ((if replace_p then remove_field which fs else fs) ++ [(which, value)])).
Proof.
  intros Hh Hw Hf Hs Hc Hv Hfit.
  assert (∃ fs' b1, (if replace_p then '(_, buf) ← delete_header which b; Ret buf else Ret b) = Ret b1 ∧
    holds b1 (render status fs') ∧ fs' = (if replace_p then remove_field which fs else fs)) as (fs'&b1&E1&Hb1&Efs).
  { destruct replace_p; [|by exists fs, b]. destruct (delete_render b which status fs) as (r&b'&E&Hb'&_); try done.
    exists (remove_field which fs), b'. by rewrite E. }
  rewrite <-Efs. assert (length (render status fs') <= length (render status fs))%nat as Hle
    by (subst fs'; destruct replace_p; [apply remove_field_length|done]).
  destruct (insert_at junk b1 (status ++ crlf ++ render_fields fs') which value) as (b2&E2&Hb2).
  - unfold render in Hb1. by rewrite <-!app_assoc.
  - by destruct Hw as (_&?&_).
  - done.
  - unfold fits in *. unfold render in Hle, Hfit. len_norm_in Hle. len_norm_in Hfit. len_norm. lia.
  - exists b2. unfold insert_header in E2 |- *. rewrite E1. cbn [mbind outcome_mbind] in E2 |- *. split; [exact E2|].
    unfold render. rewrite render_fields_app. unfold render_fields at 2. cbn [fmap list_fmap concat fst snd].
    rewrite app_nil_r, <-!app_assoc. by rewrite <-!app_assoc in Hb2.
Qed.

(** ** Properties *)

(** C37. On a block of headers in which the name looked for occurs only as the
    name of fields ([prefix_hides_header] shows what happens otherwise),
    [get_header_value], [delete_header] and [insert_header] are the look-up of
    the first field of that name, its removal and the addition of a field at
    the end; the text stays NUL-terminated within its buffer, and no byte
    outside the buffer is touched. Empty values are no exception, where a
    comment says that they are not deleted. *)
Theorem headers_refine (junk : nat → byte) (b : DistillerBuffer) (status : bytes) (fs : list field) (which : bytes)
    (Hh : holds b (render status fs)) (Hw : name_ok which) (Hs : no_nul status) (Hf : Forall field_ok fs) (Hc : clean which status fs) :
  (∃ r o, get_header_value b which = Ret (r, o) ∧
     match lookup_field which fs with
     | None => r = None
     | Some v => ∃ off, r = Some off ∧ o_len o = Some (Z.of_nat (length v)) ∧ take (length v) (drop off (render status fs)) = v
     end) ∧
  (∃ r b', delete_header which b = Ret (r, b') ∧ holds b' (render status (remove_field which fs)) ∧ (r = 0 ↔ lookup_field which fs = None)) ∧
  (∀ value (replace_p : bool), no_nul value → fits (Z.of_nat (length (render status fs)) + Z.of_nat (length which) + Z.of_nat (length value)) →
     ∃ b', insert_header junk which value replace_p b = Ret (1, b') ∧
       holds b' (render status ((if replace_p then remove_field which fs else fs) ++ [(which, value)]))).
Proof.
  split; [by apply get_render|]. split; [by apply delete_render|]. intros value rep Hv Hfit. by apply insert_render.
Qed.

Definition demo_headers : list field := [(bytes_of "Server", bytes_of "x"); (bytes_of "Content-Type", bytes_of "text/html")].
Definition demo_block : bytes := render (bytes_of "HTTP/1.0 200 OK") demo_headers.
Definition demo_buf : DistillerBuffer := Buffer (Some (demo_block ++ [0; 0])) (Z.of_nat (length demo_block)) (Z.of_nat (length demo_block) + 2) true.

Lemma demo_clean : clean (bytes_of "content-type") (bytes_of "HTTP/1.0 200 OK") demo_headers.
Proof.
  assert (∀ s, length s <= 20 → forallb (λ j, negb (bool_decide (ci_match_at s (bytes_of "content-type") j))) (seq 0 20) = true →
    ¬ occurs (bytes_of "content-type") s)%nat as H.
  { intros s Hl Hb [j Hj]. pose proof (ci_match_len s (bytes_of "content-type") j ltac:(discriminate) Hj) as Hk. rewrite forallb_forall in Hb.
    specialize (Hb j). rewrite bool_decide_true in Hb by done. specialize (Hb ltac:(apply in_seq; cbn in Hk; lia)). done. }
  split; [apply H; [cbn; lia|vm_compute; reflexivity]|]. constructor; [right; apply H; [cbn; lia|vm_compute; reflexivity]|].
  constructor; [left; vm_compute; reflexivity|constructor].
Qed.

Lemma headers_refine_witness :
  ∃ b', insert_header (λ _, 7) (bytes_of "content-type") (bytes_of "image/gif") true demo_buf = Ret (1, b') ∧
    holds b' (render (bytes_of "HTTP/1.0 200 OK") [(bytes_of "Server", bytes_of "x"); (bytes_of "content-type", bytes_of "image/gif")]).
Proof.
  apply (headers_refine (λ _, 7) demo_buf (bytes_of "HTTP/1.0 200 OK") demo_headers (bytes_of "content-type")).
  - exists [0]. split_and!; [reflexivity|reflexivity|apply (bool_decide_unpack _); vm_compute; exact I|vm_compute; reflexivity|vm_compute; discriminate|vm_compute; reflexivity].
  - split_and!; [discriminate|apply (bool_decide_unpack _); vm_compute; exact I..].
  - apply (bool_decide_unpack _); vm_compute; exact I.
  - constructor; [|constructor; [|constructor]]; split_and!; try (apply (bool_decide_unpack _); vm_compute; exact I); vm_compute; intros [|]; discriminate.
  - exact demo_clean.
  - apply (bool_decide_unpack _); vm_compute; exact I.
  - vm_compute. reflexivity.
Defined.

(** A header whose name is a proper prefix of an earlier header's name is not
    found: the search stops at the first occurrence of the text, wherever it
    is, and gives up when no colon follows. *)
Definition prefix_buf : DistillerBuffer :=
  let h := render (bytes_of "HTTP/1.0 200 OK") [(bytes_of "Accept-Charset", bytes_of "x"); (bytes_of "Accept", bytes_of "y")] in
  Buffer (Some (h ++ [0])) (Z.of_nat (length h)) (Z.of_nat (length h) + 1) true.
Example prefix_hides_header :
  get_header_value prefix_buf (bytes_of "Accept") = Ret (None, HdrOut (Some 0) (Some 17%nat) (Some 0)).
Proof. vm_compute. reflexivity. Qed.

(** An empty buffer: the length pointer is left as it was. *)
Example empty_leaves_length : get_header_value buf0 (bytes_of "Accept") = Ret (None, HdrOut None None None).
Proof. reflexivity. Qed.

(** When the recorded length counts the NUL behind the headers, the inserted
    line lands behind a stray carriage return ([do_post] of cacheop.c records
    such a length). *)
Definition post_buf : DistillerBuffer :=
  let h := bytes_of "HTTP/1.0 200 OK" ++ crlf ++ crlf in StaticBuffer (Some (h ++ [0])) (Z.of_nat (length h) + 1) buf0.
Example counted_nul_breaks_headers :
  ∃ blk, (data ∘ snd) <$> insert_header (λ _, 7) (bytes_of "A") (bytes_of "b") false post_buf = Ret (Some blk) ∧
    take 27 blk = bytes_of "HTTP/1.0 200 OK" ++ [13; 10; 13] ++ bytes_of "A: b" ++ crlf ++ crlf ++ [0].
Proof. eexists. split; vm_compute; reflexivity. Qed.
