(* ===== verification/HttpComm.v ===== *)
(** * HTTP input and output of the front end (frontend/src/comm_http.c)

    Reading a request from a client, parsing its first line, error pages, and
    the two ways in which data goes to the client unchanged.  The client's
    connection is the scripted [io] of [SockIO]; [tunnel] also uses the cache
    client library ([Clib]).  Messages to the monitor are left out. *)

From S2P Require Import Prelude CString SockIO Md5 Config Partition Icp Clib HttpHeaders.
Open Scope Z_scope.

(** ** Data (frontend/include/frontend.h) *)
Inductive HTTP_Status :=
| HTTP_NO_ERR | HTTP_ERR_MALFORMED_REQUEST | HTTP_ERR_CACHE | HTTP_ERR_DISTILLER | HTTP_ERR_UNIMPLEMENTED_FEATURE
| HTTP_ERR_BAD_TOKEN | HTTP_ERR_POST_NO_CONTENTLENGTH | HTTP_ERR_POST_READ_FAILED | HTTP_ERR_POST_FAILED
| HTTP_ERR_GET_FAILED | HTTP_ERR_PUSH_FAILED | HTTP_ERR_CANT_HANDLE_DATATYPE | HTTP_ERR_ROUTING_ERROR
| HTTP_ERR_AGGREGATOR_ERROR | HTTP_ERR_UNSPECIFIED.
#[export] Instance HTTP_Status_dec : EqDecision HTTP_Status.
Proof. solve_decision. Defined.

(** [http_returns]: the message and the long message. *)
Definition http_returns (status : HTTP_Status) : bytes * bytes :=
  match status with
  | HTTP_NO_ERR => (bytes_of "000 No error", bytes_of "Should never get this status (%s)")
  | HTTP_ERR_MALFORMED_REQUEST => (bytes_of "500 Malformed request or URL", bytes_of "Request malformed: {%s}")
  | HTTP_ERR_CACHE => (bytes_of "500 Cache error", bytes_of "Cache error: %s")
  | HTTP_ERR_DISTILLER => (bytes_of "500 Distiller/PTM error", bytes_of "PTM error message: %s")
  | HTTP_ERR_UNIMPLEMENTED_FEATURE => (bytes_of "500 Unimplemented proxy feature", bytes_of "Feature not yet implemented: %s")
  | HTTP_ERR_BAD_TOKEN => (bytes_of "500 Bad token", bytes_of "Bad token in request: `%s'")
  | HTTP_ERR_POST_NO_CONTENTLENGTH => (bytes_of "500 POST failed", bytes_of "POST failed: couldn't parse Content-length")
  | HTTP_ERR_POST_READ_FAILED =>
      (bytes_of "500 POST failed", bytes_of "POST failed: number of data bytes doesn't match content-length")
  | HTTP_ERR_POST_FAILED => (bytes_of "500 POST failed", bytes_of "POST failed: client_lib failure")
  | HTTP_ERR_GET_FAILED =>
      (bytes_of "500 GET failed", bytes_of "GET failed: client_lib failure (warning: this should never happen)")
  | HTTP_ERR_PUSH_FAILED => (bytes_of "500 Push failed", bytes_of "Push into cache failed for URL `%s'")
  | HTTP_ERR_CANT_HANDLE_DATATYPE => (bytes_of "500 GET failed", bytes_of "GET failed: wingman distiller can't handle datatype")
  | HTTP_ERR_ROUTING_ERROR =>
      (bytes_of "500 Routing/Redispatch error",
       bytes_of "Request redispatched too many times (%s); there is probably an infinite loop in the route")
  | HTTP_ERR_AGGREGATOR_ERROR =>
      (bytes_of "500 Internal server error",
       bytes_of "Could not handle request for URL %s<br>Probably an internal server configuration error")
  | HTTP_ERR_UNSPECIFIED => (bytes_of "500 Miscellaneous Proxy Error", bytes_of "Internal proxy error:<br> %s")
  end.

Inductive HTTP_Version := HTTP_VERSION_09_OR_EARLIER | HTTP_VERSION_10_OR_LATER | HTTP_VERSION_UNKNOWN.

Definition PERF_HTTP_TOTAL_HEADERLEN : Z := 8192.
Definition HTTP_ERRMSG_MAX : nat := 512.
Definition READ_ALL_HEADERS : Z := -1.

(** The descriptor [cli_fd] is the connection of the monad; [errmsg] is the
    array of [HTTP_ERRMSG_MAX + 1] bytes. *)
Record Request := MkRequest {
  url : option bytes;
  method : option bytes;
  version : HTTP_Version;
  cli_hdrs : DistillerBuffer;
  svr_hdrs : DistillerBuffer;
  svr_data : DistillerBuffer;
  pxy_hdrs : DistillerBuffer;
  pxy_data : DistillerBuffer;
  svr_http_status : Z;
  errmsg : bytes;
}.
Definition set_url x (r : Request) := MkRequest x (method r) (version r) (cli_hdrs r) (svr_hdrs r) (svr_data r) (pxy_hdrs r) (pxy_data r) (svr_http_status r) (errmsg r).
Definition set_method x (r : Request) := MkRequest (url r) x (version r) (cli_hdrs r) (svr_hdrs r) (svr_data r) (pxy_hdrs r) (pxy_data r) (svr_http_status r) (errmsg r).
Definition set_version x (r : Request) := MkRequest (url r) (method r) x (cli_hdrs r) (svr_hdrs r) (svr_data r) (pxy_hdrs r) (pxy_data r) (svr_http_status r) (errmsg r).
Definition set_cli_hdrs x (r : Request) := MkRequest (url r) (method r) (version r) x (svr_hdrs r) (svr_data r) (pxy_hdrs r) (pxy_data r) (svr_http_status r) (errmsg r).
Definition set_svr_hdrs x (r : Request) := MkRequest (url r) (method r) (version r) (cli_hdrs r) x (svr_data r) (pxy_hdrs r) (pxy_data r) (svr_http_status r) (errmsg r).
Definition set_svr_data x (r : Request) := MkRequest (url r) (method r) (version r) (cli_hdrs r) (svr_hdrs r) x (pxy_hdrs r) (pxy_data r) (svr_http_status r) (errmsg r).
Definition set_pxy_hdrs x (r : Request) := MkRequest (url r) (method r) (version r) (cli_hdrs r) (svr_hdrs r) (svr_data r) x (pxy_data r) (svr_http_status r) (errmsg r).
Definition set_pxy_data x (r : Request) := MkRequest (url r) (method r) (version r) (cli_hdrs r) (svr_hdrs r) (svr_data r) (pxy_hdrs r) x (svr_http_status r) (errmsg r).
Definition set_status x (r : Request) := MkRequest (url r) (method r) (version r) (cli_hdrs r) (svr_hdrs r) (svr_data r) (pxy_hdrs r) (pxy_data r) x (errmsg r).
Definition set_errmsg x (r : Request) := MkRequest (url r) (method r) (version r) (cli_hdrs r) (svr_hdrs r) (svr_data r) (pxy_hdrs r) (pxy_data r) (svr_http_status r) x.

Definition init_Request : Request :=
  MkRequest None None HTTP_VERSION_UNKNOWN buf0 buf0 buf0 buf0 buf0 0 (replicate (S HTTP_ERRMSG_MAX) 0).

Definition free_Request (r : Request) : Request :=
  MkRequest None None (version r) (Free (cli_hdrs r)) (Free (svr_hdrs r)) (Free (svr_data r)) (Free (pxy_hdrs r)) (Free (pxy_data r))
    (svr_http_status r) (errmsg r).

(** ** [readline_or_timeout] *)

(** The loop: the result, the buffer and the number of bytes in it.
    [time_so_far] stays 0, so that the condition of the loop holds. *)
Fixpoint readline_loop (fuel : nat) (sbuf : bytes) (buflen nbytes len : Z) : IO (Z * bytes * Z) :=
  match fuel with
  | O => stuck
  | S fuel' =>
      '(count, e) ← sys_select;
      if count =? -1 then
        if negb (is_eintr e) then mret (-1, sbuf, len) else readline_loop fuel' sbuf buflen nbytes len
      else if count =? 0 then mret (-1, sbuf, len)
      else
        '(count, e, got) ← sys_read (Z.to_nat (buflen - len));
        sbuf ← lift_o (store_at sbuf (Z.to_nat len) got);
        if count =? 0 then mret (-1, sbuf, len)
        else if (count =? -1) && (negb (is_eagain e) && negb (is_eintr e)) then mret (-1, sbuf, len)
        else if 0 <? count then
          let len := len + count in
          found ← (if (nbytes <? 0) && (4 <=? len) then lift_o (dumb_strnstr sbuf (crlf ++ crlf) len) else mret None);
          match found with
          | Some _ => mret (len, sbuf, len)
          | None =>
              if (0 <=? nbytes) && (nbytes <=? len) then mret (len, sbuf, len)
              else readline_loop fuel' sbuf buflen nbytes len
          end
        else readline_loop fuel' sbuf buflen nbytes len
  end.

(** The result, the request and the buffer [opt_buffer].  Bytes read into
    [opt_buffer] are stored from its start. *)
Definition readline_or_timeout (hp : Request) (nbytes : Z) (opt_buffer : option bytes) : IO (Z * Request * option bytes) :=
  sbuf ← deref (match opt_buffer with Some b => Some b | None => data (cli_hdrs hp) end);
  let buflen := match opt_buffer with Some _ => u32 nbytes | None => blength (cli_hdrs hp) end in
  _ ← c_assert (negb (buflen =? 0));
  w ← get;
  '(result, sbuf, len) ← readline_loop (io_fuel w) sbuf buflen nbytes 0;
  hdrs ← lift_o (SetLength len (cli_hdrs hp));
  sbuf ← lift_o (wr sbuf len 0);
  match opt_buffer with
  | Some _ => mret (result, set_cli_hdrs hdrs hp, Some sbuf)
  | None => mret (result, set_cli_hdrs (Buffer (Some sbuf) (blength hdrs) (maxLength hdrs) (freeMe hdrs)) hp, None)
  end.

(** ** [parse_status_and_headers] *)

(** [strstr]. *)
Fixpoint strstr (s t : bytes) : option nat :=
  if bool_decide (take (length t) s = t) then Some O
  else match s with [] => None | _ :: s' => S <$> strstr s' t end.

(** [while ( *tmpptr == '/') tmpptr++], for the URL of a proxied request. *)
Fixpoint skip_slashes (s : bytes) : bytes := match s with c :: s' => if c =? 47 then skip_slashes s' else s | [] => [] end.
Definition proxied_url (tok : bytes) : bytes :=
  if head_byte tok =? 47 then
    match strchr (tail tok) 47, strstr (tail tok) (bytes_of "://") with
    | Some slash, Some colon => if decide (colon < slash)%nat then skip_slashes tok else tok
    | _, _ => tok
    end
  else tok.

(** The next token, read as a C string. *)
Definition next_token (matching : bytes) (st : ts_strtok_state) : outcome (option bytes * ts_strtok_state) :=
  '(r, st) ← ts_strtok matching st;
  match r with
  | None => Ret (None, st)
  | Some p => match cstr_at (string_dupe st) p with None => Crash | Some tok => Ret (Some tok, st) end
  end.

Definition parse_status_and_headers (hp : Request) : outcome (HTTP_Status * Request) :=
  tmpptr ← buf_str (cli_hdrs hp);
  errm ← strncpy (errmsg hp) tmpptr HTTP_ERRMSG_MAX;
  let hp := set_errmsg errm hp in
  match ts_strtok_init (Some tmpptr) with
  | None => Crash
  | Some st =>
      '(tok, st) ← next_token [32] st;
      match tok with
      | None => Ret (HTTP_ERR_MALFORMED_REQUEST, hp)
      | Some m =>
          let hp := set_method (Some m) hp in
          '(tok, st) ← next_token [32] st;
          match tok with
          | None => Ret (HTTP_ERR_MALFORMED_REQUEST, hp)
          | Some tok =>
              let u := proxied_url tok in
              if head_byte u =? 0 then Ret (HTTP_ERR_MALFORMED_REQUEST, hp)
              else
                let hp := set_url (Some u) hp in
                '(vers, st) ← next_token [32; 13; 10] st;
                match vers with
                | None => Ret (HTTP_NO_ERR, set_version HTTP_VERSION_09_OR_EARLIER hp)
                | Some vers =>
                    if negb (strncasecmp vers (bytes_of "HTTP/") 5 =? 0) then Ret (HTTP_ERR_MALFORMED_REQUEST, hp)
                    else Ret (HTTP_NO_ERR, set_version HTTP_VERSION_10_OR_LATER hp)
                end
          end
      end
  end.

(** ** Error pages *)

(** A format in which every conversion is [%s], with its arguments. *)
Fixpoint format_s (fmt : bytes) (args : list bytes) : outcome bytes :=
  match fmt with
  | [] => Ret []
  | 37 :: 115 :: fmt' => match args with [] => Crash | a :: args => r ← format_s fmt' args; Ret (a ++ r) end
  | 37 :: _ => Crash
  | c :: fmt' => r ← format_s fmt' args; Ret (c :: r)
  end.

(** [sprintf] into a block of [size] bytes: the string and its length. *)
Definition sprintf_in (size : Z) (text : outcome bytes) : outcome (bytes * Z) :=
  t ← text; if Z.of_nat (length t) <? size then Ret (t, Z.of_nat (length t)) else Crash.

Definition http_error_template : bytes :=
  bytes_of "<HTML><HEAD><TITLE>%s</TITLE></HEAD><BODY><H1>%s</H1>%s</BODY></HTML>" ++ crlf.

Definition http_error_return (h : Request) (status : HTTP_Status) : IO () :=
  let '(message, longmessage) := http_returns status in
  let emsg := c_str (errmsg h) in
  let tmpstrlen := Z.of_nat (length emsg) in
  '(tmpstr, tmpstrlen) ← lift_o (sprintf_in (Z.of_nat (length longmessage) + tmpstrlen + 1) (format_s longmessage [emsg]));
  '(str, _) ← lift_o (sprintf_in (Z.of_nat (length http_error_template) + 1 + 2 * Z.of_nat (length message) + tmpstrlen + 2)
                        (format_s http_error_template [message; message; tmpstr]));
  let size2 := Z.of_nat (length (bytes_of "HTTP/1.0 " ++ crlf)) + Z.of_nat (length message) + 80 in
  '(str2, _) ← lift_o (sprintf_in size2 (format_s (bytes_of "HTTP/1.0 %s" ++ crlf) [message]));
  r ← correct_write str2 (-1);
  if r <? 0 then mret ()
  else
    '(str2, _) ← lift_o (sprintf_in size2 (Ret (bytes_of "Content-type: text/html" ++ crlf ++ bytes_of "Content-length: " ++
                                                   dec (Z.of_nat (length str)) ++ crlf ++ crlf)));
    r ← correct_write str2 (-1);
    if r <? 0 then mret () else _ ← correct_write str (-1); mret ().

(** ** Data passed to the client unchanged *)

(** [correct_write(sock, blk, len)] of a block: a length of -1 is that of the
    string in the block. *)
Definition write_block (blk : option bytes) (len : Z) : IO Z :=
  match blk with
  | None => if len =? 0 then mret 0 else crash
  | Some blk =>
      if len =? -1 then s ← deref (cstr_at blk 0); correct_write s (-1)
      else if (len <? 0) || (Z.of_nat (length blk) <? len) then crash
      else correct_write blk len
  end.
Definition write_buffer (b : DistillerBuffer) : IO Z := write_block (data b) (i32 (blength b)).

Definition complete_bypass (hp : Request) : IO () :=
  _ ← write_buffer (svr_hdrs hp);
  _ ← write_buffer (svr_data hp);
  mret ().

(** The front end sees the client's connection and the cache client. *)
Section Tunnel.
Context `{Digest} {Monitor : Type}.
Variable nm : names.
Variable part_opts : bytes → option bytes.
Variable getsockname : Z → Z * sockaddr_in.
Variable junk : nat → byte.

Record fe := Fe { cli : io; cache : clib_state Monitor }.
Abbreviation FE := (M fe).
Definition on_cli {A} (m : IO A) : FE A := λ s, '(a, c) ← m (cli s); Ret (a, Fe c (cache s)).
Definition on_cache {A} (m : M (clib_state Monitor) A) : FE A := λ s, '(a, c) ← m (cache s); Ret (a, Fe (cli s) c).
Definition lift_f {A} (o : outcome A) : FE A := λ s, a ← o; Ret (a, s).

(** The loop of the cut-through case: every turn but the last reads once. *)
Fixpoint tunnel_loop (fuel : nat) (outptr : bytes) (outlen blocklen : Z) : FE () :=
  match fuel with
  | O => stuck
  | S fuel' =>
      if blocklen =? 0 then mret ()
      else
        wrote ← on_cli (write_block (Some outptr) (i32 blocklen));
        if negb (u32 wrote =? blocklen) then mret ()
        else
          '(n, _, got) ← on_cache (on_conn (sys_read (Z.to_nat outlen)));
          outptr ← lift_f (store_at outptr 0 got);
          tunnel_loop fuel' outptr outlen (u32 n)
  end.

Definition conn_fuel : FE nat := gets (λ s, match peers (cache s) with [] => 1%nat | c :: _ => S (io_fuel c) end).

Definition tunnel (h : Request) : FE () :=
  headers ← deref (data (cli_hdrs h));
  let len := i32 (blength (cli_hdrs h)) in
  len ← (if len =? -1 then s ← deref (cstr_at headers 0); mret (Z.of_nat (length s)) else mret len);
  '(cl, outptr, outlen, fd) ← on_cache (Clib_Lowlevel_Op nm part_opts getsockname junk headers len);
  if cl =? CLIB_OK then _ ← on_cli (write_block outptr (i32 outlen)); mret ()
  else if cl =? CLIB_CUTTHROUGH then
    outptr ← deref outptr;
    fd ← deref fd;
    n ← conn_fuel;
    _ ← tunnel_loop n outptr outlen outlen;
    on_cache (sys_close fd)
  else mret ().
End Tunnel.
Arguments Fe {Monitor}.
Arguments cli {Monitor}.
Arguments cache {Monitor}.

(** ** Lemmas *)

(** The text behind which a request ends. *)
Definition ends_headers (got : bytes) : Prop := ∃ j, match_at got (crlf ++ crlf) j.

Lemma store_at_prefix got sbuf x rest : sbuf = got ++ rest → (length x <= length rest)%nat →
  store_at sbuf (length got) x = Ret ((got ++ x) ++ drop (length x) rest).
Proof.
  intros -> Hl. unfold store_at. rewrite decide_True by (rewrite !length_app; lia). f_equal.
  rewrite take_app_length, drop_app_ge by lia. replace (_ - _)%nat with (length x) by lia. app_norm.
Qed.

Lemma sys_read_case n w :
  match sys_read n w with
  | Ret ((r, e, got), w') => input w = got ++ input w' ∧ (length got <= n)%nat ∧ sels w' = sels w ∧ wire w' = wire w ∧ S (length (xfers w')) = length (xfers w) ∧
      ((r = Z.of_nat (length got) ∧ e = EOTHER 0) ∨ (r = -1 ∧ got = []))
  | Stuck => xfers w = []
  | _ => False
  end.
Proof.
  unfold sys_read. destruct (xfers w) as [|[k|e] r] eqn:E; [done| |].
  - cbn. split_and!; [|rewrite length_take; lia|done|done|lia|by left].
    destruct (decide (k `min` n <= length (input w))%nat).
    + rewrite length_take_le by done. by rewrite take_drop.
    + rewrite take_ge by lia. by rewrite drop_all, app_nil_r.
  - cbn. split_and!; [done|lia|done|done|lia|by right].
Qed.

Lemma bind_stuck {S A B} (m : M S A) (f : A → M S B) s : m s = Stuck → (m ≫= f) s = Stuck.
Proof. intros E. unfold mbind, M_mbind. by rewrite E. Qed.

Lemma bind_crash {S A B} (m : M S A) (f : A → M S B) s : m s = Crash → (m ≫= f) s = Crash.
Proof. intros E. unfold mbind, M_mbind. by rewrite E. Qed.

Lemma lift_o_ret {A} (o : outcome A) a w : o = Ret a → lift_o o w = Ret (a, w).
Proof. by intros ->. Qed.

(** *** Reading *)

(** What the loop leaves, [got] being read before it: more bytes of the input
    in the buffer, and a result that tells how it ended. *)
Definition read_more (nbytes buflen : Z) (w : io) (got sbuf : bytes) (r : Z) (sbuf' : bytes) (len : Z) (w' : io) : Prop :=
  ∃ more rest', input w = more ++ input w' ∧ sbuf' = (got ++ more) ++ rest' ∧ length sbuf' = length sbuf ∧
    len = Z.of_nat (length (got ++ more)) ∧ len <= buflen ∧ wire w' = wire w ∧
    (r = -1 ∨ (r = len ∧ (0 <= nbytes → nbytes <= len) ∧ (nbytes < 0 → ends_headers (got ++ more)))).

(** The client falls silent in the end: some [select] times out, and every
    [read] before it gets an answer. *)
Definition silence (w : io) : Prop := TimedOut ∈ sels w ∧ (length (sels w) <= length (xfers w))%nat.

Lemma read_more_none nbytes buflen w got sbuf rest w' : sbuf = got ++ rest → Z.of_nat (length got) <= buflen → input w' = input w → wire w' = wire w →
  read_more nbytes buflen w got sbuf (-1) sbuf (Z.of_nat (length got)) w'.
Proof. intros Es Hl Hi Hw. exists [], rest. rewrite app_nil_r. split_and!; try done. by left. Qed.

Lemma read_more_step nbytes buflen w w1 got x sbuf sbuf1 r sbuf' len w' : input w = x ++ input w1 → wire w1 = wire w → length sbuf1 = length sbuf →
  read_more nbytes buflen w1 (got ++ x) sbuf1 r sbuf' len w' → read_more nbytes buflen w got sbuf r sbuf' len w'.
Proof.
  intros Hi Hw Hl (more&rest'&Hi1&Es&El&Elen&Hle&Hw1&Hr). exists (x ++ more), rest'.
  rewrite (app_assoc got x more). split_and!; [by rewrite Hi, Hi1, app_assoc|done|congruence|done|done|congruence|done].
Qed.

(** The search for the blank line, done when all headers are asked for. *)
Lemma search_end sbuf got rest nbytes w : sbuf = got ++ rest →
  ∃ found, (if (nbytes <? 0) && (4 <=? Z.of_nat (length got)) then lift_o (dumb_strnstr sbuf (crlf ++ crlf) (Z.of_nat (length got))) else mret None) w = Ret (found, w) ∧
    (found ≠ None → nbytes < 0 ∧ ends_headers got).
Proof.
  intros ->. destruct (Z.ltb_spec nbytes 0); cbn [andb]; [|by exists None].
  destruct (Z.leb_spec 4 (Z.of_nat (length got))) as [H4|_]; [|by exists None].
  destruct (dumb_strnstr_loop_spec (got ++ rest) (crlf ++ crlf) 0 (length got - 3)) as (r&Er&Hr); [change (length (crlf ++ crlf)) with 4%nat; rewrite length_app; lia|change (length (crlf ++ crlf)) with 4%nat; lia|].
  exists r. unfold lift_o, dumb_strnstr. change (Z.of_nat (length (crlf ++ crlf))) with 4.
  replace (Z.to_nat (Z.of_nat (length got) - 4 + 1)) with (length got - 3)%nat by lia. change 0 with (Z.of_nat 0). rewrite Er. split; [done|].
  destruct r as [k|]; [|done]. intros _. split; [done|]. destruct Hr as (j&->&Hj&Hm&_). exists j. unfold match_at in *.
  rewrite drop_app_le in Hm by lia. rewrite take_app_le in Hm; [done|]. rewrite length_drop. cbn [length crlf app]. lia.
Qed.

Lemma readline_loop_spec nbytes buflen : 0 < buflen → ∀ fuel w sbuf got rest,
  (length (xfers w) + length (sels w) < fuel)%nat → sbuf = got ++ rest → Z.of_nat (length got) <= buflen <= Z.of_nat (length sbuf) →
  match readline_loop fuel sbuf buflen nbytes (Z.of_nat (length got)) w with
  | Ret ((r, sbuf', len), w') => read_more nbytes buflen w got sbuf r sbuf' len w'
  | Stuck => ¬ silence w
  | _ => False
  end.
Proof.
  intros Hb. induction fuel as [|fuel IH]; intros w sbuf got rest Hfuel Es Hg; [lia|]. cbn [readline_loop].
  destruct (sels w) as [|[| |e] ss] eqn:Ess; cbn [length] in Hfuel.
  - rewrite bind_stuck; [intros [Hin _]; rewrite Ess in Hin; by apply elem_of_nil in Hin|]. unfold sys_select. by rewrite Ess.
  - assert (sys_select w = Ret ((1, EOTHER 0), with_sels ss w)) as Esel by (unfold sys_select; by rewrite Ess). step_with Esel.
    change (1 =? -1) with false. change (1 =? 0) with false. cbn iota.
    pose proof (sys_read_case (Z.to_nat (buflen - Z.of_nat (length got))) (with_sels ss w)) as Hr.
    destruct (sys_read _ (with_sels ss w)) as [[[[c e] x] w1]| | |] eqn:Er; try done.
    2: { rewrite (bind_stuck _ _ _ Er). cbn in Hr. intros [_ Hl]. rewrite Ess, Hr in Hl. cbn in Hl. lia. }
    step_with Er. cbn [input sels xfers wire with_sels] in Hr. destruct Hr as (Hi & Hlx & Hs1 & Hw1 & Hx1 & Hc).
    assert (length x <= length rest)%nat as Hlr by (rewrite Es, length_app in Hg; lia).
    assert (store_at sbuf (length got) x = Ret ((got ++ x) ++ drop (length x) rest)) as Est by (by apply store_at_prefix).
    rewrite Nat2Z.id. step_with (lift_o_ret _ _ w1 Est).
    assert (length ((got ++ x) ++ drop (length x) rest) = length sbuf) as Els by (rewrite Es, !length_app, length_drop; lia).
    assert (∀ f, (length (xfers w1) + length (sels w1) < f)%nat → f = fuel →
      match readline_loop f ((got ++ x) ++ drop (length x) rest) buflen nbytes (Z.of_nat (length (got ++ x))) w1 with
      | Ret ((r, sbuf', len), w') => read_more nbytes buflen w got sbuf r sbuf' len w'
      | Stuck => ¬ silence w
      | _ => False
      end) as Hrec.
    { intros f Hf ->. specialize (IH w1 _ (got ++ x) (drop (length x) rest) Hf eq_refl ltac:(rewrite Els, length_app; lia)).
      destruct (readline_loop fuel _ buflen nbytes _ w1) as [[[[r sb] len] w2]| | |]; try done; [by eapply read_more_step|].
      intros [Hin Hl]. apply IH. rewrite Ess in Hin, Hl. cbn [length] in Hl. apply elem_of_cons in Hin as [|Hin]; [done|]. split; rewrite Hs1; [done|lia]. }
    specialize (Hrec fuel ltac:(rewrite Hs1; lia) eq_refl).
    destruct Hc as [[-> ->]|[-> ->]].
    + destruct (Z.eqb_spec (Z.of_nat (length x)) 0) as [Hx0|Hx0].
      { destruct x; [|done]. cbn [length app drop] in *. rewrite app_nil_r in *. rewrite drop_0, <-Es. eapply read_more_none; [exact Es|lia|done|done]. }
      destruct (Z.eqb_spec (Z.of_nat (length x)) (-1)) as [|_]; [lia|]. cbn [andb].
      destruct (Z.ltb_spec 0 (Z.of_nat (length x))) as [_|]; [|lia].
      replace (Z.of_nat (length got) + Z.of_nat (length x)) with (Z.of_nat (length (got ++ x))) by len_lia.
      destruct (search_end ((got ++ x) ++ drop (length x) rest) (got ++ x) _ nbytes w1 eq_refl) as (found&Ef&Hfound). step_with Ef.
      assert (Hlen : Z.of_nat (length (got ++ x)) <= buflen) by (rewrite length_app; lia).
      destruct found as [k|].
      { destruct (Hfound ltac:(done)) as [Hneg Hend]. eapply (read_more_step _ _ w w1 got x); [done|done|exact Els|].
        exists [], (drop (length x) rest). rewrite app_nil_r. split_and!; try done. right. split_and!; [done|lia|done]. }
      destruct (Z.leb_spec 0 nbytes); cbn [andb]; [|exact Hrec].
      destruct (Z.leb_spec nbytes (Z.of_nat (length (got ++ x)))); [|exact Hrec].
      eapply (read_more_step _ _ w w1 got x); [done|done|exact Els|].
      exists [], (drop (length x) rest). rewrite app_nil_r. split_and!; try done. right. split_and!; [done|lia|lia].
    + change (-1 =? 0) with false. change (-1 =? -1) with true. change (0 <? -1) with false. cbn iota. cbn [andb length app drop] in *.
      rewrite app_nil_r in *. rewrite drop_0 in Hrec |- *. rewrite <-Es in Hrec |- *. destruct (negb (is_eagain e) && negb (is_eintr e)); [|exact Hrec].
      eapply read_more_none; [exact Es|lia|done|done].
  - assert (sys_select w = Ret ((0, EOTHER 0), with_sels ss w)) as Esel by (unfold sys_select; by rewrite Ess). step_with Esel.
    change (0 =? -1) with false. change (0 =? 0) with true. eapply read_more_none; [exact Es|lia|done|done].
  - assert (sys_select w = Ret ((-1, e), with_sels ss w)) as Esel by (unfold sys_select; by rewrite Ess). step_with Esel.
    change (-1 =? -1) with true. cbn iota. destruct (negb (is_eintr e)).
    + eapply read_more_none; [exact Es|lia|done|done].
    + specialize (IH (with_sels ss w) sbuf got rest ltac:(cbn; lia) Es Hg).
      destruct (readline_loop fuel sbuf buflen nbytes _ (with_sels ss w)) as [[[[r sb] len] w2]| | |]; try done.
      intros [Hin Hl]. apply IH. rewrite Ess in Hin, Hl. cbn [length] in Hl. apply elem_of_cons in Hin as [|Hin]; [done|]. split; cbn; [done|lia].
Qed.

Lemma readline_spec hp nbytes opt_buffer sbuf buflen w :
  match opt_buffer with Some b => Some b | None => data (cli_hdrs hp) end = Some sbuf →
  match opt_buffer with Some _ => u32 nbytes | None => blength (cli_hdrs hp) end = buflen →
  0 < buflen <= Z.of_nat (length sbuf) →
  match readline_loop (io_fuel w) sbuf buflen nbytes 0 w with
  | Ret ((r, sbuf', len), w') => read_more nbytes buflen w [] sbuf r sbuf' len w' ∧
      readline_or_timeout hp nbytes opt_buffer w =
      (if len <=? maxLength (cli_hdrs hp) then
         b ← wr sbuf' len 0;
         Ret (match opt_buffer with
              | Some _ => (r, set_cli_hdrs (Buffer (data (cli_hdrs hp)) len (maxLength (cli_hdrs hp)) (freeMe (cli_hdrs hp))) hp, Some b)
              | None => (r, set_cli_hdrs (Buffer (Some b) len (maxLength (cli_hdrs hp)) (freeMe (cli_hdrs hp))) hp, None)
              end, w')
       else Crash)
  | Stuck => ¬ silence w ∧ readline_or_timeout hp nbytes opt_buffer w = Stuck
  | _ => False
  end.
Proof.
  intros Ed Eb Hb. unfold readline_or_timeout. rewrite Ed, Eb.
  pose proof (readline_loop_spec nbytes buflen ltac:(lia) (io_fuel w) w sbuf [] sbuf ltac:(unfold io_fuel; lia) eq_refl ltac:(cbn; lia)) as H.
  change (Z.of_nat (length [])) with 0 in H. cbn [deref]. rewrite mret_bind. destruct (Z.eqb_spec buflen 0) as [|_]; [lia|].
  cbn [negb c_assert]. rewrite mret_bind. rewrite (bind_ret get _ _ _ _ eq_refl).
  destruct (readline_loop (io_fuel w) sbuf buflen nbytes 0 w) as [[[[r sbuf'] len] w']| | |] eqn:E; try done.
  - split; [done|]. step_with E. unfold SetLength. destruct (len <=? maxLength (cli_hdrs hp)).
    + rewrite (bind_ret _ _ _ _ _ (lift_o_ret _ _ w' eq_refl)). unfold mbind at 1, M_mbind at 1, lift_o at 1.
      destruct (wr sbuf' len 0); [|done..]. cbn. by destruct opt_buffer.
    + done.
  - split; [done|]. by rewrite (bind_stuck _ _ _ E).
Qed.

(** Reading a number of bytes into a buffer of its own. *)
(** A connection over which the transfers make progress; one that has [n] bytes
    to read. *)
Definition ready (c : io) : Prop :=
  forallb live (xfers c) = true ∧ Forall (eq Ready) (sels c) ∧ (length (xfers c) <= length (sels c))%nat.
Definition delivers (c : io) (n : nat) : Prop := ready c ∧ (n <= length (input c))%nat ∧ (n <= moves (xfers c))%nat.

Lemma ready_turn w x r : ready w → xfers w = x :: r → ∃ ss, sels w = Ready :: ss ∧ live x = true ∧
  forallb live r = true ∧ Forall (eq Ready) ss ∧ (length r <= length ss)%nat.
Proof.
  intros (Hl&Hs&Hle) E. rewrite E in Hl, Hle. cbn in Hl, Hle. apply andb_prop in Hl as [Hx Hl]. destruct (sels w) as [|y ss]; [cbn in Hle; lia|].
  inversion_clear Hs as [|?? <- Hs']. exists ss. cbn in Hle. split_and!; done || lia.
Qed.

(** Bytes that come are read. *)
Lemma read_progress n : ∀ fuel w sbuf got rest, (length (xfers w) + length (sels w) < fuel)%nat → sbuf = got ++ rest →
  (length got < n <= length sbuf)%nat → delivers w (n - length got) →
  ∃ sbuf' w', readline_loop fuel sbuf (Z.of_nat n) (Z.of_nat n) (Z.of_nat (length got)) w = Ret ((Z.of_nat n, sbuf', Z.of_nat n), w').
Proof.
  induction fuel as [|fuel IH]; intros w sbuf got rest Hf Es Hn (Hr&Hi&Hm); [lia|]. cbn [readline_loop].
  destruct (xfers w) as [|x r] eqn:Ex; [cbn in Hm; lia|]. destruct (ready_turn w x r Hr Ex) as (ss&Ess&Hx&Hl&Hs&Hle).
  assert (sys_select w = Ret ((1, EOTHER 0), with_sels ss w)) as Esel by (unfold sys_select; by rewrite Ess). step_with Esel.
  change (1 =? -1) with false. change (1 =? 0) with false. cbn iota. rewrite Ess in Hf. cbn [length] in Hf.
  assert (length rest = length sbuf - length got)%nat as Hrest by (rewrite Es, length_app; lia).
  replace (Z.to_nat (Z.of_nat n - Z.of_nat (length got))) with (n - length got)%nat by lia. rewrite Nat2Z.id.
  destruct x as [k|e]; cbn [live] in Hx.
  - set (y := take (k `min` (n - length got)) (input w)).
    assert (sys_read (n - length got) (with_sels ss w) = Ret ((Z.of_nat (length y), EOTHER 0, y), Io r ss (wire w) (drop (length y) (input w)))) as Erd.
    { unfold sys_read, with_sels. cbn [xfers]. rewrite Ex. done. }
    step_with Erd. assert (0 < length y <= n - length got)%nat as Hy.
    { unfold y. rewrite length_take. destruct k; [done|]. lia. }
    clearbody y. step_with (lift_o_ret _ _ (Io r ss (wire w) (drop (length y) (input w))) (store_at_prefix got sbuf y rest Es ltac:(lia))).
    rewrite (proj2 (Z.eqb_neq _ 0)), (proj2 (Z.eqb_neq _ (-1))), (proj2 (Z.ltb_lt 0 _)), (proj2 (Z.ltb_ge (Z.of_nat n) 0)) by lia. cbn [andb]. rewrite mret_bind.
    rewrite (proj2 (Z.leb_le 0 (Z.of_nat n))) by lia. cbn [andb].
    replace (Z.of_nat (length got) + Z.of_nat (length y)) with (Z.of_nat (length (got ++ y))) by len_lia.
    destruct (Z.leb_spec (Z.of_nat n) (Z.of_nat (length (got ++ y)))) as [Hge|Hlt].
    + replace (Z.of_nat (length (got ++ y))) with (Z.of_nat n) by (rewrite length_app in *; lia). by eexists _, _.
    + rewrite length_app in Hlt. eapply IH; cbn [xfers sels input]; [cbn [length] in Hf; lia|reflexivity|rewrite !length_app, length_drop; lia|].
      split; [split_and!; done|]. cbn [xfers input]. rewrite length_drop, length_app. cbn [moves] in Hm. lia.
  - assert (sys_read (n - length got) (with_sels ss w) = Ret ((-1, e, []), Io r ss (wire w) (input w))) as Erd.
    { unfold sys_read, with_sels. cbn [xfers]. rewrite Ex. done. }
    step_with Erd. step_with (lift_o_ret _ _ (Io r ss (wire w) (input w)) (store_at_prefix got sbuf [] rest Es ltac:(cbn; lia))).
    change (-1 =? 0) with false. change (-1 =? -1) with true. change (0 <? -1) with false. cbn [andb length]. rewrite app_nil_r, drop_0, <-Es.
    replace (negb (is_eagain e) && negb (is_eintr e)) with false by (destruct (is_eagain e), (is_eintr e); done). cbn iota.
    eapply IH; cbn [xfers sels input]; [cbn [length] in Hf; lia|exact Es|lia|]. split; [split_and!; done|]. cbn [moves] in Hm. done.
Qed.

(** A connection that has whole headers to read, within [size] bytes. *)
Definition complete (w : io) (size : Z) : Prop :=
  ∃ n, delivers w n ∧ Z.of_nat n <= size ∧ no_nul (take n (input w)) ∧ ends_headers (take n (input w)).

Lemma search_found h y rest w : no_nul h → ends_headers h → let got := h ++ y in
  ∃ k, (if (READ_ALL_HEADERS <? 0) && (4 <=? Z.of_nat (length got)) then lift_o (dumb_strnstr (got ++ rest) (crlf ++ crlf) (Z.of_nat (length got))) else mret None) w =
    Ret (Some k, w).
Proof.
  intros Hn [j Hj] got. assert (j + 4 <= length h)%nat as Hl.
  { unfold match_at in Hj. apply (f_equal length) in Hj. rewrite length_take, length_drop in Hj. cbn [length crlf app] in Hj. lia. }
  assert (length got = length h + length y)%nat as Hg by apply length_app.
  change (READ_ALL_HEADERS <? 0) with true. rewrite (proj2 (Z.leb_le 4 _)) by lia. cbn [andb].
  destruct (dumb_strnstr_loop_spec (got ++ rest) (crlf ++ crlf) 0 (length got - 3)) as (o&Eo&Ho); [change (length (crlf ++ crlf)) with 4%nat; rewrite length_app; lia|change (length (crlf ++ crlf)) with 4%nat; lia|].
  unfold lift_o, dumb_strnstr. change (Z.of_nat (length (crlf ++ crlf))) with 4.
  replace (Z.to_nat (Z.of_nat (length got) - 4 + 1)) with (length got - 3)%nat by lia. change 0 with (Z.of_nat 0). rewrite Eo.
  destruct o as [k|]; [by exists k|]. destruct (Ho j ltac:(lia)) as (j'&Hj'&Hz).
  - unfold got. rewrite <-app_assoc. apply match_at_prefix; [change (length (crlf ++ crlf)) with 4%nat; lia|done].
  - unfold got in Hz. rewrite <-app_assoc, lookup_app_l in Hz by lia. unfold no_nul in Hn. rewrite Forall_lookup in Hn. by destruct (Hn j' 0 Hz).
Qed.

Lemma take_drop_length {A} q (l : list A) : l = take q l ++ drop (length (take q l)) l.
Proof.
  rewrite length_take. destruct (decide (q <= length l)%nat).
  - by rewrite Nat.min_l, take_drop by lia.
  - by rewrite Nat.min_r, take_ge, drop_ge, app_nil_r by lia.
Qed.

(** Headers that come are read. *)
Lemma headers_progress n : ∀ fuel w sbuf got rest, (length (xfers w) + length (sels w) < fuel)%nat → sbuf = got ++ rest →
  (length got < n <= length sbuf)%nat → delivers w (n - length got) →
  no_nul (got ++ take (n - length got) (input w)) → ends_headers (got ++ take (n - length got) (input w)) →
  ∃ sbuf' w' len, 0 <= len ∧ readline_loop fuel sbuf (Z.of_nat (length sbuf)) READ_ALL_HEADERS (Z.of_nat (length got)) w = Ret ((len, sbuf', len), w').
Proof.
  induction fuel as [|fuel IH]; intros w sbuf got rest Hf Es Hn (Hr&Hi&Hm) Hnn Hend; [lia|]. cbn [readline_loop].
  destruct (xfers w) as [|x r] eqn:Ex; [cbn in Hm; lia|]. destruct (ready_turn w x r Hr Ex) as (ss&Ess&Hx&Hl&Hs&Hle).
  assert (sys_select w = Ret ((1, EOTHER 0), with_sels ss w)) as Esel by (unfold sys_select; by rewrite Ess). step_with Esel.
  change (1 =? -1) with false. change (1 =? 0) with false. cbn iota. rewrite Ess in Hf. cbn [length] in Hf.
  assert (length rest = length sbuf - length got)%nat as Hrest by (rewrite Es, length_app; lia).
  replace (Z.to_nat (Z.of_nat (length sbuf) - Z.of_nat (length got))) with (length rest) by lia. rewrite Nat2Z.id.
  destruct x as [k|e]; cbn [live] in Hx.
  - set (y := take (k `min` length rest) (input w)).
    assert (sys_read (length rest) (with_sels ss w) = Ret ((Z.of_nat (length y), EOTHER 0, y), Io r ss (wire w) (drop (length y) (input w)))) as Erd.
    { unfold sys_read, with_sels. cbn [xfers]. rewrite Ex. done. }
    step_with Erd. assert (0 < length y <= length rest)%nat as Hy.
    { unfold y. rewrite length_take. destruct k; [done|]. lia. }
    assert (k `min` (n - length got) <= length y)%nat as Hky by (unfold y; rewrite length_take; lia).
    assert (input w = y ++ drop (length y) (input w)) as Ei by apply take_drop_length.
    clearbody y. step_with (lift_o_ret _ _ (Io r ss (wire w) (drop (length y) (input w))) (store_at_prefix got sbuf y rest Es ltac:(lia))).
    rewrite (proj2 (Z.eqb_neq _ 0)), (proj2 (Z.eqb_neq _ (-1))), (proj2 (Z.ltb_lt 0 _)) by lia. cbn [andb].
    replace (Z.of_nat (length got) + Z.of_nat (length y)) with (Z.of_nat (length (got ++ y))) by len_lia.
    destruct (decide (n <= length (got ++ y))%nat) as [Hge|Hlt].
    + assert (got ++ y = (got ++ take (n - length got) (input w)) ++ drop (n - length got) y) as Eg.
      { rewrite <-app_assoc. f_equal. rewrite length_app in Hge. rewrite Ei at 1. rewrite take_app_le by lia. by rewrite take_drop. }
      destruct (search_found _ (drop (n - length got) y) (drop (length y) rest) (Io r ss (wire w) (drop (length y) (input w))) Hnn Hend) as [j Ej].
      rewrite <-Eg in Ej. step_with Ej. eexists _, _, _. split; [|reflexivity]. lia.
    + destruct (search_end ((got ++ y) ++ drop (length y) rest) (got ++ y) (drop (length y) rest) READ_ALL_HEADERS (Io r ss (wire w) (drop (length y) (input w))) eq_refl) as (found&Ef&_).
      step_with Ef. destruct found; [eexists _, _, _; split; [|reflexivity]; lia|]. change (0 <=? READ_ALL_HEADERS) with false. cbn [andb].
      assert (length ((got ++ y) ++ drop (length y) rest) = length sbuf) as Els by (rewrite Es, !length_app, length_drop; lia).
      assert (got ++ take (n - length got) (input w) = (got ++ y) ++ take (n - length (got ++ y)) (drop (length y) (input w))) as Eg.
      { rewrite <-app_assoc. f_equal. rewrite length_app in *. rewrite Ei at 1. rewrite take_app_ge by lia. f_equal. f_equal. lia. }
      rewrite <-Els. rewrite Eg in Hnn, Hend. rewrite length_app in Hlt. eapply IH; cbn [xfers sels input]; [cbn [length] in Hf; lia|reflexivity|rewrite Els, length_app; lia| |exact Hnn|exact Hend].
      split; [split_and!; done|]. cbn [xfers input]. rewrite length_drop, length_app. cbn [moves] in Hm. lia.
  - assert (sys_read (length rest) (with_sels ss w) = Ret ((-1, e, []), Io r ss (wire w) (input w))) as Erd.
    { unfold sys_read, with_sels. cbn [xfers]. rewrite Ex. done. }
    step_with Erd. step_with (lift_o_ret _ _ (Io r ss (wire w) (input w)) (store_at_prefix got sbuf [] rest Es ltac:(cbn; lia))).
    change (-1 =? 0) with false. change (-1 =? -1) with true. change (0 <? -1) with false. cbn [andb length]. rewrite app_nil_r, drop_0, <-Es.
    replace (negb (is_eagain e) && negb (is_eintr e)) with false by (destruct (is_eagain e), (is_eintr e); done). cbn iota.
    eapply IH; cbn [xfers sels input]; [cbn [length] in Hf; lia|exact Es|lia| |exact Hnn|exact Hend]. split; [split_and!; done|]. cbn [moves] in Hm. done.
Qed.

Lemma read_into_spec hp buffer nbytes w : 0 < nbytes < 2 ^ 31 → nbytes < Z.of_nat (length buffer) →
  match readline_or_timeout hp nbytes (Some buffer) w with
  | Ret ((r, hp', opt), w') => ∃ b got rest, input w = got ++ input w' ∧ hp' = set_cli_hdrs b hp ∧ opt = Some (got ++ 0 :: rest) ∧
      length (got ++ 0 :: rest) = length buffer ∧ wire w' = wire w ∧
      Z.of_nat (length got) <= maxLength (cli_hdrs hp) ∧
      ((r = -1 ∧ ¬ delivers w (Z.to_nat nbytes)) ∨ (r = nbytes ∧ Z.of_nat (length got) = nbytes))
  | Crash => maxLength (cli_hdrs hp) < nbytes
  | Stuck => ¬ silence w
  | Exit _ => False
  end.
Proof.
  intros Hn Hb.
  assert (delivers w (Z.to_nat nbytes) → ∃ sb w', readline_loop (io_fuel w) buffer nbytes nbytes 0 w = Ret ((nbytes, sb, nbytes), w')) as Hp.
  { intros Hd. pose proof (read_progress (Z.to_nat nbytes) (io_fuel w) w buffer [] buffer ltac:(unfold io_fuel; lia) eq_refl ltac:(cbn; lia)) as H.
    cbn [length] in H. rewrite Nat.sub_0_r, Z2Nat.id in H by lia. exact (H Hd). }
  pose proof (readline_spec hp nbytes (Some buffer) buffer nbytes w eq_refl ltac:(by rewrite wrap_small by lia) ltac:(lia)) as H.
  destruct (readline_loop (io_fuel w) buffer nbytes nbytes 0 w) as [[[[r sbuf'] len] w']| | |]; [|done..|by destruct H as [? ->]].
  destruct H as [(more&rest&Hi&Es&El&->&Hle&Hw&Hr) ->]. cbn [app] in *.
  destruct (Z.leb_spec (Z.of_nat (length more)) (maxLength (cli_hdrs hp))); [|lia].
  assert (length more + length rest = length buffer)%nat as Ell by (by rewrite <-El, Es, length_app).
  destruct rest as [|c rest]; [cbn [length] in Ell; lia|]. rewrite Es, (wr_mid more c rest) by done. cbn [mbind outcome_mbind].
  eexists _, more, rest. split_and!; try done; [by rewrite length_app|]. destruct Hr as [->|(->&Hge&_)]; [left|right].
  { split; [done|]. intros Hd. destruct (Hp Hd) as (?&?&Eq). injection Eq as ?. lia. }
  specialize (Hge ltac:(lia)). lia.
Qed.

(** *** Tokens *)

(** The next token: delimiters, a word and the delimiter that ends it. *)
Lemma next_token_word set pre d v c r : no_nul (d ++ v ++ c :: r) → forallb (is_in set) d = true →
  forallb (λ x, negb (is_in set x)) v = true → v ≠ [] → is_in set c = true →
  ∃ pre', next_token set (Strtok (pre ++ (d ++ v ++ c :: r) ++ [0]) (length pre) (Z.of_nat (length (d ++ v ++ c :: r)))) =
    Ret (Some v, Strtok (pre' ++ r ++ [0]) (length pre') (Z.of_nat (length r))).
Proof.
  intros Hn Hd Hv Hne Hc. unfold next_token, ts_strtok. cbn [chars_remaining string_dupe nxt_ptr].
  destruct (Z.leb_spec (Z.of_nat (length (d ++ v ++ c :: r))) 0) as [Hle|_]; [len_norm_in Hle; cbn [length] in Hle; lia|].
  rewrite cstr_at_app by done. unfold strspn, strcspn.
  assert (span_in (is_in set) (d ++ v ++ c :: r) = length d) as ->.
  { rewrite span_in_app, Hd. destruct v as [|x v]; [done|]. cbn [app span_in]. cbn [forallb] in Hv. destruct (is_in set x); [done|]. lia. }
  rewrite drop_app_length.
  assert (span_in (λ x, negb (is_in set x)) (v ++ c :: r) = length v) as ->.
  { rewrite span_in_app, Hv. cbn [span_in]. rewrite Hc. cbn. lia. }
  destruct (Z.ltb_spec (Z.of_nat (length (d ++ v ++ c :: r))) (Z.of_nat (length d))) as [Hlt|_]; [len_norm_in Hlt; lia|].
  destruct (Z.ltb_spec (Z.of_nat (length (d ++ v ++ c :: r))) (Z.of_nat (length v + length d))) as [Hlt|_]; [len_norm_in Hlt; lia|].
  replace (pre ++ (d ++ v ++ c :: r) ++ [0]) with ((pre ++ d ++ v) ++ c :: r ++ [0]) by app_norm.
  rewrite (wr_mid (pre ++ d ++ v)) by (len_norm; lia). cbn [mbind outcome_mbind string_dupe].
  replace ((pre ++ d ++ v) ++ 0 :: r ++ [0]) with ((pre ++ d) ++ v ++ 0 :: r ++ [0]) by app_norm.
  rewrite <-length_app, cstr_at_app by (rewrite !no_nul_app in Hn; tauto).
  exists (pre ++ d ++ v ++ [0]). do 3 f_equal; [app_norm|len_norm; cbn [length]; lia|len_norm; cbn [length]; lia].
Qed.

(** The last token, which the end of the string ends. *)
Lemma next_token_last set pre d v : no_nul (d ++ v) → forallb (is_in set) d = true →
  forallb (λ x, negb (is_in set x)) v = true → v ≠ [] →
  ∃ st', next_token set (Strtok (pre ++ (d ++ v) ++ [0]) (length pre) (Z.of_nat (length (d ++ v)))) = Ret (Some v, st') ∧ chars_remaining st' < 0.
Proof.
  intros Hn Hd Hv Hne. unfold next_token, ts_strtok. cbn [chars_remaining string_dupe nxt_ptr].
  assert (0 < length v)%nat as Hvl by (destruct v; [done|cbn; lia]).
  destruct (Z.leb_spec (Z.of_nat (length (d ++ v))) 0) as [Hle|_]; [len_norm_in Hle; lia|].
  rewrite cstr_at_app by done. unfold strspn, strcspn.
  assert (span_in (is_in set) (d ++ v) = length d) as ->.
  { rewrite span_in_app, Hd. destruct v as [|x v]; [done|]. cbn [app span_in]. cbn [forallb] in Hv. destruct (is_in set x); [done|]. lia. }
  rewrite drop_app_length.
  assert (span_in (λ x, negb (is_in set x)) v = length v) as ->.
  { rewrite <-(app_nil_r v) at 1. rewrite span_in_app, Hv. cbn. lia. }
  destruct (Z.ltb_spec (Z.of_nat (length (d ++ v))) (Z.of_nat (length d))) as [Hlt|_]; [len_norm_in Hlt; lia|].
  destruct (Z.ltb_spec (Z.of_nat (length (d ++ v))) (Z.of_nat (length v + length d))) as [Hlt|_]; [len_norm_in Hlt; lia|].
  replace (pre ++ (d ++ v) ++ [0]) with ((pre ++ d ++ v) ++ 0 :: []) by app_norm.
  rewrite (wr_mid (pre ++ d ++ v)) by (len_norm; lia). cbn [mbind outcome_mbind string_dupe].
  replace ((pre ++ d ++ v) ++ [0]) with ((pre ++ d) ++ v ++ 0 :: []) by app_norm.
  rewrite <-length_app, cstr_at_app by (rewrite !no_nul_app in Hn; tauto).
  eexists. split; [done|]. cbn [chars_remaining]. len_norm. lia.
Qed.

Lemma next_token_end set st : chars_remaining st <= 0 → next_token set st = Ret (None, st).
Proof. intros H. unfold next_token, ts_strtok. by rewrite (proj2 (Z.leb_le _ _) H). Qed.

Lemma is_in_spec set c : is_in set c = true ↔ c ∈ set.
Proof.
  unfold is_in. rewrite existsb_exists. setoid_rewrite list_elem_of_In. split.
  - intros (x&Hx&E). apply Z.eqb_eq in E. by subst.
  - intros Hx. exists c. split; [done|apply Z.eqb_refl].
Qed.
Lemma none_in set v : (∀ c, c ∈ set → (c ∉ v)) → forallb (λ x, negb (is_in set x)) v = true.
Proof.
  intros H. apply forallb_forall. intros x Hx%list_elem_of_In. destruct (is_in set x) eqn:E; [|done].
  apply is_in_spec in E. by destruct (H x E).
Qed.

Lemma strstr_match s t k : strstr s t = Some k → match_at s t k.
Proof.
  unfold match_at. revert k. induction s as [|x s IH]; intros k; cbn [strstr]; case_bool_decide as E; try done.
  - intros [= <-]. done.
  - intros [= <-]. done.
  - destruct (strstr s t) as [i|]; [|done]. intros [= <-]. cbn [drop]. by apply IH.
Qed.

Lemma skip_slashes_head s x : no_nul s → x ∈ s → x ≠ 47 → head_byte (skip_slashes s) ≠ 0.
Proof.
  induction 1 as [|c s Hc Hs IH]; intros Hin Hx; [by apply elem_of_nil in Hin|]. cbn [skip_slashes].
  destruct (Z.eqb_spec c 47) as [->|]; [|done]. apply IH; [|done]. by apply elem_of_cons in Hin as [|].
Qed.

(** What is left of a URL is not empty. *)
Lemma proxied_url_head u : no_nul u → u ≠ [] → (head_byte (proxied_url u) =? 0) = false.
Proof.
  intros Hn Hne. apply Z.eqb_neq. unfold proxied_url.
  assert (head_byte u ≠ 0) as Hu by (destruct Hn; done).
  destruct (head_byte u =? 47); [|done]. destruct (strchr _ _); [|done]. destruct (strstr (tail u) _) as [k|] eqn:E; [|done].
  destruct (decide _); [|done]. apply (skip_slashes_head u 58); [done| |done]. apply strstr_match in E. unfold match_at in E.
  assert (58 ∈ take (length (bytes_of "://")) (drop k (tail u))) as Hin by (rewrite E; apply list_elem_of_here).
  destruct u as [|c u]; [done|]. right. cbn [tail] in Hin.
  apply (list_elem_of_lookup_1 (take _ _)) in Hin as [i Hi]. apply lookup_take_Some in Hi as [Hi _]. rewrite lookup_drop in Hi.
  by apply list_elem_of_lookup_2 in Hi.
Qed.

(** A buffer as [DistillerBufferAlloc] leaves it. *)
Definition fresh_buffer (b : DistillerBuffer) (size : Z) : Prop :=
  0 < size ∧ blength b = size ∧ maxLength b = size ∧ ∃ blk, data b = Some blk ∧ Z.of_nat (length blk) = size.

(** ** Properties *)

(** C38. Whatever the client sends and however it arrives, [readline_or_timeout]
    collects the bytes it takes from the connection at the start of a fresh
    header buffer, with a NUL behind them; if it reports success then all the
    bytes are reported and the end of the headers is among them.  It fails only
    when whole headers do not come, and then, at the end of the file as when the
    client is silent for too long, the result is -1: never the 0 that is
    documented for the end of the file.  It returns once the client falls
    silent.  Only when the bytes fill the buffer the NUL is stored past it. *)
Theorem readline_headers (hp : Request) (size : Z) (w : io) (Hf : fresh_buffer (cli_hdrs hp) size) :
  match readline_or_timeout hp READ_ALL_HEADERS None w with
  | Ret ((r, hp', opt), w') => ∃ got rest, input w = got ++ input w' ∧ wire w' = wire w ∧ opt = None ∧ Z.of_nat (length got) < size ∧
      hp' = set_cli_hdrs (Buffer (Some (got ++ 0 :: rest)) (Z.of_nat (length got)) size (freeMe (cli_hdrs hp))) hp ∧
      Z.of_nat (length (got ++ 0 :: rest)) = size ∧
      ((r = -1 ∧ ¬ complete w size) ∨ (r = Z.of_nat (length got) ∧ ends_headers got))
  | Crash => ∃ got later, input w = got ++ later ∧ Z.of_nat (length got) = size
  | Stuck => ¬ silence w
  | Exit _ => False
  end.
Proof.
  destruct Hf as (Hs&Hb&Hm&blk&Hd&Hl).
  assert (complete w size → ∃ sb w' len, 0 <= len ∧ readline_loop (io_fuel w) blk size READ_ALL_HEADERS 0 w = Ret ((len, sb, len), w')) as Hp.
  { intros (n&Hdl&Hfit&Hnn&Hend). rewrite <-Hl. destruct (decide (n = 0%nat)) as [->|Hn0].
    { destruct Hend as [j Hj]. unfold match_at in Hj. by destruct j. }
    apply (headers_progress n (io_fuel w) w blk [] blk); cbn [length app]; rewrite ?Nat.sub_0_r; try done; [unfold io_fuel; lia|lia]. }
  pose proof (readline_spec hp READ_ALL_HEADERS None blk size w Hd Hb ltac:(lia)) as H.
  destruct (readline_loop (io_fuel w) blk size READ_ALL_HEADERS 0 w) as [[[[r sbuf'] len] w']| | |]; [|done..|by destruct H as [? ->]].
  destruct H as [(more&rest&Hi&Es&El&->&Hle&Hw&Hr) ->]. cbn [app] in *. rewrite Hm.
  destruct (Z.leb_spec (Z.of_nat (length more)) size) as [_|]; [|lia].
  assert (length more + length rest = length blk)%nat as Ell by (by rewrite <-El, Es, length_app).
  destruct rest as [|c rest].
  - unfold wr. rewrite Es, app_nil_r. destruct (Z.ltb_spec (Z.of_nat (length more)) (Z.of_nat (length more))); [lia|]. rewrite andb_false_r.
    cbn [mbind outcome_mbind]. exists more, (input w'). split; [done|]. cbn [length] in Ell. lia.
  - rewrite Es, (wr_mid more c rest) by done. cbn [mbind outcome_mbind]. exists more, rest. cbn [length] in Ell. split_and!; try done; [lia|len_norm; cbn [length]; lia|].
    destruct Hr as [->|(->&_&Hend)]; [left|right]; (split; [done|]).
    + intros Hc. destruct (Hp Hc) as (?&?&?&?&Eq). injection Eq as ? _ _. lia.
    + apply Hend. unfold READ_ALL_HEADERS. lia.
Qed.

(** C39. Data that [server_dispatch] and [do_post] read into a buffer of their
    own is counted in the header buffer too, whose [SetLength] asserts that it
    fits: a body with more outstanding bytes than the header buffer has room
    for is never read with success, the front end aborts when it arrives. *)
Theorem large_body_aborts (hp : Request) (buffer : bytes) (nbytes : Z) (w : io)
    (Hn : 0 < nbytes < 2 ^ 31) (Hb : nbytes < Z.of_nat (length buffer)) :
  match readline_or_timeout hp nbytes (Some buffer) w with
  | Ret ((r, hp', opt), w') => ∃ got rest, input w = got ++ input w' ∧ opt = Some (got ++ 0 :: rest) ∧
      Z.of_nat (length got) <= maxLength (cli_hdrs hp) ∧ (r = -1 ∨ (r = nbytes ∧ Z.of_nat (length got) = nbytes))
  | Crash => maxLength (cli_hdrs hp) < nbytes
  | Stuck => ¬ silence w
  | Exit _ => False
  end ∧
  (maxLength (cli_hdrs hp) < nbytes → ∀ r, fst <$> readline_or_timeout hp nbytes (Some buffer) w = Ret r → r.1.1 = -1).
Proof.
  pose proof (read_into_spec hp buffer nbytes w Hn Hb) as H.
  destruct (readline_or_timeout hp nbytes (Some buffer) w) as [[[[r0 hp'] opt] w']| | |]; try done.
  destruct H as (b&got&rest&Hi&->&->&_&_&Hmax&Hr).
  assert (r0 = -1 ∨ (r0 = nbytes ∧ Z.of_nat (length got) = nbytes)) as Hr' by tauto. split; [by exists got, rest|]. intros Hlt r [= <-]. cbn. lia.
Qed.

(** The request line: the method, the URL (without the slash in front of a
    proxied one) and the HTTP version are taken from a line of three words;
    a third word that does not begin with "HTTP/", in either case, makes the
    request malformed.  The text of the request is kept for the error page. *)
Theorem parse_request_line (hp : Request) (m u v : bytes) (c : byte) (rest : bytes)
    (Hh : holds (cli_hdrs hp) (m ++ 32 :: u ++ 32 :: v ++ c :: rest)) (He : length (errmsg hp) = S HTTP_ERRMSG_MAX)
    (Hm : m ≠ []) (Hm32 : 32 ∉ m) (Hu : u ≠ []) (Hu32 : 32 ∉ u) (Hv : v ≠ []) (Hvc : ∀ x, x ∈ [32; 13; 10] → (x ∉ v)) (Hc : c ∈ [32; 13; 10]) :
  let text := m ++ 32 :: u ++ 32 :: v ++ c :: rest in
  let hp1 := set_url (Some (proxied_url u)) (set_method (Some m) (set_errmsg (strncpy_bytes text HTTP_ERRMSG_MAX ++ drop HTTP_ERRMSG_MAX (errmsg hp)) hp)) in
  parse_status_and_headers hp =
  Ret (if decide (tolower <$> take 5 v = bytes_of "http/")
       then (HTTP_NO_ERR, set_version HTTP_VERSION_10_OR_LATER hp1)
       else (HTTP_ERR_MALFORMED_REQUEST, hp1)).
Proof.
  intros text hp1. pose proof (holds_str _ _ Hh) as Hs. destruct Hh as (blk&_&_&Hn&_). fold text in Hs, Hn.
  unfold parse_status_and_headers. rewrite Hs. cbn [mbind outcome_mbind]. unfold strncpy. rewrite decide_True by (rewrite He; lia).
  cbn [mbind outcome_mbind ts_strtok_init].
  assert (no_nul m ∧ no_nul u ∧ no_nul v ∧ no_nul rest ∧ c ≠ 0) as (Hnm&Hnu&Hnv&Hnr&Hc0).
  { unfold text in Hn. rewrite !no_nul_app in Hn. destruct Hn as [? Hn]. inversion_clear Hn as [|??? Hn']. rewrite no_nul_app in Hn'.
    destruct Hn' as [? Hn]. inversion_clear Hn as [|??? Hn']. rewrite no_nul_app in Hn'. destruct Hn' as [? Hn]. inversion_clear Hn. done. }
  pose proof Hn as Hn0. unfold text in Hn0.
  destruct (next_token_word [32] [] [] m 32 (u ++ 32 :: v ++ c :: rest) Hn0 eq_refl) as [p1 E1]; try done.
  { apply none_in. intros x [->|[]%elem_of_nil]%elem_of_cons. done. }
  cbn [app length] in E1. fold text in E1. cbn [app length] in E1. rewrite E1. cbn [mbind outcome_mbind].
  assert (no_nul (u ++ 32 :: v ++ c :: rest)) as Hn1 by (apply no_nul_app in Hn0 as [_ Hn0]; by inversion Hn0).
  destruct (next_token_word [32] p1 [] u 32 (v ++ c :: rest) Hn1 eq_refl) as [p2 E2]; try done.
  { apply none_in. intros x [->|[]%elem_of_nil]%elem_of_cons. done. }
  cbn [app] in E2. rewrite E2. cbn [mbind outcome_mbind].
  rewrite proxied_url_head by done.
  assert (no_nul (v ++ c :: rest)) as Hn2 by (apply no_nul_app in Hn1 as [_ Hn1]; by inversion Hn1).
  destruct (next_token_word [32; 13; 10] p2 [] v c rest Hn2 eq_refl) as [p3 E3]; [by apply none_in|done|by apply is_in_spec|].
  cbn [app] in E3. rewrite E3. cbn [mbind outcome_mbind].
  pose proof (strncasecmp_prefix v (bytes_of "HTTP/") Hnv ltac:(apply (bool_decide_unpack _); vm_compute; exact I)) as Hp.
  change (length (bytes_of "HTTP/")) with 5%nat in Hp. change (tolower <$> bytes_of "HTTP/") with (bytes_of "http/") in Hp.
  destruct (decide (tolower <$> take 5 v = bytes_of "http/")) as [Ev|Ev].
  - rewrite (proj2 Hp Ev). done.
  - destruct (Z.eqb_spec (strncasecmp v (bytes_of "HTTP/") 5) 0) as [E0|_]; [by destruct (Ev (proj1 Hp E0))|]. done.
Qed.

(** Shorter requests: one word is malformed; a request of two words is taken
    for HTTP/0.9, and its URL then reaches to the end of the request, line
    ends included. *)
Theorem parse_short_request (hp : Request) (m u : bytes) (Hh : holds (cli_hdrs hp) (m ++ 32 :: u)) (He : length (errmsg hp) = S HTTP_ERRMSG_MAX)
    (Hm : m ≠ []) (Hm32 : 32 ∉ m) (Hu32 : 32 ∉ u) :
  let hp1 := set_method (Some m) (set_errmsg (strncpy_bytes (m ++ 32 :: u) HTTP_ERRMSG_MAX ++ drop HTTP_ERRMSG_MAX (errmsg hp)) hp) in
  parse_status_and_headers hp =
  Ret (if decide (u = []) then (HTTP_ERR_MALFORMED_REQUEST, hp1)
       else (HTTP_NO_ERR, set_version HTTP_VERSION_09_OR_EARLIER (set_url (Some (proxied_url u)) hp1))).
Proof.
  intros hp1. pose proof (holds_str _ _ Hh) as Hs. destruct Hh as (blk&_&_&Hn&_).
  unfold parse_status_and_headers. rewrite Hs. cbn [mbind outcome_mbind]. unfold strncpy. rewrite decide_True by (rewrite He; lia).
  cbn [mbind outcome_mbind ts_strtok_init].
  destruct (next_token_word [32] [] [] m 32 u Hn eq_refl) as [p1 E1]; try done.
  { apply none_in. intros x [->|[]%elem_of_nil]%elem_of_cons. done. }
  cbn [app length] in E1. rewrite E1. cbn [mbind outcome_mbind].
  destruct (decide (u = [])) as [->|Hne].
  { rewrite next_token_end; [done|]. cbn. lia. }
  assert (no_nul u) as Hn1 by (apply no_nul_app in Hn as [_ Hn]; by inversion Hn).
  destruct (next_token_last [32] p1 [] u Hn1 eq_refl) as (st&E2&Hst); [|done|].
  { apply none_in. intros x [->|[]%elem_of_nil]%elem_of_cons. done. }
  cbn [app] in E2. rewrite E2. cbn [mbind outcome_mbind]. rewrite proxied_url_head by done.
  rewrite next_token_end by lia. done.
Qed.

Lemma format_message status e : ∃ t, format_s (http_returns status).2 [e] = Ret t ∧ (length t <= length (http_returns status).2 + length e)%nat ∧ (no_nul e → no_nul t).
Proof.
  destruct status; eexists; (split; [cbv -[app]; reflexivity|split; [len_norm; cbv -[Nat.add Nat.le length app]; cbn [length]; lia|]]); intros He; unfold no_nul in *;
    repeat first [exact He|apply Forall_nil; exact I|apply Forall_cons; split; [discriminate|]|apply Forall_app; split].
Qed.
Lemma dec_no_nul n : no_nul (dec n).
Proof.
  assert (∀ fuel m acc, no_nul acc → no_nul (dec_loop fuel m acc)) as H.
  { induction fuel as [|fuel IH]; intros m acc Ha; cbn [dec_loop]; [done|]. pose proof (Z.mod_pos_bound m 10 ltac:(lia)).
    destruct (_ =? 0); [|apply IH]; (apply Forall_cons; split; [lia|exact Ha]). }
  unfold dec. destruct (n <? 0); [apply Forall_cons; split; [done|]|]; apply H; by apply Forall_nil.
Qed.

(** *** Error pages *)

(** The page for a message [t] that is already formatted. *)
Definition error_body (status : HTTP_Status) (t : bytes) : bytes :=
  bytes_of "<HTML><HEAD><TITLE>" ++ (http_returns status).1 ++ bytes_of "</TITLE></HEAD><BODY><H1>" ++ (http_returns status).1 ++
  bytes_of "</H1>" ++ t ++ bytes_of "</BODY></HTML>" ++ crlf.
Definition status_line (status : HTTP_Status) : bytes := bytes_of "HTTP/1.0 " ++ (http_returns status).1 ++ crlf.
Definition page_headers (n : nat) : bytes :=
  bytes_of "Content-type: text/html" ++ crlf ++ bytes_of "Content-length: " ++ dec (Z.of_nat n) ++ crlf ++ crlf.
Definition error_page (status : HTTP_Status) (t : bytes) : bytes :=
  status_line status ++ page_headers (length (error_body status t)) ++ error_body status t.

Lemma dec_length n : (length (dec (Z.of_nat n)) <= S (Z.to_nat (Z.log2 (Z.of_nat n))))%nat.
Proof.
  unfold dec. destruct (Z.ltb_spec (Z.of_nat n) 0) as [|_]; [lia|].
  assert (∀ fuel m acc, (length (dec_loop fuel m acc) <= fuel + length acc)%nat) as H.
  { induction fuel as [|fuel IH]; intros m acc; cbn [dec_loop]; [lia|]. destruct (_ =? 0); [cbn; lia|]. specialize (IH (m / 10) ((48 + m mod 10) :: acc)). cbn [length] in IH. lia. }
  specialize (H (S (Z.to_nat (Z.log2 (Z.of_nat n)))) (Z.of_nat n) []). cbn [length] in H. lia.
Qed.

Lemma write_string data w : no_nul data →
  match correct_write data (-1) w with
  | Ret (r, w') => input w' = input w ∧ xfers w' `suffix_of` xfers w ∧ (forallb live (xfers w) = true →
      r = Z.of_nat (length data) ∧ wire w' = wire w ++ data ∧ forallb live (xfers w') = true ∧ (moves (xfers w) <= moves (xfers w') + length data)%nat)
  | Stuck => (moves (xfers w) < length data)%nat
  | _ => False
  end.
Proof.
  intros Hnn. unfold correct_write. rewrite (bind_ret get _ _ _ _ eq_refl), (data_len_whole data (-1) (or_intror (conj eq_refl Hnn))).
  assert (Hf : (length (xfers w) < io_fuel w)%nat) by (unfold io_fuel; lia).
  pose proof (correct_write_loop_spec data (length data) ltac:(lia) (io_fuel w) w 0 ltac:(lia) Hf) as Hw.
  pose proof (write_loop_moves data (length data) (io_fuel w) w 0 ltac:(lia) Hf) as Hm.
  change (Z.of_nat 0) with 0 in *. destruct (correct_write_loop (io_fuel w) data (Z.of_nat (length data)) 0 w) as [[r w']| | |]; try done; [|lia].
  destruct Hm as (Hsel & Hsuf & Hm). destruct Hw as (n & [Hwire Hin] & Hcase). rewrite drop_0 in Hwire. split_and!; [done..|].
  intros Hl. destruct Hcase as [[-> Hn]|(_ & _ & Hl')]; [|congruence]. specialize (Hm eq_refl).
  rewrite take_ge in Hwire by lia. split_and!; [done|done| |lia].
  destruct (forallb live (xfers w')) eqn:E; [done|]. pose proof (live_suffix _ _ Hsuf E). congruence.
Qed.

Lemma sprintf_in_ok size t : Z.of_nat (length t) < size → sprintf_in size (Ret t) = Ret (t, Z.of_nat (length t)).
Proof. intros H. unfold sprintf_in. cbn. by rewrite (proj2 (Z.ltb_lt _ _) H). Qed.

(** The blocks in which [http_error_return] prints are large enough for
    every status and every message, and over a connection that keeps working
    the whole page is sent, with a Content-length that is the length of its
    body. *)
Theorem error_page_sent (h : Request) (status : HTTP_Status) (w : io) (He : Z.of_nat (length (errmsg h)) <= 2 ^ 16) :
  ∃ t, format_s (http_returns status).2 [c_str (errmsg h)] = Ret t ∧
  match http_error_return h status w with
  | Ret (_, w') => input w' = input w ∧ (forallb live (xfers w) = true → wire w' = wire w ++ error_page status t)
  | Stuck => forallb live (xfers w) = true → (moves (xfers w) < length (error_page status t))%nat
  | _ => False
  end.
Proof.
  destruct (format_message status (c_str (errmsg h))) as (t&Et&Elt&Hnt). specialize (Hnt (c_str_no_nul _)). exists t. split; [done|].
  assert (length (c_str (errmsg h)) <= length (errmsg h))%nat as Hc.
  { generalize (errmsg h). intros b. induction b as [|c b IH]; [done|]. cbn. destruct (c =? 0); cbn; lia. }
  unfold http_error_return. destruct (http_returns status) as [message longmessage] eqn:Er. cbn [fst snd] in Et, Elt.
  assert (length message <= 40 ∧ length longmessage <= 120)%nat as [Hml Hll].
  { destruct status; injection Er as <- <-; cbn [bytes_of length]; lia. }
  rewrite Et. erewrite bind_ret by (apply lift_o_ret, sprintf_in_ok; lia). cbn iota beta.
  assert (format_s http_error_template [message; message; t] = Ret (error_body status t)) as Ef.
  { unfold error_body. rewrite Er. cbv -[app]. by rewrite <-?app_assoc. }
  assert (length (error_body status t) = length http_error_template - 6 + 2 * length message + length t)%nat as Elb.
  { unfold error_body, http_error_template. rewrite Er. len_norm. unfold crlf. cbn [length bytes_of fst]. lia. }
  assert (length http_error_template = 71)%nat as Elt0 by done.
  rewrite Ef. erewrite bind_ret by (apply lift_o_ret, sprintf_in_ok; lia). cbn iota beta.
  assert (format_s (bytes_of "HTTP/1.0 %s" ++ crlf) [message] = Ret (status_line status)) as Es.
  { unfold status_line. rewrite Er. cbv -[app]. done. }
  assert (length (status_line status) = 11 + length message)%nat as Els by (unfold status_line; rewrite Er; len_norm; cbn; lia).
  change (Z.of_nat (length (bytes_of "HTTP/1.0 " ++ crlf))) with 11.
  rewrite Es. erewrite bind_ret by (apply lift_o_ret, sprintf_in_ok; lia). cbn iota beta.
  set (hd := page_headers (length (error_body status t))).
  assert (length hd <= 45 + 20)%nat as Elh.
  { unfold hd, page_headers. len_norm. pose proof (dec_length (length (error_body status t))) as Hd.
    assert (Z.log2 (Z.of_nat (length (error_body status t))) < 19) by (apply Z.log2_lt_pow2; lia). unfold crlf. cbn [length bytes_of].
    pose proof (Z.log2_nonneg (Z.of_nat (length (error_body status t)))). lia. }
  assert (no_nul (status_line status) ∧ no_nul hd ∧ no_nul (error_body status t)) as (N1&N2&N3).
  { split_and!.
    - destruct status; unfold no_nul; apply (bool_decide_unpack _); vm_compute; exact I.
    - unfold hd, page_headers. rewrite !no_nul_app. pose proof (dec_no_nul (Z.of_nat (length (error_body status t)))).
      split_and!; try assumption; unfold no_nul; apply (bool_decide_unpack _); vm_compute; exact I.
    - unfold error_body. rewrite !no_nul_app. split_and!; try assumption; destruct status; unfold no_nul; apply (bool_decide_unpack _); vm_compute; exact I. }
  pose proof (write_string (status_line status) w N1) as H1. unfold error_page. fold hd.
  destruct (correct_write (status_line status) (-1) w) as [[r1 w1]| | |] eqn:E1; try done.
  2: { rewrite (bind_stuck _ _ _ E1). intros _. len_norm. lia. }
  step_with E1. destruct H1 as (Hi1&Hs1&H1).
  destruct (Z.ltb_spec r1 0) as [Hr1|_].
  { cbn. split; [done|]. intros Hl. destruct (H1 Hl) as (->&_). lia. }
  change (bytes_of "Content-type: text/html" ++ crlf ++ bytes_of "Content-length: " ++ dec (Z.of_nat (length (error_body status t))) ++ crlf ++ crlf) with hd.
  erewrite bind_ret by (apply lift_o_ret, sprintf_in_ok; lia). cbn iota beta.
  pose proof (write_string hd w1 N2) as H2.
  destruct (correct_write hd (-1) w1) as [[r2 w2]| | |] eqn:E2; try done.
  2: { rewrite (bind_stuck _ _ _ E2). intros Hl. destruct (H1 Hl) as (_&_&_&?). len_norm. lia. }
  step_with E2. destruct H2 as (Hi2&Hs2&H2).
  destruct (Z.ltb_spec r2 0) as [Hr2|_].
  { cbn. split; [congruence|]. intros Hl. destruct (H1 Hl) as (_&_&Hl1&_). destruct (H2 Hl1) as (->&_). lia. }
  pose proof (write_string (error_body status t) w2 N3) as H3.
  destruct (correct_write (error_body status t) (-1) w2) as [[r3 w3]| | |] eqn:E3; try done.
  - step_with E3. destruct H3 as (Hi3&_&H3). unfold mret at 1, M_mret. split; [congruence|]. intros Hl. destruct (H1 Hl) as (_&W1&Hl1&_).
    destruct (H2 Hl1) as (_&W2&Hl2&_). destruct (H3 Hl2) as (_&W3&_). by rewrite W3, W2, W1, <-!app_assoc.
  - rewrite (bind_stuck _ _ _ E3). intros Hl. destruct (H1 Hl) as (_&_&Hl1&?). destruct (H2 Hl1) as (_&_&Hl2&?). len_norm. lia.
Qed.

(** *** Witnesses and examples *)
Definition demo_fresh : Request := set_cli_hdrs (Alloc (λ _, 7) 8 init_Request.(cli_hdrs)) init_Request.
Definition demo_client (text : bytes) : io := Io [Moved 3; Failed EAGAIN; Moved 100; Moved 100] [Ready; Ready; Ready; TimedOut] [] text.

(** The headers come in two pieces. *)
Definition demo_whole : io := Io (Moved 3 :: Failed EAGAIN :: replicate 5 (Moved 100)) (replicate 7 Ready) [] (bytes_of "A" ++ crlf ++ crlf).
Lemma demo_complete : complete demo_whole 8.
Proof.
  exists 5%nat. split; [split; [split_and!; [reflexivity|repeat first [apply Forall_nil_2|apply Forall_cons_2; [reflexivity|]]|apply Nat.leb_le; reflexivity]|split; apply Nat.leb_le; reflexivity]|].
  split; [lia|]. split; [unfold no_nul; apply (bool_decide_unpack _); vm_compute; exact I|]. exists 1%nat. reflexivity.
Qed.

Lemma readline_headers_witness : ∃ r hp' opt w' got rest,
  readline_or_timeout demo_fresh READ_ALL_HEADERS None demo_whole = Ret ((r, hp', opt), w') ∧ r = Z.of_nat (length got) ∧
  bytes_of "A" ++ crlf ++ crlf = got ++ input w' ∧ ends_headers got ∧ data (cli_hdrs hp') = Some (got ++ 0 :: rest).
Proof.
  assert (fresh_buffer (cli_hdrs demo_fresh) 8) as H by (split_and!; [lia|reflexivity|reflexivity|eexists; split; reflexivity]).
  pose proof (readline_headers demo_fresh 8 demo_whole H) as Hr.
  assert ((λ x, ()) <$> readline_or_timeout demo_fresh READ_ALL_HEADERS None demo_whole = Ret ()) as E by (vm_compute; reflexivity).
  destruct (readline_or_timeout _ _ _ _) as [[[[r hp'] opt] w']| | |]; [|discriminate E..].
  destruct Hr as (got&rest&Hi&_&_&_&->&_&[[_ Hc]|[-> He]]); [destruct (Hc demo_complete)|].
  eexists _, _, opt, w', got, rest. split; [reflexivity|]. split; [reflexivity|]. split; [exact Hi|]. split; [exact He|reflexivity].
Defined.

(** At the end of the file the result is -1. *)
Example end_of_file : (λ x, x.1.1.1) <$> readline_or_timeout demo_fresh READ_ALL_HEADERS None (demo_client (bytes_of "A")) = Ret (-1).
Proof. vm_compute. reflexivity. Qed.

(** The request is complete after five bytes in two pieces. *)
Example readline_two_reads : (λ x, x.1.1.1) <$> readline_or_timeout demo_fresh READ_ALL_HEADERS None (demo_client (bytes_of "A" ++ crlf ++ crlf)) = Ret 5.
Proof. vm_compute. reflexivity. Qed.

(** A request that fills the buffer: the NUL goes one byte past it. *)
Example full_buffer_overflows : readline_or_timeout demo_fresh READ_ALL_HEADERS None (demo_client (bytes_of "GET /a HTTP/1.0")) = Crash.
Proof. vm_compute. reflexivity. Qed.

(** A body of ten bytes, and a header buffer of eight. *)
Example body_aborts : readline_or_timeout demo_fresh 10 (Some (replicate 11 7)) (demo_client (bytes_of "0123456789")) = Crash.
Proof. vm_compute. reflexivity. Qed.

Lemma large_body_aborts_witness :
  8 < 10 ∧ ∀ r, fst <$> readline_or_timeout demo_fresh 10 (Some (replicate 11 7)) (demo_client (bytes_of "012345")) = Ret r → r.1.1 = -1.
Proof.
  split; [lia|]. apply (proj2 (large_body_aborts demo_fresh (replicate 11 7) 10 (demo_client (bytes_of "012345")) ltac:(lia) ltac:(cbn; lia))).
  reflexivity.
Defined.

Definition demo_line : bytes := bytes_of "GET" ++ 32 :: bytes_of "/http://a/b" ++ 32 :: bytes_of "http/1.0" ++ 13 :: 10 :: crlf.
Definition demo_request : Request :=
  set_cli_hdrs (Buffer (Some (demo_line ++ [0])) (Z.of_nat (length demo_line)) (Z.of_nat (length demo_line) + 1) true) init_Request.

Lemma demo_request_holds : holds (cli_hdrs demo_request) demo_line.
Proof.
  exists []. split_and!; [reflexivity|reflexivity|apply (bool_decide_unpack _); vm_compute; exact I|vm_compute; reflexivity|vm_compute; discriminate|vm_compute; reflexivity].
Qed.

Lemma parse_request_line_witness :
  ∃ hp, parse_status_and_headers demo_request = Ret (HTTP_NO_ERR, hp) ∧
    (url hp, method hp) = (Some (bytes_of "http://a/b"), Some (bytes_of "GET")).
Proof.
  eexists. split.
  - rewrite (parse_request_line demo_request (bytes_of "GET") (bytes_of "/http://a/b") (bytes_of "http/1.0") 13 (10 :: crlf) demo_request_holds eq_refl);
      [reflexivity|discriminate|by apply (bool_decide_unpack _)|discriminate|by apply (bool_decide_unpack _)|discriminate| |by apply (bool_decide_unpack _)].
    intros x Hx. repeat (apply elem_of_cons in Hx as [->|Hx]; [by apply (bool_decide_unpack _)|]). by apply elem_of_nil in Hx.
  - reflexivity.
Defined.

Lemma parse_short_request_witness :
  ∃ hp, parse_status_and_headers
      (set_cli_hdrs (Buffer (Some (bytes_of "GET /a" ++ crlf ++ crlf ++ [0])) 10 11 true) init_Request) = Ret (HTTP_NO_ERR, hp) ∧
    url hp = Some (bytes_of "/a" ++ crlf ++ crlf).
Proof.
  eexists. split.
  - rewrite (parse_short_request (set_cli_hdrs (Buffer (Some (bytes_of "GET /a" ++ crlf ++ crlf ++ [0])) 10 11 true) init_Request)
      (bytes_of "GET") (bytes_of "/a" ++ crlf ++ crlf));
      [reflexivity| |reflexivity|discriminate|by apply (bool_decide_unpack _)|by apply (bool_decide_unpack _)].
    exists []. split_and!; [reflexivity|reflexivity|apply (bool_decide_unpack _); vm_compute; exact I|vm_compute; reflexivity|vm_compute; discriminate|vm_compute; reflexivity].
  - reflexivity.
Defined.

Lemma error_page_sent_witness :
  ∃ t, format_s (http_returns HTTP_ERR_BAD_TOKEN).2 [c_str (errmsg init_Request)] = Ret t ∧
  match http_error_return init_Request HTTP_ERR_BAD_TOKEN (Io [Moved 1000; Moved 1000; Moved 7; Moved 1000] [] [] []) with
  | Ret (_, w') => input w' = [] ∧ (true = true → wire w' = error_page HTTP_ERR_BAD_TOKEN t)
  | Stuck => true = true → (4 < length (error_page HTTP_ERR_BAD_TOKEN t))%nat
  | _ => False
  end.
Proof. apply (error_page_sent init_Request HTTP_ERR_BAD_TOKEN (Io [Moved 1000; Moved 1000; Moved 7; Moved 1000] [] [] [])). vm_compute. discriminate. Defined.

(** When the connection to the cache fails in the middle of a cut-through
    transfer, the -1 of [read] becomes the length of the next block: the
    buffer is taken for a C string, which it is not. *)
Lemma tunnel_read_error_crashes {Monitor} n outptr outlen (s : fe) s1 (c : io) ps e r :
  outlen ≠ 0 → 0 <= outlen < 2 ^ 31 → Forall (λ b, b ≠ 0) outptr →
  on_cli (Monitor := Monitor) (write_block (Some outptr) outlen) s = Ret (outlen, s1) →
  peers (cache s1) = c :: ps → xfers c = Failed e :: r →
  tunnel_loop (S (S n)) outptr outlen outlen s = Crash.
Proof.
  intros Hne Hl Hz Hw Hp Hx. cbn [tunnel_loop]. rewrite (proj2 (Z.eqb_neq _ _) Hne). rewrite i32_small by done. step_with Hw.
  rewrite wrap_small, Z.eqb_refl by lia. cbn [negb].
  assert (∃ s2, on_cache (on_conn (sys_read (Z.to_nat outlen))) s1 = Ret ((-1, e, []), s2)) as [s2 E].
  { unfold on_cache, on_conn. rewrite Hp. unfold sys_read. rewrite Hx. by eexists. }
  step_with E. assert (store_at outptr 0 [] = Ret outptr) as Est.
  { unfold store_at. rewrite decide_True by (cbn; lia). by rewrite drop_0. }
  rewrite (bind_ret _ _ s2 outptr s2) by (unfold lift_f; by rewrite Est).
  change (u32 (-1)) with 4294967295. change (4294967295 =? 0) with false. change (i32 4294967295) with (-1).
  assert (cstr_at outptr 0 = None) as Ec.
  { unfold cstr_at. rewrite drop_0. rewrite decide_False; [done|]. rewrite <-(app_nil_r outptr) at 1. rewrite span_in_app.
    assert (forallb (λ c0, negb (c0 =? 0)) outptr = true) as ->; [|cbn; lia].
    apply forallb_forall. intros x Hx'%list_elem_of_In. rewrite Forall_forall in Hz. specialize (Hz x Hx'). by destruct (Z.eqb_spec x 0). }
  unfold mbind, M_mbind, on_cli, write_block. change (-1 =? -1) with true. rewrite Ec. done.
Qed.
