(* ===== verification/Args.v ===== *)
(** * Distiller arguments (ptm/include/distinterface.h, ptm/src/database/distdb.cc)

    The list of arguments that goes with a request: an argument is an integer,
    a string or a number in floating point, stored in a union of 80 bytes.  A
    [double] is its eight bytes (IEEE 754, little-endian); [strtod] and
    ["%f"] round correctly, in decimal notation.  [unsigned long] has 32 bits. *)

From S2P Require Import Prelude CString SockIO Partition.
Open Scope Z_scope.

Definition MAX_ARGS : nat := 50.
Definition MAX_ARG_STRING : nat := 80.

Inductive ArgumentType := typeInt | typeString | typeDouble.
#[export] Instance ArgumentType_dec : EqDecision ArgumentType.
Proof. solve_decision. Defined.

Record Argument := MkArgument {
  type : ArgumentType;
  id : Z;
  a : bytes;                  (* the union *)
}.
Record ArgumentList := MkArgumentList {
  nargs : Z;
  arg : list Argument;        (* the array of MAX_ARGS *)
}.
#[export] Instance Argument_dec : EqDecision Argument.
Proof. solve_decision. Defined.
#[export] Instance ArgumentList_dec : EqDecision ArgumentList.
Proof. solve_decision. Defined.

(** ** Access *)

(** The bytes [s] stored at the start of the union. *)
Definition put (s u : bytes) : bytes := s ++ drop (length s) u.

Definition SET_ARG_ID (arg : Argument) (i : Z) : Argument := MkArgument (type arg) (u32 i) (a arg).
Definition SET_ARG_STRING (arg : Argument) (s : bytes) : Argument :=
  MkArgument typeString (id arg) (put (strncpy_bytes s (MAX_ARG_STRING - 1)) (a arg)).
Definition SET_ARG_INT (arg : Argument) (i : Z) : Argument := MkArgument typeInt (id arg) (put (to_le 4 i) (a arg)).
Definition SET_ARG_DOUBLE (arg : Argument) (d : bytes) : Argument := MkArgument typeDouble (id arg) (put d (a arg)).

Definition ARG_STRING (arg : Argument) : outcome bytes :=
  match type arg with
  | typeString => match cstr_at (a arg) 0 with Some s => Ret s | None => Crash end
  | _ => Ret []
  end.
Definition ARG_INT (arg : Argument) : Z := match type arg with typeInt => i32 (of_le (take 4 (a arg))) | _ => 0 end.
Definition ARG_DOUBLE (arg : Argument) : bytes := match type arg with typeDouble => take 8 (a arg) | _ => to_le 8 0 end.

(** Elements of the array; an access out of range is a [Crash]. *)
Definition arg_at (al : list Argument) (i : Z) : outcome Argument :=
  if i <? 0 then Crash else match al !! Z.to_nat i with Some x => Ret x | None => Crash end.
Definition arg_set (al : list Argument) (i : Z) (x : Argument) : outcome (list Argument) :=
  if (0 <=? i) && (i <? Z.of_nat (length al)) then Ret (<[Z.to_nat i := x]> al) else Crash.

(** The index of the first argument of that id, of [n] to look at. *)
Fixpoint getArgumentFromId_loop (args : list Argument) (i : Z) (n : nat) (id_ : Z) : outcome (option Z) :=
  match n with
  | O => Ret None
  | S n' => x ← arg_at args i; if id x =? id_ then Ret (Some i) else getArgumentFromId_loop args (i + 1) n' id_
  end.
Definition getArgumentFromId (args : list Argument) (numberOfArgs id_ : Z) : outcome (option Z) :=
  getArgumentFromId_loop args 0 (Z.to_nat numberOfArgs) id_.
Definition getArgumentFromIdInList (al : ArgumentList) (id_ : Z) : outcome (option Argument) :=
  r ← getArgumentFromId (arg al) (nargs al) id_;
  match r with None => Ret None | Some i => x ← arg_at (arg al) i; Ret (Some x) end.

(** The index at which the loop over the first [n] elements stops. *)
Fixpoint id_index (l : list Argument) (i : Z) (n : nat) (id_ : Z) : outcome Z :=
  match n with
  | O => Ret i
  | S n' => x ← arg_at l i; if id x =? id_ then Ret i else id_index l (i + 1) n' id_
  end.

(** ** The argument identifiers of the front end (include/ARGS.h) *)
Definition FRONT_NO_DISTILL : Z := 1.
Definition FRONT_MTU : Z := 3.
Definition FRONT_RETRY_DISTILL : Z := 4.
Definition FRONT_QUALITY : Z := 5.
Definition FRONT_SHOW_ICON : Z := 6.
Definition FRONT_EXPERT : Z := 7.
Definition FRONT_CLIENT_IP : Z := 10.
Definition FRONT_USERID : Z := 11.
Definition FRONT_ANONYMIZE : Z := 12.
Definition FRONT_DEVELOPER : Z := 15.

(** ** Numbers in text *)

(** [strtoul(s, .., 10)] and the conversion ["%lu"] of [sscanf]: the number
    and the rest of the text. *)
Definition scan_lu (s : bytes) : option (Z * bytes) :=
  let '(sgn, s) := match skip_blanks s with
                   | c :: s' => if c =? 45 then (-1, s') else if c =? 43 then (1, s') else (1, c :: s')
                   | [] => (1, [])
                   end in
  '(n, r) ← scan_digits s 0 false; Some ((if 2 ^ 32 <=? n then 2 ^ 32 - 1 else u32 (sgn * n)), r).

(** The double nearest to [num / den], ties to even: its 64 bits. *)
Definition round_half_even (num den : Z) : Z :=
  let q := num / den in
  let r := 2 * (num mod den) in
  if (den <? r) || ((den =? r) && Z.odd q) then q + 1 else q.
Definition double_bits (num den : Z) : Z :=
  if num =? 0 then 0
  else
    let k := Z.log2 num - Z.log2 den in
    let k := if num * 2 ^ Z.max 0 (- k) <? den * 2 ^ Z.max 0 k then k - 1 else k in
    let q := Z.max (k - 52) (-1074) in
    let f := round_half_even (num * 2 ^ Z.max 0 (- q)) (den * 2 ^ Z.max 0 q) in
    Z.min ((q + 1074) * 2 ^ 52 + f) (2047 * 2 ^ 52).

(** Digits, their number being counted. *)
Fixpoint scan_frac (s : bytes) (acc n : Z) : Z * Z * bytes :=
  match s with
  | c :: s' => if isdigit c then scan_frac s' (acc * 10 + (c - 48)) (n + 1) else (acc, n, s)
  | [] => (acc, n, [])
  end.
(** An exponent; without digits it is not part of the number.  Exponents
    beyond 10000 are cut, which makes no difference for texts shorter than
    9000 bytes. *)
Definition scan_exp (s : bytes) : Z * bytes :=
  match s with
  | c :: s' =>
      if (c =? 101) || (c =? 69) then
        let '(sgn, t) := match s' with
                         | d :: t => if d =? 45 then (-1, t) else if d =? 43 then (1, t) else (1, s')
                         | [] => (1, s')
                         end in
        match scan_digits t 0 false with Some (n, r) => (sgn * Z.min n 10000, r) | None => (0, s) end
      else (0, s)
  | [] => (0, s)
  end.
(** The conversion ["%lf"]: the eight bytes and the rest of the text. *)
Definition scan_lf (s : bytes) : option (bytes * bytes) :=
  let '(neg, s) := match skip_blanks s with
                   | c :: s' => if c =? 45 then (true, s') else if c =? 43 then (false, s') else (false, c :: s')
                   | [] => (false, [])
                   end in
  let '(m, n1, s) := scan_frac s 0 0 in
  let '(m, n2, s) := match s with
                     | c :: s' => if c =? 46 then scan_frac s' m 0 else (m, 0, s)
                     | [] => (m, 0, s)
                     end in
  if n1 + n2 =? 0 then None
  else
    let '(e, s) := scan_exp s in
    let e := e - n2 in
    let bits := double_bits (m * 10 ^ Z.max 0 e) (10 ^ Z.max 0 (- e)) in
    Some (to_le 8 (bits + if (neg : bool) then 2 ^ 63 else 0), s).

(** ["%f"]: six decimals. *)
Fixpoint pad0 (n : nat) (s : bytes) : bytes := if decide (n <= length s)%nat then s else match n with O => s | S n' => 48 :: pad0 n' s end.
Definition print_f (d : bytes) : bytes :=
  let bits := of_le d in
  let sign := if 2 ^ 63 <=? bits then [45] else [] in
  let bits := bits mod 2 ^ 63 in
  let e := bits / 2 ^ 52 in
  let f := bits mod 2 ^ 52 in
  if e =? 2047 then sign ++ (if f =? 0 then bytes_of "inf" else bytes_of "nan")
  else
    let q := Z.max (e - 1) 0 - 1074 in
    let f := if e =? 0 then f else f + 2 ^ 52 in
    let n := round_half_even (f * 10 ^ 6 * 2 ^ Z.max 0 q) (2 ^ Z.max 0 (- q)) in
    sign ++ dec (n / 10 ^ 6) ++ [46] ++ pad0 6 (dec (n mod 10 ^ 6)).

Example scan_print_half : (λ x, print_f x.1) <$> scan_lf (bytes_of " -2.50e0^") = Some (bytes_of "-2.500000").
Proof. vm_compute. reflexivity. Qed.
Example scan_tenth : (λ x, of_le x.1) <$> scan_lf (bytes_of "0.1") = Some 4591870180066957722.
Proof. vm_compute. reflexivity. Qed.
Example scan_huge : (λ x, print_f x.1) <$> scan_lf (bytes_of "1e999") = Some (bytes_of "inf").
Proof. vm_compute. reflexivity. Qed.
Example scan_denormal : (λ x, of_le x.1) <$> scan_lf (bytes_of "4.9e-324") = Some 1.
Proof. vm_compute. reflexivity. Qed.
Example print_small : (λ x, print_f x.1) <$> scan_lf (bytes_of ".0000015") = Some (bytes_of "0.000002").
Proof. vm_compute. reflexivity. Qed.

(** ** Lists of arguments *)

(** The last byte of the union is never written: strings end there. *)
Definition arg_ok (x : Argument) : Prop :=
  length (a x) = MAX_ARG_STRING ∧ last (a x) = Some 0 ∧ 0 <= id x < 2 ^ 32 ∧ Forall is_byte (a x).
Definition used (al : ArgumentList) : list Argument := take (Z.to_nat (nargs al)) (arg al).
(** A well-formed list: the array has its size, the count is within it, the
    elements are well formed, and no identifier is used twice. *)
Record args_ok (al : ArgumentList) : Prop := {
  ok_nargs : 0 <= nargs al <= Z.of_nat MAX_ARGS;
  ok_array : length (arg al) = MAX_ARGS;
  ok_elems : Forall arg_ok (arg al);
  ok_ids : NoDup (id <$> used al);
}.

(** The value of an identifier: its first argument. *)
Definition find_arg (i : Z) (l : list Argument) : option Argument := head (filter (λ x, id x = i) l).

Lemma used_length al : args_ok al → Z.of_nat (length (used al)) = nargs al.
Proof. intros [Hn Ha _ _]. unfold used. rewrite length_take, Ha. lia. Qed.

Lemma find_arg_app i l1 l2 : find_arg i (l1 ++ l2) = match find_arg i l1 with Some x => Some x | None => find_arg i l2 end.
Proof. unfold find_arg. rewrite filter_app. by destruct (filter _ l1). Qed.

Lemma find_arg_some i l x : find_arg i l = Some x → id x = i ∧ x ∈ l.
Proof.
  unfold find_arg. intros H. assert (x ∈ filter (λ x, id x = i) l) as Hin by (destruct (filter _ l); [done|injection H as ->; left]).
  by apply list_elem_of_filter in Hin.
Qed.

Lemma find_arg_none i l : find_arg i l = None ↔ Forall (λ x, id x ≠ i) l.
Proof.
  unfold find_arg. induction l as [|x l IH]; [done|]. rewrite Forall_cons. destruct (decide (id x = i)).
  - rewrite filter_cons_True by done. cbn. split; [done|]. by intros [? _].
  - rewrite filter_cons_False by done. rewrite IH. tauto.
Qed.

Lemma arg_at_lookup al i x : al !! i = Some x → arg_at al (Z.of_nat i) = Ret x.
Proof. intros E. unfold arg_at. rewrite Nat2Z.id, E. by destruct (Z.ltb_spec (Z.of_nat i) 0); [lia|]. Qed.

Lemma arg_set_ok al i x : (i < length al)%nat → arg_set al (Z.of_nat i) x = Ret (<[i := x]> al).
Proof.
  intros H. unfold arg_set. rewrite (proj2 (Z.leb_le 0 _)), (proj2 (Z.ltb_lt _ _)) by lia. cbn [andb]. by rewrite Nat2Z.id.
Qed.

Lemma lookup_used al i : (Z.of_nat i < nargs al) → used al !! i = arg al !! i.
Proof. intros H. unfold used. apply lookup_take_lt. lia. Qed.

(** The search finds the first argument of that identifier. *)
Lemma get_argument_spec al i : args_ok al →
  getArgumentFromIdInList al i = Ret (find_arg i (used al)).
Proof.
  intros Hok. pose proof (used_length al Hok) as Hl. destruct Hok as [Hn Ha _ _].
  assert (∀ n k, (k + n = Z.to_nat (nargs al))%nat →
    (r ← getArgumentFromId_loop (arg al) (Z.of_nat k) n i; match r with None => Ret None | Some j => x ← arg_at (arg al) j; Ret (Some x) end)
      = Ret (find_arg i (drop k (used al)))) as H.
  { induction n as [|n IH]; intros k Hk; cbn [getArgumentFromId_loop].
    - rewrite drop_ge by lia. done.
    - destruct (lookup_lt_is_Some_2 (arg al) k) as [x Hx]; [lia|].
      rewrite (arg_at_lookup _ k x Hx). cbn [mbind outcome_mbind].
      assert (used al !! k = Some x) as Hu by (rewrite lookup_used; [done|lia]).
      rewrite (drop_S _ _ _ Hu). unfold find_arg. destruct (Z.eqb_spec (id x) i) as [E|E].
      + rewrite filter_cons_True by done. cbn [mbind outcome_mbind]. by rewrite (arg_at_lookup _ k x Hx).
      + rewrite filter_cons_False by done. replace (Z.of_nat k + 1) with (Z.of_nat (S k)) by lia. exact (IH (S k) ltac:(lia)). }
  pose proof (H (Z.to_nat (nargs al)) O eq_refl) as E. rewrite drop_0 in E. exact E.
Qed.

(** *** Changing a list *)
Lemma insert_mid {A} (l1 : list A) x l2 r y k : k = length l1 → <[k := y]> ((l1 ++ x :: l2) ++ r) = (l1 ++ y :: l2) ++ r.
Proof. intros ->. rewrite <-!app_assoc. rewrite insert_app_r_alt by lia. by rewrite Nat.sub_diag. Qed.

(** The elements in use, and the rest of the array. *)
Lemma args_split al : args_ok al → ∃ rest, arg al = used al ++ rest ∧ Z.of_nat (length (used al)) = nargs al ∧ Forall arg_ok (used al) ∧ Forall arg_ok rest ∧
  (length (used al) + length rest = MAX_ARGS)%nat.
Proof.
  intros Hok. pose proof (used_length al Hok) as Hl. destruct Hok as [Hn Ha He _]. exists (drop (Z.to_nat (nargs al)) (arg al)).
  unfold used in *. rewrite take_drop. split_and!; [done|done|by apply Forall_take|by apply Forall_drop|].
  rewrite <-length_app, take_drop. done.
Qed.

Lemma args_make l rest : Forall arg_ok l → Forall arg_ok rest → NoDup (id <$> l) → (length l + length rest = MAX_ARGS)%nat →
  args_ok (MkArgumentList (Z.of_nat (length l)) (l ++ rest)) ∧ used (MkArgumentList (Z.of_nat (length l)) (l ++ rest)) = l.
Proof.
  intros Hl Hr Hn Hlen. assert (used (MkArgumentList (Z.of_nat (length l)) (l ++ rest)) = l) as E.
  { unfold used. cbn. by rewrite Nat2Z.id, take_app_length. }
  split; [|done]. split; [cbn; lia|cbn; by rewrite length_app|by apply Forall_app|by rewrite E].
Qed.

(** Replacing an element by one of the same identifier. *)
Lemma args_replace al l1 x l2 y : args_ok al → used al = l1 ++ x :: l2 → arg_ok y → id y = id x →
  ∃ v, arg_at (arg al) (Z.of_nat (length l1)) = Ret x ∧ arg_set (arg al) (Z.of_nat (length l1)) y = Ret v ∧
    args_ok (MkArgumentList (nargs al) v) ∧ used (MkArgumentList (nargs al) v) = l1 ++ y :: l2.
Proof.
  intros Hok Hu Hy Hid. destruct (args_split al Hok) as (rest&Ea&Hl&Hf1&Hf2&Hlen). destruct Hok as [_ _ _ Hnd].
  rewrite Hu in *. assert (length (l1 ++ y :: l2) = length (l1 ++ x :: l2)) as El by (by rewrite !length_app).
  rewrite Ea. exists ((l1 ++ y :: l2) ++ rest). split_and!.
  - apply arg_at_lookup. rewrite <-app_assoc. by rewrite lookup_app_r, Nat.sub_diag by lia.
  - rewrite arg_set_ok by (rewrite !length_app; cbn; lia). f_equal. by apply insert_mid.
  - rewrite <-Hl, <-El. apply args_make; [|done| |congruence].
    + apply Forall_app in Hf1 as [? Hf1]. inversion_clear Hf1. apply Forall_app. split; [done|]. by constructor.
    + rewrite fmap_app, fmap_cons in Hnd |- *. by rewrite Hid.
  - rewrite <-Hl, <-El. unfold used. cbn. by rewrite Nat2Z.id, take_app_length.
Qed.

(** Adding an element. *)
Lemma args_append al y : args_ok al → nargs al < Z.of_nat MAX_ARGS → arg_ok y → id y ∉ id <$> used al →
  ∃ x v, arg_at (arg al) (nargs al) = Ret x ∧ arg_ok x ∧ arg_set (arg al) (nargs al) y = Ret v ∧
    args_ok (MkArgumentList (nargs al + 1) v) ∧ used (MkArgumentList (nargs al + 1) v) = used al ++ [y].
Proof.
  intros Hok Hn Hy Hid. destruct (args_split al Hok) as (rest&Ea&Hl&Hf1&Hf2&Hlen). destruct Hok as [_ _ _ Hnd].
  destruct rest as [|x rest]; [cbn [length] in Hlen; lia|]. inversion_clear Hf2 as [|?? Hx Hf2']. exists x.
  rewrite Ea, <-Hl. exists ((used al ++ [y]) ++ rest). split_and!.
  - apply arg_at_lookup. by rewrite lookup_app_r, Nat.sub_diag by lia.
  - done.
  - rewrite arg_set_ok by (rewrite length_app; cbn; lia). f_equal. rewrite insert_app_r_alt by lia. rewrite Nat.sub_diag. cbn. by rewrite <-app_assoc.
  - replace (Z.of_nat (length (used al)) + 1) with (Z.of_nat (length (used al ++ [y]))) by (rewrite length_app; cbn; lia).
    apply args_make; [|done| |rewrite length_app; cbn [length] in *; lia].
    + apply Forall_app. split; [done|by constructor].
    + rewrite fmap_app. apply NoDup_app. split; [done|]. split; [|apply NoDup_singleton]. intros i Hi Hi2%list_elem_of_singleton. by subst i.
  - unfold used at 1. cbn. replace (Z.to_nat (Z.of_nat (length (used al)) + 1)) with (length (used al ++ [y])) by (rewrite length_app; cbn; lia).
    by rewrite take_app_length.
Qed.

(** *** Well-formed elements *)
Lemma put_length s u : (length s <= length u)%nat → length (put s u) = length u.
Proof. intros H. unfold put. rewrite length_app, length_drop. lia. Qed.
Lemma put_last s u : (length s < length u)%nat → last (put s u) = last u.
Proof.
  intros H. unfold put. destruct (drop (length s) u) as [|c r] eqn:E.
  - apply (f_equal length) in E. rewrite length_drop in E. cbn in E. lia.
  - rewrite last_app, last_cons. rewrite <-(take_drop (length s) u), E, last_app, last_cons. by destruct (last r).
Qed.
Lemma put_bytes s u : Forall is_byte s → Forall is_byte u → Forall is_byte (put s u).
Proof. intros Hs Hu. apply Forall_app. split; [done|by apply Forall_drop]. Qed.

(** Storing fewer than 80 bytes keeps an argument well formed. *)
Lemma arg_ok_put x t s : arg_ok x → (length s < MAX_ARG_STRING)%nat → Forall is_byte s → arg_ok (MkArgument t (id x) (put s (a x))).
Proof.
  intros (Hl&Hz&Hi&Hb) Hs Hsb. split_and!; cbn; [rewrite put_length; lia|rewrite put_last by lia; done|lia|lia|by apply put_bytes].
Qed.

Lemma arg_ok_id x i : arg_ok x → arg_ok (SET_ARG_ID x i).
Proof. intros (?&?&?&?). split_and!; try done; cbn; apply wrap_range; lia. Qed.
Lemma arg_ok_int x n : arg_ok x → arg_ok (SET_ARG_INT x n).
Proof. intros H. apply arg_ok_put; [done|rewrite length_to_le; unfold MAX_ARG_STRING; lia|apply to_le_bytes]. Qed.
Lemma strncpy_bytes_length s n : length (strncpy_bytes s n) = n.
Proof. unfold strncpy_bytes. rewrite length_app, length_take, length_replicate. lia. Qed.
Lemma arg_ok_string x s : arg_ok x → Forall is_byte s → arg_ok (SET_ARG_STRING x s).
Proof.
  intros H Hs. apply arg_ok_put; [done|rewrite strncpy_bytes_length; unfold MAX_ARG_STRING; lia|].
  unfold strncpy_bytes. apply Forall_app. split; [by apply Forall_take|]. apply Forall_replicate. unfold is_byte. lia.
Qed.
Lemma arg_ok_double x d : arg_ok x → length d = 8%nat → Forall is_byte d → arg_ok (SET_ARG_DOUBLE x d).
Proof. intros H Hl Hd. apply arg_ok_put; [done|rewrite Hl; unfold MAX_ARG_STRING; lia|done]. Qed.

Lemma scan_lf_bytes s d r : scan_lf s = Some (d, r) → length d = 8%nat ∧ Forall is_byte d.
Proof.
  unfold scan_lf. destruct (match skip_blanks s with [] => _ | _ => _ end) as [neg s1]. destruct (scan_frac s1 0 0) as [[m n1] s2].
  destruct (match s2 with [] => _ | _ => _ end) as [[m' n2] s3]. destruct (n1 + n2 =? 0); [done|]. destruct (scan_exp s3) as [e s4].
  intros E. apply (inj Some), pair_equal_spec in E as [<- _]. split; [apply length_to_le|apply to_le_bytes].
Qed.

(** *** Values *)
Inductive value := VInt (n : Z) | VStr (s : bytes) | VDbl (d : bytes).
Definition value_of (x : Argument) : value :=
  match type x with typeInt => VInt (ARG_INT x) | typeString => VStr (c_str (a x)) | typeDouble => VDbl (ARG_DOUBLE x) end.
Definition set_value (v : value) (x : Argument) : Argument :=
  match v with VInt n => SET_ARG_INT x n | VStr s => SET_ARG_STRING x s | VDbl d => SET_ARG_DOUBLE x d end.
(** What is kept of a value: 79 bytes of a string, an integer as [INT32]. *)
Definition kept (v : value) : value :=
  match v with VInt n => VInt (i32 n) | VStr s => VStr (take (MAX_ARG_STRING - 1) s) | VDbl d => VDbl d end.
Definition value_ok (v : value) : Prop :=
  match v with VInt n => True | VStr s => no_nul s ∧ Forall is_byte s | VDbl d => length d = 8%nat ∧ Forall is_byte d end.

Lemma arg_ok_set v x : value_ok v → arg_ok x → arg_ok (set_value v x).
Proof. destruct v; cbn; intros Hv Hx; [by apply arg_ok_int|by apply arg_ok_string; [|apply Hv]|by apply arg_ok_double; [|apply Hv..]]. Qed.
Lemma id_set v x : id (set_value v x) = id x.
Proof. by destruct v. Qed.

Lemma take_put k s u : (k <= length s)%nat → take k (put s u) = take k s.
Proof. intros H. unfold put. by rewrite take_app_le. Qed.

Lemma of_le_mod n z : of_le (to_le n z) = z mod 256 ^ Z.of_nat n.
Proof.
  revert z. induction n as [|n IH]; intros z; cbn [to_le of_le]; [by rewrite Z.mod_1_r|].
  rewrite IH, Nat2Z.inj_succ, Z.pow_succ_r, Z.rem_mul_r by lia. done.
Qed.

(** Storing a value and reading it back. *)
Lemma value_of_set v x : value_ok v → arg_ok x → value_of (set_value v x) = kept v.
Proof.
  intros Hv Hx. destruct v as [n|s|d]; cbn [kept value_ok set_value] in *; unfold value_of; cbn [type SET_ARG_INT SET_ARG_STRING SET_ARG_DOUBLE].
  - unfold ARG_INT. cbn [type a SET_ARG_INT]. rewrite take_put by (rewrite length_to_le; lia).
    rewrite take_ge by (rewrite length_to_le; lia). f_equal. unfold swrap.
    rewrite of_le_mod. change (256 ^ Z.of_nat 4) with (2 ^ 32).
    apply (f_equal (λ z, z - 2 ^ (32 - 1))). rewrite Zplus_mod_idemp_l. done.
  - destruct Hv as [Hn _]. f_equal. cbn [a SET_ARG_STRING]. unfold put, strncpy_bytes. rewrite <-app_assoc.
    destruct Hx as (Hl&Hz&_). set (n := (MAX_ARG_STRING - 1)%nat). assert (n = 79%nat) as En79 by done. clearbody n.
    destruct (replicate (n - length s) 0 ++ drop (length (take n s ++ replicate (n - length s) 0)) (a x)) as [|c r] eqn:E.
    + apply (f_equal length) in E. rewrite length_app, length_drop, length_app, length_take, length_replicate, Hl in E. cbn [length] in E.
      unfold MAX_ARG_STRING in E. lia.
    + assert (c = 0) as ->.
      { destruct (n - length s)%nat eqn:En; cbn in E; [|by injection E]. cbn [replicate app] in E.
        rewrite app_nil_r, length_take_le in E by lia.
        assert (a x !! n = Some c) as Hc by (replace n with (n + 0)%nat by lia; rewrite <-lookup_drop, E; done).
        rewrite last_lookup, Hl in Hz. rewrite En79 in Hc. cbn in Hz. congruence. }
      apply c_str_stop. by apply Forall_take.
  - unfold ARG_DOUBLE. cbn [type a SET_ARG_DOUBLE]. destruct Hv as [Hl _]. rewrite take_put by lia. by rewrite take_ge by lia.
Qed.

Lemma c_str_ok u : Forall is_byte u → no_nul (c_str u) ∧ Forall is_byte (c_str u).
Proof.
  induction 1 as [|c u Hc Hu [IH1 IH2]]; [by split; constructor|]. cbn [c_str]. destruct (Z.eqb_spec c 0); [by split; constructor|]. by split; constructor.
Qed.

Lemma value_of_ok x : arg_ok x → value_ok (value_of x).
Proof.
  intros (Hl&_&_&Hb). unfold value_of, ARG_DOUBLE. destruct (type x) eqn:E; cbn [value_ok]; [done|by apply c_str_ok|].
  rewrite length_take, Hl. split; [done|by apply Forall_take].
Qed.

(** The preferences an argument list stands for. *)
Definition view (al : ArgumentList) (i : Z) : option value := value_of <$> find_arg i (used al).

(** *** Searching and views *)
Lemma id_index_spec al i l1 l2 : (∃ rest, arg al = (l1 ++ l2) ++ rest) →
  ((i ∉ id <$> l2) ∧ id_index (arg al) (Z.of_nat (length l1)) (length l2) i = Ret (Z.of_nat (length (l1 ++ l2)))) ∨
  ∃ p x q, l2 = p ++ x :: q ∧ id x = i ∧ (i ∉ id <$> p) ∧ id_index (arg al) (Z.of_nat (length l1)) (length l2) i = Ret (Z.of_nat (length (l1 ++ p))).
Proof.
  intros [rest Ea]. revert l1 Ea. induction l2 as [|x l2 IH]; intros l1 Ea; cbn [id_index length].
  - left. rewrite app_nil_r. split; [apply not_elem_of_nil|done].
  - rewrite (arg_at_lookup (arg al) (length l1) x) by (rewrite Ea, <-app_assoc, lookup_app_r, Nat.sub_diag by lia; done). cbn [mbind outcome_mbind].
    destruct (Z.eqb_spec (id x) i) as [Hi|Hi].
    + right. exists [], x, l2. rewrite app_nil_r. split_and!; try done. apply not_elem_of_nil.
    + replace (Z.of_nat (length l1) + 1) with (Z.of_nat (length (l1 ++ [x]))) by (rewrite length_app; cbn; lia).
      destruct (IH (l1 ++ [x]) ltac:(by rewrite <-(app_assoc l1))) as [[Hn E]|(p&y&q&->&Hy&Hp&E)].
      * left. split; [rewrite fmap_cons; by apply not_elem_of_cons|]. rewrite E. by rewrite <-app_assoc.
      * right. exists (x :: p), y, q. split_and!; [done|done|rewrite fmap_cons; by apply not_elem_of_cons|]. rewrite E. by rewrite <-app_assoc.
Qed.

Lemma used_prefix al : args_ok al → ∃ rest, arg al = ([] ++ used al) ++ rest.
Proof. intros Hok. destruct (args_split al Hok) as (rest&E&_). by exists rest. Qed.

Lemma find_arg_mid l1 x l2 : NoDup (id <$> l1 ++ x :: l2) → ∀ y j, id y = id x →
  find_arg j (l1 ++ y :: l2) = (if decide (j = id x) then Some y else find_arg j (l1 ++ x :: l2)) ∧
  find_arg j (l1 ++ l2) = (if decide (j = id x) then None else find_arg j (l1 ++ x :: l2)).
Proof.
  intros Hnd y j Hy. rewrite fmap_app, fmap_cons in Hnd. apply NoDup_app in Hnd as (_&Hd&Hnd). apply NoDup_cons in Hnd as [Hx _].
  assert (id x ∉ id <$> l1) as Hx1 by (intros Hin; apply (Hd _ Hin); left).
  assert (∀ l, id x ∉ id <$> l → find_arg (id x) l = None) as Hnone.
  { intros l Hl. apply find_arg_none. rewrite Forall_forall. intros z Hz E. apply Hl. rewrite <-E. by apply list_elem_of_fmap_2. }
  assert (∀ z l, find_arg j (z :: l) = if decide (id z = j) then Some z else find_arg j l) as Hcons.
  { intros z l. unfold find_arg. destruct (decide (id z = j)); [by rewrite filter_cons_True|by rewrite filter_cons_False]. }
  rewrite !find_arg_app, !Hcons, Hy. destruct (decide (j = id x)) as [->|Hj].
  - rewrite !(Hnone l1), !(Hnone l2) by done. by rewrite !decide_True.
  - by rewrite !(decide_False (P := id x = j)) by congruence.
Qed.

Lemma find_arg_snoc l y j : id y ∉ id <$> l → find_arg j (l ++ [y]) = if decide (j = id y) then Some y else find_arg j l.
Proof.
  intros Hy. rewrite find_arg_app. destruct (decide (j = id y)) as [->|Hj].
  - assert (find_arg (id y) l = None) as ->.
    { apply find_arg_none. rewrite Forall_forall. intros z Hz E. apply Hy. rewrite <-E. by apply list_elem_of_fmap_2. }
    unfold find_arg. by rewrite filter_cons_True.
  - destruct (find_arg j l); [done|]. unfold find_arg. by rewrite filter_cons_False.
Qed.

Lemma view_none al i : args_ok al → view al i = None ↔ i ∉ id <$> used al.
Proof.
  intros _. unfold view. rewrite fmap_None, find_arg_none, Forall_forall. split.
  - intros H (x&->&Hx)%list_elem_of_fmap. by apply (H x).
  - intros H x Hx E. apply H. rewrite <-E. by apply list_elem_of_fmap_2.
Qed.

(** *** Printed numbers read back *)
Lemma scan_digits_run ds r acc : forallb isdigit ds = true → scan_digits (ds ++ r) acc true = scan_digits r (digits ds acc) true.
Proof.
  revert acc. induction ds as [|d ds IH]; intros acc; cbn; [done|]. intros [Hd Hds]%andb_prop. rewrite Hd. by apply IH.
Qed.

Lemma dec_shape n : 0 <= n → ∃ c ds, dec n = c :: ds ∧ forallb isdigit (c :: ds) = true ∧ digits (c :: ds) 0 = n.
Proof.
  intros Hn. unfold dec. rewrite (proj2 (Z.ltb_ge n 0) Hn).
  destruct (dec_loop_spec (Z.to_nat (Z.log2 n)) n []) as (c & ds & -> & Hd & Hdig).
  { split; [lia|]. rewrite Nat2Z.inj_succ, Z2Nat.id by apply Z.log2_nonneg.
    destruct (Z.eq_dec n 0) as [->|]; [done|]. apply Z.log2_spec. lia. }
  exists c, ds. rewrite app_nil_r. split_and!; [done|done|]. specialize (Hdig []). by rewrite app_nil_r in Hdig.
Qed.

Lemma scan_lu_dec n r : 0 <= n < 2 ^ 32 → match r with [] => True | c :: _ => isdigit c = false end → scan_lu (dec n ++ r) = Some (n, r).
Proof.
  intros Hn Hr. destruct (dec_shape n ltac:(lia)) as (c&ds&->&Hd&Hv). cbn [forallb] in Hd. apply andb_true_iff in Hd as [Hc Hd].
  unfold scan_lu. cbn [app skip_blanks].
  assert (((c =? 32) || ((9 <=? c) && (c <=? 13))) = false ∧ (c =? 45) = false ∧ (c =? 43) = false) as (-> & -> & ->)
    by (unfold isdigit in Hc; lia).
  cbn iota. cbn [scan_digits]. rewrite Hc, scan_digits_run by done.
  assert (digits ds (0 * 10 + (c - 48)) = n) as -> by (cbn [digits] in Hv; by rewrite Hc in Hv).
  assert (scan_digits r n true = Some (n, r)) as -> by (destruct r as [|d r]; cbn; [done|by rewrite Hr]).
  cbn [mbind option_bind]. rewrite Z.mul_1_l, wrap_small by done. by rewrite (proj2 (Z.leb_gt _ _)) by lia.
Qed.

Lemma dec_no_sep n c : 0 <= n → isdigit c = false → c ∉ dec n.
Proof.
  intros Hn Hc Hin. destruct (dec_shape n Hn) as (d&ds&E&Hd&_). rewrite E in Hin. rewrite forallb_forall in Hd.
  specialize (Hd c ltac:(by apply list_elem_of_In)). congruence.
Qed.

Lemma dec_nonempty n : 0 <= n → dec n ≠ [].
Proof. intros Hn. destruct (dec_shape n Hn) as (d&ds&->&_). done. Qed.

Lemma dec_bytes n : 0 <= n → Forall is_byte (dec n) ∧ no_nul (dec n).
Proof.
  intros Hn. destruct (dec_shape n Hn) as (c&ds&->&Hd&_). rewrite forallb_forall in Hd.
  split; apply Forall_forall; intros x Hx%list_elem_of_In; specialize (Hd x Hx); unfold isdigit in Hd; unfold is_byte; lia.
Qed.

(** Strings of well-formed arguments end within their union. *)
Lemma cstr_at_c_str u : last u = Some 0 → cstr_at u 0 = Some (c_str u) ∧ (length (c_str u) < length u)%nat.
Proof.
  intros (v&->)%last_Some. unfold cstr_at. rewrite drop_0.
  assert (span_in (λ c, negb (c =? 0)) (v ++ [0%Z]) = length (c_str (v ++ [0%Z])) ∧ take (length (c_str (v ++ [0%Z]))) (v ++ [0%Z]) = c_str (v ++ [0%Z]) ∧
    (length (c_str (v ++ [0%Z])) < length (v ++ [0%Z]))%nat) as (->&E&Hl).
  { induction v as [|c v (IH1&IH2&IH3)]; [split_and!; [reflexivity|reflexivity|exact (le_n 1)]|]. cbn [app span_in c_str]. destruct (c =? 0); cbn [negb]; [split_and!; [reflexivity|reflexivity|cbn [length]; lia]|].
    cbn [length take]. rewrite IH1, IH2. split_and!; [done|done|lia]. }
  rewrite decide_True by done. by rewrite E.
Qed.

Lemma arg_string_value x : arg_ok x → type x = typeString → ARG_STRING x = Ret (c_str (a x)) ∧ (length (c_str (a x)) < MAX_ARG_STRING)%nat.
Proof. intros (Hl&Hz&_) E. unfold ARG_STRING. rewrite E. destruct (cstr_at_c_str (a x) Hz) as [-> H]. by rewrite <-Hl. Qed.

Lemma arg_string_ok x : arg_ok x → ∃ t, ARG_STRING x = Ret t ∧ (length t < MAX_ARG_STRING)%nat.
Proof.
  intros Hx. destruct (type x) eqn:E; [|exact (ex_intro _ _ (arg_string_value x Hx E))|]; exists []; unfold ARG_STRING; rewrite E; split; done || (unfold MAX_ARG_STRING; cbn; lia).
Qed.

(** An argument whose union is cleared. *)
Definition blank_arg (i : Z) : Argument := MkArgument typeInt i (replicate MAX_ARG_STRING 0).
Lemma blank_arg_ok i : 0 <= i < 2 ^ 32 → arg_ok (blank_arg i).
Proof. intros Hi. split_and!; [done|done|cbn; lia|cbn; lia|]. cbn [a blank_arg]. apply Forall_replicate. unfold is_byte. lia. Qed.
