(* ===== verification/UserPrefs.v ===== *)
(** * User preferences (frontend/src/userpref.c, frontend/src/parse_upref.c)

    The preferences of the users of the proxy: argument lists in a database
    keyed by the client's address, with a direct-mapped cache of 401 buckets in
    front of it, and the request that changes them from a form.

    The database is gdbm, a library: the class [Gdbm] has its operations and
    the laws of its manual.  A datum is the memory image of an
    [ArgumentList] on a 32-bit machine.  The lock around each database call is
    left out: the operations are sequential. *)

From S2P Require Import Prelude CString SockIO Partition Args HttpComm.
Open Scope Z_scope.

(** ** The database *)

(** A database file; [gdbm_store] with [GDBM_REPLACE] returns 0 when it has
    stored the datum. *)
Class Gdbm (DB : Type) := {
  gdbm_fetch : DB → bytes → option bytes;
  gdbm_store : DB → bytes → bytes → Z * DB;
  fetch_stored : ∀ db k v, (gdbm_store db k v).1 = 0 → gdbm_fetch (gdbm_store db k v).2 k = Some v;
  fetch_other : ∀ db k v k', k ≠ k' → gdbm_fetch (gdbm_store db k v).2 k' = gdbm_fetch db k';
  fetch_failed : ∀ db k v, (gdbm_store db k v).1 ≠ 0 → (gdbm_store db k v).2 = db;
}.

(** *** Memory images *)
Definition type_code (t : ArgumentType) : Z := match t with typeInt => 0 | typeString => 1 | typeDouble => 2 end.
Definition code_type (z : Z) : option ArgumentType :=
  if z =? 0 then Some typeInt else if z =? 1 then Some typeString else if z =? 2 then Some typeDouble else None.
Definition image_arg (x : Argument) : bytes := to_le 4 (type_code (type x)) ++ to_le 4 (id x) ++ a x.
Definition image (al : ArgumentList) : bytes := to_le 4 (nargs al) ++ concat (image_arg <$> arg al).
Definition sizeof_Argument : nat := 4 + 4 + MAX_ARG_STRING.
Definition sizeof_ArgumentList : nat := 4 + MAX_ARGS * sizeof_Argument.

Definition read_arg (s : bytes) : option Argument :=
  t ← code_type (of_le (take 4 s));
  Some (MkArgument t (of_le (take 4 (drop 4 s))) (take MAX_ARG_STRING (drop 8 s))).
Fixpoint read_args (n : nat) (s : bytes) : option (list Argument) :=
  match n with
  | O => Some []
  | S n' => x ← read_arg s; l ← read_args n' (drop sizeof_Argument s); Some (x :: l)
  end.
(** The list with [s] copied over its memory. *)
Definition memcpy_list (s : bytes) (al : ArgumentList) : outcome ArgumentList :=
  if decide (length s <= sizeof_ArgumentList)%nat then
    let m := put s (image al) in
    match read_args MAX_ARGS (drop 4 m) with
    | Some l => Ret (MkArgumentList (i32 (of_le (take 4 m))) l)
    | None => Crash
    end
  else Crash.

Definition USERCACHE_SIZE : Z := 401.

Record UserPrefsCache := MkUserPrefsCache { key : Z; al : ArgumentList }.

Definition zero_arg : Argument := MkArgument typeInt 0 (replicate MAX_ARG_STRING 0).
Definition zero_list : ArgumentList := MkArgumentList 0 (replicate MAX_ARGS zero_arg).

(** ** userpref.c *)
Section Prefs.
Context {DB : Type} `{!Gdbm DB}.
(** What is on the stack of the function that calls. *)
Variable stack_list : ArgumentList.

Record prefs_state := PrefsState {
  userCache : list UserPrefsCache;
  prefs : DB;
  default_prefs : ArgumentList;
}.
Abbreviation PREFS := (M prefs_state).
Definition lift_p {A} (o : outcome A) : PREFS A := λ s, x ← o; Ret (x, s).

Definition int_arg (i v : Z) : Argument := MkArgument typeInt i (to_le 4 v ++ replicate (MAX_ARG_STRING - 4) 0).
Definition default_args : list Argument :=
  [int_arg FRONT_EXPERT 0; int_arg FRONT_QUALITY 3; int_arg FRONT_SHOW_ICON 1; int_arg FRONT_NO_DISTILL 0].

(** The loop over 256 file names; [gdbm_open] opens, or not. *)
Fixpoint open_loop (gdbm_open : bytes → option DB) (filename : bytes) (idx : Z) (n : nat) : option DB :=
  match n with
  | O => None
  | S n' =>
      match gdbm_open (filename ++ [46] ++ dec idx) with
      | Some db => Some db
      | None => open_loop gdbm_open filename (idx + 1) n'
      end
  end.
(** The static data are zero before; NULL is [None]. *)
Definition init_prefs (gdbm_open : bytes → option DB) (filename : bytes) : option prefs_state :=
  let dflt := MkArgumentList (Z.of_nat (length default_args)) (default_args ++ drop (length default_args) (arg zero_list)) in
  let cache := replicate (Z.to_nat USERCACHE_SIZE) (MkUserPrefsCache 0 zero_list) in
  match gdbm_open filename with
  | Some db => Some (PrefsState cache db dflt)
  | None => db ← open_loop gdbm_open filename 1 255; Some (PrefsState cache db dflt)
  end.

Definition hash (k : Z) : Z := u32 k mod USERCACHE_SIZE.

(** The argument list found, if the key is there. *)
Definition inUcache (ukey : Z) : PREFS (option ArgumentList) :=
  s ← get;
  b ← deref (userCache s !! Z.to_nat (hash ukey));
  mret (if key b =? ukey then Some (al b) else None).

Definition putInUcache (ukey : Z) (l : ArgumentList) : PREFS () :=
  modify (λ s, PrefsState (<[Z.to_nat (hash ukey) := MkUserPrefsCache ukey l]> (userCache s)) (prefs s) (default_prefs s)).

(** [al] is the list that is overwritten. *)
Definition getFromDBM (ukey : Z) (al : ArgumentList) : PREFS ArgumentList :=
  s ← get;
  match gdbm_fetch (prefs s) (to_le 4 ukey) with
  | Some d => lift_p (memcpy_list d al)
  | None => mret (default_prefs s)
  end.

Definition writeToDBM (ukey : Z) (al : ArgumentList) : PREFS () :=
  modify (λ s, PrefsState (userCache s) (gdbm_store (prefs s) (to_le 4 ukey) (image al)).2 (default_prefs s)).

Definition getFromUcache (key : Z) (al : ArgumentList) : PREFS (Z * ArgumentList) :=
  r ← inUcache key;
  match r with
  | Some al => mret (1, al)
  | None => al ← getFromDBM key al; _ ← putInUcache key al; mret (0, al)
  end.

Definition get_userprefs (ukey : Z) : PREFS (Z * ArgumentList) :=
  '(_, al) ← getFromUcache ukey stack_list; mret (nargs al, al).
Definition get_userprefs_with_write_intent (ukey : Z) (p : ArgumentList) : PREFS (Z * ArgumentList) :=
  p ← getFromDBM ukey p; mret (nargs p, p).
Definition set_userprefs (ukey : Z) (p : ArgumentList) : PREFS () :=
  _ ← putInUcache ukey p; writeToDBM ukey p.

Definition set_oneuserpref (ukey : Z) (x : Argument) : PREFS Z :=
  '(_, l) ← get_userprefs_with_write_intent ukey stack_list;
  i ← lift_p (id_index (arg l) 0 (Z.to_nat (nargs l)) (id x));
  if i <? nargs l then
    v ← lift_p (arg_set (arg l) i x);
    _ ← set_userprefs ukey (MkArgumentList (nargs l) v); mret 1
  else if (i =? nargs l) && (i <? Z.of_nat MAX_ARGS) then
    v ← lift_p (arg_set (arg l) i x);
    _ ← set_userprefs ukey (MkArgumentList (nargs l + 1) v); mret 1
  else mret 0.

(** ** parse_upref.c *)

(** [printf] of a text without arguments: a conversion has no argument to
    read. *)
Fixpoint format_none (fmt : bytes) : outcome bytes :=
  match fmt with
  | [] => Ret []
  | c :: fmt' =>
      if c =? 37 then
        match fmt' with
        | d :: fmt'' => if d =? 37 then r ← format_none fmt''; Ret (37 :: r) else Crash
        | [] => Crash
        end
      else r ← format_none fmt'; Ret (c :: r)
  end.

(** The loop that closes the gap, from index [i] on. *)
Fixpoint shift_loop (l : list Argument) (i : Z) (n : nat) : outcome (list Argument) :=
  match n with
  | O => Ret l
  | S n' => x ← arg_at l i; l ← arg_set l (i - 1) x; shift_loop l (i + 1) n'
  end.
Definition remove_from_arglist (id_ : Z) (al : ArgumentList) : outcome (bool * ArgumentList) :=
  i ← id_index (arg al) 0 (Z.to_nat (nargs al)) id_;
  if i <? nargs al then
    l ← shift_loop (arg al) (i + 1) (Z.to_nat (nargs al - (i + 1)));
    Ret (true, MkArgumentList (nargs al - 1) l)
  else Ret (false, al).

(** The last index of that identifier, or -1. *)
Fixpoint last_index (l : list Argument) (i : Z) (n : nat) (id_ argct : Z) : outcome Z :=
  match n with
  | O => Ret argct
  | S n' => x ← arg_at l i; last_index l (i + 1) n' id_ (if id x =? id_ then i else argct)
  end.

(** What the loop does with one token: the error, and the list. *)
Definition change_pref (token : bytes) (arglist : ArgumentList) : outcome (option bytes * ArgumentList) :=
  match strchr token 61 with
  | None => Ret (Some token, arglist)
  | Some eq =>
      let type := head_byte token in
      match scan_lu (tail token) with
      | None => Ret (Some (tail token), arglist)
      | Some (arg_id, _) =>
          argct ← last_index (arg arglist) 0 (Z.to_nat (nargs arglist)) arg_id (-1);
          if (argct =? -1) && (Z.of_nat MAX_ARGS <=? nargs arglist) then Ret (None, arglist)
          else
            '(argct, arglist) ←
              (if argct =? -1 then
                 let argct := nargs arglist in
                 x ← arg_at (arg arglist) argct;
                 l ← arg_set (arg arglist) argct (SET_ARG_ID x arg_id);
                 Ret (argct, MkArgumentList (nargs arglist + 1) l)
               else Ret (argct, arglist));
            let val := drop (S eq) token in
            let store f := x ← arg_at (arg arglist) argct; l ← arg_set (arg arglist) argct (f x); Ret (None, MkArgumentList (nargs arglist) l) in
            let remove := '(_, al) ← remove_from_arglist arg_id arglist; Ret (None, al) in
            if type =? 105 then
              if head_byte val =? 0 then remove
              else match scan_lu val with Some (n, _) => store (λ x, SET_ARG_INT x n) | None => Ret (Some val, arglist) end
            else if type =? 102 then
              if head_byte val =? 0 then remove
              else match scan_lf val with Some (d, _) => store (λ x, SET_ARG_DOUBLE x d) | None => Ret (Some val, arglist) end
            else if type =? 115 then
              if head_byte val =? 0 then remove else store (λ x, SET_ARG_STRING x val)
            else Ret (Some token, arglist)
      end
  end.

(** The variable [error_string]: it is not initialised before the loop. *)
Inductive error_var := NoError | ErrorString (s : bytes) | NotSet.

Fixpoint prefs_loop (fuel : nat) (st : ts_strtok_state) (arglist : ArgumentList) (error_string : error_var) :
    outcome (error_var * ArgumentList) :=
  match fuel with
  | O => Stuck
  | S fuel' =>
      '(token, st) ← next_token [38] st;
      match token with
      | None => Ret (error_string, arglist)
      | Some token =>
          '(e, arglist) ← change_pref token arglist;
          match e with
          | Some s => Ret (ErrorString s, arglist)
          | None => prefs_loop fuel' st arglist NoError
          end
      end
  end.

(** The status, and the message written to [err_str] with it. *)
Definition parse_and_change_prefs (url : bytes) (ukey : Z) : PREFS (HTTP_Status * option bytes) :=
  if ukey =? 0 then mret (HTTP_ERR_UNSPECIFIED, Some (bytes_of "Can't determine user"))
  else
    '(_, arglist) ← get_userprefs_with_write_intent ukey stack_list;
    match strchr url 63 with
    | None => mret (HTTP_ERR_MALFORMED_REQUEST, Some (bytes_of "User preferences"))
    | Some q =>
        match ts_strtok_init (Some (drop (S q) url)) with
        | None => crash
        | Some st =>
            '(error_string, arglist) ← lift_p (prefs_loop (S (length url)) st arglist NotSet);
            match error_string with
            | NotSet => crash
            | ErrorString s =>
                t ← lift_p (format_none s); mret (HTTP_ERR_BAD_TOKEN, Some (take (HTTP_ERRMSG_MAX - 1) t))
            | NoError => _ ← set_userprefs ukey arglist; mret (HTTP_NO_ERR, None)
            end
        end
    end.

(** The reply to a request for the preferences. *)
Definition send_prefs (p : ArgumentList) : IO () :=
  let pick i dflt := fold_left (λ v x, if id x =? i then ARG_INT x else v) (used p) dflt in
  _ ← correct_write (bytes_of "HTTP/1.0 200 OK" ++ [10]) (-1);
  _ ← correct_write (bytes_of "Content-Type: text/plain" ++ [10; 10]) (-1);
  let disabled := pick FRONT_NO_DISTILL 0 in
  let quality := pick FRONT_QUALITY 3 in
  _ ← correct_write ((if disabled =? 0 then bytes_of "true" else bytes_of "false") ++ [10] ++ dec quality ++ [10]) (-1);
  mret ().

(** The URLs that the options of the front end name. *)
Definition is_changepref_url (fe_prefs_change_url_string url : bytes) : bool :=
  strncasecmp fe_prefs_change_url_string url (length fe_prefs_change_url_string) =? 0.
Definition is_setpref_url (fe_prefs_set_url_string url : bytes) : bool :=
  strncasecmp fe_prefs_set_url_string url (length fe_prefs_set_url_string) =? 0.
Definition is_getpref_url (fe_get_prefs_url url : bytes) : bool :=
  bool_decide (take (length fe_get_prefs_url) url = fe_get_prefs_url).

End Prefs.

(** ** Specification of a form *)

(** What one token of the form asks for. *)
Inductive pref_change := Bad (s : bytes) | BadValue (i : Z) (s : bytes) | Change (i : Z) (v : option value).
Definition decode_pref (token : bytes) : pref_change :=
  match strchr token 61 with
  | None => Bad token
  | Some eq =>
      match scan_lu (tail token) with
      | None => Bad (tail token)
      | Some (i, _) =>
          let val := drop (S eq) token in
          let type := head_byte token in
          if negb ((type =? 105) || (type =? 102) || (type =? 115)) then BadValue i token
          else if decide (val = []) then Change i None
          else if type =? 105 then match scan_lu val with Some (n, _) => Change i (Some (VInt n)) | None => BadValue i val end
          else if type =? 102 then match scan_lf val with Some (d, _) => Change i (Some (VDbl d)) | None => BadValue i val end
          else Change i (Some (VStr val))
      end
  end.

(** *** Searching *)
Lemma last_index_spec al i l1 l2 acc : (∃ rest, arg al = (l1 ++ l2) ++ rest) →
  ((i ∉ id <$> l2) ∧ last_index (arg al) (Z.of_nat (length l1)) (length l2) i acc = Ret acc) ∨
  ∃ p x q, l2 = p ++ x :: q ∧ id x = i ∧ last_index (arg al) (Z.of_nat (length l1)) (length l2) i acc = Ret (Z.of_nat (length (l1 ++ p))).
Proof.
  intros [rest Ea]. revert l1 acc Ea. induction l2 as [|x l2 IH]; intros l1 acc Ea; cbn [last_index length].
  - left. split; [apply not_elem_of_nil|done].
  - rewrite (arg_at_lookup (arg al) (length l1) x) by (rewrite Ea, <-app_assoc, lookup_app_r, Nat.sub_diag by lia; done). cbn [mbind outcome_mbind].
    replace (Z.of_nat (length l1) + 1) with (Z.of_nat (length (l1 ++ [x]))) by (rewrite length_app; cbn; lia).
    destruct (IH (l1 ++ [x]) (if id x =? i then Z.of_nat (length l1) else acc) ltac:(by rewrite <-(app_assoc l1))) as [[Hn E]|(p&y&q&->&Hy&E)].
    + rewrite E. destruct (Z.eqb_spec (id x) i) as [Hi|Hi].
      * right. exists [], x, l2. rewrite app_nil_r. done.
      * left. split; [|done]. rewrite fmap_cons. apply not_elem_of_cons. done.
    + right. exists (x :: p), y, q. split_and!; [done|done|]. rewrite E. by rewrite <-app_assoc.
Qed.

(** *** Removing *)
Lemma shift_loop_spec p x q r : ∃ y, shift_loop (p ++ x :: q ++ r) (Z.of_nat (length p) + 1) (length q) = Ret (p ++ q ++ y :: r) ∧ y ∈ x :: q.
Proof.
  revert p x. induction q as [|c q IH]; intros p x; cbn [shift_loop length app].
  - exists x. split; [done|left].
  - assert (arg_at (p ++ x :: c :: q ++ r) (Z.of_nat (length p) + 1) = Ret c) as ->.
    { replace (Z.of_nat (length p) + 1) with (Z.of_nat (length (p ++ [x]))) by (rewrite length_app; cbn; lia).
      apply arg_at_lookup. replace (p ++ x :: c :: q ++ r) with ((p ++ [x]) ++ c :: q ++ r) by (by rewrite <-app_assoc).
      by rewrite lookup_app_r, Nat.sub_diag by lia. }
    cbn [mbind outcome_mbind app]. replace (Z.of_nat (length p) + 1 - 1) with (Z.of_nat (length p)) by lia.
    rewrite arg_set_ok by (rewrite length_app; cbn; lia). cbn [mbind outcome_mbind].
    rewrite insert_app_r_alt by lia. rewrite Nat.sub_diag. cbn [insert list_insert].
    destruct (IH (p ++ [c]) c) as (y&E&Hy). exists y. rewrite <-!app_assoc in E. cbn [app] in E.
    replace (Z.of_nat (length p) + 1 + 1) with (Z.of_nat (length (p ++ [c])) + 1) by (rewrite length_app; cbn; lia).
    rewrite E. split; [done|]. by right.
Qed.

Lemma remove_spec al i : args_ok al → ∃ b al', remove_from_arglist i al = Ret (b, al') ∧ args_ok al' ∧ nargs al' <= nargs al ∧
  ∀ j, view al' j = if decide (j = i) then None else view al j.
Proof.
  intros Hok. destruct (args_split al Hok) as (rest&Ea&Hl&Hf1&Hf2&Hlen). pose proof (ok_ids al Hok) as Hnd. unfold remove_from_arglist.
  replace (Z.to_nat (nargs al)) with (length (used al)) by lia.
  destruct (id_index_spec al i [] (used al) (used_prefix al Hok)) as [[Hn E]|(p&x&q&Eu&Hx&_&E)]; change (Z.of_nat (length [])) with 0 in E; rewrite E; cbn [mbind outcome_mbind].
  - cbn [app]. rewrite Hl, Z.ltb_irrefl. exists false, al. split_and!; [done|done|lia|]. intros j. destruct (decide (j = i)) as [->|]; [by apply view_none|done].
  - cbn [app]. rewrite <-Hl, Eu. rewrite length_app. cbn [length]. rewrite (proj2 (Z.ltb_lt _ _)) by lia.
    replace (Z.to_nat (Z.of_nat (length p + S (length q)) - (Z.of_nat (length p) + 1))) with (length q) by lia.
    rewrite Ea, Eu, <-app_assoc. cbn [app]. destruct (shift_loop_spec p x q rest) as (y&Es&Hy). rewrite Es. cbn [mbind outcome_mbind].
    exists true. eexists. split; [done|]. rewrite Eu in *. replace (Z.of_nat (length p + S (length q)) - 1) with (Z.of_nat (length (p ++ q))) by (rewrite length_app; lia).
    rewrite (app_assoc p q). rewrite length_app in Hlen. cbn [length] in Hlen.
    destruct (args_make (p ++ q) (y :: rest)) as [Hok' Hu'].
    + rewrite !Forall_app, Forall_cons in Hf1. rewrite Forall_app. tauto.
    + constructor; [|done]. apply Forall_app in Hf1 as [_ Hf1]. rewrite Forall_forall in Hf1. by apply Hf1.
    + rewrite fmap_app, fmap_cons in Hnd. rewrite fmap_app. apply NoDup_app in Hnd as (?&Hd&Hnd). apply NoDup_cons in Hnd as [_ ?].
      apply NoDup_app. split_and!; [done| |done]. intros k Hk Hk'. apply (Hd k Hk). by right.
    + rewrite length_app. cbn [length]. lia.
    + split_and!; [done|cbn; rewrite !length_app; lia|]. intros j. unfold view. rewrite Hu', Eu.
      rewrite (proj2 (find_arg_mid p x q Hnd x j eq_refl)), Hx. by destruct (decide (j = i)).
Qed.

(** *** One token *)
Definition prefs_full (al : ArgumentList) (i : Z) : Prop := view al i = None ∧ nargs al = Z.of_nat MAX_ARGS.
#[export] Instance value_dec : EqDecision value.
Proof. solve_decision. Defined.
#[export] Instance prefs_full_dec al i : Decision (prefs_full al i).
Proof. unfold prefs_full. apply _. Defined.

(** The list with a slot for the identifier. *)
Lemma slot_spec al i : args_ok al → ¬ prefs_full al i → 0 <= i < 2 ^ 32 →
  ∃ k al1 l1 x l2, (argct ← last_index (arg al) 0 (Z.to_nat (nargs al)) i (-1);
     (if argct =? -1 then
        let argct := nargs al in
        x ← arg_at (arg al) argct; l ← arg_set (arg al) argct (SET_ARG_ID x i); Ret (argct, MkArgumentList (nargs al + 1) l)
      else Ret (argct, al))) = Ret (k, al1) ∧ args_ok al1 ∧ nargs al1 <= nargs al + 1 ∧
     used al1 = l1 ++ x :: l2 ∧ k = Z.of_nat (length l1) ∧ id x = i ∧ (∀ j, j ≠ i → view al1 j = view al j).
Proof.
  intros Hok Hnf Hi. destruct (args_split al Hok) as (rest&Ea&Hl&Hf1&Hf2&Hlen).
  replace (Z.to_nat (nargs al)) with (length (used al)) by lia.
  destruct (last_index_spec al i [] (used al) (-1) (used_prefix al Hok)) as [[Hn E]|(p&x&q&Eu&Hx&E)]; change (Z.of_nat (length [])) with 0 in E; rewrite E; cbn [mbind outcome_mbind].
  - change (-1 =? -1) with true. cbn iota zeta.
    assert (nargs al < Z.of_nat MAX_ARGS) as Hlt.
    { pose proof (ok_nargs al Hok). destruct (decide (nargs al = Z.of_nat MAX_ARGS)) as [Hm|]; [|lia].
      exfalso. apply Hnf. split; [by apply view_none|done]. }
    destruct rest as [|x0 rest]; [cbn [length] in Hlen; lia|]. inversion_clear Hf2 as [|?? Hx0 _].
    assert (id (SET_ARG_ID x0 i) = i) as Eid by (cbn; by apply wrap_small).
    destruct (args_append al (SET_ARG_ID x0 i) Hok Hlt (arg_ok_id x0 i Hx0)) as (x1&v&E1&Hx1&E2&Hok'&Hu'); [by rewrite Eid|].
    assert (x1 = x0) as ->.
    { rewrite <-Hl, Ea in E1. rewrite (arg_at_lookup _ (length (used al)) x0) in E1 by (by rewrite lookup_app_r, Nat.sub_diag by lia). congruence. }
    rewrite E1. cbn [mbind outcome_mbind]. rewrite E2. cbn [mbind outcome_mbind].
    exists (nargs al), (MkArgumentList (nargs al + 1) v), (used al), (SET_ARG_ID x0 i), []. split_and!; try done.
    intros j Hj. unfold view. rewrite Hu', find_arg_snoc by (by rewrite Eid). rewrite Eid. by rewrite decide_False.
  - destruct (Z.eqb_spec (Z.of_nat (length ([] ++ p))) (-1)) as [|_]; [lia|]. exists (Z.of_nat (length p)), al, p, x, q.
    split_and!; try done; lia.
Qed.

Lemma head_byte_nil s : no_nul s → (head_byte s =? 0) = bool_decide (s = []).
Proof. destruct 1 as [|c s Hc _]; [done|]. cbn. by rewrite (proj2 (Z.eqb_neq c 0) Hc). Qed.

Lemma scan_lu_range s n r : scan_lu s = Some (n, r) → 0 <= n < 2 ^ 32.
Proof.
  unfold scan_lu. destruct (match skip_blanks s with [] => _ | _ => _ end) as [sgn s1]. destruct (scan_digits s1 0 false) as [[m r1]|]; [|done].
  cbn. intros E. apply (inj Some), pair_equal_spec in E as [<- _]. destruct (Z.leb_spec (2 ^ 32) m); [lia|]. apply wrap_range. lia.
Qed.

(** Storing a value in the slot. *)
Lemma store_value al al1 l1 x l2 i k : args_ok al1 → used al1 = l1 ++ x :: l2 → k = Z.of_nat (length l1) → id x = i →
  (∀ j, j ≠ i → view al1 j = view al j) → ∀ v, value_ok v → ∃ al2,
    (x0 ← arg_at (arg al1) k; l ← arg_set (arg al1) k (set_value v x0); Ret (@None bytes, MkArgumentList (nargs al1) l)) = Ret (None, al2) ∧
    args_ok al2 ∧ nargs al2 = nargs al1 ∧ ∀ j, view al2 j = if decide (j = i) then Some (kept v) else view al j.
Proof.
  intros Hok1 Hu Hk Hx Hv v Hvv. assert (arg_ok x) as Hxo.
  { destruct (args_split al1 Hok1) as (?&_&_&Hf&_). rewrite Hu, Forall_app, Forall_cons in Hf. tauto. }
  destruct (args_replace al1 l1 x l2 (set_value v x) Hok1 Hu (arg_ok_set v x Hvv Hxo) (id_set v x)) as (l&E1&E2&Hok2&Hu2).
  rewrite Hk, E1. cbn [mbind outcome_mbind]. rewrite E2. eexists. split; [done|]. split; [done|]. split; [done|]. intros j.
  unfold view at 1. pose proof (ok_ids al1 Hok1) as Hnd. rewrite Hu in Hnd.
  rewrite Hu2, (proj1 (find_arg_mid l1 x l2 Hnd (set_value v x) j (id_set v x))), Hx. destruct (decide (j = i)) as [->|Hj].
  - cbn. by rewrite value_of_set.
  - rewrite <-Hu. by apply Hv.
Qed.

(** One token changes at most its own identifier. *)
Lemma change_pref_spec tok al : args_ok al → Forall is_byte tok → no_nul tok →
  ∃ e al', change_pref tok al = Ret (e, al') ∧ args_ok al' ∧
    match decode_pref tok with
    | Bad s => e = Some s
    | BadValue i s => if decide (prefs_full al i) then e = None ∧ al' = al else e = Some s
    | Change i v => e = None ∧ nargs al' <= nargs al + 1 ∧
        if decide (prefs_full al i) then al' = al else ∀ j, view al' j = if decide (j = i) then kept <$> v else view al j
    end.
Proof.
  intros Hok Hb Hn. unfold change_pref, decode_pref. destruct (strchr tok 61) as [eq|]; [|by eexists _, _].
  destruct (scan_lu (tail tok)) as [[i r]|] eqn:Ei; [|by eexists _, _]. pose proof (scan_lu_range _ _ _ Ei) as Hi.
  set (val := drop (S eq) tok). assert (Forall is_byte val ∧ no_nul val) as [Hbv Hnv] by (split; by apply Forall_drop). clearbody val.
  destruct (decide (prefs_full al i)) as [Hfull|Hnf].
  - pose proof Hfull as [Hv Hm]. apply view_none in Hv; [|done]. destruct (args_split al Hok) as (rest&Ea&Hl&_).
    replace (Z.to_nat (nargs al)) with (length (used al)) by lia.
    destruct (last_index_spec al i [] (used al) (-1) (used_prefix al Hok)) as [[_ E]|(p&x&q&Eu&Hx&_)].
    2: { exfalso. apply Hv. rewrite Eu, fmap_app, fmap_cons, Hx. apply elem_of_app. right. left. }
    change (Z.of_nat (length [])) with 0 in E. rewrite E. cbn [mbind outcome_mbind]. change (-1 =? -1) with true. rewrite Hm, Z.leb_refl. cbn [andb].
    exists None, al. split; [done|]. split; [done|].
    destruct (negb _); [by rewrite decide_True|]. destruct (decide (val = [])); [rewrite decide_True by done; split_and!; done || lia|].
    destruct (_ =? 105); [destruct (scan_lu val) as [[??]|]; rewrite decide_True by done; split_and!; done || lia|].
    destruct (_ =? 102); [destruct (scan_lf val) as [[??]|]|]; rewrite decide_True by done; split_and!; done || lia.
  - destruct (slot_spec al i Hok Hnf Hi) as (k&al1&l1&x&l2&Es&Hok1&Hna&Hu&Hk&Hx&Hv).
    destruct (last_index (arg al) 0 (Z.to_nat (nargs al)) i (-1)) as [argct| | |] eqn:Ela; try done. cbn [mbind outcome_mbind] in Es |- *.
    assert ((argct =? -1) && (Z.of_nat MAX_ARGS <=? nargs al) = false) as ->.
    { destruct (Z.eqb_spec argct (-1)) as [->|]; [|done]. cbn [andb]. apply Z.leb_gt. pose proof (ok_nargs al Hok).
      destruct (decide (nargs al = Z.of_nat MAX_ARGS)) as [Hm|]; [|lia]. exfalso. apply Hnf. split; [|done]. apply view_none; [done|].
      intros Hin. destruct (args_split al Hok) as (rest&Ea&Hl&_). replace (Z.to_nat (nargs al)) with (length (used al)) in Ela by lia.
      destruct (last_index_spec al i [] (used al) (-1) (used_prefix al Hok)) as [[? _]|(p&y&q&_&_&E)]; [done|].
      change (Z.of_nat (length [])) with 0 in E. rewrite E in Ela. injection Ela as E'. lia. }
    cbn zeta in Es |- *. rewrite Es. cbn [mbind outcome_mbind]. clear Es Ela. rewrite (head_byte_nil val Hnv).
    pose proof (store_value al al1 l1 x l2 i k Hok1 Hu Hk Hx Hv) as Hstore.
    assert (Hremove : ∃ al2, ('(_, al) ← remove_from_arglist i al1; Ret (@None bytes, al)) = Ret (None, al2) ∧ args_ok al2 ∧ nargs al2 <= nargs al1 ∧
      ∀ j, view al2 j = if decide (j = i) then None else view al j).
    { destruct (remove_spec al1 i Hok1) as (b&al2&E&Hok2&Hn2&Hv2). exists al2. rewrite E. split_and!; [done..|]. intros j. rewrite Hv2.
      destruct (decide (j = i)); [done|]. by apply Hv. }
    destruct Hremove as (alr&Er&Hokr&Hnr&Hvr).
    assert (∀ T (P Q : T), (if bool_decide (val = []) then P else Q) = if decide (val = []) then P else Q) as Hbd by (intros T P Q; case_bool_decide; [by rewrite decide_True|by rewrite decide_False]).
    destruct (head_byte tok =? 105) eqn:E105; [|destruct (head_byte tok =? 102) eqn:E102; [|destruct (head_byte tok =? 115) eqn:E115]]; cbn [orb negb].
    + rewrite Hbd. destruct (decide (val = [])).
      { rewrite Er. exists None, alr. split_and!; try done; [lia|by rewrite decide_False]. }
      destruct (scan_lu val) as [[m ?]|]; [|eexists _, al1; split_and!; [done|done|by rewrite decide_False]]. destruct (Hstore (VInt m) I) as (al2&E&?&Hn2&?). exists None, al2. split_and!; try done; [lia|by rewrite decide_False].
    + rewrite Hbd. destruct (decide (val = [])).
      { rewrite Er. exists None, alr. split_and!; try done; [lia|by rewrite decide_False]. }
      destruct (scan_lf val) as [[d ?]|] eqn:Ed; [|eexists _, al1; split_and!; [done|done|by rewrite decide_False]]. apply scan_lf_bytes in Ed.
      destruct (Hstore (VDbl d) Ed) as (al2&E&?&Hn2&?). exists None, al2. split_and!; try done; [lia|by rewrite decide_False].
    + rewrite Hbd. destruct (decide (val = [])).
      { rewrite Er. exists None, alr. split_and!; try done; [lia|by rewrite decide_False]. }
      destruct (Hstore (VStr val) (conj Hnv Hbv)) as (al2&E&?&Hn2&?). exists None, al2. split_and!; try done; [lia|by rewrite decide_False].
    + eexists _, al1. split_and!; [done|done|by rewrite decide_False].
Qed.

(** *** The tokens of a form *)
Fixpoint fold_prefs (toks : list bytes) (arglist : ArgumentList) (error_string : error_var) : outcome (error_var * ArgumentList) :=
  match toks with
  | [] => Ret (error_string, arglist)
  | t :: toks =>
      '(e, arglist) ← change_pref t arglist;
      match e with Some s => Ret (ErrorString s, arglist) | None => fold_prefs toks arglist NoError end
  end.

Lemma prefs_loop_fold fuel st al err toks : strtok_all fuel [38] st = Ret toks →
  (∀ t l, t ∈ toks → args_ok l → ∃ e l', change_pref t l = Ret (e, l') ∧ args_ok l') → args_ok al →
  prefs_loop fuel st al err = fold_prefs toks al err.
Proof.
  revert st al err toks. induction fuel as [|fuel IH]; intros st al err toks E Ht Hok; [done|]. cbn [strtok_all prefs_loop] in *. unfold next_token.
  destruct (ts_strtok [38] st) as [[[p|] st1]| | |]; cbn [mbind outcome_mbind] in *; try done; [|by injection E as <-].
  destruct (cstr_at (string_dupe st1) p) as [tok|]; [|done]. cbn [mbind outcome_mbind].
  destruct (strtok_all fuel [38] st1) as [toks'| | |] eqn:E1; try done. injection E as <-. cbn [fold_prefs].
  destruct (Ht tok al ltac:(left) Hok) as (e&l'&Ec&Hok'). rewrite Ec. cbn [mbind outcome_mbind]. destruct e; [done|].
  apply IH; [done| |done]. intros t l Hin. apply Ht. by right.
Qed.

Lemma fields_forall (P : byte → Prop) p s : Forall P s → Forall (Forall P) (fields p s).
Proof.
  induction 1 as [|c s Hc Hs IH]; cbn; [by constructor|]. destruct (p c); [by constructor|].
  destruct (fields p s); [by repeat constructor|]. inversion_clear IH. constructor; [by constructor|done].
Qed.
Lemma tokens_forall (P : byte → Prop) set s : Forall P s → Forall (Forall P) (tokens_spec set s).
Proof.
  intros H. apply Forall_app. split; [|destruct (dangling set s); [repeat constructor|constructor]].
  unfold strtok_tokens. rewrite Forall_forall. intros t [_ Ht]%list_elem_of_filter.
  pose proof (fields_forall P (is_in set) s H) as Hf. rewrite Forall_forall in Hf. by apply Hf.
Qed.

(** A form never crashes the loop, and leaves a well-formed list. *)
Lemma fold_prefs_ok toks al err : Forall (Forall is_byte) toks → Forall no_nul toks → args_ok al →
  ∃ e al', fold_prefs toks al err = Ret (e, al') ∧ args_ok al' ∧ (toks = [] → e = err) ∧ (toks ≠ [] → e ≠ NotSet).
Proof.
  revert al err. induction toks as [|t toks IH]; intros al err Hb Hn Hok; cbn [fold_prefs]; [by exists err, al|].
  inversion_clear Hb. inversion_clear Hn. destruct (change_pref_spec t al Hok) as (e&al1&E&Hok1&_); [done..|]. rewrite E. cbn [mbind outcome_mbind].
  destruct e as [x|]; [by exists (ErrorString x), al1|].
  destruct (IH al1 NoError) as (e'&al2&E2&Hok2&He1&He2); [done..|]. exists e', al2. split_and!; try done.
  intros _. destruct toks; [by rewrite He1|by apply He2].
Qed.

Lemma form_tokens url q st : no_nul url → Forall is_byte url → strchr url 63 = Some q → ts_strtok_init (Some (drop (S q) url)) = Some st →
  strtok_all (S (length url)) [38] st = Ret (tokens_spec [38] (drop (S q) url)) ∧
  Forall (Forall is_byte) (tokens_spec [38] (drop (S q) url)) ∧ Forall no_nul (tokens_spec [38] (drop (S q) url)).
Proof.
  intros Hn Hb Hq Hst. injection Hst as <-. pose proof (strtok_all_spec_from [38] (drop (S q) url) [] (S (length url))) as E.
  split; [|split; apply tokens_forall; by apply Forall_drop]. apply E; [by apply Forall_drop|rewrite length_drop; lia].
Qed.

Lemma prefs_loop_ok url q st al : no_nul url → Forall is_byte url → strchr url 63 = Some q → ts_strtok_init (Some (drop (S q) url)) = Some st →
  args_ok al → prefs_loop (S (length url)) st al NotSet = fold_prefs (tokens_spec [38] (drop (S q) url)) al NotSet.
Proof.
  intros Hn Hb Hq Hst Hok. destruct (form_tokens url q st Hn Hb Hq Hst) as (E&Hb'&Hn'). apply prefs_loop_fold; [done| |done].
  intros t l Ht Hl. rewrite Forall_forall in Hb', Hn'. destruct (change_pref_spec t l Hl) as (e&l'&Ec&Hok'&_); [by apply Hb'|by apply Hn'|]. by exists e, l'.
Qed.

(** *** Memory images *)
Lemma length_image_arg x : arg_ok x → length (image_arg x) = sizeof_Argument.
Proof. intros (Hl&_). unfold image_arg. rewrite !length_app, !length_to_le, Hl. done. Qed.

Lemma take_app_exact {A} (l r : list A) n : n = length l → take n (l ++ r) = l.
Proof. intros ->. apply take_app_length. Qed.
Lemma drop_app_exact {A} (l r : list A) n : n = length l → drop n (l ++ r) = r.
Proof. intros ->. apply drop_app_length. Qed.

Lemma read_image_arg x r : arg_ok x → read_arg (image_arg x ++ r) = Some x.
Proof.
  intros (Hl&_&Hi&_). unfold read_arg, image_arg. rewrite <-!app_assoc.
  rewrite (take_app_exact (to_le 4 (type_code (type x)))) by done. rewrite (drop_app_exact (to_le 4 (type_code (type x)))) by done.
  rewrite (take_app_exact (to_le 4 (id x))) by done.
  rewrite (app_assoc (to_le 4 (type_code (type x)))), (drop_app_exact (to_le 4 (type_code (type x)) ++ to_le 4 (id x))) by done.
  rewrite take_app_exact by done. rewrite !of_le_to_le by (change (256 ^ Z.of_nat 4) with (2 ^ 32); try lia; by destruct (type x)).
  destruct x as [t i u]; by destruct t.
Qed.

Lemma read_image_args l r : Forall arg_ok l → read_args (length l) (concat (image_arg <$> l) ++ r) = Some l.
Proof.
  induction 1 as [|x l Hx Hl IH]; [done|]. cbn [length read_args fmap list_fmap concat]. rewrite <-app_assoc, read_image_arg by done. cbn [mbind option_bind].
  rewrite drop_app_exact by (by rewrite length_image_arg). by rewrite IH.
Qed.

Lemma length_prefs_image al : args_ok al → length (image al) = sizeof_ArgumentList.
Proof.
  intros [_ Ha He _]. unfold image. rewrite length_app, length_to_le. unfold sizeof_ArgumentList. f_equal. rewrite <-Ha. clear Ha.
  induction He as [|x l Hx Hl IH]; [done|]. cbn [fmap list_fmap concat length]. rewrite length_app, IH, length_image_arg by done. lia.
Qed.

(** What is stored comes back whole, whatever it is copied over. *)
Lemma memcpy_image al al0 : args_ok al → memcpy_list (image al) al0 = Ret al.
Proof.
  intros Hok. pose proof (length_prefs_image al Hok) as Hlen. destruct Hok as [Hn Ha He _]. unfold memcpy_list. rewrite decide_True by lia.
  unfold put. generalize (drop (length (image al)) (image al0)). intros t. unfold image. rewrite <-app_assoc.
  rewrite drop_app_exact, take_app_exact by (by rewrite length_to_le).
  rewrite <-Ha, read_image_args by done. rewrite of_le_to_le by (change (256 ^ Z.of_nat 4) with (2 ^ 32); unfold MAX_ARGS in Hn; lia).
  rewrite HttpHeaders.i32_small by (unfold MAX_ARGS in Hn; lia). by destruct al.
Qed.

Lemma format_none_cases x : (∃ t, format_none x = Ret t) ∨ format_none x = Crash.
Proof.
  remember (length x) as n eqn:En. assert (length x <= n)%nat as Hn by lia. clear En. revert x Hn.
  induction n as [|n IH]; intros [|c x] Hn; cbn [length] in Hn; [by left; eexists|lia|by left; eexists|]. cbn [format_none].
  assert (∀ y d, (length y <= n)%nat → (∃ t, (r ← format_none y; Ret (d :: r)) = Ret t) ∨ (r ← format_none y; Ret (d :: r)) = Crash) as H.
  { intros y d Hy. destruct (IH y Hy) as [[t ->]| ->]; [left; by eexists|by right]. }
  destruct (c =? 37); [|apply H; lia]. destruct x as [|d y]; [by right|]. destruct (d =? 37); [|by right]. apply H. cbn [length] in Hn. lia.
Qed.

(** ** The preferences as a map *)

(** The operations of the front end on the preferences. *)
Inductive prefs_op :=
| Get (k : Z)
| GetFresh (k : Z)
| Put (k : Z) (l : ArgumentList)
| PutOne (k : Z) (x : Argument)
| Form (k : Z) (url : bytes).
Inductive prefs_res := RList (l : ArgumentList) | RDone | RInt (z : Z) | RStatus (st : HTTP_Status) (msg : option bytes).

Section Refinement.
Context {DB : Type} `{!Gdbm DB}.
Variable stack_list d0 : ArgumentList.

Definition exec_op (o : prefs_op) : M prefs_state prefs_res :=
  match o with
  | Get k => '(_, l) ← get_userprefs stack_list k; mret (RList l)
  | GetFresh k => '(_, l) ← get_userprefs_with_write_intent k stack_list; mret (RList l)
  | Put k l => _ ← set_userprefs k l; mret RDone
  | PutOne k x => z ← set_oneuserpref stack_list k x; mret (RInt z)
  | Form k url => '(st, msg) ← parse_and_change_prefs stack_list url k; mret (RStatus st msg)
  end.
Fixpoint exec_ops (ops : list prefs_op) : M prefs_state (list prefs_res) :=
  match ops with
  | [] => mret []
  | o :: ops => r ← exec_op o; rs ← exec_ops ops; mret (r :: rs)
  end.

(** *** The specification: a map from users to lists *)
Definition prefs_of (m : gmap Z ArgumentList) (k : Z) : ArgumentList := default d0 (m !! k).
Definition put_one (x : Argument) (l : ArgumentList) : option ArgumentList :=
  match list_find (λ y, id y = id x) (used l) with
  | Some (k, _) => Some (MkArgumentList (nargs l) (<[k := x]> (arg l)))
  | None =>
      if decide (nargs l < Z.of_nat MAX_ARGS) then Some (MkArgumentList (nargs l + 1) (<[Z.to_nat (nargs l) := x]> (arg l)))
      else None
  end.
Definition spec_op (o : prefs_op) (m : gmap Z ArgumentList) : outcome (prefs_res * gmap Z ArgumentList) :=
  match o with
  | Get k | GetFresh k => Ret (RList (prefs_of m k), m)
  | Put k l => Ret (RDone, <[k := l]> m)
  | PutOne k x =>
      match put_one x (prefs_of m k) with
      | Some l => Ret (RInt 1, <[k := l]> m)
      | None => Ret (RInt 0, m)
      end
  | Form k url =>
      match strchr url 63 with
      | None => Ret (RStatus HTTP_ERR_MALFORMED_REQUEST (Some (bytes_of "User preferences")), m)
      | Some q =>
          '(e, l) ← fold_prefs (tokens_spec [38] (drop (S q) url)) (prefs_of m k) NotSet;
          match e with
          | NotSet => Crash
          | ErrorString s => t ← format_none s; Ret (RStatus HTTP_ERR_BAD_TOKEN (Some (take (HTTP_ERRMSG_MAX - 1) t)), m)
          | NoError => Ret (RStatus HTTP_NO_ERR None, <[k := l]> m)
          end
      end
  end.
Fixpoint spec_ops (ops : list prefs_op) (m : gmap Z ArgumentList) : outcome (list prefs_res * gmap Z ArgumentList) :=
  match ops with
  | [] => Ret ([], m)
  | o :: ops => '(r, m) ← spec_op o m; '(rs, m) ← spec_ops ops m; Ret (r :: rs, m)
  end.

(** Users have an address other than 0.0.0.0. *)
Definition key_ok (k : Z) : Prop := 0 < k < 2 ^ 32.
Definition op_ok (o : prefs_op) : Prop :=
  match o with
  | Get k | GetFresh k => key_ok k
  | Put k l => key_ok k ∧ args_ok l
  | PutOne k x => key_ok k ∧ arg_ok x
  | Form k url => key_ok k ∧ no_nul url ∧ Forall is_byte url
  end.

(** *** What the cache and the database hold *)
Record tracks (s : prefs_state) (m : gmap Z ArgumentList) : Prop := {
  tr_len : length (userCache s) = Z.to_nat USERCACHE_SIZE;
  tr_default : default_prefs s = d0;
  tr_db : ∀ k, key_ok k → gdbm_fetch (prefs s) (to_le 4 k) = image <$> m !! k;
  tr_ok : ∀ k l, m !! k = Some l → args_ok l;
  tr_cache : ∀ b e, userCache s !! b = Some e → key e ≠ 0 → key_ok (key e) ∧ b = Z.to_nat (hash (key e)) ∧ al e = prefs_of m (key e);
}.

Hypothesis (Hd0 : args_ok d0) (Hstores : ∀ (db : DB) k v, (gdbm_store db k v).1 = 0).

Lemma prefs_of_ok s m k : tracks s m → args_ok (prefs_of m k).
Proof. intros T. unfold prefs_of. destruct (m !! k) eqn:E; [by apply (tr_ok s m T k)|done]. Qed.

Lemma hash_range k : (Z.to_nat (hash k) < Z.to_nat USERCACHE_SIZE)%nat.
Proof. unfold hash, USERCACHE_SIZE. pose proof (Z.mod_pos_bound (u32 k) 401). lia. Qed.

Lemma key_image k k' : key_ok k → key_ok k' → to_le 4 k = to_le 4 k' → k = k'.
Proof.
  unfold key_ok. intros Hk Hk' E. apply (f_equal of_le) in E. rewrite !of_le_to_le in E by (change (256 ^ Z.of_nat 4) with (2 ^ 32); lia). done.
Qed.

Lemma fetch_db s m k p : tracks s m → key_ok k → getFromDBM k p s = Ret (prefs_of m k, s).
Proof.
  intros T Hk. unfold getFromDBM. rewrite (bind_ret get _ _ _ _ eq_refl), (tr_db s m T k Hk). unfold prefs_of.
  destruct (m !! k) as [l|] eqn:E; cbn [fmap option_fmap option_map default].
  - unfold lift_p. rewrite memcpy_image by (by apply (tr_ok s m T k)). done.
  - by rewrite (tr_default s m T).
Qed.

Lemma fetch_db_intent s m k p : tracks s m → key_ok k → get_userprefs_with_write_intent k p s = Ret ((nargs (prefs_of m k), prefs_of m k), s).
Proof. intros T Hk. unfold get_userprefs_with_write_intent. by rewrite (bind_ret _ _ _ _ _ (fetch_db s m k p T Hk)). Qed.

(** The entry of a key in the cache. *)
Lemma tracks_cached s m k : tracks s m → key_ok k →
  tracks (PrefsState (<[Z.to_nat (hash k) := MkUserPrefsCache k (prefs_of m k)]> (userCache s)) (prefs s) (default_prefs s)) m.
Proof.
  intros T Hk. destruct T as [Tl Td Tdb Tok Tc]. split; cbn; try done; [by rewrite length_insert|].
  intros b e He Hne. destruct (decide (b = Z.to_nat (hash k))) as [->|Hb].
  - rewrite list_lookup_insert_eq in He by (rewrite Tl; apply hash_range). by injection He as <-.
  - rewrite list_lookup_insert_ne in He by done. by apply Tc.
Qed.

Lemma get_tracks s m k : tracks s m → key_ok k → ∃ s', get_userprefs stack_list k s = Ret ((nargs (prefs_of m k), prefs_of m k), s') ∧ tracks s' m.
Proof.
  intros T Hk. unfold get_userprefs, getFromUcache, inUcache.
  destruct (lookup_lt_is_Some_2 (userCache s) (Z.to_nat (hash k))) as [e He]; [rewrite (tr_len s m T); apply hash_range|].
  assert ((s0 ← get; b ← deref (userCache s0 !! Z.to_nat (hash k)); mret (if key b =? k then Some (al b) else None)) s =
    Ret (if key e =? k then Some (al e) else None, s)) as E.
  { rewrite (bind_ret get _ _ _ _ eq_refl), He. done. }
  rewrite M_assoc. step_with E. destruct (Z.eqb_spec (key e) k) as [Hek|Hek].
  - exists s. split; [|done]. assert (key e ≠ 0) as Hne by (unfold key_ok in Hk; lia). destruct (tr_cache s m T _ e He Hne) as (_&_&Ea).
    rewrite Hek in Ea. cbn. by rewrite Ea.
  - rewrite M_assoc. step_with (fetch_db s m k stack_list T Hk). eexists. split; [done|]. by apply tracks_cached.
Qed.

Lemma set_tracks s m k l : tracks s m → key_ok k → args_ok l → ∃ s', set_userprefs k l s = Ret ((), s') ∧ tracks s' (<[k := l]> m).
Proof.
  intros T Hk Hl. destruct T as [Tl Td Tdb Tok Tc]. eexists. split; [done|]. split; cbn; [by rewrite length_insert|done| | |].
  - intros k' Hk'. destruct (decide (k' = k)) as [->|Hne].
    + rewrite lookup_insert_eq. by apply fetch_stored.
    + rewrite lookup_insert_ne by done. rewrite fetch_other; [by apply Tdb|]. intros E. by apply key_image in E.
  - intros k' l'. destruct (decide (k' = k)) as [->|Hne]; [rewrite lookup_insert_eq; by intros [= <-]|]. rewrite lookup_insert_ne by done. apply Tok.
  - intros b e He Hne. destruct (decide (b = Z.to_nat (hash k))) as [->|Hb].
    + rewrite list_lookup_insert_eq in He by (rewrite Tl; apply hash_range). injection He as <-. cbn. split_and!; [done..|].
      unfold prefs_of. by rewrite lookup_insert_eq.
    + rewrite list_lookup_insert_ne in He by done. destruct (Tc b e He Hne) as (Hke&Hbe&Ea). split_and!; [done..|].
      unfold prefs_of. rewrite lookup_insert_ne; [done|]. intros ->. done.
Qed.

Lemma put_one_tracks s m k x : tracks s m → key_ok k → arg_ok x →
  ∃ r s' m', set_oneuserpref stack_list k x s = Ret (r, s') ∧ tracks s' m' ∧ spec_op (PutOne k x) m = Ret (RInt r, m').
Proof.
  intros T Hk Hx. pose proof (prefs_of_ok s m k T) as Hok. destruct (args_split _ Hok) as (rest&Ea&Hl&Hf1&Hf2&Hlen).
  unfold set_oneuserpref. step_with (fetch_db_intent s m k stack_list T Hk). set (l := prefs_of m k) in *.
  assert (∀ A (o : outcome A) v (f : A → M (prefs_state (DB := DB)) Z) s0, o = Ret v → (lift_p o ≫= f) s0 = f v s0) as Hlift by (by intros ????? ->).
  cbn [spec_op]. fold l. unfold put_one.
  destruct (id_index_spec l (id x) [] (used l) (used_prefix l Hok)) as [[Hn E]|(p&y&q&Eu&Hy&Hp&E)]; change (Z.of_nat (length [])) with 0 in E;
    replace (Z.to_nat (nargs l)) with (length (used l)) by lia; rewrite (Hlift _ _ _ _ _ E); cbn [app].
  - rewrite Hl, Z.ltb_irrefl, Z.eqb_refl. cbn [andb]. assert (list_find (λ y, id y = id x) (used l) = None) as ->.
    { apply list_find_None. rewrite Forall_forall. intros y Hy E2. apply Hn. rewrite <-E2. by apply list_elem_of_fmap_2. }
    destruct (decide (nargs l < Z.of_nat MAX_ARGS)) as [Hlt|Hge].
    + rewrite (proj2 (Z.ltb_lt _ _) Hlt). destruct (args_append l x Hok Hlt Hx Hn) as (x1&v&_&_&E2&Hok2&_).
      rewrite (Hlift _ _ _ _ _ E2). destruct (set_tracks s m k _ T Hk Hok2) as (s'&E3&T'). step_with E3.
      rewrite <-Hl in E2. rewrite arg_set_ok in E2 by (rewrite Ea, length_app; unfold MAX_ARGS in *; lia). injection E2 as <-.
      replace (length (used l)) with (Z.to_nat (nargs l)) in * by lia. by eexists _, s', _.
    + rewrite (proj2 (Z.ltb_ge _ _)) by lia. by eexists _, s, m.
  - rewrite Eu in *. rewrite length_app in Hl. cbn [length] in Hl. rewrite (proj2 (Z.ltb_lt _ _)) by lia.
    destruct (args_replace l p y q x Hok Eu Hx) as (v&_&E2&Hok2&_); [by rewrite Hy|]. rewrite (Hlift _ _ _ _ _ E2).
    destruct (set_tracks s m k _ T Hk Hok2) as (s'&E3&T'). step_with E3.
    rewrite arg_set_ok in E2 by (rewrite Ea, !length_app; cbn; lia). injection E2 as <-.
    assert (list_find (λ y, id y = id x) (p ++ y :: q) = Some (length p, y)) as ->; [|by eexists _, s', _].
    apply list_find_Some. split_and!; [by rewrite lookup_app_r, Nat.sub_diag by lia|done|].
    intros j z Hj Hjl E4. apply Hp. rewrite lookup_app_l in Hj by done. rewrite <-E4. apply list_elem_of_fmap_2. by eapply list_elem_of_lookup_2.
Qed.

Lemma exec_op_tracks s m o : tracks s m → op_ok o →
  match spec_op o m with
  | Ret (r, m') => ∃ s', exec_op o s = Ret (r, s') ∧ tracks s' m'
  | e => e = Crash ∧ exec_op o s = Crash
  end.
Proof.
  intros T Ho. destruct o as [k|k|k l|k x|k url]; cbn [op_ok exec_op] in *.
  - destruct (get_tracks s m k T Ho) as (s'&E&T'). exists s'. by step_with E.
  - exists s. by step_with (fetch_db_intent s m k stack_list T Ho).
  - destruct Ho as [Hk Hl]. destruct (set_tracks s m k l T Hk Hl) as (s'&E&T'). exists s'. by step_with E.
  - destruct Ho as [Hk Hx]. destruct (put_one_tracks s m k x T Hk Hx) as (r&s'&m'&E&T'&->). exists s'. by step_with E.
  - destruct Ho as (Hk&Hn&Hb). cbn [spec_op]. pose proof (prefs_of_ok s m k T) as Hok.
    assert (∀ A (o : outcome A) v (f : A → M (prefs_state (DB := DB)) (HTTP_Status * option bytes)) s0, o = Ret v → (lift_p o ≫= f) s0 = f v s0) as Hlift
      by (by intros ????? ->).
    assert (∃ r, parse_and_change_prefs stack_list url k s = r) as [pr E] by (by eexists). pose proof E as E0.
    unfold parse_and_change_prefs in E. rewrite (proj2 (Z.eqb_neq k 0)) in E by (unfold key_ok in Hk; lia).
    rewrite (bind_ret _ _ _ _ _ (fetch_db_intent s m k stack_list T Hk)) in E. cbn iota beta in E.
    destruct (strchr url 63) as [q|] eqn:Eq; [|exists s; subst pr; by step_with E0].
    destruct (form_tokens url q _ Hn Hb Eq eq_refl) as (_&Hb'&Hn'). cbn [ts_strtok_init] in E.
    destruct (fold_prefs_ok (tokens_spec [38] (drop (S q) url)) (prefs_of m k) NotSet Hb' Hn' Hok) as (e&l&Ef&Hokl&_).
    rewrite (prefs_loop_ok url q _ (prefs_of m k) Hn Hb Eq eq_refl Hok), (Hlift _ _ _ _ _ Ef) in E. rewrite Ef. cbn [mbind outcome_mbind].
    destruct e as [|x|].
    + destruct (set_tracks s m k l T Hk Hokl) as (s'&E3&T'). rewrite (bind_ret _ _ _ _ _ E3) in E. subst pr. exists s'. by step_with E0.
    + destruct (format_none_cases x) as [[t Et]|Et].
      * rewrite (Hlift _ _ _ _ _ Et) in E. subst pr. rewrite Et. exists s. by step_with E0.
      * rewrite Et. split; [done|]. unfold mbind, M_mbind. rewrite E0, <-E. unfold lift_p. by rewrite Et.
    + split; [done|]. unfold mbind, M_mbind. by rewrite E0, <-E.
Qed.

Lemma exec_ops_tracks ops s m : tracks s m → Forall op_ok ops →
  match spec_ops ops m with
  | Ret (rs, m') => ∃ s', exec_ops ops s = Ret (rs, s') ∧ tracks s' m'
  | e => e = Crash ∧ exec_ops ops s = Crash
  end.
Proof.
  intros T H. revert s m T. induction H as [|o ops Ho Hops IH]; intros s m T; cbn [spec_ops exec_ops]; [by exists s|].
  pose proof (exec_op_tracks s m o T Ho) as H1. destruct (spec_op o m) as [[r m1]| | |]; cbn [mbind outcome_mbind].
  - destruct H1 as (s1&E1&T1). step_with E1. specialize (IH s1 m1 T1). destruct (spec_ops ops m1) as [[rs m2]| | |]; cbn [mbind outcome_mbind].
    + destruct IH as (s2&E2&T2). exists s2. by step_with E2.
    + by destruct IH.
    + destruct IH as [_ E2]. split; [done|]. unfold mbind, M_mbind. by rewrite E2.
    + by destruct IH.
  - by destruct H1.
  - destruct H1 as [_ E1]. split; [done|]. unfold mbind, M_mbind. by rewrite E1.
  - by destruct H1.
Qed.
End Refinement.

(** ** Forms *)

(** An assignment of a form: the letter of its type, an identifier, and the
    text of the value, which may be empty. *)
Inductive setting := Unset (ty i : Z) | SetInt (i n : Z) | SetStr (i : Z) (s : bytes) | SetDbl (i : Z) (txt d : bytes).
Definition print_setting (x : setting) : bytes :=
  match x with
  | Unset ty i => ty :: dec i ++ [61]
  | SetInt i n => 105 :: dec i ++ 61 :: dec n
  | SetStr i s => 115 :: dec i ++ 61 :: s
  | SetDbl i txt _ => 102 :: dec i ++ 61 :: txt
  end.
Definition text_ok (s : bytes) : Prop := s ≠ [] ∧ no_nul s ∧ Forall is_byte s ∧ (38 ∉ s).
Definition setting_ok (x : setting) : Prop :=
  match x with
  | Unset ty i => ty ∈ [105; 102; 115] ∧ 0 <= i < 2 ^ 32
  | SetInt i n => 0 <= i < 2 ^ 32 ∧ 0 <= n < 2 ^ 32
  | SetStr i s => 0 <= i < 2 ^ 32 ∧ text_ok s
  | SetDbl i txt d => 0 <= i < 2 ^ 32 ∧ text_ok txt ∧ ∃ r, scan_lf txt = Some (d, r)
  end.
(** The form as the browser sends it. *)
Fixpoint join_form (l : list bytes) : bytes :=
  match l with [] => [] | [t] => t | t :: l => t ++ 38 :: join_form l end.

Definition apply_setting (x : setting) (v : Z → option value) (j : Z) : option value :=
  match x with
  | Unset _ i => if decide (j = i) then None else v j
  | SetInt i n => if decide (j = i) then Some (VInt (i32 n)) else v j
  | SetStr i s => if decide (j = i) then Some (VStr (take (MAX_ARG_STRING - 1) s)) else v j
  | SetDbl i _ d => if decide (j = i) then Some (VDbl d) else v j
  end.

Lemma join_tokens l : l ≠ [] → Forall (λ t, t ≠ [] ∧ (38 ∉ t)) l → tokens_spec [38] (join_form l) = l.
Proof.
  intros Hne. induction 1 as [|t l [Ht H38] Hl IH]; [done|].
  assert (forallb (λ c, negb (is_in [38] c)) t = true) as Hf by (apply none_in; intros c [->|[]%elem_of_nil]%elem_of_cons; done).
  destruct l as [|u l].
  - cbn [join_form]. rewrite <-(app_nil_r t) at 1. by apply (tokens_step [38] [] t []).
  - change (join_form (t :: u :: l)) with ([] ++ t ++ 38 :: join_form (u :: l)). rewrite tokens_step by done. cbn [tail]. by rewrite IH.
Qed.

Lemma decode_tail ty i val : 0 <= i < 2 ^ 32 → ty ∈ [105; 102; 115] →
  strchr (ty :: dec i ++ 61 :: val) 61 = Some (S (length (dec i))) ∧ scan_lu (dec i ++ 61 :: val) = Some (i, 61 :: val) ∧
  drop (S (S (length (dec i)))) (ty :: dec i ++ 61 :: val) = val ∧ negb ((ty =? 105) || (ty =? 102) || (ty =? 115)) = false.
Proof.
  intros Hi Hty. assert (ty ≠ 61 ∧ (ty = 105 ∨ ty = 102 ∨ ty = 115)) as [Hty61 Hcase].
  { repeat (apply elem_of_cons in Hty as [->|Hty]; [lia|]). by apply elem_of_nil in Hty. }
  split_and!.
  - change (ty :: dec i ++ 61 :: val) with ((ty :: dec i) ++ 61 :: val). rewrite strchr_first; [done|].
    apply not_elem_of_cons. split; [done|]. apply dec_no_sep; [lia|done].
  - by apply scan_lu_dec.
  - cbn [drop]. rewrite drop_app_ge by lia. by replace (S (length (dec i)) - length (dec i))%nat with 1%nat by lia.
  - by destruct Hcase as [-> | [-> | ->]].
Qed.

Lemma decode_setting x : setting_ok x → ∃ i v, decode_pref (print_setting x) = Change i v ∧
  ∀ f j, apply_setting x f j = if decide (j = i) then kept <$> v else f j.
Proof.
  unfold decode_pref. destruct x as [ty i|i n|i s|i txt d]; cbn [setting_ok print_setting].
  - intros [Hty Hi]. destruct (decode_tail ty i [] Hi Hty) as (->&E2&->&E4). cbn [tail head_byte]. rewrite E2, E4.
    rewrite decide_True by done. by exists i, None.
  - intros [Hi Hn]. destruct (decode_tail 105 i (dec n) Hi ltac:(left)) as (->&E2&->&E4). cbn [tail head_byte]. rewrite E2, E4.
    rewrite decide_False by (apply dec_nonempty; lia). change (105 =? 105) with true. cbn iota.
    pose proof (scan_lu_dec n [] Hn I) as E. rewrite app_nil_r in E. rewrite E. by exists i, (Some (VInt n)).
  - intros [Hi (Hs&_)]. destruct (decode_tail 115 i s Hi ltac:(right; right; left)) as (->&E2&->&E4). cbn [tail head_byte]. rewrite E2, E4.
    rewrite decide_False by done. by exists i, (Some (VStr s)).
  - intros (Hi&(Ht&_)&r&E). destruct (decode_tail 102 i txt Hi ltac:(right; left)) as (->&E2&->&E4). cbn [tail head_byte]. rewrite E2, E4.
    rewrite decide_False by done. change (102 =? 105) with false. change (102 =? 102) with true. cbn iota. rewrite E. by exists i, (Some (VDbl d)).
Qed.

Lemma print_setting_text x : setting_ok x → text_ok (print_setting x).
Proof.
  assert (∀ ty i val, 0 <= i → ty ∈ [105; 102; 115] → no_nul val → Forall is_byte val → (38 ∉ val) → text_ok (ty :: dec i ++ 61 :: val)) as H.
  { intros ty i val Hi Hty Hn Hb H38. destruct (dec_bytes i Hi) as [Hdb Hdn]. pose proof (dec_no_sep i 38 Hi eq_refl) as Hd38.
    assert (0 < ty < 256 ∧ ty ≠ 38) as [? ?].
    { repeat (apply elem_of_cons in Hty as [->|Hty]; [lia|]). by apply elem_of_nil in Hty. }
    split_and!; [done| | |].
    - constructor; [lia|]. apply Forall_app. split; [done|]. constructor; [lia|done].
    - constructor; [unfold is_byte; lia|]. apply Forall_app. split; [done|]. constructor; [unfold is_byte; lia|done].
    - apply not_elem_of_cons. split; [done|]. intros [?|[?|?]%elem_of_cons]%elem_of_app; done. }
  destruct x as [ty i|i n|i s|i txt d]; cbn [setting_ok print_setting].
  - intros [Hty Hi]. apply H; [lia|done|constructor|constructor|apply not_elem_of_nil].
  - intros [Hi Hn]. destruct (dec_bytes n ltac:(lia)). apply H; [lia|left|done|done|by apply dec_no_sep; [lia|]].
  - intros [Hi (_&?&?&?)]. apply H; [lia|right; right; left|done..].
  - intros (Hi&(_&?&?&?)&_). apply H; [lia|right; left|done..].
Qed.

Lemma fold_settings l al err : Forall setting_ok l → args_ok al → nargs al + Z.of_nat (length l) <= Z.of_nat MAX_ARGS →
  ∃ al', fold_prefs (print_setting <$> l) al err = Ret (match l with [] => err | _ => NoError end, al') ∧ args_ok al' ∧
    ∀ j, view al' j = fold_left (λ f x, apply_setting x f) l (view al) j.
Proof.
  intros Hl. revert al err. induction Hl as [|x l Hx Hl IH]; intros al err Hok Hn; [by exists al|]. cbn [length] in Hn. cbn [fmap list_fmap fold_prefs].
  destruct (print_setting_text x Hx) as (_&Hnn&Hb&_). destruct (change_pref_spec (print_setting x) al Hok Hb Hnn) as (e&al1&E&Hok1&He).
  destruct (decode_setting x Hx) as (i&v&Ed&Ha). rewrite Ed in He. destruct He as (->&Hn1&Hv). rewrite E. cbn [mbind outcome_mbind].
  rewrite decide_False in Hv by (intros [_ Hf]; lia). destruct (IH al1 NoError Hok1 ltac:(lia)) as (al2&E2&Hok2&Hv2).
  exists al2. split; [rewrite E2; by destruct l|]. split; [done|]. intros j. rewrite Hv2. cbn [fold_left].
  assert (∀ f g j, (∀ j, f j = g j) → fold_left (λ f x, apply_setting x f) l f j = fold_left (λ f x, apply_setting x f) l g j) as Hext.
  { clear. induction l as [|y l IH]; intros f g j H; cbn; [done|]. apply IH. intros k. destruct y; cbn; rewrite H; done. }
  apply Hext. intros k. by rewrite Hv, Ha.
Qed.

(** ** Properties *)

Lemma default_ok : args_ok (MkArgumentList (Z.of_nat (length default_args)) (default_args ++ drop (length default_args) (arg zero_list))).
Proof.
  assert (Forall arg_ok default_args) as H1.
  { assert (∀ i v, 0 <= i < 2 ^ 32 → arg_ok (int_arg i v)) as H.
    { intros i v Hi. split_and!; cbn [a id int_arg]; [by rewrite length_app, length_to_le, length_replicate|done|lia|lia|].
      apply Forall_app. split; [apply to_le_bytes|]. apply Forall_replicate. unfold is_byte. lia. }
    repeat (constructor; [apply H; done|]). constructor. }
  assert (Forall arg_ok (drop (length default_args) (arg zero_list))) as H2.
  { apply Forall_drop, Forall_replicate. split_and!; [done|done|cbn; lia|cbn; lia|]. cbn [a zero_arg]. apply Forall_replicate. unfold is_byte. lia. }
  apply args_make; [done|done| |done]. apply (bool_decide_unpack _). vm_compute. exact I.
Qed.

Section Theorems.
Context {DB : Type} `{!Gdbm DB}.

(** The database files that the names open hold the lists of [m]. *)
Definition holds_map (db : DB) (m : gmap Z ArgumentList) : Prop :=
  (∀ k, key_ok k → gdbm_fetch db (to_le 4 k) = image <$> m !! k) ∧ ∀ k l, m !! k = Some l → args_ok l.

Lemma init_tracks gdbm_open filename s m : init_prefs gdbm_open filename = Some s → (∀ f db, gdbm_open f = Some db → holds_map db m) →
  args_ok (default_prefs s) ∧ tracks (default_prefs s) s m.
Proof.
  intros Hi Ho. unfold init_prefs in Hi.
  set (d := MkArgumentList (Z.of_nat (length default_args)) (default_args ++ drop (length default_args) (arg zero_list))) in Hi.
  set (c := replicate (Z.to_nat USERCACHE_SIZE) (MkUserPrefsCache 0 zero_list)) in Hi.
  assert (∃ db, s = PrefsState c db d ∧ holds_map db m) as (db&->&Hm1&Hm2).
  { destruct (gdbm_open filename) as [db|] eqn:E; [injection Hi as <-; exists db; split; [done|by apply (Ho filename)]|].
    assert (∀ n i db, open_loop gdbm_open filename i n = Some db → holds_map db m) as Hloop.
    { induction n as [|n IH]; intros i db; cbn [open_loop]; [done|]. destruct (gdbm_open (filename ++ [46] ++ dec i)) as [db'|] eqn:E'; [intros E2; injection E2 as <-; by apply (Ho _ _ E')|apply IH]. }
    destruct (open_loop gdbm_open filename 1 255) as [db|] eqn:El; [|done]. cbn [mbind option_bind] in Hi. injection Hi as <-.
    exists db. split; [done|]. by apply (Hloop 255%nat 1). }
  cbn [default_prefs]. split; [exact default_ok|]. split; cbn [userCache default_prefs prefs]; [by unfold c; rewrite length_replicate|done|done|done|].
  intros b e He Hne. unfold c in He. apply lookup_replicate in He as [-> _]. done.
Qed.
End Theorems.

(** C11. The cache of 401 buckets over the database is transparent: from the
    opening of the database on, any sequence of look-ups, changes and forms
    gives the results of one map from users to lists with a default, or
    crashes as it does.  The users' addresses are not 0, and every
    [gdbm_store] succeeds ([zero_user_empty] and [failed_store_unnoticed] show
    what happens otherwise).  In the map as in the code an assignment for which
    a list has no room is passed over and the form goes on, where the comment
    at the end of the loop says that the loop ends. *)
Theorem prefs_refine {DB} `{!Gdbm DB} (stack_list : ArgumentList) (gdbm_open : bytes → option DB) (filename : bytes)
    (s : prefs_state) (m : gmap Z ArgumentList) (ops : list prefs_op)
    (Hinit : init_prefs gdbm_open filename = Some s) (Hopen : ∀ f db, gdbm_open f = Some db → holds_map db m)
    (Hstores : ∀ (db : DB) k v, (gdbm_store db k v).1 = 0) (Hops : Forall op_ok ops) :
  match spec_ops (default_prefs s) ops m with
  | Ret (rs, m') => ∃ s', exec_ops stack_list ops s = Ret (rs, s') ∧ tracks (default_prefs s) s' m'
  | e => e = Crash ∧ exec_ops stack_list ops s = Crash
  end.
Proof.
  destruct (init_tracks gdbm_open filename s m Hinit Hopen) as [Hd T]. by apply exec_ops_tracks.
Qed.

Lemma spec_ops_typed d0 ops m rs m' : args_ok d0 → (∀ k l, m !! k = Some l → args_ok l) → Forall op_ok ops → spec_ops d0 ops m = Ret (rs, m') →
  Forall (λ r, match r with RList l => args_ok l | _ => True end) rs.
Proof.
  intros Hd Hm Hops. revert m Hm rs. induction Hops as [|o ops Ho Hops IH]; intros m Hm rs; cbn [spec_ops]; [by intros [= <- <-]|].
  assert (Hp : ∀ k, args_ok (prefs_of d0 m k)) by (intros k; unfold prefs_of; destruct (m !! k) eqn:E; [by eapply Hm|done]).
  assert (Hins : ∀ k l, args_ok l → ∀ k' l', <[k := l]> m !! k' = Some l' → args_ok l').
  { intros k l Hl k' l'. destruct (decide (k = k')) as [->|Hne]; [rewrite lookup_insert_eq; by intros [= <-]|rewrite lookup_insert_ne by done; apply Hm]. }
  assert (∀ r m1, spec_op d0 o m = Ret (r, m1) → (∀ k l, m1 !! k = Some l → args_ok l) ∧ match r with RList l => args_ok l | _ => True end) as Hone.
  { intros r m1. destruct o as [k|k|k l|k x|k url]; cbn [spec_op op_ok] in *.
    - intros [= <- <-]. done.
    - intros [= <- <-]. done.
    - intros [= <- <-]. split; [|done]. apply Hins. by destruct Ho.
    - destruct Ho as [_ Hx]. destruct (put_one x (prefs_of d0 m k)) as [l|] eqn:E; [|by intros [= <- <-]]. intros [= <- <-]. split; [|done]. apply Hins.
      unfold put_one in E. destruct (args_split _ (Hp k)) as (rest&Ea&Hl&_). set (p := prefs_of d0 m k) in *.
      destruct (list_find (λ y, id y = id x) (used p)) as [[i y]|] eqn:Ef.
      + injection E as <-. apply list_find_Some in Ef as (Hi&Hy&_). apply list_elem_of_split_length in Hi as (l1&l2&Eu&->).
        destruct (args_replace p l1 y l2 x (Hp k) Eu Hx (eq_sym Hy)) as (v&_&Es&Hok&_). rewrite arg_set_ok in Es; [by injection Es as <-|].
        rewrite Ea, Eu, !length_app. cbn [length]. lia.
      + destruct (decide _) as [Hlt|]; [|done]. injection E as <-. apply list_find_None in Ef.
        destruct (args_append p x (Hp k) Hlt Hx) as (y&v&Ey&_&Es&Hok&_).
        { intros (z&Ez&Hz)%list_elem_of_fmap. rewrite Forall_forall in Ef. by apply (Ef z). }
        unfold arg_set in Es. destruct (_ && _); [|done]. injection Es as <-. done.
    - destruct (strchr url 63) as [q|] eqn:Eq; [|by intros [= <- <-]]. destruct Ho as (_&Hn&Hb).
      destruct (form_tokens url q _ Hn Hb Eq eq_refl) as (_&Hb'&Hn').
      destruct (fold_prefs_ok (tokens_spec [38] (drop (S q) url)) (prefs_of d0 m k) NotSet Hb' Hn' (Hp k)) as (e&l&Ef&Hokl&_).
      rewrite Ef. cbn [mbind outcome_mbind]. destruct e as [|z|]; [intros [= <- <-]; split; [by apply Hins|done]| |done].
      destruct (format_none z); cbn; [by intros [= <- <-]|done..]. }
  destruct (spec_op d0 o m) as [[r m1]| | |] eqn:E1; cbn [mbind outcome_mbind]; try done. destruct (Hone r m1 eq_refl) as [Hm1 Hr].
  destruct (spec_ops d0 ops m1) as [[rs1 m2]| | |] eqn:E2; cbn [mbind outcome_mbind]; try done.
  intros E. injection E as <- <-. constructor; [done|]. by apply (IH m1 Hm1).
Qed.

(** C13. Types are preserved: whatever the users' forms contain, every list
    that is looked up afterwards is well formed (at most 50 arguments, each
    identifier once, values within their unions) and the strings in it are
    terminated. *)
Theorem prefs_typed {DB} `{!Gdbm DB} (stack_list : ArgumentList) (gdbm_open : bytes → option DB) (filename : bytes)
    (s s' : prefs_state) (m : gmap Z ArgumentList) (ops : list prefs_op) (rs : list prefs_res)
    (Hinit : init_prefs gdbm_open filename = Some s) (Hopen : ∀ f db, gdbm_open f = Some db → holds_map db m)
    (Hstores : ∀ (db : DB) k v, (gdbm_store db k v).1 = 0) (Hops : Forall op_ok ops)
    (Hrun : exec_ops stack_list ops s = Ret (rs, s')) (l : ArgumentList) (Hl : RList l ∈ rs) :
  args_ok l ∧ ∀ x, x ∈ used l → ∃ t, ARG_STRING x = Ret t ∧ (length t < MAX_ARG_STRING)%nat.
Proof.
  destruct (init_tracks gdbm_open filename s m Hinit Hopen) as [Hd T].
  pose proof (exec_ops_tracks stack_list (default_prefs s) Hd Hstores ops s m T Hops) as H.
  assert (args_ok l) as Hok.
  { destruct (spec_ops (default_prefs s) ops m) as [[rs1 m']| | |] eqn:E.
    - destruct H as (s1&E1&_). rewrite E1 in Hrun. injection Hrun as <- <-.
      pose proof (spec_ops_typed _ _ _ _ _ Hd (tr_ok _ _ _ T) Hops E) as Ht. rewrite Forall_forall in Ht. exact (Ht (RList l) Hl).
    - by destruct H.
    - destruct H as [_ E1]. by rewrite E1 in Hrun.
    - by destruct H. }
  split; [done|]. intros x Hx. apply arg_string_ok. destruct (args_split l Hok) as (_&_&_&Hf&_). rewrite Forall_forall in Hf. by apply Hf.
Qed.

(** C12. A form that assigns values to identifiers sets exactly these
    preferences of exactly this user, the later assignments winning, and empty
    values remove preferences: when the list of fifty has room for all the
    assignments (the others would be passed over silently), the user's address
    is not 0, and every [gdbm_store] succeeds. *)
Theorem form_sets_prefs {DB} `{!Gdbm DB} (stack_list d0 : ArgumentList) (s : prefs_state) (m : gmap Z ArgumentList) (base : bytes) (k : Z) (l : list setting)
    (T : tracks d0 s m) (Hd0 : args_ok d0) (Hstores : ∀ (db : DB) k v, (gdbm_store db k v).1 = 0) (Hk : key_ok k)
    (Hb : Forall is_byte base) (Hbn : no_nul base) (Hb63 : 63 ∉ base) (Hl : Forall setting_ok l) (Hne : l ≠ [])
    (Hroom : nargs (prefs_of d0 m k) + Z.of_nat (length l) <= Z.of_nat MAX_ARGS) :
  ∃ s' al', parse_and_change_prefs stack_list (base ++ 63 :: join_form (print_setting <$> l)) k s = Ret ((HTTP_NO_ERR, None), s') ∧
    tracks d0 s' (<[k := al']> m) ∧ ∀ j, view al' j = fold_left (λ f x, apply_setting x f) l (view (prefs_of d0 m k)) j.
Proof.
  assert (Forall text_ok (print_setting <$> l)) as Ht by (apply Forall_fmap; eapply Forall_impl; [exact Hl|]; apply print_setting_text).
  assert (no_nul (join_form (print_setting <$> l)) ∧ Forall is_byte (join_form (print_setting <$> l))) as [Hjn Hjb].
  { clear Hne Hroom Hl. induction Ht as [|t ts (_&Hn&Hbt&_) Hts [IH1 IH2]]; [by split; constructor|]. destruct ts as [|u ts]; [done|].
    change (join_form (t :: u :: ts)) with (t ++ 38 :: join_form (u :: ts)). split; apply Forall_app; (split; [done|]); (constructor; [unfold is_byte; lia|done]). }
  set (url := base ++ 63 :: join_form (print_setting <$> l)).
  assert (no_nul url) as Hun by (apply Forall_app; split; [done|constructor; [lia|done]]).
  assert (Forall is_byte url) as Hub by (apply Forall_app; split; [done|constructor; [unfold is_byte; lia|done]]).
  pose proof (exec_op_tracks stack_list d0 Hd0 Hstores s m (Form k url) T (conj Hk (conj Hun Hub))) as H.
  cbn [spec_op exec_op] in H. unfold url in H. rewrite strchr_first in H by done.
  assert (drop (S (length base)) (base ++ 63 :: join_form (print_setting <$> l)) = join_form (print_setting <$> l)) as Ed.
  { rewrite drop_app_ge by lia. by replace (S (length base) - length base)%nat with 1%nat by lia. }
  rewrite Ed, join_tokens in H.
  2: { by destruct l. }
  2: { eapply Forall_impl; [exact Ht|]. intros t (?&_&_&?). done. }
  destruct (fold_settings l (prefs_of d0 m k) NotSet Hl (prefs_of_ok d0 Hd0 s m k T) Hroom) as (al'&Ef&_&Hv). rewrite Ef in H. cbn [mbind outcome_mbind] in H.
  assert (match l with [] => NotSet | _ :: _ => NoError end = NoError) as Em by (by destruct l). rewrite Em in H.
  destruct H as (s'&E&T'). exists s', al'. split_and!; [|done|done]. fold url in E |- *. apply bind_ret_inv in E as ([st msg]&s1&E1&E2).
  cbn in E2. injection E2 as -> -> <-. exact E1.
Qed.

(** ** Witnesses and examples *)

(** A database in memory. *)
#[export] Instance demo_gdbm : Gdbm (gmap (list Z) (list Z)).
Proof.
  refine {| gdbm_fetch := λ db k, db !! k; gdbm_store := λ db k v, (0, <[k := v]> db) |}.
  - intros db k v _. apply lookup_insert_eq.
  - intros db k v k' Hne. by apply lookup_insert_ne.
  - intros db k v H. by destruct H.
Defined.
Definition demo_open (filename : bytes) : option (gmap (list Z) (list Z)) := Some ∅.
Definition demo_state : prefs_state (DB := gmap (list Z) (list Z)) :=
  PrefsState (replicate (Z.to_nat USERCACHE_SIZE) (MkUserPrefsCache 0 zero_list)) ∅
    (MkArgumentList (Z.of_nat (length default_args)) (default_args ++ drop (length default_args) (arg zero_list))).

Lemma demo_holds f db : demo_open f = Some db → holds_map db ∅.
Proof. unfold demo_open. intros E. injection E as <-. split; [done|]. intros k l E. by rewrite lookup_empty in E. Qed.

Definition demo_form : bytes := bytes_of "http://prefs/?i5=2&s11=bob&i7=".
Definition demo_ops : list prefs_op := [Get 16777226; Form 16777226 demo_form; Get 16777226; GetFresh 5].
Lemma demo_ops_ok : Forall op_ok demo_ops.
Proof.
  assert (no_nul demo_form) as Hn by (unfold no_nul; apply (bool_decide_unpack _); vm_compute; exact I).
  assert (Forall is_byte demo_form) as Hb by (unfold is_byte; apply (bool_decide_unpack _); vm_compute; exact I).
  repeat constructor; cbn; try lia; done.
Qed.

Lemma prefs_refine_witness :
  match spec_ops (default_prefs demo_state) demo_ops ∅ with
  | Ret (rs, m') => ∃ s', exec_ops zero_list demo_ops demo_state = Ret (rs, s') ∧ tracks (default_prefs demo_state) s' m'
  | e => e = Crash ∧ exec_ops zero_list demo_ops demo_state = Crash
  end.
Proof.
  apply (prefs_refine zero_list demo_open (bytes_of "prefs") demo_state ∅ demo_ops); [reflexivity|exact demo_holds|reflexivity|exact demo_ops_ok].
Defined.

Lemma prefs_typed_witness :
  ∃ rs s' l, exec_ops zero_list demo_ops demo_state = Ret (rs, s') ∧ RList l ∈ rs ∧ nargs l = 4 ∧ args_ok l.
Proof.
  eexists _, _, _. split; [vm_compute; reflexivity|]. split; [left|]. split; [reflexivity|].
  eapply (prefs_typed zero_list demo_open (bytes_of "prefs") demo_state _ ∅ demo_ops); [reflexivity|exact demo_holds|reflexivity|exact demo_ops_ok| |left].
  vm_compute. reflexivity.
Defined.

Lemma form_sets_prefs_witness :
  ∃ s' al', parse_and_change_prefs zero_list (bytes_of "/p" ++ 63 :: join_form (print_setting <$> [SetInt 5 2; SetStr 11 (bytes_of "bob"); Unset 105 7])) 10 demo_state =
      Ret ((HTTP_NO_ERR, None), s') ∧ (view al' 5, view al' 11, view al' 7) = (Some (VInt 2), Some (VStr (bytes_of "bob")), None).
Proof.
  destruct (init_tracks demo_open (bytes_of "prefs") demo_state ∅ eq_refl demo_holds) as [Hd T].
  destruct (form_sets_prefs zero_list (default_prefs demo_state) demo_state ∅ (bytes_of "/p") 10 [SetInt 5 2; SetStr 11 (bytes_of "bob"); Unset 105 7] T Hd)
    as (s'&al'&E&_&Hv).
  - reflexivity.
  - split; [lia|reflexivity].
  - unfold is_byte. apply (bool_decide_unpack _). vm_compute. exact I.
  - unfold no_nul. apply (bool_decide_unpack _). vm_compute. exact I.
  - apply (bool_decide_unpack _). vm_compute. exact I.
  - repeat constructor; try lia; cbn; try done; try (apply (bool_decide_unpack _); vm_compute; exact I); lia.
  - discriminate.
  - vm_compute. discriminate.
  - exists s', al'. split; [exact E|]. by rewrite !Hv.
Defined.

(** The key 0, of a user that cannot be determined, hits an empty bucket: the
    list is empty, where the database would give the defaults. *)
Example zero_user_empty : (λ x, nargs x.1.2) <$> get_userprefs zero_list 0 demo_state = Ret 0.
Proof. vm_compute. reflexivity. Qed.
Example zero_user_default : (λ x, nargs x.1.2) <$> get_userprefs_with_write_intent 0 zero_list demo_state = Ret 4.
Proof. vm_compute. reflexivity. Qed.

(** A form without assignments: [error_string] is read before it is set. *)
Example empty_form_undefined : parse_and_change_prefs zero_list (bytes_of "/p?") 10 demo_state = Crash.
Proof. vm_compute. reflexivity. Qed.
(** A token with a conversion is used as the format of the error message. *)
Example form_format_string : parse_and_change_prefs zero_list (bytes_of "/p?%s%s") 10 demo_state = Crash.
Proof. vm_compute. reflexivity. Qed.
(** Two separators at the end make the whole form fail. *)
Example form_two_separators :
  fst <$> parse_and_change_prefs zero_list (bytes_of "/p?i5=2&&") 10 demo_state = Ret (HTTP_ERR_BAD_TOKEN, Some []).
Proof. vm_compute. reflexivity. Qed.

(** A database that stores nothing.  Its failure goes unnoticed: the user sees
    the new preferences as long as they stay in the cache, and the defaults
    afterwards. *)
Record full_db := FullDB {}.
#[export] Instance full_gdbm : Gdbm full_db.
Proof. by refine {| gdbm_fetch := λ db k, None; gdbm_store := λ db k v, (-1, db) |}. Defined.
Definition full_state : prefs_state (DB := full_db) := PrefsState (userCache demo_state) FullDB (default_prefs demo_state).
Example failed_store_unnoticed :
  (λ r, (nargs r.1.1, nargs r.1.2)) <$>
    (_ ← set_userprefs 10 (MkArgumentList 1 (arg zero_list)); '(_, l1) ← get_userprefs zero_list 10;
     _ ← set_userprefs 411 zero_list; '(_, l2) ← get_userprefs zero_list 10; mret (l1, l2)) full_state = Ret (1, 4).
Proof. vm_compute. reflexivity. Qed.
