(* ===== verification/UrlMagic.v ===== *)
(** * Magic URLs (frontend/src/url_magic.c)

    A magic URL carries arguments: behind the last '*' and a '^' it has tokens
    [s11=bob^], [i5=2^] or [f7=0.5^] (a string, an integer, a number in floating
    point), before the '?' of a form.  URLs are C strings without their NUL; the
    buffers that the functions fill are blocks of bytes. *)

From S2P Require Import Prelude CString SockIO Partition Args.
Open Scope Z_scope.

Definition MAGIC_DELIM : byte := 94.
Definition MAGIC_START : byte := 42.

(** Where the form begins, or the end of the URL. *)
Definition form_start (url : bytes) : nat := default (length url) (strchr url 63).

Fixpoint is_magic_loop (url : bytes) (i n : nat) (magic_start : option nat) : option nat :=
  match n with
  | O => magic_start
  | S n' => is_magic_loop url (S i) n' (if head_byte (drop i url) =? MAGIC_START then Some i else magic_start)
  end.
Definition is_magic (url : bytes) : bool :=
  let form_start := form_start url in
  match is_magic_loop url 0 form_start None with
  | None => false
  | Some magic_start =>
      let magic_start := S magic_start in
      (head_byte (drop magic_start url) =? MAGIC_DELIM) && (head_byte (drop (form_start - 1) url) =? MAGIC_DELIM) &&
      negb (magic_start =? form_start - 1)%nat
  end.

(** ** Writing *)

(** What [sprintf] writes for an argument. *)
Definition arg_text (x : Argument) : outcome bytes :=
  match type x with
  | typeString => s ← ARG_STRING x; Ret (115 :: dec (id x) ++ 61 :: s ++ [MAGIC_DELIM])
  | typeInt => Ret (105 :: dec (id x) ++ 61 :: dec (u32 (ARG_INT x)) ++ [MAGIC_DELIM])
  | typeDouble => Ret (102 :: dec (id x) ++ 61 :: print_f (ARG_DOUBLE x) ++ [MAGIC_DELIM])
  end.
Fixpoint to_magic_loop (args : list Argument) (i : Z) (n : nat) (murl : bytes) (murl_pos : nat) : outcome (bytes * nat) :=
  match n with
  | O => Ret (murl, murl_pos)
  | S n' =>
      x ← arg_at args i;
      t ← arg_text x;
      murl ← store_at murl murl_pos (t ++ [0]);
      to_magic_loop args (i + 1) n' murl (murl_pos + length t)
  end.
(** The buffer [murl] is returned with the result. *)
Definition to_magic (murl url : bytes) (al : ArgumentList) : outcome (bool * bytes) :=
  if nargs al =? 0 then murl ← store_at murl 0 (url ++ [0]); Ret (false, murl)
  else
    let form_start := form_start url in
    murl ← store_at murl 0 (take form_start url);
    '(murl, murl_pos) ←
      (if is_magic url then Ret (murl, form_start)
       else murl ← store_at murl form_start [MAGIC_START; MAGIC_DELIM]; Ret (murl, form_start + 2)%nat);
    '(murl, murl_pos) ← to_magic_loop (arg al) 0 (Z.to_nat (nargs al)) murl murl_pos;
    murl ← (if (form_start =? length url)%nat then Ret murl else store_at murl murl_pos (drop form_start url ++ [0]));
    Ret (true, murl).

(** ** Reading *)

(** The variables that [sscanf] fills; [None] before it has. *)
Record locals := Locals {
  id_ : option Z;
  intval : option Z;
  dblval : option bytes;
  strval : option bytes;
}.
Definition no_locals : locals := Locals None None None None.

(** ["%[^^]"] stores any number of bytes in [strval], of [MAX_ARG_STRING]
    bytes; a conversion that fails leaves its variable as it is. *)
Definition scan_string (v : bytes) (i : Z) (L : locals) : outcome locals :=
  let s := take (span_in (λ c, negb (c =? MAGIC_DELIM)) v) v in
  if decide (s = []) then Ret (Locals (Some i) (intval L) (dblval L) (strval L))
  else if decide (length s < MAX_ARG_STRING)%nat then Ret (Locals (Some i) (intval L) (dblval L) (Some s))
  else Crash.
Definition scan_token (c : byte) (s : bytes) (L : locals) : outcome locals :=
  match scan_lu s with
  | None => Ret L
  | Some (i, r) =>
      if head_byte r =? 61 then
        let v := tail r in
        if c =? 115 then scan_string v i L
        else if c =? 105 then
          Ret (Locals (Some i) (match scan_lu v with Some (n, _) => Some n | None => intval L end) (dblval L) (strval L))
        else Ret (Locals (Some i) (intval L) (match scan_lf v with Some (d, _) => Some d | None => dblval L end) (strval L))
      else Ret (Locals (Some i) (intval L) (dblval L) (strval L))
  end.
(** Storing what was read; false when the list is full. *)
Definition store_token (c : byte) (L : locals) (al : ArgumentList) : outcome (bool * ArgumentList) :=
  match id_ L with
  | None => Crash
  | Some id_ =>
      i ← id_index (arg al) 0 (Z.to_nat (nargs al)) id_;
      if i =? Z.of_nat MAX_ARGS then Ret (false, al)
      else
        let al := if i =? nargs al then MkArgumentList (nargs al + 1) (arg al) else al in
        match (if c =? 115 then VStr <$> strval L else if c =? 105 then VInt <$> intval L else VDbl <$> dblval L) with
        | None => Crash
        | Some v =>
            x ← arg_at (arg al) i;
            l ← arg_set (arg al) i (SET_ARG_ID (set_value v x) id_);
            Ret (true, MkArgumentList (nargs al) l)
        end
  end.
(** Without a further '^' the position becomes NULL + 1, which is below the end
    and is read. *)
Fixpoint from_magic_loop (fuel : nat) (murl : bytes) (murl_magicend murl_pos : nat) (al : ArgumentList) (L : locals) (error : bool) :
    outcome (bool * nat * ArgumentList) :=
  match fuel with
  | O => Stuck
  | S fuel' =>
      c ← rd (murl ++ [0]) (Z.of_nat murl_pos);
      '(al, L, error) ←
        (if (c =? 115) || (c =? 105) || (c =? 102) then
           L ← scan_token c (drop (S murl_pos) murl) L;
           '(stored, al) ← store_token c L al;
           Ret (al, L, error || negb stored)
         else Ret (al, L, true));
      match strchr (drop murl_pos murl) MAGIC_DELIM with
      | None => Crash
      | Some k =>
          let murl_pos := S (murl_pos + k) in
          if (murl_pos <? murl_magicend)%nat then from_magic_loop fuel' murl murl_magicend murl_pos al L error
          else Ret (error, murl_pos, al)
      end
  end.
(** The buffer [url] and the list are returned with the result. *)
Definition from_magic (murl url : bytes) (al : ArgumentList) : outcome (bool * bytes * ArgumentList) :=
  if negb (is_magic murl) then url ← store_at url 0 (murl ++ [0]); Ret (false, url, al)
  else
    match strrchr murl MAGIC_START with
    | None => Crash
    | Some p =>
        url ← store_at url 0 (take p murl);
        '(error, murl_pos, al) ← from_magic_loop (S (length murl)) murl (form_start murl) (p + 2) al no_locals false;
        url ← store_at url p (drop murl_pos murl ++ [0]);
        Ret (negb error, url, al)
    end.

(** ** Storing and searching *)

Lemma store_at_app pre t s k : k = length pre → (length s <= length t)%nat → store_at (pre ++ t) k s = Ret (pre ++ s ++ drop (length s) t).
Proof.
  intros -> H. unfold store_at. rewrite decide_True by (rewrite length_app; lia). rewrite take_app_length.
  rewrite drop_app_ge by lia. by replace (length pre + length s - length pre)%nat with (length s) by lia.
Qed.

Lemma head_byte_drop pre c s k : k = length pre → head_byte (drop k (pre ++ c :: s)) = c.
Proof. intros ->. by rewrite drop_app_length. Qed.

Lemma is_magic_loop_none url i n acc : MAGIC_START ∉ take n (drop i url) → is_magic_loop url i n acc = acc.
Proof.
  revert i acc. induction n as [|n IH]; intros i acc H; [done|]. cbn [is_magic_loop].
  destruct (drop i url) as [|c s] eqn:E.
  - cbn [head_byte]. change (0 =? MAGIC_START) with false. apply IH. rewrite <-Nat.add_1_r, <-drop_drop, E. by rewrite drop_nil, take_nil.
  - cbn [take] in H. apply not_elem_of_cons in H as [Hc Hs]. cbn [head_byte]. rewrite (proj2 (Z.eqb_neq c MAGIC_START)) by congruence.
    apply IH. rewrite <-Nat.add_1_r, <-drop_drop, E. done.
Qed.

Lemma is_magic_loop_last pre rest n acc : (length pre < n)%nat → MAGIC_START ∉ take (n - S (length pre)) rest →
  is_magic_loop (pre ++ MAGIC_START :: rest) 0 n acc = Some (length pre).
Proof.
  intros Hn H. replace n with (length pre + S (n - S (length pre)))%nat by lia. set (k := (n - S (length pre))%nat) in *. clearbody k. clear Hn.
  assert (∀ pre0 acc, is_magic_loop (pre0 ++ pre ++ MAGIC_START :: rest) (length pre0) (length pre + S k) acc = Some (length (pre0 ++ pre))) as E; [|exact (E [] acc)].
  clear acc. induction pre as [|c pre IH]; intros pre0 acc.
  - cbn [length Nat.add app is_magic_loop]. rewrite drop_app_length. cbn [head_byte]. rewrite Z.eqb_refl. rewrite app_nil_r.
    rewrite is_magic_loop_none; [done|]. rewrite <-Nat.add_1_r, <-drop_drop, drop_app_length. done.
  - cbn [length Nat.add is_magic_loop]. specialize (IH (pre0 ++ [c])). rewrite <-!app_assoc in IH. cbn [app] in IH.
    rewrite length_app in IH. cbn [length] in IH. rewrite Nat.add_1_r in IH. apply IH.
Qed.

Lemma strrchr_last a c b : (c ∉ b) → strrchr (a ++ c :: b) c = Some (length a).
Proof.
  intros Hb. unfold strrchr.
  assert (∀ s i, (c ∉ s) → List.filter (λ x : nat * Z, x.2 =? c) (imap (λ j x, ((i + j)%nat, x)) s) = []) as Hnone.
  { intros s. induction s as [|x s IH]; intros i Hs; [done|]. apply not_elem_of_cons in Hs as [Hx Hs]. rewrite imap_cons. cbn [List.filter snd].
    rewrite (proj2 (Z.eqb_neq x c)) by congruence.
    rewrite <-(IH (S i) Hs). f_equal. apply imap_ext. intros j y _. cbn. by replace (i + S j)%nat with (S i + j)%nat by lia. }
  assert (imap pair (a ++ c :: b) = imap pair a ++ (length a, c) :: imap (λ j x, ((S (length a) + j)%nat, x)) b) as ->.
  { rewrite imap_app. f_equal. rewrite imap_cons. f_equal; [cbn; by rewrite Nat.add_0_r|]. apply imap_ext. intros j y _. cbn.
    by replace (length a + S j)%nat with (S (length a + j)) by lia. }
  rewrite List.filter_app. cbn [List.filter snd]. rewrite Z.eqb_refl, Hnone by done. rewrite fmap_app. cbn. by rewrite last_snoc.
Qed.

Lemma form_start_app a b : (63 ∉ a) → match b with [] => True | c :: _ => c = 63 end → form_start (a ++ b) = length a.
Proof.
  intros Ha Hb. unfold form_start. destruct b as [|c b]; [rewrite app_nil_r, strchr_none by done; done|]. subst c. by rewrite strchr_first.
Qed.

Lemma url_split url : ∃ base form, url = base ++ form ∧ (63 ∉ base) ∧ match form with [] => True | c :: _ => c = 63 end.
Proof.
  induction url as [|c url (base&form&->&H63&Hf)]; [exists [], []; split_and!; [done|apply not_elem_of_nil|done]|].
  destruct (decide (c = 63)) as [->|Hc].
  - exists [], (63 :: base ++ form). split_and!; [done|apply not_elem_of_nil|done].
  - exists (c :: base), form. split_and!; [done|by apply not_elem_of_cons|done].
Qed.

(** ** Texts of values *)

(** The text of a value; an integer is printed without a sign. *)
Definition value_text (v : value) : bytes :=
  match v with VInt n => dec (u32 n) | VStr s => s | VDbl d => print_f d end.
Definition value_letter (v : value) : byte := match v with VInt _ => 105 | VStr _ => 115 | VDbl _ => 102 end.
Definition entry_text (i : Z) (v : value) : bytes := value_letter v :: dec i ++ 61 :: value_text v ++ [MAGIC_DELIM].

(** Values that a URL can carry: a string is not empty and has no
    delimiters, a number is one that six decimals determine. *)
Definition portable (v : value) : Prop :=
  match v with
  | VInt n => True
  | VStr s => s ≠ [] ∧ (MAGIC_DELIM ∉ s) ∧ (MAGIC_START ∉ s) ∧ (63 ∉ s)
  | VDbl d => ∀ r, scan_lf (print_f d ++ MAGIC_DELIM :: r) = Some (d, MAGIC_DELIM :: r)
  end.

(** The magic URL for a list. *)
Definition args_text (l : list Argument) : bytes := concat ((λ x, entry_text (id x) (value_of x)) <$> l).
Definition magic_url (url : bytes) (l : list Argument) : bytes :=
  take (form_start url) url ++ MAGIC_START :: MAGIC_DELIM :: args_text l ++ drop (form_start url) url.

Lemma of_le_nonneg s : Forall is_byte s → 0 <= of_le s.
Proof. induction 1 as [|c s Hc Hs IH]; cbn [of_le]; unfold is_byte in *; lia. Qed.

Lemma dec_chars n : 0 <= n → Forall (λ c, 48 <= c <= 57) (dec n).
Proof.
  intros Hn. destruct (dec_shape n Hn) as (c&ds&->&Hd&_). rewrite forallb_forall in Hd. apply Forall_forall.
  intros x Hx%list_elem_of_In. specialize (Hd x Hx). unfold isdigit in Hd. lia.
Qed.

Lemma pad0_chars n s : Forall (λ c, 48 <= c <= 57) s → Forall (λ c, 48 <= c <= 57) (pad0 n s).
Proof. revert s. induction n as [|n IH]; intros s H; cbn [pad0]; destruct (decide _); try done. constructor; [lia|by apply IH]. Qed.

Lemma round_nonneg n d : 0 <= n → 0 < d → 0 <= round_half_even n d.
Proof. intros Hn Hd. unfold round_half_even. pose proof (Z.div_pos n d Hn Hd). destruct (_ || _); lia. Qed.

(** A printed number has digits, signs, points and letters. *)
Lemma print_f_chars d : Forall is_byte d → Forall (λ c, 45 <= c <= 57 ∨ 97 <= c <= 122) (print_f d).
Proof.
  intros Hd. pose proof (of_le_nonneg d Hd) as Hnn. unfold print_f. set (b := of_le d) in *. clearbody b.
  assert (∀ s, Forall (λ c, 48 <= c <= 57) s → Forall (λ c, 45 <= c <= 57 ∨ 97 <= c <= 122) s) as Hw by (intros s Hs; eapply Forall_impl; [exact Hs|]; cbn; lia).
  assert (Forall (λ c, 45 <= c <= 57 ∨ 97 <= c <= 122) (if 2 ^ 63 <=? b then [45] else [])) as Hs by (destruct (_ <=? _); repeat constructor; lia).
  destruct (_ =? 2047).
  - apply Forall_app. split; [done|]. destruct (_ =? 0); apply (bool_decide_unpack _); vm_compute; exact I.
  - set (f := if (b `mod` 2 ^ 63 / 2 ^ 52 =? 0) then _ else _). assert (0 <= f) as Hf by (unfold f; pose proof (Z.mod_pos_bound (b `mod` 2 ^ 63) (2 ^ 52) ltac:(lia)); destruct (_ =? 0); lia). clearbody f.
    set (q := Z.max _ 0 - 1074). set (n := round_half_even _ _). assert (0 <= n) as Hn.
    { apply round_nonneg; [|apply Z.pow_pos_nonneg; lia]. repeat apply Z.mul_nonneg_nonneg; try apply Z.pow_nonneg; lia. }
    clearbody n. repeat (apply Forall_app; split); [done|apply Hw, dec_chars, Z.div_pos; lia|repeat constructor; lia|].
    apply Hw, pad0_chars, dec_chars, Z.mod_pos_bound. lia.
Qed.

(** *** The texts of portable values *)
Definition url_char (c : byte) : Prop := is_byte c ∧ c ≠ 0 ∧ c ≠ 63 ∧ c ≠ MAGIC_START.

Lemma value_text_chars v : value_ok v → portable v → Forall (λ c, url_char c ∧ c ≠ MAGIC_DELIM) (value_text v).
Proof.
  unfold url_char, is_byte, MAGIC_START, MAGIC_DELIM. destruct v as [n|s|d]; cbn [value_text value_ok portable].
  - intros _ _. eapply Forall_impl; [apply dec_chars; apply wrap_range; lia|]. cbn. lia.
  - intros [Hn Hb] (_&H94&H42&H63). unfold no_nul, is_byte in *. rewrite Forall_forall in Hn, Hb |- *. intros c Hc.
    split_and!; try (intros ->); try (by apply Hn in Hc); try done; by apply Hb.
  - intros [_ Hb] _. eapply Forall_impl; [by apply print_f_chars|]. cbn. lia.
Qed.

Lemma entry_chars i v : 0 <= i → value_ok v → portable v →
  ∃ t, entry_text i v = t ++ [MAGIC_DELIM] ∧ Forall (λ c, url_char c ∧ c ≠ MAGIC_DELIM) t ∧ t ≠ [].
Proof.
  intros Hi Hv Hp. exists (value_letter v :: dec i ++ 61 :: value_text v). unfold entry_text. split_and!; [by rewrite <-app_comm_cons, <-app_assoc| |done].
  assert (∀ c, 48 <= c <= 122 → c ≠ 63 → c ≠ 94 → url_char c ∧ c ≠ MAGIC_DELIM) as H by (unfold url_char, is_byte, MAGIC_START, MAGIC_DELIM; lia).
  constructor; [apply H; destruct v; cbn; lia|]. apply Forall_app. split; [eapply Forall_impl; [by apply dec_chars|]; cbn beta; intros c Hc; apply H; lia|].
  constructor; [apply H; lia|by apply value_text_chars].
Qed.

Lemma args_text_chars l : Forall arg_ok l → Forall (λ x, portable (value_of x)) l → Forall url_char (args_text l).
Proof.
  intros Hl Hp. unfold args_text. induction Hl as [|x l Hx Hl IH]; [constructor|]. apply Forall_cons in Hp as [Hpx Hp]. cbn [fmap list_fmap concat].
  apply Forall_app. split; [|by apply IH]. destruct (entry_chars (id x) (value_of x)) as (t&->&Ht&_); [by apply Hx|by apply value_of_ok|done|].
  apply Forall_app. split; [eapply Forall_impl; [exact Ht|]; by intros ? [? _]|]. repeat constructor; unfold is_byte, MAGIC_DELIM, MAGIC_START; lia.
Qed.

(** ** Writing *)

Lemma arg_text_spec x : arg_ok x → arg_text x = Ret (entry_text (id x) (value_of x)).
Proof.
  intros Hx. unfold arg_text, entry_text, value_of. destruct (type x) eqn:E; [done| |done].
  destruct (arg_string_value x Hx E) as [-> _]. done.
Qed.

Lemma args_text_cons x l : args_text (x :: l) = entry_text (id x) (value_of x) ++ args_text l.
Proof. done. Qed.

Lemma to_magic_loop_spec args l1 l2 rest pre t : args = (l1 ++ l2) ++ rest → Forall arg_ok l2 → (length (args_text l2) < length t)%nat →
  ∃ t', to_magic_loop args (Z.of_nat (length l1)) (length l2) (pre ++ t) (length pre) = Ret ((pre ++ args_text l2) ++ t', length (pre ++ args_text l2)) ∧
    (length (args_text l2) + length t')%nat = length t ∧ (l2 ≠ [] → head t' = Some 0).
Proof.
  intros Ea Hl. revert l1 pre t Ea. induction Hl as [|x l Hx Hl IH]; intros l1 pre t Ea Ht.
  - exists t. cbn. rewrite app_nil_r. done.
  - cbn [to_magic_loop length]. rewrite (arg_at_lookup args (length l1) x) by (rewrite Ea, <-app_assoc, lookup_app_r, Nat.sub_diag by lia; done).
    cbn [mbind outcome_mbind]. rewrite arg_text_spec by done. cbn [mbind outcome_mbind]. rewrite args_text_cons in *. set (e := entry_text (id x) (value_of x)) in *.
    rewrite length_app in Ht. rewrite store_at_app by (done || rewrite length_app; cbn [length]; lia). cbn [mbind outcome_mbind].
    rewrite <-(app_assoc e), (app_assoc pre e), <-length_app. cbn [app].
    replace (Z.of_nat (length l1) + 1) with (Z.of_nat (length (l1 ++ [x]))) by (rewrite length_app; cbn; lia).
    destruct (IH (l1 ++ [x]) (pre ++ e) (0 :: drop (length (e ++ [0])) t)) as (t'&E&Hl'&Hh); [by rewrite Ea, <-(app_assoc l1 [x])|cbn [length]; rewrite length_drop, length_app; cbn [length]; lia|].
    rewrite E. rewrite <-(app_assoc pre e). exists t'. split; [done|]. split.
    { cbn [length] in Hl'. rewrite length_drop, length_app in Hl'. cbn [length] in Hl'. rewrite length_app. lia. }
    intros _. destruct l as [|y l]; [|by apply Hh]. cbn [to_magic_loop length args_text fmap list_fmap concat] in E. rewrite app_nil_r in E.
    injection E as E. apply app_inv_head in E. by subst t'.
Qed.

Lemma to_magic_spec url al murl : args_ok al → 0 < nargs al → is_magic url = false → (length (magic_url url (used al)) < length murl)%nat →
  ∃ junk, to_magic murl url al = Ret (true, magic_url url (used al) ++ 0 :: junk).
Proof.
  intros Hok Hn Hm. unfold to_magic, magic_url. rewrite Hm. rewrite (proj2 (Z.eqb_neq _ _)) by lia. set (k := form_start url). intros Hlen.
  assert (k <= length url)%nat as Hk.
  { unfold k, form_start, strchr. destruct (decide _); cbn; lia. }
  destruct (args_split al Hok) as (rest&Ea&Hl&Hf&_).
  rewrite length_app in Hlen. cbn [length] in Hlen. rewrite length_app, length_drop, length_take_le in Hlen by done.
  pose proof (store_at_app [] murl (take k url) 0 eq_refl) as E1. cbn [app] in E1. rewrite E1 by (rewrite length_take_le; lia). cbn [mbind outcome_mbind]. clear E1.
  rewrite length_take_le by done. rewrite store_at_app by (rewrite ?length_take_le, ?length_drop by lia; cbn [length]; lia). cbn [mbind outcome_mbind].
  rewrite (app_assoc (take k url)), drop_drop. cbn [length]. set (pre := take k url ++ [MAGIC_START; MAGIC_DELIM]).
  assert (length pre = (k + 2)%nat) as Hpre by (unfold pre; rewrite length_app, length_take_le by lia; done).
  replace (Z.to_nat (nargs al)) with (length (used al)) by lia. set (t := drop (k + 2) murl).
  rewrite <-Hpre.
  assert (length t = (length murl - (k + 2))%nat) as Ht by apply length_drop.
  destruct (to_magic_loop_spec (arg al) [] (used al) rest pre t Ea Hf) as (t'&E&Hlt&Hh); [lia|]. change (Z.of_nat (length [])) with 0 in E. rewrite E. cbn [mbind outcome_mbind].
  assert (take k url ++ MAGIC_START :: MAGIC_DELIM :: args_text (used al) ++ drop k url = (pre ++ args_text (used al)) ++ drop k url) as Em
    by (unfold pre; by rewrite <-!app_assoc). rewrite Em. clear Em.
  destruct (Nat.eqb_spec k (length url)) as [Eq|Hne].
  - cbn [mbind outcome_mbind]. rewrite (drop_ge url) by lia. rewrite app_nil_r.
    assert (used al ≠ []) as Hu by (intros Eu; rewrite Eu in Hl; cbn in Hl; lia). apply Hh in Hu. destruct t' as [|c t']; [done|]. injection Hu as ->. by exists t'.
  - rewrite store_at_app; [|done|rewrite length_app, length_drop; cbn [length]; lia]. cbn [mbind outcome_mbind]. eexists. by rewrite <-!app_assoc.
Qed.

(** ** Reading *)

Lemma i32_u32 n : i32 (u32 n) = i32 n.
Proof. unfold swrap, wrap. by rewrite Zplus_mod_idemp_l. Qed.

(** One token is read whole, whatever the variables held. *)
Lemma scan_token_spec i v r L : 0 <= i < 2 ^ 32 → value_ok v → portable v →
  match v with VStr s => (length s < MAX_ARG_STRING)%nat | _ => True end →
  ∃ L' w, scan_token (value_letter v) (dec i ++ 61 :: value_text v ++ MAGIC_DELIM :: r) L = Ret L' ∧ id_ L' = Some i ∧
    (if value_letter v =? 115 then VStr <$> strval L' else if value_letter v =? 105 then VInt <$> intval L' else VDbl <$> dblval L') = Some w ∧
    value_ok w ∧ kept w = kept v.
Proof.
  intros Hi Hv Hp Hs. unfold scan_token. rewrite scan_lu_dec by done. cbn [head_byte tail]. change (61 =? 61) with true. cbn iota.
  destruct v as [n|s|d]; cbn [value_letter value_text].
  - change (105 =? 115) with false. change (105 =? 105) with true. cbn iota. rewrite scan_lu_dec by (done || by apply wrap_range; lia).
    eexists _, (VInt (u32 n)). split_and!; [done..|]. cbn [kept]. by rewrite i32_u32.
  - change (115 =? 115) with true. cbn iota. unfold scan_string. destruct Hp as (Hne&H94&_).
    assert (forallb (λ c, negb (c =? MAGIC_DELIM)) s = true) as Hf.
    { apply forallb_forall. intros x Hx%list_elem_of_In. apply negb_true_iff, Z.eqb_neq. by intros ->. }
    rewrite span_in_app, Hf. cbn [span_in]. rewrite Z.eqb_refl. cbn [negb]. rewrite Nat.add_0_r, take_app_length.
    rewrite decide_False, decide_True by done. by eexists _, (VStr s).
  - change (102 =? 115) with false. change (102 =? 105) with false. cbn iota. rewrite Hp. by eexists _, (VDbl d).
Qed.

(** Storing sets the value of that identifier. *)
Lemma store_token_spec c L al i w : args_ok al → id_ L = Some i → 0 <= i < 2 ^ 32 →
  (if c =? 115 then VStr <$> strval L else if c =? 105 then VInt <$> intval L else VDbl <$> dblval L) = Some w → value_ok w →
  nargs al < Z.of_nat MAX_ARGS →
  ∃ al', store_token c L al = Ret (true, al') ∧ args_ok al' ∧ nargs al' <= nargs al + 1 ∧
    ∀ j, view al' j = if decide (j = i) then Some (kept w) else view al j.
Proof.
  intros Hok Hid Hi Hw Hwv Hroom. destruct (args_split al Hok) as (rest&Ea&Hl&Hf1&Hf2&Hlen). unfold store_token. rewrite Hid.
  replace (Z.to_nat (nargs al)) with (length (used al)) by lia.
  assert (∀ x, arg_ok x → arg_ok (SET_ARG_ID (set_value w x) i) ∧ id (SET_ARG_ID (set_value w x) i) = i ∧ value_of (SET_ARG_ID (set_value w x) i) = kept w) as Hset.
  { intros x Hx. split; [by apply arg_ok_id, arg_ok_set|]. split; [cbn; by apply wrap_small|]. rewrite <-(value_of_set w x) by done. done. }
  destruct (id_index_spec al i [] (used al) (used_prefix al Hok)) as [[Hn E]|(p&x&q&Eu&Hx&_&E)]; change (Z.of_nat (length [])) with 0 in E; rewrite E; cbn [mbind outcome_mbind app].
  - rewrite Hl, Z.eqb_refl, (proj2 (Z.eqb_neq _ _)), Hw by lia. cbn [arg nargs].
    destruct rest as [|x0 rest]; [cbn [length] in Hlen; lia|]. inversion_clear Hf2 as [|?? Hx0 _]. destruct (Hset x0 Hx0) as (H1&H2&H3).
    destruct (args_append al (SET_ARG_ID (set_value w x0) i) Hok Hroom H1) as (x1&v&E1&_&E2&Hok'&Hu'); [by rewrite H2|].
    assert (x1 = x0) as ->.
    { rewrite <-Hl, Ea in E1. rewrite (arg_at_lookup _ (length (used al)) x0) in E1 by (by rewrite lookup_app_r, Nat.sub_diag by lia). congruence. }
    rewrite E1. cbn [mbind outcome_mbind]. rewrite E2. eexists. split_and!; [done|done|done|].
    intros j. unfold view. rewrite Hu', find_arg_snoc by (by rewrite H2). rewrite H2. destruct (decide (j = i)); [|done]. cbn. by rewrite H3.
  - assert (length p < length (used al))%nat as Hp by (rewrite Eu, length_app; cbn; lia).
    rewrite (proj2 (Z.eqb_neq _ (Z.of_nat MAX_ARGS))), (proj2 (Z.eqb_neq _ (nargs al))), Hw by lia. cbn iota zeta.
    assert (arg_ok x) as Hxo by (rewrite Eu, Forall_app, Forall_cons in Hf1; tauto). destruct (Hset x Hxo) as (H1&H2&H3).
    destruct (args_replace al p x q (SET_ARG_ID (set_value w x) i) Hok Eu H1) as (v&E1&E2&Hok'&Hu'); [by rewrite H2, Hx|].
    rewrite E1. cbn [mbind outcome_mbind]. rewrite E2. eexists. split_and!; [done|done|cbn; lia|]. intros j. unfold view at 1.
    pose proof (ok_ids al Hok) as Hnd. rewrite Eu in Hnd. rewrite Hu', (proj1 (find_arg_mid p x q Hnd _ j (eq_trans H2 (eq_sym Hx)))), Hx.
    destruct (decide (j = i)); [cbn; by rewrite H3|]. by rewrite <-Eu.
Qed.

Lemma strchr_skip t r : Forall (λ c, url_char c ∧ c ≠ MAGIC_DELIM) t → strchr (t ++ MAGIC_DELIM :: r) MAGIC_DELIM = Some (length t).
Proof. intros Ht. apply strchr_first. rewrite Forall_forall in Ht. intros Hin. by destruct (Ht _ Hin) as [_ ?]. Qed.

(** What the values of a list are when it is kept. *)
Lemma kept_value x : arg_ok x → kept (value_of x) = value_of x.
Proof.
  intros Hx. unfold value_of. destruct (type x) eqn:E; cbn [kept]; [|by rewrite take_ge by (destruct (arg_string_value x Hx E); unfold MAX_ARG_STRING in *; lia)|done].
  f_equal. unfold ARG_INT. rewrite E. unfold swrap. pose proof (Z.mod_pos_bound (of_le (take 4 (a x)) + 2 ^ (32 - 1)) (2 ^ 32)). rewrite Z.mod_small; lia.
Qed.

Lemma from_magic_loop_spec l pre form al L fuel : l ≠ [] → Forall arg_ok l → Forall (λ x, portable (value_of x)) l → NoDup (id <$> l) →
  args_ok al → nargs al + Z.of_nat (length l) <= Z.of_nat MAX_ARGS → (length l <= fuel)%nat →
  ∃ al', from_magic_loop fuel (pre ++ args_text l ++ form) (length (pre ++ args_text l)) (length pre) al L false =
      Ret (false, length (pre ++ args_text l), al') ∧ args_ok al' ∧
    ∀ j, view al' j = match find_arg j l with Some x => Some (value_of x) | None => view al j end.
Proof.
  intros Hne Hl. revert pre al L fuel Hne. induction Hl as [|x l Hx Hl IH]; intros pre al L fuel Hne Hp Hnd Hok Hn Hfuel; [done|].
  apply Forall_cons in Hp as [Hpx Hp]. rewrite fmap_cons in Hnd. apply NoDup_cons in Hnd as [Hnx Hnd]. cbn [length] in Hn, Hfuel. destruct fuel as [|fuel]; [lia|].
  pose proof (value_of_ok x Hx) as Hv. assert (0 <= id x < 2 ^ 32) as Hid by apply Hx.
  rewrite args_text_cons, <-app_assoc. cbn [from_magic_loop].
  destruct (entry_chars (id x) (value_of x)) as (t&Et&Ht&Htn); [lia|done..|].
  assert (drop (length pre) (pre ++ entry_text (id x) (value_of x) ++ args_text l ++ form) = entry_text (id x) (value_of x) ++ args_text l ++ form) as Ed by apply drop_app_length.
  assert (drop (S (length pre)) (pre ++ entry_text (id x) (value_of x) ++ args_text l ++ form) =
    dec (id x) ++ 61 :: value_text (value_of x) ++ MAGIC_DELIM :: args_text l ++ form) as Ed2.
  { rewrite <-Nat.add_1_r, <-drop_drop, Ed. unfold entry_text. cbn [app drop]. rewrite <-app_assoc. cbn [app]. by rewrite <-app_assoc. }
  assert (rd ((pre ++ entry_text (id x) (value_of x) ++ args_text l ++ form) ++ [0]) (Z.of_nat (length pre)) = Ret (value_letter (value_of x))) as ->.
  { unfold rd. rewrite (proj2 (Z.ltb_ge _ _)) by lia. rewrite Nat2Z.id, <-app_assoc, lookup_app_r, Nat.sub_diag by lia. done. }
  cbn [mbind outcome_mbind].
  assert ((value_letter (value_of x) =? 115) || (value_letter (value_of x) =? 105) || (value_letter (value_of x) =? 102) = true) as -> by (by destruct (value_of x)).
  destruct (scan_token_spec (id x) (value_of x) (args_text l ++ form) L Hid Hv Hpx) as (L'&w&E1&Hi&Hw&Hwv&Hk).
  { destruct (value_of x) eqn:Evx; [done| |done]. unfold value_of in Evx. destruct (type x) eqn:Etx; try done. injection Evx as <-. by apply arg_string_value. }
  rewrite Ed2, E1. cbn [mbind outcome_mbind].
  destruct (store_token_spec (value_letter (value_of x)) L' al (id x) w Hok Hi Hid Hw Hwv) as (al1&E2&Hok1&Hn1&Hv1); [lia|].
  rewrite E2. cbn [mbind outcome_mbind]. rewrite Ed.
  assert (strchr (entry_text (id x) (value_of x) ++ args_text l ++ form) MAGIC_DELIM = Some (length t)) as -> by (rewrite Et, <-app_assoc; by apply strchr_skip).
  replace (S (length pre + length t)) with (length (pre ++ entry_text (id x) (value_of x))) by (rewrite Et, !length_app; cbn [length]; lia).
  rewrite (app_assoc pre (entry_text (id x) (value_of x)) (args_text l)), (app_assoc pre (entry_text (id x) (value_of x)) (args_text l ++ form)).
  destruct l as [|y l].
  - cbn [args_text fmap list_fmap concat]. rewrite app_nil_r. rewrite Nat.ltb_irrefl. cbn [orb negb]. exists al1. split; [done|]. split; [done|]. intros j. rewrite Hv1, Hk, kept_value by done.
    unfold find_arg. destruct (decide (j = id x)) as [->|Hj]; [by rewrite filter_cons_True|by rewrite filter_cons_False].
  - assert (args_text (y :: l) ≠ []) as Hyl by (rewrite args_text_cons; done).
    rewrite (proj2 (Nat.ltb_lt _ _)) by (rewrite (length_app _ (args_text (y :: l))); destruct (args_text (y :: l)); [done|cbn [length]; lia]).
    cbn [orb negb]. destruct (IH (pre ++ entry_text (id x) (value_of x)) al1 L' fuel ltac:(done) Hp Hnd Hok1 ltac:(lia) ltac:(lia)) as (al2&E3&Hok2&Hv2).
    rewrite E3. exists al2. split; [done|]. split; [done|]. intros j. rewrite Hv2, Hv1, Hk, kept_value by done.
    assert (find_arg j (x :: y :: l) = if decide (id x = j) then Some x else find_arg j (y :: l)) as ->.
    { unfold find_arg at 1. destruct (decide (id x = j)); [by rewrite filter_cons_True|by rewrite filter_cons_False]. }
    destruct (decide (id x = j)) as [<-|Hj]; [|by rewrite decide_False by congruence].
    assert (find_arg (id x) (y :: l) = None) as ->; [|by rewrite decide_True].
    apply find_arg_none. rewrite Forall_forall. intros z Hz Ez. apply Hnx. rewrite <-Ez. by apply list_elem_of_fmap_2.
Qed.

(** ** The URLs that are written *)

Lemma url_char_no l c : Forall url_char l → ¬ url_char c → c ∉ l.
Proof. intros Hl Hc Hin. rewrite Forall_forall in Hl. by apply Hc, Hl. Qed.

Lemma args_text_last l : l ≠ [] → ∃ t, args_text l = t ++ [MAGIC_DELIM].
Proof.
  intros Hne. induction l as [|x l IH]; [done|]. rewrite args_text_cons. destruct l as [|y l].
  - exists (value_letter (value_of x) :: dec (id x) ++ 61 :: value_text (value_of x)). unfold entry_text. cbn [args_text fmap list_fmap concat].
    by rewrite app_nil_r, <-app_comm_cons, <-app_assoc.
  - destruct IH as [t ->]; [done|]. exists (entry_text (id x) (value_of x) ++ t). by rewrite <-app_assoc.
Qed.

Lemma args_text_length l : (length l <= length (args_text l))%nat.
Proof. induction l as [|x l IH]; [cbn; lia|]. rewrite args_text_cons, length_app. unfold entry_text. cbn [length]. lia. Qed.

Lemma is_magic_none url : (MAGIC_START ∉ url) → is_magic url = false.
Proof.
  intros H. unfold is_magic. rewrite is_magic_loop_none; [done|]. rewrite drop_0. intros Hin. apply H. rewrite <-(take_drop (form_start url) url). apply elem_of_app. by left.
Qed.

Lemma magic_url_parts base form l : (63 ∉ base) → match form with [] => True | c :: _ => c = 63 end → Forall url_char (args_text l) → l ≠ [] →
  magic_url (base ++ form) l = (base ++ [MAGIC_START; MAGIC_DELIM]) ++ args_text l ++ form ∧
  form_start ((base ++ [MAGIC_START; MAGIC_DELIM]) ++ args_text l ++ form) = length ((base ++ [MAGIC_START; MAGIC_DELIM]) ++ args_text l) ∧
  is_magic ((base ++ [MAGIC_START; MAGIC_DELIM]) ++ args_text l ++ form) = true.
Proof.
  intros H63 Hf Ht Hne. assert (63 ∉ args_text l) as Ht63 by (apply (url_char_no _ _ Ht); unfold url_char; lia).
  assert (MAGIC_START ∉ args_text l) as Ht42 by (apply (url_char_no _ _ Ht); unfold url_char; lia).
  split.
  { unfold magic_url. rewrite form_start_app, take_app_length, drop_app_length by done. by rewrite <-app_assoc. }
  assert (63 ∉ (base ++ [MAGIC_START; MAGIC_DELIM]) ++ args_text l) as H63'.
  { rewrite !not_elem_of_app. split_and!; [done| |done]. apply (bool_decide_unpack _). vm_compute. exact I. }
  rewrite app_assoc. assert (form_start (((base ++ [MAGIC_START; MAGIC_DELIM]) ++ args_text l) ++ form) = length ((base ++ [MAGIC_START; MAGIC_DELIM]) ++ args_text l)) as E by (by apply form_start_app).
  split; [done|]. unfold is_magic. rewrite E.
  assert (((base ++ [MAGIC_START; MAGIC_DELIM]) ++ args_text l) ++ form = base ++ MAGIC_START :: MAGIC_DELIM :: args_text l ++ form) as E2 by (by rewrite <-!app_assoc).
  set (n := length ((base ++ [MAGIC_START; MAGIC_DELIM]) ++ args_text l)) in *.
  assert (n = length base + 2 + length (args_text l))%nat as Hn by (unfold n; rewrite !length_app; done).
  rewrite E2 at 1. rewrite is_magic_loop_last; [|lia|].
  2: { replace (n - S (length base))%nat with (S (length (args_text l))) by lia. cbn [take]. apply not_elem_of_cons. split; [done|].
       by rewrite take_app_length. }
  rewrite E2 at 1. rewrite <-Nat.add_1_r at 1. rewrite <-drop_drop, drop_app_length. cbn [drop head_byte]. rewrite Z.eqb_refl.
  destruct (args_text_last l Hne) as [t Et].
  assert (((base ++ [MAGIC_START; MAGIC_DELIM]) ++ args_text l) ++ form = (base ++ [MAGIC_START; MAGIC_DELIM] ++ t) ++ MAGIC_DELIM :: form) as ->
    by (rewrite Et; by rewrite <-!app_assoc).
  rewrite head_byte_drop by (rewrite Hn, Et, !length_app; cbn [length]; lia). rewrite Z.eqb_refl. cbn [andb]. apply negb_true_iff, Nat.eqb_neq.
  assert (length (args_text l) ≠ 0)%nat by (rewrite Et, length_app; cbn [length]; lia). lia.
Qed.

Lemma no_nul_chars l : Forall url_char l → no_nul l.
Proof. intros H. eapply Forall_impl; [exact H|]. by intros c (_&?&_). Qed.

(** C40. Round trip: arguments that [to_magic] writes into a URL without a
    star come back from it with the URL, when their values survive printing (a
    text that is not empty and has none of the characters that separate
    arguments, a number with at most six decimals) and the list has room for
    them: [from_magic] returns the URL as it was, and sets exactly these
    arguments in a list that it is given. *)
Theorem magic_roundtrip (url murl0 url0 : bytes) (al al0 : ArgumentList)
    (Hok : args_ok al) (Hne : 0 < nargs al) (Hp : Forall (λ x, portable (value_of x)) (used al)) (Hok0 : args_ok al0)
    (Hroom : nargs al0 + nargs al <= Z.of_nat MAX_ARGS) (Hn : no_nul url) (H42 : MAGIC_START ∉ url)
    (Hm : (length (magic_url url (used al)) < length murl0)%nat) (Hu : (length url < length url0)%nat) :
  ∃ murl murl1 url1 al1, to_magic murl0 url al = Ret (true, murl1) ∧ cstr_at murl1 0 = Some murl ∧ is_magic murl = true ∧
    from_magic murl url0 al0 = Ret (true, url1, al1) ∧ cstr_at url1 0 = Some url ∧ args_ok al1 ∧
    ∀ i, view al1 i = match view al i with Some v => Some v | None => view al0 i end.
Proof.
  destruct (args_split al Hok) as (rest&_&Hl&Hf&_). assert (used al ≠ []) as Hune by (intros E; rewrite E in Hl; cbn in Hl; lia).
  pose proof (args_text_chars (used al) Hf Hp) as Hchars.
  destruct (to_magic_spec url al murl0 Hok Hne (is_magic_none url H42) Hm) as (junk&E1). destruct (url_split url) as (base&form&->&H63&Hform).
  destruct (magic_url_parts base form (used al) H63 Hform Hchars Hune) as (Em&Efs&Emag). rewrite Em in *. set (pre := base ++ [MAGIC_START; MAGIC_DELIM]) in *.
  apply not_elem_of_app in H42 as [Hb42 Hf42]. apply Forall_app in Hn as [Hnb Hnf].
  destruct (from_magic_loop_spec (used al) pre form al0 no_locals (S (length (pre ++ args_text (used al) ++ form))) Hune Hf Hp (ok_ids al Hok) Hok0) as (al1&E2&Hok1&Hv1); [lia| |].
  { rewrite !length_app. pose proof (args_text_length (used al)). lia. }
  exists (pre ++ args_text (used al) ++ form), ((pre ++ args_text (used al) ++ form) ++ 0 :: junk), (base ++ form ++ 0 :: drop (S (length form)) (drop (length base) url0)), al1.
  split_and!; [done| |done| | |done|].
  - apply (cstr_at_app [] (pre ++ args_text (used al) ++ form)). apply Forall_app. split; [apply Forall_app; split; [done|constructor; [discriminate|constructor; [discriminate|constructor]]]|].
    apply Forall_app. split; [by apply no_nul_chars|done].
  - unfold from_magic. rewrite Emag. cbn [negb].
    assert (pre ++ args_text (used al) ++ form = base ++ MAGIC_START :: MAGIC_DELIM :: args_text (used al) ++ form) as Ep by (unfold pre; by rewrite <-app_assoc).
    assert (strrchr (pre ++ args_text (used al) ++ form) MAGIC_START = Some (length base)) as ->.
    { rewrite Ep. apply strrchr_last. apply not_elem_of_cons. split; [done|]. apply not_elem_of_app. split; [|done].
      apply (url_char_no _ _ Hchars). unfold url_char. lia. }
    rewrite length_app in Hu. assert (take (length base) (pre ++ args_text (used al) ++ form) = base) as -> by (rewrite Ep; apply take_app_length).
    pose proof (store_at_app [] url0 base 0 eq_refl) as E3. cbn [app] in E3. rewrite E3 by lia. cbn [mbind outcome_mbind].
    rewrite Efs. replace (length base + 2)%nat with (length pre) by (unfold pre; by rewrite length_app).
    rewrite E2. cbn [mbind outcome_mbind].
    assert (drop (length (pre ++ args_text (used al))) (pre ++ args_text (used al) ++ form) = form) as -> by (rewrite app_assoc; apply drop_app_length).
    rewrite store_at_app by (done || rewrite length_app, length_drop; cbn [length]; lia). cbn [mbind outcome_mbind].
    rewrite length_app. cbn [length]. rewrite Nat.add_1_r, <-(app_assoc form). done.
  - rewrite app_assoc. apply (cstr_at_app [] (base ++ form)). by apply Forall_app.
  - intros i. rewrite Hv1. unfold view at 2. by destruct (find_arg i (used al)).
Qed.

(** The loop ends for every URL and every list: each turn moves behind a
    further delimiter. *)
Lemma id_index_ends l i n x : id_index l i n x ≠ Stuck.
Proof.
  revert i. induction n as [|n IH]; intros i; [done|]. cbn [id_index]. unfold arg_at. destruct (i <? 0); [done|].
  destruct (l !! Z.to_nat i); [|done]. cbn [mbind outcome_mbind]. destruct (_ =? _); [done|apply IH].
Qed.
Lemma store_token_ends c L al : store_token c L al ≠ Stuck.
Proof.
  unfold store_token. destruct (id_ L) as [i|]; [|done]. pose proof (id_index_ends (arg al) 0 (Z.to_nat (nargs al)) i) as H.
  destruct (id_index _ _ _ _) as [k| | |]; try done. cbn [mbind outcome_mbind]. destruct (k =? _); [done|]. cbn zeta. set (al' := if _ : bool then _ else al). clearbody al'.
  destruct (if c =? 115 then _ else _) as [v|]; [|done]. unfold arg_at, arg_set. destruct (k <? 0); [done|]. destruct (arg al' !! _); [|done]. cbn [mbind outcome_mbind]. by destruct (_ && _).
Qed.
Lemma scan_token_ends c s L : scan_token c s L ≠ Stuck.
Proof.
  unfold scan_token, scan_string. destruct (scan_lu s) as [[i r]|]; [|done]. destruct (_ =? 61); [|done].
  destruct (c =? 115); [|by destruct (c =? 105)]. destruct (decide _); [done|]. by destruct (decide _).
Qed.
Lemma from_magic_ends murl url al : from_magic murl url al ≠ Stuck.
Proof.
  assert (∀ fuel e pos al L err, (length murl < fuel + pos)%nat → (0 < fuel ∨ pos <= length murl)%nat → from_magic_loop fuel murl e pos al L err ≠ Stuck) as H.
  { intros fuel. induction fuel as [|fuel IH]; intros e pos al1 L err Hf Hp; cbn [from_magic_loop]; [lia|].
    unfold rd. destruct (_ <? 0); [done|]. destruct (_ !! _) as [c|]; [|done]. cbn [mbind outcome_mbind].
    assert (∀ al L err, match strchr (drop pos murl) MAGIC_DELIM with
                        | None => Crash
                        | Some k => if (S (pos + k) <? e)%nat then from_magic_loop fuel murl e (S (pos + k)) al L err else Ret (err, S (pos + k), al)
                        end ≠ Stuck) as Hnext.
    { intros al2 L2 err2. destruct (strchr (drop pos murl) MAGIC_DELIM) as [k|] eqn:Ek; [|done].
      assert (k < length murl - pos)%nat by (rewrite <-length_drop; unfold strchr in Ek; destruct (decide _); [by injection Ek as <-|done]).
      destruct (_ <? e)%nat; [|done]. apply IH; lia. }
    destruct (_ || _); [|apply Hnext]. pose proof (scan_token_ends c (drop (S pos) murl) L) as H1.
    destruct (scan_token c (drop (S pos) murl) L) as [L'| | |]; try done. cbn [mbind outcome_mbind].
    pose proof (store_token_ends c L' al1) as H2. destruct (store_token c L' al1) as [[st al2]| | |]; try done. cbn [mbind outcome_mbind]. apply Hnext. }
  unfold from_magic, store_at. destruct (negb _); [by destruct (decide _)|]. destruct (strrchr murl MAGIC_START) as [p|]; [|done].
  destruct (decide _); [|done]. cbn [mbind outcome_mbind].
  specialize (H (S (length murl)) (form_start murl) (p + 2)%nat al no_locals false ltac:(lia) ltac:(lia)).
  destruct (from_magic_loop _ _ _ _ _ _ _) as [[[err pos] al1]| | |]; try done. cbn [mbind outcome_mbind]. by destruct (decide _).
Qed.

(** ** Witness and examples *)
Definition demo_args : list Argument :=
  [set_value (VInt (-2)) (blank_arg 5); set_value (VStr (bytes_of "bob")) (blank_arg 11); set_value (VDbl (to_le 8 4602678819172646912)) (blank_arg 7)].
Definition demo_list : ArgumentList := MkArgumentList 3 (demo_args ++ replicate 47 (blank_arg 0)).
Definition demo_old : ArgumentList := MkArgumentList 1 (set_value (VInt 1) (blank_arg 5) :: replicate 49 (blank_arg 0)).
Definition demo_url : bytes := bytes_of "http://a/b?x".
Definition demo_url_buffer : bytes := replicate 100 7.

Lemma demo_lists_ok : (args_ok demo_list ∧ args_ok demo_old) ∧ Forall (λ x, portable (value_of x)) (used demo_list).
Proof.
  assert (∀ n, Forall arg_ok (replicate n (blank_arg 0))) as Hr by (intros n; apply Forall_replicate, blank_arg_ok; lia).
  assert (∀ v i, value_ok v → 0 <= i < 2 ^ 32 → arg_ok (set_value v (blank_arg i))) as Hs by (intros v i Hv Hi; by apply arg_ok_set, blank_arg_ok).
  assert (value_ok (VStr (bytes_of "bob"))) as Hbob by (split; [unfold no_nul|unfold is_byte]; apply (bool_decide_unpack _); vm_compute; exact I).
  assert (value_ok (VDbl (to_le 8 4602678819172646912))) as Hhalf by (split; [done|apply to_le_bytes]).
  split; [split|].
  - apply (args_make demo_args (replicate 47 (blank_arg 0))); [|apply Hr|apply (bool_decide_unpack _); vm_compute; exact I|done].
    repeat (constructor; [by apply Hs|]). constructor.
  - apply (args_make [set_value (VInt 1) (blank_arg 5)] (replicate 49 (blank_arg 0))); [|apply Hr|apply (bool_decide_unpack _); vm_compute; exact I|done].
    constructor; [by apply Hs|constructor].
  - change (used demo_list) with demo_args. unfold demo_args. repeat (apply Forall_cons; split); [| | |constructor];
      rewrite value_of_set by (done || by apply blank_arg_ok); cbn [kept portable].
    + done.
    + change (take (MAX_ARG_STRING - 1) (bytes_of "bob")) with (bytes_of "bob"). split_and!; [done|..]; apply (bool_decide_unpack _); vm_compute; exact I.
    + intros r. vm_compute. reflexivity.
Qed.

Lemma magic_roundtrip_witness :
  ∃ murl murl1 url1 al1, to_magic demo_url_buffer demo_url demo_list = Ret (true, murl1) ∧ cstr_at murl1 0 = Some murl ∧ is_magic murl = true ∧
    from_magic murl demo_url_buffer demo_old = Ret (true, url1, al1) ∧ cstr_at url1 0 = Some demo_url ∧ args_ok al1 ∧
    ∀ i, view al1 i = match view demo_list i with Some v => Some v | None => view demo_old i end.
Proof.
  destruct demo_lists_ok as [[H1 H2] H3]. apply (magic_roundtrip demo_url demo_url_buffer demo_url_buffer demo_list demo_old H1); [reflexivity|exact H3|exact H2|discriminate| | | |].
  - unfold no_nul. apply (bool_decide_unpack _). vm_compute. exact I.
  - apply (bool_decide_unpack _). vm_compute. exact I.
  - apply Nat.ltb_lt. vm_compute. reflexivity.
  - apply Nat.ltb_lt. vm_compute. reflexivity.
Defined.
Example demo_magic_url : magic_url demo_url (used demo_list) = bytes_of "http://a/b*^i5=4294967294^s11=bob^f7=0.500000^?x".
Proof. vm_compute. reflexivity. Qed.

(** A '*' in the form is taken for the start of the arguments. *)
Example star_in_form : from_magic (bytes_of "http://a/b*^i5=2^?*") demo_url_buffer demo_old = Crash.
Proof. vm_compute. reflexivity. Qed.
(** A text of 80 bytes overruns [strval]. *)
Example long_text_overflows : from_magic (bytes_of "/*^s5=" ++ replicate 80 97 ++ [94]) demo_url_buffer demo_old = Crash.
Proof. vm_compute. reflexivity. Qed.
(** An empty string is written, and read as what [strval] holds. *)
Example empty_text_written : ∃ junk,
  to_magic demo_url_buffer (bytes_of "/") (MkArgumentList 1 (set_value (VStr []) (blank_arg 5) :: replicate 49 (blank_arg 0))) = Ret (true, bytes_of "/*^s5=^" ++ junk).
Proof. eexists. vm_compute. reflexivity. Qed.
Example empty_text_undefined : from_magic (bytes_of "/*^s5=^") demo_url_buffer demo_old = Crash.
Proof. vm_compute. reflexivity. Qed.
(** A token without a value gives its argument the value before it. *)
Example stale_value : match from_magic (bytes_of "/*^i9=3^i6^") demo_url_buffer demo_old with
                      | Ret (r, _, al) => (r, view al 9, view al 6) = (true, Some (VInt 3), Some (VInt 3))
                      | _ => False
                      end.
Proof. vm_compute. reflexivity. Qed.
