(* ===== verification/Dispatch.v ===== *)
(** * Dispatching a request (frontend/src/dispatch.c, frontend/src/cacheop.c)

    Fetching the document of a request from the cache, choosing the distillers
    for it, and running it through them.  The distillers are reached through
    [Distill] of the C++ library ptm, which is a parameter: its answer may
    depend on everything that has been sent to distillers before.  Over
    [HttpHeaders], [HttpComm], [Args] and [Clib]; the instrumentation and
    the fields for logging are left out. *)

From S2P Require Import Prelude CString SockIO Md5 Partition Icp Clib HttpHeaders HttpComm Args.
Open Scope Z_scope.

(** ** Data (ptm/include/distinterface.h) *)
Inductive DistillerStatus :=
| distOk | distNoCacheManager | distDistillerNotFound | distSendError | distReplyTimeout | distOutOfLocalMemory
| distConnectionBroken | distLaunchTimeout | distFatalError | distBadInput | distRedispatch | distRendezvousTimeout.
#[export] Instance DistillerStatus_dec : EqDecision DistillerStatus.
Proof. solve_decision. Defined.

(** The text of a status (ptm/src/cache/cacheman.cc). *)
Definition FE_getDistillerStatusString (status : DistillerStatus) : bytes :=
  match status with
  | distOk => bytes_of "200 Distiller ok"
  | distNoCacheManager => bytes_of "401 InitializeDistillerCache() not invoked at proxy frontend or DistillerCache thread has exited"
  | distDistillerNotFound => bytes_of "101 Could not locate distiller"
  | distSendError => bytes_of "402 Error sending data to distiller"
  | distReplyTimeout => bytes_of "403 Timed out while waiting for distiller"
  | distOutOfLocalMemory => bytes_of "501 Out of memory at the frontend"
  | distConnectionBroken => bytes_of "404 Connection to distiller was broken"
  | distLaunchTimeout => bytes_of "405 Timed out while waiting for PTM to launch a new distiller"
  | distFatalError => bytes_of "102 Unrecoverable error occurred in distiller"
  | distBadInput => bytes_of "103 Bad input to distiller"
  | distRedispatch => bytes_of "104 Redispatch needed (chained distill)"
  | distRendezvousTimeout => bytes_of "406 Rendezvous timeout"
  end.

Definition MAXDISTILLER_TYPE_STRING : nat := 80.
Definition MAX_MIMETYPE : nat := 50.
Definition PERF_HTTP_RETRY_DISTILL : Z := 3.
Definition PERF_REQUEST_TTL : nat := 10.

(** [mimeType] is the C string in the array. *)
Record DistillerData := MkData { dd_data : DistillerBuffer; dd_metadata : DistillerBuffer; mimeType : bytes }.
Definition with_metadata m (d : DistillerData) := MkData (dd_data d) m (mimeType d).

(** What is sent to a distiller: its type (an array), arguments and input. *)
Record call := Call { c_type : bytes; c_args : ArgumentList; c_input : DistillerData }.

(** ** Headers as the callers read them *)

(** The text from the value of a header on, and the length of the value. *)
Definition header_text (b : DistillerBuffer) (which : bytes) : outcome (option (bytes * nat)) :=
  '(r, o) ← get_header_value b which;
  match r, o_len o with
  | None, _ => Ret None
  | Some off, Some len => str ← buf_str b; Ret (Some (drop off str, Z.to_nat len))
  | Some _, None => Crash
  end.
Definition has_header (b : DistillerBuffer) (which : bytes) : outcome bool :=
  '(r, _) ← get_header_value b which; Ret (match r with Some _ => true | None => false end).

Section Dispatch.
Context `{Digest} {Monitor : Type}.
Variable nm : names.
Variable part_opts : bytes → option bytes.
Variable getsockname : Z → Z * sockaddr_in.
Variable junk : nat → byte.
Variable Distill : list call → call → DistillerStatus * DistillerData.
Variable fe_agg_string : bytes.

(** The front end with what it has sent to distillers, the last call first. *)
Record px := Px { front : fe (Monitor := Monitor); calls : list call }.
Abbreviation PX := (M px).
Definition on_front {A} (m : M fe A) : PX A := λ s, '(a, f) ← m (front s); Ret (a, Px f (calls s)).
Definition lift_x {A} (o : outcome A) : PX A := λ s, a ← o; Ret (a, s).
Definition send_call (c : call) : PX (DistillerStatus * DistillerData) := λ s, Ret (Distill (calls s) c, Px (front s) (c :: calls s)).

Definition is_server_url (url : bytes) : bool :=
  (head_byte url =? 47) || (strncasecmp url fe_agg_string (length fe_agg_string) =? 0).

(** ** The distiller type *)

Definition SET_DISTILLER_TYPE (s : bytes) : bytes := strncpy_bytes s MAXDISTILLER_TYPE_STRING.

Definition set_distiller_type_generic (mime_headers : DistillerBuffer) (user : bytes) : outcome bytes :=
  let size := Z.of_nat (MAX_ARG_STRING + MAX_MIMETYPE + 1) in
  mimetype ← header_text mime_headers (bytes_of "content-type");
  '(disttype, _) ←
    match mimetype with
    | None => sprintf_in size (Ret (if decide (user = []) then bytes_of "text/html" else user ++ bytes_of "/text/html"))
    | Some (t, len) => sprintf_in size (Ret ((if decide (user = []) then [] else user ++ [47]) ++ take len t))
    end;
  Ret (SET_DISTILLER_TYPE disttype).

(** The end of the name of an aggregator; [j] runs ahead of [i], which is
    compared with the length of the URL. *)
Fixpoint agg_loop (url : bytes) (i j : nat) (n : nat) : outcome nat :=
  match n with
  | O => Ret i
  | S n' => c ← rd (url ++ [0]) (Z.of_nat j); if c =? 47 then Ret i else agg_loop url (S i) (S j) n'
  end.

(** The headers and the type. *)
Definition set_distiller_type (mime_headers : DistillerBuffer) (url user : bytes) : outcome (DistillerBuffer * bytes) :=
  route ← header_text mime_headers (bytes_of "x-route");
  match route with
  | None =>
      if strncasecmp url fe_agg_string (length fe_agg_string) =? 0 then
        i ← agg_loop url 0 (length fe_agg_string) (length url);
        if decide (i < 256)%nat then Ret (mime_headers, SET_DISTILLER_TYPE (take i (drop (length fe_agg_string) url))) else Crash
      else
        dtype ← set_distiller_type_generic mime_headers user;
        Ret (mime_headers, dtype)
  | Some (t, route_len) =>
      let header_value := take route_len t in
      '(mime_headers, disttype) ←
        match strchr header_value 59 with
        | Some i =>
            '(_, m) ← insert_header junk (bytes_of "x-route") (drop (S i) header_value) false mime_headers;
            Ret (m, take i header_value)
        | None => Ret (mime_headers, header_value)
        end;
      '(_, mime_headers) ← delete_header (bytes_of "x-route") mime_headers;
      Ret (mime_headers, SET_DISTILLER_TYPE disttype)
  end.

(** ** One distillation *)

(** The status, and the input (which is changed) with the output. *)
Definition do_distillation (url : bytes) (din : DistillerData) (al : ArgumentList) : PX (DistillerStatus * DistillerData * DistillerData) :=
  arg ← lift_x (getArgumentFromIdInList al FRONT_USERID);
  whichuser ← lift_x (match arg with Some x => ARG_STRING x | None => Ret (bytes_of "transend") end);
  '(mime_headers, dtype) ← lift_x (set_distiller_type (dd_metadata din) url whichuser);
  mime ← lift_x (header_text mime_headers (bytes_of "content-type"));
  let m := match mime with Some (t, len) => take (len `min` (MAX_MIMETYPE - 1)) t | None => bytes_of "text/html" end in
  let din := MkData (dd_data din) mime_headers m in
  '(result, dout) ← send_call (Call dtype al din);
  mret (result, din, dout).

(** The loop that tries again while the connection breaks, [num_tries_left]
    times at most. *)
Fixpoint distill_loop (num_tries_left : nat) (url : bytes) (din : DistillerData) (al : ArgumentList) :
    PX (DistillerStatus * DistillerData * DistillerData) :=
  '(status, din, dout) ← do_distillation url din al;
  if decide (status = distConnectionBroken) then
    match num_tries_left with
    | O => mret (status, din, dout)
    | S n => distill_loop n url din al
    end
  else mret (status, din, dout).

(** ** [proxy_dispatch] *)

(** The variables of the loop over the stages of the pipe. *)
Record pipe := Pipe {
  p_status : DistillerStatus;
  p_retcode : DistillerStatus;
  p_din : DistillerData;
  p_dout : DistillerData;
  static_route : option bytes;
  static_route_initialized : bool;
  task_age : Z;
  p_errmsg : bytes;
}.

(** The rest of the route behind its first element. *)
Definition next_route (s : bytes) : option bytes :=
  let s := drop (span_in (λ c, negb (c =? 59)) s) s in
  let s := drop (span_in (λ c, (c =? 59) || (c =? 32)) s) s in
  if decide (s = []) then None else Some s.

(** The static route of a response, the first time there is one. *)
Definition find_static_route (p : pipe) (dout : DistillerData) : outcome (option bytes * bool * DistillerData) :=
  let keep := Ret (static_route p, static_route_initialized p, dout) in
  if negb (static_route_initialized p) && (0 <? blength (dd_metadata dout)) then
    static_route_hdr ← header_text (dd_metadata dout) (bytes_of "x-static-route");
    match static_route_hdr with
    | Some (t, S n) =>
        '(_, m) ← delete_header (bytes_of "x-static-route") (dd_metadata dout);
        Ret (Some (take (S n) t), true, with_metadata m dout)
    | _ => keep
    end
  else keep.

(** The output becomes the input of the next stage. *)
Definition chain (din dout : DistillerData) (route : option bytes) : outcome DistillerData :=
  m ← Clone (dd_metadata dout);
  d ← Clone (dd_data dout);
  b ← has_header m (bytes_of "content-type");
  m ← (if (b : bool) then Ret m else '(_, m) ← insert_header junk (bytes_of "Content-type") (mimeType din) true m; Ret m);
  b ← has_header m (bytes_of "content-length");
  m ← (if (b : bool) then Ret m
       else '(_, m) ← insert_header junk (bytes_of "Content-length") (dec (u32 (blength d))) true m; Ret m);
  m ← match route with
      | Some r => '(_, m) ← insert_header junk (bytes_of "X-Route") r true m; Ret m
      | None => Ret m
      end;
  Ret (MkData d m (mimeType din)).

(** What follows a distillation in a stage. *)
Definition after_distill (p : pipe) (status : DistillerStatus) (din dout : DistillerData) : outcome pipe :=
  match status with
  | distOk | distRedispatch =>
      '(route, init, dout) ← find_static_route p dout;
      if bool_decide (route ≠ None) || (bool_decide (status = distRedispatch) && negb init) then
        din ← chain din dout route;
        let dout := MkData (Free (dd_data dout)) (Free (dd_metadata dout)) (mimeType dout) in
        let route' := match route with Some r => next_route r | None => None end in
        let status := match route with Some _ => distRedispatch | None => status end in
        Ret (Pipe status distRedispatch din dout route' init (u32 (task_age p + 1)) (p_errmsg p))
      else Ret (Pipe distOk distOk din dout route init (task_age p) (p_errmsg p))
  | _ =>
      '(errm, _) ← snprintf (p_errmsg p) 0 (Z.of_nat HTTP_ERRMSG_MAX) (FE_getDistillerStatusString status);
      Ret (Pipe status status din dout (static_route p) (static_route_initialized p) (task_age p) errm)
  end.

(** One stage.  The local copy of the content type is never used. *)
Definition pipe_stage (url : bytes) (al : ArgumentList) (p : pipe) : PX pipe :=
  arg ← lift_x (getArgumentFromIdInList al FRONT_RETRY_DISTILL);
  let num_tries_left := match arg with Some x => ARG_INT x | None => PERF_HTTP_RETRY_DISTILL end in
  b ← lift_x (has_header (dd_metadata (p_din p)) (bytes_of "location"));
  m ← (if (b : bool) then mret (dd_metadata (p_din p))
       else '(_, m) ← lift_x (insert_header junk (bytes_of "Location") url false (dd_metadata (p_din p))); mret m);
  '(status, din, dout) ← distill_loop (Z.to_nat num_tries_left) url (with_metadata m (p_din p)) al;
  lift_x (after_distill p status din dout).

Fixpoint pipe_loop (fuel : nat) (url : bytes) (al : ArgumentList) (p : pipe) : PX pipe :=
  match fuel with
  | O => stuck
  | S fuel' =>
      p ← pipe_stage url al p;
      if decide (p_status p = distRedispatch) then
        if task_age p <=? Z.of_nat PERF_REQUEST_TTL then pipe_loop fuel' url al p else mret p
      else mret p
  end.

Definition ok_hdr : bytes := bytes_of "HTTP/1.0 200 OK" ++ crlf ++ crlf.
(** The headers of the reply. *)
Definition reply_headers (svr_hdrs pxy_hdrs : DistillerBuffer) (dout : DistillerData) : outcome DistillerBuffer :=
  pxy_hdrs ←
    (if 0 <? blength (dd_metadata dout) then Clone (dd_metadata dout)
     else
       http ← (if 0 <? blength svr_hdrs then s ← buf_str svr_hdrs; Ret (strncasecmp s (bytes_of "HTTP/") 5 =? 0) else Ret false);
       if (http : bool) then
         b ← Clone svr_hdrs;
         '(_, b) ← delete_header (bytes_of "content-type") b;
         '(_, b) ← delete_header (bytes_of "content-length") b;
         Ret b
       else
         let b := Alloc junk (1 + Z.of_nat (length ok_hdr)) pxy_hdrs in
         match data b with
         | Some blk => blk ← store blk 0 (ok_hdr ++ [0]); SetLength (Z.of_nat (length ok_hdr)) (Buffer (Some blk) (blength b) (maxLength b) (freeMe b))
         | None => Crash
         end);
  b ← has_header pxy_hdrs (bytes_of "content-type");
  pxy_hdrs ← (if (b : bool) then Ret pxy_hdrs
              else '(_, m) ← insert_header junk (bytes_of "Content-type") (mimeType dout) true pxy_hdrs; Ret m);
  b ← has_header pxy_hdrs (bytes_of "content-length");
  (if (b : bool) then Ret pxy_hdrs
   else '(_, m) ← insert_header junk (bytes_of "Content-length") (dec (u32 (blength (dd_data dout)))) true pxy_hdrs; Ret m).

(** The status and the request; [age] is the age of the task, and [dout0] what
    is in the variable [dout] before. *)
Definition proxy_dispatch (al : ArgumentList) (hp : Request) (age : Z) (dout0 : DistillerData) : PX (DistillerStatus * Request * Z) :=
  u ← deref (url hp);
  d ← lift_x (Clone (svr_data hp));
  m ← lift_x (Clone (svr_hdrs hp));
  let own b := Buffer (data b) (blength b) (maxLength b) true in
  let p := Pipe distFatalError distFatalError (MkData (own d) (own m) []) dout0 None false age (errmsg hp) in
  p ← pipe_loop (S (S PERF_REQUEST_TTL)) u al p;
  let hp := set_errmsg (p_errmsg p) hp in
  if decide (p_status p = distOk) then
    h ← lift_x (reply_headers (svr_hdrs hp) (pxy_hdrs hp) (p_dout p));
    d ← lift_x (Clone (dd_data (p_dout p)));
    mret (p_retcode p, set_pxy_data d (set_pxy_hdrs h hp), task_age p)
  else mret (p_retcode p, hp, task_age p).

End Dispatch.

(** ** Specification: blocks of headers that can be searched *)

(** The names that the front end looks for or adds. *)
Definition special : list bytes :=
  [bytes_of "x-route"; bytes_of "X-Route"; bytes_of "x-static-route"; bytes_of "content-type"; bytes_of "Content-type";
   bytes_of "content-length"; bytes_of "Content-length"; bytes_of "location"; bytes_of "Location"].

(** A field that contains no such name but its own. *)
Definition header_safe (f : field) : Prop :=
  field_ok f ∧ Forall (λ n, same_name f.1 n ∨ ¬ occurs n (f.1 ++ [58; 32] ++ f.2)) special.
Definition tidy (b : DistillerBuffer) (st : bytes) (fs : list field) : Prop :=
  holds b (render st fs) ∧ no_nul st ∧ Forall header_safe fs ∧ Forall (λ n, ¬ occurs n st) special.
Definition cloneable (b : DistillerBuffer) : Prop :=
  maxLength b = 0 ∨ ∃ blk, data b = Some blk ∧ maxLength b <= Z.of_nat (length blk).

Lemma special_ok n : n ∈ special → name_ok n.
Proof.
  assert (Forall name_ok special) as H.
  { unfold name_ok, no_nul, special. repeat (constructor; [split_and!; [discriminate|apply (bool_decide_unpack _); vm_compute; exact I..]|]). constructor. }
  rewrite Forall_forall in H. apply H.
Qed.

Lemma tidy_fields b st fs : tidy b st fs → Forall field_ok fs.
Proof. intros (_&_&H&_). eapply Forall_impl; [exact H|]. by intros f [? _]. Qed.
Lemma tidy_clean b st fs n : tidy b st fs → n ∈ special → clean n st fs.
Proof.
  intros (_&_&H&Hs) Hn. rewrite Forall_forall in Hs. split; [by apply Hs|]. eapply Forall_impl; [exact H|]. intros f [_ Hf].
  rewrite Forall_forall in Hf. by apply Hf.
Qed.

Lemma tidy_get b st fs n : tidy b st fs → n ∈ special → ∃ r o, get_header_value b n = Ret (r, o) ∧
    match lookup_field n fs with
    | None => r = None
    | Some v => ∃ off, r = Some off ∧ o_len o = Some (Z.of_nat (length v)) ∧ take (length v) (drop off (render st fs)) = v
    end.
Proof.
  intros T Hn. apply get_render; [apply T|by apply special_ok|by eapply tidy_fields|apply T|by eapply tidy_clean].
Qed.
Lemma tidy_text b st fs n : tidy b st fs → n ∈ special →
  match lookup_field n fs with
  | None => header_text b n = Ret None
  | Some v => ∃ t, header_text b n = Ret (Some (t, length v)) ∧ take (length v) t = v
  end.
Proof.
  intros T Hn. destruct (tidy_get b st fs n T Hn) as (r&o&E&H). unfold header_text. rewrite E. cbn [mbind outcome_mbind].
  destruct (lookup_field n fs) as [v|]; [|by rewrite H]. destruct H as (off&->&->&Hv). rewrite (holds_str _ _ (proj1 T)). cbn [mbind outcome_mbind].
  rewrite Nat2Z.id. by eexists.
Qed.
Lemma tidy_has b st fs n : tidy b st fs → n ∈ special → has_header b n = Ret (match lookup_field n fs with Some _ => true | None => false end).
Proof.
  intros T Hn. destruct (tidy_get b st fs n T Hn) as (r&o&E&H). unfold has_header. rewrite E. cbn [mbind outcome_mbind].
  destruct (lookup_field n fs) as [v|]; [by destruct H as (off&->&_)|by rewrite H].
Qed.

Lemma remove_sub (P : field → Prop) n fs : Forall P fs → Forall P (remove_field n fs).
Proof. induction 1; cbn; [constructor|]. destruct (decide _); [done|by constructor]. Qed.

Lemma tidy_delete b st fs n : tidy b st fs → n ∈ special → ∃ r b', delete_header n b = Ret (r, b') ∧ tidy b' st (remove_field n fs).
Proof.
  intros T Hn. destruct (delete_render b n st fs) as (r&b'&E&Hb&_); [apply T|by apply special_ok|by eapply tidy_fields|apply T|by eapply tidy_clean|].
  exists r, b'. split; [done|]. destruct T as (_&?&?&?). split_and!; [done|done|by apply remove_sub|done].
Qed.

Lemma tidy_insert junk b st fs n v rep : tidy b st fs → n ∈ special → header_safe (n, v) →
  fits (Z.of_nat (length (render st fs)) + Z.of_nat (length n) + Z.of_nat (length v)) →
  ∃ b', insert_header junk n v rep b = Ret (1, b') ∧ tidy b' st ((if rep then remove_field n fs else fs) ++ [(n, v)]).
Proof.
  intros T Hn Hv Hf. destruct (insert_render junk b n st fs v rep) as (b'&E&Hb); [apply T|by apply special_ok|by eapply tidy_fields|apply T|by eapply tidy_clean|apply Hv|done|].
  exists b'. split; [done|]. destruct T as (_&?&?&?). split_and!; [done|done| |done]. apply Forall_app. split; [|by constructor].
  destruct rep; [by apply remove_sub|done].
Qed.

Lemma holds_clone b h : holds b h → ∃ b', Clone b = Ret b' ∧ holds b' h.
Proof.
  intros (rest&Hd&Hl&Hn&H1&H2&H3). unfold Clone. rewrite (proj2 (Z.eqb_neq _ _)) by lia. rewrite Hd.
  rewrite (proj2 (Z.ltb_ge _ _)) by (rewrite length_app; cbn [length]; lia). eexists. split; [done|].
  exists (take (Z.to_nat (maxLength b) - S (length h)) rest). cbn. split_and!; [|done|done|done| |done].
  - f_equal. rewrite take_app_ge by lia. replace (Z.to_nat (maxLength b) - length h)%nat with (S (Z.to_nat (maxLength b) - S (length h))) by lia. done.
  - rewrite length_take. lia.
Qed.
Lemma tidy_clone b st fs : tidy b st fs → ∃ b', Clone b = Ret b' ∧ tidy b' st fs.
Proof. intros (H&?&?&?). destruct (holds_clone b _ H) as (b'&E&Hb'). by exists b'. Qed.
Lemma clone_ok b : cloneable b → ∃ b', Clone b = Ret b' ∧ blength b' = blength b.
Proof.
  unfold Clone. intros [->|(blk&Hd&Hl)]; [by eexists|]. destruct (_ =? 0); [by eexists|]. rewrite Hd, (proj2 (Z.ltb_ge _ _)) by lia. by eexists.
Qed.

(** Fields by their names. *)
Lemma same_name_sym a b : same_name a b → same_name b a.
Proof. unfold same_name. congruence. Qed.
Lemma lookup_same n m fs : same_name n m → lookup_field n fs = lookup_field m fs.
Proof.
  intros H. induction fs as [|f fs IH]; [done|]. cbn [lookup_field]. rewrite IH.
  destruct (decide (same_name f.1 n)), (decide (same_name f.1 m)); unfold same_name in *; done || congruence.
Qed.
Lemma lookup_app n fs gs : lookup_field n (fs ++ gs) = match lookup_field n fs with Some v => Some v | None => lookup_field n gs end.
Proof. induction fs as [|f fs IH]; [done|]. cbn [lookup_field app]. by destruct (decide _). Qed.
Lemma remove_none n fs : lookup_field n fs = None → remove_field n fs = fs.
Proof. induction fs as [|f fs IH]; [done|]. cbn [lookup_field remove_field]. destruct (decide _); [done|]. intros H. by rewrite IH. Qed.
Lemma remove_app n fs gs : lookup_field n fs = None → remove_field n (fs ++ gs) = fs ++ remove_field n gs.
Proof. induction fs as [|f fs IH]; [done|]. cbn [lookup_field remove_field app]. destruct (decide _); [done|]. intros H. by rewrite IH. Qed.
Lemma lookup_remove n m fs : ¬ same_name n m → lookup_field n (remove_field m fs) = lookup_field n fs.
Proof.
  intros H. induction fs as [|f fs IH]; [done|]. cbn [lookup_field remove_field]. destruct (decide (same_name f.1 m)) as [Hm|Hm].
  - rewrite decide_False; [done|]. intros Hn. apply H. unfold same_name in *. congruence.
  - cbn [lookup_field]. by rewrite IH.
Qed.

(** ** How often distillers are called *)

(** A computation that does not run out of fuel. *)
Definition ends {A} (o : outcome A) : Prop := o ≠ Stuck.
Lemma ends_bind {A B} (o : outcome A) (f : A → outcome B) : ends o → (∀ a, ends (f a)) → ends (o ≫= f).
Proof. unfold ends. destruct o; cbn; intros; try done. Qed.
Lemma ends_ret {A} (a : A) : ends (Ret a).
Proof. done. Qed.
Lemma ends_crash {A} : ends (@Crash A).
Proof. done. Qed.
Create HintDb ends.
#[export] Hint Resolve ends_ret ends_crash : ends.
Ltac ends_step :=
  match goal with
  | |- ends (mbind _ _) => apply ends_bind; [|intros]
  | |- ends (match ?x with _ => _ end) => destruct x
  | |- ends (let _ := _ in _) => cbn zeta
  | |- ∀ _, _ => intro
  end.
Ltac prove_ends := repeat (ends_step || solve [auto with ends]).

Lemma ends_buf_str b : ends (buf_str b).
Proof. unfold buf_str. prove_ends. Qed.
Lemma ends_get_header b n : ends (get_header_value b n).
Proof. unfold get_header_value. pose proof (ends_buf_str b). prove_ends. Qed.
Lemma ends_SetLength n b : ends (SetLength n b).
Proof. unfold SetLength. prove_ends. Qed.
Lemma ends_wr b i c : ends (wr b i c).
Proof. unfold wr. prove_ends. Qed.
Lemma ends_rd b i : ends (rd b i).
Proof. unfold rd. prove_ends. Qed.
Lemma ends_store b i s : ends (store b i s).
Proof. unfold store. prove_ends. Qed.
Lemma ends_snprintf b o n t : ends (snprintf b o n t).
Proof. unfold snprintf. pose proof ends_store. prove_ends. Qed.
Lemma ends_memmove b d s n : ends (memmove b d s n).
Proof. unfold memmove. prove_ends. Qed.
#[export] Hint Resolve ends_buf_str ends_get_header ends_SetLength ends_wr ends_rd ends_store ends_snprintf ends_memmove : ends.
Lemma ends_delete n b : ends (delete_header n b).
Proof. unfold delete_header. prove_ends. Qed.
#[export] Hint Resolve ends_delete : ends.
Lemma ends_insert junk n v r b : ends (insert_header junk n v r b).
Proof. unfold insert_header. prove_ends. Qed.
Lemma ends_Clone b : ends (Clone b).
Proof. unfold Clone. prove_ends. Qed.
Lemma ends_header_text b n : ends (header_text b n).
Proof. unfold header_text. prove_ends. Qed.
Lemma ends_has_header b n : ends (has_header b n).
Proof. unfold has_header. prove_ends. Qed.
Lemma ends_arg_at l i : ends (arg_at l i).
Proof. unfold arg_at. prove_ends. Qed.
#[export] Hint Resolve ends_insert ends_Clone ends_header_text ends_has_header ends_arg_at : ends.
Lemma ends_get_argument al i : ends (getArgumentFromIdInList al i).
Proof.
  unfold getArgumentFromIdInList, getArgumentFromId. apply ends_bind; [|prove_ends]. generalize 0. generalize (Z.to_nat (nargs al)) as n.
  induction n; intros k; cbn [getArgumentFromId_loop]; prove_ends.
Qed.
Lemma ends_ARG_STRING x : ends (ARG_STRING x).
Proof. unfold ARG_STRING. prove_ends. Qed.
Lemma ends_sprintf n t : ends t → ends (sprintf_in n t).
Proof. intros H. unfold sprintf_in. prove_ends. Qed.
#[export] Hint Resolve ends_get_argument ends_ARG_STRING ends_sprintf : ends.
Lemma ends_agg_loop url i j n : ends (agg_loop url i j n).
Proof. revert i j. induction n; intros; cbn [agg_loop]; prove_ends. Qed.
#[export] Hint Resolve ends_agg_loop : ends.
Lemma ends_set_type junk agg m url user : ends (set_distiller_type junk agg m url user).
Proof. unfold set_distiller_type, set_distiller_type_generic. prove_ends. Qed.
Lemma ends_find_route p d : ends (find_static_route p d).
Proof. unfold find_static_route. prove_ends. Qed.
Lemma ends_chain junk a b r : ends (chain junk a b r).
Proof. unfold chain. prove_ends. Qed.
#[export] Hint Resolve ends_set_type ends_find_route ends_chain : ends.
Lemma ends_reply junk a b d : ends (reply_headers junk a b d).
Proof. unfold reply_headers. prove_ends. Qed.
#[export] Hint Resolve ends_reply : ends.

(** The number of calls in the result of a computation, and what its value
    satisfies. *)
Definition calls_at_most {Monitor A} (k : nat) (Q : A → Prop) (m : M (px (Monitor := Monitor)) A) : Prop := ∀ s,
  match m s with
  | Ret (a, s') => Q a ∧ ∃ cs, calls s' = cs ++ calls s ∧ (length cs <= k)%nat
  | Stuck => False
  | _ => True
  end.

Section Counting.
Context {Monitor : Type}.
Abbreviation PX := (M (px (Monitor := Monitor))).

Lemma calls_bind {A B} k1 k2 Q R (m : PX A) (f : A → PX B) : calls_at_most k1 Q m → (∀ a, Q a → calls_at_most k2 R (f a)) →
  calls_at_most (k1 + k2) R (m ≫= f).
Proof.
  intros Hm Hf s. unfold mbind, M_mbind. specialize (Hm s). destruct (m s) as [[a s1]| | |]; try done. destruct Hm as (Ha&cs&E&Hl).
  specialize (Hf a Ha s1). destruct (f a s1) as [[b s2]| | |]; try done. destruct Hf as (Hb&ds&E2&Hl2). split; [done|].
  exists (ds ++ cs). split; [by rewrite E2, E, app_assoc|]. rewrite length_app. lia.
Qed.
Lemma calls_lift {A} (o : outcome A) : ends o → calls_at_most 0 (λ a, o = Ret a) (lift_x (Monitor := Monitor) o).
Proof. intros H s. unfold lift_x. destruct o; cbn; try done. split; [done|]. by exists []. Qed.
Lemma calls_ret {A} (a : A) (Q : A → Prop) k : Q a → calls_at_most k Q (mret a : PX A).
Proof. intros H s. cbn. split; [done|]. exists []. split; [done|cbn; lia]. Qed.
Lemma calls_weaken {A} k k' (Q Q' : A → Prop) (m : PX A) : calls_at_most k Q m → (k <= k')%nat → (∀ a, Q a → Q' a) → calls_at_most k' Q' m.
Proof.
  intros H Hk HQ s. specialize (H s). destruct (m s) as [[a s1]| | |]; try done. destruct H as (Ha&cs&E&Hl). split; [by apply HQ|]. exists cs. split; [done|lia].
Qed.
Lemma calls_lift_bind {A B} k R (o : outcome A) (f : A → PX B) : ends o → (∀ a, o = Ret a → calls_at_most k R (f a)) → calls_at_most k R (lift_x o ≫= f).
Proof. intros Ho Hf. change k with (0 + k)%nat. eapply calls_bind; [by apply calls_lift|exact Hf]. Qed.

Context `{Digest}.
Variable junk : nat → byte.
Variable Distill : list call → call → DistillerStatus * DistillerData.
Variable fe_agg_string : bytes.

Lemma calls_do_distillation url din al : calls_at_most 1 (λ _, True) (do_distillation (Monitor := Monitor) junk Distill fe_agg_string url din al).
Proof.
  unfold do_distillation. repeat (apply calls_lift_bind; [solve [prove_ends]|intros ? _]). destruct a1 as [m t].
  apply calls_lift_bind; [prove_ends|intros ? _].
  eapply (calls_bind 1 0 (λ _, True)); [|intros [? ?] _; by apply calls_ret].
  intros s. unfold send_call. set (c := Call _ _ _). destruct (Distill (calls s) c) as [st d]. split; [done|]. exists [c]. by split.
Qed.

Lemma calls_distill_loop n url din al : calls_at_most (S n) (λ _, True) (distill_loop (Monitor := Monitor) junk Distill fe_agg_string n url din al).
Proof.
  revert din. induction n as [|n IH]; intros din; cbn [distill_loop].
  - eapply (calls_bind 1 0); [apply calls_do_distillation|]. intros [[st d1] d2] _. destruct (decide _); by apply calls_ret.
  - eapply (calls_bind 1 (S n)); [apply calls_do_distillation|]. intros [[st d1] d2] _. destruct (decide _); [apply IH|by apply calls_ret].
Qed.

Lemma after_distill_age p st d1 d2 p' : after_distill junk p st d1 d2 = Ret p' → p_status p' = distRedispatch → task_age p' = u32 (task_age p + 1).
Proof.
  unfold after_distill. intros E Hs.
  assert (∀ o : outcome pipe, o = (('(errm, _) ← snprintf (p_errmsg p) 0 (Z.of_nat HTTP_ERRMSG_MAX) (FE_getDistillerStatusString st);
    Ret (Pipe st st d1 d2 (static_route p) (static_route_initialized p) (task_age p) errm))) → o = Ret p' → p_status p' = st) as Herr.
  { intros o -> E'. destruct (snprintf _ _ _ _) as [[errm ?]| | |]; try done. cbn in E'. by injection E' as <-. }
  assert ((('(route, init, dout) ← find_static_route p d2;
      if bool_decide (route ≠ None) || (bool_decide (st = distRedispatch) && negb init) then
        din ← chain junk d1 dout route;
        let dout := MkData (Free (dd_data dout)) (Free (dd_metadata dout)) (mimeType dout) in
        let route' := match route with Some r => next_route r | None => None end in
        let status := match route with Some _ => distRedispatch | None => st end in
        Ret (Pipe status distRedispatch din dout route' init (u32 (task_age p + 1)) (p_errmsg p))
      else Ret (Pipe distOk distOk d1 dout route init (task_age p) (p_errmsg p)))) = Ret p' → task_age p' = u32 (task_age p + 1)) as Hok.
  { intros E'. destruct (find_static_route p d2) as [[[route init] dout]| | |]; try done. cbn [mbind outcome_mbind] in E'.
    destruct (bool_decide (route ≠ None) || _).
    - destruct (chain junk d1 dout route) as [din| | |]; try done. cbn in E'. by injection E' as <-.
    - injection E' as <-. done. }
  destruct st; try (by apply Hok); by rewrite (Herr _ eq_refl E) in Hs.
Qed.

Lemma calls_pipe_stage url al p n :
  (∀ x, getArgumentFromIdInList al FRONT_RETRY_DISTILL = Ret x → n = Z.to_nat (match x with Some x => ARG_INT x | None => PERF_HTTP_RETRY_DISTILL end)) →
  calls_at_most (S n) (λ p', p_status p' = distRedispatch → task_age p' = u32 (task_age p + 1))
    (pipe_stage (Monitor := Monitor) junk Distill fe_agg_string url al p).
Proof.
  intros Hn. unfold pipe_stage. apply calls_lift_bind; [prove_ends|]. intros x Hx. specialize (Hn x Hx). cbn zeta.
  apply calls_lift_bind; [prove_ends|]. intros b _. change (S n) with (0 + S n)%nat. eapply (calls_bind 0 (S n) (λ _, True)).
  { destruct b; [by apply calls_ret|]. apply calls_lift_bind; [prove_ends|]. intros [? ?] _. by apply calls_ret. }
  intros m _. rewrite <-Hn. replace (S n) with (S n + 0)%nat by lia. eapply calls_bind; [apply calls_distill_loop|]. intros [[st d1] d2] _.
  assert (ends (after_distill junk p st d1 d2)) as He by (unfold after_distill; prove_ends).
  eapply calls_weaken; [by apply calls_lift|lia|].
  intros p' Hp'. exact (after_distill_age _ _ _ _ _ Hp').
Qed.

Lemma calls_pipe_loop url al n :
  (∀ x, getArgumentFromIdInList al FRONT_RETRY_DISTILL = Ret x → n = Z.to_nat (match x with Some x => ARG_INT x | None => PERF_HTTP_RETRY_DISTILL end)) →
  ∀ fuel p, 0 <= task_age p <= 10 → 11 - task_age p <= Z.of_nat fuel →
  calls_at_most (Z.to_nat (11 - task_age p) * S n) (λ _, True) (pipe_loop (Monitor := Monitor) junk Distill fe_agg_string fuel url al p).
Proof.
  intros Hn. induction fuel as [|fuel IH]; intros p Ha Hf; [lia|]. cbn [pipe_loop].
  replace (Z.to_nat (11 - task_age p)) with (S (Z.to_nat (10 - task_age p))) by lia. rewrite Nat.mul_succ_l, Nat.add_comm.
  eapply calls_bind; [by apply calls_pipe_stage|]. intros p' Hp'. cbn beta in Hp'.
  destruct (decide (p_status p' = distRedispatch)) as [Hr|Hr]; [|by apply calls_ret]. specialize (Hp' Hr). rewrite wrap_small in Hp' by lia.
  destruct (Z.leb_spec (task_age p') (Z.of_nat PERF_REQUEST_TTL)) as [Hle|Hgt]; [|by apply calls_ret]. unfold PERF_REQUEST_TTL in Hle.
  replace (Z.to_nat (10 - task_age p)) with (Z.to_nat (11 - task_age p')) by lia. apply IH; lia.
Qed.
End Counting.

(** ** Routes *)

(** A route in a header: names separated by semicolons. *)
Fixpoint join_route (l : list bytes) : bytes :=
  match l with [] => [] | [r] => r | r :: l => r ++ 59 :: join_route l end.
(** The names are not empty, start with no blank and contain no semicolon, and
    every rest of the route can stand in a header. *)
Fixpoint route_ok (l : list bytes) : Prop :=
  match l with
  | [] => True
  | r :: l' =>
      r ≠ [] ∧ (59 ∉ r) ∧ header_safe (bytes_of "X-Route", join_route l) ∧ header_safe (bytes_of "x-route", join_route l) ∧ route_ok l'
  end.

Lemma join_route_cons r l : l ≠ [] → join_route (r :: l) = r ++ 59 :: join_route l.
Proof. by destruct l. Qed.
Lemma join_route_nonempty l : l ≠ [] → route_ok l → join_route l ≠ [].
Proof. destruct l as [|r l]; [done|]. intros _ (Hr&_). destruct l; [done|]. rewrite join_route_cons by done. by destruct r. Qed.

Lemma join_route_head l c : route_ok l → head (join_route l) = Some c → c ≠ 59 ∧ c ≠ 32.
Proof.
  destruct l as [|r l]; [done|]. intros (Hr&H59&[(_&_&_&_&Hb) _]&_) Hc. cbn [snd] in Hb.
  destruct (join_route (r :: l)) as [|d s] eqn:E; [done|]. injection Hc as ->. split; [|intros ->; apply Hb; by left].
  intros ->. apply H59. destruct l as [|r' l]; [cbn in E; subst r; left|]. rewrite join_route_cons in E by done. destruct r as [|d r]; [done|]. injection E as -> _. left.
Qed.

Lemma span_not59 r s : (59 ∉ r) → match s with [] => True | c :: _ => c = 59 end → span_in (λ c, negb (c =? 59)) (r ++ s) = length r.
Proof.
  intros H Hs. rewrite span_in_app.
  assert (forallb (λ c, negb (c =? 59)) r = true) as ->.
  { apply forallb_forall. intros c Hc%list_elem_of_In. apply negb_true_iff, Z.eqb_neq. by intros ->. }
  destruct s as [|c s]; [cbn; lia|]. subst c. cbn [span_in]. rewrite Z.eqb_refl. cbn. lia.
Qed.

Lemma next_route_join r l : route_ok (r :: l) → next_route (join_route (r :: l)) = if decide (l = []) then None else Some (join_route l).
Proof.
  intros (Hr&H59&_&_&Hl). unfold next_route. destruct l as [|r' l].
  - cbn [join_route]. pose proof (span_not59 r [] H59 I) as E. rewrite app_nil_r in E. rewrite E, (drop_ge r) by lia. done.
  - rewrite join_route_cons by done. rewrite span_not59 by done. rewrite drop_app_length. rewrite (decide_False (P := r' :: l = [])) by done.
    cbn [span_in]. change ((59 =? 59) || (59 =? 32)) with true. cbn iota. cbn [drop].
    assert (span_in (λ c, (c =? 59) || (c =? 32)) (join_route (r' :: l)) = 0%nat) as ->.
    { pose proof (join_route_head (r' :: l)) as Hh. destruct (join_route (r' :: l)) as [|c s]; [done|]. destruct (Hh c Hl eq_refl).
      cbn [span_in]. by rewrite (proj2 (Z.eqb_neq c 59)), (proj2 (Z.eqb_neq c 32)) by done. }
    rewrite drop_0, decide_False; [done|]. by apply join_route_nonempty.
Qed.

(** The route header is popped: the distiller is its first element, and the
    rest stays in the headers. *)
Lemma set_type_route junk agg b st gs hs n r l url user : tidy b st (gs ++ (n, join_route (r :: l)) :: hs) → same_name n (bytes_of "x-route") →
  lookup_field (bytes_of "x-route") gs = None → lookup_field (bytes_of "x-route") hs = None → route_ok (r :: l) →
  fits (Z.of_nat (length (render st (gs ++ (n, join_route (r :: l)) :: hs))) + Z.of_nat (length (join_route (r :: l))) + 7) →
  ∃ m, set_distiller_type junk agg b url user = Ret (m, SET_DISTILLER_TYPE r) ∧
    tidy m st (gs ++ hs ++ if decide (l = []) then [] else [(bytes_of "x-route", join_route l)]).
Proof.
  intros T Hn Hg Hh (Hr&H59&_&_&Hl) Hfit. assert (bytes_of "x-route" ∈ special) as Hx by left.
  set (fs := gs ++ (n, join_route (r :: l)) :: hs) in *. set (v := join_route (r :: l)) in *.
  assert (lookup_field (bytes_of "x-route") fs = Some v) as Hlk by (unfold fs; rewrite lookup_app, Hg; cbn [lookup_field]; by rewrite decide_True).
  assert (∀ xs, remove_field (bytes_of "x-route") (fs ++ xs) = gs ++ hs ++ xs) as Hrm.
  { intros xs. unfold fs. rewrite <-app_assoc, remove_app by done. cbn [app remove_field]. by rewrite decide_True. }
  pose proof (tidy_text b st fs _ T Hx) as Ht. rewrite Hlk in Ht. destruct Ht as (t&E&Etv). unfold set_distiller_type. rewrite E. cbn [mbind outcome_mbind]. rewrite Etv.
  destruct l as [|r' l].
  - unfold v. cbn [join_route]. rewrite strchr_none by done. cbn [mbind outcome_mbind].
    destruct (tidy_delete b st fs _ T Hx) as (k&b'&Ed&T'). rewrite Ed. cbn [mbind outcome_mbind]. exists b'. split; [done|].
    rewrite decide_True by done. rewrite <-(Hrm []), app_nil_r. done.
  - unfold v. rewrite join_route_cons by done. rewrite strchr_first by done. set (w := join_route (r' :: l)) in *.
    assert (drop (S (length r)) (r ++ 59 :: w) = w) as -> by (rewrite drop_app_ge by lia; by replace (S (length r) - length r)%nat with 1%nat by lia).
    rewrite take_app_length.
    destruct (tidy_insert junk b st fs (bytes_of "x-route") w false T Hx) as (b1&E1&T1); [by destruct Hl as (_&_&_&?&_)| |].
    { unfold fits in *. unfold v in Hfit. rewrite join_route_cons in Hfit by done. fold w in Hfit. rewrite (length_app r) in Hfit. cbn [length] in Hfit.
      change (Z.of_nat (length (bytes_of "x-route"))) with 7. lia. }
    rewrite E1. cbn [mbind outcome_mbind]. destruct (tidy_delete b1 st _ _ T1 Hx) as (k&b'&Ed&T'). rewrite Ed. cbn [mbind outcome_mbind].
    exists b'. split; [done|]. rewrite (decide_False (P := r' :: l = [])) by done. rewrite Hrm in T'. done.
Qed.

Section Routing.
Context `{Digest} {Monitor : Type}.
Variable junk : nat → byte.
Variable Distill : list call → call → DistillerStatus * DistillerData.
Variable fe_agg_string url : bytes.
Variable al : ArgumentList.
Abbreviation px' := (px (Monitor := Monitor)).

Definition small (n : nat) : Prop := Z.of_nat n < 2 ^ 28.
(** An answer that names its type and its length, and has no route of its
    own. *)
Definition good_fields (d : DistillerData) (st : bytes) (fs : list field) : Prop :=
  tidy (dd_metadata d) st fs ∧ small (length (render st fs)) ∧ lookup_field (bytes_of "x-route") fs = None ∧
    lookup_field (bytes_of "content-type") fs ≠ None ∧ lookup_field (bytes_of "content-length") fs ≠ None.
Definition good_out (d : DistillerData) : Prop := cloneable (dd_data d) ∧ ∃ st fs, good_fields d st fs.

(** The buffer holds these bytes. *)
Definition carries (b : DistillerBuffer) (d : bytes) : Prop :=
  ∃ r, data b = Some (d ++ r) ∧ blength b = Z.of_nat (length d) ∧ Z.of_nat (length d) <= maxLength b <= Z.of_nat (length d + length r) ∧ maxLength b < 2 ^ 31.
(** The fields are the same but for those of routes and the location. *)
Definition agree (fs fs' : list field) : Prop :=
  ∀ n, ¬ same_name n (bytes_of "x-route") → ¬ same_name n (bytes_of "x-static-route") → ¬ same_name n (bytes_of "location") → lookup_field n fs' = lookup_field n fs.
(** A distiller's input is the document [d]: its bytes, its status line and its
    headers. *)
Definition passed_on (d inp : DistillerData) : Prop :=
  (∀ x, carries (dd_data d) x → carries (dd_data inp) x) ∧
  ∃ st fs fs', tidy (dd_metadata d) st fs ∧ tidy (dd_metadata inp) st fs' ∧ agree fs fs'.
(** The calls [cs], which follow the calls [h]: the first one gets [d], each
    other one the answer to the one before. *)
Fixpoint fed (d : DistillerData) (h cs : list call) : Prop :=
  match cs with
  | [] => True
  | c :: cs' => c_args c = al ∧ passed_on d (c_input c) ∧ fed (Distill h c).2 (c :: h) cs'
  end.

Hypotheses (Hal : args_ok al) (Hurl : header_safe (bytes_of "Location", url)) (Hlen : small (length url)).
Hypothesis Hdist : ∀ h c, ((Distill h c).1 = distOk ∨ (Distill h c).1 = distRedispatch) ∧ good_out (Distill h c).2.

Lemma render_snoc st fs n v : length (render st (fs ++ [(n, v)])) = (length (render st fs) + length n + length v + 4)%nat.
Proof.
  unfold render. rewrite render_fields_app, render_fields_cons. change (render_fields []) with (@nil Z). len_norm. cbn [length crlf fst snd]. lia.
Qed.

Lemma carries_cloneable b d : carries b d → cloneable b.
Proof. intros (r&Hd&_&Hm&_). right. exists (d ++ r). split; [done|]. rewrite length_app. lia. Qed.
Lemma clone_carries b d : carries b d → ∃ b', Clone b = Ret b' ∧ carries b' d.
Proof.
  intros (r&Hd&Hb&Hm&Hm2). unfold Clone. destruct (decide (maxLength b = 0)) as [H0|H0].
  - rewrite H0, Z.eqb_refl. eexists. split; [done|]. destruct d; [by exists []|cbn [length] in Hm; lia].
  - rewrite (proj2 (Z.eqb_neq _ 0)) by done. rewrite Hd, (proj2 (Z.ltb_ge _ _)) by (rewrite length_app; lia). eexists. split; [done|].
    exists (take (Z.to_nat (maxLength b) - length d) r). cbn [data blength maxLength]. rewrite take_app_ge, length_take by lia. split_and!; try done; lia.
Qed.
Lemma clone_keeps b b' : Clone b = Ret b' → ∀ x, carries b x → carries b' x.
Proof. intros E x Hx. destruct (clone_carries b x Hx) as (b2&E2&H2). rewrite E in E2. by injection E2 as ->. Qed.

Lemma chain_spec din out v st fs : cloneable (dd_data out) → good_fields out st fs → header_safe (bytes_of "X-Route", v) → small (length v) →
  ∃ din', chain junk din out (Some v) = Ret din' ∧ tidy (dd_metadata din') st (fs ++ [(bytes_of "X-Route", v)]) ∧
    ∀ x, carries (dd_data out) x → carries (dd_data din') x.
Proof.
  intros Hc (T&Hs&Hx&Ht&Hl) Hv Hvl. unfold chain. destruct (tidy_clone _ _ _ T) as (m&Em&Tm). rewrite Em. cbn [mbind outcome_mbind].
  destruct (clone_ok _ Hc) as (d&Ed&_). rewrite Ed. cbn [mbind outcome_mbind].
  rewrite (tidy_has m st fs (bytes_of "content-type") Tm) by set_solver. destruct (lookup_field (bytes_of "content-type") fs); [|done]. cbn [mbind outcome_mbind].
  rewrite (tidy_has m st fs (bytes_of "content-length") Tm) by set_solver. destruct (lookup_field (bytes_of "content-length") fs); [|done]. cbn [mbind outcome_mbind].
  destruct (tidy_insert junk m st fs (bytes_of "X-Route") v true Tm) as (m'&E&T'); [set_solver|done| |].
  { unfold small, fits in *. change (Z.of_nat (length (bytes_of "X-Route"))) with 7. lia. }
  rewrite E. cbn [mbind outcome_mbind]. rewrite remove_none in T' by (by rewrite (lookup_same _ (bytes_of "x-route"))). eexists. split; [done|]. split; [exact T'|].
  exact (clone_keeps _ _ Ed).
Qed.

Lemma location_spec m st fs (s : px') : tidy m st fs → fits (Z.of_nat (length (render st fs)) + Z.of_nat (length url) + 8) →
  ∃ m' hs, (b ← lift_x (has_header m (bytes_of "location"));
     (if (b : bool) then mret m else '(_, m) ← lift_x (insert_header junk (bytes_of "Location") url false m); mret m)) s = Ret (m', s) ∧
    tidy m' st (fs ++ hs) ∧ (∀ n, ¬ same_name n (bytes_of "location") → lookup_field n hs = None) ∧
    (length (render st (fs ++ hs)) <= length (render st fs) + length url + 12)%nat.
Proof.
  clear Hdist. intros T Hf. rewrite (tidy_has m st fs (bytes_of "location") T) by set_solver. destruct (lookup_field (bytes_of "location") fs).
  - exists m, []. rewrite app_nil_r. split_and!; [done|done|done|lia].
  - destruct (tidy_insert junk m st fs (bytes_of "Location") url false T) as (m'&E&T'); [set_solver|done| |].
    { unfold fits in *. change (Z.of_nat (length (bytes_of "Location"))) with 8. lia. }
    exists m', [(bytes_of "Location", url)]. split_and!; [|done| |].
    + rewrite (bind_ret (lift_x (Ret false)) _ s false s eq_refl). rewrite E. done.
    + intros n Hn. cbn [lookup_field]. rewrite decide_False; [done|]. intros Hs. apply Hn. symmetry. exact Hs.
    + rewrite render_snoc. change (length (bytes_of "Location")) with 8%nat. lia.
Qed.

Lemma user_spec (s : px') : ∃ w, (∀ (A : Type) (f : bytes → M px' A),
  (arg ← lift_x (getArgumentFromIdInList al FRONT_USERID); w ← lift_x (match arg with Some x => ARG_STRING x | None => Ret (bytes_of "transend") end); f w) s = f w s).
Proof.
  rewrite (get_argument_spec al FRONT_USERID Hal). destruct (find_arg FRONT_USERID (used al)) as [x|] eqn:E.
  - apply find_arg_some in E as [_ Hx]. destruct (args_split al Hal) as (_&_&_&Hf&_). rewrite Forall_forall in Hf.
    destruct (arg_string_ok x (Hf x Hx)) as (t&Et&_). exists t. intros A f. unfold mbind, M_mbind, lift_x. cbn. by rewrite Et.
  - by exists (bytes_of "transend").
Qed.

Lemma lift_x_bind {A B} (o : outcome A) a (f : A → M px' B) s : o = Ret a → (lift_x o ≫= f) s = f a s.
Proof. by intros ->. Qed.

(** One distillation, with the type that has been chosen. *)
Lemma call_spec_full din (s : px') m st fs t w : (∀ (A : Type) (f : bytes → M px' A),
    (arg ← lift_x (getArgumentFromIdInList al FRONT_USERID); w ← lift_x (match arg with Some x => ARG_STRING x | None => Ret (bytes_of "transend") end); f w) s = f w s) →
  set_distiller_type junk fe_agg_string (dd_metadata din) url w = Ret (m, t) → tidy m st fs →
  ∃ c din', c_type c = t ∧ c_args c = al ∧ dd_data (c_input c) = dd_data din ∧ dd_metadata (c_input c) = m ∧
    ((Distill (calls s) c).1 ≠ distConnectionBroken → ∀ n, distill_loop junk Distill fe_agg_string n url din al s =
      Ret (((Distill (calls s) c).1, din', (Distill (calls s) c).2), Px (front s) (c :: calls s))).
Proof.
  clear Hal Hurl Hlen Hdist. intros Hw Ht T.
  assert (∃ c din', c_type c = t ∧ c_args c = al ∧ dd_data (c_input c) = dd_data din ∧ dd_metadata (c_input c) = m ∧
    do_distillation junk Distill fe_agg_string url din al s = Ret (((Distill (calls s) c).1, din', (Distill (calls s) c).2), Px (front s) (c :: calls s)))
    as (c&din'&H1&H2&H3&H4&E).
  { unfold do_distillation. rewrite Hw. clear Hw.
    assert (∃ x, header_text m (bytes_of "content-type") = Ret x) as [x Ex].
    { pose proof (tidy_text m st fs (bytes_of "content-type") T ltac:(set_solver)) as Hx. destruct (lookup_field _ fs); [destruct Hx as (?&?&_); by eexists|by eexists]. }
    rewrite (lift_x_bind _ _ _ _ Ht). rewrite (lift_x_bind _ _ _ _ Ex). set (c := Call t al _). exists c. eexists.
    split; [done|]. split; [done|]. split; [done|]. split; [done|].
    unfold send_call, mbind, M_mbind. destruct (Distill (calls s) c) as [st' d]. done. }
  exists c, din'. do 4 (split; [done|]). intros Hst n. by destruct n; cbn [distill_loop]; step_with E; rewrite decide_False.
Qed.
Lemma call_spec_user din (s : px') m st fs t w : (∀ (A : Type) (f : bytes → M px' A),
    (arg ← lift_x (getArgumentFromIdInList al FRONT_USERID); w ← lift_x (match arg with Some x => ARG_STRING x | None => Ret (bytes_of "transend") end); f w) s = f w s) →
  set_distiller_type junk fe_agg_string (dd_metadata din) url w = Ret (m, t) → tidy m st fs →
  ∃ c din', (∀ n, distill_loop junk Distill fe_agg_string n url din al s =
      Ret (((Distill (calls s) c).1, din', (Distill (calls s) c).2), Px (front s) (c :: calls s))) ∧
    c_type c = t ∧ c_args c = al ∧ dd_data (c_input c) = dd_data din ∧ dd_metadata (c_input c) = m.
Proof.
  intros Hw Ht T. destruct (call_spec_full din s m st fs t w Hw Ht T) as (c&din'&Hc&Hca&Hcd&Hcm&E). exists c, din'. split; [|done]. apply E.
  by destruct (Hdist (calls s) c) as [[-> | ->] _].
Qed.

Lemma call_spec din (s : px') m st fs t : (∀ w, set_distiller_type junk fe_agg_string (dd_metadata din) url w = Ret (m, t)) → tidy m st fs →
  ∃ c din', (∀ n, distill_loop junk Distill fe_agg_string n url din al s =
      Ret (((Distill (calls s) c).1, din', (Distill (calls s) c).2), Px (front s) (c :: calls s))) ∧
    c_type c = t ∧ c_args c = al ∧ dd_data (c_input c) = dd_data din ∧ dd_metadata (c_input c) = m.
Proof. intros Ht T. destruct (user_spec s) as (w&Hw). by apply (call_spec_user din s m st fs t w). Qed.

(** What the stages of a route go through: the document is [d]. *)
Definition on_route (d : DistillerData) (p : pipe) (l : list bytes) : Prop :=
  static_route_initialized p = true ∧ static_route p = next_route (join_route l) ∧ l ≠ [] ∧ route_ok l ∧ small (length (join_route l)) ∧
  (∀ x, carries (dd_data d) x → carries (dd_data (p_din p)) x) ∧
  ∃ st fs0 fs, tidy (dd_metadata d) st fs0 ∧ agree fs0 fs ∧
    tidy (dd_metadata (p_din p)) st (fs ++ [(bytes_of "X-Route", join_route l)]) ∧ lookup_field (bytes_of "x-route") fs = None ∧
    small (length (render st fs)).

(** The answer to a call that follows the route [l], or ends it. *)
Lemma after_route p l din out0 out status st fs0 fs : (status = distOk ∨ status = distRedispatch) →
  cloneable (dd_data out) → dd_data out = dd_data out0 → tidy (dd_metadata out0) st fs0 → agree fs0 fs → good_fields out st fs → route_ok l → small (length (join_route l)) →
  find_static_route p out0 = Ret (if decide (l = []) then None else Some (join_route l), true, out) →
  ∃ p', after_distill junk p status din out0 = Ret p' ∧
    if decide (l = []) then p_status p' = distOk ∧ p_retcode p' = distOk ∧ p_dout p' = out
    else p_status p' = distRedispatch ∧ p_retcode p' = distRedispatch ∧ task_age p' = u32 (task_age p + 1) ∧ on_route out0 p' l.
Proof.
  intros Hst Hcl Hdd T0 Hag Hout Hl Hs Hf. set (route := if decide (l = []) then None else Some (join_route l)) in *.
  assert (after_distill junk p status din out0 = 
    if bool_decide (route ≠ None) || (bool_decide (status = distRedispatch) && negb true) then
      din ← chain junk din out route;
      let dout := MkData (Free (dd_data out)) (Free (dd_metadata out)) (mimeType out) in
      let route' := match route with Some r => next_route r | None => None end in
      let status := match route with Some _ => distRedispatch | None => status end in
      Ret (Pipe status distRedispatch din dout route' true (u32 (task_age p + 1)) (p_errmsg p))
    else Ret (Pipe distOk distOk din out route true (task_age p) (p_errmsg p))) as E.
  { unfold after_distill. rewrite Hf. by destruct Hst as [-> | ->]. }
  rewrite E. clear E Hf. rewrite andb_false_r, orb_false_r. unfold route. destruct (decide (l = [])) as [->|Hne].
  - rewrite bool_decide_false by (intros Hn; by apply Hn). by eexists.
  - rewrite bool_decide_true by done. destruct l as [|r l]; [done|]. assert (header_safe (bytes_of "X-Route", join_route (r :: l))) as Hx by (by destruct Hl as (_&_&?&_)).
    destruct (chain_spec din out _ st fs Hcl Hout Hx Hs) as (din'&E&T&Hk). rewrite E. cbn [mbind outcome_mbind]. eexists. split; [done|]. split_and!; try done.
    rewrite Hdd in Hk. destruct Hout as (_&Hsm&Hlk&_). split_and!; try done. by exists st, fs0, fs.
Qed.

Lemma small_join r l : small (length (join_route (r :: l))) → small (length (join_route l)).
Proof. destruct l; [done|]. rewrite join_route_cons by done. unfold small. rewrite length_app. cbn [length]. lia. Qed.

(** A stage on a route calls the first distiller of the route. *)
Lemma route_stage d p r l (s : px') : on_route d p (r :: l) →
  ∃ c p', pipe_stage junk Distill fe_agg_string url al p s = Ret (p', Px (front s) (c :: calls s)) ∧
    c_type c = SET_DISTILLER_TYPE r ∧ c_args c = al ∧ passed_on d (c_input c) ∧
    if decide (l = []) then p_status p' = distOk ∧ p_retcode p' = distOk ∧ p_dout p' = (Distill (calls s) c).2
    else p_status p' = distRedispatch ∧ p_retcode p' = distRedispatch ∧ task_age p' = u32 (task_age p + 1) ∧ on_route (Distill (calls s) c).2 p' l.
Proof.
  intros (Hi&Hr&_&Hok&Hs&Hk&st&fs0&fs&T0&Hag&T&Hx&Hsm). unfold pipe_stage. rewrite (lift_x_bind _ _ _ _ (get_argument_spec al FRONT_RETRY_DISTILL Hal)). cbn zeta.
  destruct (location_spec _ _ _ s T) as (m&hs&E&T'&Hhs&Hsz).
  { unfold small, fits in *. rewrite render_snoc. change (length (bytes_of "X-Route")) with 7%nat. lia. }
  assert (lookup_field (bytes_of "x-route") hs = None) as Hhsx by (apply Hhs; vm_compute; discriminate).
  rewrite <-M_assoc. step_with E. clear E. rewrite <-app_assoc in T', Hsz. cbn [app] in T', Hsz. rewrite render_snoc in Hsz. change (length (bytes_of "X-Route")) with 7%nat in Hsz.
  assert (∃ m', ∀ w, set_distiller_type junk fe_agg_string m url w = Ret (m', SET_DISTILLER_TYPE r) ∧
    tidy m' st (fs ++ hs ++ if decide (l = []) then [] else [(bytes_of "x-route", join_route l)])) as (m'&Hm').
  { destruct (set_type_route junk fe_agg_string m st fs hs (bytes_of "X-Route") r l url (bytes_of "transend") T') as (m'&Em&Tm); try done.
    { unfold small, fits, field in *. lia. }
    exists m'. intros w. split; [|done]. rewrite <-Em. unfold set_distiller_type.
    pose proof (tidy_text m st _ (bytes_of "x-route") T' ltac:(left)) as Ht. rewrite lookup_app, Hx in Ht. cbn [lookup_field] in Ht. rewrite decide_True in Ht by done.
    destruct Ht as (t&Et&_). by rewrite Et. }
  destruct (call_spec (with_metadata m (p_din p)) s m' st _ (SET_DISTILLER_TYPE r) (λ w, proj1 (Hm' w)) (proj2 (Hm' []))) as (c&din'&E&Hc&Hca&Hcd&Hcm).
  step_with (E (Z.to_nat (match find_arg FRONT_RETRY_DISTILL (used al) with Some x => ARG_INT x | None => PERF_HTTP_RETRY_DISTILL end))).
  destruct (Hdist (calls s) c) as [Hst [Hcl (st2&fs2&Hout)]].
  destruct (after_route p l din' (Distill (calls s) c).2 (Distill (calls s) c).2 (Distill (calls s) c).1 st2 fs2 fs2 Hst Hcl eq_refl (proj1 Hout)) as (p'&Ea&Hp').
  - by intros n.
  - exact Hout.
  - by destruct Hok as (_&_&_&_&?).
  - by eapply small_join.
  - unfold find_static_route. rewrite Hi. cbn [negb andb]. rewrite Hr, next_route_join by done. done.
  - exists c, p'. split; [unfold lift_x; by rewrite Ea|]. split; [done|]. split; [done|]. split; [|done]. split.
    + intros x Hxc. rewrite Hcd. by apply Hk.
    + exists st, fs0, (fs ++ hs ++ if decide (l = []) then [] else [(bytes_of "x-route", join_route l)]). rewrite Hcm. split; [done|].
      split; [exact (proj2 (Hm' []))|]. intros n Hn1 Hn2 Hn3. rewrite <-(Hag n Hn1 Hn2 Hn3), !lookup_app, (Hhs n Hn3).
      destruct (lookup_field n fs); [done|]. destruct (decide (l = [])); [done|]. cbn [lookup_field]. rewrite decide_False; [done|]. intros Hsn. apply Hn1. symmetry. exact Hsn.
Qed.

Lemma route_loop fuel d p l (s : px') : on_route d p l → 1 <= task_age p <= 10 → 12 - task_age p <= Z.of_nat fuel →
  ∃ p' s' cs, pipe_loop junk Distill fe_agg_string fuel url al p s = Ret (p', s') ∧ front s' = front s ∧
    calls s' = reverse cs ++ calls s ∧ (c_type <$> cs) = (SET_DISTILLER_TYPE <$> take (Z.to_nat (11 - task_age p)) l) ∧ fed d (calls s) cs ∧
    if decide (Z.of_nat (length l) <= 11 - task_age p) then
      p_status p' = distOk ∧ p_retcode p' = distOk ∧ ∃ c h, calls s' = c :: h ∧ p_dout p' = (Distill h c).2
    else p_status p' = distRedispatch ∧ p_retcode p' = distRedispatch.
Proof.
  revert d p l s. induction fuel as [|fuel IH]; intros d p l s Hp Ha Hf; [lia|]. cbn [pipe_loop].
  destruct l as [|r l]; [by destruct Hp as (_&_&?&_)|]. destruct (route_stage d p r l s Hp) as (c&p1&E&Hc&Hca&Hin&H1). step_with E.
  replace (Z.to_nat (11 - task_age p)) with (S (Z.to_nat (10 - task_age p))) by lia. cbn [take]. rewrite fmap_cons, <-Hc. cbn [app length].
  destruct (decide (l = [])) as [->|Hl].
  - destruct H1 as (Hs&Hr&Hd). rewrite Hs, decide_False by done. exists p1, (Px (front s) (c :: calls s)), [c]. rewrite take_nil. split_and!; [done..|].
    rewrite decide_True by (cbn [length]; lia). split_and!; [done|done|]. by exists c, (calls s).
  - destruct H1 as (Hs&Hr&Hag&Hp1). rewrite wrap_small in Hag by lia. rewrite Hs, decide_True by done. unfold PERF_REQUEST_TTL.
    destruct (Z.leb_spec (task_age p1) (Z.of_nat 10)) as [Hle|Hgt].
    + destruct (IH _ p1 l (Px (front s) (c :: calls s)) Hp1) as (p'&s'&cs&E'&Hfr&Hcs&Hty&Hfed&Hend); [lia|lia|]. exists p', s', (c :: cs). split_and!; [done|done| | |done|].
      * rewrite Hcs, reverse_cons, <-app_assoc. done.
      * rewrite fmap_cons, Hty. by replace (Z.to_nat (11 - task_age p1)) with (Z.to_nat (10 - task_age p)) by lia.
      * destruct (decide (Z.of_nat (length l) <= 11 - task_age p1)); [rewrite decide_True by lia|rewrite decide_False by lia]; done.
    + exists p1, (Px (front s) (c :: calls s)), [c]. replace (Z.to_nat (10 - task_age p)) with 0%nat by lia. split_and!; [done..|].
      destruct l as [|r' l]; [done|]. rewrite decide_False by (cbn [length]; lia). done.
Qed.

(** The first answer, with its route. *)
Definition names_route (d : DistillerData) (l : list bytes) : Prop :=
  ∃ st fs, tidy (dd_metadata d) st fs ∧ small (length (render st fs)) ∧ lookup_field (bytes_of "x-route") fs = None ∧
    lookup_field (bytes_of "content-type") fs ≠ None ∧ lookup_field (bytes_of "content-length") fs ≠ None ∧
    lookup_field (bytes_of "x-static-route") fs = Some (join_route l).

Lemma find_route_first p d l : names_route d l → cloneable (dd_data d) → l ≠ [] → route_ok l → static_route_initialized p = false →
  ∃ d' st fs fs', find_static_route p d = Ret (Some (join_route l), true, d') ∧ dd_data d' = dd_data d ∧ tidy (dd_metadata d) st fs ∧
    agree fs fs' ∧ good_fields d' st fs'.
Proof.
  intros (st&fs&T&Hs&Hx&Hct&Hcl&Hr) Hd Hne Hok Hi. pose proof (join_route_nonempty l Hne Hok) as Hj. unfold find_static_route. rewrite Hi. cbn [negb andb].
  assert (bytes_of "x-static-route" ∈ special) as Hin by set_solver.
  pose proof T as ((?&_&Hbl&_)&_). rewrite Hbl. rewrite (proj2 (Z.ltb_lt _ _)) by (unfold render; len_norm; cbn [length crlf]; lia).
  pose proof (tidy_text _ st fs _ T Hin) as Ht. rewrite Hr in Ht. destruct Ht as (t&->&Htv). cbn [mbind outcome_mbind].
  destruct (join_route l) as [|c v] eqn:Ej; [done|]. cbn [length]. destruct (tidy_delete _ st fs _ T Hin) as (k&m&E&T'). rewrite E. cbn [mbind outcome_mbind].
  change (S (length v)) with (length (c :: v)). rewrite Htv. eexists _, st, fs, (remove_field (bytes_of "x-static-route") fs). split; [done|]. split; [done|]. split; [done|].
  split; [intros n _ Hn _; by apply lookup_remove|].
  split_and!; [done| |by rewrite lookup_remove by (vm_compute; discriminate)..].
  unfold small in *. pose proof (remove_field_length (bytes_of "x-static-route") st fs). lia.
Qed.

Lemma tidy_own b st fs : tidy b st fs → tidy (Buffer (data b) (blength b) (maxLength b) true) st fs.
Proof. intros ((rest&?&?&?&?&?&?)&?&?&?). split_and!; try done. by exists rest. Qed.

(** The type of a document without a route. *)
Lemma set_type_document m st fs ct : tidy m st fs → lookup_field (bytes_of "x-route") fs = None → lookup_field (bytes_of "content-type") fs = Some ct →
  (length ct <= 100)%nat → (strncasecmp url fe_agg_string (length fe_agg_string) =? 0) = false →
  set_distiller_type junk fe_agg_string m url (bytes_of "transend") = Ret (m, SET_DISTILLER_TYPE (bytes_of "transend/" ++ ct)).
Proof.
  clear Hal Hurl Hlen Hdist. intros T Hx Hct Hctl Hagg.
  unfold set_distiller_type. pose proof (tidy_text m st _ (bytes_of "x-route") T ltac:(left)) as Ht. rewrite Hx in Ht. rewrite Ht. cbn [mbind outcome_mbind].
  rewrite Hagg. unfold set_distiller_type_generic. pose proof (tidy_text m st _ (bytes_of "content-type") T ltac:(set_solver)) as Ht'. rewrite Hct in Ht'.
  destruct Ht' as (t&->&Htv). cbn [mbind outcome_mbind]. rewrite decide_False by done. rewrite Htv. unfold sprintf_in. cbn [mbind outcome_mbind].
  rewrite (proj2 (Z.ltb_lt _ _)); [done|]. rewrite !length_app. change (length (bytes_of "transend")) with 8%nat. cbn. lia.
Qed.

(** The first stage: the distiller for the type of the document. *)
Lemma first_stage p names ct st fs (s : px') : tidy (dd_metadata (p_din p)) st fs → small (length (render st fs)) →
  static_route_initialized p = false → lookup_field (bytes_of "x-route") fs = None → lookup_field (bytes_of "content-type") fs = Some ct →
  (length ct <= 100)%nat → find_arg FRONT_USERID (used al) = None →
  (strncasecmp url fe_agg_string (length fe_agg_string) =? 0) = false →
  (∀ c, names_route (Distill (calls s) c).2 names) → names ≠ [] → route_ok names → small (length (join_route names)) →
  ∃ c p', pipe_stage junk Distill fe_agg_string url al p s = Ret (p', Px (front s) (c :: calls s)) ∧
    c_type c = SET_DISTILLER_TYPE (bytes_of "transend/" ++ ct) ∧ c_args c = al ∧
    (∀ x, carries (dd_data (p_din p)) x → carries (dd_data (c_input c)) x) ∧ (∃ fs', tidy (dd_metadata (c_input c)) st fs' ∧ agree fs fs') ∧
    p_status p' = distRedispatch ∧ task_age p' = u32 (task_age p + 1) ∧ on_route (Distill (calls s) c).2 p' names.
Proof.
  intros T Hsm Hi Hx Hct Hctl Hu Hagg Hfirst Hne Hok Hs. unfold pipe_stage. rewrite (lift_x_bind _ _ _ _ (get_argument_spec al FRONT_RETRY_DISTILL Hal)). cbn zeta.
  destruct (location_spec _ _ _ s T) as (m&hs&E&T'&Hhs&Hsz); [unfold small, fits in *; lia|]. rewrite <-M_assoc. step_with E. clear E.
  assert (lookup_field (bytes_of "x-route") hs = None) as Hhsx by (apply Hhs; vm_compute; discriminate).
  assert (set_distiller_type junk fe_agg_string m url (bytes_of "transend") = Ret (m, SET_DISTILLER_TYPE (bytes_of "transend/" ++ ct))) as Ht.
  { by apply (set_type_document m st (fs ++ hs)); [exact T'|rewrite lookup_app, Hx|rewrite lookup_app, Hct|..]. }
  assert (∃ c din', (∀ n, distill_loop junk Distill fe_agg_string n url (with_metadata m (p_din p)) al s =
      Ret (((Distill (calls s) c).1, din', (Distill (calls s) c).2), Px (front s) (c :: calls s))) ∧ c_type c = SET_DISTILLER_TYPE (bytes_of "transend/" ++ ct) ∧
      c_args c = al ∧ dd_data (c_input c) = dd_data (p_din p) ∧ dd_metadata (c_input c) = m)
    as (c&din'&E&Hc&Hca&Hcd&Hcm).
  { apply (call_spec_user (with_metadata m (p_din p)) s m st (fs ++ hs) (SET_DISTILLER_TYPE (bytes_of "transend/" ++ ct)) (bytes_of "transend")); [|exact Ht|exact T'].
    intros A f. rewrite (lift_x_bind _ _ _ _ (get_argument_spec al FRONT_USERID Hal)), Hu. done. }
  step_with (E (Z.to_nat (match find_arg FRONT_RETRY_DISTILL (used al) with Some x => ARG_INT x | None => PERF_HTTP_RETRY_DISTILL end))).
  destruct (Hdist (calls s) c) as [Hst [Hcl _]]. destruct (find_route_first p _ names (Hfirst c) Hcl Hne Hok Hi) as (d'&st2&fs2&fs3&Ef&Hdd&T2&Hag&Hd').
  destruct (after_route p names din' (Distill (calls s) c).2 d' (Distill (calls s) c).1 st2 fs2 fs3 Hst ltac:(by rewrite Hdd) Hdd T2 Hag Hd' Hok Hs) as (p'&Ea&Hp').
  - rewrite decide_False by done. exact Ef.
  - rewrite decide_False in Hp' by done. destruct Hp' as (?&_&?&?). exists c, p'. split; [unfold lift_x; by rewrite Ea|]. split; [done|]. split; [done|]. split; [by rewrite Hcd|]. split; [|done].
    exists (fs ++ hs). rewrite Hcm. split; [done|]. intros n _ _ Hn. rewrite lookup_app, (Hhs n Hn). by destruct (lookup_field n fs).
Qed.

Lemma reply_spec svr pxy out : good_out out → ∃ b, reply_headers junk svr pxy out = Ret b ∧ ∀ st fs, tidy (dd_metadata out) st fs → holds b (render st fs).
Proof.
  clear Hal Hurl Hlen Hdist. intros (_&st&fs&T&_&_&Hct&Hcl). unfold reply_headers. pose proof T as ((?&_&Hbl&_)&_).
  rewrite Hbl, (proj2 (Z.ltb_lt _ _)) by (unfold render; len_norm; cbn [length crlf]; lia).
  destruct (tidy_clone _ _ _ T) as (b&E&Tb). rewrite E. cbn [mbind outcome_mbind].
  rewrite (tidy_has b st fs (bytes_of "content-type") Tb) by set_solver. destruct (lookup_field (bytes_of "content-type") fs); [|done]. cbn [mbind outcome_mbind].
  rewrite (tidy_has b st fs (bytes_of "content-length") Tb) by set_solver. destruct (lookup_field (bytes_of "content-length") fs); [|done]. cbn [mbind outcome_mbind].
  exists b. split; [done|]. intros st2 fs2 [H2 _]. destruct (holds_clone _ _ H2) as (b2&E2&Hb2). rewrite E in E2. by injection E2 as ->.
Qed.

(** A document that one distiller turns into an answer without a route. *)
Definition plain_answer (d : DistillerData) (st : bytes) (fs : list field) (body : bytes) : Prop :=
  tidy (dd_metadata d) st fs ∧ small (length (render st fs)) ∧ carries (dd_data d) body ∧ lookup_field (bytes_of "x-route") fs = None ∧
  lookup_field (bytes_of "x-static-route") fs = None ∧ lookup_field (bytes_of "content-type") fs ≠ None ∧ lookup_field (bytes_of "content-length") fs ≠ None.

(** The only stage of such a document: the distiller for its type is sent the
    document, and its answer is the result. *)
Lemma plain_stage p ct st fs body (s : px') : tidy (dd_metadata (p_din p)) st fs → small (length (render st fs)) → carries (dd_data (p_din p)) body →
  static_route_initialized p = false → static_route p = None → lookup_field (bytes_of "x-route") fs = None → lookup_field (bytes_of "content-type") fs = Some ct →
  (length ct <= 100)%nat → find_arg FRONT_USERID (used al) = None → (strncasecmp url fe_agg_string (length fe_agg_string) =? 0) = false →
  (∀ c, (Distill (calls s) c).1 = distOk ∧ ∃ st fs body, plain_answer (Distill (calls s) c).2 st fs body) →
  ∃ c p', pipe_stage junk Distill fe_agg_string url al p s = Ret (p', Px (front s) (c :: calls s)) ∧
    c_type c = SET_DISTILLER_TYPE (bytes_of "transend/" ++ ct) ∧ c_args c = al ∧ carries (dd_data (c_input c)) body ∧
    p_status p' = distOk ∧ p_retcode p' = distOk ∧ p_dout p' = (Distill (calls s) c).2 ∧ task_age p' = task_age p ∧ p_errmsg p' = p_errmsg p.
Proof.
  clear Hdist. intros T Hsm Hb Hi Hr Hx Hct Hctl Hu Hagg Hans. unfold pipe_stage. rewrite (lift_x_bind _ _ _ _ (get_argument_spec al FRONT_RETRY_DISTILL Hal)). cbn zeta.
  destruct (location_spec _ _ _ s T) as (m&hs&E&T'&Hhs&Hsz); [unfold small, fits in *; lia|]. rewrite <-M_assoc. step_with E. clear E.
  assert (lookup_field (bytes_of "x-route") hs = None) as Hhsx by (apply Hhs; vm_compute; discriminate).
  assert (set_distiller_type junk fe_agg_string m url (bytes_of "transend") = Ret (m, SET_DISTILLER_TYPE (bytes_of "transend/" ++ ct))) as Ht.
  { by apply (set_type_document m st (fs ++ hs)); [exact T'|rewrite lookup_app, Hx|rewrite lookup_app, Hct|..]. }
  destruct (call_spec_full (with_metadata m (p_din p)) s m st (fs ++ hs) (SET_DISTILLER_TYPE (bytes_of "transend/" ++ ct)) (bytes_of "transend")) as (c&din'&Hc&Ha&Hd&_&E);
    [|exact Ht|exact T'|].
  { intros A f. rewrite (lift_x_bind _ _ _ _ (get_argument_spec al FRONT_USERID Hal)), Hu. done. }
  destruct (Hans c) as (Hst&st2&fs2&body2&T2&_&_&_&Hsr&_). rewrite Hst in E.
  step_with (E ltac:(discriminate) (Z.to_nat (match find_arg FRONT_RETRY_DISTILL (used al) with Some x => ARG_INT x | None => PERF_HTTP_RETRY_DISTILL end))).
  assert (find_static_route p (Distill (calls s) c).2 = Ret (None, false, (Distill (calls s) c).2)) as Ef.
  { unfold find_static_route. rewrite Hi, Hr. cbn [negb andb]. destruct (0 <? _); [|done].
    pose proof (tidy_text _ st2 fs2 (bytes_of "x-static-route") T2 ltac:(set_solver)) as Hx2. rewrite Hsr in Hx2. by rewrite Hx2. }
  exists c. eexists. split; [unfold lift_x, after_distill; rewrite Ef; reflexivity|]. rewrite Hd. done.
Qed.

Lemma good_plain d st fs body : plain_answer d st fs body → good_out d.
Proof. intros (T&Hs&Hc&Hx&_&Hct&Hcl). split; [by eapply carries_cloneable|]. by exists st, fs. Qed.

(** The dispatch of such a document. *)
Lemma proxy_plain hp age dout0 ct st fs body (s : px') : HttpComm.url hp = Some url → tidy (svr_hdrs hp) st fs → small (length (render st fs)) → carries (svr_data hp) body →
  lookup_field (bytes_of "x-route") fs = None → lookup_field (bytes_of "content-type") fs = Some ct →
  (length ct <= 100)%nat → find_arg FRONT_USERID (used al) = None → (strncasecmp url fe_agg_string (length fe_agg_string) =? 0) = false →
  (∀ c, (Distill (calls s) c).1 = distOk ∧ ∃ st fs body, plain_answer (Distill (calls s) c).2 st fs body) →
  ∃ c h d hp1, proxy_dispatch junk Distill fe_agg_string al hp age dout0 s = Ret ((distOk, set_pxy_data d (set_pxy_hdrs h hp1), age), Px (front s) (c :: calls s)) ∧
    c_type c = SET_DISTILLER_TYPE (bytes_of "transend/" ++ ct) ∧ c_args c = al ∧ carries (dd_data (c_input c)) body ∧
    ∀ st fs body, plain_answer (Distill (calls s) c).2 st fs body → holds h (render st fs) ∧ carries d body.
Proof.
  clear Hdist. intros Hu T Hsm Hb Hx Hct Hctl Huser Hagg Hans. unfold proxy_dispatch. rewrite Hu. change (deref (Some url)) with (@mret (M (px (Monitor := Monitor))) _ _ url).
  rewrite mret_bind. destruct (clone_carries _ _ Hb) as (d&Ed&Hd). rewrite (lift_x_bind _ _ _ _ Ed). destruct (tidy_clone _ _ _ T) as (m&Em&Tm).
  rewrite (lift_x_bind _ _ _ _ Em). cbn zeta. set (p := Pipe distFatalError distFatalError _ dout0 None false age (errmsg hp)).
  destruct (plain_stage p ct st fs body s (tidy_own _ _ _ Tm) Hsm) as (c&p1&E&Hc&Ha&Hbd&Hs&Hr&Ho&Hag&_); try done.
  assert (pipe_loop junk Distill fe_agg_string (S (S PERF_REQUEST_TTL)) url al p s = Ret (p1, Px (front s) (c :: calls s))) as El.
  { change (S (S PERF_REQUEST_TTL)) with (S (S PERF_REQUEST_TTL)). cbn [pipe_loop]. step_with E. by rewrite Hs, decide_False. }
  step_with El. clear El E. rewrite Hs, decide_True by done. destruct (Hans c) as (_&st2&fs2&body2&Hpl). rewrite <-Ho in Hpl.
  destruct (reply_spec (svr_hdrs (set_errmsg (p_errmsg p1) hp)) (pxy_hdrs (set_errmsg (p_errmsg p1) hp)) (p_dout p1) (good_plain _ _ _ _ Hpl)) as (h&Eh&Hh).
  rewrite (lift_x_bind _ _ _ _ Eh). destruct (clone_carries _ _ (proj1 (proj2 (proj2 Hpl)))) as (d2&Ed2&Hd2). rewrite (lift_x_bind _ _ _ _ Ed2).
  exists c, h, d2, (set_errmsg (p_errmsg p1) hp). rewrite Hr, Hag. split; [done|]. split_and!; try done. rewrite <-Ho. intros st3 fs3 body3 Hp3. split; [apply Hh, Hp3|].
  destruct (clone_carries _ _ (proj1 (proj2 (proj2 Hp3)))) as (d3&Ed3&Hd3). rewrite Ed2 in Ed3. by injection Ed3 as ->.
Qed.
End Routing.

(** ** Properties *)

(** How often a distillation is tried again. *)
Definition retries (al : ArgumentList) : nat :=
  match getArgumentFromIdInList al FRONT_RETRY_DISTILL with Ret (Some x) => Z.to_nat (ARG_INT x) | _ => Z.to_nat PERF_HTTP_RETRY_DISTILL end.

(** C17. A request is dispatched in bounded time whatever the distillers answer:
    at most 11 stages, each with the retries the user allows, and the loops
    end.  The bound is reached ([eleven_stages]): it is one more than the ten
    that [PERF_REQUEST_TTL] is documented to allow, since the age is compared
    after it has been counted up. *)
Theorem dispatch_bounded {Monitor} `{Digest} (junk : nat → byte) (Distill : list call → call → DistillerStatus * DistillerData) (fe_agg_string : bytes)
    (al : ArgumentList) (hp : Request) (dout0 : DistillerData) (s : px (Monitor := Monitor)) :
  match proxy_dispatch junk Distill fe_agg_string al hp 0 dout0 s with
  | Ret (_, s') => ∃ cs, calls s' = cs ++ calls s ∧ (length cs <= 11 * S (retries al))%nat
  | Stuck => False
  | _ => True
  end.
Proof.
  assert (calls_at_most (11 * S (retries al)) (λ _, True) (proxy_dispatch (Monitor := Monitor) junk Distill fe_agg_string al hp 0 dout0)) as Hc.
  { unfold proxy_dispatch. destruct (url hp) as [u|]; [|by intros s0]. change (deref (Some u)) with (@mret (M (px (Monitor := Monitor))) _ _ u).
    change (11 * S (retries al))%nat with (0 + 11 * S (retries al))%nat. eapply (calls_bind 0 _ (λ _, True)); [by apply calls_ret|]. intros v _.
    apply calls_lift_bind; [prove_ends|]. intros d _. apply calls_lift_bind; [prove_ends|]. intros m _. cbn zeta.
    replace (11 * S (retries al))%nat with (11 * S (retries al) + 0)%nat by lia. eapply calls_bind.
    - apply (calls_pipe_loop junk Distill fe_agg_string v al (retries al)); [|cbn; lia|unfold PERF_REQUEST_TTL; cbn [task_age]; lia]. intros x Hx. unfold retries. rewrite Hx. by destruct x.
    - intros p _. destruct (decide _); [|by apply calls_ret]. apply calls_lift_bind; [prove_ends|]. intros h _. apply calls_lift_bind; [prove_ends|]. intros b _. by apply calls_ret. }
  specialize (Hc s). destruct (proxy_dispatch _ _ _ _ _ _ _ _) as [[r s']| | |]; try done. by destruct Hc as [_ ?].
Qed.


(** ** Witness and examples *)

Definition occursb (t s : bytes) : bool := existsb (λ j, bool_decide (ci_match_at s t j)) (seq 0 (length s)).
Lemma occursb_false t s : t ≠ [] → occursb t s = false → ¬ occurs t s.
Proof.
  intros Ht Hb [j Hj]. pose proof (ci_match_len s t j Ht Hj) as Hl. unfold occursb in Hb. apply not_true_iff_false in Hb. apply Hb.
  apply existsb_exists. exists j. split; [apply in_seq; destruct t; [done|cbn [length] in Hl; lia]|by apply bool_decide_eq_true].
Qed.
Definition header_safeb (f : field) : bool := forallb (λ n, bool_decide (same_name f.1 n) || negb (occursb n (f.1 ++ [58; 32] ++ f.2))) special.
Lemma header_safe_check f : field_ok f → header_safeb f = true → header_safe f.
Proof.
  intros Hf Hb. split; [done|]. rewrite Forall_forall. intros n Hn. unfold header_safeb in Hb. rewrite forallb_forall in Hb.
  specialize (Hb n ltac:(by apply list_elem_of_In)). apply orb_prop in Hb as [Hb|Hb]; [left; by apply bool_decide_eq_true in Hb|right].
  apply negb_true_iff in Hb. apply occursb_false; [by apply special_ok|done].
Qed.

Definition demo_status : bytes := bytes_of "HTTP/1.0 200 OK".
Definition demo_type : field := (bytes_of "Content-Type", bytes_of "text/html").
Definition demo_length : field := (bytes_of "Content-Length", bytes_of "2").
Definition demo_route : field := (bytes_of "X-Static-Route", bytes_of "a;b").
Definition block_of (h : bytes) : DistillerBuffer := Buffer (Some (h ++ [0])) (Z.of_nat (length h)) (Z.of_nat (length h) + 1) true.
Definition demo_answer (fs : list field) : DistillerData := MkData (block_of (bytes_of "ok")) (block_of (render demo_status fs)) (bytes_of "text/html").
Definition demo_Distill (h : list call) (c : call) : DistillerStatus * DistillerData :=
  (distOk, demo_answer (match h with [] => [demo_type; demo_length; demo_route] | _ => [demo_type; demo_length] end)).
Definition demo_prefs : ArgumentList := MkArgumentList 0 (replicate MAX_ARGS (blank_arg 0)).
Definition demo_px : px (Monitor := unit) := Px (Fe (demo_client []) demo_clib) [].
Definition demo_page : Request := set_svr_data (block_of (bytes_of "page")) (set_svr_hdrs (block_of (render demo_status [demo_type])) (set_url (Some (bytes_of "http://h/")) init_Request)).

Lemma field_ok_check n v : forallb (λ c, negb (c =? 0)) (n ++ v) = true → forallb (λ c, negb (c =? 13) && negb (c =? 10)) v = true →
  match v with [] => true | c :: _ => negb (c =? 32) && negb (c =? 9) end = true → field_ok (n, v).
Proof.
  rewrite !forallb_forall. intros H1 H2 H3. unfold field_ok, no_nul. cbn [fst snd]. split_and!.
  - apply Forall_forall. intros c Hc. specialize (H1 c ltac:(apply list_elem_of_In, elem_of_app; by left)). lia.
  - apply Forall_forall. intros c Hc. specialize (H1 c ltac:(apply list_elem_of_In, elem_of_app; by right)). lia.
  - intros Hc. specialize (H2 13 ltac:(by apply list_elem_of_In)). lia.
  - intros Hc. specialize (H2 10 ltac:(by apply list_elem_of_In)). lia.
  - destruct v as [|c v]; [done|]. unfold blank. lia.
Qed.

Lemma block_tidy fs : no_nul (render demo_status fs) → Z.of_nat (length (render demo_status fs)) < 2 ^ 30 → Forall header_safe fs →
  tidy (block_of (render demo_status fs)) demo_status fs.
Proof.
  intros Hn Hl Hf. split_and!; [exists []; split_and!; unfold block_of; cbn [data blength maxLength length]; done || lia| |done|].
  - unfold no_nul. apply (bool_decide_unpack _). vm_compute. exact I.
  - apply Forall_forall. intros n Hin. apply occursb_false; [by apply special_ok|].
    assert (forallb (λ n, negb (occursb n demo_status)) special = true) as H by (vm_compute; reflexivity). rewrite forallb_forall in H.
    apply negb_true_iff, H. by apply list_elem_of_In.
Qed.

Lemma demo_fields_safe : header_safe demo_type ∧ header_safe demo_length ∧ header_safe demo_route ∧ header_safe (bytes_of "Location", bytes_of "http://h/").
Proof. split_and!; (apply header_safe_check; [apply field_ok_check; reflexivity|vm_compute; reflexivity]). Qed.

Lemma demo_tidy : (∀ r : bool, let fs := if r then [demo_type; demo_length; demo_route] else [demo_type; demo_length] in tidy (block_of (render demo_status fs)) demo_status fs) ∧
  tidy (block_of (render demo_status [demo_type])) demo_status [demo_type].
Proof.
  destruct demo_fields_safe as (H1&H2&H3&_). split.
  - intros [|]; (apply block_tidy; [unfold no_nul; apply (bool_decide_unpack _); vm_compute; exact I|vm_compute; reflexivity|repeat first [apply Forall_nil; exact I|apply Forall_cons; split; [assumption|]]]).
  - apply block_tidy; [unfold no_nul; apply (bool_decide_unpack _); vm_compute; exact I|vm_compute; reflexivity|repeat first [apply Forall_nil; exact I|apply Forall_cons; split; [assumption|]]].
Qed.

Lemma demo_args_ok : args_ok demo_prefs.
Proof. apply (args_make [] (replicate MAX_ARGS (blank_arg 0))); [constructor|apply Forall_replicate, blank_arg_ok; lia|constructor|done]. Qed.

Lemma demo_route_ok : route_ok [bytes_of "a"; bytes_of "b"].
Proof.
  assert (∀ c, (59 ∉ [c]) ↔ c ≠ 59) as Hin by (intros c; rewrite list_elem_of_singleton; split; congruence).
  cbn [route_ok]. split_and!; try discriminate; try (apply Hin; discriminate); try exact I; (apply header_safe_check; [apply field_ok_check; reflexivity|vm_compute; reflexivity]).
Qed.


(** A retry after a broken connection goes to the next distiller of the route:
    the first one has been taken off the header already. *)
Example retry_skips_route :
  let din := MkData (block_of (bytes_of "page")) (block_of (render demo_status [demo_type; (bytes_of "X-Route", bytes_of "a;b")])) [] in
  let broken h c := (match h with [] => distConnectionBroken | _ => distOk end, demo_answer [demo_type; demo_length]) in
  match distill_loop (λ _, 7) broken (bytes_of "http://agg.") 3 (bytes_of "http://h/") din demo_prefs demo_px with
  | Ret ((status, _, _), s) => status = distOk ∧ (c_str ∘ c_type <$> calls s) = [bytes_of "b"; bytes_of "a"]
  | _ => False
  end.
Proof. vm_compute. split; reflexivity. Qed.

(** The name of an aggregator that no slash follows: the URL is read past its
    end. *)
Example aggregator_overread :
  set_distiller_type (λ _, 7) (bytes_of "http://agg.") (block_of (render demo_status [])) (bytes_of "http://agg.x") [] = Crash.
Proof. vm_compute. reflexivity. Qed.

(** A long content type, which the server chooses, overruns [disttype]. *)
Example long_type_overflows :
  set_distiller_type (λ _, 7) (bytes_of "http://agg.") (block_of (render demo_status [(bytes_of "Content-Type", replicate 131 97)])) (bytes_of "http://h/") [] = Crash.
Proof. vm_compute. reflexivity. Qed.

(** A distiller that always asks for another dispatch is called eleven times. *)
Example eleven_stages :
  let again (h : list call) (c : call) := (distRedispatch, demo_answer [demo_type; demo_length]) in
  match proxy_dispatch (λ _, 7) again (bytes_of "http://agg.") demo_prefs demo_page 0 (demo_answer []) demo_px with
  | Ret ((status, _, age), s) => status = distRedispatch ∧ age = 11 ∧ length (calls s) = 11%nat
  | _ => False
  end.
Proof. vm_compute. split_and!; reflexivity. Qed.
