(* ===== verification/Server.v ===== *)
(** * Getting the document of a request (frontend/src/cacheop.c,
    [server_dispatch] of frontend/src/dispatch.c)

    A GET and a POST go to the cache through the client library [Clib]; a URL
    in the front end's own name space goes to a worker, with the headers and
    the body of the client's request.  The connections are the scripts of
    [SockIO]; the field [cache_fd], which nothing reads, and the
    instrumentation are left out. *)

From S2P Require Import Prelude CString SockIO Md5 Config Partition Icp Clib HttpHeaders HttpComm Args Dispatch.
Open Scope Z_scope.

(** ** The standard library *)

Definition hex_digit (c : byte) : Z :=
  if isdigit c then c - 48 else if (97 <=? c) && (c <=? 102) then c - 87 else if (65 <=? c) && (c <=? 70) then c - 55 else 99.
Fixpoint digits_in (base : Z) (s : bytes) (acc : Z) : Z :=
  match s with
  | c :: s' => if hex_digit c <? base then digits_in base s' (acc * base + hex_digit c) else acc
  | [] => acc
  end.
(** [strtoul(s, NULL, 0)] on a machine with 32-bit longs: the base is that of
    the prefix of the number. *)
Definition strtoul (s : bytes) : Z :=
  let s := skip_blanks s in
  let '(neg, s) := match s with c :: s' => if c =? 45 then (true, s') else if c =? 43 then (false, s') else (false, s) | [] => (false, []) end in
  let n := match s with
           | c :: s' =>
               if c =? 48 then
                 match s' with
                 | x :: h :: _ => if ((x =? 120) || (x =? 88)) && (hex_digit h <? 16) then digits_in 16 (tail s') 0 else digits_in 8 s 0
                 | _ => digits_in 8 s 0
                 end
               else digits_in 10 s 0
           | [] => 0
           end in
  if 2 ^ 32 <=? n then 2 ^ 32 - 1 else if neg : bool then u32 (- n) else n.

(** [sscanf(s, "%*s %lu", ..)]: the number behind the first word. *)
Definition isspace (c : byte) : bool := (c =? 32) || ((9 <=? c) && (c <=? 13)).
Definition scan_status (s : bytes) : option Z :=
  let s := skip_blanks s in
  let n := span_in (λ c, negb (isspace c)) s in
  if decide (n = 0%nat) then None else fst <$> scan_lu (skip_blanks (drop n s)).

Section Server.
Context `{Digest} {Monitor : Type}.
Variable nm : names.
Variable part_opts : bytes → option bytes.
Variable getsockname : Z → Z * sockaddr_in.
Variable junk : nat → byte.
Variable fe_agg_string : bytes.
(** The option [frontend.myurl.dispatch]. *)
Variable worker_option : option bytes.
Abbreviation PX := (M (px (Monitor := Monitor))).

Definition no_data : clib_data := ClibData Null 0 Null 0 0.
Definition cptr_block (p : cptr) : option bytes := match p with Ptr b => Some b | _ => None end.
(** [DistillerBufferFreeMe(b, gm_True)]. *)
Definition FreeMe (b : DistillerBuffer) : DistillerBuffer := Buffer (data b) (blength b) (maxLength b) true.

(** ** cacheop.c *)
Definition do_get (hp : Request) (al : ArgumentList) : PX (HTTP_Status * Request) :=
  u ← deref (url hp);
  arg ← lift_x (getArgumentFromIdInList al FRONT_ANONYMIZE);
  headers ← (if match arg with Some x => 0 <? ARG_INT x | None => false end then mret (Some [])
             else match data (cli_hdrs hp) with
                  | None => mret None
                  | Some _ => s ← lift_x (buf_str (cli_hdrs hp)); mret (Some s)
                  end);
  '(cl, dat) ← on_front (on_cache (Clib_Fetch nm part_opts getsockname junk u headers no_data));
  if cl =? CLIB_OK then
    hdrs ← lift_x (StringBuffer (cptr_block (mime_headers dat)) (mime_size dat) (svr_hdrs hp));
    let hp := set_svr_hdrs (FreeMe hdrs) hp in
    mret (HTTP_NO_ERR, set_svr_data (FreeMe (StaticBuffer (cptr_block (Clib.data dat)) (data_size dat) (svr_data hp))) hp)
  else
    msg ← lift_x (clib_strerror cl);
    '(errm, _) ← lift_x (snprintf (errmsg hp) 0 (Z.of_nat HTTP_ERRMSG_MAX) (bytes_of "Client library error " ++ dec cl ++ bytes_of ": " ++ msg));
    mret (HTTP_ERR_CACHE, set_errmsg errm hp).

(** [strncpy] of a string of that length, [*already_read = 0]; the bytes still
    to come are read to the start of the buffer. *)
Definition do_post (hp : Request) : PX (HTTP_Status * Request) :=
  val ← lift_x (header_text (cli_hdrs hp) (bytes_of "content-length"));
  match val with
  | None => mret (HTTP_ERR_POST_NO_CONTENTLENGTH, hp)
  | Some (t, _) =>
      let len := i32 (strtoul t) in
      if len <? 0 then mret (HTTP_ERR_POST_NO_CONTENTLENGTH, hp)
      else
        hdrs ← lift_x (buf_str (cli_hdrs hp));
        match strstr hdrs (crlf ++ crlf) with
        | None => mret (HTTP_ERR_MALFORMED_REQUEST, hp)
        | Some p =>
            let already_read := (p + 4)%nat in
            let chars := drop already_read hdrs in
            let to_read := i32 (len - Z.of_nat (length chars)) in
            buffer ← (if len + 100 <? 2 ^ 31 then lift_x (store (malloc junk (len + 100)) 0 chars) else crash);
            blk ← deref (data (cli_hdrs hp));
            blk ← lift_x (wr blk (Z.of_nat already_read) 0);
            let hp := set_cli_hdrs (Buffer (Some blk) (blength (cli_hdrs hp)) (maxLength (cli_hdrs hp)) (freeMe (cli_hdrs hp))) hp in
            '(hp, buffer) ←
              (if 0 <? to_read then
                 '(_, hp, b) ← on_front (on_cli (readline_or_timeout hp to_read (Some buffer)));
                 buffer ← deref b; mret (hp, buffer)
               else mret (hp, buffer));
            u ← deref (url hp);
            headers ← lift_x (buf_str (cli_hdrs hp));
            '(cl, returned) ← on_front (on_cache (Clib_Post nm part_opts getsockname junk u (Some headers) buffer len no_data));
            if negb (cl =? CLIB_OK) then mret (HTTP_ERR_POST_FAILED, hp)
            else
              let hp := set_svr_hdrs (FreeMe (StaticBuffer (cptr_block (mime_headers returned)) (mime_size returned + 1) (svr_hdrs hp))) hp in
              mret (HTTP_NO_ERR, set_svr_data (FreeMe (StaticBuffer (cptr_block (Clib.data returned)) (data_size returned) (svr_data hp))) hp)
        end
  end.

(** ** [server_dispatch] *)

(** The headers of the request, up to and with the blank line, as the server's
    headers. *)
Definition clone_headers (hp : Request) (orig : bytes) (eoh : nat) : outcome Request :=
  let b := Alloc junk (Z.of_nat (eoh + 1)) (svr_hdrs hp) in
  match data b with
  | None => Crash
  | Some blk =>
      blk ← store blk 0 (take eoh orig ++ [0]);
      b ← SetLength (Z.of_nat eoh) (Buffer (Some blk) (blength b) (maxLength b) (freeMe b));
      Ret (set_svr_hdrs (FreeMe b) hp)
  end.

(** The body, of [len] bytes, as the server's data; false if it does not come. *)
Definition read_body (hp : Request) (eoh : nat) (len : Z) : PX (bool * Request) :=
  let already_read := i32 (blength (cli_hdrs hp) - Z.of_nat eoh) in
  let to_copy := if len <=? already_read then len else already_read in
  let b := Alloc junk (u32 (len + 1)) (svr_data hp) in
  blk ← deref (data (cli_hdrs hp));
  body ← deref (data b);
  body ← (if (0 <=? to_copy) && (Z.of_nat eoh + to_copy <=? Z.of_nat (length blk))
          then lift_x (store body 0 (take (Z.to_nat to_copy) (drop eoh blk))) else crash);
  let hp := set_svr_data (Buffer (Some body) (blength b) (maxLength b) (freeMe b)) hp in
  '(r, hp, body) ←
    (if to_copy <? len then
       '(r, hp, rest) ← on_front (on_cli (readline_or_timeout hp (len - to_copy) (Some (drop (Z.to_nat to_copy) body))));
       rest ← deref rest;
       mret (r, hp, take (Z.to_nat to_copy) body ++ rest)
     else mret (len - to_copy, hp, body));
  if negb (r =? len - to_copy) then mret (false, set_svr_data (Buffer (Some body) (blength b) (maxLength b) (freeMe b)) hp)
  else
    body ← lift_x (wr body len 0);
    d ← lift_x (SetLength len (Buffer (Some body) (blength b) (maxLength b) (freeMe b)));
    mret (true, set_svr_data d hp).

(** A URL in the front end's name space, or of an aggregator. *)
Definition worker_dispatch (hp : Request) : PX (HTTP_Status * Request) :=
  orig_hdrs ← lift_x (buf_str (cli_hdrs hp));
  match strstr orig_hdrs (crlf ++ crlf) with
  | None => mret (HTTP_ERR_MALFORMED_REQUEST, hp)
  | Some p =>
      let eoh := (p + 4)%nat in
      hp ← lift_x (clone_headers hp orig_hdrs eoh);
      val ← lift_x (header_text (cli_hdrs hp) (bytes_of "content-length"));
      '(ok, hp) ←
        match val with
        | None => mret (true, hp)
        | Some (t, _) => let len := i32 (strtoul t) in if len <? 0 then mret (false, hp) else read_body hp eoh len
        end;
      if (ok : bool) then
        let workerName := default (bytes_of "myurl/dispatch") worker_option in
        '(_, h) ← lift_x (insert_header junk (bytes_of "X-Route") workerName true (svr_hdrs hp));
        mret (HTTP_NO_ERR, set_status 200 (set_svr_hdrs h hp))
      else mret (HTTP_ERR_MALFORMED_REQUEST, hp)
  end.

(** The task's age, which is set, is returned with the status. *)
Definition server_dispatch (al : ArgumentList) (hp : Request) : PX (HTTP_Status * Request * Z) :=
  u ← deref (url hp);
  if is_server_url fe_agg_string u then '(st, hp) ← worker_dispatch hp; mret (st, hp, 0)
  else
    meth ← deref (method hp);
    '(retcode, hp) ← (if (head_byte meth =? 103) || (head_byte meth =? 71) then do_get hp al else do_post hp);
    if negb (bool_decide (retcode = HTTP_NO_ERR)) then mret (retcode, hp, 0)
    else
      s ← lift_x (buf_str (svr_hdrs hp));
      match scan_status s with
      | None => mret (HTTP_ERR_GET_FAILED, set_status 0 hp, 0)
      | Some n => mret (HTTP_NO_ERR, set_status n hp, 0)
      end.
End Server.

(** ** Lemmas *)

Section ServerLemmas.
Context `{Digest} {Monitor : Type}.
Variable nm : names.
Variable part_opts : bytes → option bytes.
Variable getsockname : Z → Z * sockaddr_in.
Variable junk : nat → byte.
Variable fe_agg_string : bytes.
Variable worker_option : option bytes.
Implicit Types s : px (Monitor := Monitor).

Lemma on_front_ret {A} (m : M fe A) s a f : m (front s) = Ret (a, f) → on_front m s = Ret (a, Px f (calls s)).
Proof. intros E. unfold on_front, mbind, outcome_mbind. by rewrite E. Qed.
Lemma on_cache_ret {A} (m : M (clib_state Monitor) A) (f : fe) a c : m (cache f) = Ret (a, c) → on_cache m f = Ret (a, Fe (cli f) c).
Proof. intros E. unfold on_cache, mbind, outcome_mbind. by rewrite E. Qed.
Lemma on_cli_ret {A} (m : IO A) (f : fe (Monitor := Monitor)) a c : m (cli f) = Ret (a, c) → on_cli m f = Ret (a, Fe c (cache f)).
Proof. intros E. unfold on_cli, mbind, outcome_mbind. by rewrite E. Qed.

(** The cache is reached over the connection [c], which works, and answers
    [req] with [input c], the headers of which end at [k]. *)
Definition cache_answers (url : bytes) (p1 : part_state Monitor) (f : Z) (c : io) (ps : list io) (k : nat) (req : bytes) (s : clib_state Monitor) : Prop :=
  Part_GetTCPsock nm part_opts url (parts s) = Ret ((CLIB_OK, Some f), p1) ∧ peers s = c :: ps ∧
  forallb live (xfers c) = true ∧ (length req + length (input c) < moves (xfers c))%nat ∧
  Z.of_nat (length (input c)) <= CLIB_CUTTHROUGH_THRESH ∧ 4096 * Z.of_nat (io_fuel c) < 2 ^ 32 ∧ header_end (input c) = Some k.

(** What the front end has and what its cache has seen, after that. *)
Definition answered (c : io) (req : bytes) (s s' : px (Monitor := Monitor)) : Prop :=
  cli (front s') = cli (front s) ∧ calls s' = calls s ∧ ∃ c', talks (cache (front s')) = c' :: talks (cache (front s)) ∧ wire c' = wire c ++ req.

(** The sizes that come with an answer. *)
Lemma response_sizes resp k (h := canonical (take k resp)) : header_end resp = Some k → Z.of_nat (length resp) <= CLIB_CUTTHROUGH_THRESH → no_nul h →
  mime_size (response_data resp k) = Z.of_nat (length h) ∧ data_size (response_data resp k) = Z.of_nat (length (drop k resp)) ∧
  Z.of_nat (length h) < 2 ^ 30 ∧ Z.of_nat (length (drop k resp)) < 2 ^ 30.
Proof.
  intros Hk Hcut Hn. unfold CLIB_CUTTHROUGH_THRESH in Hcut. assert (k <= length resp)%nat by (by apply header_end_double).
  cbn [mime_size data_size response_data]. fold h. rewrite span_in_app, (no_nul_span h Hn). cbn [span_in]. change (negb (0 =? 0)) with false. cbn iota.
  rewrite Nat.add_0_r, length_drop. split_and!; [done|lia| |lia]. unfold h, canonical.
  pose proof (canon_length false (take k resp)) as Hc. rewrite length_take in Hc. rewrite length_app. cbn [length CRLF]. lia.
Qed.

Lemma StringBuffer_holds h b : no_nul h → Z.of_nat (length h) < 2 ^ 31 - 1 →
  ∃ b', StringBuffer (Some (h ++ [0])) (Z.of_nat (length h)) b = Ret b' ∧ holds (FreeMe b') h.
Proof.
  intros Hn Hl. unfold StringBuffer. rewrite (wr_mid h 0 []) by done. cbn [mbind outcome_mbind]. eexists. split; [done|].
  exists []. unfold FreeMe. cbn [data blength maxLength]. rewrite !wrap_small by lia. cbn [length]. split_and!; try done; lia.
Qed.

(** A block from the client library, [n] bytes of it counted. *)
Definition whole_block (t : bytes) (n : nat) : DistillerBuffer := Buffer (Some (t ++ [0])) (Z.of_nat n) (Z.of_nat n) true.

(** The document's headers are those of the answer, made canonical, and its
    data what follows them. *)
Definition document (h body : bytes) (hp hp' : Request) : Prop :=
  ∃ b, holds b h ∧ hp' = set_svr_data (whole_block body (length body)) (set_svr_hdrs b hp).

Lemma do_get_spec hp al u text p1 f c ps k s : url hp = Some u → args_ok al → find_arg FRONT_ANONYMIZE (used al) = None →
  holds (cli_hdrs hp) text → (4 <= length text)%nat → no_nul (canonical (take k (input c))) →
  cache_answers u p1 f c ps k (request_bytes u (Some text) [] true ICP_GET) (cache (front s)) →
  ∃ hp' s', do_get nm part_opts getsockname junk hp al s = Ret ((HTTP_NO_ERR, hp'), s') ∧
    document (canonical (take k (input c))) (drop k (input c)) hp hp' ∧ answered c (request_bytes u (Some text) [] true ICP_GET) s s'.
Proof.
  intros Hu Hal Hano Ht H4 Hn (Hsock&Hpeers&Hlive&Hmoves&Hcut&Hword&Hk).
  pose proof (do_http_send_sends u (Some text) [] true ICP_GET ltac:(set_solver +) H4) as Hs.
  destruct (transact_ok nm part_opts getsockname junk u _ _ no_data (cache (front s)) p1 f c ps k (length (peers (cache (front s)))) Hs Hsock Hpeers Hlive Hmoves Hcut Hword Hk)
    as (c2 & c' & E & Hp2 & Htk & Hw & Hf).
  unfold do_get. rewrite Hu. change (deref (Some u)) with (@mret (M (px (Monitor := Monitor))) _ _ u). rewrite mret_bind.
  rewrite (lift_x_bind _ _ _ _ (get_argument_spec al FRONT_ANONYMIZE Hal)), Hano. destruct Ht as (rest&Hd&Hrest). rewrite Hd.
  assert (buf_str (cli_hdrs hp) = Ret text) as Hstr by (apply holds_str; by exists rest).
  rewrite M_assoc, (lift_x_bind _ _ _ _ Hstr), mret_bind.
  assert (on_front (on_cache (Clib_Fetch nm part_opts getsockname junk u (Some text) no_data)) s =
    Ret ((CLIB_OK, response_data (input c) k), Px (Fe (cli (front s)) c2) (calls s))) as Ef.
  { apply on_front_ret, on_cache_ret. unfold Clib_Fetch. rewrite (bind_ret get _ _ _ _ eq_refl). exact E. }
  step_with Ef. change (CLIB_OK =? CLIB_OK) with true. cbn iota. destruct (response_sizes _ _ Hk Hcut Hn) as (Em&Ed&Hlen&Hdl).
  rewrite Em, Ed. cbn [mime_headers response_data cptr_block Clib.data].
  destruct (StringBuffer_holds _ (svr_hdrs hp) Hn ltac:(lia)) as (b&Eb&Hb). rewrite (lift_x_bind _ _ _ _ Eb). eexists _, _. split; [reflexivity|].
  split; [|split; [done|split; [done|by exists c']]].
  exists (FreeMe b). split; [done|]. unfold FreeMe, StaticBuffer. cbn [data blength maxLength]. by rewrite wrap_small by lia.
Qed.

Lemma server_get_spec hp al u m text p1 f c ps k n s : url hp = Some u → is_server_url fe_agg_string u = false →
  method hp = Some m → head_byte m = 103 ∨ head_byte m = 71 → args_ok al → find_arg FRONT_ANONYMIZE (used al) = None →
  holds (cli_hdrs hp) text → (4 <= length text)%nat → no_nul (canonical (take k (input c))) → scan_status (canonical (take k (input c))) = Some n →
  cache_answers u p1 f c ps k (request_bytes u (Some text) [] true ICP_GET) (cache (front s)) →
  ∃ hp' s', server_dispatch nm part_opts getsockname junk fe_agg_string worker_option al hp s = Ret ((HTTP_NO_ERR, set_status n hp', 0), s') ∧
    document (canonical (take k (input c))) (drop k (input c)) hp hp' ∧ answered c (request_bytes u (Some text) [] true ICP_GET) s s'.
Proof.
  intros Hu Hs Hm Hg Hal Hano Ht H4 Hn Hst Hc.
  destruct (do_get_spec hp al u text p1 f c ps k s Hu Hal Hano Ht H4 Hn Hc) as (hp'&s'&E&Hd&Ha).
  exists hp', s'. split; [|done]. unfold server_dispatch. rewrite Hu, Hm. change (deref (Some u)) with (@mret (M (px (Monitor := Monitor))) _ _ u).
  rewrite mret_bind, Hs. change (deref (Some m)) with (@mret (M (px (Monitor := Monitor))) _ _ m). rewrite mret_bind.
  replace ((head_byte m =? 103) || (head_byte m =? 71)) with true by (destruct Hg as [-> | ->]; reflexivity).
  step_with E. rewrite bool_decide_true by done. cbn [negb]. destruct Hd as (b&Hb&->). cbn [svr_hdrs set_svr_data set_svr_hdrs].
  rewrite (lift_x_bind _ _ _ _ (holds_str _ _ Hb)), Hst. done.
Qed.

(** *** Requests that workers answer *)

Lemma strstr_app (h x t : bytes) k : strstr h t = Some k → strstr (h ++ x) t = Some k.
Proof.
  revert k. induction h as [|c h IH]; intros k; cbn [strstr app].
  - case_bool_decide as E; [|done]. intros [= <-]. rewrite take_nil in E. subst t. cbn [length take]. destruct x; cbn [strstr]; by rewrite bool_decide_true.
  - case_bool_decide as E.
    + intros [= <-]. rewrite bool_decide_true; [done|]. rewrite <-E at 2. apply (f_equal length) in E as El. rewrite length_take in El. cbn [length] in *.
      change (c :: h ++ x) with ((c :: h) ++ x). rewrite take_app_le by (cbn [length]; lia). by rewrite E.
    + intros Hk. destruct (strstr h t) as [j|] eqn:Ej; [|done]. cbn in Hk. injection Hk as <-.
      assert (length t <= length h)%nat as Hl.
      { pose proof (strstr_match _ _ _ Ej) as Hm. unfold match_at in Hm. apply (f_equal length) in Hm. rewrite length_take, length_drop in Hm. lia. }
      change (c :: h ++ x) with ((c :: h) ++ x). rewrite take_app_le by (cbn [length]; lia). rewrite bool_decide_false by done. by rewrite (IH _ eq_refl).
Qed.

Lemma buf_str_prefix b h x rest : data b = Some (h ++ x ++ 0 :: rest) → no_nul h → ∃ y, buf_str b = Ret (h ++ y).
Proof.
  intros Hd Hn. unfold buf_str. rewrite Hd. unfold cstr_at. rewrite drop_0, span_in_app, (no_nul_span h Hn).
  set (n := span_in _ _). assert (n < length (x ++ 0%Z :: rest))%nat as Hlt.
  { unfold n. clear. rewrite span_in_app. rewrite length_app. cbn [length span_in]. change (negb (0 =? 0)) with false. cbn iota.
    destruct (forallb _ x) eqn:E; [lia|]. clear E. induction x as [|c x IH]; cbn [span_in length]; [|destruct (negb (c =? 0))]; lia. }
  rewrite decide_True by (rewrite length_app; lia). exists (take n (x ++ 0 :: rest)). rewrite take_app_add. done.
Qed.

Lemma clone_headers_spec hp h y : no_nul h → Z.of_nat (length h) < 2 ^ 31 - 1 →
  ∃ b, clone_headers junk hp (h ++ y) (length h) = Ret (set_svr_hdrs b hp) ∧ holds b h.
Proof.
  intros Hn Hl. unfold clone_headers, Alloc. cbn [data blength maxLength freeMe]. rewrite take_app_length.
  pose proof (store_ok [] (malloc junk (Z.of_nat (length h + 1))) [] 0 (h ++ [0]) eq_refl) as Hs. rewrite app_nil_r in Hs. cbn [app] in Hs.
  rewrite Hs by (unfold malloc; rewrite length_fmap, length_seq, length_app; cbn [length]; lia). cbn [mbind outcome_mbind].
  rewrite wrap_small by lia. rewrite SetLength_ok by (cbn [maxLength]; lia). cbn [mbind outcome_mbind]. eexists. split; [reflexivity|].
  exists []. unfold FreeMe. cbn [data blength maxLength length]. rewrite app_nil_r. split_and!; try done; lia.
Qed.

(** The body: what has been read with the headers, and then what comes. *)
Lemma read_body_spec hp h x rest len s : data (cli_hdrs hp) = Some (h ++ x ++ 0 :: rest) → blength (cli_hdrs hp) = Z.of_nat (length h + length x) →
  Z.of_nat (length h + length x) < 2 ^ 31 → 0 <= len < 2 ^ 31 - 1 →
  match read_body junk hp (length h) len s with
  | Ret ((ok, hp'), s') => ∃ b d, hp' = set_svr_data d (set_cli_hdrs b hp) ∧
      if ok : bool then
        let body := take (Z.to_nat len) (x ++ input (cli (front s))) in
        Z.of_nat (length body) = len ∧ d = Buffer (Some (body ++ [0])) len (len + 1) true
      else Z.of_nat (length x) < len ∧ ¬ delivers (cli (front s)) (Z.to_nat (len - Z.of_nat (length x)))
  | Crash => maxLength (cli_hdrs hp) < len - Z.of_nat (length x)
  | Stuck => ¬ silence (cli (front s))
  | Exit _ => False
  end.
Proof.
  intros Hd Hb Hsmall Hlen. unfold read_body. rewrite Hb, i32_small by lia.
  replace (Z.of_nat (length h + length x) - Z.of_nat (length h)) with (Z.of_nat (length x)) by lia.
  rewrite Hd. change (deref (Some ?a)) with (@mret (M (px (Monitor := Monitor))) _ _ a). rewrite mret_bind.
  unfold Alloc. cbn [data blength maxLength freeMe]. change (deref (Some ?a)) with (@mret (M (px (Monitor := Monitor))) _ _ a). rewrite mret_bind.
  rewrite !(wrap_small 32 (len + 1)) by lia. set (tc := if len <=? Z.of_nat (length x) then len else Z.of_nat (length x)).
  assert (0 <= tc <= len ∧ tc <= Z.of_nat (length x) ∧ (tc = len ∨ (tc = Z.of_nat (length x) ∧ tc < len))) as (Htc&Htx&Hcase) by (unfold tc; destruct (Z.leb_spec len (Z.of_nat (length x))); lia).
  clearbody tc. rewrite (proj2 (Z.leb_le 0 tc)) by lia. rewrite (proj2 (Z.leb_le _ _)) by (len_norm; lia). cbn [andb].
  rewrite drop_app_length. assert (length (take (Z.to_nat tc) (x ++ 0 :: rest)) = Z.to_nat tc) as Htl by (rewrite length_take, length_app; lia).
  assert (∃ j, malloc junk (len + 1) = take (Z.to_nat tc) (malloc junk (len + 1)) ++ j ∧ length j = (Z.to_nat (len + 1) - Z.to_nat tc)%nat) as (j&Ej&Hj).
  { eexists. split; [symmetry; apply take_drop|]. rewrite length_drop. unfold malloc. by rewrite length_fmap, length_seq. }
  assert (store (malloc junk (len + 1)) 0 (take (Z.to_nat tc) (x ++ 0 :: rest)) = Ret (take (Z.to_nat tc) x ++ j)) as Est.
  { rewrite Ej. pose proof (store_ok [] (take (Z.to_nat tc) (malloc junk (len + 1))) j 0 (take (Z.to_nat tc) (x ++ 0 :: rest)) eq_refl) as Hs. cbn [app] in Hs.
    rewrite Hs; [by rewrite take_app_le by lia|]. rewrite Htl, length_take. unfold malloc. rewrite length_fmap, length_seq. lia. }
  rewrite (lift_x_bind _ _ _ _ Est). clear Est Ej. cbn zeta. assert (length (take (Z.to_nat tc) x) = Z.to_nat tc) as Hxl by (rewrite length_take; lia).
  set (pre := take (Z.to_nat tc) x) in *. set (hp1 := set_svr_data _ hp).
  assert (take (Z.to_nat tc) (pre ++ j) = pre) as Etk by (by rewrite <-Hxl, take_app_length).
  assert (drop (Z.to_nat tc) (pre ++ j) = j) as Edr by (by rewrite <-Hxl, drop_app_length). rewrite Etk, Edr.
  destruct (Z.ltb_spec tc len) as [Hlt|Hge].
  - destruct Hcase as [|[Htcx _]]; [lia|]. assert (pre = x) as Epre by (unfold pre; apply take_ge; lia). clearbody pre. subst pre.
    pose proof (read_into_spec hp1 j (len - tc) (cli (front s)) ltac:(lia) ltac:(lia)) as H1.
    destruct (readline_or_timeout hp1 (len - tc) (Some j) (cli (front s))) as [[[[r hp2] o] w']| | |] eqn:E; try done.
    2: { rewrite bind_crash; [change (maxLength (cli_hdrs hp1)) with (maxLength (cli_hdrs hp)) in H1; lia|]. rewrite bind_crash; [done|].
         unfold on_front, on_cli, mbind, outcome_mbind. by rewrite E. }
    2: { rewrite bind_stuck; [done|]. rewrite bind_stuck; [done|]. unfold on_front, on_cli, mbind, outcome_mbind. by rewrite E. }
    destruct H1 as (b&got&j2&Hi&->&->&Hjl&Hw&_&Hr).
    rewrite M_assoc, (bind_ret _ _ _ _ _ (on_front_ret _ _ _ _ (on_cli_ret _ _ _ _ E))). cbn beta iota.
    change (deref (Some ?a)) with (@mret (M (px (Monitor := Monitor))) _ _ a). rewrite M_assoc, !mret_bind.
    destruct Hr as [[-> Hnd]|[-> Hg]].
    + rewrite (proj2 (Z.eqb_neq _ _)) by lia. cbn [negb]. eexists b, _. split; [reflexivity|]. rewrite <-Htcx. split; [lia|done].
    + rewrite Z.eqb_refl. cbn [negb]. assert (j2 = []) as ->.
      { apply nil_length_inv. rewrite length_app in Hjl. cbn [length] in Hjl. lia. }
      rewrite (app_assoc x got), (wr_mid (x ++ got) 0 []) by (len_norm; lia).
      rewrite (lift_x_bind _ _ _ _ eq_refl). erewrite lift_x_bind; [|apply SetLength_ok; cbn [maxLength]; lia]. eexists b, _. split; [reflexivity|]. cbn zeta. rewrite Hi.
      rewrite (app_assoc x got), take_app_le, take_ge by (len_norm; lia). split; [len_norm; lia|done].
  - assert (tc = len) as -> by lia. rewrite mret_bind, Z.eqb_refl. cbn [negb].
    destruct j as [|c j]; [cbn [length] in Hj; lia|]. assert (j = []) as -> by (apply nil_length_inv; cbn [length] in Hj; lia).
    rewrite (wr_mid pre c []) by lia. rewrite (lift_x_bind _ _ _ _ eq_refl). erewrite lift_x_bind; [|apply SetLength_ok; cbn [maxLength]; lia].
    eexists (cli_hdrs hp), _. split; [by destruct hp|]. cbn zeta. rewrite take_app_le by lia. fold pre. split; [lia|done].
Qed.

(** *** POST *)

(** A write of [length d] bytes takes no notice of what follows them. *)
Lemma correct_write_prefix d more : ∀ fuel sofar w, (sofar <= length d)%nat →
  correct_write_loop fuel (d ++ more) (Z.of_nat (length d)) (Z.of_nat sofar) w = correct_write_loop fuel d (Z.of_nat (length d)) (Z.of_nat sofar) w.
Proof.
  induction fuel as [|fuel IH]; intros sofar w Hs; [done|]. cbn [correct_write_loop].
  destruct (Z.eqb_spec (Z.of_nat sofar) (Z.of_nat (length d))); [done|]. rewrite Nat2Z.id, drop_app_le by lia.
  rewrite take_app_le by (rewrite length_drop; lia). set (t := take _ _).
  assert (length t <= length d - sofar)%nat as Ht by (unfold t; rewrite length_take, length_drop; lia). clearbody t.
  unfold mbind, M_mbind. unfold sys_write. destruct (xfers w) as [|[k|e] r]; [done| |].
  - destruct (_ <=? 0); [destruct (transient _ _); [by apply IH|done]|]. replace (Z.of_nat sofar + Z.of_nat (k `min` length t)) with (Z.of_nat (sofar + k `min` length t)) by lia.
    apply IH. lia.
  - change (-1 <=? 0) with true. cbn iota. destruct (transient _ _); [by apply IH|done].
Qed.

Lemma correct_write_app d more w : correct_write (d ++ more) (Z.of_nat (length d)) w = correct_write d (Z.of_nat (length d)) w.
Proof.
  unfold correct_write. rewrite !(bind_ret get _ _ _ _ eq_refl). unfold data_len. rewrite (proj2 (Z.eqb_neq _ (-1))) by lia.
  exact (correct_write_prefix d more (io_fuel w) 0 w ltac:(lia)).
Qed.
Lemma sends_ext (m m' : IO Z) req ok : (∀ w, m w = m' w) → sends m' req ok → sends m req ok.
Proof. intros E Hs w. rewrite E. apply Hs. Qed.

Lemma post_sends u h body more : (4 <= length h)%nat →
  sends (do_http_send u (Some h) (body ++ more) (Z.of_nat (length body)) true ICP_POST) (request_bytes u (Some h) body true ICP_POST) 1.
Proof.
  intros H4. eapply sends_ext; [|apply (do_http_send_sends u (Some h) body true ICP_POST); [set_solver +|exact H4]]. intros w.
  assert (∀ w, (if negb (Z.of_nat (length body) =? 0) then write_all (body ++ more) (Z.of_nat (length body)) (mret 1) else mret 1) w =
               (if negb (Z.of_nat (length body) =? 0) then write_all body (Z.of_nat (length body)) (mret 1) else mret 1) w) as Hd.
  { intros w0. destruct (negb _); [|done]. unfold write_all, mbind, M_mbind.
    by rewrite correct_write_app. }
  assert (∀ t n (k k' : IO Z) w, (∀ w, k w = k' w) → write_all t n k w = write_all t n k' w) as Hk.
  { intros t n k k' w0 E. unfold write_all, mbind, M_mbind. destruct (correct_write t n w0) as [[r w1]| | |]; [|done..]. cbn. destruct (negb (r =? n)); [reflexivity|exact (E w1)]. }
  unfold do_http_send. change (ICP_POST =? ICP_GET) with false. change ((ICP_POST =? ICP_POST) || (ICP_POST =? ICP_HEAD)) with true. cbn iota. rewrite !mret_bind. cbn zeta.
  unfold lift_o, mbind, M_mbind. destruct (ends_blank h) as [b| | |]; cbn; [|done..]. destruct b; by apply Hk.
Qed.

Lemma store_prefix h x q : (length x <= length h)%nat → store (h ++ q) 0 x = Ret (x ++ drop (length x) h ++ q).
Proof.
  intros Hl. pose proof (store_ok [] (take (length x) h) (drop (length x) h ++ q) 0 x eq_refl ltac:(rewrite length_take; lia)) as E.
  cbn [app] in E. by rewrite (app_assoc (take _ _)), take_drop in E.
Qed.

(** A POST of which all bytes have been read with the headers. *)
Lemma do_post_spec hp u h body rest t n p1 f c ps k s : url hp = Some u →
  data (cli_hdrs hp) = Some (h ++ body ++ 0 :: rest) → no_nul h → no_nul body → strstr h (crlf ++ crlf) = Some (length h - 4)%nat → (4 <= length h)%nat →
  header_text (cli_hdrs hp) (bytes_of "content-length") = Ret (Some (t, n)) → strtoul t = Z.of_nat (length body) → Z.of_nat (length body) < 2 ^ 31 - 100 →
  no_nul (canonical (take k (input c))) → cache_answers u p1 f c ps k (request_bytes u (Some h) body true ICP_POST) (cache (front s)) →
  ∃ b s', do_post nm part_opts getsockname junk hp s = Ret ((HTTP_NO_ERR,
      set_svr_data (whole_block (drop k (input c)) (length (drop k (input c))))
        (set_svr_hdrs (whole_block (canonical (take k (input c))) (S (length (canonical (take k (input c)))))) (set_cli_hdrs b hp))), s') ∧
    answered c (request_bytes u (Some h) body true ICP_POST) s s'.
Proof.
  intros Hu Hd Hh Hbody Hend H4 Hcl Hlen Hsm Hn (Hsock&Hpeers&Hlive&Hmoves&Hcut&Hword&Hk).
  assert (buf_str (cli_hdrs hp) = Ret (h ++ body)) as Hstr.
  { unfold buf_str. rewrite Hd. pose proof (cstr_at_app [] (h ++ body) rest ltac:(by apply no_nul_app)) as E. cbn [app length] in E. rewrite <-app_assoc in E. by rewrite E. }
  unfold do_post. rewrite (lift_x_bind _ _ _ _ Hcl), Hlen, i32_small by lia. rewrite (proj2 (Z.ltb_ge _ 0)) by lia.
  rewrite (lift_x_bind _ _ _ _ Hstr), (strstr_app _ body _ _ Hend). replace (length h - 4 + 4)%nat with (length h) by lia. cbn zeta.
  rewrite drop_app_length, (proj2 (Z.ltb_lt (Z.of_nat (length body) + 100) (2 ^ 31))) by lia.
  set (m := malloc junk (Z.of_nat (length body) + 100)). assert (length m = (length body + 100)%nat) as Hm by (unfold m, malloc; rewrite length_fmap, length_seq; lia).
  pose proof (store_prefix m body [] ltac:(lia)) as Est. rewrite !app_nil_r in Est. rewrite (lift_x_bind _ _ _ _ Est).
  rewrite Hd. change (deref (Some ?a)) with (@mret (M (px (Monitor := Monitor))) _ _ a). rewrite mret_bind.
  assert (∃ blk, wr (h ++ body ++ 0 :: rest) (Z.of_nat (length h)) 0 = Ret blk ∧ cstr_at blk 0 = Some h) as (blk&Ew&Ec).
  { destruct body as [|x body]; cbn [app]; rewrite (wr_mid h) by done; eexists; (split; [done|]); apply (cstr_at_app [] h); done. }
  rewrite (lift_x_bind _ _ _ _ Ew). rewrite Z.sub_diag. change (i32 0) with 0.
  change (0 <? 0) with false. cbn iota. rewrite mret_bind. cbn beta iota. cbn [url set_cli_hdrs]. rewrite Hu. change (deref (Some u)) with (@mret (M (px (Monitor := Monitor))) _ _ u). rewrite mret_bind.
  cbn [cli_hdrs]. set (b := Buffer (Some blk) _ _ _). assert (buf_str b = Ret h) as Hb by (unfold buf_str; cbn [data b]; by rewrite Ec). rewrite (lift_x_bind _ _ _ _ Hb).
  destruct (transact_ok nm part_opts getsockname junk u _ _ no_data (cache (front s)) p1 f c ps k (length (peers (cache (front s))))
    (post_sends u h body (drop (length body) m) H4) Hsock Hpeers Hlive Hmoves Hcut Hword Hk) as (c2 & c' & E & Hp2 & Htk & Hw & Hf).
  assert (on_front (on_cache (Clib_Post nm part_opts getsockname junk u (Some h) (body ++ drop (length body) m) (Z.of_nat (length body)) no_data)) s =
    Ret ((CLIB_OK, response_data (input c) k), Px (Fe (cli (front s)) c2) (calls s))) as Ef.
  { apply on_front_ret, on_cache_ret. unfold Clib_Post. rewrite (bind_ret get _ _ _ _ eq_refl). exact E. }
  step_with Ef. change (negb (CLIB_OK =? CLIB_OK)) with false. cbn iota. destruct (response_sizes _ _ Hk Hcut Hn) as (Em&Ed&Hlen1&Hdl).
  rewrite Em, Ed. cbn [mime_headers response_data cptr_block Clib.data]. unfold FreeMe, StaticBuffer. cbn [data blength maxLength].
  rewrite !wrap_small by lia. unfold whole_block. rewrite Nat2Z.inj_succ. change Z.succ with (λ n, n + 1). cbn beta.
  eexists b, _. split; [reflexivity|]. split; [done|split; [done|by exists c']].
Qed.
End ServerLemmas.

(** ** Properties *)

(** The length of the body that the headers announce. *)
Definition announces (hp : Request) (len : option Z) : Prop :=
  ∃ val, header_text (cli_hdrs hp) (bytes_of "content-length") = Ret val ∧
    match val, len with Some (t, _), Some l => strtoul t = l ∧ 0 <= l < 2 ^ 31 - 1 | None, None => True | _, _ => False end.

(** C18. A request in the front end's own name space goes to the worker whole,
    when the text "X-Route" occurs in its headers only as the name of fields:
    the client's headers, in which only the route has been replaced by that to
    the worker, and the body of the announced length, however much of it came
    with the headers and in whatever pieces the rest comes. It fails only when
    the bytes that are outstanding do not come over the connection, and aborts
    only when more of them are outstanding than the header buffer has room
    for. *)
Theorem worker_request {Monitor} `{Digest} (nm : names) (part_opts : bytes → option bytes) (getsockname : Z → Z * sockaddr_in) (junk : nat → byte)
    (fe_agg_string : bytes) (worker_option : option bytes) (al : ArgumentList) (hp : Request) (u st : bytes) (fs : list field) (x rest : bytes) (len : option Z)
    (s : px (Monitor := Monitor)) (worker := default (bytes_of "myurl/dispatch") worker_option)
    (Hu : url hp = Some u) (Hserver : is_server_url fe_agg_string u = true)
    (Hd : data (cli_hdrs hp) = Some (render st fs ++ x ++ 0 :: rest)) (Hb : blength (cli_hdrs hp) = Z.of_nat (length (render st fs) + length x))
    (Hend : strstr (render st fs) (crlf ++ crlf) = Some (length (render st fs) - 4)%nat) (Hnn : no_nul (render st fs))
    (Hst : no_nul st) (Hf : Forall field_ok fs) (Hc : clean (bytes_of "X-Route") st fs) (Hw : no_nul worker)
    (Hsmall : Z.of_nat (length (render st fs) + length x + length worker) < 2 ^ 30) (Hlen : announces hp len) :
  match server_dispatch nm part_opts getsockname junk fe_agg_string worker_option al hp s with
  | Ret ((status, hp', _), s') =>
      (status = HTTP_NO_ERR ∧ svr_http_status hp' = 200 ∧
       holds (svr_hdrs hp') (render st (remove_field (bytes_of "X-Route") fs ++ [(bytes_of "X-Route", worker)])) ∧
       match len with
       | Some l => let body := take (Z.to_nat l) (x ++ input (cli (front s))) in
           Z.of_nat (length body) = l ∧ svr_data hp' = Buffer (Some (body ++ [0])) l (l + 1) true
       | None => svr_data hp' = svr_data hp
       end) ∨
      (status = HTTP_ERR_MALFORMED_REQUEST ∧ ∃ l, len = Some l ∧ Z.of_nat (length x) < l ∧
       ¬ delivers (cli (front s)) (Z.to_nat (l - Z.of_nat (length x))))
  | Crash => ∃ l, len = Some l ∧ maxLength (cli_hdrs hp) < l - Z.of_nat (length x)
  | Stuck => ¬ silence (cli (front s))
  | Exit _ => False
  end.
Proof.
  destruct Hlen as (val&Ev&Hval). destruct (buf_str_prefix _ _ _ _ Hd Hnn) as [y Ey].
  unfold server_dispatch. rewrite Hu. change (deref (Some u)) with (@mret (M (px (Monitor := Monitor))) _ _ u). rewrite mret_bind, Hserver.
  unfold worker_dispatch. rewrite M_assoc, (lift_x_bind _ _ _ _ Ey), (strstr_app _ y _ _ Hend).
  assert (4 <= length (render st fs))%nat as H4.
  { apply strstr_match in Hend. unfold match_at in Hend. apply (f_equal length) in Hend. rewrite length_take, length_drop in Hend. cbn [length crlf app] in Hend. lia. }
  replace (length (render st fs) - 4 + 4)%nat with (length (render st fs)) by lia.
  destruct (clone_headers_spec junk hp (render st fs) y Hnn ltac:(lia)) as (b&Eb&Hh). rewrite M_assoc, (lift_x_bind _ _ _ _ Eb). cbn [cli_hdrs set_svr_hdrs].
  rewrite M_assoc, (lift_x_bind _ _ _ _ Ev). set (hp1 := set_svr_hdrs b hp).
  destruct (insert_render junk b (bytes_of "X-Route") st fs worker true Hh) as (b'&Ei&Hi); try done.
  { by apply special_ok; unfold special; set_solver. }
  { unfold fits. change (length (bytes_of "X-Route")) with 7%nat. lia. }
  destruct val as [[t n]|], len as [l|]; try done.
  - destruct Hval as [El Hl]. rewrite El, i32_small by lia. rewrite (proj2 (Z.ltb_ge l 0)) by lia.
    pose proof (read_body_spec junk hp1 (render st fs) x rest l s Hd Hb ltac:(lia) Hl) as Hr. rewrite M_assoc.
    destruct (read_body junk hp1 (length (render st fs)) l s) as [[[ok hp2] s2]| | |] eqn:Er.
    + rewrite (bind_ret _ _ _ _ _ Er). destruct Hr as (c&d&->&Hr). cbn beta iota. destruct ok; cbn iota.
      * cbn [svr_hdrs set_svr_data set_cli_hdrs hp1 set_svr_hdrs]. rewrite M_assoc, (lift_x_bind _ _ _ _ Ei), !mret_bind.
        cbn beta iota. left. split; [done|]. split; [done|]. split; [exact Hi|]. destruct Hr as [Hr1 Hr2]. split; [exact Hr1|exact Hr2].
      * rewrite mret_bind. right. split; [done|]. by exists l.
    + done.
    + rewrite (bind_crash _ _ _ Er). by exists l.
    + by rewrite (bind_stuck _ _ _ Er).
  - rewrite M_assoc, mret_bind. cbn beta iota. cbn [svr_hdrs set_svr_hdrs hp1]. rewrite M_assoc, (lift_x_bind _ _ _ _ Ei), !mret_bind.
    cbn beta iota. left. split_and!; try done.
Qed.

(** C19. A POST whose body contains no NUL, and of which all bytes have been
    read with its headers, is forwarded whole over a live connection to the
    cache: the server receives the request line, all that the client sent up
    to the blank line, and the body. When the answer is within the cut-through
    limit its data are kept, its headers are kept in the form that the client
    library gives them (every end of line CR LF, and a length that counts the
    NUL behind them), and its status is the one reported. *)
Theorem post_forwarded {Monitor} `{Digest} (nm : names) (part_opts : bytes → option bytes) (getsockname : Z → Z * sockaddr_in) (junk : nat → byte)
    (fe_agg_string : bytes) (worker_option : option bytes) (al : ArgumentList) (hp : Request) (u m h body rest : bytes) (status : Z)
    (s : px (Monitor := Monitor)) (p1 : part_state Monitor) (f : Z) (c : io) (ps : list io) (k : nat) (headers := canonical (take k (input c)))
    (Hu : url hp = Some u) (Hserver : is_server_url fe_agg_string u = false) (Hm : method hp = Some m) (Hpost : head_byte m = 112 ∨ head_byte m = 80)
    (Hd : data (cli_hdrs hp) = Some (h ++ body ++ 0 :: rest)) (Hh : no_nul h) (Hbody : no_nul body)
    (Hend : strstr h (crlf ++ crlf) = Some (length h - 4)%nat) (H4 : (4 <= length h)%nat)
    (Hlen : announces hp (Some (Z.of_nat (length body)))) (Hsmall : Z.of_nat (length body) < 2 ^ 31 - 100)
    (Hhdrs : no_nul headers) (Hst : scan_status headers = Some status)
    (Hcache : cache_answers nm part_opts u p1 f c ps k (request_bytes u (Some h) body true ICP_POST) (cache (front s))) :
  ∃ hp' s', server_dispatch nm part_opts getsockname junk fe_agg_string worker_option al hp s = Ret ((HTTP_NO_ERR, hp', 0), s') ∧
    svr_hdrs hp' = whole_block headers (S (length headers)) ∧ svr_data hp' = whole_block (drop k (input c)) (length (drop k (input c))) ∧
    svr_http_status hp' = status ∧ answered c (bytes_of "POST " ++ u ++ bytes_of " HTTP/1.0" ++ crlf ++ h ++ body) s s'.
Proof.
  destruct Hlen as ([[t n]|]&Ev&Hval); [|done]. destruct Hval as [El Hl].
  destruct (do_post_spec nm part_opts getsockname junk hp u h body rest t n p1 f c ps k s Hu Hd Hh Hbody Hend H4 Ev El Hsmall Hhdrs Hcache) as (b&s'&E&Ha).
  unfold server_dispatch. rewrite Hu. change (deref (Some u)) with (@mret (M (px (Monitor := Monitor))) _ _ u). rewrite mret_bind, Hserver, Hm.
  change (deref (Some m)) with (@mret (M (px (Monitor := Monitor))) _ _ m). rewrite mret_bind.
  replace ((head_byte m =? 103) || (head_byte m =? 71)) with false by (destruct Hpost as [-> | ->]; reflexivity).
  step_with E. rewrite bool_decide_true by done. cbn [negb svr_hdrs set_svr_data set_svr_hdrs].
  assert (buf_str (whole_block headers (S (length headers))) = Ret headers) as Hb.
  { unfold buf_str, whole_block. cbn [data]. pose proof (cstr_at_app [] headers [] Hhdrs) as Ec. cbn [app length] in Ec. by rewrite Ec. }
  rewrite (lift_x_bind _ _ _ _ Hb), Hst. eexists _, s'. split; [reflexivity|]. split; [done|]. split; [done|]. split; [done|].
  assert (request_bytes u (Some h) body true ICP_POST = bytes_of "POST " ++ u ++ bytes_of " HTTP/1.0" ++ crlf ++ h ++ body) as <-; [|exact Ha].
  unfold request_bytes. change (method_of ICP_POST) with (bytes_of "POST "). rewrite bool_decide_true.
  - by rewrite <-!(app_assoc (bytes_of " HTTP/1.0")).
  - apply strstr_match in Hend. unfold match_at in Hend. change (crlf ++ crlf) with (CRLF ++ CRLF) in Hend. rewrite <-Hend.
    rewrite take_ge; [done|]. rewrite length_drop. cbn [length CRLF app]. lia.
Qed.

(** ** Witnesses and examples *)

Definition cleanb (which status : bytes) (fs : list field) : bool :=
  negb (occursb which status) && forallb (λ f, bool_decide (same_name f.1 which) || negb (occursb which (f.1 ++ [58; 32] ++ f.2))) fs.
Lemma clean_check which status fs : which ≠ [] → cleanb which status fs = true → clean which status fs.
Proof.
  intros Hw Hb. unfold cleanb in Hb. apply andb_prop in Hb as [Hs Hf]. split; [apply occursb_false; [done|by apply negb_true_iff]|].
  rewrite forallb_forall in Hf. apply Forall_forall. intros f Hin. specialize (Hf f ltac:(by apply list_elem_of_In)).
  apply orb_prop in Hf as [Hf|Hf]; [left; by apply bool_decide_eq_true in Hf|right]. apply occursb_false; [done|by apply negb_true_iff].
Qed.

(** A form that is sent to [url], the first two bytes of its body having come
    with the headers, the others to come. *)
Definition form_line (url : bytes) : bytes := bytes_of "POST " ++ url ++ bytes_of " HTTP/1.0".
Definition form_fields : list field := [(bytes_of "X-Route", bytes_of "evil"); (bytes_of "Content-Length", bytes_of "4")].
Definition form_request (url : bytes) (body : bytes) : Request :=
  let text := render (form_line url) form_fields ++ body in
  set_cli_hdrs (Buffer (Some (text ++ 0 :: replicate 20 7)) (Z.of_nat (length text)) 150 true)
    (set_method (Some (bytes_of "POST")) (set_url (Some url) init_Request)).
Definition form_px (rest : bytes) (conns : list io) : px (Monitor := unit) :=
  Px (Fe (demo_client rest) (ClibState (parts demo_clib) (query_tv demo_clib) (udp_retries demo_clib) conns [])) [].
Definition demo_getsockname (fd : Z) : Z * sockaddr_in := (0, SockAddr 0 0).

Lemma form_fields_ok : Forall field_ok form_fields.
Proof. repeat (constructor; [apply field_ok_check; reflexivity|]). constructor. Qed.

Lemma worker_request_witness : ∃ hp' s',
  server_dispatch demo_names demo_opts demo_getsockname (λ _, 7) (bytes_of "http://agg.") None demo_prefs (form_request (bytes_of "/x") (bytes_of "ab"))
    (form_px (bytes_of "cd") []) = Ret ((HTTP_NO_ERR, hp', 0), s') ∧
  holds (svr_hdrs hp') (render (form_line (bytes_of "/x")) [(bytes_of "Content-Length", bytes_of "4"); (bytes_of "X-Route", bytes_of "myurl/dispatch")]) ∧
  svr_data hp' = Buffer (Some (bytes_of "abcd" ++ [0])) 4 5 true.
Proof.
  pose proof (worker_request demo_names demo_opts demo_getsockname (λ _, 7) (bytes_of "http://agg.") None demo_prefs (form_request (bytes_of "/x") (bytes_of "ab"))
    (bytes_of "/x") (form_line (bytes_of "/x")) form_fields (bytes_of "ab") (replicate 20 7) (Some 4) (form_px (bytes_of "cd") []) eq_refl eq_refl eq_refl eq_refl) as H.
  assert ((λ r, (r.1.1.1, r.1.2)) <$> server_dispatch demo_names demo_opts demo_getsockname (λ _, 7) (bytes_of "http://agg.") None demo_prefs
    (form_request (bytes_of "/x") (bytes_of "ab")) (form_px (bytes_of "cd") []) = Ret (HTTP_NO_ERR, 0)) as E by (vm_compute; reflexivity).
  destruct (server_dispatch _ _ _ _ _ _ _ _ _) as [[[[st hp'] age] s']| | |]; [|discriminate..]. cbn in E. injection E as -> ->. exists hp', s'.
  split; [reflexivity|]. destruct H as [(_&_&Hh&_&Hd)|[? _]]; [..|discriminate].
  - vm_compute. reflexivity.
  - unfold no_nul. apply (bool_decide_unpack _). vm_compute. exact I.
  - unfold no_nul. apply (bool_decide_unpack _). vm_compute. exact I.
  - exact form_fields_ok.
  - apply clean_check; [discriminate|vm_compute; reflexivity].
  - unfold no_nul. apply (bool_decide_unpack _). vm_compute. exact I.
  - vm_compute. reflexivity.
  - eexists. split; [vm_compute; reflexivity|]. split; [vm_compute; reflexivity|]. split; [discriminate|vm_compute; reflexivity].
  - split; [exact Hh|exact Hd].
Defined.

(** The same form for another server: when its body comes in two pieces, the
    second piece is stored over the first one. *)
Definition form_conn : io := Io (replicate 400 (Moved 1)) [] [] demo_response.
Lemma post_forwarded_witness : ∃ hp' s',
  server_dispatch demo_names demo_opts demo_getsockname (λ _, 7) (bytes_of "http://agg.") None demo_prefs (form_request demo_url (bytes_of "abcd"))
    (form_px [] [form_conn]) = Ret ((HTTP_NO_ERR, hp', 0), s') ∧ svr_http_status hp' = 200 ∧ svr_data hp' = whole_block (bytes_of "hi") 2 ∧
    answered form_conn (bytes_of "POST " ++ demo_url ++ bytes_of " HTTP/1.0" ++ crlf ++ render (form_line demo_url) form_fields ++ bytes_of "abcd") (form_px [] [form_conn]) s'.
Proof.
  destruct (post_forwarded demo_names demo_opts demo_getsockname (λ _, 7) (bytes_of "http://agg.") None demo_prefs (form_request demo_url (bytes_of "abcd"))
    demo_url (bytes_of "POST") (render (form_line demo_url) form_fields) (bytes_of "abcd") (replicate 20 7) 200 (form_px [] [form_conn])) with (p1 := (match Part_GetTCPsock demo_names demo_opts demo_url (parts demo_clib) with Ret (_, p) => p | _ => parts demo_clib end)) (f := 3) (c := form_conn) (ps := @nil io) (k := 17%nat) as (hp'&s'&E&_&Hd&Hst&Ha).
  - reflexivity.
  - vm_compute. reflexivity.
  - reflexivity.
  - right. reflexivity.
  - reflexivity.
  - unfold no_nul. apply (bool_decide_unpack _). vm_compute. exact I.
  - unfold no_nul. apply (bool_decide_unpack _). vm_compute. exact I.
  - vm_compute. reflexivity.
  - apply Nat.leb_le. vm_compute. reflexivity.
  - eexists. split; [vm_compute; reflexivity|]. split; [vm_compute; reflexivity|]. split; [discriminate|vm_compute; reflexivity].
  - reflexivity.
  - unfold no_nul. apply (bool_decide_unpack _). vm_compute. exact I.
  - vm_compute. reflexivity.
  - unfold cache_answers. split_and!; [vm_compute; reflexivity|reflexivity|vm_compute; reflexivity|apply Nat.ltb_lt; vm_compute; reflexivity|vm_compute; discriminate|vm_compute; reflexivity|vm_compute; reflexivity].
  - exists hp', s'. split; [exact E|]. split; [exact Hst|]. split; [exact Hd|exact Ha].
Defined.

Example post_in_two_pieces :
  match server_dispatch demo_names demo_opts demo_getsockname (λ _, 7) (bytes_of "http://agg.") None demo_prefs (form_request demo_url (bytes_of "ab"))
    (form_px (bytes_of "cd") [form_conn]) with
  | Ret ((st, _, _), s') => st = HTTP_NO_ERR ∧ (match talks (cache (front s')) with c :: _ => drop (length (wire c) - 4) (wire c) | [] => [] end) = bytes_of "cd" ++ [0; 7]
  | _ => False
  end.
Proof. vm_compute. split; reflexivity. Qed.

(** A body that is longer than its announced length by more than 100 bytes
    overruns the buffer. *)
Example post_overflows :
  do_post demo_names demo_opts demo_getsockname (λ _, 7) (form_request demo_url (replicate 105 97)) (form_px [] [form_conn]) = Crash.
Proof. vm_compute. reflexivity. Qed.

(** For a user who wants to be anonymous the headers are empty, and the client
    library looks at the four bytes in front of them. *)
Example anonymous_underread :
  do_get demo_names demo_opts demo_getsockname (λ _, 7) (form_request demo_url [])
    (MkArgumentList 1 (SET_ARG_INT (blank_arg FRONT_ANONYMIZE) 1 :: replicate 49 (blank_arg 0))) (form_px [] [form_conn]) = Crash.
Proof. vm_compute. reflexivity. Qed.

(** A document over the cut-through limit, whose rest is to be read from the
    descriptor that is returned, is reported as an error, and the descriptor
    stays open. *)
Lemma cutthrough_lost {Monitor} `{Digest} (nm : names) (part_opts : bytes → option bytes) (getsockname : Z → Z * sockaddr_in) (junk : nat → byte)
    (hp : Request) (al : ArgumentList) (u text : bytes) (dat : clib_data) (s : px (Monitor := Monitor)) (cs : clib_state Monitor) :
  url hp = Some u → args_ok al → find_arg FRONT_ANONYMIZE (used al) = None → holds (cli_hdrs hp) text → length (errmsg hp) = S HTTP_ERRMSG_MAX →
  Clib_Fetch nm part_opts getsockname junk u (Some text) no_data (cache (front s)) = Ret ((CLIB_CUTTHROUGH, dat), cs) →
  ∃ hp', do_get nm part_opts getsockname junk hp al s = Ret ((HTTP_ERR_CACHE, hp'), Px (Fe (cli (front s)) cs) (calls s)).
Proof.
  intros Hu Hal Hano Ht He E. unfold do_get. rewrite Hu. change (deref (Some u)) with (@mret (M (px (Monitor := Monitor))) _ _ u). rewrite mret_bind.
  rewrite (lift_x_bind _ _ _ _ (get_argument_spec al FRONT_ANONYMIZE Hal)), Hano. pose proof (holds_str _ _ Ht) as Hstr. destruct Ht as (rest&Hd&_). rewrite Hd.
  rewrite M_assoc, (lift_x_bind _ _ _ _ Hstr), mret_bind. rewrite (bind_ret _ _ _ _ _ (on_front_ret _ _ _ _ (on_cache_ret _ _ _ _ E))). cbn beta iota.
  change (CLIB_CUTTHROUGH =? CLIB_OK) with false. cbn iota.
  destruct (clib_strerror CLIB_CUTTHROUGH) as [msg| | |] eqn:Em; [|vm_compute in Em; discriminate..]. rewrite (lift_x_bind _ msg _ _ eq_refl). unfold snprintf. change (Z.of_nat HTTP_ERRMSG_MAX =? 0) with false. cbn iota.
  rewrite <-(app_nil_r (errmsg hp)), store_prefix.
  2: { rewrite He, length_app, length_take. cbn [length]. change (Z.to_nat (Z.of_nat HTTP_ERRMSG_MAX - 1)) with 511%nat. change HTTP_ERRMSG_MAX with 512%nat. lia. }
  cbn [mbind outcome_mbind]. rewrite (lift_x_bind _ _ _ _ eq_refl). by eexists.
Qed.
