(* ===== verification/HttpGo.v ===== *)
(** * Serving a request (frontend/src/httpgo.c)

    The procedure that a worker thread runs for a connection: it reads and
    parses the request, looks up the user's preferences, handles the requests
    about preferences itself, tunnels what is neither GET nor POST, and gets
    the document of the others, which it passes on unchanged or distilled.
    Over all components of the front end; instrumentation and logging are left
    out. *)

From S2P Require Import Prelude CString SockIO Md5 Config Partition Icp Clib HttpHeaders HttpComm Args UserPrefs UrlMagic Dispatch Server.
Open Scope Z_scope.

(** ** Data *)
Definition PERF_FRONT_MTU : Z := 1024.
Definition TRANSEND_STATUS_HEADER : bytes := bytes_of "X-Proxy-Status".
Definition TRANSEND_ERROR_HEADER : bytes := bytes_of "X-Proxy-Error".
Definition USERKEY_NULL : Z := 0.

(** The fields of a task that are used. *)
Record task_t := MkTask { task_parent : Z; task_child_index : Z; task_metadata : option bytes }.

(** [strncat(dst, s, n)] for the string in the block [dst]. *)
Definition strncat (dst s : bytes) (n : nat) : outcome bytes :=
  match cstr_at dst 0 with
  | Some d => store dst (Z.of_nat (length d)) (take n s ++ [0])
  | None => Crash
  end.

Section HttpGo.
Context `{Digest} {Monitor DB : Type} `{!Gdbm DB}.
Variable nm : names.
Variable part_opts : bytes → option bytes.
Variable getsockname : Z → Z * sockaddr_in.
Variable junk : nat → byte.
Variable Distill : list call → call → DistillerStatus * DistillerData.
(** The options. *)
Variable fe_agg_string fe_prefs_set_url_string fe_get_prefs_url : bytes.
Variable worker_option : option bytes.
(** What is on the stack: an argument list, and the variable [dout]. *)
Variable stack_list : ArgumentList.
Variable stack_dout : DistillerData.
(** The address of the client, unless [getpeername] fails. *)
Variable getpeername : option Z.

Record go := Go { px_of : px (Monitor := Monitor); prefs_db : prefs_state (DB := DB); closed : bool }.
Abbreviation GO := (M go).
Definition on_px {A} (m : M px A) : GO A := λ s, '(a, p) ← m (px_of s); Ret (a, Go p (prefs_db s) (closed s)).
Definition on_prefs {A} (m : M prefs_state A) : GO A := λ s, '(a, p) ← m (prefs_db s); Ret (a, Go (px_of s) p (closed s)).
Definition to_client {A} (m : IO A) : GO A := on_px (on_front (on_cli m)).
Definition lift_g {A} (o : outcome A) : GO A := λ s, a ← o; Ret (a, s).

Definition userkey_from_sock_ipaddr : Z := match getpeername with Some a => a | None => USERKEY_NULL end.

(** ** Parts of [http_go_proc] *)

(** The arguments in the URL. *)
Definition demagic (h : Request) (prefs : ArgumentList) : GO (Request * ArgumentList) :=
  u ← deref (url h);
  if is_magic u then
    '(_, blk, prefs) ← lift_g (from_magic u (u ++ [0]) prefs);
    u ← deref (cstr_at blk 0);
    mret (set_url (Some u) h, prefs)
  else mret (h, prefs).

Definition prefs_set_page : bytes :=
  bytes_of "<html><head><title>Preferences Set</title></head><body><center><h1>Preferences set</h1>Your new preferences have been set.  Press the back button twice to resume browsing.<p></center></body></html>".

Definition set_prefs (h : Request) (u : bytes) (k : Z) : GO () :=
  '(result, msg) ← on_prefs (parse_and_change_prefs stack_list u k);
  errm ← match msg with
         | Some m => '(e, _) ← lift_g (snprintf (errmsg h) 0 (Z.of_nat HTTP_ERRMSG_MAX) m); mret e
         | None => mret (errmsg h)
         end;
  if decide (result = HTTP_NO_ERR) then
    _ ← to_client (correct_write (bytes_of "HTTP/1.0 200" ++ crlf ++ bytes_of "Content-type: text/html" ++ crlf ++ crlf) (-1));
    _ ← to_client (correct_write prefs_set_page (-1));
    mret ()
  else to_client (http_error_return (set_errmsg errm h) result).

(** The client's address as an argument behind the others. *)
Definition add_client_ip (prefs : ArgumentList) (k : Z) : outcome ArgumentList :=
  x ← arg_at (arg prefs) (nargs prefs);
  l ← arg_set (arg prefs) (nargs prefs) (SET_ARG_ID (SET_ARG_INT x k) FRONT_CLIENT_IP);
  Ret (MkArgumentList (nargs prefs + 1) l).

(** Why the document is not to be distilled. *)
Definition bypass_reason (h : Request) (thresh : Z) (no_distill : bool) : outcome (option bytes) :=
  content_type ← header_text (svr_hdrs h) (bytes_of "content-type");
  let content_type := match content_type with Some (t, _) => t | None => bytes_of "application/octet-stream" end in
  let is_text_html := (strncasecmp content_type (bytes_of "text/html") 9 =? 0) || (strncasecmp content_type (bytes_of "text/plain") 10 =? 0) in
  u ← match url h with Some u => Ret u | None => Crash end;
  if is_server_url fe_agg_string u then Ret None
  else if negb (svr_http_status h =? 200) then Ret (Some (bytes_of "201 Non-OK server status"))
  else if negb is_text_html && (blength (svr_data h) <=? u32 thresh) then
    Ret (Some (bytes_of "202 content-type not text/html and content-length too short"))
  else if no_distill : bool then Ret (Some (bytes_of "203 distillation not indicated"))
  else Ret None.

Definition diagnostic : bytes := bytes_of "<i>[set arg <tt>i" ++ dec FRONT_DEVELOPER ++ bytes_of "</tt> to 0 to suppress this diagnostic]</i><br>".

(** What the client gets after the distillation. *)
Definition finish_distillation (h : Request) (prefs : ArgumentList) (u : bytes) (dist_result : DistillerStatus) : GO () :=
  match dist_result with
  | distOk =>
      '(_, b) ← lift_g (insert_header junk TRANSEND_STATUS_HEADER (bytes_of "200 distillation OK") false (pxy_hdrs h));
      _ ← to_client (write_buffer b);
      _ ← to_client (write_buffer (pxy_data h));
      mret ()
  | distDistillerNotFound | distLaunchTimeout | distBadInput | distConnectionBroken =>
      '(_, b) ← lift_g (insert_header junk (if decide (dist_result = distBadInput) then TRANSEND_STATUS_HEADER else TRANSEND_ERROR_HEADER)
                          (FE_getDistillerStatusString dist_result) false (svr_hdrs h));
      let h := set_svr_hdrs b h in
      arg ← lift_g (getArgumentFromIdInList prefs FRONT_DEVELOPER);
      if match arg with Some x => negb (ARG_INT x =? 0) | None => false end then
        '(e, tmp_len) ← lift_g (snprintf (errmsg h) 0 (Z.of_nat HTTP_ERRMSG_MAX) diagnostic);
        e ← lift_g (strncat e (FE_getDistillerStatusString dist_result) (Z.to_nat (Z.of_nat HTTP_ERRMSG_MAX - tmp_len - 1)));
        to_client (http_error_return (set_errmsg e h) HTTP_ERR_UNSPECIFIED)
      else if is_server_url fe_agg_string u then
        e ← lift_g (store (errmsg h) 0 (u ++ [0]));
        to_client (http_error_return (set_errmsg e h) HTTP_ERR_AGGREGATOR_ERROR)
      else to_client (complete_bypass h)
  | distRedispatch =>
      '(e, _) ← lift_g (snprintf (errmsg h) 0 (Z.of_nat HTTP_ERRMSG_MAX) (dec (Z.of_nat PERF_REQUEST_TTL)));
      to_client (http_error_return (set_errmsg e h) HTTP_ERR_ROUTING_ERROR)
  | _ =>
      '(_, b) ← lift_g (insert_header junk TRANSEND_STATUS_HEADER (FE_getDistillerStatusString dist_result) false (svr_hdrs h));
      to_client (http_error_return (set_svr_hdrs b h) HTTP_ERR_UNSPECIFIED)
  end.

(** The document has been fetched: it goes to the client, or to the
    distillers. *)
Definition deliver (h : Request) (prefs : ArgumentList) (u : bytes) (age thresh : Z) (no_distill : bool) : GO Request :=
  reason ← lift_g (bypass_reason h thresh no_distill);
  match reason with
  | Some r =>
      '(_, b) ← lift_g (insert_header junk TRANSEND_STATUS_HEADER r false (svr_hdrs h));
      let h := set_svr_hdrs b h in
      _ ← to_client (complete_bypass h); mret h
  | None =>
      '(dist_result, h, _) ← on_px (proxy_dispatch junk Distill fe_agg_string prefs h age stack_dout);
      _ ← finish_distillation h prefs u dist_result; mret h
  end.

(** A GET or a POST, or a URL of the front end: the request at the end. *)
Definition serve_page (h : Request) (prefs : ArgumentList) (u : bytes) (k thresh : Z) (no_distill : bool) : GO Request :=
  prefs ← lift_g (add_client_ip prefs k);
  '(result, h, age) ← on_px (server_dispatch nm part_opts getsockname junk fe_agg_string worker_option prefs h);
  if negb (bool_decide (result = HTTP_NO_ERR)) then _ ← to_client (http_error_return h result); mret h
  else deliver h prefs u age thresh no_distill.

(** A request that has been parsed. *)
Definition serve (h : Request) : GO Request :=
  let k := userkey_from_sock_ipaddr in
  '(_, prefs) ← on_prefs (get_userprefs stack_list k);
  '(h, prefs) ← demagic h prefs;
  u ← deref (url h);
  arg ← lift_g (getArgumentFromIdInList prefs FRONT_MTU);
  let thresh := match arg with Some x => ARG_INT x | None => PERF_FRONT_MTU end in
  arg ← lift_g (getArgumentFromIdInList prefs FRONT_NO_DISTILL);
  let no_distill := match arg with Some x => negb (ARG_INT x =? 0) && negb (strcasecmp fe_get_prefs_url u =? 0) | None => false end in
  if is_setpref_url fe_prefs_set_url_string u then _ ← set_prefs h u k; mret h
  else if is_getpref_url fe_get_prefs_url u then _ ← to_client (send_prefs prefs); mret h
  else
    m ← deref (method h);
    if negb (is_server_url fe_agg_string u) && negb (strcasecmp m (bytes_of "get") =? 0) && negb (strcasecmp m (bytes_of "post") =? 0) then
      _ ← on_px (on_front (tunnel nm part_opts getsockname junk h)); mret h
    else serve_page h prefs u k thresh no_distill.

(** ** [http_go_proc] *)

(** The exit: only a root task closes the connection. *)
Definition httpgo_finish (t : task_t) : GO () :=
  if (task_parent t =? 0) && (task_child_index t =? 0) then modify (λ s, Go (px_of s) (prefs_db s) true) else mret ().

(** The request at the end (which is freed). *)
Definition http_go_proc (t : task_t) : GO Request :=
  let h := init_Request in
  '(go_on, h) ←
    match task_metadata t with
    | None =>
        let h := set_cli_hdrs (Alloc junk PERF_HTTP_TOTAL_HEADERLEN (cli_hdrs h)) h in
        '(result, h, _) ← to_client (readline_or_timeout h READ_ALL_HEADERS None);
        mret (negb (result =? -1), h)
    | Some _ => mret (true, h)
    end;
  h ← (if (go_on : bool) then
         '(result, h) ← lift_g (parse_status_and_headers h);
         if negb (bool_decide (result = HTTP_NO_ERR)) then _ ← to_client (http_error_return h result); mret h
         else serve h
       else mret h);
  _ ← httpgo_finish t;
  mret (free_Request h).
End HttpGo.

(** ** Lemmas *)

(** *** Reading the request *)

(** The blank line at the end of the text is the only one. *)
Definition one_request (text : bytes) : Prop :=
  (4 <= length text)%nat ∧ (∀ j, match_at text (crlf ++ crlf) j ↔ (j + 4 = length text)%nat) ∧ no_nul text.

Lemma read_one nbytes_left w ss x : ready w → sels w = x :: ss → input w ≠ [] → (length (input w) <= nbytes_left)%nat → xfers w ≠ [] →
  x = Ready ∧ let w1 := with_sels ss w in
  (∃ k r, xfers w = Moved (S k) :: r ∧ let got := take (S k) (input w) in
     sys_read nbytes_left w1 = Ret ((Z.of_nat (length got), EOTHER 0, got), Io r ss (wire w) (drop (S k) (input w))) ∧ got ≠ []) ∨
  (∃ e r, xfers w = Failed e :: r ∧ is_eagain e || is_eintr e = true ∧ sys_read nbytes_left w1 = Ret ((-1, e, []), Io r ss (wire w) (input w))).
Proof.
  intros (Hl&Hr&_) Hs Hi Hn Hx. rewrite Hs in Hr. inversion_clear Hr as [|?? Hx0 Hr']. split; [done|]. intros w1. unfold sys_read. unfold w1, with_sels. cbn [xfers input sels wire with_xfers with_input].
  destruct (xfers w) as [|[[|k]|e] r]; [done|discriminate| |].
  - left. exists k, r. split; [done|]. assert (take (S k `min` nbytes_left) (input w) = take (S k) (input w)) as Et.
    { destruct (decide (S k <= nbytes_left)%nat); [by rewrite Nat.min_l by lia|]. by rewrite Nat.min_r, !take_ge by lia. }
    rewrite Et. split; [|by destruct (input w)]. do 3 f_equal. rewrite length_take.
    destruct (decide (S k <= length (input w))%nat); [by rewrite Nat.min_l by lia|]. by rewrite Nat.min_r, !drop_ge by lia.
  - right. exists e, r. cbn in Hl. apply andb_prop in Hl as [Hl _]. done.
Qed.

(** The search after a read: it succeeds when all has been read. *)
Lemma search_request a x more w : one_request (a ++ more) →
  (if (READ_ALL_HEADERS <? 0) && (4 <=? Z.of_nat (length a)) then lift_o (dumb_strnstr (a ++ x) (crlf ++ crlf) (Z.of_nat (length a))) else mret None) w =
  Ret (if decide (more = []) then Some (Z.of_nat (length a - 4)) else None, w).
Proof.
  intros (H4&Hm&Hn). change (READ_ALL_HEADERS <? 0) with true. cbn [andb]. destruct (decide (more = [])) as [->|Hne].
  - rewrite app_nil_r in *. rewrite (proj2 (Z.leb_le 4 _)) by lia. apply lift_o_ret.
    apply dumb_strnstr_first; [|intros j' Hj' Hc|intros j' Hj' Hc| |].
    + apply match_at_prefix; [change (length (crlf ++ crlf)) with 4%nat; lia|]. apply Hm. lia.
    + apply match_at_prefix in Hc; [|change (length (crlf ++ crlf)) with 4%nat; lia]. apply Hm in Hc. lia.
    + rewrite lookup_app_l in Hc by lia. unfold no_nul in Hn. rewrite Forall_lookup in Hn. by apply (Hn j' 0 Hc).
    + change (length (crlf ++ crlf)) with 4%nat. rewrite length_app. lia.
    + change (length (crlf ++ crlf)) with 4%nat. lia.
  - destruct (Z.leb_spec 4 (Z.of_nat (length a))) as [Ha|Ha]; [|done]. apply lift_o_ret.
    apply dumb_strnstr_none; [intros j Hj Hc|rewrite length_app; lia|change (length (crlf ++ crlf)) with 4%nat; lia].
    apply match_at_prefix in Hc; [|done]. apply (match_at_prefix a more) in Hc; [|done]. apply Hm in Hc. change (length (crlf ++ crlf)) with 4%nat in Hj. rewrite length_app in Hc. destruct more; [done|]. cbn [length] in Hc. lia.
Qed.

Lemma readline_ready buflen : ∀ fuel w sbuf got rest, (length (xfers w) + length (sels w) < fuel)%nat → sbuf = got ++ rest →
  (length (got ++ input w) <= Z.to_nat buflen <= length sbuf)%nat → ready w → (length (input w) <= moves (xfers w))%nat → input w ≠ [] →
  one_request (got ++ input w) →
  ∃ w' rest', readline_loop fuel sbuf buflen READ_ALL_HEADERS (Z.of_nat (length got)) w =
      Ret ((Z.of_nat (length (got ++ input w)), (got ++ input w) ++ rest', Z.of_nat (length (got ++ input w))), w') ∧
    length ((got ++ input w) ++ rest') = length sbuf ∧ wire w' = wire w ∧ input w' = [] ∧ ready w' ∧ (moves (xfers w) <= moves (xfers w') + length (input w))%nat.
Proof.
  induction fuel as [|fuel IH]; intros w sbuf got rest Hf Es Hb Hr Hm Hi Ho; [lia|]. cbn [readline_loop].
  destruct (xfers w) as [|x0 r0] eqn:Ex; [destruct (input w); [done|cbn in Hm; lia]|]. destruct (sels w) as [|z ss] eqn:Ess.
  { destruct Hr as (_&_&Hl). rewrite Ex, Ess in Hl. cbn in Hl. lia. }
  destruct (read_one (Z.to_nat (buflen - Z.of_nat (length got))) w ss z Hr Ess Hi) as [-> Hcase].
  { rewrite length_app in Hb. lia. }
  { by rewrite Ex. }
  assert (sys_select w = Ret ((1, EOTHER 0), with_sels ss w)) as Esel by (unfold sys_select; by rewrite Ess). step_with Esel.
  change (1 =? -1) with false. change (1 =? 0) with false. cbn iota. cbn zeta in Hcase.
  assert (∀ r x, xfers w = x :: r → Forall (eq Ready) ss ∧ forallb live r = true ∧ (length r <= length ss)%nat) as Hnext.
  { intros r x E. destruct Hr as (Hl&Hs&Hle). rewrite E in Hl, Hle. rewrite Ess in Hs, Hle. inversion_clear Hs. cbn in Hl, Hle. apply andb_prop in Hl as [_ Hl]. split_and!; [done|done|lia]. }
  destruct Hcase as [(k&r&Er&E&Hne)|(e&r&Er&Ht&E)]; step_with E; rewrite Nat2Z.id; rewrite Er in Ex; injection Ex as <- <-; destruct (Hnext _ _ Er) as (Hs1&Hl1&Hle1).
  - set (x := take (S k) (input w)) in *. set (more := drop (S k) (input w)). assert (input w = x ++ more) as Ei by (symmetry; apply take_drop).
    assert (length x <= length rest)%nat as Hxr by (rewrite Es, Ei, !length_app in Hb; lia).
    step_with (lift_o_ret _ _ (Io r ss (wire w) more) (store_at_prefix got sbuf x rest Es Hxr)).
    assert (0 < length x)%nat as Hx0 by (clearbody x; destruct x; [done|cbn; lia]).
    rewrite (proj2 (Z.eqb_neq _ 0)), (proj2 (Z.eqb_neq _ (-1))), (proj2 (Z.ltb_lt 0 _)) by lia. cbn [andb].
    replace (Z.of_nat (length got) + Z.of_nat (length x)) with (Z.of_nat (length (got ++ x))) by len_lia.
    rewrite Ei, app_assoc in Ho. step_with (search_request (got ++ x) (drop (length x) rest) more (Io r ss (wire w) more) Ho). rewrite Ei, app_assoc.
    assert (length ((got ++ x) ++ drop (length x) rest) = length sbuf) as Els by (rewrite Es, !length_app, length_drop; lia).
    assert (length (input w) = length x + length more)%nat as Eil by (by rewrite Ei, length_app). cbn [moves] in Hm |- *.
    destruct (decide (more = [])) as [Em|Em].
    + rewrite Em, app_nil_r. eexists _, _. split; [reflexivity|]. rewrite Em in Eil. cbn [length] in Eil.
      split_and!; try done. cbn [xfers]. rewrite length_app. cbn [length]. lia.
    + change (0 <=? READ_ALL_HEADERS) with false. cbn [andb].
      destruct (IH (Io r ss (wire w) more) ((got ++ x) ++ drop (length x) rest) (got ++ x) (drop (length x) rest)) as (w'&rest'&E'&Hl'&Hw'&Hi'&Hr'&Hm'); cbn [xfers sels input wire] in *; try done.
      * cbn [length] in Hf. lia.
      * rewrite Els. rewrite Ei, app_assoc in Hb. exact Hb.
      * lia.
      * exists w', rest'. split; [exact E'|]. split; [by rewrite Hl'|]. split_and!; try done. rewrite length_app. lia.
  - step_with (lift_o_ret _ _ (Io r ss (wire w) (input w)) (store_at_prefix got sbuf [] rest Es ltac:(cbn; lia))).
    change (-1 =? 0) with false. change (-1 =? -1) with true. change (0 <? -1) with false. cbn [andb length]. rewrite app_nil_r, ?drop_0, <-Es.
    replace (negb (is_eagain e) && negb (is_eintr e)) with false by (destruct (is_eagain e), (is_eintr e); done). cbn iota.
    destruct (IH (Io r ss (wire w) (input w)) sbuf got rest) as (w'&rest'&E'&Hl'&Hw'&Hi'&Hr'&Hm'); cbn [xfers sels input wire moves] in *; try done.
    + cbn [length] in Hf. lia.
    + exists w', rest'. split; [exact E'|]. split_and!; done.
Qed.

(** The request, read into the fresh buffer of the procedure. *)
Definition fresh_request (junk : nat → byte) : Request := set_cli_hdrs (Alloc junk PERF_HTTP_TOTAL_HEADERLEN (cli_hdrs init_Request)) init_Request.

Lemma read_request junk c : ready c → one_request (input c) → Z.of_nat (length (input c)) < PERF_HTTP_TOTAL_HEADERLEN → (length (input c) <= moves (xfers c))%nat →
  ∃ b c', readline_or_timeout (fresh_request junk) READ_ALL_HEADERS None c = Ret ((Z.of_nat (length (input c)), set_cli_hdrs b (fresh_request junk), None), c') ∧
    holds b (input c) ∧ wire c' = wire c ∧ ready c' ∧ (moves (xfers c) <= moves (xfers c') + length (input c))%nat.
Proof.
  intros Hr Ho Hl Hm. unfold readline_or_timeout. cbn [cli_hdrs fresh_request set_cli_hdrs Alloc data blength]. unfold PERF_HTTP_TOTAL_HEADERLEN in *.
  change (u32 8192) with 8192. change (8192 =? 0) with false. cbn [deref negb c_assert]. rewrite !mret_bind, (bind_ret get _ _ _ _ eq_refl).
  set (blk := malloc junk 8192). assert (length blk = Z.to_nat 8192) as Hblk by (unfold blk, malloc; by rewrite length_fmap, length_seq).
  assert (input c ≠ []) as Hne by (destruct Ho as [H4 _]; destruct (input c); [cbn in H4; lia|done]).
  pose proof (readline_ready 8192 (io_fuel c) c blk [] blk) as Hread. rewrite !app_nil_l in Hread.
  destruct Hread as (c'&rest&E&Hlen&Hw&Hi&Hr'&Hm'); [unfold io_fuel; lia|reflexivity|rewrite Hblk; lia|exact Hr|exact Hm|exact Hne|exact Ho|].
  change (Z.of_nat (length [])) with 0 in E. step_with E. clearbody blk.
  step_with (lift_o_ret _ _ c' (SetLength_ok (Z.of_nat (length (input c))) (cli_hdrs (fresh_request junk)) ltac:(cbn [maxLength cli_hdrs fresh_request set_cli_hdrs Alloc]; change (u32 PERF_HTTP_TOTAL_HEADERLEN) with 8192; lia))).
  destruct rest as [|x rest]; [rewrite app_nil_r in Hlen; lia|]. step_with (lift_o_ret _ _ c' (wr_mid (input c) x rest _ 0 eq_refl)).
  eexists _, c'. split; [reflexivity|]. split; [|split_and!; done].
  exists rest. cbn [data blength maxLength]. rewrite length_app in Hlen. cbn [length] in Hlen. change (u32 8192) with 8192. change (maxLength (cli_hdrs (fresh_request junk))) with 8192. split_and!; try done; try lia. apply Ho.
Qed.

(** *** The procedure up to the page *)

(** The text of a request; the client [c] sends it and takes [out] bytes. *)
Definition request_text (m u v : bytes) (x : byte) (rest : bytes) : bytes := m ++ 32 :: u ++ 32 :: v ++ x :: rest.
Record sends_request (c : io) (m u v : bytes) (x : byte) (rest : bytes) (out : nat) : Prop := {
  sr_ready : ready c;
  sr_input : input c = request_text m u v x rest;
  sr_one : one_request (request_text m u v x rest);
  sr_length : Z.of_nat (length (request_text m u v x rest)) < PERF_HTTP_TOTAL_HEADERLEN;
  sr_moves : (length (request_text m u v x rest) + out <= moves (xfers c))%nat;
  sr_method : m ≠ [] ∧ (32 ∉ m);
  sr_url : u ≠ [] ∧ (32 ∉ u);
  sr_version : (∀ y, y ∈ [32; 13; 10] → (y ∉ v)) ∧ x ∈ [32; 13; 10] ∧ tolower <$> take 5 v = bytes_of "http/";
}.

(** *** Writing to the client *)

Lemma write_buffer_sends b d rest : data b = Some (d ++ rest) → blength b = Z.of_nat (length d) → Z.of_nat (length d) < 2 ^ 31 →
  sends (write_buffer b) d (Z.of_nat (length d)).
Proof.
  intros Hd Hb Hl. rewrite <-(app_nil_r d) at 1. eapply sends_ext; [|apply sends_write, sends_ret]. intros w.
  unfold write_buffer, write_block. rewrite Hd, Hb, i32_small by lia. rewrite (proj2 (Z.eqb_neq _ (-1))) by lia.
  rewrite (proj2 (Z.ltb_ge _ 0)) by lia. rewrite (proj2 (Z.ltb_ge _ (Z.of_nat (length d)))) by (len_norm; lia). cbn [orb]. rewrite correct_write_app.
  unfold write_all, mbind, M_mbind. destruct (correct_write d (Z.of_nat (length d)) w) as [[r w']| | |]; [|done..]. cbn.
  destruct (Z.eqb_spec r (Z.of_nat (length d))) as [->|]; done.
Qed.

Lemma ready_write b d rest c : data b = Some (d ++ rest) → blength b = Z.of_nat (length d) → Z.of_nat (length d) < 2 ^ 31 →
  ready c → (length d <= moves (xfers c))%nat →
  ∃ c', write_buffer b c = Ret (Z.of_nat (length d), c') ∧ wire c' = wire c ++ d ∧ ready c' ∧ (moves (xfers c) <= moves (xfers c') + length d)%nat.
Proof.
  intros Hd Hb Hl (Hlv&Hs&Hle) Hm.
  destruct (sends_live _ _ _ c (write_buffer_sends b d rest Hd Hb Hl) Hlv Hm) as (c'&E&Hw&_&Hs'&Hl'&Hx&Hm'). exists c'.
  split; [done|]. split; [done|]. split; [|done]. split; [done|]. rewrite Hs'. split; [done|lia].
Qed.

(** The document as it is. *)
Lemma bypass_ready h hd r1 body r2 c : data (svr_hdrs h) = Some (hd ++ r1) → blength (svr_hdrs h) = Z.of_nat (length hd) →
  data (svr_data h) = Some (body ++ r2) → blength (svr_data h) = Z.of_nat (length body) → Z.of_nat (length hd + length body) < 2 ^ 31 →
  ready c → (length hd + length body <= moves (xfers c))%nat →
  ∃ c', complete_bypass h c = Ret ((), c') ∧ wire c' = wire c ++ hd ++ body.
Proof.
  intros H1 H2 H3 H4 Hl Hr Hm. destruct (ready_write _ _ _ c H1 H2 ltac:(lia) Hr ltac:(lia)) as (c1&E1&Hw1&Hr1&Hm1).
  destruct (ready_write _ _ _ c1 H3 H4 ltac:(lia) Hr1 ltac:(lia)) as (c2&E2&Hw2&_&_).
  exists c2. unfold complete_bypass. step_with E1. step_with E2. split; [done|]. by rewrite Hw2, Hw1, <-app_assoc.
Qed.

Lemma holds_header_text b h n : holds b h → ∃ v, header_text b n = Ret v.
Proof.
  intros Hh. unfold header_text, get_header_value. destruct (blength b =? 0); [by eexists|]. rewrite (holds_str _ _ Hh). cbn [mbind outcome_mbind].
  destruct (strcasestr h n) as [i|]; [|by eexists]. destruct (negb _); [by eexists|]. destruct (decide _); [by eexists|].
  cbn [mbind outcome_mbind o_len]. by eexists.
Qed.

(** The reasons for which a document is passed on. *)
Definition reasons : list bytes :=
  [bytes_of "201 Non-OK server status"; bytes_of "202 content-type not text/html and content-length too short"; bytes_of "203 distillation not indicated"].
Lemma bypass_reason_spec agg h hd u thresh nd : holds (svr_hdrs h) hd → url h = Some u → is_server_url agg u = false → svr_http_status h ≠ 200 ∨ nd = true →
  ∃ r, bypass_reason agg h thresh nd = Ret (Some r) ∧ r ∈ reasons ∧ (svr_http_status h ≠ 200 → r = bytes_of "201 Non-OK server status").
Proof.
  intros Hh Hu Hs Hby. destruct (holds_header_text _ _ (bytes_of "content-type") Hh) as [v Ev]. unfold bypass_reason. rewrite Ev, Hu. cbn [mbind outcome_mbind]. rewrite Hs.
  destruct (Z.eqb_spec (svr_http_status h) 200) as [E200|Hne]; cbn [negb].
  - destruct Hby as [?| ->]; [done|]. destruct (_ && _); (eexists; split; [reflexivity|]; split; [unfold reasons; set_solver|done]).
  - eexists. split; [reflexivity|]. split; [unfold reasons; set_solver|done].
Qed.
Lemma reasons_ok r : r ∈ reasons → no_nul r ∧ (length r <= 80)%nat.
Proof.
  assert (Forall (λ r, no_nul r ∧ (length r <= 80)%nat) reasons) as Hf; [|rewrite Forall_forall in Hf; apply Hf].
  unfold reasons. repeat (apply Forall_cons; split; [split; [unfold no_nul; apply (bool_decide_unpack _); vm_compute; exact I|apply Nat.leb_le; reflexivity]|]). by apply Forall_nil.
Qed.

(** A document that is distilled. *)
Lemma strncasecmp_eq (t : bytes) : ∀ x : bytes, tolower <$> take (length t) x = tolower <$> t → strncasecmp x t (length t) = 0.
Proof.
  induction t as [|c t IH]; intros x E; [done|]. destruct x as [|d x]; [done|]. cbn [length take] in E. rewrite !fmap_cons in E. injection E as Ec Et.
  cbn [strncasecmp length head_byte tail]. rewrite Ec, Z.eqb_refl. destruct (_ =? 0); [done|by apply IH].
Qed.

(** The types whose documents are distilled whatever their size. *)
Definition is_text (ct : bytes) : Prop :=
  tolower <$> take 9 ct = bytes_of "text/html" ∨ tolower <$> take 10 ct = bytes_of "text/plain".

Lemma text_prefix n (ct t w : bytes) : take (length ct) t = ct → tolower <$> take n ct = w → length w = n → tolower <$> take n t = w.
Proof.
  intros Ht Hc Hl. assert (n <= length ct)%nat by (rewrite <-Hl, <-Hc, length_fmap, length_take; lia).
  by rewrite <-Hc, <-Ht, take_take, Nat.min_l by lia.
Qed.

Lemma bypass_none agg h st fs ct u thresh : tidy (svr_hdrs h) st fs → lookup_field (bytes_of "content-type") fs = Some ct → url h = Some u →
  is_server_url agg u = false → svr_http_status h = 200 → is_text ct ∨ u32 thresh < blength (svr_data h) →
  bypass_reason agg h thresh false = Ret None.
Proof.
  intros T Hct Hu Hs Hst Hbig. pose proof (tidy_text _ st fs (bytes_of "content-type") T ltac:(set_solver)) as Ht. rewrite Hct in Ht. destruct Ht as (t&Et&Htv).
  unfold bypass_reason. rewrite Et, Hu, Hst. cbn [mbind outcome_mbind]. rewrite Hs. change (200 =? 200) with true. cbn [negb].
  destruct Hbig as [[H9|H10]|Hbig].
  - pose proof (strncasecmp_eq (bytes_of "text/html") t) as E. change (length (bytes_of "text/html")) with 9%nat in E.
    rewrite E; [done|]. exact (text_prefix 9 ct t _ Htv H9 eq_refl).
  - pose proof (strncasecmp_eq (bytes_of "text/plain") t) as E. change (length (bytes_of "text/plain")) with 10%nat in E.
    rewrite E; [by rewrite orb_true_r|]. exact (text_prefix 10 ct t _ Htv H10 eq_refl).
  - rewrite (proj2 (Z.leb_gt _ _)) by lia. by rewrite andb_false_r.
Qed.

Section GoLemmas.
Context `{Digest} {Monitor DB : Type} `{!Gdbm DB}.
Variable nm : names.
Variable part_opts : bytes → option bytes.
Variable getsockname : Z → Z * sockaddr_in.
Variable junk : nat → byte.
Variable Distill : list call → call → DistillerStatus * DistillerData.
Variable fe_agg_string fe_prefs_set_url_string fe_get_prefs_url : bytes.
Variable worker_option : option bytes.
Variable stack_list : ArgumentList.
Variable stack_dout : DistillerData.
Variable getpeername : option Z.
Implicit Types s : go (Monitor := Monitor) (DB := DB).

Definition with_cli (c : io) s : go := Go (Px (Fe c (cache (front (px_of s)))) (calls (px_of s))) (prefs_db s) (closed s).
Definition client s : io := cli (front (px_of s)).

Lemma on_px_ret {A} (m : M px A) s a p : m (px_of s) = Ret (a, p) → on_px m s = Ret (a, Go p (prefs_db s) (closed s)).
Proof. intros E. unfold on_px, mbind, outcome_mbind. by rewrite E. Qed.
Lemma on_prefs_ret {A} (m : M prefs_state A) s a p : m (prefs_db s) = Ret (a, p) → on_prefs m s = Ret (a, Go (px_of s) p (closed s)).
Proof. intros E. unfold on_prefs, mbind, outcome_mbind. by rewrite E. Qed.
Lemma to_client_ret {A} (m : IO A) s a c : m (client s) = Ret (a, c) → to_client m s = Ret (a, with_cli c s).
Proof. intros E. unfold to_client. rewrite (on_px_ret _ s a (Px (Fe c (cache (front (px_of s)))) (calls (px_of s)))); [done|]. by apply on_front_ret, on_cli_ret. Qed.
Lemma lift_g_bind {A B} (o : outcome A) a (f : A → M go B) s : o = Ret a → (lift_g o ≫= f) s = f a s.
Proof. by intros ->. Qed.

(** What does not lead to a page of its own. *)
Definition plain_url (u : bytes) : Prop :=
  is_magic u = false ∧ is_setpref_url fe_prefs_set_url_string u = false ∧ is_getpref_url fe_get_prefs_url u = false ∧ is_server_url fe_agg_string u = false.

Definition threshold (l : ArgumentList) : Z := match find_arg FRONT_MTU (used l) with Some x => ARG_INT x | None => PERF_FRONT_MTU end.
Definition distillation_off (l : ArgumentList) (u : bytes) : bool :=
  match find_arg FRONT_NO_DISTILL (used l) with Some x => negb (ARG_INT x =? 0) && negb (strcasecmp fe_get_prefs_url u =? 0) | None => false end.

Lemma go_start t d0 mp k s m u v x rest out (l := prefs_of d0 mp k) (text := request_text m u v x rest) : task_metadata t = None →
  sends_request (client s) m u v x rest out → tracks d0 (prefs_db s) mp → args_ok d0 → key_ok k → getpeername = Some k →
  plain_url (proxied_url u) → strcasecmp m (bytes_of "get") = 0 →
  ∃ h c' ps, http_go_proc nm part_opts getsockname junk Distill fe_agg_string fe_prefs_set_url_string fe_get_prefs_url worker_option stack_list stack_dout getpeername t s =
      (h ← serve_page nm part_opts getsockname junk Distill fe_agg_string worker_option stack_dout h l (proxied_url u) k (threshold l) (distillation_off l (proxied_url u));
       _ ← httpgo_finish t; mret (free_Request h)) (Go (px_of (with_cli c' s)) ps (closed s)) ∧
    holds (cli_hdrs h) text ∧ url h = Some (proxied_url u) ∧ method h = Some m ∧ tracks d0 ps mp ∧ args_ok l ∧ length (errmsg h) = S HTTP_ERRMSG_MAX ∧
    svr_data h = buf0 ∧ pxy_hdrs h = buf0 ∧
    wire c' = wire (client s) ∧ ready c' ∧ (out <= moves (xfers c'))%nat.
Proof.
  intros Ht [Hr Hi Ho Hl Hm [Hm1 Hm2] [Hu1 Hu2] (Hv&Hx&Hv5)] T Hd0 Hk Hp (Hmag&Hset&Hget&Hsrv) Hmeth. fold text in Hi, Ho, Hl, Hm. rewrite <-Hi in Ho, Hl.
  destruct (read_request junk (client s) Hr Ho Hl ltac:(rewrite Hi; lia)) as (b&c'&E&Hb&Hw&Hr'&Hm'). rewrite Hi in E, Hb, Hl.
  unfold http_go_proc. rewrite Ht. cbn zeta. fold (fresh_request junk). rewrite M_assoc. step_with (to_client_ret _ s _ _ E).
  destruct (Z.eqb_spec (Z.of_nat (length text)) (-1)); [lia|]. cbn [negb]. rewrite mret_bind. cbn iota. rewrite M_assoc.
  assert (v ≠ []) as Hvne by (intros ->; discriminate).
  pose proof (parse_request_line (set_cli_hdrs b (fresh_request junk)) m u v x rest Hb eq_refl Hm1 Hm2 Hu1 Hu2 Hvne Hv Hx) as Hparse. cbn zeta in Hparse.
  rewrite decide_True in Hparse by done. fold (request_text m u v x rest) in Hparse. fold text in Hparse. rewrite (lift_g_bind _ _ _ _ Hparse). clear Hparse.
  set (h := set_version _ _). assert (url h = Some (proxied_url u) ∧ method h = Some m ∧ cli_hdrs h = b) as (Eu&Em&Ec) by done.
  assert (length (errmsg h) = S HTTP_ERRMSG_MAX) as Ee.
  { unfold h. cbn [errmsg set_version set_url set_method set_errmsg]. rewrite length_app, strncpy_bytes_length. reflexivity. }
  assert (svr_data h = buf0 ∧ pxy_hdrs h = buf0) as (Esd&Eph) by done. clearbody h.
  rewrite bool_decide_true by done. cbn [negb]. unfold serve. rewrite Hp. cbn zeta.
  change (userkey_from_sock_ipaddr (Some k)) with k.
  pose proof (prefs_of_ok d0 Hd0 _ _ k T) as Hlok. fold l in Hlok.
  destruct (get_tracks stack_list d0 (prefs_db s) mp k T Hk) as (ps&Eg&Tps). fold l in Eg.
  rewrite M_assoc. step_with (on_prefs_ret _ (with_cli c' s) _ _ Eg). unfold demagic. rewrite Eu.
  change (deref (Some ?a)) with (@mret (M (go (Monitor := Monitor) (DB := DB))) _ _ a). rewrite !M_assoc, mret_bind, Hmag, !mret_bind. cbn beta iota. rewrite Eu.
  change (deref (Some ?a)) with (@mret (M (go (Monitor := Monitor) (DB := DB))) _ _ a). rewrite M_assoc, mret_bind.
  rewrite M_assoc, (lift_g_bind _ _ _ _ (get_argument_spec l FRONT_MTU Hlok)), M_assoc, (lift_g_bind _ _ _ _ (get_argument_spec l FRONT_NO_DISTILL Hlok)).
  cbn zeta. rewrite Hset, Hget, Em. change (deref (Some ?a)) with (@mret (M (go (Monitor := Monitor) (DB := DB))) _ _ a). rewrite M_assoc, mret_bind.
  rewrite Hsrv, Hmeth. cbn [negb andb Z.eqb].
  exists h, c', ps. split; [reflexivity|]. rewrite Ec. split_and!; try done. rewrite Hi in Hm'. lia.
Qed.

(** The client's address as an argument. *)
Definition is_client_ip (k : Z) (y : Argument) : Prop := id y = FRONT_CLIENT_IP ∧ value_of y = VInt (i32 k).

Lemma add_ip_spec l k : args_ok l → nargs l < Z.of_nat MAX_ARGS → FRONT_CLIENT_IP ∉ id <$> used l →
  ∃ l' y, add_client_ip l k = Ret l' ∧ args_ok l' ∧ used l' = used l ++ [y] ∧ is_client_ip k y.
Proof.
  intros Hl Hn Hid. unfold add_client_ip. destruct (args_append l (blank_arg FRONT_CLIENT_IP) Hl Hn ltac:(apply blank_arg_ok; unfold FRONT_CLIENT_IP; lia) Hid) as (x&_&Ex&Hx&_).
  assert (arg_ok (SET_ARG_ID (SET_ARG_INT x k) FRONT_CLIENT_IP)) as Hy by (by apply arg_ok_id, arg_ok_int).
  destruct (args_append l _ Hl Hn Hy Hid) as (x2&v&Ex2&_&Ev&Hok&Hused). rewrite Ex2 in Ex. injection Ex as ->.
  rewrite Ex2. cbn [mbind outcome_mbind]. rewrite Ev. eexists _, _. do 3 (split; [done|]). split; [done|]. exact (value_of_set (VInt k) x I Hx).
Qed.

(** The document is fetched, for the preferences with the client's address. *)
Lemma page_start h l u k thresh nd s m text p1 f c ps kk n : url h = Some u → method h = Some m → head_byte m = 103 ∨ head_byte m = 71 →
  is_server_url fe_agg_string u = false → holds (cli_hdrs h) text → (4 <= length text)%nat →
  args_ok l → nargs l < Z.of_nat MAX_ARGS → FRONT_CLIENT_IP ∉ id <$> used l → find_arg FRONT_ANONYMIZE (used l) = None →
  no_nul (canonical (take kk (input c))) → scan_status (canonical (take kk (input c))) = Some n →
  cache_answers nm part_opts u p1 f c ps kk (request_bytes u (Some text) [] true ICP_GET) (cache (front (px_of s))) →
  ∃ h' l' y p, serve_page nm part_opts getsockname junk Distill fe_agg_string worker_option stack_dout h l u k thresh nd s =
      deliver junk Distill fe_agg_string stack_dout (set_status n h') l' u 0 thresh nd (Go p (prefs_db s) (closed s)) ∧
    document (canonical (take kk (input c))) (drop kk (input c)) h h' ∧ answered c (request_bytes u (Some text) [] true ICP_GET) (px_of s) p ∧
    args_ok l' ∧ used l' = used l ++ [y] ∧ is_client_ip k y.
Proof.
  intros Hu Hm Hg Hsrv Ht H4 Hl Hn Hid Hano Hnn Hst Hc.
  destruct (add_ip_spec l k Hl Hn Hid) as (l'&y&El&Hl'&Hused&Hy).
  assert (find_arg FRONT_ANONYMIZE (used l') = None) as Hano'.
  { rewrite Hused, find_arg_snoc, decide_False by (rewrite (proj1 Hy); done || discriminate). done. }
  destruct (server_get_spec nm part_opts getsockname junk fe_agg_string worker_option h l' u m text p1 f c ps kk n (px_of s) Hu Hsrv Hm Hg Hl' Hano' Ht H4 Hnn Hst Hc)
    as (h'&p&E&Hd&Ha).
  exists h', l', y, p. split; [|done]. unfold serve_page. rewrite (lift_g_bind _ _ _ _ El). step_with (on_px_ret _ s _ _ E).
  rewrite bool_decide_true by done. done.
Qed.

(** A document that is passed on, with the reason. *)
Lemma deliver_bypass hd body h0 h' l u thresh nd n s : document (hd ++ crlf) body h0 h' → url h0 = Some u → is_server_url fe_agg_string u = false →
  n ≠ 200 ∨ nd = true → Z.of_nat (length hd + length body) < 2 ^ 30 → ready (client s) → (length hd + length body + 100 <= moves (xfers (client s)))%nat →
  ∃ r h2 c', deliver junk Distill fe_agg_string stack_dout (set_status n h') l u 0 thresh nd s = Ret (h2, with_cli c' s) ∧
    r ∈ reasons ∧ (n ≠ 200 → r = bytes_of "201 Non-OK server status") ∧
    wire c' = wire (client s) ++ hd ++ header_line TRANSEND_STATUS_HEADER r ++ crlf ++ body.
Proof.
  intros (b&Hb&->) Hu Hs Hby Hl Hr Hm. set (h := set_status n _).
  assert (url h = Some u ∧ svr_hdrs h = b ∧ svr_http_status h = n) as (Eu&Eh&En) by done.
  destruct (bypass_reason_spec fe_agg_string h (hd ++ crlf) u thresh nd) as (r&Er&Hin&H201); [by rewrite Eh|done|done|by rewrite En|].
  destruct (reasons_ok r Hin) as [Hrn Hrl].
  destruct (insert_at junk b hd TRANSEND_STATUS_HEADER r Hb ltac:(unfold no_nul; apply (bool_decide_unpack _); vm_compute; exact I) Hrn) as (b'&Ei&Hb').
  { unfold fits. change (length TRANSEND_STATUS_HEADER) with 14%nat. lia. }
  set (hd' := hd ++ header_line TRANSEND_STATUS_HEADER r ++ crlf) in *. pose proof Hb' as (rest&Hd&Hbl&_).
  assert (length hd' = length hd + length r + 20)%nat as Hl'.
  { unfold hd', header_line. len_norm. change (length TRANSEND_STATUS_HEADER) with 14%nat. cbn [length crlf]. lia. }
  destruct (bypass_ready (set_svr_hdrs b' h) hd' (0 :: rest) body [0] (client s)) as (c'&E&Hw); try done; [lia|lia|].
  exists r, (set_svr_hdrs b' h), c'. split; [|split; [done|split; [by rewrite En in H201|]]].
  - unfold deliver. rewrite (lift_g_bind _ _ _ _ Er), Eh, (lift_g_bind _ _ _ _ Ei). step_with (to_client_ret _ s _ _ E). done.
  - rewrite Hw. unfold hd'. by rewrite <-!(app_assoc hd), <-!(app_assoc (header_line _ _)).
Qed.

(** What a distiller answered goes to the client. *)
Definition done_header : field := (TRANSEND_STATUS_HEADER, bytes_of "200 distillation OK").
Lemma finish_ok h prefs u st fs body s : holds (pxy_hdrs h) (render st fs) → carries (pxy_data h) body → small (length (render st fs)) → ready (client s) →
  (length (render st fs) + length body + 100 <= moves (xfers (client s)))%nat →
  ∃ c', finish_distillation junk fe_agg_string h prefs u distOk s = Ret ((), with_cli c' s) ∧
    wire c' = wire (client s) ++ render st (fs ++ [done_header]) ++ body.
Proof.
  intros Hh (r&Hd&Hb&Hm1&Hm2) Hs Hr Hm. unfold small in Hs. unfold finish_distillation.
  assert (render st fs = (st ++ crlf ++ render_fields fs) ++ crlf) as Er by (unfold render; by rewrite <-!app_assoc). rewrite Er in Hh.
  destruct (insert_at junk (pxy_hdrs h) (st ++ crlf ++ render_fields fs) TRANSEND_STATUS_HEADER (bytes_of "200 distillation OK") Hh) as (b&Ei&Hb').
  1, 2: unfold no_nul; apply (bool_decide_unpack _); vm_compute; exact I.
  { unfold fits. rewrite Er, length_app in Hs. change (length TRANSEND_STATUS_HEADER) with 14%nat. change (length (bytes_of "200 distillation OK")) with 19%nat. lia. }
  assert (render st (fs ++ [done_header]) = (st ++ crlf ++ render_fields fs) ++ header_line TRANSEND_STATUS_HEADER (bytes_of "200 distillation OK") ++ crlf) as Er2.
  { unfold render. rewrite render_fields_app, render_fields_cons. change (render_fields []) with (@nil Z). rewrite app_nil_r, <-!app_assoc. done. }
  rewrite <-Er2 in Hb'. rewrite (lift_g_bind _ _ _ _ Ei). destruct Hb' as (r1&Hd1&Hb1&_).
  assert (length (render st (fs ++ [done_header])) = length (render st fs) + 37)%nat as Hl by (unfold done_header; rewrite render_snoc; change (length TRANSEND_STATUS_HEADER) with 14%nat; change (length (bytes_of "200 distillation OK")) with 19%nat; lia).
  destruct (ready_write b _ (0 :: r1) (client s) Hd1 Hb1 ltac:(lia) Hr ltac:(lia)) as (c1&E1&Hw1&Hr1&Hm1').
  step_with (to_client_ret _ s _ _ E1).
  destruct (ready_write (pxy_data h) body r (client (with_cli c1 s)) Hd Hb ltac:(lia) Hr1 ltac:(cbn; lia)) as (c2&E2&Hw2&_).
  step_with (to_client_ret _ (with_cli c1 s) _ _ E2). exists c2. split; [done|]. rewrite Hw2. change (wire (client (with_cli c1 s))) with (wire c1). by rewrite Hw1, <-app_assoc.
Qed.
End GoLemmas.

(** ** Properties *)

(** The preferences of the user [k] are those of [mp], with room for one more
    argument; the user does not want to be anonymous. *)
Definition knows_user {DB} `{!Gdbm DB} (d0 : ArgumentList) (db : prefs_state (DB := DB)) (mp : gmap Z ArgumentList) (k : Z) : Prop :=
  let l := prefs_of d0 mp k in
  tracks d0 db mp ∧ args_ok d0 ∧ key_ok k ∧ nargs l < Z.of_nat MAX_ARGS ∧ (FRONT_CLIENT_IP ∉ id <$> used l) ∧ find_arg FRONT_ANONYMIZE (used l) = None.

Definition root_task : task_t := MkTask 0 0 None.
(** A request with the method GET. *)
Definition is_get (m : bytes) : Prop := strcasecmp m (bytes_of "get") = 0 ∧ (head_byte m = 103 ∨ head_byte m = 71).

Section Pages.
Context `{Digest} {Monitor DB : Type} `{!Gdbm DB}.
Variable nm : names.
Variable part_opts : bytes → option bytes.
Variable getsockname : Z → Z * sockaddr_in.
Variable junk : nat → byte.
Variable Distill : list call → call → DistillerStatus * DistillerData.
Variable fe_agg_string fe_prefs_set_url_string fe_get_prefs_url : bytes.
Variable worker_option : option bytes.
Variable stack_list : ArgumentList.
Variable stack_dout : DistillerData.
Variable s : go (Monitor := Monitor) (DB := DB).

(** The user [k] asks for a page with the request [text] and takes [out] bytes
    of reply; the cache answers with the headers [hd] and the data [body]. *)
Variables (m u v : bytes) (x : byte) (rest : bytes) (out : nat).
Variables (d0 : ArgumentList) (mp : gmap Z ArgumentList) (k : Z).
Variables (p1 : part_state Monitor) (f : Z) (c : io) (ps : list io) (e : nat) (status : Z).
Let text := request_text m u v x rest.
Let l := prefs_of d0 mp k.
Let page := proxied_url u.
Let hd := canon false (take e (input c)).
Let body := drop e (input c).
Hypothesis Hrequest : sends_request (client s) m u v x rest out.
Hypothesis Hget : is_get m.
Hypothesis Huser : knows_user d0 (prefs_db s) mp k.
Hypothesis Hurl : plain_url fe_agg_string fe_prefs_set_url_string fe_get_prefs_url page.
Hypothesis Hcache : cache_answers nm part_opts page p1 f c ps e (request_bytes page (Some text) [] true ICP_GET) (cache (front (px_of s))).
Hypothesis Hhd : no_nul hd.
Hypothesis Hstatus : scan_status (hd ++ crlf) = Some status.

Abbreviation run := (http_go_proc nm part_opts getsockname junk Distill fe_agg_string fe_prefs_set_url_string fe_get_prefs_url worker_option stack_list stack_dout (Some k) root_task).

(** The cache has been sent the whole request, behind a request line. *)
Definition asked (s' : go (Monitor := Monitor) (DB := DB)) : Prop :=
  ∃ c', talks (cache (front (px_of s'))) = c' :: talks (cache (front (px_of s))) ∧
    wire c' = wire c ++ bytes_of "GET " ++ page ++ bytes_of " HTTP/1.0" ++ crlf ++ text.

Lemma request_line : request_bytes page (Some text) [] true ICP_GET = bytes_of "GET " ++ page ++ bytes_of " HTTP/1.0" ++ crlf ++ text.
Proof.
  unfold request_bytes. change (method_of ICP_GET) with (bytes_of "GET "). rewrite app_nil_r, bool_decide_true; [by rewrite <-!(app_assoc (bytes_of " HTTP/1.0"))|].
  destruct (sr_one _ _ _ _ _ _ _ Hrequest) as (H4&Hm&_). fold text in H4, Hm. specialize (Hm (length text - 4)%nat). change (CRLF ++ CRLF) with (crlf ++ crlf).
  pose proof (proj2 Hm ltac:(lia)) as Hx. unfold match_at in Hx. rewrite take_ge in Hx; [exact Hx|]. rewrite length_drop. cbn [length crlf app]. lia.
Qed.

(** The sizes of what is sent. *)
Lemma document_small : Z.of_nat (length hd + length body) < 2 ^ 30.
Proof.
  destruct Hcache as (_&_&_&_&Hcut&_). unfold CLIB_CUTTHROUGH_THRESH in Hcut. unfold hd, body.
  pose proof (canon_length false (take e (input c))) as Hc. rewrite length_take in Hc. rewrite length_drop. lia.
Qed.

(** Up to the delivery. *)
Lemma page_fetched : ∃ h h' l' y s2, run s =
    (h ← deliver junk Distill fe_agg_string stack_dout (set_status status h') l' page 0 (threshold l) (distillation_off fe_get_prefs_url l page);
     _ ← httpgo_finish root_task; mret (free_Request h)) s2 ∧
  document (hd ++ crlf) body h h' ∧ url h = Some page ∧ length (errmsg h) = S HTTP_ERRMSG_MAX ∧ pxy_hdrs h = buf0 ∧
  wire (client s2) = wire (client s) ∧ ready (client s2) ∧ (out <= moves (xfers (client s2)))%nat ∧
  asked s2 ∧ calls (px_of s2) = calls (px_of s) ∧ tracks d0 (prefs_db s2) mp ∧
  args_ok l' ∧ used l' = used l ++ [y] ∧ is_client_ip k y.
Proof.
  destruct Huser as (T&Hd0&Hk&Hn&Hid&Hano). destruct Hget as [Hg1 Hg2].
  destruct (go_start nm part_opts getsockname junk Distill fe_agg_string fe_prefs_set_url_string fe_get_prefs_url worker_option stack_list stack_dout (Some k)
    root_task d0 mp k s m u v x rest out eq_refl Hrequest T Hd0 Hk eq_refl Hurl Hg1) as (h&c1&ps1&E1&Hh&Hu&Hm&T1&Hl&He&Hsd&Hph&Hw1&Hr1&Hm1).
  fold text l page in E1, Hh, Hu, Hl. set (s1 := Go (px_of (with_cli c1 s)) ps1 (closed s)) in *.
  pose proof Hurl as (_&_&_&Hsrv).
  assert (no_nul (hd ++ crlf)) as Hnn by (apply no_nul_app; split; [exact Hhd|unfold no_nul; apply (bool_decide_unpack _); vm_compute; exact I]).
  destruct (page_start nm part_opts getsockname junk Distill fe_agg_string worker_option stack_dout h l page k (threshold l) (distillation_off fe_get_prefs_url l page) s1 m text
    p1 f c ps e status Hu Hm Hg2 Hsrv Hh (proj1 (sr_one _ _ _ _ _ _ _ Hrequest)) Hl Hn Hid Hano Hnn Hstatus Hcache) as (h'&l'&y&p&E2&Hdoc&(Hcli&Hcalls&ct&Htalk&Hct)&Hl'&Hused&Hy).
  exists h, h', l', y, (Go p (prefs_db s1) (closed s1)). split; [rewrite E1; unfold mbind, M_mbind; by rewrite E2|].
  unfold client. cbn [px_of prefs_db]. rewrite Hcli. split_and!; try done. exists ct. rewrite <-request_line. done.
Qed.

(** C16. A GET for a page, of a user whose address is known, who has room for
    one more argument in his list of fifty and does not want to be anonymous,
    when the answer of the cache comes over a live connection and within the
    cut-through limit. If its status is not 200, or the user has turned
    distillation off, the body reaches the client as the server sent it, and
    its headers in the form that the client library gives them (every end of
    line CR LF) with the reason added: the client gets nothing else, the
    connection is closed, no distiller is called, the cache has been sent the
    whole request behind a request line of its own, and the preferences are as
    before. *)
Theorem page_passed_on (Hout : (length hd + length body + 100 <= out)%nat) (Hby : status ≠ 200 ∨ distillation_off fe_get_prefs_url l page = true) :
  ∃ r h s', run s = Ret (h, s') ∧
    wire (client s') = wire (client s) ++ hd ++ header_line TRANSEND_STATUS_HEADER r ++ crlf ++ body ∧
    r ∈ reasons ∧ (status ≠ 200 → r = bytes_of "201 Non-OK server status") ∧
    closed s' = true ∧ asked s' ∧ calls (px_of s') = calls (px_of s) ∧ tracks d0 (prefs_db s') mp.
Proof.
  destruct page_fetched as (h&h'&l'&y&s2&E&Hdoc&Hu&_&_&Hw&Hr&Hm&Ha&Hc&T&_). pose proof Hurl as (_&_&_&Hsrv).
  destruct (deliver_bypass junk Distill fe_agg_string stack_dout hd body h h' l' page (threshold l) _ status s2 Hdoc Hu Hsrv Hby document_small Hr ltac:(lia))
    as (r&h2&c'&E2&Hin&H201&Hw2).
  exists r, (free_Request h2), (Go (px_of (with_cli c' s2)) (prefs_db s2) true). split; [rewrite E; step_with E2; done|].
  split; [by rewrite <-Hw|]. split_and!; done.
Qed.

End Pages.

(** ** Witnesses and examples *)

Lemma one_request_check text : (4 <=? length text)%nat = true → forallb (λ c, negb (c =? 0)) text = true →
  forallb (λ j, eqb (bool_decide (match_at text (crlf ++ crlf) j)) (j + 4 =? length text)%nat) (seq 0 (length text)) = true → one_request text.
Proof.
  intros H4 Hn Hm. apply Nat.leb_le in H4. split; [done|]. split.
  - intros j. destruct (decide (j < length text)%nat) as [Hj|Hj].
    + rewrite forallb_forall in Hm. specialize (Hm j ltac:(apply in_seq; lia)). apply eqb_prop in Hm. rewrite <-Nat.eqb_eq, <-Hm. symmetry. apply bool_decide_eq_true.
    + split; [|lia]. unfold match_at. rewrite drop_ge by lia. done.
  - unfold no_nul. apply Forall_forall. intros c Hc. rewrite forallb_forall in Hn. specialize (Hn c ltac:(by apply list_elem_of_In)). intros ->. done.
Qed.

Definition page_url : bytes := bytes_of "http://h/".
Definition get_text : bytes := request_text (bytes_of "GET") page_url (bytes_of "HTTP/1.0") 13 [10; 13; 10].
Definition get_client (text : bytes) : io := Io (replicate 400 (Moved 20)) (replicate 400 Ready) [] text.
Definition page_conn (response : bytes) : io := Io (Moved 99 :: replicate 150 (Moved 1)) [] [] response.
Definition get_go (response : bytes) : go (Monitor := unit) (DB := gmap (list Z) (list Z)) :=
  Go (Px (Fe (get_client get_text) (ClibState (parts demo_clib) (query_tv demo_clib) (udp_retries demo_clib) [page_conn response] [])) []) demo_state false.
Definition gone_page : bytes := bytes_of "HTTP/1.0 404 Gone" ++ [10; 10] ++ bytes_of "no".
Definition text_page : bytes := bytes_of "HTTP/1.0 200 OK" ++ [10] ++ bytes_of "Content-Type: text/html" ++ [10; 10] ++ bytes_of "page".
Definition ok_Distill (h : list call) (c : call) : DistillerStatus * DistillerData := (distOk, demo_answer [demo_type; demo_length]).
Definition agg_url : bytes := bytes_of "http://agg.".
Definition submit_url : bytes := bytes_of "http://prefs/set".
Definition show_url : bytes := bytes_of "http://prefs/get".

Lemma get_request response : sends_request (client (get_go response)) (bytes_of "GET") page_url (bytes_of "HTTP/1.0") 13 [10; 13; 10] 300.
Proof.
  split.
  - split; [reflexivity|]. split; [apply Forall_replicate; done|]. cbn [xfers sels get_client client px_of front cli get_go]. rewrite !length_replicate. done.
  - reflexivity.
  - apply one_request_check; vm_compute; reflexivity.
  - vm_compute. reflexivity.
  - apply Nat.leb_le. vm_compute. reflexivity.
  - split; [discriminate|]. apply (bool_decide_unpack _). vm_compute. exact I.
  - split; [discriminate|]. apply (bool_decide_unpack _). vm_compute. exact I.
  - split; [|split; [right; left|reflexivity]]. intros y Hy. repeat (apply elem_of_cons in Hy as [-> |Hy]; [apply (bool_decide_unpack _); vm_compute; exact I|]). by apply not_elem_of_nil in Hy.
Qed.

Lemma get_user response : knows_user (default_prefs demo_state) (prefs_db (get_go response)) ∅ 10.
Proof.
  destruct (init_tracks demo_open (bytes_of "prefs") demo_state ∅ eq_refl demo_holds) as [Hd T].
  split; [exact T|]. split; [exact Hd|]. split; [split; [lia|reflexivity]|]. split; [vm_compute; reflexivity|]. split; [|vm_compute; reflexivity].
  apply (bool_decide_unpack _). vm_compute. exact I.
Qed.

Lemma get_plain : plain_url agg_url submit_url show_url (proxied_url page_url).
Proof. split_and!; vm_compute; reflexivity. Qed.

Lemma page_passed_on_witness : ∃ r h s',
  http_go_proc demo_names demo_opts demo_getsockname (λ _, 7) ok_Distill agg_url submit_url show_url None zero_list (demo_answer []) (Some 10) root_task (get_go gone_page) = Ret (h, s') ∧
  wire (client s') = bytes_of "HTTP/1.0 404 Gone" ++ crlf ++ header_line TRANSEND_STATUS_HEADER r ++ crlf ++ bytes_of "no" ∧
  r = bytes_of "201 Non-OK server status" ∧ closed s' = true ∧ calls (px_of s') = [].
Proof.
  destruct (page_passed_on demo_names demo_opts demo_getsockname (λ _, 7) ok_Distill agg_url submit_url show_url None zero_list (demo_answer []) (get_go gone_page)
    (bytes_of "GET") page_url (bytes_of "HTTP/1.0") 13 [10; 13; 10] 300 (default_prefs demo_state) ∅ 10) with
    (p1 := (match Part_GetTCPsock demo_names demo_opts page_url (parts demo_clib) with Ret (_, p) => p | _ => parts demo_clib end))
    (f := 3) (c := page_conn gone_page) (ps := @nil io) (e := 19%nat) (status := 404) as (r&h&s'&E&Hw&_&Hr&Hcl&_&Hc&_).
  - apply get_request.
  - split; [reflexivity|right; reflexivity].
  - apply get_user.
  - exact get_plain.
  - unfold cache_answers. split_and!; [vm_compute; reflexivity|reflexivity|vm_compute; reflexivity|apply Nat.ltb_lt; vm_compute; reflexivity|vm_compute; discriminate|vm_compute; reflexivity|vm_compute; reflexivity].
  - unfold no_nul. apply (bool_decide_unpack _). vm_compute. exact I.
  - vm_compute. reflexivity.
  - apply Nat.leb_le. vm_compute. reflexivity.
  - left. discriminate.
  - exists r, h, s'. split; [exact E|]. split; [rewrite Hw; vm_compute; reflexivity|]. split; [apply Hr; discriminate|]. split; [exact Hcl|exact Hc].
Defined.

(** An answer has one text. *)
Lemma plain_answer_unique d st fs b st2 fs2 b2 f : plain_answer d st fs b → plain_answer d st2 fs2 b2 →
  render st (fs ++ [f]) = render st2 (fs2 ++ [f]) ∧ b = b2.
Proof.
  intros (((r1&H1&L1&_)&_)&_&(q1&Q1&K1&_)&_) (((r2&H2&L2&_)&_)&_&(q2&Q2&K2&_)&_). split.
  - assert (render st fs = render st2 fs2) as E by (rewrite H1 in H2; injection H2 as H2; apply app_inj_1 in H2 as [? _]; [done|lia]).
    unfold render in *. rewrite !app_assoc in E. apply app_inv_tail in E. rewrite !render_fields_app, <-!app_assoc in *. rewrite (app_assoc crlf (render_fields fs)), (app_assoc crlf (render_fields fs2)), (app_assoc st), (app_assoc st2). by rewrite E.
  - rewrite Q1 in Q2. injection Q2 as Q2. apply app_inj_1 in Q2 as [? _]; [done|lia].
Qed.


(** A user with fifty preferences: the address is stored behind the list. *)
Example full_list_overflows : add_client_ip (MkArgumentList (Z.of_nat MAX_ARGS) (replicate MAX_ARGS (blank_arg 5))) 10 = Crash.
Proof. vm_compute. reflexivity. Qed.

(** A long URL in the front end's name space, for which there is no distiller:
    it is copied over the end of the buffer for error messages. *)
Example long_url_overflows :
  finish_distillation (Monitor := unit) (λ _, 7) agg_url (set_svr_hdrs (block_of (render demo_status [demo_type])) init_Request) demo_prefs
    (47 :: replicate 512 97) distDistillerNotFound (get_go []) = Crash.
Proof. vm_compute. reflexivity. Qed.
